(* ===== verification/_CoqProject ===== *)
-Q . S2P
Prelude.v
PyFloat.v
PyText.v
PyLines.v
PyJson.v
Sha256.v
CoreTypes.v
Markers.v
Enumerator.v
Applier.v
MutationSpec.v
Gate.v
GateSpec.v
Board.v
Pareto.v
ParetoSpec.v
Governance.v
GovernanceSpec.v
Params.v
Records.v
Configuration.v
Journal.v
Lineage.v
Measurement.v
Loss.v
Scoring.v
Aggregation.v
AggregationSpec.v
Strategy.v
FieldRecord.v
Receipt.v
ReceiptSpec.v
JournalSpec.v
Resolve.v
ResolveSpec.v
Rating.v
PlackettLuce.v
RatingSpec.v
DetectableEffect.v
ChampionGate.v
Driver.v
Gauntlet.v
Bracket.v
SingleElim.v
SingleElimSpec.v
DoubleElim.v
DoubleElimSpec.v
Swiss.v
SwissSpec.v
Racing.v
RacingSpec.v
EvidenceGate.v
Confirmation.v
ConfirmationSpec.v
Registry.v
RegistrySpec.v
Replicates.v
Control.v
ControlSpec.v
Containment.v
Verdict.v
VerdictSpec.v
Settlement.v
ReceiptScans.v
ReplaySpec.v
SettlementSpec.v
RoundLog.v
RoundLogSpec.v
EventLog.v
Dialects.v
Reducer.v
LossCodec.v
TelemetrySpec.v
Kernel.v
Lock.v
Host.v
Elo.v
Recombine.v
Resume.v
ResumeSpec.v
