(* ===== verification/Prelude.v ===== *)
(** * zicato: a verification library

    zicato evolves an agent: round after round it proposes mutated challengers, runs
    them against the champion on a board of tasks, and promotes a challenger only when
    a chain of decisions allows it.  This library models that chain, from the loss of a
    single run to the verdict a round commits, and proves what each link promises and
    what they promise together.

    ** From a run to a verdict

    A run leaves a log of events ([EventLog], telemetry/event_log.py, json_lines.py and
    terminal_event.py), or the output of another dialect ([Dialects],
    telemetry/dialects.py), which the reducer turns into a loss profile ([Reducer],
    telemetry/reducer.py; [Loss], core/loss.py), stored as a record ([LossCodec],
    core/configuration.py).  The scoring seams turn its
    metrics into a drift loss and a scalar ([Scoring], scoring/*.py), replicates of a
    duel are folded and a generation is aggregated ([Aggregation],
    tournament/scoring.py).  Two aggregates meet in the promote gate ([Gate],
    tournament/gate.py).  A tournament structure decides who meets whom: the interface
    ([Strategy], selection/strategy.py) has one implementation per structure
    ([Gauntlet], [SingleElim], [DoubleElim], [Swiss], [Racing] over [ChampionGate] and
    [Bracket]), built by [Registry] and driven by [Driver] (selection/driver.py).  A
    proposed promotion may be confirmed by fresh replicates ([EvidenceGate],
    [Confirmation]), is confirmed on the holdout slice of the board ([Board],
    board/split.py) within the budget of the ladder ([Governance],
    tournament/ladder.py and governance.py), passes the integrity checks
    ([Containment]) and the operator's overrides ([Control], runtime/control*.py), and
    becomes the verdict of the round ([Verdict], evolve/gate.py).  The near misses are
    kept on the Pareto frontier ([Pareto], epoch/pareto.py).

    The verdict is then settled ([Settlement], evolve/settlement*.py and
    adapters/round_api.py): it becomes one outcome per challenger and a receipt
    ([Receipt], epoch/settlement_receipt.py), the receipt is written first, and
    replaying it writes everything else: the tournament's record ([FieldRecord],
    epoch/tournament_record.py), the outcome of each experiment ([Journal],
    epoch/journal.py), the lineage ([Lineage], epoch/lineage.py), the committed event of
    the log, and the one announcement of a promotion to the adapter.  After a crash
    [recover_receipt] replays what the receipt says, and the restart ([Resume],
    runtime/resume.py) resumes or discards what the interrupted round left behind.

    Three more parts stand beside this chain.  Everything above is written by one process
    at a time: the lock of a workspace and the permits of the workers ([Lock],
    runtime/lock.py and spawn_permit.py) are programs of system calls over a kernel of
    descriptors and advisory locks ([Kernel]), interleaved on a host of processes that
    fork and die ([Host]).  A challenger is made by patching the
    champion's source at the places its markers declare ([Markers], [Enumerator],
    [Applier], mutation/*.py); and a round writes what happens in it to an append-only
    log from which its summary is folded ([RoundLog], epoch/round_log.py).

    ** Files

    Foundations.  [Prelude]: results and exceptions, dictionaries as association lists
    with one binding per key (Python iterates them in insertion order, and several
    results depend on it), sorting, strings, hint database [zicato].  [PyFloat]:
    binary64 arithmetic on Rocq's primitive floats, [math.fsum] in full, [PyFormat] for
    printing.  [PyText]: character classes and [int()] of a string.  [PyLines]: texts by
    lines.  [PyJson]: JSON
    values, their conversions, the record format stamp (epoch/_storage.py).  [Sha256]:
    the hash in full, used by the board split, the racing schedule and the containment
    check.  [CoreTypes]: core/tournament.py, core/measurement.py, core/experiment.py,
    core/mutation.py, core/scoring_config.py.  [Records], [Configuration]: the strict
    decoders and checks of the canonical records (core/record_integrity.py,
    core/configuration.py).

    Components, each with its [...Spec] file of theorems and witnesses:
    - [Gate]/[GateSpec]: every rule of [evaluate_gate] and its explanation.
    - [EventLog], [Dialects], [Reducer], [LossCodec]/[TelemetrySpec]: the log of a run,
      its reader, the terminal frame, the loss profile and its record.
    - [Board]: entries, their validation, the split.
    - [Pareto]/[ParetoSpec]: dominance, the fold of a round, the frontier's file.
    - [Governance]/[GovernanceSpec]: the release rule, the durable state file,
      reservations and settlements, [confirm_crowning_holdout].
    - [Params]: knob constraints and TournamentStructure.
    - [Measurement]: draws, their JSON form, artifact names.
    - [Loss], [Scoring], [Aggregation]/[AggregationSpec].
    - [Strategy], [Driver], [ChampionGate], [Gauntlet], [Bracket], and
      [SingleElim], [DoubleElim], [Swiss], [Racing] with their [...Spec].
    - [Resolve]/[ResolveSpec]: margin matrix, Condorcet, Smith set, ranked pairs.
    - [Rating], [PlackettLuce]/[RatingSpec]: the two Newton fits, the standings of an audit.
    - [Elo]: the observations of the index's ledger and the ratings folded from them.
    - [DetectableEffect], [Replicates]: how many replicates to run.
    - [EvidenceGate], [Confirmation]/[ConfirmationSpec]; [Registry]/[RegistrySpec].
    - [Control]/[ControlSpec], [Containment], [Verdict]/[VerdictSpec].
    - [RoundLog]/[RoundLogSpec]: the events of a round, their file, the fold.
    - [Markers], [Enumerator], [Applier]/[MutationSpec]: the mutation surface of a tree
      and the patches applied to it.
    - [Journal]/[JournalSpec]: experiments, outcomes, their codecs and writers.  The
      workspace is a dictionary from paths to file contents, with the weakest precondition
      of a program over it and a crash condition.
    - [Recombine]: the pair of rejected challengers to merge, the diversity of a field.
    - [Kernel], [Lock], [Host]: system calls and what a program may
      do with what it holds; the lock and the permits; every interleaving of them.
    - [Lineage], [FieldRecord], [Receipt]/[ReceiptSpec]: the canonical records of a round.
    - [Settlement]/[SettlementSpec]: from the verdict to the records, the replay and the
      recovery.  [ReceiptScans] and [ReplaySpec] hold the invariants of one round and the
      preconditions of the scans and of every step of the replay.
    - [Resume]/[ResumeSpec]: the restart of an interrupted run, over the records of
      [Journal] and an interface of the stores of source ([GenerationStore],
      epoch/genstore.py), with the directory store as an instance.

    ** What is proved

    - Telemetry ([TelemetrySpec], [LossCodec]).  A log reduces to the same profile in
      either spelling and shape of its events, among whatever other lines and with a torn
      end, whether goldfive's strict parser reads it or the tolerant reader does; drift is counted once and charged once, to the judge that raised it; the
      terminal frame, rendered by goldfive or by the fallback, ends a killed run, unless
      the kill tore the last line; what scoring
      reads off a profile is bounded whatever the events said; memory failures are the
      pairs of repeated turns; a loss record is written and read without loss.
    - Decisions.  The gate refines a boolean specification ([GateSpec]); a promotion
      passed every rule; the holdout can only veto.  A draw that never ran defers
      ([AggregationSpec], composing fold, aggregate and gate).  Every promotion of a
      round is accounted for, by an operator's file or by gate, holdout, ladder and
      integrity together, and the recorded crowning is consistent ([VerdictSpec]).
    - Tournaments.  Each structure, driven over duels that answer their matchups,
      terminates within a stated number of batches and crowns only by the gate; the
      registry's strategies inherit it, with or without the evidence pre-gate; a cut of
      [Racing] keeps exactly the quota of its rung and those the noise cannot tell from
      its line; with the pre-gate the crown rests on fresh, distinct draws within the
      replicate budget ([ConfirmationSpec]).
    - Durable state.  The ladder's budget holds through every history of reservations,
      settlements and crashes, pending queries counted; a withheld answer shows the one
      who asked nothing but the scalar of its slice; the file round-trips
      ([GovernanceSpec]); operator commands are claimed once, whole and on the record
      in every crash state ([ControlSpec]); the frontier's file refines its fold, the
      frontier is an antichain that forgets nobody ([ParetoSpec]); artifact names and
      draws determine each other ([Measurement]).
    - The log of a round replays: every committed event is read back in order and
      numbered without a gap, wherever a crash cuts an append off, between its newline and
      its return too, and the fold is a declarative summary of the events ([RoundLogSpec]).
    - Mutation ([MutationSpec]).  A patch of a region cannot reach outside it nor put a
      marker inside it, and leaves the other points of a text file as they were; a batch
      is applied whole or not at all, unless an infinite number escapes the clean-up, and
      touches no file that declares nothing; markers parse back to what was written.
    - Settlement ([SettlementSpec], [JournalSpec]).  A commit completes, even when the
      refresh of the index fails, and leaves the round recorded, the result of the refresh
      too, and nothing touched but its receipt; what the verdict decides
      is what the store reads back; from any crash recovery finds either no receipt and
      changes nothing, or a receipt and records the whole round; the adapter hears of a
      promotion at most once however often the round is replayed; the crowning
      invariant never trips on a verdict of [Verdict]; a receipt and an experiment are
      written and decoded without loss.
    - Restart ([ResumeSpec]).  Wherever a restart is cut off, it leaves the source, the
      record and the runs of a generation the records have settled as they were; a
      discard that was cut off is found again by the next restart until everything it
      removes is gone, the lineage being written last; a plan to resume names the latest
      generation, with its experiment, its source, a finished run and one pending row of
      the lineage, none of them touched.
    - One writer ([Host]).  Whatever is interleaved and whoever forks or dies, at most
      one handle of a workspace passes its checks and the record on disk is its own; a
      record left by a dead writer keeps nobody out; a pool of permits admits no more
      invocations than its slots and the unlocks its forked copies have made.
    - Orders and arithmetic.  Aggregates do not depend on the order of the losses, the
      split is a partition that depends on the entries alone, ranked pairs and the Smith
      set meet their definitions, the fits do not depend on the order they are fed, nor the ratings of the
      index on the order of the ledger ([Elo]).

    ** Conventions

    A function that may raise returns [result]; a loop without a structural bound takes
    fuel, and a theorem shows the fuel suffices ([*_tournament], confirmation within
    its budget) or the loop is bounded by construction (Newton and bisection run a fixed
    number of steps in the source).  [boolean_board_mean] bounds the votes by
    [vote_bound] = 64 because it compares two float divisions by evaluation.  Files are
    values: an operation returns the states its writes leave, oldest first, so a crash
    is a prefix; the lock of a workspace makes operations run one after the other, which
    [Host] shows of its implementation.  The settlement runs in
    a monad over the workspace ([Journal]) in which every write is a step and a crash
    may fall between any two; a file of the workspace holds the JSON value its writer
    was given, so the order of its keys and the formatting of the text are left out.  Strings are byte
    strings compared by code; [str.lower], [strip] and the digit classes are ASCII.
    Integer conversions beyond the floats raise OverflowError in Python and are infinite
    here unless a definition says otherwise; Python's limit of 4300 digits is not
    modelled.  [math.fsum] raises on intermediate overflow only when its result would;
    sets are iterated in insertion order where the source's order cannot matter.  An
    absent key and a null of an aggregate are one ([None]).

    Outside code is a parameter with the behaviour the program relies on: libm
    ([Libm]), formatting ([PyFormat], [PyRepr], [PyConv], [PyFloatParse]), the calendar
    ([PyTime]), goldfive's strict parser of logs ([Goldfive]), the JSON text of a value, the JSON
    parser, Python's own parser ([PyAst], [PyExpr]), the clock, the runner of duels, the
    scoring plugins, the adapter's promotion hook and the refresh of the index.  A
    restart takes the frozen contract of the epoch and the order in which a directory is
    emptied as arguments, and the theorems hold for each of them; the directory of a run
    goes in one step.

    ** Not modelled

    Text reports, the dashboard, the query layer and the SQLite index (but for its ratings) read what is
    decided here; the proposer, the judges and the emulator call language models; the
    stores of bytes, the worker processes and the supervisor are input and output.  A fork that
    falls inside an acquisition leaves the child a stray descriptor here that the hook of
    the source closes.  JSON
    decoding of the contract and of boards is outside, as are the matchers of
    expectations.

    The meta-loop emitter and the sinks of telemetry hand events to goldfive.

    ** What a continuation would take up

    The histories of the lineage, the gen_score file (tournament/scoring.py), the
    dead-letter queue, the git store of source (epoch/git_genstore.py) against the laws
    of [GenerationStore], and the mutation policy (mutation/policy.py). *)

From Stdlib Require Import PrimFloat.
From stdpp Require Export base gmap strings list sorting pretty.

(** * Automation *)

(** Case analysis on the key comparisons of a dictionary operation. *)
Ltac dict_cases := repeat (case_decide; simplify_eq/=); try congruence; auto.

(** Lemmas that keep dictionaries well formed: one binding per key. *)
Create HintDb zicato discriminated.

(** * Python exceptions

    A function that may raise returns a [result].  The constructors carry the
    exception class the source raises and its message. *)
Inductive exn :=
  | ValueError (msg : string)
  | TypeError (msg : string)
  | RecordError (msg : string)
  | KeyError (key : string)
  | RuntimeError (msg : string)
  | OverflowError
  | ZeroDivisionError
  | AssertionError
  | ConfigurationError (path kind msg : string)
  | OtherException (class_name : string).

Inductive result (A : Type) :=
  | Ok (a : A)
  | Raise (e : exn).
Arguments Ok {A} a.
Arguments Raise {A} e.

Definition result_bind {A B} (r : result A) (k : A -> result B) : result B :=
  match r with Ok a => k a | Raise e => Raise e end.

Definition is_ok {A} (r : result A) : bool :=
  match r with Ok _ => true | Raise _ => false end.

Declare Scope zicato_scope.
Delimit Scope zicato_scope with zicato.
Notation "'try' x <- r ; k" := (result_bind r (fun x => k))
  (at level 10, x pattern, r at level 100, k at level 200)
  : zicato_scope.
Notation "'ensure' b 'orelse' e ; k" := (if b then k else Raise e)
  (at level 10, b at level 100, e at level 100, k at level 200)
  : zicato_scope.
Open Scope zicato_scope.

Lemma result_bind_ok {A B} (r : result A) (k : A -> result B) b :
  result_bind r k = Ok b <-> exists a, r = Ok a /\ k a = Ok b.
Proof. destruct r; cbn; [naive_solver|]. split; [done|]. by intros (? & ? & ?). Qed.

(** [mapM] of a fallible function, stopping at the first exception. *)
Fixpoint result_map {A B} (f : A -> result B) (l : list A) : result (list B) :=
  match l with
  | [] => Ok []
  | x :: l => try y <- f x; try ys <- result_map f l; Ok (y :: ys)
  end.

Lemma result_map_ok {A B} (f : A -> result B) l l' :
  result_map f l = Ok l' -> Forall2 (fun x y => f x = Ok y) l l'.
Proof.
  revert l'. induction l as [|x l IH]; intros l' H; simplify_eq/=; [constructor|].
  apply result_bind_ok in H as (y & Hy & H).
  apply result_bind_ok in H as (ys & Hys & [= <-]). constructor; auto.
Qed.

(** A loop whose body may raise. *)
Fixpoint result_foldl {A B} (f : A -> B -> result A) (acc : A) (l : list B) : result A :=
  match l with
  | [] => Ok acc
  | x :: l => try acc <- f acc x; result_foldl f acc l
  end.

Lemma result_foldl_app {A B} (g : A -> B -> result A) acc l l' :
  result_foldl g acc (l ++ l') = try acc <- result_foldl g acc l; result_foldl g acc l'.
Proof. revert acc. induction l as [|x l IH]; intros acc; cbn; [done|]. by destruct (g acc x); cbn. Qed.

(** * Python dictionaries

    A [dict] keeps the insertion order of its keys, and the source iterates
    over dictionaries, so they are association lists with one binding per key:
    assignment updates the binding in place or appends a new one. *)
Section Dict.
Context {K V : Type} `{EqDecision K}.

(** [d.get(k)] *)
Fixpoint dict_get (d : list (K * V)) (k : K) : option V :=
  match d with
  | [] => None
  | (k', v) :: d => if decide (k' = k) then Some v else dict_get d k
  end.

(** [d[k] = v] *)
Fixpoint dict_set (d : list (K * V)) (k : K) (v : V) : list (K * V) :=
  match d with
  | [] => [(k, v)]
  | (k', v') :: d =>
      if decide (k' = k) then (k', v) :: d else (k', v') :: dict_set d k v
  end.

(** [del d[k]], which [d.pop(k, None)] performs when [k] is bound. *)
Fixpoint dict_del (d : list (K * V)) (k : K) : list (K * V) :=
  match d with
  | [] => []
  | (k', v') :: d => if decide (k' = k) then d else (k', v') :: dict_del d k
  end.

Definition dict_keys (d : list (K * V)) : list K := d.*1.

(** [d.get(k, default)] *)
Definition dict_get_or (d : list (K * V)) (k : K) (default : V) : V :=
  from_option id default (dict_get d k).

(** [k in d] *)
Definition dict_mem (d : list (K * V)) (k : K) : bool :=
  match dict_get d k with Some _ => true | None => false end.

(** [d.setdefault(k, v)] *)
Definition dict_setdefault (d : list (K * V)) (k : K) (v : V) : list (K * V) :=
  if dict_mem d k then d else dict_set d k v.

Lemma dict_get_set_eq d k v : dict_get (dict_set d k v) k = Some v.
Proof. induction d as [|[k' v'] d IH]; cbn; dict_cases. Qed.

Lemma dict_get_set_ne d k k' v : k <> k' -> dict_get (dict_set d k v) k' = dict_get d k'.
Proof. intros. induction d as [|[k2 v2] d IH]; cbn; dict_cases. Qed.

Lemma dict_set_same d k v : dict_get d k = Some v -> dict_set d k v = d.
Proof.
  induction d as [|[k' v'] d IH]; cbn; [done|]. case_decide; [by intros [= ->]; subst|].
  intros. by rewrite IH.
Qed.

Lemma dict_get_set d k k' v :
  dict_get (dict_set d k v) k' = if decide (k = k') then Some v else dict_get d k'.
Proof. case_decide; subst; auto using dict_get_set_eq, dict_get_set_ne. Qed.

Lemma dict_get_del_ne d k k' : k <> k' -> dict_get (dict_del d k) k' = dict_get d k'.
Proof. intros. induction d as [|[k2 v2] d IH]; cbn; dict_cases. Qed.

Lemma dict_get_None d k : dict_get d k = None <-> k ∉ dict_keys d.
Proof.
  unfold dict_keys. induction d as [|[k' v] d IH]; cbn; [set_solver|].
  case_decide; set_solver.
Qed.

Lemma dict_get_Some_elem d k v : dict_get d k = Some v -> (k, v) ∈ d.
Proof. induction d as [|[k' v'] d IH]; cbn; [done|]. case_decide; set_solver. Qed.

Lemma dict_mem_true d k : dict_mem d k = true <-> k ∈ dict_keys d.
Proof.
  unfold dict_mem. destruct (dict_get d k) eqn:E.
  - split; [|done]. intros _. apply dict_get_Some_elem in E.
    apply list_elem_of_fmap. by exists (k, v).
  - apply dict_get_None in E. naive_solver.
Qed.

Lemma dict_elem_get d k v : NoDup (dict_keys d) -> (k, v) ∈ d -> dict_get d k = Some v.
Proof.
  unfold dict_keys. induction d as [|[k' v'] d IH]; cbn; [set_solver|].
  intros [Hk Hd]%NoDup_cons [[= -> ->]|Hin]%elem_of_cons; [by case_decide|].
  case_decide; [|auto]. subst. destruct Hk. apply list_elem_of_fmap. by exists (k, v).
Qed.

Lemma dict_keys_set d k v :
  dict_keys (dict_set d k v)
  = if decide (k ∈ dict_keys d) then dict_keys d else dict_keys d ++ [k].
Proof.
  unfold dict_keys. induction d as [|[k' v'] d IH]; cbn.
  - case_decide; [set_solver|done].
  - destruct (decide (k' = k)) as [->|Hne]; cbn.
    + rewrite decide_True; [done|set_solver].
    + rewrite IH. destruct (decide (k ∈ d.*1)).
      * rewrite decide_True; [done|set_solver].
      * rewrite decide_False; [done|set_solver].
Qed.

Lemma dict_set_fresh d k v : k ∉ dict_keys d -> dict_set d k v = d ++ [(k, v)].
Proof.
  unfold dict_keys. induction d as [|[k' v'] d IH]; cbn; [done|].
  intros Hk. case_decide; [set_solver|]. rewrite IH; set_solver.
Qed.

Lemma NoDup_dict_keys_set d k v : NoDup (dict_keys d) -> NoDup (dict_keys (dict_set d k v)).
Proof.
  intros. rewrite dict_keys_set. case_decide; [done|].
  apply NoDup_app. split_and!; [done| |apply NoDup_singleton]. set_solver.
Qed.

Lemma dict_del_sublist d k : sublist (dict_del d k) d.
Proof.
  induction d as [|[k' v'] d IH]; cbn; [constructor|].
  case_decide; by constructor.
Qed.

Lemma NoDup_dict_keys_del d k : NoDup (dict_keys d) -> NoDup (dict_keys (dict_del d k)).
Proof. intros. eapply sublist_NoDup; [done|]. apply fmap_sublist, dict_del_sublist. Qed.

Lemma dict_get_del_eq d k : NoDup (dict_keys d) -> dict_get (dict_del d k) k = None.
Proof.
  unfold dict_keys. induction d as [|[k' v'] d IH]; cbn; [done|].
  intros [Hk Hd]%NoDup_cons. case_decide; subst.
  - by apply dict_get_None.
  - cbn. case_decide; [done|auto].
Qed.


Lemma dict_get_del d k k' :
  NoDup (dict_keys d) -> dict_get (dict_del d k) k' = if decide (k = k') then None else dict_get d k'.
Proof. intros. case_decide; [subst; by apply dict_get_del_eq|by apply dict_get_del_ne]. Qed.

Lemma dict_get_filter (keep : K * V -> bool) d k :
  NoDup (dict_keys d) ->
  dict_get (List.filter keep d) k
  = match dict_get d k with Some v => if keep (k, v) then Some v else None | None => None end.
Proof.
  unfold dict_keys. induction d as [|[k' v] d IH]; [done|]. cbn. intros [Hk Hd]%NoDup_cons.
  destruct (keep (k', v)) eqn:E; cbn.
  - case_decide; subst; [by rewrite E|auto].
  - rewrite IH by done. case_decide; subst; [|done]. rewrite E.
    by rewrite (proj2 (dict_get_None d k)).
Qed.
End Dict.

#[global] Arguments dict_keys {K V} d : simpl never.
#[global] Arguments dict_get_or {K V _} d k default : simpl never.
#[global] Arguments dict_mem {K V _} d k : simpl never.

#[export] Hint Resolve NoDup_dict_keys_set NoDup_dict_keys_del : zicato.


(** * [sorted], [min] and [max]

    [sorted(xs, key)] is stable and compares keys with [<] alone.  [lt x y] is
    "the key of [x] is below the key of [y]". *)
Section Sort.
Context {A : Type} (lt : A -> A -> bool).

Fixpoint sort_insert (x : A) (l : list A) : list A :=
  match l with
  | [] => [x]
  | y :: l => if lt y x then y :: sort_insert x l else x :: y :: l
  end.

Definition py_sorted (l : list A) : list A := foldr sort_insert [] l.

(** [min(xs, key)] keeps the first of several minima. *)
Definition py_min_from (x : A) (l : list A) : A :=
  foldl (fun best y => if lt y best then y else best) x l.

Definition py_min (l : list A) : option A :=
  match l with [] => None | x :: l => Some (py_min_from x l) end.

(** [max(xs, key)] keeps the first of several maxima. *)
Definition py_max (l : list A) : option A :=
  match l with
  | [] => None
  | x :: l => Some (foldl (fun best y => if lt best y then y else best) x l)
  end.

Lemma sort_insert_perm x l : sort_insert x l ≡ₚ x :: l.
Proof.
  induction l as [|y l IH]; cbn; [done|]. case_match; [|done].
  rewrite IH. constructor.
Qed.

Lemma py_sorted_perm l : py_sorted l ≡ₚ l.
Proof. induction l as [|x l IH]; cbn; [done|]. by rewrite sort_insert_perm, IH. Qed.

Lemma elem_of_py_sorted x l : x ∈ py_sorted l <-> x ∈ l.
Proof. by rewrite py_sorted_perm. Qed.

Lemma length_py_sorted l : length (py_sorted l) = length l.
Proof. apply Permutation_length, py_sorted_perm. Qed.

Lemma py_sorted_nil l : py_sorted l = [] -> l = [].
Proof. intros H. apply Permutation_nil_r. by rewrite <-H, py_sorted_perm. Qed.

Lemma NoDup_py_sorted l : NoDup l -> NoDup (py_sorted l).
Proof. by rewrite py_sorted_perm. Qed.

(** The order of a sorted list, for a strict weak order of the keys. *)
Class StrictWeakOrder (P : A -> Prop) : Prop := {
  swo_irrefl x : P x -> lt x x = false;
  swo_asym x y : P x -> P y -> lt x y = true -> lt y x = false;
  swo_neg_trans x y z :
    P x -> P y -> P z -> lt x y = false -> lt y z = false -> lt x z = false;
}.

Definition not_after (x y : A) : Prop := lt y x = false.

Lemma sort_insert_sorted P `{StrictWeakOrder P} x l :
  P x -> Forall P l -> StronglySorted not_after l -> StronglySorted not_after (sort_insert x l).
Proof.
  intros Hx Hl Hs. induction Hs as [|y l Hs IH Hy]; cbn; [repeat constructor|].
  apply Forall_cons in Hl as [HPy Hl].
  destruct (lt y x) eqn:E.
  - constructor; [auto|]. rewrite sort_insert_perm. constructor; [|done].
    unfold not_after. eapply swo_asym; eauto.
  - constructor; [by constructor|]. constructor; [done|].
    rewrite Forall_forall in Hy, Hl |- *. intros z Hz.
    unfold not_after in *. eapply (swo_neg_trans _ y); eauto.
Qed.

Lemma py_sorted_sorted P `{StrictWeakOrder P} l :
  Forall P l -> StronglySorted not_after (py_sorted l).
Proof.
  induction l as [|x l IH]; cbn; [constructor|]. intros [Hx Hl]%Forall_cons.
  eapply sort_insert_sorted; eauto. by rewrite py_sorted_perm.
Qed.

(** The head of a sorted list is a minimum. *)
Lemma py_sorted_head P `{StrictWeakOrder P} l x l' :
  Forall P l -> py_sorted l = x :: l' -> x ∈ l /\ forall y, y ∈ l -> lt y x = false.
Proof.
  intros HP Hs. pose proof (py_sorted_sorted P l HP) as Hss. rewrite Hs in Hss.
  assert (x ∈ l) as Hx by (rewrite <-elem_of_py_sorted, Hs; set_solver).
  split; [done|]. intros y Hy. rewrite <-elem_of_py_sorted, Hs in Hy.
  apply elem_of_cons in Hy as [->|Hy].
  - eapply swo_irrefl. by eapply Forall_forall in HP.
  - apply StronglySorted_inv in Hss as [_ Hf]. rewrite Forall_forall in Hf. by apply Hf.
Qed.

Lemma py_min_from_elem x l : py_min_from x l ∈ x :: l.
Proof.
  unfold py_min_from. revert x. induction l as [|y l IH]; intros x; cbn; [set_solver|].
  specialize (IH (if lt y x then y else x)). case_match; set_solver.
Qed.

Lemma py_min_elem l x : py_min l = Some x -> x ∈ l.
Proof. destruct l; intros [= <-]. apply py_min_from_elem. Qed.

Lemma py_min_from_le P `{StrictWeakOrder P} x l y :
  P x -> Forall P l -> y ∈ x :: l -> lt y (py_min_from x l) = false.
Proof.
  unfold py_min_from. revert x y. induction l as [|z l IH]; intros x y Hx Hl Hy; cbn.
  - apply list_elem_of_singleton in Hy as ->. by apply (@swo_irrefl P _).
  - apply Forall_cons in Hl as [Hz Hl].
    destruct (lt z x) eqn:E; [|].
    + apply elem_of_cons in Hy as [->|[->|Hy]%elem_of_cons]; [|apply IH; [done|done|set_solver]..].
      assert (Hmin : lt z (foldl (fun best y => if lt y best then y else best) z l) = false)
        by (apply IH; [done|done|set_solver]).
      pose proof (py_min_from_elem z l) as Hm. unfold py_min_from in Hm.
      eapply (@swo_neg_trans P _ _ z); eauto; [|by eapply swo_asym].
      eapply Forall_forall; [|exact Hm]. by constructor.
    + apply elem_of_cons in Hy as [->|[->|Hy]%elem_of_cons]; [apply IH; [done|done|set_solver]| |apply IH; [done|done|set_solver]].
      assert (Hmin : lt x (foldl (fun best y => if lt y best then y else best) x l) = false)
        by (apply IH; [done|done|set_solver]).
      pose proof (py_min_from_elem x l) as Hm. unfold py_min_from in Hm.
      eapply (@swo_neg_trans P _ _ x); eauto.
      eapply Forall_forall; [|exact Hm]. by constructor.
Qed.
End Sort.

(** A sort key compared through a function. *)
Lemma swo_on {A B} (f : A -> B) (lt : B -> B -> bool) (P : B -> Prop) :
  StrictWeakOrder lt P -> StrictWeakOrder (fun x y => lt (f x) (f y)) (fun x => P (f x)).
Proof.
  intros H. split; intros *; [apply (@swo_irrefl _ _ _ H)|apply (@swo_asym _ _ _ H)|].
  apply (@swo_neg_trans _ _ _ H).
Qed.

Lemma swo_weaken {A} (lt : A -> A -> bool) (P Q : A -> Prop) :
  (forall x, Q x -> P x) -> StrictWeakOrder lt P -> StrictWeakOrder lt Q.
Proof.
  intros HQ H. split.
  - intros x ?. apply (@swo_irrefl _ _ _ H); auto.
  - intros x y ? ?. apply (@swo_asym _ _ _ H); auto.
  - intros x y z ? ? ?. apply (@swo_neg_trans _ _ _ H); auto.
Qed.

Lemma swo_ext {A} (lt lt' : A -> A -> bool) (P : A -> Prop) :
  (forall x y, lt' x y = lt x y) -> StrictWeakOrder lt P -> StrictWeakOrder lt' P.
Proof.
  intros He H. split; intros *; rewrite !He;
    [apply (@swo_irrefl _ _ _ H)|apply (@swo_asym _ _ _ H)|apply (@swo_neg_trans _ _ _ H)].
Qed.

(** Python compares tuples at the first component that differs. *)
Lemma lex_swo {A} (eq lt1 lt2 : A -> A -> bool) (P : A -> Prop) :
  StrictWeakOrder lt1 P -> StrictWeakOrder lt2 P ->
  (forall x y, P x -> P y -> eq x y = negb (lt1 x y) && negb (lt1 y x)) ->
  StrictWeakOrder (fun x y => if eq x y then lt2 x y else lt1 x y) P.
Proof.
  intros H1 H2 Heq. split.
  - intros x Hx. rewrite (@swo_irrefl _ _ _ H1 x), (@swo_irrefl _ _ _ H2 x) by done. by destruct (eq x x).
  - intros x y Hx Hy. rewrite (Heq x y), (Heq y x), andb_comm by done.
    destruct (negb (lt1 y x) && negb (lt1 x y)); [by apply (@swo_asym _ _ _ H2)|].
    by apply (@swo_asym _ _ _ H1).
  - intros x y z Hx Hy Hz. rewrite (Heq x y), (Heq y z), (Heq x z) by done.
    pose proof (@swo_neg_trans _ _ _ H1 x y z Hx Hy Hz).
    pose proof (@swo_neg_trans _ _ _ H1 z y x Hz Hy Hx).
    pose proof (@swo_neg_trans _ _ _ H1 y z x Hy Hz Hx).
    pose proof (@swo_neg_trans _ _ _ H1 z x y Hz Hx Hy).
    pose proof (@swo_neg_trans _ _ _ H2 x y z Hx Hy Hz).
    destruct (lt1 x y), (lt1 y x), (lt1 y z), (lt1 z y), (lt1 x z), (lt1 z x); cbn; naive_solver.
Qed.

#[export] Instance Z_ltb_swo : StrictWeakOrder Z.ltb (fun _ => True).
Proof. split; intros *; rewrite ?Z.ltb_ge, ?Z.ltb_lt; lia. Qed.

#[export] Instance nat_ltb_swo : StrictWeakOrder Nat.ltb (fun _ => True).
Proof. split; intros *; rewrite ?Nat.ltb_ge, ?Nat.ltb_lt; lia. Qed.

Lemma Z_eqb_ltb x y : (x =? y)%Z = negb (x <? y)%Z && negb (y <? x)%Z.
Proof. destruct (Z.eqb_spec x y), (Z.ltb_spec x y), (Z.ltb_spec y x); cbn; lia || done. Qed.

Lemma nat_eqb_ltb x y : (x =? y) = negb (x <? y) && negb (y <? x).
Proof. destruct (Nat.eqb_spec x y), (Nat.ltb_spec x y), (Nat.ltb_spec y x); cbn; lia || done. Qed.

(** In a sorted list whatever is strictly below comes first. *)
Definition precedes {A} (l : list A) (x y : A) : Prop :=
  exists l1 l2 l3, l = l1 ++ x :: l2 ++ y :: l3.

Lemma sorted_precedes {A} (lt : A -> A -> bool) l x y :
  StronglySorted (not_after lt) l -> x ∈ l -> y ∈ l -> lt x y = true -> x <> y -> precedes l x y.
Proof.
  intros Hs Hx Hy Hlt Hne. apply list_elem_of_split in Hx as (l1 & l2 & ->).
  rewrite elem_of_app, elem_of_cons in Hy. destruct Hy as [Hy|[->|Hy]]; [|done|].
  - exfalso. apply list_elem_of_split in Hy as (l3 & l4 & ->).
    rewrite <-app_assoc in Hs. cbn in Hs.
    assert (Hs' : StronglySorted (not_after lt) (y :: l4 ++ x :: l2)).
    { clear -Hs. induction l3 as [|z l3 IH]; [done|]. cbn in Hs. apply StronglySorted_inv in Hs as [? _]. auto. }
    apply StronglySorted_inv in Hs' as [_ Hf]. rewrite Forall_forall in Hf.
    assert (not_after lt y x) as Hc by (apply Hf; set_solver). unfold not_after in Hc. congruence.
  - apply list_elem_of_split in Hy as (l3 & l4 & ->). by exists l1, l3, l4.
Qed.

(** A sorted list stays as it is. *)
Lemma sorted_fixed {A} (lt : A -> A -> bool) l :
  StronglySorted (not_after lt) l -> py_sorted lt l = l.
Proof.
  induction 1 as [|x l Hs IH Hx]; [done|]. change (sort_insert lt x (py_sorted lt l) = x :: l). rewrite IH.
  destruct l as [|y l]; [done|]. cbn. apply Forall_cons in Hx as [Hy _]. by rewrite Hy.
Qed.

(** For an order that is total, sorting forgets the order of its input. *)
Lemma sorted_perm_unique {A} (lt : A -> A -> bool) l l' :
  (forall x y, lt x y = false -> lt y x = false -> x = y) ->
  StronglySorted (not_after lt) l -> StronglySorted (not_after lt) l' -> l ≡ₚ l' -> l = l'.
Proof.
  intros Htot Hs. revert l'. induction Hs as [|x l Hs IH Hx]; intros l' Hs' Hp.
  { by apply Permutation_nil_l in Hp. }
  destruct Hs' as [|y l' Hs' Hy]; [by apply Permutation_nil_r in Hp|].
  rewrite Forall_forall in Hx, Hy.
  assert (x = y) as ->.
  { assert (y ∈ x :: l) as Hyl by (rewrite Hp; set_solver).
    assert (x ∈ y :: l') as Hxl by (rewrite <-Hp; set_solver).
    apply elem_of_cons in Hyl as [->|Hyl]; [done|]. apply elem_of_cons in Hxl as [->|Hxl]; [done|].
    apply Htot; [by apply Hy|by apply Hx]. }
  f_equal. apply IH; [done|]. by apply Permutation_cons_inv in Hp.
Qed.

Lemma py_sorted_perm_eq {A} (lt : A -> A -> bool) P `{StrictWeakOrder A lt P} l l' :
  (forall x y, lt x y = false -> lt y x = false -> x = y) ->
  Forall P l -> l ≡ₚ l' -> py_sorted lt l = py_sorted lt l'.
Proof.
  intros Htot Hl Hp. apply (sorted_perm_unique lt); [done| | |].
  - by eapply py_sorted_sorted.
  - eapply py_sorted_sorted; [done|]. by rewrite <-Hp.
  - by rewrite !py_sorted_perm.
Qed.

(** * Strings *)

(** [sep.join(parts)] *)
Fixpoint py_join (sep : string) (parts : list string) : string :=
  match parts with
  | [] => ""
  | [p] => p
  | p :: parts => p +:+ sep +:+ py_join sep parts
  end.

Lemma str_app_length a b : String.length (a +:+ b) = String.length a + String.length b.
Proof. induction a as [|c a IH]; [done|]. exact (f_equal S IH). Qed.

(** Equal texts with the same suffix have the same start. *)
Lemma str_app_inv_r a b t : a +:+ t = b +:+ t -> a = b.
Proof.
  revert b. induction a as [|c a IH]; intros b H.
  - apply (f_equal String.length) in H. rewrite !str_app_length in H. destruct b; [done|]. cbn in H. lia.
  - destruct b as [|d b].
    + apply (f_equal String.length) in H. rewrite !str_app_length in H. cbn in H. lia.
    + cbn in H. injection H as -> H. f_equal. by apply IH.
Qed.

(** [a < b] on strings: code point order, which is byte order in UTF-8. *)
Definition str_lt (a b : string) : bool := negb (String.leb b a).

#[export] Instance str_lt_swo : StrictWeakOrder str_lt (fun _ => True).
Proof.
  unfold str_lt. split.
  - intros x _. apply negb_false_iff. by destruct (String.leb_total x x).
  - intros x y _ _ H%negb_true_iff. apply negb_false_iff.
    destruct (String.leb_total x y) as [|]; congruence.
  - intros x y z _ _ _ Hxy%negb_false_iff Hyz%negb_false_iff. apply negb_false_iff.
    apply Is_true_true. apply Is_true_true in Hxy, Hyz.
    assert (String.le z x) as H; [|done]. by transitivity y.
Qed.

Lemma str_lt_total a b : str_lt a b = false -> str_lt b a = false -> a = b.
Proof. unfold str_lt. rewrite !negb_false_iff. intros. by apply String.leb_antisym. Qed.

Lemma str_eqb_lt a b : String.eqb a b = negb (str_lt a b) && negb (str_lt b a).
Proof.
  unfold str_lt. rewrite !negb_involutive. destruct (String.eqb_spec a b) as [->|Hne].
  - by destruct (String.leb_total b b) as [->| ->].
  - destruct (String.leb b a) eqn:E1, (String.leb a b) eqn:E2; try done.
    by destruct (Hne (String.leb_antisym a b E2 E1)).
Qed.

Lemma str_lt_irrefl a : str_lt a a = false.
Proof. exact (@swo_irrefl _ _ _ str_lt_swo a I). Qed.

(** [sorted(strings)] *)
Definition sorted_strings (l : list string) : list string := py_sorted str_lt l.

(** [s.lower()] and [s.strip()] on ASCII text. *)
Definition ascii_lower (c : Ascii.ascii) : Ascii.ascii :=
  let n := Ascii.nat_of_ascii c in
  if (65 <=? n) && (n <=? 90) then Ascii.ascii_of_nat (n + 32) else c.

Fixpoint str_lower (s : string) : string :=
  match s with EmptyString => "" | String c s => String (ascii_lower c) (str_lower s) end.

Definition ascii_is_space (c : Ascii.ascii) : bool :=
  let n := Ascii.nat_of_ascii c in
  ((9 <=? n) && (n <=? 13)) || ((28 <=? n) && (n <=? 32)).

Fixpoint str_lstrip (s : string) : string :=
  match s with
  | EmptyString => ""
  | String c s' => if ascii_is_space c then str_lstrip s' else s
  end.

(** The end of the text: a suffix of spaces is dropped. *)
Fixpoint str_rstrip (s : string) : string :=
  match s with
  | EmptyString => ""
  | String c s' =>
      match str_rstrip s' with
      | EmptyString => if ascii_is_space c then "" else String c ""
      | s'' => String c s''
      end
  end.

Definition str_strip (s : string) : string := str_rstrip (str_lstrip s).

(** [s.startswith(prefix)], with the rest of [s]. *)
Fixpoint str_after_prefix (prefix s : string) : option string :=
  match prefix, s with
  | EmptyString, _ => Some s
  | String a prefix, String b s => if Ascii.eqb a b then str_after_prefix prefix s else None
  | String _ _, EmptyString => None
  end.

Definition str_startswith (prefix s : string) : bool := bool_decide (is_Some (str_after_prefix prefix s)).

(** [s.endswith(suffix)] *)
Fixpoint str_endswith (suffix s : string) : bool :=
  String.eqb suffix s
  || match s with EmptyString => false | String _ s => str_endswith suffix s end.

(** [set] built from a list, as the duplicate-free list of its elements. *)
Definition list_union (a b : list string) : list string := remove_dups (a ++ b).

(** [any] and [all] over a list, and [sum(1 for x in l if p x)]. *)
Definition count (A : Type) (p : A -> bool) (l : list A) : nat := length (List.filter p l).
Arguments count {A} p l.

(** * Lists *)

Lemma fmap_snd_elem {A B} (l : list (A * B)) a b : (a, b) ∈ l -> a ∈ l.*1.
Proof. intros. apply list_elem_of_fmap. by exists (a, b). Qed.

Lemma elem_of_filter_In {A} (p : A -> bool) (l : list A) x :
  x ∈ List.filter p l <-> x ∈ l /\ p x = true.
Proof. by rewrite !list_elem_of_In, filter_In. Qed.

Lemma list_filter_sublist {A} (p : A -> bool) l : sublist (List.filter p l) l.
Proof. induction l as [|x l IH]; cbn; [done|]. destruct (p x); by constructor. Qed.

Lemma filter_ext {A} (p q : A -> bool) l :
  (forall x, x ∈ l -> p x = q x) -> List.filter p l = List.filter q l.
Proof. intros H. apply List.filter_ext_in. intros x Hx. by apply H, list_elem_of_In. Qed.

Lemma filter_perm {A} (p : A -> bool) l l' :
  l ≡ₚ l' -> List.filter p l ≡ₚ List.filter p l'.
Proof.
  induction 1 as [|x l l' _ IH|x y l|l1 l2 l3 _ IH1 _ IH2]; cbn; [done| | |by rewrite IH1].
  - case_match; [by constructor|done].
  - repeat case_match; auto using perm_swap.
Qed.

Lemma filter_complement {A} (p : A -> bool) l :
  List.filter (fun x => negb (p x)) l ++ List.filter p l ≡ₚ l.
Proof.
  induction l as [|x l IH]; [done|]. cbn. destruct (p x); cbn.
  - rewrite <-Permutation_middle. by constructor.
  - by constructor.
Qed.

(** [if gid not in seen: seen.add(gid); ids.append(gid)], where [seen] holds
    exactly the ids of the list. *)
Definition note_id (ids : list string) (gid : string) : list string :=
  if bool_decide (gid ∈ ids) then ids else ids ++ [gid].

Lemma note_id_NoDup l gid : NoDup l -> NoDup (note_id l gid).
Proof.
  intros. unfold note_id. case_bool_decide; [done|].
  apply NoDup_app. split_and!; [done| |apply NoDup_singleton]. set_solver.
Qed.

Lemma elem_of_note_id l gid x : x ∈ note_id l gid <-> x ∈ l \/ x = gid.
Proof. unfold note_id. case_bool_decide; set_solver. Qed.

(** [seen] grows with every id of a list. *)
Definition first_seen (ids : list string) : list string := foldl note_id [] ids.

Lemma foldl_note_id_spec l acc :
  NoDup acc -> NoDup (foldl note_id acc l) /\ forall x, x ∈ foldl note_id acc l <-> x ∈ acc \/ x ∈ l.
Proof.
  revert acc. induction l as [|y l IH]; intros acc Hacc; cbn; [set_solver|].
  destruct (IH (note_id acc y)) as [H1 H2]; [by apply note_id_NoDup|]. split; [done|].
  intros x. rewrite H2, elem_of_note_id. set_solver.
Qed.

(** The first element satisfying a predicate, [next((x for x in l if p x), None)]. *)
Definition find_first {A} (p : A -> bool) (l : list A) : option A := List.find p l.

Lemma find_first_Some {A} (p : A -> bool) l x : find_first p l = Some x -> x ∈ l /\ p x = true.
Proof. intros [H1 H2]%find_some. by rewrite list_elem_of_In. Qed.

Lemma find_first_None {A} (p : A -> bool) l x : find_first p l = None -> x ∈ l -> p x = false.
Proof. intros H Hx. eapply find_none; [done|]. by apply list_elem_of_In. Qed.

