(* ===== verification/PyFloat.v ===== *)
(** Python floats.

    A Python [float] is an IEEE 754 binary64 number, and so is the kernel's
    primitive [float], which rounds to nearest even as CPython does.  This file
    names the operations the source uses, gives the comparisons their order
    facts (through the specification axioms of the primitive operations), and
    holds the few library routines the source relies on: conversion from [int],
    true division of integers, [sum], [max]/[min] on floats and [isfinite]. *)

From Stdlib Require Export PrimFloat.
From Stdlib Require SpecFloat FloatOps FloatAxioms.
From Stdlib Require Import ZArith Lia.
From S2P Require Import Prelude.

Abbreviation float := PrimFloat.float (only parsing).

Definition flt (x y : float) : bool := PrimFloat.ltb x y.
Definition fle (x y : float) : bool := PrimFloat.leb x y.
Definition feq (x y : float) : bool := PrimFloat.eqb x y.
Definition fadd (x y : float) : float := PrimFloat.add x y.
Definition fsub (x y : float) : float := PrimFloat.sub x y.
Definition fmul (x y : float) : float := PrimFloat.mul x y.
Definition fdiv (x y : float) : float := PrimFloat.div x y.
Definition fneg (x : float) : float := PrimFloat.opp x.
Definition fabs (x : float) : float := PrimFloat.abs x.
Definition fsqrt (x : float) : float := PrimFloat.sqrt x.

Definition f0 : float := 0%float.
Definition f1 : float := 1%float.
Definition finf : float := PrimFloat.infinity.

(** [x != x] *)
Definition is_nan (x : float) : bool := negb (feq x x).

(** [math.isfinite(x)] *)
Definition isfinite (x : float) : bool := flt (fabs x) finf.

(** [max(a, b)] and [min(a, b)] keep the first argument on a tie. *)
Definition fmax (a b : float) : float := if flt a b then b else a.
Definition fmin (a b : float) : float := if flt b a then b else a.

(** [float(n)] for an [int]: rounded to nearest even. *)
Definition float_of_Z (z : Z) : float :=
  FloatOps.SF2Prim (SpecFloat.binary_normalize FloatOps.prec FloatOps.emax z 0 false).

(** [a / b] for positive integers, which Python rounds once. *)
Definition int_truediv (a b : positive) : float :=
  FloatOps.SF2Prim
    (let '(m, e, l) := SpecFloat.SFdiv_core_binary FloatOps.prec FloatOps.emax
                         (Zpos a) 0 (Zpos b) 0 in
     SpecFloat.binary_round_aux FloatOps.prec FloatOps.emax false m e l).

(** [sum(xs)] over floats: since 3.12 CPython compensates the running sum
    (Neumaier's variant of Kahan summation). *)
Definition py_sum_step (acc : float * float) (x : float) : float * float :=
  let '(s, c) := acc in
  let t := fadd s x in
  let c := if fle (fabs x) (fabs s) then fadd c (fadd (fsub s t) x)
           else fadd c (fadd (fsub x t) s) in
  (t, c).

Definition py_sum (xs : list float) : float :=
  match xs with
  | [] => f0
  | x :: xs =>
      let '(s, c) := foldl py_sum_step (fadd f0 x, f0) xs in
      if negb (feq c f0) && isfinite c then fadd s c else s
  end.

#[global] Arguments flt : simpl never.
#[global] Arguments fle : simpl never.
#[global] Arguments feq : simpl never.
#[global] Arguments fadd : simpl never.
#[global] Arguments fsub : simpl never.
#[global] Arguments fmul : simpl never.
#[global] Arguments fdiv : simpl never.
#[global] Arguments fneg : simpl never.
#[global] Arguments fabs : simpl never.
#[global] Arguments fsqrt : simpl never.
#[global] Arguments is_nan : simpl never.
#[global] Arguments isfinite : simpl never.
#[global] Arguments fmax : simpl never.
#[global] Arguments fmin : simpl never.
#[global] Arguments float_of_Z : simpl never.
#[global] Arguments int_truediv : simpl never.
#[global] Arguments py_sum : simpl never.

(** ** Order facts *)
Section Rank.
Import SpecFloat.

(** The position of a number among the comparable ones, as a triple read
    lexicographically: sign class, exponent, mantissa. *)
Definition sf_rank (f : spec_float) : option (Z * Z * Z) :=
  match f with
  | S754_nan => None
  | S754_infinity true => Some (-2, 0, 0)%Z
  | S754_infinity false => Some (2, 0, 0)%Z
  | S754_zero _ => Some (0, 0, 0)%Z
  | S754_finite true m e => Some (-1, -e, Zneg m)%Z
  | S754_finite false m e => Some (1, e, Zpos m)%Z
  end.

Definition lex_compare (a b : Z * Z * Z) : comparison :=
  let '(a1, a2, a3) := a in
  let '(b1, b2, b3) := b in
  match (a1 ?= b1)%Z with
  | Eq => match (a2 ?= b2)%Z with Eq => (a3 ?= b3)%Z | c => c end
  | c => c
  end.

Lemma SFcompare_rank x y :
  SFcompare x y
  = match sf_rank x, sf_rank y with
    | Some a, Some b => Some (lex_compare a b)
    | _, _ => None
    end.
Proof.
  destruct x as [?|[]| |[] mx ex], y as [?|[]| |[] my ey]; cbn; try done.
  rewrite Z.compare_opp, (Z.compare_antisym ex ey).
  destruct (ex ?= ey)%Z; done.
Qed.

Definition lex_lt (a b : Z * Z * Z) : Prop :=
  let '(a1, a2, a3) := a in
  let '(b1, b2, b3) := b in
  (a1 < b1 \/ a1 = b1 /\ (a2 < b2 \/ a2 = b2 /\ a3 < b3))%Z.

Lemma lex_compare_Lt a b : lex_compare a b = Lt <-> lex_lt a b.
Proof.
  destruct a as [[a1 a2] a3], b as [[b1 b2] b3]; cbn.
  destruct (Z.compare_spec a1 b1); subst; [|split; [lia|done]|split; [done|lia]].
  destruct (Z.compare_spec a2 b2); subst; [|split; [lia|done]|split; [done|lia]].
  rewrite Z.compare_lt_iff. lia.
Qed.

Lemma lex_compare_Eq a b : lex_compare a b = Eq <-> a = b.
Proof.
  destruct a as [[a1 a2] a3], b as [[b1 b2] b3]; cbn.
  destruct (Z.compare_spec a1 b1); subst; [|split; [done|intros [=]; lia]..].
  destruct (Z.compare_spec a2 b2); subst; [|split; [done|intros [=]; lia]..].
  rewrite Z.compare_eq_iff. naive_solver.
Qed.
End Rank.

Definition frank (x : float) : option (Z * Z * Z) := sf_rank (FloatOps.Prim2SF x).

Lemma flt_rank x y :
  flt x y = true <-> exists a b, frank x = Some a /\ frank y = Some b /\ lex_lt a b.
Proof.
  unfold flt, frank. rewrite FloatAxioms.ltb_spec. unfold SpecFloat.SFltb.
  rewrite SFcompare_rank.
  destruct (sf_rank _) as [a|], (sf_rank _) as [b|]; try (split; [done|naive_solver]).
  split.
  - intros. exists a, b. split_and!; try done. apply lex_compare_Lt. by destruct (lex_compare a b).
  - intros (? & ? & [= <-] & [= <-] & H). apply lex_compare_Lt in H. by rewrite H.
Qed.

Lemma feq_rank x y :
  feq x y = true <-> exists a, frank x = Some a /\ frank y = Some a.
Proof.
  unfold feq, frank. rewrite FloatAxioms.eqb_spec. unfold SpecFloat.SFeqb.
  rewrite SFcompare_rank.
  destruct (sf_rank _) as [a|], (sf_rank _) as [b|]; try (split; [done|naive_solver]).
  split.
  - intros H. exists b. split; [|done]. f_equal. apply lex_compare_Eq. by destruct (lex_compare a b).
  - intros (? & [= <-] & [= <-]). by rewrite (proj2 (lex_compare_Eq b b)).
Qed.

Lemma fle_rank x y :
  fle x y = true
  <-> exists a b, frank x = Some a /\ frank y = Some b /\ (lex_lt a b \/ a = b).
Proof.
  unfold fle, frank. rewrite FloatAxioms.leb_spec. unfold SpecFloat.SFleb.
  rewrite SFcompare_rank.
  destruct (sf_rank _) as [a|], (sf_rank _) as [b|]; try (split; [done|naive_solver]).
  split.
  - intros. exists a, b. rewrite <-lex_compare_Lt, <-lex_compare_Eq.
    split_and!; try done. destruct (lex_compare a b); [by right|by left|done].
  - intros (? & ? & [= <-] & [= <-] & H). rewrite <-lex_compare_Lt, <-lex_compare_Eq in H.
    by destruct H as [-> | ->].
Qed.

Lemma is_nan_rank x : is_nan x = false <-> is_Some (frank x).
Proof.
  unfold is_nan. rewrite negb_false_iff, feq_rank. unfold is_Some. naive_solver.
Qed.

Ltac frank_solve :=
  repeat match goal with
  | H : flt _ _ = true |- _ => apply flt_rank in H as (? & ? & ? & ? & ?)
  | H : feq _ _ = true |- _ => apply feq_rank in H as (? & ? & ?)
  | H : fle _ _ = true |- _ => apply fle_rank in H as (? & ? & ? & ? & ?)
  | H : is_nan _ = false |- _ => apply is_nan_rank in H as [? ?]
  end; simplify_eq;
  repeat match goal with p : (Z * Z * Z)%type |- _ => destruct p as [[? ?] ?] end;
  cbn [lex_lt] in *; simplify_eq; try lia.

Lemma flt_irrefl x : flt x x = false.
Proof. apply not_true_iff_false. intros H. frank_solve. Qed.

Lemma flt_asym x y : flt x y = true -> flt y x = false.
Proof. intros. apply not_true_iff_false. intros ?. frank_solve. Qed.

Lemma flt_total x y :
  is_nan x = false -> is_nan y = false -> flt x y = true \/ feq x y = true \/ flt y x = true.
Proof.
  intros. frank_solve. rewrite !flt_rank, feq_rank.
  match goal with
  | H1 : frank x = Some (?a, ?b, ?c), H2 : frank y = Some (?d, ?e, ?f) |- _ =>
      destruct (Z.lt_trichotomy a d) as [?|[->|?]];
      [left|destruct (Z.lt_trichotomy b e) as [?|[->|?]];
            [left|destruct (Z.lt_trichotomy c f) as [?|[->|?]]; [left|right; left|right; right]
            |right; right]|right; right]
  end; try (eexists _, _; split_and!; eauto; cbn; lia).
  eauto.
Qed.

Lemma flt_neg_trans x y z :
  is_nan x = false -> is_nan y = false -> is_nan z = false ->
  flt x y = false -> flt y z = false -> flt x z = false.
Proof.
  intros Hx Hy Hz H1 H2. apply not_true_iff_false. intros H3.
  destruct (flt_total x y Hx Hy) as [?|[?|?]], (flt_total y z Hy Hz) as [?|[?|?]];
    try congruence; frank_solve.
Qed.

Lemma flt_not_nan x y : flt x y = true -> is_nan x = false /\ is_nan y = false.
Proof. rewrite !is_nan_rank, flt_rank. unfold is_Some. naive_solver. Qed.

Lemma feq_sym x y : feq x y = feq y x.
Proof. apply eq_bool_prop_intro. rewrite !Is_true_true, !feq_rank. naive_solver. Qed.

Lemma feq_flt x y : feq x y = true -> flt x y = false.
Proof. intros. apply not_true_iff_false. intros ?. frank_solve. Qed.

#[export] Instance flt_swo : StrictWeakOrder flt (fun x => is_nan x = false).
Proof.
  split; intros *; intros; [apply flt_irrefl|by apply flt_asym|by eapply (flt_neg_trans _ y)].
Qed.

Lemma feq_flt_total x y :
  is_nan x = false -> is_nan y = false -> feq x y = negb (flt x y) && negb (flt y x).
Proof.
  intros Hx Hy. destruct (feq x y) eqn:E.
  - by rewrite (feq_flt x y), (feq_flt y x) by (done || by rewrite feq_sym).
  - destruct (flt_total x y) as [H|[H|H]]; [done..| | |]; [by rewrite H|congruence|]. by rewrite H, andb_false_r.
Qed.

Lemma fle_spec x y : fle x y = flt x y || feq x y.
Proof.
  apply eq_bool_prop_intro. rewrite !Is_true_true, orb_true_iff, flt_rank, feq_rank, fle_rank.
  naive_solver.
Qed.

Lemma fneg_rank x :
  frank (fneg x) = (fun '(a, b, c) => (- a, (if (a =? 0) then 0 else - b), - c)%Z) <$> frank x.
Proof.
  unfold frank, fneg. rewrite FloatAxioms.opp_spec.
  by destruct (FloatOps.Prim2SF x) as [[]|[]| |[] m e]; cbn; rewrite ?Z.opp_involutive.
Qed.

Lemma flt_0_fneg x : flt f0 (fneg x) = flt x f0.
Proof.
  assert (frank f0 = Some (0, 0, 0)%Z) as H0 by reflexivity.
  apply eq_bool_prop_intro. rewrite !Is_true_true, !flt_rank, fneg_rank, H0.
  destruct (frank x) as [[[a b] c]|] eqn:E; cbn; [|naive_solver].
  assert (a = 0 -> b = 0 /\ c = 0)%Z.
  { unfold frank in E. destruct (FloatOps.Prim2SF x) as [[]|[]| |[] m e]; cbn in *; simplify_eq; lia. }
  split; intros (? & ? & ? & ? & Hlt); simplify_eq/=; eexists _, _; (split_and!; [done..|cbn]);
    destruct (a =? 0)%Z eqn:?; lia.
Qed.

Lemma is_nan_fneg x : is_nan (fneg x) = is_nan x.
Proof.
  destruct (is_nan x) eqn:E.
  - apply not_false_iff_true. rewrite is_nan_rank, fneg_rank. intros [? H].
    apply fmap_Some in H as (? & H & _).
    assert (is_nan x = false) by (rewrite is_nan_rank; eauto). congruence.
  - apply is_nan_rank in E as [r Hr]. apply is_nan_rank. rewrite fneg_rank, Hr. eauto.
Qed.

Lemma flt_fneg x y : flt (fneg x) (fneg y) = flt y x.
Proof.
  apply eq_bool_prop_intro. rewrite !Is_true_true, !flt_rank, !fneg_rank.
  destruct (frank x) as [[[a b] c]|] eqn:E, (frank y) as [[[a' b'] c']|] eqn:E'; cbn; try naive_solver.
  assert (a = 0 -> b = 0 /\ c = 0)%Z.
  { unfold frank in E. destruct (FloatOps.Prim2SF x) as [[]|[]| |[] ? ?]; cbn in *; simplify_eq; lia. }
  assert (a' = 0 -> b' = 0 /\ c' = 0)%Z.
  { unfold frank in E'. destruct (FloatOps.Prim2SF y) as [[]|[]| |[] ? ?]; cbn in *; simplify_eq; lia. }
  split; intros (? & ? & ? & ? & Hlt); simplify_eq/=; eexists _, _; (split_and!; [done..|cbn]);
    destruct (a =? 0)%Z eqn:?, (a' =? 0)%Z eqn:?; lia.
Qed.

(** ** Sums of finite numbers *)

Section Add.
Import SpecFloat.

Lemma iter_pos_inv {A} (P : A -> Prop) f n x : (forall y, P y -> P (f y)) -> P x -> P (iter_pos f n x).
Proof. intros Hf. revert x. induction n; intros x Hx; cbn; auto. Qed.

Lemma shr_fexp_nonneg prec emax m e l : (0 <= m)%Z -> (0 <= shr_m (shr_fexp prec emax m e l).1)%Z.
Proof.
  intros Hm. unfold shr_fexp, shr.
  assert (0 <= shr_m (shr_record_of_loc m l))%Z by by destruct l as [|[]].
  destruct (_ - _)%Z; cbn; [done| |done].
  apply (iter_pos_inv (fun r => (0 <= shr_m r)%Z)); [|done].
  by intros [[|[]|] ? ?]; cbn.
Qed.

Lemma round_nearest_even_nonneg m l : (0 <= m)%Z -> (0 <= round_nearest_even m l)%Z.
Proof. destruct l as [|[]]; cbn; try case_match; lia. Qed.

Lemma binary_round_not_nan prec emax s m e : binary_round prec emax s m e <> S754_nan.
Proof.
  unfold binary_round, binary_round_aux. destruct (shl_align m e _) as [mz ez].
  pose proof (shr_fexp_nonneg prec emax (Zpos mz) ez loc_Exact ltac:(lia)) as H1.
  destruct (shr_fexp _ _ (Zpos mz) _ _) as [r e1]. cbn in H1.
  pose proof (shr_fexp_nonneg prec emax _ e1 loc_Exact
    (round_nearest_even_nonneg _ (loc_of_shr_record r) H1)) as H2.
  destruct (shr_fexp _ _ (round_nearest_even _ _) _ _) as [r2 e2]. cbn in H2.
  destruct (shr_m r2); [done|by case_match|lia].
Qed.

Lemma binary_normalize_not_nan prec emax m e s : binary_normalize prec emax m e s <> S754_nan.
Proof. destruct m; [done|apply binary_round_not_nan..]. Qed.

Lemma sf_rank_some f : f <> S754_nan -> is_Some (sf_rank f).
Proof. destruct f as [|[]| |[] ? ?]; intros ?; try done; by eexists. Qed.

Lemma isfinite_spec x :
  isfinite x = true <->
  match FloatOps.Prim2SF x with S754_zero _ | S754_finite _ _ _ => True | _ => False end.
Proof.
  unfold isfinite, flt. rewrite FloatAxioms.ltb_spec, FloatAxioms.abs_spec.
  by destruct (FloatOps.Prim2SF x) as [[]|[]| |[] m e].
Qed.

(** The sum of two finite numbers may overflow, but it is a number. *)
Lemma is_nan_fadd x y : isfinite x = true -> isfinite y = true -> is_nan (fadd x y) = false.
Proof.
  rewrite !isfinite_spec, is_nan_rank. unfold frank, fadd. rewrite FloatAxioms.add_spec.
  destruct (FloatOps.Prim2SF x) as [sx| | |sx mx ex]; try done;
  destruct (FloatOps.Prim2SF y) as [sy| | |sy my ey]; try done; intros _ _.
  - by destruct sx, sy; eexists.
  - by destruct sy; eexists.
  - by destruct sx; eexists.
  - apply sf_rank_some, binary_normalize_not_nan.
Qed.
End Add.

Lemma is_nan_0 : is_nan f0 = false.
Proof. reflexivity. Qed.

Lemma is_nan_inf : is_nan finf = false.
Proof. reflexivity. Qed.

#[export] Hint Resolve flt_asym is_nan_0 is_nan_inf : zicato.

(** [n / n = 1.0] for every positive integer: the one rounding of a true
    division is exact when the quotient is. *)
Lemma int_truediv_same n : int_truediv n n = f1.
Proof.
  unfold int_truediv.
  assert (SpecFloat.SFdiv_core_binary FloatOps.prec FloatOps.emax (Zpos n) 0 (Zpos n) 0
          = (2 ^ 53, -53, SpecFloat.loc_Exact)%Z) as ->; [|reflexivity].
  unfold SpecFloat.SFdiv_core_binary. cbv zeta.
  replace (SpecFloat.Zdigits2 (Zpos n) + 0 - (SpecFloat.Zdigits2 (Zpos n) + 0))%Z with 0%Z by ring.
  change (Z.min _ _) with (-53)%Z. change (0 - 0 - -53)%Z with 53%Z. cbv beta iota.
  rewrite Z.shiftl_mul_pow2 by lia. unfold SpecFloat.new_location.
  pose proof (Z.div_mul (2 ^ 53) (Zpos n) ltac:(lia)) as Hq.
  pose proof (Z.mod_mul (2 ^ 53) (Zpos n) ltac:(lia)) as Hr.
  unfold Z.div, Z.modulo in Hq, Hr. rewrite Z.mul_comm in Hq, Hr.
  destruct (Z.div_eucl (Zpos n * 2 ^ 53) (Zpos n)) as [q r]. subst.
  by destruct (Z.even (Zpos n)).
Qed.

(** ** Floats and integers *)

(** The value of a finite float scaled to an integer: [x = v * 2^e]. *)
Definition float_parts (x : float) : option (Z * Z) :=
  match FloatOps.Prim2SF x with
  | SpecFloat.S754_zero _ => Some (0, 0)%Z
  | SpecFloat.S754_finite s m e => Some (if s then Zneg m else Zpos m, e)
  | _ => None
  end.

Lemma isfinite_parts x : isfinite x = true -> is_Some (float_parts x).
Proof.
  unfold isfinite, float_parts, flt, fabs, finf. rewrite FloatAxioms.ltb_spec, FloatAxioms.abs_spec.
  destruct (FloatOps.Prim2SF x); cbn; by eauto.
Qed.

(** [math.fsum(xs)]: the exact sum of the finite terms, rounded once.  The doubles are
    multiples of 2^-1074.  An infinite term is the sum, unless both infinities are
    there; a NaN is the sum when it is there.  CPython also raises [OverflowError]
    when a partial sum passes the largest double, which the model leaves out. *)
Definition fsum_unit (x : float) : Z :=
  match float_parts x with Some (v, e) => (v * 2 ^ (e + 1074))%Z | None => 0%Z end.

Definition exact_sum (xs : list float) : Z := foldr Z.add 0%Z (fsum_unit <$> xs).

Definition round_sum (z : Z) : float :=
  FloatOps.SF2Prim (SpecFloat.binary_normalize FloatOps.prec FloatOps.emax z (-1074) false).

Definition fsum (xs : list float) : result float :=
  if existsb (feq finf) xs && existsb (feq (fneg finf)) xs
  then Raise (ValueError "-inf + inf in fsum")
  else if existsb is_nan xs then Ok PrimFloat.nan
  else if existsb (feq finf) xs then Ok finf
  else if existsb (feq (fneg finf)) xs then Ok (fneg finf)
  else
    let total := round_sum (exact_sum xs) in
    if isfinite total then Ok total else Raise OverflowError.

Lemma existsb_perm {A} (p : A -> bool) xs ys : xs ≡ₚ ys -> existsb p xs = existsb p ys.
Proof.
  induction 1 as [|x xs ys _ IH|x y xs|xs ys zs _ IH1 _ IH2]; cbn; [done|by rewrite IH| |congruence].
  by rewrite !orb_assoc, (orb_comm (p x)).
Qed.

Lemma exact_sum_perm xs ys : xs ≡ₚ ys -> exact_sum xs = exact_sum ys.
Proof. unfold exact_sum. induction 1; cbn; lia. Qed.

(** The sum does not depend on the order of the terms. *)
Lemma fsum_perm xs ys : xs ≡ₚ ys -> fsum xs = fsum ys.
Proof.
  intros H. unfold fsum.
  by rewrite !(existsb_perm _ xs ys H), (exact_sum_perm xs ys H).
Qed.

(** [math.floor(x)] and [math.ceil(x)]; [None] where Python raises (an infinity
    or a NaN). *)
Definition float_floor (x : float) : option Z :=
  '(v, e) ← float_parts x;
  Some (if (0 <=? e)%Z then v * 2 ^ e else v / 2 ^ (- e))%Z.

Definition float_ceil (x : float) : option Z :=
  '(v, e) ← float_parts x;
  Some (if (0 <=? e)%Z then v * 2 ^ e else - (- v / 2 ^ (- e)))%Z.

(** [int(x)]: towards zero. *)
Definition float_trunc (x : float) : option Z :=
  '(v, e) ← float_parts x;
  Some (if (0 <=? e)%Z then v * 2 ^ e else Z.quot v (2 ^ (- e)))%Z.

(** Python compares an [int] with a [float] by their exact values; [None] for a
    NaN. *)
Definition Z_float_compare (z : Z) (x : float) : option comparison :=
  match FloatOps.Prim2SF x with
  | SpecFloat.S754_nan => None
  | SpecFloat.S754_infinity s => Some (if s then Gt else Lt)
  | _ =>
      '(v, e) ← float_parts x;
      Some (if (0 <=? e)%Z then (z ?= v * 2 ^ e)%Z else (z * 2 ^ (- e) ?= v)%Z)
  end.

(** ** Library code the model takes as a parameter

    Rendering of a float in an f-string, and the functions of the C mathematics
    library, whose results the language does not fix.  No theorem depends on what
    these functions return. *)
Class PyFormat := {
  fmt_fixed : nat -> float -> string;          (** [f"{x:.nf}"] *)
  fmt_fixed_signed : nat -> float -> string;   (** [f"{x:+.nf}"] *)
  fmt_percent : nat -> float -> string;        (** [f"{x:.n%}"] *)
  fmt_general : float -> string;               (** [f"{x:g}"] *)
  str_float : float -> string;                 (** [str(x)] *)
}.

(** One concrete rendering, for evaluating the model on examples. *)
Definition plain_format : PyFormat := {|
  fmt_fixed _ _ := "0.000000"; fmt_fixed_signed _ _ := "+0.000000";
  fmt_percent _ _ := "0%"; fmt_general _ := "0"; str_float _ := "0.0" |}.

Class Libm := {
  m_exp : float -> float;
  m_log : float -> float;
  m_erf : float -> float;
  m_lgamma : float -> float;
  normal_inv_cdf : float -> float;             (** [statistics.NormalDist().inv_cdf] *)
  m_log1p : float -> float;
  m_pow : float -> float -> result float;      (** [x ** y], which may raise *)
}.

Definition plain_libm : Libm := {|
  m_exp x := fadd f1 x; m_log x := fsub x f1; m_erf x := x; m_lgamma x := x;
  normal_inv_cdf x := x; m_log1p x := x; m_pow x y := Ok (fmul x y) |}.
