(* ===== verification/PyText.v ===== *)
(** Python text: runs of a class of characters, [str.lower] and [str.strip] on them,
    and the decimal texts of integers, read by [int] and written by formatting. *)

From Stdlib Require Import Ascii.
From S2P Require Import Prelude.

(** ** Runs of characters *)

Fixpoint str_forallb (p : Ascii.ascii -> bool) (s : string) : bool :=
  match s with EmptyString => true | String c s => p c && str_forallb p s end.

(** The longest start of [s] in the class [p], and the rest. *)
Fixpoint str_span (p : Ascii.ascii -> bool) (s : string) : string * string :=
  match s with
  | EmptyString => ("", "")
  | String c s' => if p c then let '(a, b) := str_span p s' in (String c a, b) else ("", s)
  end.

Definition starts_outside (p : Ascii.ascii -> bool) (s : string) : bool :=
  match s with EmptyString => true | String c _ => negb (p c) end.

Lemma str_app_cons c a b : String c a +:+ b = String c (a +:+ b).
Proof. done. Qed.

Lemma str_app_nil b : "" +:+ b = b.
Proof. done. Qed.

Lemma str_app_nil_r a : a +:+ "" = a.
Proof. induction a as [|c a IH]; [done|]. by rewrite str_app_cons, IH. Qed.

Lemma str_app_assoc a b c : (a +:+ b) +:+ c = a +:+ (b +:+ c).
Proof. induction a as [|x a IH]; [done|]. by rewrite !str_app_cons, IH. Qed.

Lemma str_forallb_app p a b : str_forallb p (a +:+ b) = str_forallb p a && str_forallb p b.
Proof. induction a as [|c a IH]; [done|]. rewrite str_app_cons. cbn. by rewrite <-andb_assoc, <-IH. Qed.

Lemma str_forallb_weaken (p q : Ascii.ascii -> bool) s :
  (forall c, p c = true -> q c = true) -> str_forallb p s = true -> str_forallb q s = true.
Proof.
  intros Hpq. induction s as [|c s IH]; [done|]. cbn. rewrite !andb_true_iff. naive_solver.
Qed.

Lemma str_span_spec p s :
  let '(a, b) := str_span p s in
  s = a +:+ b /\ str_forallb p a = true /\ starts_outside p b = true.
Proof.
  induction s as [|c s IH]; [done|]. cbn. destruct (p c) eqn:Hc; [|by cbn; rewrite Hc].
  destruct (str_span p s) as [a b]. destruct IH as (-> & Ha & Hb). cbn. by rewrite Hc.
Qed.

Lemma str_span_app p a b :
  str_forallb p a = true -> starts_outside p b = true -> str_span p (a +:+ b) = (a, b).
Proof.
  intros Ha Hb. induction a as [|c a IH].
  - destruct b as [|c b]; [done|]. apply negb_true_iff in Hb.
    rewrite str_app_nil. cbn [str_span]. by rewrite Hb.
  - cbn in Ha. apply andb_true_iff in Ha as [Hc Ha].
    rewrite str_app_cons. cbn [str_span]. by rewrite Hc, IH.
Qed.

Lemma str_after_prefix_app p s : str_after_prefix p (p +:+ s) = Some s.
Proof.
  induction p as [|c p IH]; [done|]. rewrite str_app_cons. cbn. by rewrite Ascii.eqb_refl.
Qed.

Lemma str_after_prefix_Some p s r : str_after_prefix p s = Some r <-> s = p +:+ r.
Proof.
  split; [|intros ->; apply str_after_prefix_app].
  revert s. induction p as [|c p IH]; intros s; cbn; [by intros [= ->]|].
  destruct s as [|d s]; [done|]. destruct (Ascii.eqb_spec c d) as [->|]; [|done].
  by intros ->%IH.
Qed.

Lemma str_endswith_app suffix s : str_endswith suffix s = true -> exists t, s = t +:+ suffix.
Proof.
  induction s as [|c s IH]; cbn; rewrite orb_true_iff, ?String.eqb_eq.
  - intros [->|?]; [by exists ""|done].
  - intros [->|(t & ->)%IH]; [by exists ""|by exists (String c t)].
Qed.

(** A text whose characters exclude one of the suffix's does not end with it. *)
Lemma str_endswith_suffix t suffix : str_endswith suffix (t +:+ suffix) = true.
Proof.
  induction t as [|c t IH].
  - rewrite str_app_nil. destruct suffix; [done|]. cbn [str_endswith]. by rewrite String.eqb_refl.
  - rewrite str_app_cons. cbn [str_endswith]. by rewrite IH, orb_true_r.
Qed.

Lemma str_endswith_forallb p suffix s :
  str_forallb p s = true -> str_forallb p suffix = false -> str_endswith suffix s = false.
Proof.
  intros Hs Hf. apply not_true_iff_false. intros (t & ->)%str_endswith_app.
  rewrite str_forallb_app, Hf, andb_false_r in Hs. done.
Qed.

(** Texts that [strip] and [lower] leave alone. *)
Definition not_space (c : Ascii.ascii) : bool := negb (ascii_is_space c).
Definition not_upper (c : Ascii.ascii) : bool :=
  let n := Ascii.nat_of_ascii c in negb ((65 <=? n) && (n <=? 90)).

Lemma str_strip_id s : str_forallb not_space s = true -> str_strip s = s.
Proof.
  intros Hs. unfold str_strip. assert (str_lstrip s = s) as ->.
  { destruct s; [done|]. cbn in *. apply andb_true_iff in Hs as [->%negb_true_iff _]. done. }
  induction s as [|c s IH]; [done|]. cbn in *. apply andb_true_iff in Hs as [Hc%negb_true_iff Hs].
  rewrite (IH Hs). destruct s; [by rewrite Hc|done].
Qed.

Lemma str_lower_id s : str_forallb not_upper s = true -> str_lower s = s.
Proof.
  induction s as [|c s IH]; [done|]. cbn. intros [Hc Hs]%andb_true_iff. rewrite (IH Hs).
  unfold ascii_lower. unfold not_upper in Hc. by apply negb_true_iff in Hc as ->.
Qed.

(** ** Decimal integers *)

Definition is_digit (c : Ascii.ascii) : bool :=
  let n := Ascii.nat_of_ascii c in (48 <=? n) && (n <=? 57).

Definition digit_value (c : Ascii.ascii) : N := Ascii.N_of_ascii c - 48.

(** The digits of [int]'s argument, single underscores between them allowed;
    [after] is whether the last character was a digit. *)
Fixpoint int_digits (after : bool) (acc : N) (s : string) : option N :=
  match s with
  | EmptyString => if after then Some acc else None
  | String c s =>
      if is_digit c then int_digits true (10 * acc + digit_value c) s
      else if Ascii.eqb c "_"%char && after then int_digits false acc s
      else None
  end.

(** [int(s)]; [None] is its [ValueError]. *)
Definition py_int (s : string) : option Z :=
  match str_strip s with
  | String "-" s => (fun n => Z.opp (Z.of_N n)) <$> int_digits false 0 s
  | String "+" s => Z.of_N <$> int_digits false 0 s
  | s => Z.of_N <$> int_digits false 0 s
  end.

(** [0|[1-9][0-9]*] *)
Definition plain_number (s : string) : bool :=
  match s with
  | EmptyString => false
  | String c s' => str_forallb is_digit s && (negb (Ascii.eqb c "0"%char) || String.eqb s' "")
  end.

Lemma pretty_N_char_digit x : (x < 10)%N ->
  is_digit (pretty_N_char x) = true /\ digit_value (pretty_N_char x) = x.
Proof.
  intros. assert (x = 0 \/ x = 1 \/ x = 2 \/ x = 3 \/ x = 4 \/ x = 5 \/ x = 6 \/ x = 7 \/ x = 8 \/ x = 9)%N
    as Hx by lia. by decompose [or] Hx; subst.
Qed.

Lemma digit_pretty c : is_digit c = true ->
  (digit_value c < 10)%N /\ pretty_N_char (digit_value c) = c.
Proof. destruct c as [[] [] [] [] [] [] [] []]; by vm_compute. Qed.

Lemma pretty_N_go_digits x s : str_forallb is_digit (pretty_N_go x s) = str_forallb is_digit s.
Proof.
  revert s. induction (N.lt_wf_0 x) as [x _ IH]; intros s.
  destruct (decide (x = 0)%N) as [->|]; [done|]. rewrite pretty_N_go_step by lia.
  rewrite IH by (apply N.div_lt; lia). cbn.
  by destruct (pretty_N_char_digit (x mod 10)) as [-> _]; [apply N.mod_lt|].
Qed.

Lemma pretty_N_digits (x : N) : str_forallb is_digit (pretty x) = true.
Proof. unfold pretty, pretty_N. case_decide; [done|]. by rewrite pretty_N_go_digits. Qed.

Lemma int_digits_go x after s :
  (0 < x)%N -> int_digits after 0 (pretty_N_go x s) = int_digits true x s.
Proof.
  revert after s. induction (N.lt_wf_0 x) as [x _ IH]; intros after s Hx.
  rewrite pretty_N_go_step by done.
  destruct (pretty_N_char_digit (x mod 10)) as [Hd Hv]; [by apply N.mod_lt|].
  assert (forall b, int_digits b (x / 10) (String (pretty_N_char (x mod 10)) s) = int_digits true x s)
    as Hstep.
  { intros b. cbn. rewrite Hd, Hv. f_equal. pose proof (N.div_mod x 10). lia. }
  destruct (decide (x / 10 = 0)%N) as [E|].
  - rewrite E, pretty_N_go_0, <-(Hstep after), E. done.
  - rewrite IH; [apply Hstep|apply N.div_lt; lia|by apply N.neq_0_lt_0].
Qed.

Lemma int_digits_pretty (x : N) : int_digits false 0 (pretty x) = Some x.
Proof.
  unfold pretty, pretty_N. case_decide; [by subst|]. rewrite int_digits_go by lia. done.
Qed.

Lemma is_digit_not_space c : is_digit c = true -> not_space c = true.
Proof. destruct c as [[] [] [] [] [] [] [] []]; by vm_compute. Qed.

Lemma is_digit_not_upper c : is_digit c = true -> not_upper c = true.
Proof. destruct c as [[] [] [] [] [] [] [] []]; by vm_compute. Qed.

#[export] Hint Resolve pretty_N_digits is_digit_not_space is_digit_not_upper : zicato.

Lemma pretty_N_nonempty (x : N) : exists c s, pretty x = String c s /\ is_digit c = true.
Proof.
  pose proof (pretty_N_digits x) as Hd. pose proof (int_digits_pretty x) as Hi.
  destruct (pretty x) as [|c s]; [done|]. exists c, s. by apply andb_true_iff in Hd as [? _].
Qed.

(** [int(str(n)) == n] *)
Lemma py_int_pretty (z : Z) : py_int (pretty z) = Some z.
Proof.
  unfold py_int. assert (str_strip (pretty z) = pretty z) as ->.
  { apply str_strip_id. assert (forall n : N, str_forallb not_space (pretty n) = true) as Hn.
    { intros n. eapply str_forallb_weaken; [apply is_digit_not_space|apply pretty_N_digits]. }
    destruct z; cbn; [done|apply Hn|apply (Hn (N.pos p))]. }
  destruct z as [|p|p]; [done| |].
  - change (pretty (Z.pos p)) with (pretty (N.pos p)).
    pose proof (int_digits_pretty (N.pos p)) as Hi.
    destruct (pretty_N_nonempty (N.pos p)) as (c & s & E & Hc). rewrite E in *.
    destruct c as [[] [] [] [] [] [] [] []]; try done; cbn [fmap option_fmap option_map];
      by rewrite Hi.
  - transitivity ((fun n => Z.opp (Z.of_N n)) <$> int_digits false 0 (pretty (N.pos p))); [done|].
    by rewrite int_digits_pretty.
Qed.

(** A plain number is the text of its value. *)
Lemma int_digits_from_pretty s acc :
  (0 < acc)%N -> str_forallb is_digit s = true ->
  exists n, int_digits true acc s = Some n /\ pretty_N_go n "" = pretty_N_go acc s /\ (0 < n)%N.
Proof.
  revert acc. induction s as [|c s IH]; intros acc Hacc; [by exists acc|].
  cbn [str_forallb int_digits]. intros [Hc Hs]%andb_true_iff. rewrite Hc.
  destruct (digit_pretty c Hc) as [Hlt Hp].
  destruct (IH (10 * acc + digit_value c)%N) as (n & -> & Hgo & Hn); [lia|done|].
  exists n. split_and!; [done| |done]. rewrite Hgo, pretty_N_go_step by lia.
  rewrite (N.mul_comm 10), N.div_add_l, N.div_small, N.add_0_r by lia.
  rewrite N.add_comm, N.Div0.mod_add, N.mod_small by lia. by rewrite Hp.
Qed.

Lemma plain_number_pretty s :
  plain_number s = true -> exists n : N, int_digits false 0 s = Some n /\ s = pretty n.
Proof.
  destruct s as [|c s]; [done|]. cbn [plain_number str_forallb int_digits].
  rewrite !andb_true_iff. intros [[Hc Hs] Hz]. rewrite Hc, N.mul_0_r, N.add_0_l. destruct (digit_pretty c Hc) as [Hlt Hp].
  destruct (decide (digit_value c = 0)%N) as [E|Hne].
  - rewrite E in *. cbn in Hp. subst c. destruct s; [|done]. by exists 0%N.
  - destruct (int_digits_from_pretty s (digit_value c)) as (n & Hn & Hgo & Hpos); [lia|done|].
    exists n. rewrite Hn. split; [done|]. unfold pretty, pretty_N. rewrite decide_False by lia.
    rewrite Hgo, pretty_N_go_step by lia. by rewrite N.div_small, N.mod_small, Hp.
Qed.

Lemma pretty_plain_number (x : N) : plain_number (pretty x) = true.
Proof.
  unfold plain_number. pose proof (pretty_N_digits x) as Hd.
  destruct (pretty_N_nonempty x) as (c & s & E & _). rewrite E in *. rewrite Hd. cbn.
  destruct (Ascii.eqb_spec c "0"%char) as [->|]; [|done]. cbn. apply String.eqb_eq.
  destruct s as [|d s]; [done|exfalso].
  assert (forall y t, (0 < y)%N -> exists e t', pretty_N_go y t = String e t' /\ e <> "0"%char) as Hlead.
  { intros y. induction (N.lt_wf_0 y) as [y _ IH]; intros t Hy. rewrite pretty_N_go_step by done.
    destruct (decide (y / 10 = 0)%N) as [E0|]; [|apply IH; [apply N.div_lt; lia|by apply N.neq_0_lt_0]].
    rewrite E0, pretty_N_go_0. eexists _, _. split; [done|]. intros Hch.
    assert (y < 10)%N by (by apply N.div_small_iff). rewrite N.mod_small in Hch by done.
    apply (pretty_N_char_inj y 0) in Hch; lia. }
  unfold pretty, pretty_N in E. case_decide; [done|].
  destruct (Hlead x "") as (e & t & Ht & He); [lia|]. rewrite E in Ht. by injection Ht as <-.
Qed.
