(* ===== verification/PyLines.v ===== *)
(** Texts by lines, as Python sees them: [str.splitlines] with and without the ends,
    universal newlines, [textwrap.dedent], and the lemmas that let a text be taken apart
    and put together again.  Text is ASCII. *)
From Stdlib Require Import Ascii.
From S2P Require Import Prelude PyText.

Definition newline : Ascii.ascii := Ascii.ascii_of_nat 10.
Definition carriage_return : Ascii.ascii := Ascii.ascii_of_nat 13.
Definition nl : string := String newline "".

(** The line boundaries of [str.splitlines] in ASCII. *)
Definition is_break (c : Ascii.ascii) : bool :=
  let n := Ascii.nat_of_ascii c in ((10 <=? n) && (n <=? 13)) || ((28 <=? n) && (n <=? 30)).

(** The lines of a text, each with its end: a carriage return and a newline are one end,
    and only the last line may have none. *)
Fixpoint split_ends (brk : Ascii.ascii -> bool) (s : string) : list (string * string) :=
  match s with
  | "" => []
  | String c s' =>
      if brk c then
        match s' with
        | String d s'' =>
            if Ascii.eqb c carriage_return && Ascii.eqb d newline
            then ("", String c (String d "")) :: split_ends brk s''
            else ("", String c "") :: split_ends brk s'
        | "" => [("", String c "")]
        end
      else match split_ends brk s' with
           | (line, e) :: rest => (String c line, e) :: rest
           | [] => [(String c "", "")]
           end
  end.

Definition keep_ends (l : list (string * string)) : list string := (fun l => l.1 +:+ l.2) <$> l.

(** [s.splitlines()] and [s.splitlines(keepends=True)]; [bytes] break at carriage returns
    and newlines alone. *)
Definition splitlines (s : string) : list string := (split_ends is_break s).*1.
Definition splitlines_keep (s : string) : list string := keep_ends (split_ends is_break s).
Definition bytes_break (c : Ascii.ascii) : bool := Ascii.eqb c newline || Ascii.eqb c carriage_return.
Definition bytes_splitlines_keep (s : string) : list string := keep_ends (split_ends bytes_break s).

(** [sep.join(lines)] for the empty separator. *)
Fixpoint str_concat (l : list string) : string :=
  match l with [] => "" | x :: l => x +:+ str_concat l end.

(** What [Path.read_text] does to the ends of lines. *)
Fixpoint universal (s : string) : string :=
  match s with
  | "" => ""
  | String c s' =>
      if Ascii.eqb c carriage_return then
        match s' with
        | String d s'' => if Ascii.eqb d newline then String newline (universal s'')
                          else String newline (universal s')
        | "" => nl
        end
      else String c (universal s')
  end.

(** [s.rstrip(chars)] for one character. *)
Fixpoint rstrip_char (x : Ascii.ascii) (s : string) : string :=
  match s with
  | "" => ""
  | String c s => match rstrip_char x s with
                  | "" => if Ascii.eqb c x then "" else String c ""
                  | t => String c t
                  end
  end.

(** ** [textwrap.dedent]

    The text is given by its lines.  The margin is the longest run of blanks with which
    every line that has something else starts. *)
Definition is_blank (c : Ascii.ascii) : bool :=
  Ascii.eqb c " "%char || Ascii.eqb c (Ascii.ascii_of_nat 9).

Fixpoint common_prefix (a b : string) : string :=
  match a, b with
  | String c a, String d b => if Ascii.eqb c d then String c (common_prefix a b) else ""
  | _, _ => ""
  end.

Definition indents (lines : list string) : list string :=
  omap (fun line => let '(indent, body) := str_span is_blank line in
                    if String.eqb body "" then None else Some indent) lines.

Definition margin (lines : list string) : string :=
  match indents lines with [] => "" | i :: rest => foldl common_prefix i rest end.

Definition dedent_line (margin line : string) : string :=
  if String.eqb (str_span is_blank line).2 "" then ""
  else from_option id line (str_after_prefix margin line).

Definition dedent (lines : list string) : list string := dedent_line (margin lines) <$> lines.

(** [s.split(x)] for one character: the first piece and the others. *)
Fixpoint split_char (x : Ascii.ascii) (s : string) : string * list string :=
  match s with
  | "" => ("", [])
  | String c s => let '(piece, rest) := split_char x s in
                  if Ascii.eqb c x then ("", piece :: rest) else (String c piece, rest)
  end.
Definition pieces (x : Ascii.ascii) (s : string) : list string :=
  let '(piece, rest) := split_char x s in piece :: rest.

Definition dedent_text (s : string) : string := py_join nl (dedent (pieces newline s)).

(** ** Lemmas *)

Definition unbroken (s : string) : bool := str_forallb (fun c => negb (is_break c)) s.

(** A line with its end: no break before it, and a break after it. *)
Definition complete_line (s : string) : Prop := exists line, s = line +:+ nl /\ unbroken line = true.

Lemma str_concat_app a b : str_concat (a ++ b) = str_concat a +:+ str_concat b.
Proof. induction a as [|x a IH]; cbn; [done|]. by rewrite IH, str_app_assoc. Qed.

Lemma str_concat_ends c line e rest :
  str_concat (keep_ends ((String c line, e) :: rest)) = String c (str_concat (keep_ends ((line, e) :: rest))).
Proof. done. Qed.

Lemma keep_ends_concat brk s : str_concat (keep_ends (split_ends brk s)) = s.
Proof.
  enough (forall n s, String.length s <= n -> str_concat (keep_ends (split_ends brk s)) = s) by eauto.
  clear s. induction n as [|n IH]; intros [|c s] Hn; cbn in Hn; [done|lia|done|].
  cbn [split_ends]. pose proof (IH s ltac:(lia)) as Hs. destruct (brk c).
  - destruct s as [|d s]; [done|]. unfold keep_ends in *. destruct (_ && _).
    + cbn in Hn. pose proof (IH s ltac:(lia)) as Ht. rewrite fmap_cons. cbn [str_concat].
      by rewrite Ht.
    + rewrite fmap_cons. cbn [str_concat]. by rewrite Hs.
  - destruct (split_ends brk s) as [|[line e] rest]; [by rewrite <- Hs|].
    by rewrite str_concat_ends, Hs.
Qed.

Lemma splitlines_keep_concat s : str_concat (splitlines_keep s) = s.
Proof. apply keep_ends_concat. Qed.

Lemma split_ends_line line s :
  unbroken line = true ->
  split_ends is_break (line +:+ nl +:+ s) = (line, nl) :: split_ends is_break s.
Proof.
  unfold unbroken. induction line as [|c line IH]; intros Hl.
  - rewrite str_app_nil. change (nl +:+ s) with (String newline s). cbn [split_ends].
    change (is_break newline) with true. cbn. by destruct s as [|d s].
  - cbn in Hl. apply andb_true_iff in Hl as [Hc Hl]. apply negb_true_iff in Hc.
    rewrite str_app_cons. cbn [split_ends]. by rewrite Hc, IH.
Qed.

Lemma splitlines_keep_app lines s :
  Forall complete_line lines -> splitlines_keep (str_concat lines +:+ s) = lines ++ splitlines_keep s.
Proof.
  unfold splitlines_keep, keep_ends. induction 1 as [|? lines (line & -> & Hl) _ IH]; [done|].
  cbn [str_concat]. rewrite !str_app_assoc, split_ends_line by done.
  rewrite fmap_cons, IH. done.
Qed.

(** Texts whose only breaks are newlines. *)
Definition unix (s : string) : bool := str_forallb (fun c => negb (is_break c) || Ascii.eqb c newline) s.

Lemma universal_unix s : unix s = true -> universal s = s.
Proof.
  unfold unix. induction s as [|c s IH]; [done|]. cbn [str_forallb]. intros [Hc Hs]%andb_true_iff.
  cbn [universal]. destruct (Ascii.eqb_spec c carriage_return) as [->|_]; [done|]. by rewrite IH.
Qed.

Lemma unbroken_newline s : unbroken s = true -> str_forallb (fun c => negb (Ascii.eqb c newline)) s = true.
Proof.
  apply str_forallb_weaken. intros c. destruct (Ascii.eqb_spec c newline) as [->|]; [done|done].
Qed.

Lemma splitlines_unbroken s : Forall (fun l => unbroken l = true) (splitlines s).
Proof.
  unfold splitlines. enough (forall n s, String.length s <= n ->
    Forall (fun l => unbroken l = true) (split_ends is_break s).*1) by eauto.
  clear s. induction n as [|n IH]; intros [|c s] Hn; cbn in Hn; [constructor|lia|constructor|].
  pose proof (IH s ltac:(lia)) as Hs. cbn [split_ends]. destruct (is_break c) eqn:Hc.
  - destruct s as [|d s]; [by repeat constructor|]. cbn in Hn.
    destruct (_ && _); constructor; [done| |done|done]. apply IH. lia.
  - destruct (split_ends is_break s) as [|[line e] rest]; unfold unbroken in *; cbn.
    + by repeat constructor; cbn; rewrite Hc.
    + inversion Hs; subst. constructor; [by cbn; rewrite Hc|done].
Qed.

Lemma split_ends_unbroken s :
  unbroken s = true -> split_ends is_break s = if String.eqb s "" then [] else [(s, "")].
Proof.
  unfold unbroken. induction s as [|c s IH]; [done|]. cbn [str_forallb].
  intros [Hc Hs]%andb_true_iff. apply negb_true_iff in Hc. cbn [split_ends]. rewrite Hc, IH by done.
  by destruct s.
Qed.

(** The text of complete lines. *)
Fixpoint log_text (lines : list string) : string :=
  match lines with [] => "" | line :: lines => line +:+ nl +:+ log_text lines end.

Lemma log_text_snoc lines line r :
  log_text lines +:+ line +:+ nl +:+ r = log_text (lines ++ [line]) +:+ r.
Proof.
  induction lines as [|l lines IH]; cbn [log_text app]; rewrite !str_app_assoc; [done|].
  by rewrite IH.
Qed.

Lemma log_text_app a b : log_text (a ++ b) = log_text a +:+ log_text b.
Proof. induction a as [|l a IH]; [done|]. cbn [log_text app]. by rewrite IH, !str_app_assoc. Qed.

Lemma splitlines_torn lines torn :
  Forall (fun line => unbroken line = true) lines -> unbroken torn = true ->
  splitlines (log_text lines +:+ torn) = lines ++ if String.eqb torn "" then [] else [torn].
Proof.
  unfold splitlines. intros Hl Ht. induction Hl as [|line lines Hl _ IH]; cbn [log_text].
  - rewrite str_app_nil, split_ends_unbroken by done. by destruct (String.eqb torn "").
  - by rewrite !str_app_assoc, split_ends_line, fmap_cons, IH.
Qed.

Lemma splitlines_log lines :
  Forall (fun line => unbroken line = true) lines -> splitlines (log_text lines) = lines.
Proof.
  intros H. rewrite <- (str_app_nil_r (log_text lines)), splitlines_torn by done. apply app_nil_r.
Qed.

Lemma unix_torn lines torn :
  Forall (fun line => unbroken line = true) lines -> unbroken torn = true -> unix (log_text lines +:+ torn) = true.
Proof.
  assert (forall s, unbroken s = true -> unix s = true) as Hu.
  { unfold unbroken, unix. intros s. apply str_forallb_weaken. by intros c ->. }
  intros Hl Ht. induction Hl as [|line lines Hl _ IH]; cbn [log_text]; [by rewrite str_app_nil; apply Hu|].
  rewrite !str_app_assoc. unfold unix in *. by rewrite str_forallb_app, str_forallb_app, IH, (Hu line).
Qed.

(** The lines of joined lines: the last one is lost when it is empty. *)
Lemma splitlines_join P lines :
  Forall (fun l => unbroken l = true) lines -> Forall P lines -> Forall P (splitlines (py_join nl lines)).
Proof.
  unfold splitlines. induction lines as [|x [|y lines] IH]; intros Hu HP.
  - constructor.
  - inversion Hu; subst. cbn [py_join]. rewrite split_ends_unbroken by done.
    destruct (String.eqb x ""); [constructor|]. inversion HP; subst. by constructor.
  - inversion Hu; inversion HP; subst. change (py_join nl (x :: y :: lines)) with (x +:+ nl +:+ py_join nl (y :: lines)).
    rewrite split_ends_line by done. rewrite fmap_cons. constructor; auto.
Qed.

Lemma pieces_join lines :
  lines <> [] -> Forall (fun l => unbroken l = true) lines -> pieces newline (py_join nl lines) = lines.
Proof.
  assert (forall x s, unbroken x = true ->
    split_char newline (x +:+ nl +:+ s) = (x, pieces newline s)
    /\ split_char newline x = (x, [])) as Hx.
  { intros x s Hx%unbroken_newline. induction x as [|c x IH].
    - split; [|done]. rewrite str_app_nil. change (nl +:+ s) with (String newline s). cbn [split_char].
      unfold pieces. by destruct (split_char newline s).
    - cbn in Hx. apply andb_true_iff in Hx as [Hc Hx]. apply negb_true_iff in Hc.
      destruct (IH Hx) as [H1 H2]. rewrite str_app_cons. cbn [split_char]. by rewrite H1, H2, Hc. }
  intros Hne. induction 1 as [|x lines Hu _ IH]; [done|]. destruct lines as [|y lines].
  - cbn [py_join]. unfold pieces. by rewrite (proj2 (Hx x "" Hu)).
  - change (py_join nl (x :: y :: lines)) with (x +:+ nl +:+ py_join nl (y :: lines)).
    unfold pieces at 1. rewrite (proj1 (Hx _ _ Hu)). f_equal. by apply IH.
Qed.

Lemma join_complete lines :
  lines <> [] -> py_join nl lines +:+ nl = str_concat ((fun l => l +:+ nl) <$> lines).
Proof.
  intros Hne. induction lines as [|x [|y lines] IH]; [done| |].
  - cbn. by rewrite str_app_nil_r.
  - change (py_join nl (x :: y :: lines)) with (x +:+ nl +:+ py_join nl (y :: lines)).
    rewrite fmap_cons. cbn [str_concat]. rewrite !str_app_assoc, IH by done. done.
Qed.

Lemma complete_lines lines :
  Forall (fun l => unbroken l = true) lines -> Forall complete_line ((fun l => l +:+ nl) <$> lines).
Proof. intros H. apply Forall_fmap. eapply Forall_impl; [exact H|]. intros l Hl. by exists l. Qed.

(** Only the last line of a Unix text may lack its end. *)
Lemma unix_complete s lines rest :
  unix s = true -> splitlines_keep s = lines ++ rest -> rest <> [] -> Forall complete_line lines.
Proof.
  unfold unix, splitlines_keep, keep_ends. revert lines rest.
  enough (forall n s lines rest, String.length s <= n ->
    str_forallb (fun c => negb (is_break c) || Ascii.eqb c newline) s = true ->
    (fun l => l.1 +:+ l.2) <$> split_ends is_break s = lines ++ rest -> rest <> [] ->
    Forall complete_line lines) by eauto.
  clear s. induction n as [|n IH]; intros [|c s] lines rest Hn Hu Heq Hr; cbn in Hn.
  1,3: by destruct lines.
  { lia. }
  cbn [str_forallb] in Hu. apply andb_true_iff in Hu as [Hc Hu].
  cbn [split_ends] in Heq. destruct (is_break c) eqn:Hb.
  - cbn in Hc. apply Ascii.eqb_eq in Hc as ->.
    assert ((String newline "") :: ((fun l => l.1 +:+ l.2) <$> split_ends is_break s) = lines ++ rest) as Heq'.
    { by destruct s. }
    destruct lines as [|x lines]; [constructor|]. cbn in Heq'. injection Heq' as <- Heq'.
    constructor; [by exists ""|]. apply (IH s lines rest); [lia|done|done|done].
  - destruct lines as [|x lines]; [constructor|].
    destruct (split_ends is_break s) as [|[line e] l] eqn:Es.
    { cbn in Heq. injection Heq as _ Heq. symmetry in Heq. by apply app_eq_nil in Heq as [_ ->]. }
    cbn in Heq. injection Heq as <- Heq.
    pose proof (IH s ((line +:+ e) :: lines) rest ltac:(lia) Hu) as Hs. rewrite Es in Hs.
    cbn in Hs. rewrite Heq in Hs. specialize (Hs eq_refl Hr). inversion Hs as [|? ? (t & Ht & Hl) ?]; subst.
    constructor; [|done]. exists (String c t). rewrite !str_app_cons, <- Ht. split; [done|].
    unfold unbroken in *. cbn. by rewrite Hb.
Qed.

Lemma rstrip_char_id x s : str_forallb (fun c => negb (Ascii.eqb c x)) s = true -> rstrip_char x s = s.
Proof.
  induction s as [|c s IH]; [done|]. cbn. intros [Hc Hs]%andb_true_iff. apply negb_true_iff in Hc.
  rewrite IH, Hc by done. by destruct s.
Qed.

Lemma rstrip_char_app x s : rstrip_char x (s +:+ String x "") = rstrip_char x s.
Proof.
  induction s as [|c s IH].
  - rewrite str_app_nil. cbn [rstrip_char]. by rewrite Ascii.eqb_refl.
  - rewrite str_app_cons. cbn [rstrip_char]. by rewrite IH.
Qed.

(** ** The margin is blank *)

Lemma common_prefix_blank a b : str_forallb is_blank a = true -> str_forallb is_blank (common_prefix a b) = true.
Proof.
  revert b. induction a as [|c a IH]; intros [|d b]; cbn; try done.
  intros [Hc Ha]%andb_true_iff. destruct (Ascii.eqb c d); [|done]. cbn. by rewrite Hc, IH.
Qed.

Lemma margin_blank lines : str_forallb is_blank (margin lines) = true.
Proof.
  unfold margin. assert (Forall (fun i => str_forallb is_blank i = true) (indents lines)) as Hi.
  { apply Forall_forall. intros i (line & _ & Hline)%list_elem_of_omap.
    pose proof (str_span_spec is_blank line) as Hs. destruct (str_span is_blank line) as [a b].
    destruct (String.eqb b ""); simplify_eq/=. tauto. }
  destruct Hi as [|i rest Hi Hrest]; [done|]. revert i Hi. induction Hrest; intros i' Hi; cbn; auto.
  apply IHHrest. by apply common_prefix_blank.
Qed.

(** A dedented line is empty or the end of the line, past blanks. *)
Lemma dedent_line_suffix lines line :
  dedent_line (margin lines) line = ""
  \/ exists w, str_forallb is_blank w = true /\ line = w +:+ dedent_line (margin lines) line.
Proof.
  unfold dedent_line. destruct (String.eqb _ ""); [by left|]. right.
  destruct (str_after_prefix (margin lines) line) as [t|] eqn:E; [|by exists ""].
  exists (margin lines). split; [apply margin_blank|]. by apply str_after_prefix_Some in E.
Qed.
