(* ===== verification/PyJson.v ===== *)
(** Values as [json] decodes them, and the two texts of a value the source prints in its
    messages.  An object lists each of its keys once, in the order written. *)

From S2P Require Import Prelude PyFloat PyText.

Inductive Json :=
  | JNull
  | JBool (b : bool)
  | JInt (z : Z)
  | JFloat (x : float)
  | JStr (s : string)
  | JArr (items : list Json)
  | JObj (items : list (string * Json)).

(** [repr(value)], which only error messages show. *)
Class PyRepr := { py_repr : Json -> string }.
Definition plain_repr : PyRepr := {| py_repr _ := "value" |}.

Definition dquote : string := String (Ascii.ascii_of_nat 34) "".

(** ** Conversions

    [str] of a value that is not a string, and [float] of a text ([None] where it raises
    [ValueError]), are the language's; no theorem depends on what they return. *)
Class PyConv := { py_str : Json -> string }.
Definition plain_conv : PyConv := {| py_str _ := "value" |}.

Class PyFloatParse := { float_of_str : string -> option float }.
Definition no_float_text : PyFloatParse := {| float_of_str _ := None |}.

(** [bool(value)] *)
Definition truthy (v : Json) : bool :=
  match v with
  | JNull => false
  | JBool b => b
  | JInt z => negb (z =? 0)%Z
  | JFloat x => negb (feq x f0)
  | JStr s => negb (String.eqb s "")
  | JArr l => negb (Nat.eqb (length l) 0)
  | JObj d => negb (Nat.eqb (length d) 0)
  end.

(** [body.get(key) or default] *)
Definition get_or (d : list (string * Json)) (key : string) (default : Json) : Json :=
  match dict_get d key with Some v => if truthy v then v else default | None => default end.

Section Conversions.
Context `{PyConv} `{PyFloatParse}.

(** [str(value)] *)
Definition json_str (v : Json) : string := match v with JStr s => s | _ => py_str v end.

(** [float(value)] *)
Definition json_float (v : Json) : result float :=
  match v with
  | JFloat x => Ok x
  | JInt z => if isfinite (float_of_Z z) then Ok (float_of_Z z) else Raise OverflowError
  | JBool b => Ok (if b then f1 else f0)
  | JStr s => match float_of_str s with
              | Some x => Ok x
              | None => Raise (ValueError "could not convert string to float")
              end
  | JNull | JArr _ | JObj _ =>
      Raise (TypeError "float() argument must be a string or a real number")
  end.

(** [int(value)] *)
Definition json_int (v : Json) : result Z :=
  match v with
  | JInt z => Ok z
  | JBool b => Ok (if b then 1 else 0)%Z
  | JFloat x => match float_trunc x with
                | Some z => Ok z
                | None => if is_nan x then Raise (ValueError "cannot convert float NaN to integer")
                          else Raise OverflowError
                end
  | JStr s => match py_int s with
              | Some z => Ok z
              | None => Raise (ValueError "invalid literal for int() with base 10")
              end
  | JNull | JArr _ | JObj _ =>
      Raise (TypeError "int() argument must be a string, a bytes-like object or a real number")
  end.

(** [float(value)] with [except (TypeError, ValueError)]. *)
Definition float_or {A} (v : Json) (convert : float -> A) (default : A) : result A :=
  match json_float v with
  | Ok x => Ok (convert x)
  | Raise (TypeError _) | Raise (ValueError _) => Ok default
  | Raise e => Raise e
  end.
End Conversions.

(** [check_record_format] of [src/zicato/epoch/_storage.py]: the stamp must be the
    supported integer. *)
Definition RECORD_FORMAT_VERSION : Z := 1.

Definition RecordFormatError (name : string) : exn :=
  RecordError (name +:+ ": unsupported format_version").

Definition check_record_format (body : list (string * Json)) (name : string)
    (expected_version : Z) : result unit :=
  match dict_get body "format_version" with
  | Some (JInt v) => if (v =? expected_version)%Z then Ok tt else Raise (RecordFormatError name)
  | _ => Raise (RecordFormatError name)
  end.
