(* ===== verification/Sha256.v ===== *)
(** SHA-256 ([hashlib.sha256]) over byte strings, on 32-bit words held as [Z]. *)

From S2P Require Import Prelude.

Section Words.
Local Open Scope Z_scope.

Definition w32 (x : Z) : Z := Z.land x 0xffffffff.
Definition add32 (x y : Z) : Z := w32 (x + y).
Definition rotr (n x : Z) : Z := Z.lor (Z.shiftr x n) (w32 (Z.shiftl x (32 - n))).
Definition not32 (x : Z) : Z := Z.lxor x 0xffffffff.
Definition xor3 (x y z : Z) : Z := Z.lxor x (Z.lxor y z).

(** The constants are the first 32 bits of the fractional parts of the square roots
    of the first 8 primes and of the cube roots of the first 64. *)
Definition is_prime (n : Z) : bool :=
  forallb (fun d => negb (n mod d =? 0)) (seqZ 2 (Z.sqrt n - 1)).

Definition primes : list Z := List.filter is_prime (seqZ 2 310).

(** The integer cube root of [n] on [bits] bits, from the highest down. *)
Fixpoint cube_root (bits : nat) (root n : Z) : Z :=
  match bits with
  | O => root
  | S bits =>
      let up := root + Z.shiftl 1 (Z.of_nat bits) in
      cube_root bits (if up * up * up <=? n then up else root) n
  end.

Definition round_constants : list Z :=
  Eval vm_compute in (fun p => w32 (cube_root 36 0 (Z.shiftl p 96))) <$> primes.

Definition initial_hash : list Z :=
  Eval vm_compute in (fun p => w32 (Z.sqrt (Z.shiftl p 64))) <$> take 8 primes.

(** ** Padding *)

Fixpoint bytes_of (s : string) : list Z :=
  match s with
  | EmptyString => []
  | String c s => Z.of_N (Ascii.N_of_ascii c) :: bytes_of s
  end.

Definition be_byte (x : Z) (k : Z) : Z := Z.land (Z.shiftr x (8 * k)) 0xff.

Definition pad (bytes : list Z) : list Z :=
  let n := Z.of_nat (length bytes) in
  bytes ++ 0x80 :: repeat 0 (Z.to_nat ((55 - n) mod 64))
  ++ (be_byte (8 * n) <$> [7; 6; 5; 4; 3; 2; 1; 0]).

Fixpoint be_words (bytes : list Z) : list Z :=
  match bytes with
  | a :: b :: c :: d :: rest =>
      Z.lor (Z.shiftl a 24) (Z.lor (Z.shiftl b 16) (Z.lor (Z.shiftl c 8) d)) :: be_words rest
  | _ => []
  end.

(** ** Compression *)

(** The message schedule, latest word first. *)
Fixpoint extend (n : nat) (w : list Z) : list Z :=
  match n with
  | O => w
  | S n =>
      let w2 := nth 1 w 0 in
      let w7 := nth 6 w 0 in
      let w15 := nth 14 w 0 in
      let w16 := nth 15 w 0 in
      let s0 := xor3 (rotr 7 w15) (rotr 18 w15) (Z.shiftr w15 3) in
      let s1 := xor3 (rotr 17 w2) (rotr 19 w2) (Z.shiftr w2 10) in
      extend n (add32 (add32 w16 s0) (add32 w7 s1) :: w)
  end.

Definition step (st : list Z) (kw : Z * Z) : list Z :=
  match st with
  | [a; b; c; d; e; f; g; h] =>
      let s1 := xor3 (rotr 6 e) (rotr 11 e) (rotr 25 e) in
      let ch := Z.lxor (Z.land e f) (Z.land (not32 e) g) in
      let t1 := w32 (h + s1 + ch + kw.1 + kw.2) in
      let s0 := xor3 (rotr 2 a) (rotr 13 a) (rotr 22 a) in
      let maj := xor3 (Z.land a b) (Z.land a c) (Z.land b c) in
      [add32 t1 (add32 s0 maj); a; b; c; add32 d t1; e; f; g]
  | _ => st
  end.

Definition compress (st : list Z) (block : list Z) : list Z :=
  let w := rev (extend 48 (rev block)) in
  zip_with add32 st (foldl step st (zip round_constants w)).

(** The blocks of sixteen words. *)
Fixpoint digest_blocks (fuel : nat) (st : list Z) (words : list Z) : list Z :=
  match fuel, words with
  | S fuel, _ :: _ => digest_blocks fuel (compress st (firstn 16 words)) (skipn 16 words)
  | _, _ => st
  end.
End Words.

(** [hashlib.sha256(s.encode()).digest()]: the thirty-two bytes. *)
Definition sha256 (s : string) : list Z :=
  let words := be_words (pad (bytes_of s)) in
  digest_blocks (length words) initial_hash words ≫= (fun x => be_byte x <$> [3; 2; 1; 0]%Z).

(** [bytes] compare lexicographically. *)
Fixpoint bytes_lt (a b : list Z) : bool :=
  match a, b with
  | _, [] => false
  | [], _ :: _ => true
  | x :: a, y :: b => if (x =? y)%Z then bytes_lt a b else (x <? y)%Z
  end.

#[export] Instance bytes_lt_swo : StrictWeakOrder bytes_lt (fun _ => True).
Proof.
  split.
  - intros x _. induction x; cbn; [done|]. by rewrite Z.eqb_refl.
  - intros x y _ _. revert y. induction x as [|a x IH]; intros [|b y]; cbn; try done.
    rewrite (Z.eqb_sym b a). destruct (Z.eqb_spec a b); [auto|]. rewrite Z.ltb_lt, Z.ltb_ge. lia.
  - intros x y z _ _ _. revert y z. induction x as [|a x IH]; intros [|b y] [|c z]; cbn; try done.
    destruct (Z.eqb_spec a b), (Z.eqb_spec b c), (Z.eqb_spec a c); try lia; subst; try done;
      rewrite ?Z.ltb_ge in *; try lia. by apply IH.
Qed.

Lemma bytes_eq_lt a b : bool_decide (a = b) = negb (bytes_lt a b) && negb (bytes_lt b a).
Proof.
  revert b. induction a as [|x a IH]; intros [|y b]; cbn; try done.
  rewrite (Z.eqb_sym y x). destruct (Z.eqb_spec x y) as [->|Hne].
  - rewrite <-IH. apply bool_decide_ext. by split; [intros [= ->]|intros ->].
  - rewrite bool_decide_eq_false_2 by congruence.
    destruct (Z.ltb_spec x y), (Z.ltb_spec y x); done || lia.
Qed.

(** The published test vectors. *)
Definition nat_digest (s : string) : Z := foldl (fun acc b => acc * 256 + b)%Z 0%Z (sha256 s).

Example sha256_empty :
  nat_digest "" = 0xe3b0c44298fc1c149afbf4c8996fb92427ae41e4649b934ca495991b7852b855%Z.
Proof. vm_compute. reflexivity. Qed.

Example sha256_abc :
  nat_digest "abc" = 0xba7816bf8f01cfea414140de5dae2223b00361a396177a9cb410ff61f20015ad%Z.
Proof. vm_compute. reflexivity. Qed.

Example sha256_two_blocks :
  nat_digest "abcdbcdecdefdefgefghfghighijhijkijkljklmklmnlmnomnopnopq"
  = 0x248d6a61d20638b8e5c026930c3e6039a33ce45964ff2167f6ecedd419db06c1%Z.
Proof. vm_compute. reflexivity. Qed.
