(* ===== verification/CoreTypes.v ===== *)
(** The value types of [src/zicato/core] the tournament layers share:
    decisions, confirmation states, measurement draws, experiments, and the part
    of the scoring weights the promote gate reads. *)

From S2P Require Import Prelude PyFloat PyJson.

(** ** Tournament decisions ([core/tournament.py]) *)

Inductive TournamentDecision := PROMOTED | REJECTED | DEFERRED.
Inductive ConfirmationStatus := DISABLED | SATISFIED | FAILED | INCOMPLETE.
Inductive Side := PARENT | CHILD.

#[export] Instance TournamentDecision_eq_dec : EqDecision TournamentDecision.
Proof. solve_decision. Defined.
#[export] Instance ConfirmationStatus_eq_dec : EqDecision ConfirmationStatus.
Proof. solve_decision. Defined.

(** The lowercase wire token each member of the string enum equals. *)
Definition decision_token (d : TournamentDecision) : string :=
  match d with PROMOTED => "promoted" | REJECTED => "rejected" | DEFERRED => "deferred" end.

(** [TournamentDecision(value)], which raises on an unknown token. *)
Definition decision_of_token (s : string) : result TournamentDecision :=
  if String.eqb s "promoted" then Ok PROMOTED
  else if String.eqb s "rejected" then Ok REJECTED
  else if String.eqb s "deferred" then Ok DEFERRED
  else Raise (ValueError (s +:+ " is not a valid TournamentDecision")).

Definition promoted (d : TournamentDecision) : bool :=
  match d with PROMOTED => true | _ => false end.

Record MatchOutcome := {
  mo_match_id : string;
  mo_opponent : string;
  mo_won : bool;
  mo_delta_scalar : float;
}.

(** ** Measurements ([core/measurement.py]) *)

Inductive MeasurementPurpose :=
  | TOURNAMENT | CALIBRATION | PREFLIGHT | SCREEN | CONFIRMATION | REFLECTION | ADMISSION.

#[export] Instance MeasurementPurpose_eq_dec : EqDecision MeasurementPurpose.
Proof. solve_decision. Defined.

Definition purpose_token (p : MeasurementPurpose) : string :=
  match p with
  | TOURNAMENT => "tournament"
  | CALIBRATION => "calibration"
  | PREFLIGHT => "contract_preflight"
  | SCREEN => "candidate_screen"
  | CONFIRMATION => "evidence_confirmation"
  | REFLECTION => "board_reflection"
  | ADMISSION => "eval_synthesis_admission"
  end.

Record MeasurementDraw := {
  purpose : MeasurementPurpose;
  draw : nat;
  base_seed : option Z;
}.

#[export] Instance MeasurementDraw_eq_dec : EqDecision MeasurementDraw.
Proof. solve_decision. Defined.

(** [MeasurementDraw(...)] with the checks of [__post_init__] on its [draw]. *)
Definition make_draw (p : MeasurementPurpose) (d : Z) (seed : option Z) : result MeasurementDraw :=
  ensure (0 <=? d)%Z orelse ValueError "measurement draw must be a nonnegative integer";
  Ok {| purpose := p; draw := Z.to_nat d; base_seed := seed |}.

Definition own_code (d : MeasurementDraw) : bool :=
  negb (bool_decide (purpose d = PREFLIGHT) || bool_decide (purpose d = SCREEN)).

Definition cell_evidence (d : MeasurementDraw) : bool :=
  bool_decide (purpose d = TOURNAMENT) || bool_decide (purpose d = CONFIRMATION).

Definition offset (d : MeasurementDraw) (count : nat) : MeasurementDraw :=
  {| purpose := purpose d; draw := draw d + count; base_seed := base_seed d |}.

Definition TOURNAMENT_DRAW : MeasurementDraw :=
  {| purpose := TOURNAMENT; draw := 0; base_seed := None |}.

(** A recorded seed, an explicit absence of one, or no provenance at all. *)
Inductive BaseSeed := UNKNOWN_SEED | Seed (s : option Z).

Definition seed_qualifier (s : BaseSeed) : string :=
  match s with
  | UNKNOWN_SEED => ""
  | Seed None => "seed-none"
  | Seed (Some n) => "seed-" +:+ pretty n
  end.

Definition validate_measurement_count (count : Z) (allow_empty : bool) : result unit :=
  let minimum := if allow_empty then 0%Z else 1%Z in
  ensure (minimum <=? count)%Z
    orelse ValueError ("measurement draw count must be an integer >= " +:+ pretty minimum
                       +:+ ", got " +:+ pretty count);
  Ok tt.

(** [recorded_measurement]: the record must name the purpose and draw its path
    selects. *)
Definition recorded_measurement (expected : MeasurementDraw) (m : option MeasurementDraw)
    : result MeasurementDraw :=
  match m with
  | Some m =>
      if bool_decide (purpose m = purpose expected) && bool_decide (draw m = draw expected)
      then Ok m
      else Raise (ValueError "recorded measurement conflicts with the selected purpose and draw")
  | None =>
      Raise (ValueError "recorded measurement conflicts with the selected purpose and draw")
  end.

(** ** Experiments ([core/experiment.py]) *)

Inductive MovementDirection :=
  | decrease | increase | neutral | decrease_or_neutral | increase_or_neutral.
Inductive MovementMagnitude := small | medium | large.

Record ExpectedMetricMovement := {
  emm_metric_name : string;
  emm_direction : MovementDirection;
  emm_magnitude : MovementMagnitude;
}.

Record HypothesisSpec := {
  core_idea : string;
  modulating : list string;
  why : string;
  expected_pass_rate_delta : string;
  risks : string;
  expected_metric_movements : list ExpectedMetricMovement;
}.

(** ** Patches ([core/mutation.py]) *)

Inductive PatchOpKind := op_replace | op_set_numeric | op_set_enum.

(** An [int | float] payload keeps its Python type. *)
Inductive Numeric := num_int (z : Z) | num_float (x : float).

Record Patch := {
  patch_id : string;
  mutation_id : string;
  patch_op : PatchOpKind;
  new_content : option string;
  new_numeric : option Numeric;
  new_enum : option string;
  rationale : string;
}.

Record MetricMovementActual := {
  mma_metric_name : string;
  from_value : float;
  to_value : float;
  hypothesis_match : bool;
  mma_note : string;
}.

(** The [holdout] and [evidence] blocks are JSON objects nobody looks into. *)
Record OutcomeRecord := {
  ran_at : string;
  pass_rate_delta : float;
  drift_loss_delta : float;
  scalar_score_delta : float;
  tournament_decision : option TournamentDecision;
  rejection_reason : string;
  metric_movements : list MetricMovementActual;
  outcome_structure : string;
  final_rank : option Z;
  eliminated_in_round : option Z;
  match_record : list MatchOutcome;
  champion_eval_mode : string;
  outcome_holdout : option (list (string * Json));
  train_loss : option float;
  holdout_loss : option float;
  generalization_gap : option float;
  operator_override : bool;
  operator_override_reason : string;
  outcome_evidence : option (list (string * Json));
}.

Record Experiment := {
  experiment_id : string;
  exp_epoch_id : string;
  exp_generation_id : string;
  parent_generation_id : option string;
  proposed_at : string;
  hypothesis : HypothesisSpec;
  patches : list Patch;
  exp_outcome : option OutcomeRecord;
  round_index : Z;
  recombined_from : list string;
}.

(** ** Scoring weights ([core/scoring_config.py])

    The evaluation contract's fields that the gate, the scoring and the holdout
    governance read; those of its [experimental] block are inlined. *)

Inductive PassRateMonotonicityScope := per_entry_scope | aggregate_scope.

Record LadderConfig := {
  ladder_enabled : bool;
  ladder_threshold : option float;
  ladder_budget : Z;
}.

Record OverfittingConfig := {
  overfitting_enabled : bool;
  holdout_fraction : float;
  min_board_size_for_split : Z;
  ladder : LadderConfig;
  rotate_holdout : bool;
}.

(** The names a contract may pin its telemetry to. *)
Definition DIALECT_GOLDFIVE : string := "goldfive".
Definition DIALECT_ADK_EVENTS : string := "adk_events".
Definition DIALECT_TRANSCRIPT : string := "transcript".

(** A transform: its [op] and its parameters. *)
Definition TransformSpec : Type := list (string * Json).

Record ScoringWeights := {
  pass_weight : float;
  severity_weights : list (string * float);
  per_kind_weights : list (string * float);
  per_judge_weights : list (string * float);
  default_judge_weight : float;
  plan_revision_weight : float;
  task_failure_weight : float;
  not_completed_weight : float;
  promote_margin : float;
  holdout_margin : option float;
  holdout_entry_regression_budget : Z;
  pass_rate_monotonicity : bool;
  pass_rate_monotonicity_scope : PassRateMonotonicityScope;
  regression_gate_enabled : bool;
  namespace_weights : list (string * float);
  namespace_monotonicity : list (string * bool);
  overfitting : OverfittingConfig;
  diff_complexity_weight : float;
  diff_complexity_ceiling : float;
  pass_transform : option TransformSpec;
  drift_kind_aggregation : list (string * TransformSpec);
  drift_reducer : string;
  scalar_fn : string;
  block_on_containment_violation : bool;
  block_on_gate_contradiction : bool;
  telemetry_dialect : string;
}.

Definition default_ladder : LadderConfig :=
  {| ladder_enabled := true; ladder_threshold := None; ladder_budget := 16 |}.

Definition default_overfitting : OverfittingConfig := {|
  overfitting_enabled := true; holdout_fraction := 0.3%float; min_board_size_for_split := 6;
  ladder := default_ladder; rotate_holdout := true |}.

(** [ScoringWeights()] *)
Definition default_weights : ScoringWeights := {|
  pass_weight := f1;
  severity_weights := [("info", 1%float); ("warning", 3%float); ("critical", 10%float)];
  per_kind_weights := []; per_judge_weights := []; default_judge_weight := f1;
  plan_revision_weight := 0.5%float; task_failure_weight := 10%float;
  not_completed_weight := 50%float; promote_margin := 0.01%float; holdout_margin := None;
  holdout_entry_regression_budget := 0; pass_rate_monotonicity := true;
  pass_rate_monotonicity_scope := per_entry_scope; regression_gate_enabled := false;
  namespace_weights :=
    [("drift:", 1%float); ("judge:", 1%float); ("failure:", 1%float); ("runtime:", 0%float);
     ("cost:", 0.001%float); ("latency:", 0.0001%float); ("rubric:", (-1)%float);
     ("output:", 0%float); ("schema:", 5%float)];
  namespace_monotonicity := [("drift:", false); ("rubric:", true); ("schema:", true)];
  overfitting := default_overfitting; diff_complexity_weight := f0;
  diff_complexity_ceiling := f0; pass_transform := None; drift_kind_aggregation := [];
  drift_reducer := ""; scalar_fn := ""; block_on_containment_violation := false;
  block_on_gate_contradiction := false; telemetry_dialect := DIALECT_GOLDFIVE |}.
