(* ===== verification/Markers.v ===== *)
(** Mutation markers, [src/zicato/mutation/markers.py]: the comment grammar of each file
    suffix and the lines it reads as markers.
    The regular expressions are written out as recognisers.  A line holds no newline, and
    text is ASCII; the leaders of an entry hold no surrounding space (the table strips
    them), so a leader starts where the indentation ends. *)
From Stdlib Require Import Ascii.
From S2P Require Import Prelude PyFloat PyText PyLines PyJson.

(** ** The syntax table *)

Record MarkerSyntax := {
  suffix : string;
  leaders : list string;
  trailers : list string;
}.

Definition PYTHON_SUFFIX : string := ".py".
Definition is_python (s : MarkerSyntax) : bool := String.eqb (suffix s) PYTHON_SUFFIX.

Definition PYTHON_SYNTAX : MarkerSyntax :=
  {| suffix := PYTHON_SUFFIX; leaders := ["#"]; trailers := [] |}.

Definition SyntaxTable := list (string * MarkerSyntax).

Definition BUILTIN_SYNTAXES : SyntaxTable :=
  (PYTHON_SUFFIX, PYTHON_SYNTAX)
  :: ((fun s => (s, {| suffix := s; leaders := ["<!--"; "#"]; trailers := ["-->"] |}))
      <$> [".md"; ".markdown"; ".txt"; ".yaml"; ".yml"; ".toml"]).

Section Config.
Context `{PyConv}.

(** [_tokens]: an absent key and a null are no tokens. *)
Definition _tokens (raw : option Json) (name : string) : result (list string) :=
  match raw with
  | None | Some JNull => Ok []
  | Some (JArr items) =>
      let tokens := str_strip ∘ json_str <$> items in
      ensure forallb (fun t => negb (String.eqb t "")) tokens
      orelse ValueError ("mutation_surface." +:+ name +:+ " carries an empty token"); Ok tokens
  | Some _ => Raise (ValueError ("mutation_surface." +:+ name +:+ " must be a list of strings"))
  end.

(** One entry of the declared table. *)
Definition declared (sfx : string) (entry : Json) : result MarkerSyntax :=
  ensure str_startswith "." sfx && (2 <=? String.length sfx)
  orelse ValueError "mutation_surface: not a file suffix";
  ensure negb (String.eqb sfx PYTHON_SUFFIX) orelse ValueError "mutation_surface: .py is reserved";
  match entry with
  | JObj d =>
      try lead <- _tokens (dict_get d "leaders") "leaders";
      ensure negb (Nat.eqb (length lead) 0)
      orelse ValueError "mutation_surface: at least one comment leader is required";
      try trail <- _tokens (dict_get d "trailers") "trailers";
      Ok {| suffix := sfx; leaders := lead; trailers := trail |}
  | _ => Raise (ValueError "mutation_surface: an entry must be a table")
  end.

Definition syntax_table_from_config (raw : option (list (string * Json))) : result SyntaxTable :=
  result_foldl (fun table item => try s <- declared item.1 item.2; Ok (dict_set table item.1 s))
    BUILTIN_SYNTAXES (from_option id [] raw).

(** The active table of the process, and the suffixes it adds. *)
Definition install_syntax_table (raw : option (list (string * Json)))
    : result (SyntaxTable * list string) :=
  try table <- syntax_table_from_config raw;
  Ok (table, sorted_strings (List.filter (fun s => negb (dict_mem BUILTIN_SYNTAXES s)) (dict_keys table))).
End Config.

(** A path by its parts; [Path.suffix] is what follows the last inner dot of the name. *)
Abbreviation Path := (list string).
Definition path_name (p : Path) : string := from_option id "" (last p).

Fixpoint from_last_dot (s : string) : option string :=
  match s with
  | "" => None
  | String c s' => match from_last_dot s' with
                   | Some t => Some t
                   | None => if Ascii.eqb c "."%char then Some s else None
                   end
  end.

Definition path_suffix (p : Path) : string :=
  match path_name p with
  | "" => ""
  | String _ rest => match from_last_dot rest with
                     | Some t => if 1 <? String.length t then t else ""
                     | None => ""
                     end
  end.

Definition marker_syntax_for (table : SyntaxTable) (p : Path) : option MarkerSyntax :=
  dict_get table (path_suffix p).

(** ** Recognising a line *)

Definition quote : Ascii.ascii := Ascii.ascii_of_nat 34.
Definition all_space (s : string) : bool := str_forallb ascii_is_space s.

(** Alternation, longest first. *)
Definition longest_first (tokens : list string) : list string :=
  py_sorted (fun a b => String.length b <? String.length a) tokens.

(** [^\s*leader\s*] for each leader in turn: what follows. *)
Definition after_leader (syntax : MarkerSyntax) (line : string) : list string :=
  omap (fun leader => str_lstrip <$> str_after_prefix leader (str_lstrip line))
       (longest_first (leaders syntax)).

(** [(?:\s*closer)?\s*$] *)
Definition closes (syntax : MarkerSyntax) (rest : string) : bool :=
  all_space rest
  || existsb (fun t => match str_after_prefix t (str_lstrip rest) with
                       | Some r => all_space r
                       | None => false
                       end) (longest_first (trailers syntax)).

Definition is_end_marker (syntax : MarkerSyntax) (line : string) : bool :=
  existsb (fun rest => match str_after_prefix "zicato:mutable:end" rest with
                       | Some r => closes syntax r
                       | None => false
                       end) (after_leader syntax line).

Definition is_word (c : Ascii.ascii) : bool :=
  let n := Ascii.nat_of_ascii c in
  is_digit c || ((65 <=? n) && (n <=? 90)) || ((97 <=? n) && (n <=? 122)) || (n =? 95).

Definition is_grading_marker (syntax : MarkerSyntax) (line : string) : bool :=
  existsb (fun rest => match str_after_prefix "zicato:grading" rest with
                       | Some r => starts_outside is_word r
                       | None => false
                       end) (after_leader syntax line).

(** [_TAIL_KV_RE.finditer]: the matches from the left, none overlapping. *)
Fixpoint kv_pairs (fuel : nat) (s : string) : list (string * string) :=
  match fuel, s with
  | S fuel, String c rest =>
      let '(name, after) := str_span is_word rest in
      let pair :=
        if is_word c && negb (is_digit c) then
          match str_after_prefix (String "="%char (String quote "")) after with
          | Some value =>
              match str_span (fun c => negb (Ascii.eqb c quote)) value with
              | (value, String _ after) => Some (String c name, value, after)
              | (_, "") => None
              end
          | None => None
          end
        else None in
      match pair with
      | Some (name, value, after) => (name, value) :: kv_pairs fuel after
      | None => kv_pairs fuel rest
      end
  | _, _ => []
  end.

Definition tail_metadata (tail : string) : list (string * string) :=
  foldl (fun d kv => dict_set d kv.1 kv.2) [] (kv_pairs (String.length tail) tail).

Inductive MarkerVariant := SpanMarker | FileMarker | CodeMarker.

Record ParsedMarker := {
  pm_id : string;
  pm_variant : MarkerVariant;
  pm_metadata : list (string * string);
}.

Definition is_file (m : ParsedMarker) : bool :=
  match pm_variant m with FileMarker => true | _ => false end.
Definition is_code (m : ParsedMarker) : bool :=
  match pm_variant m with CodeMarker => true | _ => false end.

(** [(?P<variant>:file|:code)?] *)
Definition parse_variant (s : string) : MarkerVariant * string :=
  match str_after_prefix ":file" s with
  | Some r => (FileMarker, r)
  | None => match str_after_prefix ":code" s with
            | Some r => (CodeMarker, r)
            | None => (SpanMarker, s)
            end
  end.

(** Space, the quoted identifier, and nothing or space and the tail. *)
Definition parse_id (variant : MarkerVariant) (s : string) : option ParsedMarker :=
  if starts_outside ascii_is_space s then None
  else value ← str_after_prefix ("id=" +:+ String quote "") (str_lstrip s);
       match str_span (fun c => negb (Ascii.eqb c quote)) value with
       | (String c i, String _ after) =>
           if String.eqb after "" || negb (starts_outside ascii_is_space after)
           then Some {| pm_id := String c i; pm_variant := variant;
                        pm_metadata := tail_metadata (str_lstrip after) |}
           else None
       | _ => None
       end.

Fixpoint first_some {A B} (f : A -> option B) (l : list A) : option B :=
  match l with [] => None | x :: l => match f x with Some y => Some y | None => first_some f l end end.

Definition parse_body (rest : string) : option ParsedMarker :=
  s ← str_after_prefix "zicato:mutable" rest;
  let '(variant, s) := parse_variant s in parse_id variant s.

Definition parse_marker_line (syntax : MarkerSyntax) (line : string) : option ParsedMarker :=
  first_some parse_body (after_leader syntax line).

(** ** Indentation does not matter *)

Lemma str_lstrip_space w s : all_space w = true -> str_lstrip (w +:+ s) = str_lstrip s.
Proof.
  unfold all_space. induction w as [|c w IH]; [done|]. cbn [str_forallb].
  intros [Hc Hw]%andb_true_iff. rewrite str_app_cons. cbn [str_lstrip]. rewrite Hc. auto.
Qed.

(** A line that carries a marker for one of the three recognisers. *)
Definition marks (syntax : MarkerSyntax) (line : string) : bool :=
  is_end_marker syntax line || bool_decide (is_Some (parse_marker_line syntax line)).

Section Indent.
Context (syntax : MarkerSyntax) (w s : string) (Hw : all_space w = true).

Lemma after_leader_space : after_leader syntax (w +:+ s) = after_leader syntax s.
Proof. unfold after_leader. by rewrite str_lstrip_space. Qed.

Lemma marks_space : marks syntax (w +:+ s) = marks syntax s.
Proof. unfold marks, is_end_marker, parse_marker_line. by rewrite after_leader_space. Qed.

Lemma grading_space : is_grading_marker syntax (w +:+ s) = is_grading_marker syntax s.
Proof. unfold is_grading_marker. by rewrite after_leader_space. Qed.
End Indent.
