(* ===== verification/Enumerator.v ===== *)
(** The mutation surface, [src/zicato/mutation/enumerator.py]: every marker of a tree
    becomes a mutation point.
    A tree is its files, by path from its root; text is ASCII.  Python's parser is handed
    in, as the constants it finds in a source.  Trees with an [optimization/manifest.toml],
    from which a bridge adds points, are not modelled. *)
From Stdlib Require Import Ascii.
From S2P Require Import Prelude PyFloat PyText PyLines PyJson Sha256 Markers.

Abbreviation Tree := (list (Path * string)).

Inductive MutationKind := span_kind | file_kind | code_kind.
#[export] Instance MutationKind_eq_dec : EqDecision MutationKind.
Proof. solve_decision. Defined.

(** [core/mutation.py] *)
Record MutationPoint := {
  mp_id : string;
  mp_kind : MutationKind;
  mp_file : Path;
  mp_source_root : Path;
  mp_line_start : nat;
  mp_line_end : nat;
  mp_content : string;
  mp_content_hash : string;
  mp_metadata : list (string * string);
}.

Record UnboundSpanMarker := {
  us_id : string;
  us_file : Path;
  us_line : nat;
  us_reason : string;
}.

(** A constant of a parsed source, with its place; [ast.parse] gives the constants in the
    order of [ast.walk], and [None] on a syntax error. *)
Record AstConstant := {
  ac_string : bool;
  ac_numeric : bool;
  ac_lineno : nat;
  ac_col_offset : nat;
  ac_end_lineno : nat;
  ac_end_col_offset : nat;
}.
Class PyAst := { ast_parse : string -> option (list AstConstant) }.

Definition hex_digit (n : Z) : Ascii.ascii :=
  Ascii.ascii_of_nat (Z.to_nat (if (n <? 10)%Z then 48 + n else 87 + n)).

Definition hexdigest (digest : list Z) : string :=
  foldr (fun b s => String (hex_digit (Z.shiftr b 4)) (String (hex_digit (Z.land b 15)) s)) "" digest.

Definition _content_hash (text : string) : string := hexdigest (sha256 text).

(** ** Literals of a Python source *)

Definition _collect_literal_spans (constants : list AstConstant) : list (nat * nat) :=
  (fun c => (ac_lineno c, ac_end_lineno c)) <$> List.filter ac_string constants.

(** The first of the literals that start at the nearest line after the marker. *)
Definition _resolve_span_for_marker (marker_line : nat) (spans : list (nat * nat)) : option (nat * nat) :=
  foldl (fun best s =>
    if s.1 <=? marker_line then best
    else match best with
         | Some b => if s.1 <? b.1 then Some s else best
         | None => Some s
         end) None spans.

(** ** The scan of one file *)

Definition chomp (line : string) : string := rstrip_char carriage_return (rstrip_char newline line).

Inductive Scanned :=
  | Found (p : MutationPoint)
  | Unbound (m : UnboundSpanMarker).

Section Scan.
Context (file source_root : Path) (syntax : MarkerSyntax) (text : string) (lines : list string)
  (ignored : nat -> bool) (span_resolver : option (nat -> option (nat * nat))).

(** The lines before the [:end] sentinel. *)
Fixpoint find_end (rest : list string) : option nat :=
  match rest with
  | [] => None
  | raw :: rest => if is_end_marker syntax (chomp raw) then Some 0 else S <$> find_end rest
  end.

Definition point (m : ParsedMarker) (kind : MutationKind) (first last : nat) (content : string)
    : MutationPoint :=
  {| mp_id := pm_id m; mp_kind := kind; mp_file := file; mp_source_root := source_root;
     mp_line_start := first; mp_line_end := last; mp_content := content;
     mp_content_hash := _content_hash content; mp_metadata := pm_metadata m |}.

Definition unbound (m : ParsedMarker) (line : nat) (why : string) : Scanned :=
  Unbound {| us_id := pm_id m; us_file := file; us_line := line; us_reason := why |}.

(** [lines[first - 1 : last]], joined. *)
Definition line_slice (first last : nat) : string :=
  str_concat (take (last - (first - 1)) (drop (first - 1) lines)).

(** The walk of the lines: [idx] lines are behind, and the next [skip] belong to a region. *)
Fixpoint scan (idx skip : nat) (rest : list string) : list Scanned :=
  match rest with
  | [] => []
  | raw :: rest =>
      match skip with
      | S skip => scan (S idx) skip rest
      | 0 =>
          match parse_marker_line syntax (chomp raw) with
          | None => scan (S idx) 0 rest
          | Some m =>
              if ignored (S idx) then scan (S idx) 0 rest
              else match pm_variant m with
                   | FileMarker =>
                       Found (point m file_kind 1 (Nat.max 1 (length lines)) text)
                       :: scan (S idx) 0 rest
                   | CodeMarker =>
                       match find_end rest with
                       | None => scan (S idx) 0 rest
                       | Some 0 => scan (S idx) 1 rest
                       | Some (S _ as k) =>
                           Found (point m code_kind (idx + 2) (idx + 1 + k) (str_concat (take k rest)))
                           :: scan (S idx) (S k) rest
                       end
                   | SpanMarker =>
                       match span_resolver with
                       | None => unbound m (S idx) "not_a_python_file"
                       | Some resolve =>
                           match resolve (S idx) with
                           | None => unbound m (S idx) "no_string_literal"
                           | Some (first, last) =>
                               Found (point m span_kind first last (line_slice first last))
                           end
                       end :: scan (S idx) 0 rest
                   end
          end
      end
  end.

Definition _scan_markers : list Scanned := scan 0 0 lines.
End Scan.

Section Files.
Context `{PyAst}.

(** The literal lines of a Python source and the binding of its span markers. *)
Definition _python_context (text : string)
    : option ((nat -> bool) * (nat -> option (nat * nat))) :=
  constants ← ast_parse text;
  let spans := _collect_literal_spans constants in
  Some (fun line => existsb (fun s => (s.1 <=? line) && (line <=? s.2)) spans,
        fun line => _resolve_span_for_marker line spans).

Definition MAX_TEXT_FILE_BYTES : N := 2000000.

(** A file that declares itself operator-owned grading. *)
Definition graded (syntax : MarkerSyntax) (ignored : nat -> bool) (lines : list string) : bool :=
  existsb (fun item => negb (ignored (S item.1)) && is_grading_marker syntax (chomp item.2))
    (imap pair lines).

(** The items of a file's text. *)
Definition scan_text (file source_root : Path) (syntax : MarkerSyntax) (text : string) : list Scanned :=
  let lines := splitlines_keep text in
  let items ignored resolver :=
    if graded syntax ignored lines then []
    else _scan_markers file source_root syntax text lines ignored resolver in
  if is_python syntax then
    match _python_context text with
    | None => []
    | Some (ignored, resolve) => items ignored (Some resolve)
    end
  else items (fun _ => false) None.

Definition _enumerate_file (tree : Tree) (file source_root : Path) (syntax : MarkerSyntax) : list Scanned :=
  match dict_get tree file with
  | None => []
  | Some raw =>
      if negb (is_python syntax) && (MAX_TEXT_FILE_BYTES <? N.of_nat (String.length raw))%N then []
      else scan_text file source_root syntax (universal raw)
  end.

(** ** The walk of a tree *)

Definition TEXT_SCAN_SKIP_DIRS : list string :=
  [".git"; ".hg"; ".svn"; ".venv"; "venv"; "node_modules"; "__pycache__"; ".mypy_cache";
   ".ruff_cache"; ".pytest_cache"; ".tox"; "site-packages"; "dist"; "build"; "target"; ".zicato"].

(** Paths compare by their parts. *)
Fixpoint path_lt (a b : Path) : bool :=
  match a, b with
  | [], [] => false
  | [], _ :: _ => true
  | _ :: _, [] => false
  | x :: a, y :: b => str_lt x y || (String.eqb x y && path_lt a b)
  end.

Fixpoint relative_to (root p : Path) : option Path :=
  match root, p with
  | [], _ => Some p
  | x :: root, y :: p => if String.eqb x y then relative_to root p else None
  | _ :: _, [] => None
  end.

(** The files below a directory, [sorted(root.rglob(...))]. *)
Definition below (tree : Tree) (root : Path) : list Path :=
  py_sorted path_lt
    (List.filter (fun p => match relative_to root p with Some (_ :: _) => true | _ => false end) tree.*1).

Definition _text_pass_files (tree : Tree) (root : Path) (table : SyntaxTable)
    : list (Path * MarkerSyntax) :=
  omap (fun p =>
    syntax ← marker_syntax_for table p;
    let dirs := removelast (from_option id [] (relative_to root p)) in
    if is_python syntax || existsb (fun part => bool_decide (part ∈ TEXT_SCAN_SKIP_DIRS)) dirs
    then None else Some (p, syntax)) (below tree root).

Definition is_text_mutation_candidate (table : SyntaxTable) (p : Path) : bool :=
  negb (String.eqb (path_suffix p) PYTHON_SUFFIX) && bool_decide (is_Some (marker_syntax_for table p)).

Definition enumerate_root (tree : Tree) (table : SyntaxTable) (root : Path) : list Scanned :=
  match dict_get tree root with
  | Some _ =>
      match marker_syntax_for table root with
      | Some syntax => _enumerate_file tree root (removelast root) syntax
      | None => []
      end
  | None =>
      let python_syntax := from_option id PYTHON_SYNTAX (dict_get table PYTHON_SUFFIX) in
      concat ((fun p => _enumerate_file tree p root python_syntax)
              <$> List.filter (fun p => str_endswith ".py" (path_name p)) (below tree root))
      ++ concat ((fun item => _enumerate_file tree item.1 root item.2) <$> _text_pass_files tree root table)
  end.

Definition path_str (p : Path) : string := py_join "/" p.

Definition point_lt (a b : MutationPoint) : bool :=
  let roots := (path_str (mp_source_root a), path_str (mp_source_root b)) in
  let files := (path_str (mp_file a), path_str (mp_file b)) in
  str_lt roots.1 roots.2
  || (String.eqb roots.1 roots.2
      && (str_lt files.1 files.2
          || (String.eqb files.1 files.2
              && ((mp_line_start a <? mp_line_start b)
                  || (Nat.eqb (mp_line_start a) (mp_line_start b) && str_lt (mp_id a) (mp_id b)))))).

Definition found (items : list Scanned) : list MutationPoint :=
  omap (fun i => match i with Found p => Some p | Unbound _ => None end) items.

Definition enumerate_mutations (tree : Tree) (table : SyntaxTable) (roots : list Path)
    : list MutationPoint :=
  py_sorted point_lt (found (concat (enumerate_root tree table <$> roots))).

(** [collect_unbound_span_markers] around a walk. *)
Definition unbound_span_markers (tree : Tree) (table : SyntaxTable) (roots : list Path)
    : list UnboundSpanMarker :=
  omap (fun i => match i with Unbound m => Some m | Found _ => None end)
    (concat (enumerate_root tree table <$> roots)).
End Files.

Definition path_exists (tree : Tree) (p : Path) : bool :=
  bool_decide (p = []) || existsb (fun f => bool_decide (is_Some (relative_to p f))) tree.*1.

(** The selected paths of the snapshot, the snapshot itself when none are named. *)
Definition relocate_enumeration_roots (source : Tree) (roots : option (list Path)) : result (list Path) :=
  let selected := from_option id [[]] roots in
  ensure negb (Nat.eqb (length selected) 0) && forallb (path_exists source) selected
  orelse ValueError "mutation enumeration roots must exist inside the parent snapshot"; Ok selected.
