(* ===== verification/Applier.v ===== *)
(** Patches on a tree, [src/zicato/mutation/applier.py] and [validator.py]: where a patch
    lands, what it writes there, and the transaction around a batch.
    A file is its text; the places Python's parser reports lie inside it.  Of the
    exceptions the file system raises only the ones the code decides on are modelled. *)
From Stdlib Require Import Ascii.
From S2P Require Import Prelude PyFloat PyText PyLines PyJson CoreTypes Markers Enumerator.

(** The two other parses the source asks for: whether a text is one string expression, and
    the top-level imports of a source, rendered. *)
Class PyExpr := {
  is_string_expression : string -> bool;
  toplevel_imports : string -> option (list string);
}.

(** ** Validation of a batch *)

Inductive PayloadField := NewContent | NewNumeric | NewEnum.

Inductive PatchProblem :=
  | AmbiguousId (id : string) (locations : list (Path * nat))
  | MissingPayload (patch : string) (f : PayloadField)
  | ForeignPayload (patch : string) (f : PayloadField)
  | UnknownId (patch id : string)
  | WrongKind (patch id : string) (kind : MutationKind).

(** [_OP_RULES] *)
Definition required_field (op : PatchOpKind) : PayloadField :=
  match op with op_replace => NewContent | op_set_numeric => NewNumeric | op_set_enum => NewEnum end.

Definition compatible_kinds (op : PatchOpKind) : list MutationKind :=
  match op with
  | op_replace => [span_kind; file_kind; code_kind]
  | op_set_numeric | op_set_enum => [span_kind]
  end.

Definition payload_set (p : Patch) (f : PayloadField) : bool :=
  match f with
  | NewContent => bool_decide (is_Some (new_content p))
  | NewNumeric => match new_numeric p with Some _ => true | None => false end
  | NewEnum => bool_decide (is_Some (new_enum p))
  end.

Definition _ALL_PAYLOAD_FIELDS : list PayloadField := [NewContent; NewNumeric; NewEnum].
#[export] Instance PayloadField_eq_dec : EqDecision PayloadField.
Proof. solve_decision. Defined.

(** Ids enumerated more than once, with their locations, in the order first seen. *)
Definition duplicate_mutation_ids (points : list MutationPoint) : list (string * list (Path * nat)) :=
  let locations :=
    foldl (fun d p => dict_set d (mp_id p)
                        (dict_get_or d (mp_id p) [] ++ [(mp_file p, mp_line_start p)])) [] points in
  List.filter (fun item => 1 <? length item.2) locations.

(** [_build_index]: the last point of an id. *)
Definition _build_index (points : list MutationPoint) : list (string * MutationPoint) :=
  foldl (fun d p => dict_set d (mp_id p) p) [] points.

Definition patch_problems (index : list (string * MutationPoint)) (p : Patch) : list PatchProblem :=
  let required := required_field (patch_op p) in
  (if payload_set p required then [] else [MissingPayload (patch_id p) required])
  ++ (ForeignPayload (patch_id p)
      <$> List.filter (fun f => negb (bool_decide (f = required)) && payload_set p f) _ALL_PAYLOAD_FIELDS)
  ++ match dict_get index (mutation_id p) with
     | None => [UnknownId (patch_id p) (mutation_id p)]
     | Some point =>
         if bool_decide (mp_kind point ∈ compatible_kinds (patch_op p)) then []
         else [WrongKind (patch_id p) (mutation_id p) (mp_kind point)]
     end.

Definition validate_patches (patches : list Patch) (points : list MutationPoint) : list PatchProblem :=
  let collisions := duplicate_mutation_ids points in
  omap (fun id => AmbiguousId id <$> dict_get collisions id)
    (sorted_strings (remove_dups (mutation_id <$> patches)))
  ++ concat (patch_problems (_build_index points) <$> patches).

Definition check_forbidden_ids (patches : list Patch) (forbidden : list string) : list string :=
  patch_id <$> List.filter (fun p => bool_decide (mutation_id p ∈ forbidden)) patches.

(** ** Places in a file *)

Definition _resolve_marker_line (table : SyntaxTable) (file : Path) (text id : string) : option nat :=
  syntax ← marker_syntax_for table file;
  first_some (fun item => match parse_marker_line syntax item.2 with
                          | Some m => if String.eqb (pm_id m) id then Some (S item.1) else None
                          | None => None
                          end) (imap pair (splitlines text)).

(** A half-open place of a text: line and character of its start and of its end. *)
Definition Span : Type := nat * nat * nat * nat.

Definition line_at (lines : list string) (n : nat) : string := from_option id "" (lines !! (n - 1)).

(** [_node_span]: in ASCII a byte column is a character index. *)
Definition _node_span (lines : list string) (node : AstConstant) : Span :=
  (ac_lineno node, Nat.min (ac_col_offset node) (String.length (line_at lines (ac_lineno node))),
   ac_end_lineno node,
   Nat.min (ac_end_col_offset node) (String.length (line_at lines (ac_end_lineno node)))).

Fixpoint str_drop (n : nat) (s : string) : string :=
  match n, s with S n, String _ s => str_drop n s | _, _ => s end.
Fixpoint str_take (n : nat) (s : string) : string :=
  match n, s with S n, String c s => String c (str_take n s) | _, _ => "" end.

Definition _node_text (text : string) (node : AstConstant) : string :=
  let lines := splitlines_keep text in
  let '(first, start, final, stop) := _node_span lines node in
  if Nat.eqb first final
  then str_take (stop - start) (str_drop start (line_at lines first))
  else str_drop start (line_at lines first)
       +:+ str_concat (take (final - 1 - first) (drop first lines))
       +:+ str_take stop (line_at lines final).

Definition _replace_node_text (text : string) (node : AstConstant) (new_text : string) : string :=
  let lines := splitlines_keep text in
  let '(first, start, final, stop) := _node_span lines node in
  str_concat (take (first - 1) lines) +:+ str_take start (line_at lines first)
  +:+ new_text
  +:+ str_drop stop (line_at lines final) +:+ str_concat (drop final lines).

Section Locate.
Context `{PyAst}.

Definition node_before (a b : AstConstant) : bool :=
  (ac_lineno a <? ac_lineno b)
  || (Nat.eqb (ac_lineno a) (ac_lineno b) && (ac_col_offset a <? ac_col_offset b)).

Definition _find_constant_after (text : string) (marker_line : nat) (want_numeric : bool)
    : option AstConstant :=
  constants ← ast_parse text;
  foldl (fun best node =>
    if negb (if want_numeric then ac_numeric node else ac_string node) then best
    else if ac_lineno node <=? marker_line then best
    else match best with
         | Some b => if node_before node b then Some node else best
         | None => Some node
         end) None constants.

Definition _resolve_string_literal_node (text : string) (marker_line : nat) : option AstConstant :=
  _find_constant_after text marker_line false.

(** The literal a span marker binds to. *)
Definition marked_literal (table : SyntaxTable) (file : Path) (text id : string) : option AstConstant :=
  line ← _resolve_marker_line table file text id;
  _resolve_string_literal_node text line.

(** [replacement_source]: the content that reproduces a point as it stands. *)
Definition replacement_source (table : SyntaxTable) (text : string) (p : MutationPoint) : result string :=
  match mp_kind p, (if String.eqb (path_suffix (mp_file p)) PYTHON_SUFFIX
                    then marked_literal table (mp_file p) text (mp_id p) else None) with
  | span_kind, Some node => Ok (_node_text text node)
  | file_kind, _ => Ok text
  | _, _ =>
      let lines := bytes_splitlines_keep text in
      ensure (1 <=? mp_line_start p) && (mp_line_start p <=? mp_line_end p)
             && (mp_line_end p <=? length lines)
      orelse ValueError "mutation point has invalid source line bounds";
      Ok (line_slice lines (mp_line_start p) (mp_line_end p))
  end.
End Locate.

(** ** What a patch writes *)

Definition is_quote (c : Ascii.ascii) : bool := Ascii.eqb c quote || Ascii.eqb c "'"%char.
Definition triple (c : Ascii.ascii) : string := String c (String c (String c "")).
Definition single (c : Ascii.ascii) : string := String c "".
Definition backslash : Ascii.ascii := Ascii.ascii_of_nat 92.

Fixpoint str_contains (needle s : string) : bool :=
  str_startswith needle s || match s with "" => false | String _ s => str_contains needle s end.

(** [s.lstrip] of blanks and tabs. *)
Definition blank_lstrip (s : string) : string := (str_span is_blank s).2.
Definition blank_indent (s : string) : string := (str_span is_blank s).1.

Definition prefix_letter (c : Ascii.ascii) : bool :=
  str_contains (single c) "rRbBuUfF".

Definition starts_with_quote (s : string) : bool :=
  match s with String c _ => is_quote c | "" => false end.

Definition _looks_like_python_string_literal (text : string) : bool :=
  match str_lstrip text with
  | String a (String b rest as t) =>
      if prefix_letter a then if prefix_letter b then starts_with_quote rest else starts_with_quote t
      else is_quote a
  | s => starts_with_quote s
  end.

(** The indent of the first line that is not blank. *)
Definition _region_base_indent (original_body : string) : string :=
  from_option id ""
    (first_some (fun line => if String.eqb (blank_lstrip line) "" then None else Some (blank_indent line))
                (splitlines original_body)).

Definition _literal_line_prefix (text : string) : string :=
  from_option id ""
    (first_some (fun line =>
       let stripped := str_lstrip line in
       if String.eqb stripped "" then None
       else if str_startswith "+" stripped
            then Some (str_span (fun c => negb (is_quote c)) line).1
            else Some (str_take (String.length line - String.length stripped) line)) (splitlines text)).

(** [new_content.splitlines(keepends=True)] with the blanks of the first line dropped. *)
Definition _strip_literal_first_line_indent (literal : string) : string :=
  match splitlines_keep literal with
  | [] => literal
  | first :: rest => blank_lstrip first +:+ str_concat rest
  end.

Definition _reindent_python_literal (literal indent : string) : string :=
  match splitlines_keep literal with
  | [] => literal
  | first :: rest => indent +:+ blank_lstrip first +:+ str_concat rest
  end.

(** The lines of a replacement that are kept: no marker of the file's syntax is. *)
Definition kept_lines (syntax : MarkerSyntax) (new_content : string) : list string :=
  List.filter (fun line => negb (marks syntax line)) (splitlines new_content).

Definition _reindent_code_region (syntax : MarkerSyntax) (new_content indent : string) : string :=
  match kept_lines syntax new_content with
  | [] => ""
  | kept =>
      py_join nl ((fun line => if String.eqb (str_strip line) "" then "" else indent +:+ line)
                  <$> splitlines (dedent_text (py_join nl kept))) +:+ nl
  end.

Section Write.
Context `{PyRepr} `{PyAst} `{PyExpr}.

Definition _is_python_string_literal_source (text : string) : bool :=
  let stripped := str_strip (dedent_text text) in
  if String.eqb stripped "" then false else is_string_expression ("(" +:+ stripped +:+ ")").

Definition _quote_as_python_string (content indent : string) : string :=
  let fits c := negb (str_contains (triple c) content) && negb (str_startswith (single c) content)
                && negb (str_endswith (single c) content) in
  if str_contains (single backslash) content then indent +:+ py_repr (JStr content)
  else if fits quote then indent +:+ triple quote +:+ content +:+ triple quote
  else if fits "'"%char then indent +:+ triple "'"%char +:+ content +:+ triple "'"%char
  else indent +:+ py_repr (JStr content).

Definition literal_source (new_content : string) : bool :=
  _looks_like_python_string_literal new_content && _is_python_string_literal_source new_content.

Definition _build_literal_replacement (new_content : string) : string :=
  if literal_source new_content then _strip_literal_first_line_indent new_content
  else _quote_as_python_string new_content "".

(** A float that is an integer is written as one; [int] raises on the others that are not
    finite. *)
Definition _format_numeric (value : Numeric) : result string :=
  match value with
  | num_int z => Ok (pretty z)
  | num_float x => 
      match float_trunc x with
      | Some z => Ok (if feq x (float_of_Z z) then pretty z else py_repr (JFloat x))
      | None => if is_nan x then Raise (ValueError "cannot convert float NaN to integer")
                else Raise OverflowError
      end
  end.

Definition ends_with_newline (s : string) : bool := str_endswith nl s.

(** [_apply_span_replace]: the new text of the point's file. *)
Definition _apply_span_replace (table : SyntaxTable) (text : string) (p : MutationPoint)
    (new_content : string) : result string :=
  let lines := splitlines_keep text in
  let python := String.eqb (path_suffix (mp_file p)) PYTHON_SUFFIX in
  let before := str_concat (take (mp_line_start p - 1) lines) in
  let after := str_concat (drop (mp_line_end p) lines) in
  let original := line_slice lines (mp_line_start p) (mp_line_end p) in
  let by_lines middle :=
    let middle := if negb (ends_with_newline middle) && ends_with_newline original
                  then middle +:+ nl else middle in
    Ok (before +:+ middle +:+ after) in
  match mp_kind p with
  | file_kind => Ok new_content
  | code_kind =>
      match marker_syntax_for table (mp_file p) with
      | None => Raise (ValueError "applier: no declared marker syntax; refusing to rewrite region")
      | Some syntax =>
          Ok (before +:+ _reindent_code_region syntax new_content (_region_base_indent original) +:+ after)
      end
  | span_kind =>
      if python then
        match marked_literal table (mp_file p) text (mp_id p) with
        | Some node => Ok (_replace_node_text text node (_build_literal_replacement new_content))
        | None =>
            let indent := _literal_line_prefix original in
            by_lines (if literal_source new_content then _reindent_python_literal new_content indent
                      else _quote_as_python_string new_content indent)
        end
      else by_lines new_content
  end.

(** ** The batch *)

Context (table : SyntaxTable).

(** The constant of a numeric or enum patch, and its file. *)
Definition constant_patch (missing : string -> exn) (tree : Tree) (point : MutationPoint) (p : Patch)
    (numeric : bool) (new_text : result string) : result Tree :=
  let text := from_option id "" (dict_get tree (mp_file point)) in
  match _resolve_marker_line table (mp_file point) text (mutation_id p) with
  | None => Raise (missing "marker vanished in target_root")
  | Some line =>
      match _find_constant_after text line numeric with
      | None => Raise (ValueError "no constant found after marker")
      | Some node =>
          try new_text <- new_text;
          Ok (dict_set tree (mp_file point) (_replace_node_text text node new_text))
      end
  end.

(** One turn of the loop: the surface is enumerated afresh. *)
Definition apply_patch (missing : string -> exn) (roots : list Path) (tree : Tree) (p : Patch) : result Tree :=
  let index := _build_index (enumerate_mutations tree table roots) in
  let resolved (k : MutationPoint -> result Tree) :=
    match dict_get index (mutation_id p) with
    | None => Raise (missing "mutation_id not found in target_root")
    | Some point => k point
    end in
  match patch_op p with
  | op_replace =>
      match new_content p with
      | None => Raise (ValueError "op=replace requires new_content")
      | Some content =>
          resolved (fun point =>
            try text <- _apply_span_replace table (from_option id "" (dict_get tree (mp_file point)))
                          point content;
            Ok (dict_set tree (mp_file point) text))
      end
  | op_set_numeric =>
      match new_numeric p with
      | None => Raise (ValueError "op=set_numeric requires new_numeric")
      | Some value =>
          resolved (fun point => constant_patch missing tree point p true (_format_numeric value))
      end
  | op_set_enum =>
      match new_enum p with
      | None => Raise (ValueError "op=set_enum requires new_enum")
      | Some value =>
          resolved (fun point => constant_patch missing tree point p false (Ok (py_repr (JStr value))))
      end
  end.

(** What the tree holds when the loop ends or raises. *)
Fixpoint apply_loop (missing : string -> exn) (roots : list Path) (tree : Tree) (patches : list Patch)
    : Tree * result unit :=
  match patches with
  | [] => (tree, Ok tt)
  | p :: patches =>
      match apply_patch missing roots tree p with
      | Ok tree => apply_loop missing roots tree patches
      | Raise e => (tree, Raise e)
      end
  end.

Definition _apply_patches_into_tree (missing : string -> exn) (tree : Tree) (patches : list Patch)
    (roots : option (list Path)) : Tree * result unit :=
  match relocate_enumeration_roots tree roots with
  | Ok roots => apply_loop missing roots tree patches
  | Raise e => (tree, Raise e)
  end.

(** [snapshot_scope.py]: what a copy leaves behind. *)
Definition ARTIFACT_NAMES : list string :=
  [".git"; ".hg"; ".ipynb_checkpoints"; ".mypy_cache"; ".pytest_cache"; ".ruff_cache"; ".tox";
   ".venv"; ".zicato-scratch"; "__pycache__"; "node_modules"; "output"].
Definition ARTIFACT_SUFFIXES : list string := [".pyc"; ".pyo"; ".pyd"].

Definition is_artifact (name : string) : bool :=
  bool_decide (name ∈ ARTIFACT_NAMES) || existsb (fun s => str_endswith s name) ARTIFACT_SUFFIXES.

Definition copytree (ignore : string -> bool) (source : Tree) : Tree :=
  List.filter (fun f : Path * string => negb (existsb ignore f.1)) source.

(** The Python files that do not parse. *)
Definition _unparseable_py_files (tree : Tree) : list Path :=
  List.filter (fun p => str_endswith ".py" (path_name p)
                        && match dict_get tree p with
                           | Some text => bool_decide (ast_parse text = None)
                           | None => false
                           end) (below tree []).

Definition _post_apply_syntax_problems (tree : Tree) (baseline : list Path) : list Path :=
  List.filter (fun p => negb (bool_decide (p ∈ baseline))) (_unparseable_py_files tree).

(** The tree at [target_root] when the call ends ([None] when there is none). *)
Record Applied := {
  ap_target : option Tree;
  ap_outcome : result unit;
}.

Definition refused (e : exn) : Applied := {| ap_target := None; ap_outcome := Raise e |}.

Definition apply_patches (ignore : string -> bool) (source : Tree) (patches : list Patch)
    (target : option Tree) (enumeration_roots : option (list Path)) : Applied :=
  match relocate_enumeration_roots source enumeration_roots with
  | Raise e => {| ap_target := target; ap_outcome := Raise e |}
  | Ok selected =>
      match target with
      | Some t => {| ap_target := Some t; ap_outcome := Raise (OtherException "FileExistsError") |}
      | None =>
          let copy := copytree ignore source in
          match validate_patches patches (enumerate_mutations copy table selected) with
          | _ :: _ => refused (ValueError "apply_patches: refusing to apply patch set")
          | [] =>
              let baseline := _unparseable_py_files copy in
              match _apply_patches_into_tree ValueError copy patches (Some selected) with
              | (_, Raise (ValueError e)) => refused (ValueError e)
              | (tree, Raise e) => {| ap_target := Some tree; ap_outcome := Raise e |}
              | (tree, Ok tt) =>
                  match _post_apply_syntax_problems tree baseline with
                  | _ :: _ => refused (ValueError "apply_patches: refusing to promote snapshot")
                  | [] => {| ap_target := Some tree; ap_outcome := Ok tt |}
                  end
              end
          end
      end
  end.

Definition apply_patches_unchecked (source : Tree) (patches : list Patch) (target : option Tree)
    (enumeration_roots : option (list Path)) : Applied :=
  match target with
  | Some t => {| ap_target := Some t; ap_outcome := Raise (OtherException "FileExistsError") |}
  | None =>
      match relocate_enumeration_roots source enumeration_roots with
      | Raise e => {| ap_target := None; ap_outcome := Raise e |}
      | Ok selected =>
          let '(tree, r) := _apply_patches_into_tree KeyError source patches (Some selected) in
          {| ap_target := Some tree; ap_outcome := r |}
      end
  end.
End Write.

(** ** Validation of a child *)

Inductive PostApplyProblem :=
  | InvalidSource (file : Path)
  | MissingMutation (patch id : string)
  | MissingPlaceholder (patch id placeholder : string)
  | RemovedImport (file : Path) (imports : list string).

(** [POST_APPLY_CHECKS]: the code a message starts with. *)
Definition post_apply_check (p : PostApplyProblem) : string :=
  match p with
  | InvalidSource _ => "invalid_source"
  | MissingMutation _ _ => "missing_mutation"
  | MissingPlaceholder _ _ _ => "missing_placeholder"
  | RemovedImport _ _ => "removed_import"
  end.

Section PostApply.
Context `{PyAst} `{PyExpr} (table : SyntaxTable) (parent target : Tree) (patches : list Patch)
  (pre_points : list MutationPoint) (roots : option (list Path)).

Definition own_path (p : MutationPoint) : option Path := relative_to (mp_source_root p) (mp_file p).

(** The file a patch is expected to have touched. *)
Definition touched (pre_by_id post_by_id : list (string * MutationPoint)) (p : Patch) : option Path :=
  match dict_get post_by_id (mutation_id p) with
  | Some point => Some (mp_file point)
  | None => point ← dict_get pre_by_id (mutation_id p);
            Some (from_option id (mp_file point) (own_path point))
  end.

Definition python_file (p : Path) : bool := String.eqb (path_suffix p) PYTHON_SUFFIX.

Definition source_valid (file : Path) : bool :=
  match dict_get target file with
  | None => false
  | Some text => negb (python_file file) || bool_decide (is_Some (ast_parse (universal text)))
  end.

Definition missing_placeholders (pre_by_id post_by_id : list (string * MutationPoint)) (p : Patch)
    : list PostApplyProblem :=
  match dict_get pre_by_id (mutation_id p), dict_get post_by_id (mutation_id p) with
  | Some pre, Some post =>
      let required := from_option id "" (dict_get (mp_metadata pre) "required_placeholders") in
      let placeholders :=
        List.filter (fun s => negb (String.eqb s "")) (str_strip <$> pieces ","%char required) in
      MissingPlaceholder (patch_id p) (mutation_id p)
        <$> List.filter (fun s => negb (str_contains s (mp_content post))) placeholders
  | _, _ => []
  end.

Definition imports_of (tree : Tree) (file : Path) : option (list string) :=
  text ← dict_get tree file; Some (from_option id [] (toplevel_imports (universal text))).

Definition removed_imports (file : Path) : list PostApplyProblem :=
  let pre_file := point ← find_first (fun p => bool_decide (own_path p = Some file)) pre_points;
                  Some (mp_file point) in
  match (f ← pre_file; imports_of parent f) with
  | Some before =>
      let after := from_option id [] (imports_of target file) in
      match List.filter (fun i => negb (bool_decide (i ∈ after))) before with
      | [] => []
      | missing => [RemovedImport file (sorted_strings (remove_dups missing))]
      end
  | None => []
  end.

Definition validate_post_apply : result (list PostApplyProblem) :=
  try selected <- relocate_enumeration_roots target roots;
  let pre_by_id := _build_index pre_points in
  let post_by_id := _build_index (enumerate_mutations target table selected) in
  let touched_files := remove_dups (omap (touched pre_by_id post_by_id) patches) in
  Ok ((InvalidSource <$> List.filter (fun f => negb (source_valid f)) touched_files)
      ++ ((fun p => MissingMutation (patch_id p) (mutation_id p))
          <$> List.filter (fun p => negb (dict_mem post_by_id (mutation_id p))) patches)
      ++ concat (missing_placeholders pre_by_id post_by_id <$> patches)
      ++ concat (removed_imports <$> List.filter python_file touched_files)).
End PostApply.
