(* ===== verification/MutationSpec.v ===== *)
(** What the mutation machinery promises: a patch of a region stays inside it, carries no
    marker out and leaves every other point of the file as it was; a batch is applied
    whole or not at all, and touches no file that declares nothing. *)
From Stdlib Require Import Ascii.
From S2P Require Import Prelude PyFloat PyText PyLines PyJson Sha256 CoreTypes Markers Enumerator Applier.

(** ** The lines a region is given *)

Lemma blank_space w : str_forallb is_blank w = true -> all_space w = true.
Proof.
  apply str_forallb_weaken. intros c. unfold is_blank. intros [Hc|Hc]%orb_true_iff;
    by apply Ascii.eqb_eq in Hc as ->.
Qed.

Lemma blank_unbroken w : str_forallb is_blank w = true -> unbroken w = true.
Proof.
  apply str_forallb_weaken. intros c. unfold is_blank. intros [Hc|Hc]%orb_true_iff;
    by apply Ascii.eqb_eq in Hc as ->.
Qed.

Lemma unbroken_app a b : unbroken (a +:+ b) = unbroken a && unbroken b.
Proof. apply str_forallb_app. Qed.

Lemma chomp_line line : unbroken line = true -> chomp (line +:+ nl) = line.
Proof.
  intros Hl. unfold chomp, nl. rewrite rstrip_char_app, (rstrip_char_id newline line) by (by apply unbroken_newline).
  apply rstrip_char_id. revert Hl. apply str_forallb_weaken. intros c.
  by destruct (Ascii.eqb_spec c carriage_return) as [->|].
Qed.


Lemma blank_indent_blank s : str_forallb is_blank (blank_indent s) = true.
Proof.
  unfold blank_indent. pose proof (str_span_spec is_blank s) as H.
  by destruct (str_span is_blank s); destruct H as (_ & ? & _).
Qed.

Lemma region_indent_blank body : str_forallb is_blank (_region_base_indent body) = true.
Proof.
  unfold _region_base_indent. induction (splitlines body) as [|line lines IH]; [done|]. cbn [first_some].
  destruct (String.eqb _ ""); [done|]. apply blank_indent_blank.
Qed.

(** A property of lines that indentation does not affect holds of every line of the new
    region when it holds of the kept lines. *)
Section Region.
Context (syntax : MarkerSyntax) (content indent : string) (Q : string -> Prop).
Hypothesis Q_indent : forall w line, str_forallb is_blank w = true -> Q (w +:+ line) <-> Q line.
Hypothesis Q_empty : Q "".
Hypothesis Q_kept : Forall Q (kept_lines syntax content).
Hypothesis Hindent : str_forallb is_blank indent = true.

Lemma kept_unbroken : Forall (fun l => unbroken l = true) (kept_lines syntax content).
Proof.
  apply Forall_forall. intros l Hl%elem_of_filter_In. destruct Hl as [Hl _].
  by apply (proj1 (Forall_forall _ _) (splitlines_unbroken content)).
Qed.

Definition region_lines : list string :=
  (fun line => if String.eqb (str_strip line) "" then "" else indent +:+ line)
    <$> splitlines (dedent_text (py_join nl (kept_lines syntax content))).

Lemma reindent_region :
  kept_lines syntax content <> [] ->
  _reindent_code_region syntax content indent = py_join nl region_lines +:+ nl.
Proof. unfold _reindent_code_region, region_lines. by destruct (kept_lines syntax content). Qed.

Lemma region_lines_good :
  Forall (fun line => unbroken line = true /\ Q line) region_lines.
Proof.
  unfold region_lines. apply Forall_fmap. pose proof kept_unbroken as Hu.
  destruct (decide (kept_lines syntax content = [])) as [->|Hne]; [constructor|].
  unfold dedent_text. rewrite pieces_join by done.
  assert (Forall (fun l => unbroken l = true /\ Q l) (dedent (kept_lines syntax content))) as Hd.
  { unfold dedent. apply Forall_fmap, Forall_forall. intros line Hline. cbn.
    rewrite Forall_forall in Hu, Q_kept. specialize (Hu line Hline). specialize (Q_kept line Hline).
    destruct (dedent_line_suffix (kept_lines syntax content) line) as [->|(w & Hw & E)]; [done|].
    rewrite E in Hu, Q_kept. rewrite unbroken_app in Hu. apply andb_true_iff in Hu as [_ Hu].
    by rewrite Q_indent in Q_kept. }
  eapply Forall_impl; [apply splitlines_join; [|exact Hd]|].
  - eapply Forall_impl; [exact Hd|]. by intros l [? _].
  - intros line [Hl HQ]. cbn. destruct (String.eqb _ ""); [done|].
    rewrite unbroken_app, Hl, blank_unbroken by done. by rewrite Q_indent.
Qed.

(** The new region is complete lines, at least one. *)
Lemma region_complete :
  kept_lines syntax content <> [] ->
  exists mid, mid <> [] /\ Forall complete_line mid
    /\ _reindent_code_region syntax content indent = str_concat mid /\ Forall (fun l => Q (chomp l)) mid.
Proof.
  intros Hne. rewrite reindent_region by done. pose proof region_lines_good as Hg.
  destruct (decide (region_lines = [])) as [->|Hr].
  - exists [nl]. split; [done|]. split; [constructor; [by exists ""|constructor]|]. split; [done|].
    by repeat constructor.
  - exists ((fun l => l +:+ nl) <$> region_lines). rewrite join_complete by done.
    split; [by destruct region_lines|]. split.
    { apply complete_lines. eapply Forall_impl; [exact Hg|]. by intros l [? _]. }
    split; [done|]. apply Forall_fmap. eapply Forall_impl; [exact Hg|].
    intros l [Hl HQ]. change (Q (chomp (l +:+ nl))). by rewrite chomp_line.
Qed.
End Region.

(** ** The scan around a region *)

Section Around.
Context (file source_root : Path) (syntax : MarkerSyntax).




Lemma find_end_inv rest k :
  find_end syntax rest = Some k ->
  exists body fin post, rest = body ++ fin :: post /\ length body = k
    /\ is_end_marker syntax (chomp fin) = true.
Proof.
  revert k. induction rest as [|x rest IH]; cbn; intros k Hf; [done|].
  destruct (is_end_marker syntax (chomp x)) eqn:E.
  - simplify_eq. by exists [], x, rest.
  - apply fmap_Some in Hf as (k' & Hf & ->). destruct (IH k' Hf) as (body & fin & post & -> & <- & ?).
    by exists (x :: body), fin, post.
Qed.

Definition is_region (p : MutationPoint) : Prop := mp_kind p = code_kind.

Section OneScan.
Context (text : string) (lines : list string) (ignored : nat -> bool)
  (resolver : option (nat -> option (nat * nat))).
Abbreviation scan := (scan file source_root syntax text lines ignored resolver).



(** Where a region comes from. *)
Lemma scan_region_inv idx skip rest p :
  Found p ∈ scan idx skip rest -> is_region p ->
  exists pre opening body fin post,
    rest = pre ++ opening :: body ++ fin :: post /\ body <> []
    /\ mp_line_start p = idx + length pre + 2 /\ mp_line_end p = idx + length pre + 1 + length body
    /\ mp_content p = str_concat body /\ mp_file p = file
    /\ is_end_marker syntax (chomp fin) = true /\ find_end syntax (body ++ fin :: post) = Some (length body)
    /\ (exists m, parse_marker_line syntax (chomp opening) = Some m /\ is_code m = true /\ pm_id m = mp_id p).
Proof.
  unfold is_region. intros Hin Hk. revert idx skip Hin.
  induction rest as [|raw rest IH]; intros idx skip Hin; cbn in Hin; [by apply elem_of_nil in Hin|].
  assert (forall skip, Found p ∈ scan (S idx) skip rest -> exists pre opening body fin post,
    raw :: rest = pre ++ opening :: body ++ fin :: post /\ body <> []
    /\ mp_line_start p = idx + length pre + 2 /\ mp_line_end p = idx + length pre + 1 + length body
    /\ mp_content p = str_concat body /\ mp_file p = file
    /\ is_end_marker syntax (chomp fin) = true /\ find_end syntax (body ++ fin :: post) = Some (length body)
    /\ (exists m, parse_marker_line syntax (chomp opening) = Some m /\ is_code m = true /\ pm_id m = mp_id p))
    as Hrec.
  { intros skip' H. destruct (IH _ _ H) as (pre & o & b & f & post & -> & Hb & H1 & H2 & H3).
    exists (raw :: pre), o, b, f, post. cbn. split; [done|]. split; [done|]. split; [lia|].
    split; [lia|done]. }
  destruct skip as [|skip]; [|by eapply Hrec].
  destruct (parse_marker_line _ _) as [m|] eqn:Em; [|by eapply Hrec].
  destruct (ignored _); [by eapply Hrec|]. destruct (pm_variant m) eqn:Ev.
  - apply elem_of_cons in Hin as [Hp|Hin]; [|by eapply Hrec].
    destruct resolver as [f|]; [destruct (f _) as [[]|]|]; try done. by injection Hp as ->.
  - apply elem_of_cons in Hin as [[= ->]|Hin]; [done|by eapply Hrec].
  - destruct (find_end _ _) as [[|k]|] eqn:Ef; [by eapply Hrec| |by eapply Hrec].
    apply elem_of_cons in Hin as [[= ->]|Hin]; [|by eapply Hrec].
    pose proof Ef as (body & fin & post & -> & Hlen & Hfin)%find_end_inv.
    exists [], raw, body, fin, post. cbn. rewrite take_app_length' by done.
    split; [done|]. split; [by destruct body|]. split; [lia|]. split; [lia|]. split; [done|]. split; [done|].
    split; [done|]. split; [by rewrite Hlen|]. exists m. unfold is_code. by rewrite Ev.
Qed.
End OneScan.

(** ** Two scans *)


Section Edit.
Context (text text' : string) (lines lines' : list string).
Abbreviation before := (scan file source_root syntax text lines (fun _ => false) None).
Abbreviation after := (scan file source_root syntax text' lines' (fun _ => false) None).


End Edit.
End Around.

(** ** A patch of a region *)

Section RegionPatch.
Context `{PyRepr} `{PyAst} `{PyExpr} (table : SyntaxTable) (file source_root : Path) (syntax : MarkerSyntax).

Lemma after_leader_empty : Forall (fun rest => rest = "") (after_leader syntax "").
Proof.
  apply Forall_forall. intros rest (leader & _ & Hl)%list_elem_of_omap.
  apply fmap_Some in Hl as (t & Ht & ->). by destruct leader; simplify_eq/=.
Qed.

Lemma marks_empty : marks syntax "" = false.
Proof.
  unfold marks, is_end_marker, parse_marker_line. pose proof after_leader_empty as He.
  induction He as [|x l -> _ IH]; [done|]. cbn in *. done.
Qed.


Lemma kept_unmarked content : Forall (fun l => marks syntax l = false) (kept_lines syntax content).
Proof.
  apply Forall_forall. intros l Hl%elem_of_filter_In. destruct Hl as [_ Hl]. by apply negb_true_iff in Hl.
Qed.

(** The lines a file is left with when a region of it is rewritten. *)
Lemma replace_region_lines text p content pre opening body fin post :
  splitlines_keep text = pre ++ opening :: body ++ fin :: post ->
  is_region p -> mp_file p = file -> marker_syntax_for table file = Some syntax ->
  mp_line_start p = length pre + 2 -> mp_line_end p = length pre + 1 + length body ->
  _apply_span_replace table text p content
  = Ok (str_concat (pre ++ [opening])
        +:+ _reindent_code_region syntax content (_region_base_indent (str_concat body))
        +:+ str_concat (fin :: post)).
Proof.
  unfold is_region. intros Hl Hk Hf Hs Hfirst Hlast. unfold _apply_span_replace, line_slice.
  rewrite Hl, Hk, Hf, Hs, Hfirst, Hlast.
  replace (length pre + 2 - 1) with (length (pre ++ [opening])) by (rewrite length_app; cbn; lia).
  replace (length pre + 1 + length body - length (pre ++ [opening])) with (length body)
    by (rewrite length_app; cbn; lia).
  replace (length pre + 1 + length body) with (length ((pre ++ [opening]) ++ body))
    by (rewrite !length_app; cbn; lia).
  replace (pre ++ opening :: body ++ fin :: post) with ((pre ++ [opening]) ++ body ++ fin :: post)
    by (by rewrite <- app_assoc).
  rewrite take_app_length, drop_app_length, take_app_length, (app_assoc _ body), drop_app_length. done.
Qed.

(** C5.  A patch of a region stays inside it.  Whatever a proposer writes, the file keeps every
    byte before and after the region, the markers around it included, and no line of the
    new region is a marker. *)
Theorem code_patch_contained text ignored resolver p :
  Found p ∈ _scan_markers file source_root syntax text (splitlines_keep text) ignored resolver ->
  is_region p -> marker_syntax_for table file = Some syntax ->
  exists pre opening fin post,
    text = str_concat (pre ++ [opening]) +:+ mp_content p +:+ str_concat (fin :: post)
    /\ (exists m, parse_marker_line syntax (chomp opening) = Some m /\ is_code m = true /\ pm_id m = mp_id p)
    /\ is_end_marker syntax (chomp fin) = true
    /\ forall content, exists middle,
         _apply_span_replace table text p content
         = Ok (str_concat (pre ++ [opening]) +:+ middle +:+ str_concat (fin :: post))
         /\ Forall (fun line => marks syntax (chomp line) = false) (splitlines_keep middle).
Proof.
  intros Hin Hk Hs.
  apply scan_region_inv in Hin as (pre & opening & body & fin & post & Hl & Hne & Hfirst & Hlast & Hc & Hf & Hfin & Hend & Hm);
    [|done].
  exists pre, opening, fin, post. split.
  { rewrite Hc, <- (splitlines_keep_concat text) at 1. rewrite Hl, !str_concat_app. cbn.
    by rewrite str_concat_app, !str_app_assoc. }
  split; [done|]. split; [done|]. intros content. eexists. split; [by eapply replace_region_lines|].
  destruct (decide (kept_lines syntax content = [])) as [He|Hkept].
  { unfold _reindent_code_region. rewrite He. constructor. }
  destruct (region_complete syntax content (_region_base_indent (str_concat body))
    (fun l => marks syntax l = false)) as (mid & _ & Hmid & -> & HQ); try done.
  - intros w line Hw. by rewrite marks_space by by apply blank_space.
  - apply marks_empty.
  - apply kept_unmarked.
  - apply region_indent_blank.
  - rewrite <- (str_app_nil_r (str_concat mid)), splitlines_keep_app by done. by rewrite app_nil_r.
Qed.




End RegionPatch.

(** ** The index of a surface *)

Section Index.
Context (points : list MutationPoint).

Definition with_id (id : string) (l : list MutationPoint) : list MutationPoint :=
  List.filter (fun p => String.eqb (mp_id p) id) l.

Lemma build_index_last id : dict_get (_build_index points) id = last (with_id id points).
Proof.
  unfold _build_index, with_id. induction points as [|p l IH] using rev_ind; [done|].
  rewrite foldl_app, List.filter_app. cbn. rewrite dict_get_set.
  destruct (String.eqb_spec (mp_id p) id) as [->|Hne].
  - rewrite decide_True by done. by rewrite last_snoc.
  - rewrite decide_False by done. by rewrite app_nil_r.
Qed.

Lemma build_index_elem id p :
  dict_get (_build_index points) id = Some p -> p ∈ points /\ mp_id p = id.
Proof.
  rewrite build_index_last, last_lookup. intros Hp%list_elem_of_lookup_2%elem_of_filter_In.
  destruct Hp as [? Hp]. by apply String.eqb_eq in Hp.
Qed.

Definition location (p : MutationPoint) : Path * nat := (mp_file p, mp_line_start p).

Lemma locations_get id d :
  dict_get (foldl (fun d p => dict_set d (mp_id p)
                                (dict_get_or d (mp_id p) [] ++ [(mp_file p, mp_line_start p)])) d points) id
  = match with_id id points, dict_get d id with
    | [], old => old
    | l, old => Some (from_option Datatypes.id [] old ++ (location <$> l))
    end.
Proof.
  unfold with_id. revert d. induction points as [|p l IH]; intros d; cbn; [done|].
  rewrite IH, dict_get_set. unfold dict_get_or.
  destruct (String.eqb_spec (mp_id p) id) as [->|Hne].
  - rewrite decide_True by done. cbn. destruct (List.filter _ l); cbn; [by rewrite ?app_nil_r|].
    by rewrite <- app_assoc.
  - by rewrite decide_False by done.
Qed.
End Index.

(** ** Validation of a batch *)

(** A patch means one place: its id names a single point of the surface, the point takes
    the operation, and the patch carries the payload of its operation and no other. *)
Definition well_formed (points : list MutationPoint) (p : Patch) : Prop :=
  (exists point, with_id (mutation_id p) points = [point] /\ mp_kind point ∈ compatible_kinds (patch_op p))
  /\ forall f, payload_set p f = bool_decide (f = required_field (patch_op p)).

Lemma NoDup_locations points d :
  NoDup (dict_keys d) ->
  NoDup (dict_keys (foldl (fun d p => dict_set d (mp_id p)
           (dict_get_or d (mp_id p) [] ++ [(mp_file p, mp_line_start p)])) d points)).
Proof. revert d. induction points; intros d Hd; cbn; auto with zicato. Qed.

Lemma duplicates_get points id :
  dict_get (duplicate_mutation_ids points) id
  = if 1 <? length (with_id id points) then Some (location <$> with_id id points) else None.
Proof.
  unfold duplicate_mutation_ids. rewrite dict_get_filter by (apply NoDup_locations; constructor).
  rewrite locations_get. cbn. destruct (with_id id points) as [|q l]; [done|]. cbn. by rewrite length_fmap.
Qed.

Lemma payload_problems_nil (p : Patch) :
  ((if payload_set p (required_field (patch_op p)) then []
    else [MissingPayload (patch_id p) (required_field (patch_op p))])
   ++ (ForeignPayload (patch_id p)
      <$> List.filter (fun f => negb (bool_decide (f = required_field (patch_op p))) && payload_set p f)
            _ALL_PAYLOAD_FIELDS) = [])
  <-> forall f, payload_set p f = bool_decide (f = required_field (patch_op p)).
Proof.
  set (r := required_field (patch_op p)). clearbody r. split.
  - intros [Hr Hf]%app_eq_nil f. apply fmap_nil_inv in Hf.
    destruct (payload_set p r) eqn:Er; [|done]. case_bool_decide as E; [by subst|].
    destruct (payload_set p f) eqn:Ef; [|done].
    assert (f ∈ List.filter (fun f => negb (bool_decide (f = r)) && payload_set p f) _ALL_PAYLOAD_FIELDS) as Hin.
    { apply elem_of_filter_In. split; [by destruct f; set_solver|]. by rewrite bool_decide_false, Ef. }
    rewrite Hf in Hin. by apply elem_of_nil in Hin.
  - intros Hall. rewrite (Hall r), bool_decide_true by done. cbn [app].
    enough (List.filter (fun f => negb (bool_decide (f = r)) && payload_set p f) _ALL_PAYLOAD_FIELDS = []) as ->
      by done.
    generalize _ALL_PAYLOAD_FIELDS. intros l. induction l as [|f l IH]; [done|]. cbn.
    rewrite Hall. by destruct (bool_decide (f = r)).
Qed.

(** The pre-check of a batch is complete: no problem is reported exactly when every patch
    is well formed. *)
Lemma validate_patches_iff patches points :
  validate_patches patches points = [] <-> Forall (well_formed points) patches.
Proof.
  unfold validate_patches. rewrite Forall_forall. split.
  - intros [Hdup Hall]%app_eq_nil p Hp.
    assert (patch_problems (_build_index points) p = []) as Hpp.
    { destruct (patch_problems _ p) as [|x l] eqn:E; [done|].
      assert (x ∈ concat (patch_problems (_build_index points) <$> patches)) as Hx.
      { apply list_elem_of_In, in_concat. exists (x :: l). split; [|by left].
        apply list_elem_of_In, list_elem_of_fmap. by exists p. }
      rewrite Hall in Hx. by apply elem_of_nil in Hx. }
    unfold patch_problems in Hpp. rewrite app_assoc in Hpp.
    apply app_eq_nil in Hpp as [Hpay Hpt]. split; [|by apply payload_problems_nil].
    rewrite build_index_last in Hpt.
    assert ((1 <? length (with_id (mutation_id p) points)) = false) as Hlen.
    { destruct (1 <? _) eqn:E; [|done].
      assert (mutation_id p ∈ sorted_strings (remove_dups (mutation_id <$> patches))) as Hin.
      { apply elem_of_py_sorted, elem_of_remove_dups, list_elem_of_fmap. by exists p. }
      assert (AmbiguousId (mutation_id p) (location <$> with_id (mutation_id p) points)
        ∈ omap (fun id => AmbiguousId id <$> dict_get (duplicate_mutation_ids points) id)
            (sorted_strings (remove_dups (mutation_id <$> patches)))) as Ha.
      { apply list_elem_of_omap. exists (mutation_id p). by rewrite duplicates_get, E. }
      rewrite Hdup in Ha. by apply elem_of_nil in Ha. }
    destruct (with_id (mutation_id p) points) as [|q [|]]; [done| |done]. cbn in Hpt.
    exists q. split; [done|]. by case_bool_decide.
  - intros Hwf.
    enough (omap (fun id => AmbiguousId id <$> dict_get (duplicate_mutation_ids points) id)
              (sorted_strings (remove_dups (mutation_id <$> patches))) = []
            /\ concat (patch_problems (_build_index points) <$> patches) = []) as [-> ->] by done.
    split; apply elem_of_nil_inv; intros x.
    + intros (id & Hid & Hx)%list_elem_of_omap.
      apply elem_of_py_sorted, elem_of_remove_dups, list_elem_of_fmap in Hid as (p & -> & Hp).
      destruct (Hwf p Hp) as [(q & Hq & _) _]. by rewrite duplicates_get, Hq in Hx.
    + intros (l & Hl & Hx)%list_elem_of_In%in_concat. apply list_elem_of_In, list_elem_of_fmap in Hl as (p & -> & Hp).
      destruct (Hwf p Hp) as [(q & Hq & Hk) Hpay%payload_problems_nil].
      unfold patch_problems in Hx. rewrite app_assoc, Hpay, build_index_last, Hq in Hx. cbn in Hx.
      rewrite bool_decide_true in Hx by done. by destruct Hx.
Qed.

(** ** A batch on a tree *)

Lemma scan_file file source_root syntax text lines ignored resolver idx skip rest p :
  Found p ∈ scan file source_root syntax text lines ignored resolver idx skip rest -> mp_file p = file.
Proof.
  revert idx skip. induction rest as [|raw rest IH]; intros idx skip Hin; cbn in Hin; [by apply elem_of_nil in Hin|].
  destruct skip as [|skip]; [|by eapply IH].
  destruct (parse_marker_line _ _) as [m|]; [|by eapply IH].
  destruct (ignored _); [by eapply IH|]. destruct (pm_variant m).
  - apply elem_of_cons in Hin as [Hp|Hin]; [|by eapply IH].
    destruct resolver as [f|]; [destruct (f _) as [[]|]|]; try done. by injection Hp as ->.
  - apply elem_of_cons in Hin as [[= ->]|Hin]; [done|by eapply IH].
  - destruct (find_end _ _) as [[|k]|]; [by eapply IH| |by eapply IH].
    apply elem_of_cons in Hin as [[= ->]|Hin]; [done|by eapply IH].
Qed.

Lemma elem_of_found p items : p ∈ found items <-> Found p ∈ items.
Proof.
  unfold found. rewrite list_elem_of_omap. split.
  - intros ([q|] & Hq & ?); by simplify_eq.
  - intros Hp. by exists (Found p).
Qed.

Section Batch.
Context `{PyRepr} `{PyAst} `{PyExpr} (table : SyntaxTable).

(** The grammars a file may be read under. *)
Definition read_as (f : Path) (syntax : MarkerSyntax) : Prop :=
  marker_syntax_for table f = Some syntax
  \/ (str_endswith ".py" (path_name f) = true
      /\ syntax = from_option id PYTHON_SYNTAX (dict_get table PYTHON_SUFFIX)).

Definition declares_nothing (tree : Tree) (f : Path) : Prop :=
  forall root syntax, read_as f syntax -> found (_enumerate_file tree f root syntax) = [].

Lemma enumerate_file_inv tree f root syntax p :
  Found p ∈ _enumerate_file tree f root syntax -> mp_file p = f /\ is_Some (dict_get tree f).
Proof.
  unfold _enumerate_file, scan_text. destruct (dict_get tree f) as [raw|]; [|by intros ?%elem_of_nil].
  assert (forall items, Found p ∈ items -> (forall ignored resolver,
    items = (if graded syntax ignored (splitlines_keep (universal raw)) then []
             else _scan_markers f root syntax (universal raw) (splitlines_keep (universal raw)) ignored resolver) ->
    mp_file p = f)) as Hitems.
  { intros items Hp ignored resolver ->. destruct (graded _ _ _); [by apply elem_of_nil in Hp|].
    by apply scan_file in Hp. }
  intros Hin. split; [|done]. destruct (_ && _); [by apply elem_of_nil in Hin|].
  destruct (is_python syntax); [|by eapply Hitems].
  destruct (_python_context _) as [[]|]; [by eapply Hitems|by apply elem_of_nil in Hin].
Qed.

Lemma below_elem tree root f : f ∈ below tree root -> f ∈ dict_keys tree.
Proof. intros Hf%elem_of_py_sorted%elem_of_filter_In. by destruct Hf. Qed.

(** Every point comes from its own file. *)
Lemma enumerated_inv tree roots p :
  p ∈ enumerate_mutations tree table roots ->
  exists root syntax, read_as (mp_file p) syntax /\ is_Some (dict_get tree (mp_file p))
    /\ p ∈ found (_enumerate_file tree (mp_file p) root syntax).
Proof.
  intros (items & Hi & Hp)%elem_of_py_sorted%elem_of_found%list_elem_of_In%in_concat.
  apply list_elem_of_In, list_elem_of_fmap in Hi as (root & -> & _). apply list_elem_of_In in Hp.
  assert (forall f root' syntax, read_as f syntax -> Found p ∈ _enumerate_file tree f root' syntax ->
    exists root syntax, read_as (mp_file p) syntax /\ is_Some (dict_get tree (mp_file p))
      /\ p ∈ found (_enumerate_file tree (mp_file p) root syntax)) as Hone.
  { intros f root' syntax Hread Hin. destruct (enumerate_file_inv _ _ _ _ _ Hin) as [-> Hs].
    exists root', syntax. split; [done|]. split; [done|]. by apply elem_of_found. }
  unfold enumerate_root in Hp. destruct (dict_get tree root).
  - destruct (marker_syntax_for table root) as [syntax|] eqn:Es; [|by apply elem_of_nil in Hp].
    eapply Hone; [|done]. by left.
  - apply elem_of_app in Hp as [Hp|Hp];
      apply list_elem_of_In, in_concat in Hp as (l & Hl & Hp);
      apply list_elem_of_In, list_elem_of_fmap in Hl as (f & -> & Hf); apply list_elem_of_In in Hp.
    + apply elem_of_filter_In in Hf as [_ Hf]. eapply Hone; [|done]. by right.
    + destruct f as [f syntax]. eapply Hone; [|done]. left.
      apply list_elem_of_omap in Hf as (f' & _ & Hf). apply bind_Some in Hf as (s & Hs & Hf).
      cbv zeta in Hf. destruct (is_python s || _); by simplify_eq.
Qed.

(** A turn of the loop rewrites the file of one point and no other. *)
Lemma apply_patch_inv missing roots tree p tree' :
  apply_patch table missing roots tree p = Ok tree' ->
  exists point text, point ∈ enumerate_mutations tree table roots /\ mp_id point = mutation_id p
    /\ tree' = dict_set tree (mp_file point) text.
Proof.
  unfold apply_patch. intros Hok.
  assert (forall k, match dict_get (_build_index (enumerate_mutations tree table roots)) (mutation_id p) with
    | None => Raise (missing "mutation_id not found in target_root") | Some point => k point end = Ok tree' ->
    exists point, point ∈ enumerate_mutations tree table roots /\ mp_id point = mutation_id p
      /\ k point = Ok tree') as Hres.
  { intros k. destruct (dict_get _ _) as [point|] eqn:E; [|done].
    apply build_index_elem in E as [??]. eauto. }
  assert (forall point numeric new_text, constant_patch table missing tree point p numeric new_text = Ok tree' ->
    exists text, tree' = dict_set tree (mp_file point) text) as Hconst.
  { intros point numeric new_text. unfold constant_patch.
    destruct (_resolve_marker_line _ _ _ _); [|done]. destruct (_find_constant_after _ _ _); [|done].
    intros (t & _ & [= <-])%result_bind_ok. eauto. }
  destruct (patch_op p).
  - destruct (new_content p); [|done]. apply Hres in Hok as (point & Hin & Hid & Hok).
    apply result_bind_ok in Hok as (text & _ & [= <-]). eauto.
  - destruct (new_numeric p); [|done]. apply Hres in Hok as (point & Hin & Hid & [text ->]%Hconst). eauto 6.
  - destruct (new_enum p); [|done]. apply Hres in Hok as (point & Hin & Hid & [text ->]%Hconst). eauto 6.
Qed.

Lemma apply_loop_untouched missing roots patches tree tree' :
  apply_loop table missing roots tree patches = (tree', Ok tt) ->
  dict_keys tree' = dict_keys tree
  /\ forall f, declares_nothing tree f -> dict_get tree' f = dict_get tree f.
Proof.
  revert tree. induction patches as [|p patches IH]; intros tree Hloop; cbn in Hloop; [by simplify_eq|].
  destruct (apply_patch table missing roots tree p) as [tree1|] eqn:E; [|done].
  destruct (IH _ Hloop) as [Hkeys Hf]. clear IH Hloop.
  apply apply_patch_inv in E as (point & text & Hin & _ & ->).
  apply enumerated_inv in Hin as (root & syntax & Hread & Hs & Hin). split.
  - assert (mp_file point ∈ dict_keys tree) as Hk.
    { destruct Hs as [t Ht]. apply dict_mem_true. unfold dict_mem. by rewrite Ht. }
    by rewrite Hkeys, dict_keys_set, decide_True.
  - intros f Hnone. assert (f <> mp_file point) as Hne.
    { intros ->. rewrite (Hnone _ _ Hread) in Hin. by apply elem_of_nil in Hin. }
    rewrite Hf; [by rewrite dict_get_set, decide_False|].
    intros root' syntax' Hread'. specialize (Hnone root' syntax' Hread'). unfold _enumerate_file in *.
    by rewrite dict_get_set, decide_False.
Qed.

Definition is_value_error (e : exn) : Prop := exists m, e = ValueError m.

(** A patch whose number is infinite, which Python's [int] turns down with an
    [OverflowError] and not with the [ValueError] it has for a nan. *)
Definition infinite_number (p : Patch) : Prop :=
  exists x, new_numeric p = Some (num_float x) /\ float_trunc x = None /\ is_nan x = false.

Lemma span_replace_error text point content e :
  _apply_span_replace table text point content = Raise e -> is_value_error e.
Proof.
  unfold _apply_span_replace. destruct (mp_kind point).
  - destruct (String.eqb _ _); [destruct (marked_literal _ _ _ _)|]; done.
  - done.
  - destruct (marker_syntax_for _ _); [done|]. intros [= <-]. eexists. done.
Qed.

Lemma constant_patch_error tree point p numeric new_text e :
  constant_patch table ValueError tree point p numeric new_text = Raise e ->
  is_value_error e \/ new_text = Raise e.
Proof.
  unfold constant_patch, is_value_error. destruct (_resolve_marker_line _ _ _ _); [|intros [= <-]; eauto].
  destruct (_find_constant_after _ _ _); [|intros [= <-]; eauto].
  destruct new_text; cbn; [done|intros [= <-]; eauto].
Qed.

Lemma apply_patch_error roots tree p e :
  apply_patch table ValueError roots tree p = Raise e ->
  is_value_error e \/ e = OverflowError /\ infinite_number p.
Proof.
  unfold apply_patch, infinite_number, is_value_error.
  destruct (patch_op p).
  - destruct (new_content p); [|intros [= <-]; eauto]. destruct (dict_get _ _); [|intros [= <-]; eauto].
    destruct (_apply_span_replace _ _ _ _) eqn:E; cbn; [done|]. intros [= <-]. apply span_replace_error in E. by left.
  - destruct (new_numeric p) as [v|]; [|intros [= <-]; eauto]. destruct (dict_get _ _); [|intros [= <-]; eauto].
    intros [He|He]%constant_patch_error; [by left|]. destruct v as [z|x]; [done|]. cbn in He.
    destruct (float_trunc x) eqn:Et; [done|]. destruct (is_nan x) eqn:En; injection He as <-; eauto 6.
  - destruct (new_enum p); [|intros [= <-]; eauto]. destruct (dict_get _ _); [|intros [= <-]; eauto].
    intros [He|He]%constant_patch_error; [by left|done].
Qed.

(** How a loop that raises ends: on one patch, with those before it applied. *)
Lemma apply_loop_error roots patches tree tree' e :
  apply_loop table ValueError roots tree patches = (tree', Raise e) ->
  is_value_error e
  \/ e = OverflowError /\ exists before p after, patches = before ++ p :: after /\ infinite_number p
      /\ apply_loop table ValueError roots tree before = (tree', Ok tt).
Proof.
  revert tree. induction patches as [|p patches IH]; intros tree Hl; cbn in Hl; [done|].
  destruct (apply_patch _ _ _ _ _) as [tree1|e'] eqn:E.
  - destruct (IH _ Hl) as [|[He (before & q & after & -> & Hq & Hb)]]; [by left|right]. split; [done|].
    exists (p :: before), q, after. split_and!; [done..|]. cbn. by rewrite E.
  - injection Hl as <- <-. destruct (apply_patch_error _ _ _ _ E) as [|[He Hinf]]; [by left|right].
    split; [done|]. by exists [], p, patches.
Qed.

Lemma relocate_cases tree roots :
  match relocate_enumeration_roots tree roots with
  | Ok selected => selected = from_option id [[]] roots
  | Raise e => is_value_error e
  end.
Proof.
  unfold relocate_enumeration_roots. cbv zeta. destruct (negb _ && _); [done|]. by eexists.
Qed.

(** C13.  A batch is all or nothing, but for an infinite number.  Applied to a fresh target
    it either succeeds, and then every patch meant one point of the copied surface, no file
    appeared or vanished, the files that declare no point are byte for byte those of the
    copy, and every Python file that does not parse did not parse before; or it raises a
    [ValueError] and leaves no target behind; or it raises the [OverflowError] of a patch
    that sets a number to infinity, and then what is left behind is the copy with exactly
    the patches before that one applied. *)
Theorem apply_patches_atomic ignore source patches roots :
  let copy := copytree ignore source in
  let r := apply_patches table ignore source patches None roots in
  match ap_outcome r with
  | Ok _ =>
      Forall (well_formed (enumerate_mutations copy table (from_option id [[]] roots))) patches
      /\ exists tree, ap_target r = Some tree
           /\ dict_keys tree = dict_keys copy
           /\ (forall f, declares_nothing copy f -> dict_get tree f = dict_get copy f)
           /\ (forall f, f ∈ _unparseable_py_files tree -> f ∈ _unparseable_py_files copy)
  | Raise e =>
      ap_target r = None /\ is_value_error e
      \/ e = OverflowError /\ exists selected before p after tree,
           patches = before ++ p :: after /\ infinite_number p
           /\ relocate_enumeration_roots copy (Some (from_option id [[]] roots)) = Ok selected
           /\ apply_loop table ValueError selected copy before = (tree, Ok tt)
           /\ ap_target r = Some tree
  end.
Proof.
  intros copy r. subst r. unfold apply_patches, is_value_error.
  pose proof (relocate_cases source roots) as Hs.
  destruct (relocate_enumeration_roots source roots) as [selected|e]; [|by left]. subst selected.
  fold copy. destruct (validate_patches _ _) eqn:Ev; [|by left; split; eauto].
  apply validate_patches_iff in Ev. unfold _apply_patches_into_tree.
  pose proof (relocate_cases copy (Some (from_option id [[]] roots))) as Hs.
  destruct (relocate_enumeration_roots copy _) as [sel|e] eqn:Er; [|destruct Hs as [m ->]; left; by split; eauto].
  destruct (apply_loop _ _ _ _ _) as [tree [[]|e]] eqn:El.
  - destruct (_post_apply_syntax_problems _ _) eqn:Ep; cbn [ap_outcome ap_target refused]; [|by left; split; eauto].
    split; [done|]. exists tree. apply apply_loop_untouched in El as [Hk Hf].
    split; [done|]. split; [done|]. split; [done|]. intros f Hin.
    destruct (decide (f ∈ _unparseable_py_files copy)) as [|Hn]; [done|].
    assert (f ∈ _post_apply_syntax_problems tree (_unparseable_py_files copy)) as Hp.
    { apply elem_of_filter_In. by rewrite bool_decide_false. }
    rewrite Ep in Hp. by apply elem_of_nil in Hp.
  - destruct (apply_loop_error _ _ _ _ _ El) as [[m ->]|(-> & before & p & after & -> & Hp & Hb)]; cbn.
    + left. by split; eauto.
    + right. split; [done|]. exists sel, before, p, after, tree. by split_and!.
Qed.
End Batch.

(** ** Reading back a point *)

Lemma str_take_drop n s : str_take n s +:+ str_drop n s = s.
Proof. revert s. induction n as [|n IH]; intros [|c s]; cbn [str_take str_drop]; try done. by rewrite str_app_cons, IH. Qed.

Lemma str_drop_drop a b s : str_drop b (str_drop a s) = str_drop (a + b) s.
Proof. revert s. induction a as [|a IH]; intros [|c s]; cbn; [done|done|by destruct b|apply IH]. Qed.

Lemma str_take_middle a b s :
  a <= b -> str_take a s +:+ str_take (b - a) (str_drop a s) +:+ str_drop b s = s.
Proof.
  intros Hab. replace b with (a + (b - a)) at 2 by lia.
  by rewrite <- str_drop_drop, !str_take_drop.
Qed.

Lemma concat_at lines n :
  1 <= n <= length lines ->
  str_concat (take (n - 1) lines) +:+ line_at lines n +:+ str_concat (drop n lines) = str_concat lines.
Proof.
  intros Hn. unfold line_at. destruct (lookup_lt_is_Some_2 lines (n - 1)) as [x Hx]; [lia|].
  rewrite <- (take_drop_middle _ _ _ Hx) at 4. rewrite Hx, str_concat_app. cbn.
  by replace (S (n - 1)) with n by lia.
Qed.

(** A place of the parser's: inside the text, and not backwards. *)
Definition place_in (text : string) (node : AstConstant) : Prop :=
  let lines := splitlines_keep text in
  1 <= ac_lineno node /\ ac_lineno node <= ac_end_lineno node /\ ac_end_lineno node <= length lines
  /\ (ac_lineno node = ac_end_lineno node -> ac_col_offset node <= ac_end_col_offset node).

Lemma replace_node_id text node :
  place_in text node -> _replace_node_text text node (_node_text text node) = text.
Proof.
  intros (H1 & H2 & H3 & H4). unfold _replace_node_text, _node_text, _node_span. cbn -[Nat.min].
  set (lines := splitlines_keep text) in *. set (start := Nat.min _ _). set (stop := Nat.min _ _).
  transitivity (str_concat lines); [|apply splitlines_keep_concat].
  destruct (Nat.eqb_spec (ac_lineno node) (ac_end_lineno node)) as [E|Hne].
  - rewrite <- (concat_at lines (ac_lineno node)) by lia. rewrite <- E. f_equal.
    rewrite <- (str_take_middle start stop (line_at lines (ac_lineno node))) at 4 by
      (subst start stop; rewrite <- E; specialize (H4 E); lia).
    by rewrite !str_app_assoc.
  - rewrite <- (concat_at lines (ac_lineno node)) by lia. f_equal.
    rewrite <- (str_take_drop start (line_at lines (ac_lineno node))) at 3. rewrite !str_app_assoc. do 2 f_equal.
    rewrite <- (str_app_assoc (str_take stop _)), str_take_drop.
    pose proof (concat_at (drop (ac_lineno node) lines) (ac_end_lineno node - ac_lineno node)) as Hc.
    rewrite length_drop, drop_drop in Hc. unfold line_at in Hc |- *. rewrite lookup_drop in Hc.
    replace (ac_lineno node + (ac_end_lineno node - ac_lineno node - 1)) with (ac_end_lineno node - 1) in Hc by lia.
    replace (ac_lineno node + (ac_end_lineno node - ac_lineno node)) with (ac_end_lineno node) in Hc by lia.
    replace (ac_end_lineno node - 1 - ac_lineno node) with (ac_end_lineno node - ac_lineno node - 1) by lia.
    apply Hc. lia.
Qed.

Lemma strip_first_id literal :
  blank_lstrip literal = literal -> _strip_literal_first_line_indent literal = literal.
Proof.
  intros Hb. unfold _strip_literal_first_line_indent. pose proof (splitlines_keep_concat literal) as Hc.
  destruct (splitlines_keep literal) as [|first rest]; [done|]. cbn in Hc.
  enough (blank_lstrip first = first) as -> by done. unfold blank_lstrip in *. rewrite <- Hc in Hb.
  destruct first as [|c first]; [done|]. rewrite str_app_cons in Hb. cbn [str_span] in Hb |- *.
  destruct (is_blank c) eqn:Ec; [|done]. exfalso.
  destruct (str_span is_blank (first +:+ str_concat rest)) as [a b] eqn:Es. cbn in Hb.
  pose proof (str_span_spec is_blank (first +:+ str_concat rest)) as Hspec. rewrite Es in Hspec.
  destruct Hspec as (_ & _ & Ho). subst b. cbn in Ho. by rewrite Ec in Ho.
Qed.

(** The content read off a point reproduces it.  For a file and for the literal of a span
    marker, replacing a point by its own source gives back the file. *)
Lemma replacement_source_inverse `{PyRepr} `{PyAst} `{PyExpr} (table : SyntaxTable) text p :
  (mp_kind p = file_kind
   \/ mp_kind p = span_kind /\ path_suffix (mp_file p) = PYTHON_SUFFIX
      /\ exists node, marked_literal table (mp_file p) text (mp_id p) = Some node /\ place_in text node
           /\ literal_source (_node_text text node) = true
           /\ blank_lstrip (_node_text text node) = _node_text text node) ->
  exists source, replacement_source table text p = Ok source
    /\ _apply_span_replace table text p source = Ok text.
Proof.
  unfold replacement_source, _apply_span_replace.
  intros [Hk|(Hk & Hsfx & node & Hn & Hp & Hl & Hb)]; rewrite Hk.
  - by exists text.
  - rewrite Hsfx, String.eqb_refl, Hn. eexists. split; [done|].
    unfold _build_literal_replacement. rewrite Hl, strip_first_id by done. by rewrite replace_node_id.
Qed.

(** ** Markers as they are written *)

Definition variant_text (v : MarkerVariant) : string :=
  match v with SpanMarker => "" | FileMarker => ":file" | CodeMarker => ":code" end.

Definition quoted (s : string) : string := String quote s +:+ single quote.

Definition pair_text (kv : string * string) : string := kv.1 +:+ "=" +:+ quoted kv.2.

Definition metadata_text (meta : list (string * string)) : string :=
  str_concat ((fun kv => " " +:+ pair_text kv) <$> meta).

Definition marker_text (leader : string) (v : MarkerVariant) (id : string) (meta : list (string * string))
    : string :=
  leader +:+ " zicato:mutable" +:+ variant_text v +:+ " id=" +:+ quoted id +:+ metadata_text meta.

Definition unquoted (s : string) : bool := str_forallb (fun c => negb (Ascii.eqb c quote)) s.

Definition identifier (s : string) : bool :=
  match s with String c rest => is_word c && negb (is_digit c) && str_forallb is_word rest | "" => false end.

Definition writable_metadata (meta : list (string * string)) : Prop :=
  NoDup (dict_keys meta) /\ Forall (fun kv => identifier kv.1 = true /\ unquoted kv.2 = true) meta.

Lemma quoted_span s rest :
  unquoted s = true ->
  str_span (fun c => negb (Ascii.eqb c quote)) (s +:+ single quote +:+ rest) = (s, String quote rest).
Proof. intros Hs. by apply str_span_app. Qed.

Lemma kv_pair_step fuel k v rest :
  identifier k = true -> unquoted v = true ->
  kv_pairs (S fuel) (pair_text (k, v) +:+ rest) = (k, v) :: kv_pairs fuel rest.
Proof.
  destruct k as [|c k]; [done|]. cbn [identifier]. intros [Hc Hk]%andb_true_iff Hv.
  unfold pair_text, quoted. cbn [fst snd]. rewrite !str_app_assoc, str_app_cons. cbn [kv_pairs].
  rewrite (str_span_app is_word k) by done. rewrite Hc.
  change ("=" +:+ String quote v +:+ single quote +:+ rest)
    with (String "="%char (String quote "") +:+ (v +:+ single quote +:+ rest)).
  rewrite str_after_prefix_app, quoted_span by done. done.
Qed.

Lemma kv_closing fuel closing : closing ∈ [""; " -->"] -> kv_pairs fuel closing = [] /\ kv_pairs fuel (str_lstrip closing) = [].
Proof.
  intros [->|[->|[]%elem_of_nil]%elem_of_cons]%elem_of_cons;
    split; try (by destruct fuel); do 5 (destruct fuel as [|fuel]; [done|]); done.
Qed.

Lemma kv_metadata fuel meta closing :
  Forall (fun kv => identifier kv.1 = true /\ unquoted kv.2 = true) meta -> closing ∈ [""; " -->"] ->
  2 * length meta <= fuel -> kv_pairs fuel (metadata_text meta +:+ closing) = meta.
Proof.
  intros Hm Hc. revert fuel. induction Hm as [|[k v] meta [Hk Hv] _ IH]; intros fuel Hf.
  - by apply kv_closing.
  - cbn [length] in Hf. destruct fuel as [|[|fuel]]; [lia|lia|].
    unfold metadata_text. rewrite fmap_cons. cbn [str_concat]. rewrite !str_app_assoc, str_app_cons, str_app_nil.
    transitivity (kv_pairs (S fuel) (pair_text (k, v) +:+ metadata_text meta +:+ closing)).
    { cbn [kv_pairs]. by destruct (str_span is_word _). }
    rewrite kv_pair_step by done. rewrite IH by lia. done.
Qed.

Lemma metadata_length meta : 2 * length meta <= String.length (metadata_text meta).
Proof.
  unfold metadata_text. induction meta as [|[k v] meta IH]; [done|].
  rewrite fmap_cons. cbn [str_concat length]. rewrite !str_app_length. unfold pair_text. cbn [fst snd].
  rewrite !str_app_length. unfold pair_text in IH. cbn [String.length]. lia.
Qed.

Lemma dict_of_pairs {V} (l d : list (string * V)) :
  NoDup (dict_keys (d ++ l)) -> foldl (fun d kv => dict_set d kv.1 kv.2) d l = d ++ l.
Proof.
  revert d. induction l as [|[k v] l IH]; intros d Hn; cbn; [by rewrite app_nil_r|].
  unfold dict_keys in Hn. rewrite dict_set_fresh.
  - rewrite IH; rewrite <- app_assoc; [done|]. exact Hn.
  - unfold dict_keys. rewrite fmap_app in Hn. apply NoDup_app in Hn as (_ & Hn & _). intros Hk.
    apply (Hn k Hk). set_solver.
Qed.

Lemma word_not_space c : is_word c = true -> ascii_is_space c = false.
Proof. by destruct c as [[] [] [] [] [] [] [] []]. Qed.

Lemma tail_metadata_text meta closing :
  writable_metadata meta -> closing ∈ [""; " -->"] ->
  tail_metadata (str_lstrip (metadata_text meta +:+ closing)) = meta.
Proof.
  intros [Hn Hm] Hc. unfold tail_metadata.
  enough (kv_pairs (String.length (str_lstrip (metadata_text meta +:+ closing)))
            (str_lstrip (metadata_text meta +:+ closing)) = meta) as -> by by apply dict_of_pairs.
  destruct meta as [|[k v] meta]; [by apply kv_closing|].
  inversion Hm as [|? ? [Hk Hv] Hm']; subst. cbn in Hk, Hv.
  assert (str_lstrip (metadata_text ((k, v) :: meta) +:+ closing)
          = pair_text (k, v) +:+ metadata_text meta +:+ closing) as ->.
  { unfold metadata_text. rewrite fmap_cons. cbn [str_concat].
    rewrite !str_app_assoc, str_lstrip_space by done.
    destruct k as [|c k]; [done|]. cbn [identifier] in Hk. apply andb_true_iff in Hk as [[Hw _]%andb_true_iff _].
    unfold pair_text. cbn [fst]. rewrite !str_app_assoc, !str_app_cons. cbn [str_lstrip].
    by rewrite word_not_space. }
  rewrite !str_app_length. pose proof (metadata_length meta).
  destruct (String.length (pair_text (k, v))) as [|n] eqn:En; [by destruct k|].
  cbn [Nat.add]. rewrite kv_pair_step by done. rewrite kv_metadata; [done|done|done|lia].
Qed.

(** What an operator writes is what the enumerator reads: under a built-in syntax, a
    marker line, at any indentation and closed or not as the format wants, parses to its
    variant, its id and its metadata, and is never taken for an end. *)
Theorem marker_roundtrip syntax leader indent v id meta closing :
  syntax ∈ BUILTIN_SYNTAXES.*2 -> leader ∈ leaders syntax -> closing ∈ [""; " -->"] ->
  all_space indent = true -> id <> "" -> unquoted id = true -> writable_metadata meta ->
  let line := indent +:+ marker_text leader v id meta +:+ closing in
  parse_marker_line syntax line = Some {| pm_id := id; pm_variant := v; pm_metadata := meta |}
  /\ is_end_marker syntax line = false.
Proof.
  intros Hs Hl Hc Hi Hid Hq Hm line.
  set (rest := "zicato:mutable" +:+ variant_text v +:+ " id=" +:+ quoted id +:+ metadata_text meta +:+ closing).
  assert (after_leader syntax line = [rest]) as Ha.
  { assert (Forall (fun s => leaders s = ["#"] \/ leaders s = ["<!--"; "#"]) BUILTIN_SYNTAXES.*2) as Hb
      by (repeat constructor; auto).
    rewrite Forall_forall in Hb. unfold line, after_leader. rewrite str_lstrip_space by done.
    unfold marker_text. rewrite !str_app_assoc.
    destruct (Hb _ Hs) as [E|E]; rewrite E in Hl |- *;
      repeat (apply elem_of_cons in Hl as [->|Hl]; [reflexivity|]); by apply elem_of_nil in Hl. }
  unfold parse_marker_line, is_end_marker. rewrite Ha. subst rest. clear Ha line. cbn [first_some existsb].
  split; [|by destruct v].
  assert (parse_body ("zicato:mutable" +:+ variant_text v +:+ " id=" +:+ quoted id +:+ metadata_text meta +:+ closing)
          = parse_id v (" id=" +:+ quoted id +:+ metadata_text meta +:+ closing)) as -> by (by destruct v).
  unfold quoted. rewrite !str_app_assoc.
  change (parse_id v (" id=" +:+ String quote id +:+ single quote +:+ metadata_text meta +:+ closing))
    with (match str_span (fun c => negb (Ascii.eqb c quote)) (id +:+ single quote +:+ metadata_text meta +:+ closing) with
          | (String c i, String _ after) =>
              if String.eqb after "" || negb (starts_outside ascii_is_space after)
              then Some {| pm_id := String c i; pm_variant := v; pm_metadata := tail_metadata (str_lstrip after) |}
              else None
          | _ => None
          end).
  rewrite quoted_span by done. destruct id as [|c i]; [done|]. rewrite tail_metadata_text by done.
  enough (String.eqb (metadata_text meta +:+ closing) ""
          || negb (starts_outside ascii_is_space (metadata_text meta +:+ closing)) = true) as -> by done.
  destruct meta as [|m meta]; [|done].
  repeat (apply elem_of_cons in Hc as [->|Hc]; [reflexivity|]). by apply elem_of_nil in Hc.
Qed.

(** ** Witnesses *)

Module MutationWitness.

(** A parser that finds one string and one number in a two-line source. *)
#[local] Instance ast : PyAst := {|
  ast_parse text :=
    if str_contains "X =" text
    then Some [{| ac_string := true; ac_numeric := false; ac_lineno := 2; ac_col_offset := 4;
                  ac_end_lineno := 2; ac_end_col_offset := 7 |};
               {| ac_string := false; ac_numeric := true; ac_lineno := 3; ac_col_offset := 4;
                  ac_end_lineno := 3; ac_end_col_offset := 5 |}]
    else None |}.
#[local] Instance exprs : PyExpr :=
  {| is_string_expression _ := true; toplevel_imports _ := Some [] |}.
#[local] Existing Instance plain_repr.

Definition text_of (lines : list string) : string := str_concat ((fun l => l +:+ nl) <$> lines).

Definition prompt : string := text_of
  ["# title"; marker_text "#" CodeMarker "a" []; "  one"; "    two"; "# zicato:mutable:end";
   marker_text "<!--" CodeMarker "b" [("language", "en")] +:+ " -->"; "three"; "<!-- zicato:mutable:end -->"].
Definition source : string := text_of [marker_text "#" SpanMarker "x" []; "X = " +:+ quoted "y"; "N = 1"].
Definition tree : Tree := [(["p.md"], prompt); (["d"; "s.py"], source); (["README"], "plain")].

Definition md : MarkerSyntax := from_option id PYTHON_SYNTAX (dict_get BUILTIN_SYNTAXES ".md").
Definition region : MutationPoint :=
  Eval vm_compute in
    from_option id {| mp_id := ""; mp_kind := file_kind; mp_file := []; mp_source_root := [];
                      mp_line_start := 0; mp_line_end := 0; mp_content := ""; mp_content_hash := "";
                      mp_metadata := [] |}
      (head (found (scan_text ["p.md"] [] md prompt))).

Definition replace (id content : string) : Patch :=
  {| patch_id := "p"; mutation_id := id; patch_op := op_replace; new_content := Some content;
     new_numeric := None; new_enum := None; rationale := "" |}.
Definition set_number (x : float) : Patch :=
  {| patch_id := "n"; mutation_id := "x"; patch_op := op_set_numeric; new_content := None;
     new_numeric := Some (num_float x); new_enum := None; rationale := "" |}.

Lemma code_patch_contained_witness :
  exists middle,
    _apply_span_replace BUILTIN_SYNTAXES prompt region (text_of ["k"; "# zicato:mutable:end"; "evil"])
    = Ok (text_of ["# title"; marker_text "#" CodeMarker "a" []] +:+ middle
          +:+ text_of ["# zicato:mutable:end"; marker_text "<!--" CodeMarker "b" [("language", "en")] +:+ " -->";
                       "three"; "<!-- zicato:mutable:end -->"])
    /\ Forall (fun line => marks md (chomp line) = false) (splitlines_keep middle).
Proof.
  destruct (code_patch_contained BUILTIN_SYNTAXES ["p.md"] [] md prompt (fun _ => false) None region)
    as (pre & o & f & post & Htext & _ & _ & Hall); [by left|done|done|].
  destruct (Hall (text_of ["k"; "# zicato:mutable:end"; "evil"])) as (middle & Happly & Hm).
  exists (text_of ["  k"; "  evil"]). split; [reflexivity|]. by repeat constructor.
Defined.


Lemma apply_patches_atomic_witness :
  exists tree', ap_target (apply_patches BUILTIN_SYNTAXES is_artifact tree [replace "a" "k"; set_number 2%float] None None)
                = Some tree'
    /\ dict_get tree' ["README"] = Some "plain" /\ dict_keys tree' = dict_keys tree.
Proof.
  pose proof (apply_patches_atomic BUILTIN_SYNTAXES is_artifact tree [replace "a" "k"; set_number 2%float] None) as H.
  assert (ap_outcome (apply_patches BUILTIN_SYNTAXES is_artifact tree [replace "a" "k"; set_number 2%float] None None)
          = Ok tt) as E by (vm_compute; reflexivity).
  cbv zeta in H. rewrite E in H. destruct H as (_ & tree' & Ht & Hk & Hf & _). exists tree'.
  split; [exact Ht|]. split; [|exact Hk]. rewrite (Hf ["README"]); [reflexivity|].
  by intros root syntax [?|[? _]].
Defined.

Lemma marker_roundtrip_witness :
  parse_marker_line md ("  " +:+ marker_text "<!--" CodeMarker "b" [("language", "en")] +:+ " -->")
  = Some {| pm_id := "b"; pm_variant := CodeMarker; pm_metadata := [("language", "en")] |}.
Proof.
  apply (marker_roundtrip md "<!--" "  " CodeMarker "b" [("language", "en")] " -->"); try done.
  - right. by left.
  - by left.
  - right. by left.
  - split; [apply NoDup_singleton|by repeat constructor].
Defined.

(** A replacement may carry a grading line, which hides the file from the next walk. *)
Lemma grading_line_hides_the_file :
  (fun t => found (scan_text ["p.md"] [] md t))
    <$> (match _apply_span_replace BUILTIN_SYNTAXES prompt region "# zicato:grading" with
         | Ok t => Some t | Raise _ => None end) = Some [].
Proof. vm_compute. reflexivity. Qed.

(** A replacement of markers alone empties the region, and its point is gone. *)
Lemma empty_replacement_loses_the_point :
  (fun t => mp_id <$> found (scan_text ["p.md"] [] md t))
    <$> (match _apply_span_replace BUILTIN_SYNTAXES prompt region "# zicato:mutable:end" with
         | Ok t => Some t | Raise _ => None end) = Some ["b"].
Proof. vm_compute. reflexivity. Qed.

(** Re-anchoring drops a trailing blank line each time it runs. *)
Lemma reindent_not_idempotent :
  let once := _reindent_code_region md (text_of ["a"; ""; ""]) "" in
  once = text_of ["a"; ""] /\ _reindent_code_region md once "" = text_of ["a"].
Proof. vm_compute. by split. Qed.

(** An infinite number raises an [OverflowError], which the transaction does not catch: the
    patches before it stay applied. *)
Lemma infinity_leaves_half_a_batch :
  let r := apply_patches BUILTIN_SYNTAXES is_artifact tree [replace "a" "k"; set_number infinity] None None in
  ap_outcome r = Raise OverflowError
  /\ (t ← ap_target r; dict_get t ["p.md"]) <> dict_get tree ["p.md"].
Proof. vm_compute. by split. Qed.
End MutationWitness.
