(* ===== verification/Gate.v ===== *)
(** The promote gate, [src/zicato/tournament/gate.py].

    [evaluate_gate] compares a champion's aggregate with a challenger's and
    returns promoted, rejected or deferred with its evidence.  An aggregate is
    the dictionary [aggregate_generation_score] writes; the record below has the
    keys the gate reads, each optional where the reader supplies a default.  The
    explanation block is built as the code builds it, with the list of rule rows
    it mutates threaded explicitly. *)

From S2P Require Import Prelude PyFloat PyJson CoreTypes.

(** ** Aggregates *)

Record Row := {
  row_drift_loss : option float;
  row_pass_fail : option bool;
  row_score : option float;
}.

Record DiffSize := { added : Z; removed : Z; patch_count : Z }.

Record Aggregate := {
  scalar : option float;
  pass_rate : option float;
  mean_score : option float;
  incomplete_entries : list string;
  per_entry : list (string * Row);
  namespace_aggregates : option (list (string * float));
  scalar_components : option (list (string * float));
  diff_size : option DiffSize;
}.

(** [diff_complexity] of [src/zicato/scoring/diff_complexity.py]. *)
Definition diff_complexity (d : option DiffSize) : float :=
  match d with
  | None => f0
  | Some d => float_of_Z (added d + removed d + patch_count d)
  end.

Definition NAMESPACE_MONOTONICITY_TOLERANCE : float := 0%float.
Definition PASS_RATE_MONOTONICITY_TOLERANCE : float := 1e-9%float.
Definition PER_ENTRY_SCORE_MONOTONICITY_TOLERANCE : float := 0.02%float.
Definition ATTRIBUTABLE_DRIFT_RATIO : float := 2%float.
Definition ATTRIBUTABLE_DRIFT_ABSOLUTE : float := 0.05%float.

Definition effective_holdout_margin (w : ScoringWeights) : float :=
  match holdout_margin w with None => promote_margin w | Some m => m end.

(** ** Rule rows and outcomes *)

Inductive RuleStatus :=
  | st_not_reached | st_disabled | st_skipped | st_unknown | st_pass | st_fail.

Record RuleRow := {
  rule_id : string;
  rule_label : string;
  rule_status : RuleStatus;
  rule_detail : string;
  rule_fired : bool;
}.

Record Explanation := {
  ex_decision : TournamentDecision;
  ex_reason : string;
  deciding_rule : option string;
  ex_rules : list RuleRow;
  ex_margin : float;
  champion_scalar : float;
  challenger_scalar : float;
  ex_delta_scalar : float;
  ex_delta_pass_rate : float;
  regressed_predicate : option string;
  regressed_namespace : option string;
}.

Record GateOutcome := {
  decision : TournamentDecision;
  reason : string;
  delta_scalar : float;
  delta_pass_rate : float;
  attributable_regressions : list string;
  explanation : option Explanation;
}.

(** ** Per-namespace monotonicity *)

(** The body of the loop of [regressed_namespaces] on one namespace. *)
Definition namespace_regressed (parent_ns child_ns : list (string * float))
    (w : ScoringWeights) (item : string * bool) : bool :=
  let '(ns, enabled) := item in
  if negb enabled then false
  else if feq (dict_get_or (namespace_weights w) ns f0) f0 then false
  else match dict_get parent_ns ns, dict_get child_ns ns with
       | Some parent_val, Some child_val =>
           if negb (isfinite parent_val) || negb (isfinite child_val) then true
           else flt (fadd parent_val NAMESPACE_MONOTONICITY_TOLERANCE) child_val
       | _, _ => false
       end.

Definition regressed_namespaces (parent_agg child_agg : Aggregate) (w : ScoringWeights)
    : list string :=
  let parent_ns := from_option id [] (namespace_aggregates parent_agg) in
  let child_ns := from_option id [] (namespace_aggregates child_agg) in
  sorted_strings
    (List.filter (namespace_regressed parent_ns child_ns w) (namespace_monotonicity w)).*1.

(** ** Per-entry rows *)

(** One row's outcome in [[0, 1]]: an explicit score clamped, a non-finite score
    a miss, the pass bit otherwise. *)
Definition _row_score (row : option Row) : option float :=
  match row with
  | None => None
  | Some row =>
      match row_score row with
      | Some value =>
          if negb (feq value value) || feq value finf || feq value (fneg finf) then Some f0
          else if flt value f0 then Some f0
          else if flt f1 value then Some f1
          else Some value
      | None =>
          match row_pass_fail row with
          | None => None
          | Some pf => Some (if pf then f1 else f0)
          end
      end
  end.

Definition entry_regressed (child_agg : Aggregate) (item : string * Row) : bool :=
  let '(entry_id, parent_row) := item in
  match _row_score (Some parent_row) with
  | None => false
  | Some parent_score =>
      let effective_child :=
        from_option id f0 (_row_score (dict_get (per_entry child_agg) entry_id)) in
      flt effective_child (fsub parent_score PER_ENTRY_SCORE_MONOTONICITY_TOLERANCE)
  end.

Definition _regressed_entries (parent_agg child_agg : Aggregate) : list string :=
  sorted_strings (List.filter (entry_regressed child_agg) (per_entry parent_agg)).*1.

Definition _row_drift (row : option Row) : option float :=
  match row with
  | None => None
  | Some row =>
      match row_drift_loss row with
      | None => None
      | Some drift => if is_nan drift then None else Some drift
      end
  end.

Definition drift_regressed (child_agg : Aggregate) (item : string * Row) : bool :=
  let '(entry_id, parent_row) := item in
  match _row_drift (Some parent_row), _row_drift (dict_get (per_entry child_agg) entry_id) with
  | Some parent_drift, Some child_drift =>
      let band := fmax (fmul ATTRIBUTABLE_DRIFT_RATIO parent_drift)
                       (fadd parent_drift ATTRIBUTABLE_DRIFT_ABSOLUTE) in
      flt band child_drift
  | _, _ => false
  end.

Definition _drift_regressed_entries (parent_agg child_agg : Aggregate) : list string :=
  sorted_strings (List.filter (drift_regressed child_agg) (per_entry parent_agg)).*1.

Definition attributable_entry_regressions (parent_agg child_agg : Aggregate) : list string :=
  sorted_strings
    (list_union (_regressed_entries parent_agg child_agg)
                (_drift_regressed_entries parent_agg child_agg)).

Record RegressionDetail := {
  parent_score : option float;
  child_score : option float;
  parent_drift_loss : option float;
  child_drift_loss : option float;
}.

Definition attributable_regression_detail (parent_agg child_agg : Aggregate)
    : list (string * RegressionDetail) :=
  (fun entry_id =>
     (entry_id,
      {| parent_score := _row_score (dict_get (per_entry parent_agg) entry_id);
         child_score := _row_score (dict_get (per_entry child_agg) entry_id);
         parent_drift_loss := _row_drift (dict_get (per_entry parent_agg) entry_id);
         child_drift_loss := _row_drift (dict_get (per_entry child_agg) entry_id) |}))
  <$> attributable_entry_regressions parent_agg child_agg.

(** ** Evidence checks and reasons *)

Definition _mean_score (agg : Aggregate) : float :=
  match mean_score agg with
  | Some m => m
  | None => from_option id f1 (pass_rate agg)
  end.

(** [""] when every named number is finite. *)
Definition _nonfinite_evidence (named : list (string * float)) : string :=
  match (List.filter (fun item => negb (isfinite item.2)) named).*1 with
  | [] => ""
  | bad => "invalid evidence: " +:+ py_join ", " bad +:+ " must be finite"
  end.

Definition _component (agg : Aggregate) (name : string) : float :=
  match scalar_components agg with
  | None => f0
  | Some components => from_option id f0 (dict_get components name)
  end.

Definition diff_size_evidence (parent_agg child_agg : Aggregate) : list string :=
  let line side agg :=
    match diff_size agg with
    | None => []
    | Some ds =>
        ["diff_size:" +:+ side +:+ ":added=" +:+ pretty (added ds) +:+ ",removed="
         +:+ pretty (removed ds) +:+ ",patches=" +:+ pretty (patch_count ds)]
    end in
  line "champion" parent_agg ++ line "challenger" child_agg.

Section Formatted.
Context `{PyFormat}.

Definition _namespace_regression_reason (parent_agg child_agg : Aggregate)
    (regressed : list string) : string :=
  let parent_ns := from_option id [] (namespace_aggregates parent_agg) in
  let child_ns := from_option id [] (namespace_aggregates child_agg) in
  let part ns :=
    ns +:+ " (champion " +:+ fmt_fixed 6 (dict_get_or parent_ns ns f0) +:+ " -> challenger "
    +:+ fmt_fixed 6 (dict_get_or child_ns ns f0) +:+ ")" in
  "monotonicity_regression on namespace=" +:+ py_join ", " (part <$> regressed)
  +:+ "; a promotion needs each flagged namespace to stay at or below the "
  +:+ "champion's weighted aggregate (tolerance "
  +:+ fmt_general NAMESPACE_MONOTONICITY_TOLERANCE +:+ ")".

(** [""] when the pass-rate rule allows the duel. *)
Definition _pass_rate_regression_reason (parent_agg child_agg : Aggregate)
    (w : ScoringWeights) (prefix : string) (entry_budget : Z) : string :=
  match pass_rate_monotonicity_scope w with
  | aggregate_scope =>
      let parent_pass := _mean_score parent_agg in
      let child_pass := _mean_score child_agg in
      let delta := fsub child_pass parent_pass in
      let scored :=
        count (fun row => bool_decide (is_Some (_row_score (Some row))))
              (per_entry parent_agg).*2 in
      let budget_band :=
        match entry_budget, scored with
        | Zpos budget, S n => int_truediv budget (Pos.of_succ_nat n)
        | _, _ => f0
        end in
      if flt delta (fneg (fadd PASS_RATE_MONOTONICITY_TOLERANCE budget_band))
      then prefix +:+ "pass-rate regression: overall pass-rate fell by "
           +:+ fmt_fixed 6 (fneg delta) +:+ " (champion " +:+ fmt_fixed 6 parent_pass
           +:+ " -> challenger " +:+ fmt_fixed 6 child_pass +:+ ")"
      else ""
  | per_entry_scope =>
      let regressed := _regressed_entries parent_agg child_agg in
      let regressed :=
        if (Z.of_nat (length regressed) <=? entry_budget)%Z then [] else regressed in
      match regressed with
      | [] => ""
      | _ => prefix +:+ "pass-rate regression on entries: " +:+ py_join ", " regressed
      end
  end.

(** [""] when the holdout confirms the win. *)
Definition _holdout_confirms (holdout_parent_agg holdout_child_agg : Aggregate)
    (w : ScoringWeights) : result string :=
  match incomplete_entries holdout_parent_agg, incomplete_entries holdout_child_agg with
  | [], [] =>
      let margin := effective_holdout_margin w in
      match scalar holdout_parent_agg, scalar holdout_child_agg with
      | Some parent_scalar, Some child_scalar =>
          let invalid :=
            _nonfinite_evidence
              [("holdout champion scalar", parent_scalar);
               ("holdout challenger scalar", child_scalar);
               ("holdout champion mean_score", _mean_score holdout_parent_agg);
               ("holdout challenger mean_score", _mean_score holdout_child_agg)] in
          if negb (String.eqb invalid "") then Ok ("holdout_not_confirmed: " +:+ invalid)
          else if flt margin (fsub child_scalar parent_scalar)
          then Ok ("holdout_not_confirmed: holdout loss rose by "
                   +:+ fmt_fixed 6 (fsub child_scalar parent_scalar) +:+ " (champion "
                   +:+ fmt_fixed 6 parent_scalar +:+ " -> challenger "
                   +:+ fmt_fixed 6 child_scalar
                   +:+ "); a train-measured win must hold within "
                   +:+ fmt_fixed 6 margin +:+ " on the holdout slice")
          else if pass_rate_monotonicity w
          then Ok (_pass_rate_regression_reason holdout_parent_agg holdout_child_agg w
                     "holdout_not_confirmed: holdout " (holdout_entry_regression_budget w))
          else Ok ""
      | _, _ => Raise (KeyError "scalar")
      end
  | _, _ => Ok "holdout_not_confirmed: incomplete execution of requested board units"
  end.

Definition holdout_confirms := _holdout_confirms.

Definition _parsimony_decomposition (parent_agg child_agg : Aggregate) (w : ScoringWeights)
    (delta : float) : string :=
  let toll_delta :=
    fsub (_component child_agg "diff_complexity") (_component parent_agg "diff_complexity") in
  if fle toll_delta f0 then ""
  else
    let raw_delta := fsub delta toll_delta in
    let parts :=
      ["diff_complexity: raw quality delta " +:+ fmt_fixed_signed 6 raw_delta +:+ ", toll "
       +:+ fmt_fixed_signed 6 toll_delta]
      ++ (if fle raw_delta (fneg (promote_margin w))
          then ["the raw delta alone would have cleared the promote margin"] else [])
      ++ diff_size_evidence parent_agg child_agg in
    " [" +:+ py_join "; " parts +:+ "]".
End Formatted.

(** ** The gate *)

(** [rule(name, label, enabled)] *)
Definition rule (name label : string) (enabled : bool) : RuleRow :=
  {| rule_id := name;
     rule_label := label;
     rule_status := if enabled then st_not_reached else st_disabled;
     rule_detail := if enabled then "" else "disabled";
     rule_fired := false |}.

(** [row.update(status=..., detail=...)] *)
Definition rule_update (status : RuleStatus) (detail : string) (r : RuleRow) : RuleRow :=
  {| rule_id := rule_id r; rule_label := rule_label r; rule_status := status;
     rule_detail := detail; rule_fired := rule_fired r |}.

(** The list [rules] and the variable [active_rule] may hold the same dictionary:
    an update of the active row is an update of the listed row with its id. *)
Definition listed (r : RuleRow) (rules : list RuleRow) : bool :=
  existsb (fun r' => String.eqb (rule_id r') (rule_id r)) rules.

Definition replace_rule (r : RuleRow) (rules : list RuleRow) : list RuleRow :=
  (fun r' => if String.eqb (rule_id r') (rule_id r) then r else r') <$> rules.

Definition or_else (a b : string) : string := if String.eqb a "" then b else a.

(** What [evaluate_gate] has computed when it decides. *)
Record Evidence := {
  ev_parent : Aggregate;
  ev_child : Aggregate;
  ev_weights : ScoringWeights;
  ev_parent_scalar : float;
  ev_child_scalar : float;
  ev_delta_scalar : float;
  ev_delta_pass_rate : float;
}.

(** The detail of the rows no rule reached, which [finish] writes last. *)
Definition mark_not_reached (item : RuleRow) : RuleRow :=
  match rule_status item with
  | st_not_reached => rule_update st_not_reached "not reached (an earlier rule fired)" item
  | _ => item
  end.

(** The nested function [finish]. *)
Definition finish (ev : Evidence) (rules : list RuleRow) (active : RuleRow)
    (d : TournamentDecision) (why : string) (attributable : list string) : GateOutcome :=
  let rules :=
    if promoted d then rules
    else
      let fired := {| rule_id := rule_id active; rule_label := rule_label active;
                      rule_status := st_fail; rule_detail := or_else (rule_detail active) why;
                      rule_fired := true |} in
      if listed fired rules then replace_rule fired rules else fired :: rules in
  let rules := mark_not_reached <$> rules in
  let deciding := if promoted d then None else Some (rule_id active) in
  let regressed_entries :=
    if bool_decide (deciding = Some "pass_rate_monotonicity")
    then _regressed_entries (ev_parent ev) (ev_child ev) else [] in
  let regressed_ns :=
    if bool_decide (deciding = Some "namespace_monotonicity")
    then regressed_namespaces (ev_parent ev) (ev_child ev) (ev_weights ev) else [] in
  {| decision := d;
     reason := why;
     delta_scalar := ev_delta_scalar ev;
     delta_pass_rate := ev_delta_pass_rate ev;
     attributable_regressions := attributable;
     explanation :=
       Some {| ex_decision := d;
               ex_reason := why;
               deciding_rule := deciding;
               ex_rules := rules;
               ex_margin := promote_margin (ev_weights ev);
               champion_scalar := ev_parent_scalar ev;
               challenger_scalar := ev_child_scalar ev;
               ex_delta_scalar := ev_delta_scalar ev;
               ex_delta_pass_rate := ev_delta_pass_rate ev;
               regressed_predicate := head regressed_entries;
               regressed_namespace := head regressed_ns |} |}.

(** The label of the first aggregate with unstarted board units. *)
Definition first_incomplete (labelled : list (string * option Aggregate)) : option string :=
  fst <$> find_first
    (fun item => match item.2 with
                 | Some agg => match incomplete_entries agg with [] => false | _ => true end
                 | None => false
                 end) labelled.

(** Whether Rule 0 vetoes the edit, with the measured complexity. *)
Definition over_ceiling (child_agg : Aggregate) (ceiling : float) : option float :=
  match diff_size child_agg with
  | None => None
  | Some d =>
      let complexity := diff_complexity (Some d) in
      if flt ceiling complexity then Some complexity else None
  end.

Section EvaluateGate.
Context `{PyFormat}.

(** Rule 1's reason when the scalar margin is not cleared. *)
Definition scalar_margin_reason (parent_agg child_agg : Aggregate) (w : ScoringWeights)
    (parent_scalar child_scalar delta : float) : string :=
  (if flt f0 delta
   then "challenger regressed: loss rose by " +:+ fmt_fixed 6 delta +:+ " (champion "
        +:+ fmt_fixed 6 parent_scalar +:+ " -> challenger " +:+ fmt_fixed 6 child_scalar
        +:+ "); a promotion needs the loss to drop by at least "
        +:+ fmt_fixed 6 (promote_margin w)
   else "insufficient improvement: loss fell by only " +:+ fmt_fixed 6 (fneg delta)
        +:+ " (champion " +:+ fmt_fixed 6 parent_scalar +:+ " -> challenger "
        +:+ fmt_fixed 6 child_scalar +:+ "); a promotion needs a drop of at least "
        +:+ fmt_fixed 6 (promote_margin w))
  +:+ _parsimony_decomposition parent_agg child_agg w delta.

Definition ceiling_reason (complexity ceiling : float) : string :=
  "diff_complexity_ceiling: diff complexity " +:+ fmt_general complexity
  +:+ " exceeds ceiling " +:+ fmt_general ceiling.

(** Holdout confirmation and the promotion itself, once the train rules
    cleared ([evaluate_gate] from "Holdout confirmation" on). *)
Definition gate_holdout (ev : Evidence) (rules : list RuleRow) (active : RuleRow)
    (holdout_parent_agg holdout_child_agg : option Aggregate) (attributable : list string)
    : result GateOutcome :=
  match holdout_parent_agg, holdout_child_agg with
  | Some hp, Some hc =>
      let active := rule "holdout_confirmation" "Holdout confirmation" true in
      try holdout_reason <- _holdout_confirms hp hc (ev_weights ev);
      if negb (String.eqb holdout_reason "")
      then Ok (finish ev (rules ++ [active]) active REJECTED holdout_reason attributable)
      else
        let active := rule_update st_pass "confirmed" active in
        Ok (finish ev (rules ++ [active]) active PROMOTED "" attributable)
  | _, _ => Ok (finish ev rules active PROMOTED "" attributable)
  end.

(** Rule 3 and everything after it. *)
Definition gate_namespaces (ev : Evidence) (rules : list RuleRow) (namespace_rule : RuleRow)
    (holdout_parent_agg holdout_child_agg : option Aggregate) (attributable : list string)
    : result GateOutcome :=
  let regressed_ns := regressed_namespaces (ev_parent ev) (ev_child ev) (ev_weights ev) in
  match regressed_ns with
  | _ :: _ =>
      Ok (finish ev rules namespace_rule REJECTED
            (_namespace_regression_reason (ev_parent ev) (ev_child ev) regressed_ns)
            attributable)
  | [] =>
      let namespace_rule :=
        match rule_status namespace_rule with
        | st_disabled => namespace_rule
        | _ =>
            match namespace_aggregates (ev_child ev) with
            | Some _ => rule_update st_pass "all within bounds" namespace_rule
            | None => rule_update st_unknown "namespace aggregates not recorded" namespace_rule
            end
        end in
      gate_holdout ev (replace_rule namespace_rule rules) namespace_rule
        holdout_parent_agg holdout_child_agg attributable
  end.

(** Rule 2 and everything after it. *)
Definition gate_pass_rate (ev : Evidence) (rules : list RuleRow)
    (pass_rule namespace_rule : RuleRow)
    (holdout_parent_agg holdout_child_agg : option Aggregate) (attributable : list string)
    : result GateOutcome :=
  let w := ev_weights ev in
  if pass_rate_monotonicity w then
    let pass_rule :=
      match pass_rate_monotonicity_scope w with
      | aggregate_scope =>
          let parent_score := _mean_score (ev_parent ev) in
          let child_score := _mean_score (ev_child ev) in
          rule_update (rule_status pass_rule)
            ("overall " +:+ fmt_fixed 2 parent_score +:+ " → " +:+ fmt_fixed 2 child_score
             +:+ " (" +:+ fmt_fixed_signed 2 (fsub child_score parent_score)
             +:+ "; aggregate scope)") pass_rule
      | per_entry_scope => pass_rule
      end in
    let pass_reason := _pass_rate_regression_reason (ev_parent ev) (ev_child ev) w "" 0 in
    if negb (String.eqb pass_reason "")
    then Ok (finish ev (replace_rule pass_rule rules) pass_rule REJECTED pass_reason attributable)
    else
      let pass_rule :=
        rule_update st_pass (or_else (rule_detail pass_rule) "all preserved") pass_rule in
      gate_namespaces ev (replace_rule pass_rule rules) namespace_rule
        holdout_parent_agg holdout_child_agg attributable
  else gate_namespaces ev rules namespace_rule holdout_parent_agg holdout_child_agg attributable.

(** Rule 1 and everything after it. *)
Definition gate_scalar (ev : Evidence) (rules : list RuleRow)
    (scalar_rule pass_rule namespace_rule : RuleRow)
    (holdout_parent_agg holdout_child_agg : option Aggregate) (attributable : list string)
    : result GateOutcome :=
  let w := ev_weights ev in
  let scalar_rule :=
    rule_update st_pass
      (fmt_fixed 2 (ev_parent_scalar ev) +:+ " → " +:+ fmt_fixed 2 (ev_child_scalar ev) +:+ " ("
       +:+ fmt_fixed_signed 2 (ev_delta_scalar ev) +:+ "; needs ≤ "
       +:+ fmt_fixed 2 (fneg (promote_margin w)) +:+ ")") scalar_rule in
  let rules := replace_rule scalar_rule rules in
  if flt (fsub (ev_parent_scalar ev) (promote_margin w)) (ev_child_scalar ev)
  then Ok (finish ev rules scalar_rule REJECTED
             (scalar_margin_reason (ev_parent ev) (ev_child ev) w (ev_parent_scalar ev)
                (ev_child_scalar ev) (ev_delta_scalar ev)) attributable)
  else gate_pass_rate ev rules pass_rule namespace_rule
         holdout_parent_agg holdout_child_agg attributable.

(** Rule 0 and everything after it. *)
Definition gate_ceiling (ev : Evidence) (rules : list RuleRow)
    (scalar_rule pass_rule namespace_rule : RuleRow)
    (holdout_parent_agg holdout_child_agg : option Aggregate) (attributable : list string)
    : result GateOutcome :=
  let ceiling := diff_complexity_ceiling (ev_weights ev) in
  if flt f0 ceiling then
    let active := rule "diff_complexity_ceiling" "Edit complexity limit" true in
    match over_ceiling (ev_child ev) ceiling with
    | Some complexity =>
        Ok (finish ev (active :: rules) active REJECTED (ceiling_reason complexity ceiling)
              attributable)
    | None =>
        let active :=
          match diff_size (ev_child ev) with
          | Some _ => rule_update st_pass "within limit" active
          | None => rule_update st_unknown "edit complexity not recorded" active
          end in
        gate_scalar ev (active :: rules) scalar_rule pass_rule namespace_rule
          holdout_parent_agg holdout_child_agg attributable
    end
  else gate_scalar ev rules scalar_rule pass_rule namespace_rule
         holdout_parent_agg holdout_child_agg attributable.

Definition evaluate_gate (parent_agg child_agg : Aggregate) (w : ScoringWeights)
    (holdout_parent_agg holdout_child_agg : option Aggregate) : result GateOutcome :=
  let scalar_rule := rule "scalar_margin" "Scalar margin" true in
  let pass_rule :=
    rule "pass_rate_monotonicity" "Pass-rate monotonicity" (pass_rate_monotonicity w) in
  let namespace_rule :=
    rule "namespace_monotonicity" "Namespace monotonicity"
      (existsb (fun '(namespace, enabled) =>
                  enabled && negb (feq (dict_get_or (namespace_weights w) namespace f0) f0))
               (namespace_monotonicity w)) in
  let regression_rule :=
    rule "regression_suite" "Regression suite" (regression_gate_enabled w) in
  let regression_rule :=
    if regression_gate_enabled w
    then rule_update st_unknown "regression suite has not been run" regression_rule
    else rule_update st_skipped (rule_detail regression_rule) regression_rule in
  let rules := [regression_rule; scalar_rule; pass_rule; namespace_rule] in
  match scalar parent_agg, scalar child_agg with
  | Some parent_scalar, Some child_scalar =>
      let parent_pass := from_option id f1 (pass_rate parent_agg) in
      let child_pass := from_option id f1 (pass_rate child_agg) in
      let ev := {| ev_parent := parent_agg; ev_child := child_agg; ev_weights := w;
                   ev_parent_scalar := parent_scalar; ev_child_scalar := child_scalar;
                   ev_delta_scalar := fsub child_scalar parent_scalar;
                   ev_delta_pass_rate := fsub child_pass parent_pass |} in
      match first_incomplete [("champion", Some parent_agg); ("challenger", Some child_agg);
                              ("holdout champion", holdout_parent_agg);
                              ("holdout challenger", holdout_child_agg)] with
      | Some label =>
          Ok (finish ev rules (rule "complete_execution" "Complete execution" true) DEFERRED
                ("incomplete execution: " +:+ label +:+ " has unstarted board units") [])
      | None =>
          let attributable := attributable_entry_regressions parent_agg child_agg in
          let invalid :=
            _nonfinite_evidence
              [("champion scalar", parent_scalar); ("challenger scalar", child_scalar);
               ("champion mean_score", _mean_score parent_agg);
               ("challenger mean_score", _mean_score child_agg)] in
          if negb (String.eqb invalid "")
          then Ok (finish ev rules (rule "finite_evidence" "Finite scores" true) REJECTED
                     invalid attributable)
          else gate_ceiling ev rules scalar_rule pass_rule namespace_rule
                 holdout_parent_agg holdout_child_agg attributable
      end
  | _, _ => Raise (KeyError "scalar")
  end.
End EvaluateGate.
