(* ===== verification/GateSpec.v ===== *)
(** What the promote gate decides, stated without the order of its checks, and
    the proof that [Gate.evaluate_gate] decides exactly that.

    The specification is a boolean table over the aggregates: the evidence is
    complete and finite, the edit is within its ceiling, the loss dropped by the
    margin, no tracked entry and no tracked namespace regressed, and the holdout
    confirms.  [decision_refines_spec] is the refinement; the other theorems are
    its consequences for a promotion, for a non-finite number, for the holdout
    and for the explanation block. *)

From S2P Require Import Prelude PyFloat PyJson CoreTypes Gate.

(** ** Specification *)

Definition complete (agg : Aggregate) : bool :=
  match incomplete_entries agg with [] => true | _ => false end.

Definition option_all {A} (p : A -> bool) (o : option A) : bool :=
  match o with Some a => p a | None => true end.

Definition all_complete (p c : Aggregate) (hp hc : option Aggregate) : bool :=
  complete p && complete c && option_all complete hp && option_all complete hc.

Definition scalar_or_0 (agg : Aggregate) : float := from_option id f0 (scalar agg).

(** Both numbers a rule compares are finite. *)
Definition finite_evidence (p c : Aggregate) : bool :=
  isfinite (scalar_or_0 p) && isfinite (scalar_or_0 c)
  && isfinite (_mean_score p) && isfinite (_mean_score c).

Definition within_ceiling (c : Aggregate) (w : ScoringWeights) : bool :=
  negb (flt f0 (diff_complexity_ceiling w))
  || match diff_size c with
     | None => true
     | Some d => negb (flt (diff_complexity_ceiling w) (diff_complexity (Some d)))
     end.

Definition clears_margin (p c : Aggregate) (w : ScoringWeights) : bool :=
  negb (flt (fsub (scalar_or_0 p) (promote_margin w)) (scalar_or_0 c)).

(** The band a budget of entries is worth under the aggregate scope. *)
Definition budget_band (p : Aggregate) (budget : Z) : float :=
  match budget,
        count (fun row => bool_decide (is_Some (_row_score (Some row)))) (per_entry p).*2 with
  | Zpos b, S n => int_truediv b (Pos.of_succ_nat n)
  | _, _ => f0
  end.

Definition pass_rate_holds (p c : Aggregate) (w : ScoringWeights) (budget : Z) : bool :=
  match pass_rate_monotonicity_scope w with
  | aggregate_scope =>
      negb (flt (fsub (_mean_score c) (_mean_score p))
                (fneg (fadd PASS_RATE_MONOTONICITY_TOLERANCE (budget_band p budget))))
  | per_entry_scope =>
      let regressed := count (entry_regressed c) (per_entry p) in
      (Z.of_nat regressed <=? budget)%Z || (regressed =? 0)
  end.

Definition pass_rule_clear (p c : Aggregate) (w : ScoringWeights) (budget : Z) : bool :=
  negb (pass_rate_monotonicity w) || pass_rate_holds p c w budget.

Definition namespaces_hold (p c : Aggregate) (w : ScoringWeights) : bool :=
  forallb (fun item =>
             negb (namespace_regressed (from_option id [] (namespace_aggregates p))
                     (from_option id [] (namespace_aggregates c)) w item))
          (namespace_monotonicity w).

Definition holdout_holds (hp hc : Aggregate) (w : ScoringWeights) : bool :=
  complete hp && complete hc && finite_evidence hp hc
  && negb (flt (effective_holdout_margin w) (fsub (scalar_or_0 hc) (scalar_or_0 hp)))
  && pass_rule_clear hp hc w (holdout_entry_regression_budget w).

Definition train_rules_clear (p c : Aggregate) (w : ScoringWeights) : bool :=
  finite_evidence p c && within_ceiling c w && clears_margin p c w
  && pass_rule_clear p c w 0 && namespaces_hold p c w.

Definition holdout_clear (hp hc : option Aggregate) (w : ScoringWeights) : bool :=
  match hp, hc with Some hp, Some hc => holdout_holds hp hc w | _, _ => true end.

Definition gate_spec (p c : Aggregate) (w : ScoringWeights) (hp hc : option Aggregate)
    : TournamentDecision :=
  if negb (all_complete p c hp hc) then DEFERRED
  else if train_rules_clear p c w && holdout_clear hp hc w then PROMOTED
  else REJECTED.

(** The scalars the gate reads with [agg["scalar"]]. *)
Definition has_scalar (agg : Aggregate) : bool := bool_decide (is_Some (scalar agg)).

(** ** From reason strings to the table *)

Lemma str_app_empty a b : (a +:+ b = "") <-> a = "" /\ b = "".
Proof. destruct a; cbn; naive_solver. Qed.

Lemma nonfinite_evidence_empty named :
  String.eqb (_nonfinite_evidence named) "" = forallb (fun item => isfinite item.2) named.
Proof.
  unfold _nonfinite_evidence. induction named as [|[n x] named IH]; [done|]. cbn.
  destruct (isfinite x); cbn; [exact IH|done].
Qed.

Lemma count_filter_nil {A} (p : A -> bool) l : count p l = 0 <-> List.filter p l = [].
Proof. unfold count. split; [apply nil_length_inv|by intros ->]. Qed.

Lemma length_regressed_entries p c :
  length (_regressed_entries p c) = count (entry_regressed c) (per_entry p).
Proof. unfold _regressed_entries, sorted_strings. by rewrite length_py_sorted, length_fmap. Qed.

Section Refinement.
Context `{PyFormat}.

Lemma pass_rate_reason_empty p c w prefix budget :
  String.eqb (_pass_rate_regression_reason p c w prefix budget) ""
  = pass_rate_holds p c w budget.
Proof.
  unfold _pass_rate_regression_reason, pass_rate_holds, budget_band.
  destruct (pass_rate_monotonicity_scope w).
  - rewrite <-length_regressed_entries.
    destruct (_ <=? budget)%Z; [done|].
    destruct (_regressed_entries p c); [done|]. cbn [length Nat.eqb orb].
    apply String.eqb_neq. rewrite !str_app_empty. by intros (_ & ? & _).
  - destruct (flt _ _) eqn:E; [|done]. cbn.
    apply String.eqb_neq. rewrite !str_app_empty. by intros (_ & ? & _).
Qed.

Lemma regressed_namespaces_nil p c w :
  regressed_namespaces p c w = [] <-> namespaces_hold p c w = true.
Proof.
  unfold regressed_namespaces, namespaces_hold, sorted_strings.
  rewrite forallb_forall. split.
  - intros E%py_sorted_nil x Hx. apply fmap_nil_inv in E. apply negb_true_iff, not_true_iff_false.
    intros Hr.
    assert (In x (List.filter (namespace_regressed
      (from_option id [] (namespace_aggregates p))
      (from_option id [] (namespace_aggregates c)) w) (namespace_monotonicity w))) as Hin
      by (by apply filter_In).
    by rewrite E in Hin.
  - intros Hall. replace (List.filter _ _) with (@nil (string * bool)); [done|].
    symmetry. destruct (List.filter _ _) as [|x l] eqn:E; [done|].
    assert (In x (x :: l)) as Hx by (by left). rewrite <-E in Hx.
    apply filter_In in Hx as [Hx Hr]. apply Hall in Hx. by rewrite Hr in Hx.
Qed.

Lemma holdout_confirms_spec hp hc w why :
  _holdout_confirms hp hc w = Ok why -> String.eqb why "" = holdout_holds hp hc w.
Proof.
  unfold _holdout_confirms, holdout_holds, complete, finite_evidence, scalar_or_0.
  destruct (incomplete_entries hp); [|by intros [= <-]].
  destruct (incomplete_entries hc); [|by intros [= <-]].
  destruct (scalar hp) as [ps|], (scalar hc) as [cs|]; try done.
  rewrite nonfinite_evidence_empty. cbn [forallb snd from_option id andb].
  rewrite andb_true_r, <-!andb_assoc.
  destruct (isfinite ps && _) eqn:Efin; cbn [negb].
  2: { intros [= <-]. cbn.
    symmetry. apply not_true_iff_false. rewrite !andb_true_iff.
    rewrite !andb_false_iff in Efin. naive_solver congruence. }
  rewrite !andb_true_iff in Efin. destruct Efin as (-> & -> & -> & ->).
  cbn [andb]. destruct (flt _ _); cbn [negb andb].
  { by intros [= <-]. }
  unfold pass_rule_clear. destruct (pass_rate_monotonicity w); intros [= <-]; cbn.
  - apply pass_rate_reason_empty.
  - done.
Qed.

(** The gate decides what the table says, and its reason is empty exactly on a
    promotion. *)
Lemma gate_holdout_spec ev rules active hp hc attributable o :
  gate_holdout ev rules active hp hc attributable = Ok o ->
  decision o = (if holdout_clear hp hc (ev_weights ev) then PROMOTED else REJECTED).
Proof.
  unfold gate_holdout, holdout_clear.
  destruct hp as [hp|], hc as [hc|]; try (by intros [= <-]).
  intros (why & Hwhy & Hk)%result_bind_ok. apply holdout_confirms_spec in Hwhy.
  rewrite <-Hwhy. by destruct (String.eqb why ""); injection Hk as <-.
Qed.

Lemma gate_namespaces_spec ev rules nr hp hc attributable o :
  gate_namespaces ev rules nr hp hc attributable = Ok o ->
  decision o
  = (if namespaces_hold (ev_parent ev) (ev_child ev) (ev_weights ev)
        && holdout_clear hp hc (ev_weights ev) then PROMOTED else REJECTED).
Proof.
  unfold gate_namespaces. destruct (regressed_namespaces _ _ _) eqn:E.
  - apply regressed_namespaces_nil in E as ->. apply gate_holdout_spec.
  - assert (namespaces_hold (ev_parent ev) (ev_child ev) (ev_weights ev) = false) as ->.
    { apply not_true_iff_false. intros Hc%regressed_namespaces_nil. congruence. }
    by intros [= <-].
Qed.

Lemma gate_pass_rate_spec ev rules pr nr hp hc attributable o :
  gate_pass_rate ev rules pr nr hp hc attributable = Ok o ->
  decision o
  = (if pass_rule_clear (ev_parent ev) (ev_child ev) (ev_weights ev) 0
        && namespaces_hold (ev_parent ev) (ev_child ev) (ev_weights ev)
        && holdout_clear hp hc (ev_weights ev) then PROMOTED else REJECTED).
Proof.
  unfold gate_pass_rate, pass_rule_clear. rewrite <-andb_assoc.
  destruct (pass_rate_monotonicity (ev_weights ev)); cbn [negb orb].
  - rewrite <-(pass_rate_reason_empty _ _ _ "" 0).
    destruct (String.eqb _ ""); cbn [negb andb]; [apply gate_namespaces_spec|].
    by intros [= <-].
  - apply gate_namespaces_spec.
Qed.

Lemma gate_scalar_spec ev rules sr pr nr hp hc attributable o :
  gate_scalar ev rules sr pr nr hp hc attributable = Ok o ->
  decision o
  = (if negb (flt (fsub (ev_parent_scalar ev) (promote_margin (ev_weights ev)))
                  (ev_child_scalar ev))
        && pass_rule_clear (ev_parent ev) (ev_child ev) (ev_weights ev) 0
        && namespaces_hold (ev_parent ev) (ev_child ev) (ev_weights ev)
        && holdout_clear hp hc (ev_weights ev) then PROMOTED else REJECTED).
Proof.
  unfold gate_scalar. rewrite <-!andb_assoc.
  destruct (flt _ _); cbn [negb andb]; [by intros [= <-]|].
  rewrite andb_assoc. apply gate_pass_rate_spec.
Qed.

Lemma gate_ceiling_spec ev rules sr pr nr hp hc attributable o :
  gate_ceiling ev rules sr pr nr hp hc attributable = Ok o ->
  decision o
  = (if within_ceiling (ev_child ev) (ev_weights ev)
        && negb (flt (fsub (ev_parent_scalar ev) (promote_margin (ev_weights ev)))
                     (ev_child_scalar ev))
        && pass_rule_clear (ev_parent ev) (ev_child ev) (ev_weights ev) 0
        && namespaces_hold (ev_parent ev) (ev_child ev) (ev_weights ev)
        && holdout_clear hp hc (ev_weights ev) then PROMOTED else REJECTED).
Proof.
  unfold gate_ceiling, within_ceiling, over_ceiling.
  destruct (flt f0 _); cbn [negb orb]; [|apply gate_scalar_spec].
  destruct (diff_size (ev_child ev)); [|apply gate_scalar_spec].
  destruct (flt _ _); [by intros [= <-]|apply gate_scalar_spec].
Qed.

Lemma first_incomplete_None p c hp hc :
  first_incomplete [("champion", Some p); ("challenger", Some c);
                    ("holdout champion", hp); ("holdout challenger", hc)] = None
  <-> all_complete p c hp hc = true.
Proof.
  unfold first_incomplete, all_complete, complete, option_all, find_first. cbn.
  destruct (incomplete_entries p), (incomplete_entries c); cbn; try done.
  destruct hp as [hp|]; [destruct (incomplete_entries hp); cbn; try done|];
    (destruct hc as [hc|]; [destruct (incomplete_entries hc); done|done]).
Qed.

Lemma evaluate_gate_spec_aux p c w hp hc o :
  evaluate_gate p c w hp hc = Ok o -> decision o = gate_spec p c w hp hc.
Proof.
  unfold evaluate_gate, gate_spec, train_rules_clear, clears_margin, finite_evidence, scalar_or_0.
  destruct (scalar p) as [ps|], (scalar c) as [cs|]; try done. cbn [from_option id].
  destruct (first_incomplete _) as [label|] eqn:E.
  - assert (all_complete p c hp hc = false) as ->.
    { apply not_true_iff_false. intros Hc%first_incomplete_None. congruence. }
    by intros [= <-].
  - apply first_incomplete_None in E as ->. cbn [negb].
    rewrite nonfinite_evidence_empty. cbn [forallb snd]. rewrite andb_true_r, <-!andb_assoc.
    destruct (isfinite ps && _) eqn:Efin; cbn [negb].
    + rewrite !andb_true_iff in Efin. destruct Efin as (-> & -> & -> & ->). cbn [andb].
      intros Hk%gate_ceiling_spec. by rewrite <-!andb_assoc in Hk.
    + intros [= <-]. cbn. rewrite !andb_assoc. rewrite !andb_assoc in Efin. by rewrite Efin.
Qed.

(** C1.  The promote gate is a refinement of its decision table: whenever
    [evaluate_gate] returns, its verdict is the table's, so a challenger is
    promoted exactly when the evidence is complete and finite, the edit is within
    the ceiling, the loss dropped by the margin, the pass-rate and namespace rules
    hold and the holdout confirms; incomplete execution alone defers. *)
Theorem decision_refines_spec p c w hp hc o :
  evaluate_gate p c w hp hc = Ok o -> decision o = gate_spec p c w hp hc.
Proof. apply evaluate_gate_spec_aux. Qed.

Lemma holdout_confirms_total hp hc w :
  has_scalar hp = true -> has_scalar hc = true -> is_ok (_holdout_confirms hp hc w) = true.
Proof.
  unfold has_scalar, _holdout_confirms.
  intros [ps ->]%bool_decide_eq_true [cs ->]%bool_decide_eq_true.
  destruct (incomplete_entries hp), (incomplete_entries hc); try done.
  cbn [String.eqb]. destruct (negb _); [done|]. destruct (flt _ _); [done|].
  by destruct (pass_rate_monotonicity w).
Qed.

(** The gate returns whenever the aggregates it reads carry a scalar. *)
Lemma evaluate_gate_total p c w hp hc :
  has_scalar p = true -> has_scalar c = true ->
  option_all has_scalar hp = true -> option_all has_scalar hc = true ->
  is_ok (evaluate_gate p c w hp hc) = true.
Proof.
  unfold has_scalar. intros [ps Hp]%bool_decide_eq_true [cs Hc]%bool_decide_eq_true Hhp Hhc.
  assert (Hho : forall ev rules active att, is_ok (gate_holdout ev rules active hp hc att) = true).
  { intros. unfold gate_holdout. destruct hp as [hp|], hc as [hc|]; try done.
    pose proof (holdout_confirms_total hp hc (ev_weights ev) Hhp Hhc) as Hok.
    destruct (_holdout_confirms _ _ _); [|done]. cbn. by destruct (String.eqb _ ""). }
  assert (Hns : forall ev rules nr att, is_ok (gate_namespaces ev rules nr hp hc att) = true).
  { intros. unfold gate_namespaces. destruct (regressed_namespaces _ _ _); [apply Hho|done]. }
  assert (Hpr : forall ev rules pr nr att, is_ok (gate_pass_rate ev rules pr nr hp hc att) = true).
  { intros. unfold gate_pass_rate. destruct (pass_rate_monotonicity _); [|done].
    destruct (String.eqb _ ""); cbn [negb]; [apply Hns|done]. }
  assert (Hsc : forall ev rules sr pr nr att, is_ok (gate_scalar ev rules sr pr nr hp hc att) = true).
  { intros. unfold gate_scalar. destruct (flt _ _); [done|apply Hpr]. }
  unfold evaluate_gate. rewrite Hp, Hc.
  destruct (first_incomplete _); [done|]. destruct (String.eqb _ ""); [|done]. cbn [negb].
  unfold gate_ceiling. destruct (flt f0 _); [|apply Hsc].
  destruct (over_ceiling _ _); [done|apply Hsc].
Qed.
End Refinement.

(** ** The outcome's reason and explanation *)

Definition base_rule_ids : list string :=
  ["regression_suite"; "scalar_margin"; "pass_rate_monotonicity"; "namespace_monotonicity"].

(** The rows [evaluate_gate] may hold: the four rules, after the ceiling rule when
    the contract sets one, none of them fired yet. *)
Definition rules_ok (rules : list RuleRow) : Prop :=
  (rule_id <$> rules = base_rule_ids
   \/ rule_id <$> rules = "diff_complexity_ceiling" :: base_rule_ids)
  /\ Forall (fun r => rule_fired r = false) rules.

Lemma replace_rule_ids r rules : rule_id <$> replace_rule r rules = rule_id <$> rules.
Proof.
  unfold replace_rule. rewrite <-list_fmap_compose. apply list_fmap_ext. intros _ r' _. cbn.
  by destruct (String.eqb_spec (rule_id r') (rule_id r)).
Qed.

Lemma replace_rule_unfired r rules :
  rule_fired r = false -> Forall (fun r => rule_fired r = false) rules ->
  Forall (fun r => rule_fired r = false) (replace_rule r rules).
Proof.
  intros Hr Hf. unfold replace_rule. apply Forall_fmap. eapply Forall_impl; [done|].
  intros r' ?. cbn. by destruct (String.eqb _ _).
Qed.

Lemma replace_rule_ok r rules : rule_fired r = false -> rules_ok rules -> rules_ok (replace_rule r rules).
Proof. intros ? [Hids ?]. split; [by rewrite replace_rule_ids|by apply replace_rule_unfired]. Qed.

Lemma count_unfired rules :
  Forall (fun r => rule_fired r = false) rules -> count rule_fired rules = 0.
Proof.
  intros Hf. apply count_filter_nil. induction Hf as [|r rules Hr _ IH]; [done|]. cbn. by rewrite Hr.
Qed.

Lemma replace_rule_absent r rules : rule_id r ∉ (rule_id <$> rules) -> replace_rule r rules = rules.
Proof.
  unfold replace_rule. induction rules as [|r' rules IH]; [done|]. cbn.
  intros [Hne Hni]%not_elem_of_cons. destruct (String.eqb_spec (rule_id r') (rule_id r)); [congruence|].
  f_equal. by apply IH.
Qed.

Lemma replace_rule_cons r r' rules :
  replace_rule r (r' :: rules)
  = (if String.eqb (rule_id r') (rule_id r) then r else r') :: replace_rule r rules.
Proof. done. Qed.

Lemma count_cons {A} (p : A -> bool) x l :
  count p (x :: l) = if p x then S (count p l) else count p l.
Proof. unfold count. cbn. by destruct (p x). Qed.

(** Firing a listed row fires exactly that one. *)
Lemma count_replace_fired r rules :
  NoDup (rule_id <$> rules) -> Forall (fun r => rule_fired r = false) rules ->
  listed r rules = true -> rule_fired r = true -> count rule_fired (replace_rule r rules) = 1.
Proof.
  intros Hnd Hf Hl Hr. induction rules as [|r' rules IH]; [done|].
  rewrite fmap_cons in Hnd. apply NoDup_cons in Hnd as [Hni Hnd]. apply Forall_cons in Hf as [Hr' Hf].
  rewrite replace_rule_cons, count_cons. unfold listed in Hl. cbn in Hl.
  destruct (String.eqb_spec (rule_id r') (rule_id r)) as [Heq|Hne].
  - rewrite Hr, replace_rule_absent by congruence. by rewrite count_unfired.
  - rewrite Hr'. by apply IH.
Qed.

(** What every return of the gate has in common. *)
Record explained (o : GateOutcome) : Prop := {
  explained_reason : reason o = "" <-> decision o = PROMOTED;
  explained_block : exists e, explanation o = Some e
    /\ ex_decision e = decision o /\ ex_reason e = reason o
    /\ (deciding_rule e = None <-> decision o = PROMOTED)
    /\ count rule_fired (ex_rules e) = (if promoted (decision o) then 0 else 1)
    /\ Forall (fun r => rule_fired r = true -> deciding_rule e = Some (rule_id r)) (ex_rules e);
}.

Lemma mark_not_reached_row r :
  rule_fired (mark_not_reached r) = rule_fired r /\ rule_id (mark_not_reached r) = rule_id r.
Proof. unfold mark_not_reached. by destruct (rule_status r). Qed.

Lemma count_mark_not_reached rules :
  count rule_fired (mark_not_reached <$> rules) = count rule_fired rules.
Proof.
  induction rules as [|r rules IH]; [done|]. rewrite fmap_cons, !count_cons, IH.
  by destruct (mark_not_reached_row r) as [-> _].
Qed.

Lemma Forall_mark_not_reached s rules :
  Forall (fun r => rule_fired r = true -> s = Some (rule_id r)) rules ->
  Forall (fun r => rule_fired r = true -> s = Some (rule_id r)) (mark_not_reached <$> rules).
Proof.
  intros Hf. apply Forall_fmap. eapply Forall_impl; [done|]. intros r Hr. cbn.
  by destruct (mark_not_reached_row r) as [-> ->].
Qed.

Lemma unfired_explained s rules :
  Forall (fun r => rule_fired r = false) rules ->
  Forall (fun r => rule_fired r = true -> s = Some (rule_id r)) rules.
Proof. intros. eapply Forall_impl; [done|]. congruence. Qed.

Lemma finish_explained ev rules active d why att :
  NoDup (rule_id <$> rules) -> Forall (fun r => rule_fired r = false) rules ->
  (why = "" <-> d = PROMOTED) -> explained (finish ev rules active d why att).
Proof.
  intros Hnd Hf Hwhy. split; [exact Hwhy|]. eexists. split; [reflexivity|].
  cbn -[mark_not_reached count]. rewrite count_mark_not_reached. split_and!; try done.
  - destruct d; naive_solver.
  - destruct (promoted d); [by apply count_unfired|].
    case_match eqn:El; [by apply count_replace_fired|].
    rewrite count_cons. cbn. by rewrite count_unfired.
  - apply Forall_mark_not_reached. destruct (promoted d); [by apply unfired_explained|].
    case_match; [|constructor; [done|by apply unfired_explained]].
    unfold replace_rule. apply Forall_fmap. eapply Forall_impl; [exact Hf|].
    intros r Hr. cbn. destruct (String.eqb_spec (rule_id r) (rule_id active)); cbn; congruence.
Qed.

Lemma rules_ok_explained ev rules active d why att :
  rules_ok rules -> (why = "" <-> d = PROMOTED) -> explained (finish ev rules active d why att).
Proof.
  intros [[Hids|Hids] Hf] Hwhy; apply finish_explained; try done; rewrite Hids;
    apply (bool_decide_unpack _); by vm_compute.
Qed.

Section Explained.
Context `{PyFormat}.

Lemma gate_holdout_explained ev rules active hp hc att o :
  rules_ok rules -> gate_holdout ev rules active hp hc att = Ok o -> explained o.
Proof.
  intros Hr. unfold gate_holdout.
  destruct hp as [hp|], hc as [hc|]; try (intros [= <-]; by apply rules_ok_explained).
  intros (why & _ & Hk)%result_bind_ok.
  destruct Hr as [Hids Hf].
  assert (Hnd : forall a, rule_id a = "holdout_confirmation" -> rule_fired a = false ->
    NoDup (rule_id <$> (rules ++ [a])) /\ Forall (fun r => rule_fired r = false) (rules ++ [a])).
  { intros a Ha Hfa. rewrite fmap_app. cbn. rewrite Ha. split.
    - destruct Hids as [->| ->]; apply (bool_decide_unpack _); by vm_compute.
    - apply Forall_app_2; [done|by constructor]. }
  destruct (String.eqb_spec why ""); injection Hk as <-; apply finish_explained; try done;
    by apply Hnd.
Qed.

Lemma reason_nonempty why : String.eqb why "" = false -> why = "" <-> REJECTED = PROMOTED.
Proof. intros ?%String.eqb_neq. done. Qed.

Lemma reason_prefixed why s : why <> "" -> (why +:+ s = "") <-> REJECTED = PROMOTED.
Proof. intros ?. rewrite str_app_empty. naive_solver. Qed.

Lemma gate_namespaces_explained ev rules nr hp hc att o :
  rules_ok rules -> rule_fired nr = false ->
  gate_namespaces ev rules nr hp hc att = Ok o -> explained o.
Proof.
  intros Hr Hn. unfold gate_namespaces. destruct (regressed_namespaces _ _ _).
  - apply gate_holdout_explained, replace_rule_ok; [|done].
    destruct (rule_status nr); try done; by destruct (namespace_aggregates _).
  - intros [= <-]. apply rules_ok_explained; [done|]. by apply reason_prefixed.
Qed.

Lemma gate_pass_rate_explained ev rules pr nr hp hc att o :
  rules_ok rules -> rule_fired pr = false -> rule_fired nr = false ->
  gate_pass_rate ev rules pr nr hp hc att = Ok o -> explained o.
Proof.
  intros Hr Hp Hn. unfold gate_pass_rate.
  destruct (pass_rate_monotonicity _); [|by apply gate_namespaces_explained].
  destruct (String.eqb _ "") eqn:E; cbn [negb].
  - apply gate_namespaces_explained; [apply replace_rule_ok; [|done]|done].
    by destruct (pass_rate_monotonicity_scope _).
  - intros [= <-]. apply rules_ok_explained; [apply replace_rule_ok; [|done]|by apply reason_nonempty].
    by destruct (pass_rate_monotonicity_scope _).
Qed.

Lemma gate_scalar_explained ev rules sr pr nr hp hc att o :
  rules_ok rules -> rule_fired sr = false -> rule_fired pr = false -> rule_fired nr = false ->
  gate_scalar ev rules sr pr nr hp hc att = Ok o -> explained o.
Proof.
  intros Hr Hs Hp Hn. unfold gate_scalar. destruct (flt _ (ev_child_scalar _)).
  - intros [= <-]. apply rules_ok_explained; [by apply replace_rule_ok|].
    unfold scalar_margin_reason. apply reason_prefixed. by destruct (flt _ _).
  - apply gate_pass_rate_explained; [by apply replace_rule_ok|done..].
Qed.

Lemma gate_ceiling_explained ev rules sr pr nr hp hc att o :
  rule_id <$> rules = base_rule_ids -> Forall (fun r => rule_fired r = false) rules ->
  rule_fired sr = false -> rule_fired pr = false -> rule_fired nr = false ->
  gate_ceiling ev rules sr pr nr hp hc att = Ok o -> explained o.
Proof.
  intros Hids Hf Hs Hp Hn. unfold gate_ceiling.
  assert (Hcons : forall a, rule_id a = "diff_complexity_ceiling" -> rule_fired a = false ->
                            rules_ok (a :: rules)).
  { intros a Ha ?. split; [|by constructor]. right. cbn. by rewrite Ha, Hids. }
  destruct (flt f0 _); [|apply gate_scalar_explained; try done; split; auto].
  destruct (over_ceiling _ _).
  - intros [= <-]. apply rules_ok_explained; [by apply Hcons|by apply reason_prefixed].
  - apply gate_scalar_explained; try done. apply Hcons; by destruct (diff_size _).
Qed.
End Explained.

(** ** The gate's properties *)

Section Properties.
Context `{PyFormat}.

(** Every outcome of the gate explains itself: its reason is empty exactly
    on a promotion, its explanation repeats decision and reason, names no
    deciding rule exactly on a promotion, and otherwise shows exactly one fired
    row, the deciding rule's. *)
Theorem evaluate_gate_explained p c w hp hc o :
  evaluate_gate p c w hp hc = Ok o -> explained o.
Proof.
  unfold evaluate_gate. destruct (scalar p) as [ps|], (scalar c) as [cs|]; try done.
  assert (Hids : forall r0 r1 r2 r3, rule_id <$> [r0; r1; r2; r3] = base_rule_ids ->
            Forall (fun r => rule_fired r = false) [r0; r1; r2; r3] -> rules_ok [r0; r1; r2; r3])
    by (intros; split; [by left|done]).
  destruct (first_incomplete _).
  - intros [= <-]. apply rules_ok_explained; [|by split].
    destruct (regression_gate_enabled w); apply Hids; try done; by repeat constructor.
  - destruct (String.eqb _ "") eqn:E; cbn [negb].
    + apply gate_ceiling_explained; try done; destruct (regression_gate_enabled w); try done;
        by repeat constructor.
    + intros [= <-]. apply rules_ok_explained; [|by apply reason_nonempty].
      destruct (regression_gate_enabled w); apply Hids; try done; by repeat constructor.
Qed.

Lemma gate_spec_promoted p c w hp hc :
  gate_spec p c w hp hc = PROMOTED
  <-> all_complete p c hp hc = true /\ train_rules_clear p c w = true
      /\ holdout_clear hp hc w = true.
Proof.
  unfold gate_spec. destruct (all_complete _ _ _ _), (train_rules_clear _ _ _), (holdout_clear _ _ _);
    naive_solver.
Qed.

Lemma train_rules_clear_true p c w :
  train_rules_clear p c w = true
  <-> finite_evidence p c = true /\ within_ceiling c w = true /\ clears_margin p c w = true
      /\ pass_rule_clear p c w 0 = true /\ namespaces_hold p c w = true.
Proof. unfold train_rules_clear. rewrite !andb_true_iff. naive_solver. Qed.

(** Under the per-entry scope and no budget, no tracked entry fell below its
    champion score by more than the tolerance. *)
Lemma pass_rate_holds_per_entry p c w id row s :
  pass_rate_monotonicity_scope w = per_entry_scope -> pass_rate_holds p c w 0 = true ->
  (id, row) ∈ per_entry p -> _row_score (Some row) = Some s ->
  flt (from_option Datatypes.id f0 (_row_score (dict_get (per_entry c) id)))
      (fsub s PER_ENTRY_SCORE_MONOTONICITY_TOLERANCE) = false.
Proof.
  unfold pass_rate_holds. intros -> Hb Hin Hs.
  assert (count (entry_regressed c) (per_entry p) = 0) as Hnil%count_filter_nil
    by (destruct (count _ _); [done|]; by destruct (Z.leb_spec (Z.of_nat (S n)) 0); [lia|]).
  destruct (entry_regressed c (id, row)) eqn:E; [|unfold entry_regressed in E; by rewrite Hs in E].
  assert ((id, row) ∈ List.filter (entry_regressed c) (per_entry p)) as Hf
    by by apply elem_of_filter_In.
  rewrite Hnil in Hf. by apply not_elem_of_nil in Hf.
Qed.

(** C32.  A promotion is safe: the four numbers behind it are finite, the
    challenger's loss is not above the champion's less the margin, under the
    per-entry rule no entry the champion scored fell by more than 0.02, and no
    weighted namespace the contract tracks rose above the champion's value. *)
Theorem promotion_guarantees p c w hp hc o :
  evaluate_gate p c w hp hc = Ok o -> decision o = PROMOTED ->
  finite_evidence p c = true
  /\ flt (fsub (scalar_or_0 p) (promote_margin w)) (scalar_or_0 c) = false
  /\ (pass_rate_monotonicity w = true -> pass_rate_monotonicity_scope w = per_entry_scope ->
      forall id row s, (id, row) ∈ per_entry p -> _row_score (Some row) = Some s ->
      flt (from_option Datatypes.id f0 (_row_score (dict_get (per_entry c) id)))
          (fsub s PER_ENTRY_SCORE_MONOTONICITY_TOLERANCE) = false)
  /\ (forall ns pv cv, (ns, true) ∈ namespace_monotonicity w ->
      feq (dict_get_or (namespace_weights w) ns f0) f0 = false ->
      dict_get (from_option Datatypes.id [] (namespace_aggregates p)) ns = Some pv ->
      dict_get (from_option Datatypes.id [] (namespace_aggregates c)) ns = Some cv ->
      isfinite pv = true /\ isfinite cv = true
      /\ flt (fadd pv NAMESPACE_MONOTONICITY_TOLERANCE) cv = false).
Proof.
  intros Ho%evaluate_gate_spec_aux Hd. rewrite Hd in Ho. symmetry in Ho.
  apply gate_spec_promoted in Ho as (_ & (Hf & _ & Hm & Hp & Hn)%train_rules_clear_true & _).
  split_and!; [done|by apply negb_true_iff in Hm| |].
  - intros Hmono Hscope id row s Hin Hrow. unfold pass_rule_clear in Hp. rewrite Hmono in Hp.
    exact (pass_rate_holds_per_entry p c w id row s Hscope Hp Hin Hrow).
  - intros ns pv cv Hin Hw Hpv Hcv. unfold namespaces_hold in Hn.
    rewrite forallb_forall in Hn. apply list_elem_of_In, Hn, negb_true_iff in Hin.
    unfold namespace_regressed in Hin. cbn [negb] in Hin. rewrite Hw, Hpv, Hcv in Hin.
    destruct (isfinite pv), (isfinite cv); cbn in Hin; try congruence. split_and!; congruence.
Qed.

(** The holdout can only veto: whatever the gate promotes with a holdout it
    also promotes without one. *)
Theorem holdout_only_vetoes p c w hp hc o :
  evaluate_gate p c w hp hc = Ok o -> decision o = PROMOTED ->
  exists o', evaluate_gate p c w None None = Ok o' /\ decision o' = PROMOTED.
Proof.
  intros Ho Hd.
  assert (has_scalar p = true /\ has_scalar c = true) as [Hp Hc].
  { unfold evaluate_gate in Ho. unfold has_scalar.
    by destruct (scalar p), (scalar c). }
  pose proof (evaluate_gate_total p c w None None Hp Hc eq_refl eq_refl) as Hok.
  destruct (evaluate_gate p c w None None) as [o'|] eqn:E; [|done]. exists o'. split; [done|].
  apply evaluate_gate_spec_aux in E, Ho. rewrite E, Hd in *. symmetry in Ho.
  apply gate_spec_promoted in Ho as (Hall & Ht & _). apply gate_spec_promoted.
  split_and!; try done. unfold all_complete in *. cbn. rewrite !andb_true_iff in *. naive_solver.
Qed.
End Properties.

(** ** A concrete duel: a challenger that improves the loss and holds every entry,
    with a holdout that confirms it. *)
Module Witness.
#[local] Existing Instance plain_format.

Definition row (s : float) : Row :=
  {| row_drift_loss := None; row_pass_fail := Some true; row_score := Some s |}.

Definition agg (loss : float) (s : float) : Aggregate := {|
  scalar := Some loss; pass_rate := Some 0.5%float; mean_score := Some s;
  incomplete_entries := []; per_entry := [("e1", row s); ("e2", row 1%float)];
  namespace_aggregates := Some [("ns", loss)]; scalar_components := None;
  diff_size := Some {| added := 3; removed := 1; patch_count := 1 |} |}.

Definition weights : ScoringWeights := {|
  pass_weight := 1%float; severity_weights := []; per_kind_weights := []; per_judge_weights := [];
  default_judge_weight := 1%float; plan_revision_weight := 0%float;
  task_failure_weight := 0%float; not_completed_weight := 0%float;
  promote_margin := 0.125%float; holdout_margin := Some 0%float;
  holdout_entry_regression_budget := 0; pass_rate_monotonicity := true;
  pass_rate_monotonicity_scope := per_entry_scope; regression_gate_enabled := true;
  namespace_weights := [("ns", 1%float)]; namespace_monotonicity := [("ns", true)];
  overfitting := default_overfitting; diff_complexity_weight := 0%float;
  diff_complexity_ceiling := 10%float; pass_transform := None; drift_kind_aggregation := [];
  drift_reducer := ""; scalar_fn := ""; block_on_containment_violation := false;
  block_on_gate_contradiction := false; telemetry_dialect := DIALECT_GOLDFIVE |}.

Definition champion : Aggregate := agg 0.75%float 0.5%float.
Definition challenger : Aggregate := agg 0.25%float 1%float.

Definition duel : result GateOutcome :=
  evaluate_gate champion challenger weights (Some champion) (Some challenger).

Definition duel_outcome : GateOutcome :=
  match duel with
  | Ok o => o
  | Raise _ => {| decision := REJECTED; reason := ""; delta_scalar := f0;
                  delta_pass_rate := f0; attributable_regressions := []; explanation := None |}
  end.

Lemma decision_refines_spec_witness :
  decision duel_outcome = gate_spec champion challenger weights (Some champion) (Some challenger).
Proof. apply decision_refines_spec. vm_compute. reflexivity. Defined.

Lemma evaluate_gate_explained_witness : explained duel_outcome.
Proof.
  apply (evaluate_gate_explained champion challenger weights (Some champion) (Some challenger)).
  vm_compute. reflexivity.
Defined.

Lemma promotion_guarantees_witness : finite_evidence champion challenger = true.
Proof.
  apply (promotion_guarantees champion challenger weights (Some champion) (Some challenger)
           duel_outcome); vm_compute; reflexivity.
Defined.

Lemma holdout_only_vetoes_witness :
  exists o', evaluate_gate champion challenger weights None None = Ok o' /\ decision o' = PROMOTED.
Proof.
  apply (holdout_only_vetoes champion challenger weights (Some champion) (Some challenger)
           duel_outcome); vm_compute; reflexivity.
Defined.
End Witness.
