(* ===== verification/Board.v ===== *)
(** The evaluation board: its entries and their checks ([src/zicato/core/board.py],
    [src/zicato/core/drift_kinds.py]) and the split into a training and a holdout slice
    ([src/zicato/board/split.py]).  The string enums are their member lists; a field the
    dataclass leaves to the type checker has its declared type. *)

From S2P Require Import Prelude PyFloat PyJson Sha256 CoreTypes.

(** ** Entries *)

Inductive BoardEntryKind :=
  | single_turn | multi_turn_scripted | multi_turn_emulated
  | synthetic_adversarial | synthetic_clean.

Inductive ExpectationKind := EXPECTED_TEXT | REGEX | JSON_SCHEMA | PREDICATE | RUBRIC.
Inductive OutputScope := FINAL | TRANSCRIPT.
Inductive JudgeMode := INLINE | PYTHON.
Inductive DriftSeverity := INFO | WARNING | CRITICAL.

#[export] Instance OutputScope_eq_dec : EqDecision OutputScope.
Proof. solve_decision. Defined.

(** The values of [DriftKind]. *)
Definition GOLDFIVE_DRIFT_KINDS : list string :=
  ["tool_error"; "agent_refusal"; "new_work_discovered"; "plan_divergence"; "user_steer";
   "user_cancel"; "user_pause"; "task_failed_recoverable"; "task_failed_fatal";
   "context_pressure"; "blocked"; "wrong_agent"; "agent_transfer"; "model_refusal";
   "stopped_early"; "too_many_steps"; "goal_unreachable"; "task_timeout"; "repeated_failure";
   "unexpected_output"; "schema_violation"; "hallucination_suspected"; "safety_concern";
   "resource_exhausted"; "ambiguous_intent"; "custom"; "looping_tool_call"; "looping_reasoning";
   "reasoning_cluster_tightening"; "off_topic"; "intent_divergence"; "uncertain_progress";
   "self_reported_stuck"; "confabulation_risk"; "runaway_delegation";
   "refine_validation_failed"; "goal_drift"; "human_intervention_required";
   "llm_call_timeout"; "justified_deviation"; "capability_mismatch"].

Record Expectation := {
  ex_kind : ExpectationKind;
  spec : string;
  reads : OutputScope;
}.

Record JudgeSpec := {
  judge_name : string;
  mode : JudgeMode;
  body : string;
  severity : DriftSeverity;
}.

Record UserPersona := { goal : string; constraints : string; stop_when : string }.

Record BoardEntry := {
  entry_id : string;
  kind : BoardEntryKind;
  wall_clock_budget_seconds : Z;
  weight : float;
  tags : list string;
  context : list (string * string);
  expectation : option Expectation;
  judges : list JudgeSpec;
  input : option string;
  turns : option (list string);
  user_persona : option UserPersona;
  max_turns : option Z;
  adversarial_agent_spec : option string;
  required_drift_kinds : option (list string);
}.

Section Validation.
Context `{PyRepr}.

Definition validate_drift_kind (k : string) : result unit :=
  ensure bool_decide (k ∈ GOLDFIVE_DRIFT_KINDS)
    orelse ValueError ("unknown drift kind: " +:+ py_repr (JStr k));
  Ok tt.

Definition entry_error (e : BoardEntry) (why : string) : exn :=
  ValueError ("BoardEntry " +:+ py_repr (JStr (entry_id e)) +:+ ": " +:+ why).

Definition has {A} (o : option A) : bool := match o with Some _ => true | None => false end.
Definition filled {A} (o : option (list A)) : bool := match o with Some (_ :: _) => true | _ => false end.

(** The checks of one kind, in the order of the source. *)
Definition validate_kind (e : BoardEntry) : result unit :=
  let check (b : bool) (why : string) (k : result unit) := if b then k else Raise (entry_error e why) in
  let positive := match max_turns e with Some n => (0 <? n)%Z | None => false end in
  match kind e with
  | single_turn =>
      check (has (input e)) "single_turn requires 'input'" (
      check (negb (has (turns e))) "single_turn must not set 'turns'" (
      check (negb (has (user_persona e))) "single_turn must not set 'user_persona'" (Ok tt)))
  | multi_turn_scripted =>
      check (filled (turns e)) "multi_turn_scripted requires non-empty 'turns'" (
      check positive "multi_turn_scripted requires 'max_turns' > 0" (
      check (negb (has (input e))) "multi_turn_scripted must not set 'input'" (
      check (negb (has (user_persona e))) "multi_turn_scripted must not set 'user_persona'" (Ok tt))))
  | multi_turn_emulated =>
      check (has (user_persona e)) "multi_turn_emulated requires 'user_persona'" (
      check positive "multi_turn_emulated requires 'max_turns' > 0" (
      check (negb (has (input e))) "multi_turn_emulated must not set 'input'" (
      check (negb (has (turns e))) "multi_turn_emulated must not set 'turns'" (Ok tt))))
  | synthetic_adversarial =>
      check (has (input e)) "synthetic_adversarial requires 'input'" (
      check (match adversarial_agent_spec e with None | Some "" => false | _ => true end)
        "synthetic_adversarial requires 'adversarial_agent_spec'" (
      check (filled (required_drift_kinds e))
        "synthetic_adversarial requires non-empty 'required_drift_kinds'" (
      try _ <- result_map validate_drift_kind (from_option id [] (required_drift_kinds e));
      Ok tt)))
  | synthetic_clean => check (has (input e)) "synthetic_clean requires 'input'" (Ok tt)
  end.

(** Judge names are distinct. *)
Fixpoint check_judges (e : BoardEntry) (seen : list string) (js : list JudgeSpec) : result unit :=
  match js with
  | [] => Ok tt
  | j :: js =>
      if bool_decide (judge_name j ∈ seen)
      then Raise (entry_error e ("duplicate judge name " +:+ py_repr (JStr (judge_name j))))
      else check_judges e (judge_name j :: seen) js
  end.

(** [BoardEntry.validate] *)
Definition validate (e : BoardEntry) : result unit :=
  ensure negb (wall_clock_budget_seconds e <=? 0)%Z
    orelse entry_error e "wall_clock_budget_seconds must be > 0";
  ensure negb (flt (weight e) f0) orelse entry_error e "weight must be >= 0";
  try _ <- validate_kind e;
  ensure negb (match kind e, expectation e with
               | single_turn, Some x => bool_decide (reads x = TRANSCRIPT)
               | _, _ => false
               end)
    orelse entry_error e ("single_turn expectation cannot read the full transcript "
                          +:+ "(OutputScope.TRANSCRIPT)");
  check_judges e [] (judges e).
End Validation.

(** ** The split *)

Definition HOLDOUT_TAG : string := "holdout".
Definition _HASH_BUCKETS : Z := 1000000.

(** [f"{seed}\x00{entry_id}"] *)
Definition hash_material (entry_id : string) (seed : option string) : string :=
  match seed with
  | None => entry_id
  | Some seed => seed +:+ String (Ascii.ascii_of_nat 0) entry_id
  end.

Definition _hash_bucket (entry_id : string) (seed : option string) : Z :=
  (foldl (fun acc b => acc * 256 + b) 0 (firstn 8 (sha256 (hash_material entry_id seed)))
   mod _HASH_BUCKETS)%Z.

(** An integer is below a float by their exact values. *)
Definition below (z : Z) (x : float) : bool :=
  match Z_float_compare z x with Some Lt => true | _ => false end.

Definition in_slice (slice : list string) (i : string) : bool := bool_decide (i ∈ slice).

Definition partition (ids slice : list string) : list string * list string :=
  (List.filter (fun i => negb (in_slice slice i)) ids, List.filter (in_slice slice) ids).

Definition tagged_holdout (entries : list BoardEntry) : list string :=
  entry_id <$> List.filter (fun e => bool_decide (HOLDOUT_TAG ∈ tags e)) entries.

Definition hashed_holdout (ids : list string) (cfg : OverfittingConfig) (seed : option string)
    : list string :=
  let threshold := fmul (holdout_fraction cfg) (float_of_Z _HASH_BUCKETS) in
  remove_dups (List.filter (fun i => below (_hash_bucket i seed) threshold) ids).

Definition split_board (entries : list BoardEntry) (cfg : OverfittingConfig) (seed : option string)
    : list string * list string :=
  let ids := entry_id <$> entries in
  match tagged_holdout entries with
  | (_ :: _) as tagged => partition ids tagged
  | [] =>
      if negb (overfitting_enabled cfg)
         || (Z.of_nat (length ids) <? min_board_size_for_split cfg)%Z
      then (ids, [])
      else
        match hashed_holdout ids cfg seed with
        | [] => (ids, [])
        | holdout_set =>
            if length holdout_set =? length ids then (ids, []) else partition ids holdout_set
        end
  end.

Definition rotation_seed (cfg : OverfittingConfig) (epoch_id : option string) : option string :=
  if rotate_holdout cfg
  then match epoch_id with Some "" => None | o => o end
  else None.

(** * The split of a board is a partition that no order of its entries can move. *)

(** ** Slices *)

Lemma in_slice_true slice i : in_slice slice i = true <-> i ∈ slice.
Proof. apply bool_decide_eq_true. Qed.

Lemma in_slice_ext slice slice' i :
  (i ∈ slice <-> i ∈ slice') -> in_slice slice i = in_slice slice' i.
Proof. apply bool_decide_ext. Qed.

Lemma filter_nil {A} (l : list A) : List.filter (fun _ => false) l = [].
Proof. by induction l. Qed.

Lemma filter_all {A} (l : list A) : List.filter (fun _ => true) l = l.
Proof. induction l; cbn; congruence. Qed.

(** [train] and [holdout] are the two halves of [ids], each in its order, and an id is in
    one of them only. *)
Definition halves (ids train holdout : list string) : Prop :=
  train = List.filter (fun i => negb (in_slice holdout i)) ids
  /\ holdout = List.filter (in_slice holdout) ids.

Lemma halves_all ids : halves ids ids [].
Proof.
  split.
  - symmetry. etransitivity; [|apply filter_all]. by apply filter_ext.
  - symmetry. etransitivity; [|apply (filter_nil ids)]. by apply filter_ext.
Qed.

Lemma halves_partition ids slice : halves ids (partition ids slice).1 (partition ids slice).2.
Proof.
  unfold partition. cbn. assert (forall i, i ∈ ids ->
    in_slice (List.filter (in_slice slice) ids) i = in_slice slice i) as Hin.
  { intros i Hi. apply eq_true_iff_eq. rewrite in_slice_true, elem_of_filter_In. naive_solver. }
  split; apply filter_ext; intros i Hi; by rewrite Hin.
Qed.

Lemma partition_perm ids ids' slice slice' :
  ids ≡ₚ ids' -> (forall i, i ∈ slice <-> i ∈ slice') ->
  (partition ids slice).1 ≡ₚ (partition ids' slice').1
  /\ (partition ids slice).2 ≡ₚ (partition ids' slice').2.
Proof.
  intros Hids Hs. unfold partition. cbn. split.
  - rewrite (filter_perm _ _ _ Hids). erewrite filter_ext; [done|].
    intros i _. cbn. f_equal. by apply in_slice_ext.
  - rewrite (filter_perm _ _ _ Hids). erewrite filter_ext; [done|].
    intros i _. by apply in_slice_ext.
Qed.

Lemma elem_of_hashed i ids cfg seed :
  i ∈ hashed_holdout ids cfg seed
  <-> below (_hash_bucket i seed) (fmul (holdout_fraction cfg) (float_of_Z _HASH_BUCKETS)) = true
      /\ i ∈ ids.
Proof. unfold hashed_holdout. rewrite elem_of_remove_dups, elem_of_filter_In. naive_solver. Qed.

Lemma remove_dups_length (l : list string) : length (remove_dups l) <= length l.
Proof. induction l; cbn; [done|]. case_decide; cbn; lia. Qed.

(** A proper part of the board leaves a training entry. *)
Lemma proper_part ids (holdout : list string) :
  (forall i, i ∈ holdout -> i ∈ ids) -> NoDup holdout -> length holdout <> length ids ->
  List.filter (fun i => negb (in_slice holdout i)) ids = [] -> NoDup ids -> False.
Proof.
  intros Hsub Hnd Hlen Hnil Hids. apply Hlen, Permutation_length, NoDup_Permutation; [done..|].
  intros i. split; [by apply Hsub|]. intros Hi. apply in_slice_true.
  destruct (in_slice holdout i) eqn:E; [done|]. exfalso.
  apply (elem_of_nil i). rewrite <-Hnil. apply elem_of_filter_In. by rewrite E.
Qed.

(** The split of a board is a partition: each slice lists, in the order of the board,
    the ids that are not in the other.  It withholds something only when an entry is
    tagged by hand, or when the split is enabled and the board reaches its minimum size;
    and a split derived from the hashes of distinct ids never empties the training slice. *)
Theorem split_board_partition entries cfg seed :
  let ids := entry_id <$> entries in
  let '(train, holdout) := split_board entries cfg seed in
  halves ids train holdout
  /\ train ++ holdout ≡ₚ ids
  /\ (holdout = [] \/ tagged_holdout entries <> []
      \/ (overfitting_enabled cfg = true
          /\ (min_board_size_for_split cfg <= Z.of_nat (length ids))%Z))
  /\ (tagged_holdout entries <> [] \/ ids = [] \/ ~ NoDup ids \/ train <> []).
Proof.
  cbn zeta. set (ids := entry_id <$> entries).
  assert (forall train holdout, halves ids train holdout -> train ++ holdout ≡ₚ ids) as Hperm.
  { intros train holdout [-> Hh]. etrans; [|apply (filter_complement (in_slice holdout))]. by rewrite <-Hh. }
  unfold split_board. fold ids. destruct (tagged_holdout entries) as [|t tagged].
  2: { pose proof (halves_partition ids (t :: tagged)) as Hh. unfold partition in *. cbn [fst snd] in Hh.
       split; [exact Hh|]. split; [by apply Hperm|]. by split; [right|]; left. }
  assert (halves ids ids [] /\ ids ++ [] ≡ₚ ids
          /\ ([] = @nil string \/ [] <> @nil string \/ (overfitting_enabled cfg = true
              /\ (min_board_size_for_split cfg <= Z.of_nat (length ids))%Z))
          /\ ([] <> @nil string \/ ids = [] \/ ~ NoDup ids \/ ids <> [])) as Hall.
  { split; [apply halves_all|]. split; [by rewrite app_nil_r|]. split; [by left|].
    right. destruct ids; [by left|by right; right]. }
  destruct (negb _ || _) eqn:Hc; [done|]. apply orb_false_iff in Hc as [He Hl].
  apply negb_false_iff in He. apply Z.ltb_ge in Hl.
  destruct (hashed_holdout ids cfg seed) as [|h hs] eqn:Eh; [done|].
  destruct (Nat.eqb_spec (length (h :: hs)) (length ids)) as [|Hlen]; [done|].
  pose proof (halves_partition ids (h :: hs)) as Hh. unfold partition in *. cbn [fst snd] in Hh.
  split; [exact Hh|]. split; [by apply Hperm|]. split; [by right; right|]. right. right.
  destruct (decide (NoDup ids)) as [Hnd|]; [|by left]. right. intros Hnil.
  eapply (proper_part ids (h :: hs)); try done.
  - intros i. rewrite <-Eh, elem_of_hashed. tauto.
  - rewrite <-Eh. apply NoDup_remove_dups.
Qed.

Lemma tagged_perm entries entries' :
  entries ≡ₚ entries' -> tagged_holdout entries ≡ₚ tagged_holdout entries'.
Proof. intros H. unfold tagged_holdout. by apply fmap_Permutation, filter_perm. Qed.

(** The split belongs to the entries, not to the board: boards that list the same
    entries in another order hold out the same ids under the same seed. *)
Theorem split_board_order entries entries' cfg seed :
  entries ≡ₚ entries' ->
  (split_board entries cfg seed).1 ≡ₚ (split_board entries' cfg seed).1
  /\ (split_board entries cfg seed).2 ≡ₚ (split_board entries' cfg seed).2.
Proof.
  intros Hp. pose proof (fmap_Permutation entry_id _ _ Hp) as Hids.
  pose proof (tagged_perm _ _ Hp) as Ht. unfold split_board.
  set (ids := entry_id <$> entries) in *. set (ids' := entry_id <$> entries') in *.
  destruct (tagged_holdout entries) as [|t tagged].
  2: { destruct (tagged_holdout entries') as [|t' tagged']; [by apply Permutation_nil_r in Ht|].
       apply partition_perm; [done|]. intros i. by rewrite Ht. }
  apply Permutation_nil_l in Ht as <-. rewrite (Permutation_length Hids).
  destruct (negb _ || _); [done|].
  assert (hashed_holdout ids cfg seed ≡ₚ hashed_holdout ids' cfg seed) as Hh.
  { apply NoDup_Permutation; [apply NoDup_remove_dups..|]. intros i. rewrite !elem_of_hashed. by rewrite Hids. }
  destruct (hashed_holdout ids cfg seed) as [|h hs].
  { by apply Permutation_nil_l in Hh as <-. }
  destruct (hashed_holdout ids' cfg seed) as [|h' hs']; [by apply Permutation_nil_r in Hh|].
  rewrite (Permutation_length Hh). destruct (_ =? _); [done|].
  apply partition_perm; [done|]. intros i. by rewrite Hh.
Qed.

(** ** A board of eight entries *)
Module BoardWitness.
Definition entry (i : string) (ts : list string) : BoardEntry := {|
  entry_id := i; kind := single_turn; wall_clock_budget_seconds := 60; weight := 1%float;
  tags := ts; context := []; expectation := None; judges := []; input := Some "hello";
  turns := None; user_persona := None; max_turns := None; adversarial_agent_spec := None;
  required_drift_kinds := None |}.

Definition ids : list string := ["a"; "b"; "c"; "d"; "e"; "f"; "g"; "h"].
Definition board : list BoardEntry := (fun i => entry i []) <$> ids.
Definition reversed : list BoardEntry := rev board.

Example board_splits :
  length (split_board board default_overfitting (Some "epoch-1")).2 <> 0.
Proof. vm_compute. discriminate. Qed.

Lemma split_board_order_witness :
  (split_board board default_overfitting (Some "epoch-1")).2
  ≡ₚ (split_board reversed default_overfitting (Some "epoch-1")).2.
Proof.
  refine (proj2 (split_board_order board reversed default_overfitting (Some "epoch-1") _)).
  apply Permutation_rev.
Defined.
End BoardWitness.
