(* ===== verification/Pareto.v ===== *)
(** The Pareto frontier of an epoch, [src/zicato/epoch/pareto.py]: the settled candidates
    that beat the champion on some scoring axis, what retired the others, and the
    record's file. *)

From S2P Require Import Prelude PyFloat PyText PyJson CoreTypes Gate.

(** ** Axes and dominance *)

(** The values of one side, one per axis; a [dict] in insertion order. *)
Definition AxisValues : Type := list (string * float).

Definition frontier_axes (w : ScoringWeights) : list string :=
  sorted_strings (List.filter (fun item => negb (feq item.2 f0)) (namespace_weights w)).*1.

Definition axis_values (aggregate : Aggregate) (axes : list string) : AxisValues :=
  let raw := from_option id [] (namespace_aggregates aggregate) in
  foldl (fun out ns =>
           match dict_get raw ns with
           | Some value => if isfinite value then dict_set out ns value else out
           | None => out
           end) [] axes.

(** [value] is at least [margin] better than [other], and strictly. *)
Definition better_by (margin value other : float) : bool :=
  fle margin (fsub other value) && flt value other.

Definition beats_on (margin : float) (candidate reference : AxisValues) : list string :=
  sorted_strings
    (List.filter (fun item =>
       match dict_get reference item.1 with
       | Some r => better_by margin item.2 r
       | None => false
       end) candidate).*1.

(** The loop of [dominates] over the items of [left]. *)
Fixpoint dominates_from (margin : float) (better_any : bool) (lhs rhs : AxisValues) : bool :=
  match lhs with
  | [] => better_any
  | (ns, value) :: lhs =>
      match dict_get rhs ns with
      | None => dominates_from margin better_any lhs rhs
      | Some other =>
          if better_by margin value other then dominates_from margin true lhs rhs
          else if better_by margin other value then false
          else dominates_from margin better_any lhs rhs
      end
  end.

Definition dominates (margin : float) (lhs rhs : AxisValues) : bool :=
  dominates_from margin false lhs rhs.

(** ** The record *)

Record FrontierMember := {
  fm_generation_id : string;
  round_admitted : Z;
  fm_champion_generation_id : string;
  fm_axis_values : AxisValues;
  beats_champion_on : list string;
  fm_scalar : option float;
}.

Record RetiredMember := {
  rm_member : FrontierMember;
  round_retired : Z;
  rm_reason : string;
}.

Record ParetoFrontier := {
  pf_epoch_id : string;
  pf_axes : list string;
  pf_margin : float;
  pf_champion_generation_id : string;
  updated_round : Z;
  pf_members : list FrontierMember;
  pf_retired : list RetiredMember;
}.

Record FrontierCandidate := {
  fc_generation_id : string;
  fc_aggregate : Aggregate;
  is_placebo : bool;
}.

Record FrontierUpdate := {
  fu_frontier : ParetoFrontier;
  fu_admitted : list string;
  fu_retired : list string;
}.

Definition changed (u : FrontierUpdate) : bool :=
  match fu_admitted u, fu_retired u with [], [] => false | _, _ => true end.

Definition RETIRED_PROMOTED : string := "promoted".
Definition RETIRED_DOMINATED_BY_CHAMPION : string := "dominated_by_champion".
Definition RETIRED_MONOTONICITY : string := "monotonicity_regression".
Definition DOMINATED_BY_PREFIX : string := "dominated_by:".

(** [FrontierMember.__eq__]; mappings compare without their order, and numbers by [==]. *)
Definition axis_values_eq (a b : AxisValues) : bool :=
  (length a =? length b)
  && forallb (fun item => match dict_get b item.1 with
                          | Some v => feq item.2 v
                          | None => false
                          end) a.

Definition member_eq (a b : FrontierMember) : bool :=
  String.eqb (fm_generation_id a) (fm_generation_id b)
  && (round_admitted a =? round_admitted b)%Z
  && String.eqb (fm_champion_generation_id a) (fm_champion_generation_id b)
  && axis_values_eq (fm_axis_values a) (fm_axis_values b)
  && bool_decide (beats_champion_on a = beats_champion_on b)
  && match fm_scalar a, fm_scalar b with
     | Some x, Some y => feq x y
     | None, None => true
     | _, _ => false
     end.

(** ** The update *)

Definition _member_from (c : FrontierCandidate) (values : AxisValues) (beats : list string)
    (champion_generation_id : string) (round_index : Z) : FrontierMember := {|
  fm_generation_id := fc_generation_id c; round_admitted := round_index;
  fm_champion_generation_id := champion_generation_id; fm_axis_values := values;
  beats_champion_on := beats;
  fm_scalar := match scalar (fc_aggregate c) with
               | Some x => if isfinite x then Some x else None
               | None => None
               end |}.

Definition _as_agg (m : FrontierMember) : Aggregate := {|
  scalar := None; pass_rate := None; mean_score := None; incomplete_entries := [];
  per_entry := []; namespace_aggregates := Some (fm_axis_values m); scalar_components := None;
  diff_size := None |}.

(** What the two passes thread: the survivors, the retired and their ids, the ids known,
    and the ids admitted. *)
Record Fold := {
  surviving : list FrontierMember;
  fold_retired : list RetiredMember;
  retired_ids : list string;
  known : list string;
  admitted_ids : list string;
}.

Definition _retire (round_index : Z) (f : Fold) (m : FrontierMember) (why : string) : Fold := {|
  surviving := surviving f;
  fold_retired := fold_retired f
    ++ [{| rm_member := m; round_retired := round_index; rm_reason := why |}];
  retired_ids := retired_ids f ++ [fm_generation_id m]; known := known f;
  admitted_ids := admitted_ids f |}.

Definition keep (f : Fold) (m : FrontierMember) : Fold := {|
  surviving := surviving f ++ [m]; fold_retired := fold_retired f; retired_ids := retired_ids f;
  known := known f; admitted_ids := admitted_ids f |}.

(** Why the champion retires a member. *)
Definition retire_reason (champion : FrontierCandidate) (w : ScoringWeights) (margin : float)
    (champion_values : AxisValues) (m : FrontierMember) : option string :=
  if String.eqb (fm_generation_id m) (fc_generation_id champion) then Some RETIRED_PROMOTED
  else
    match regressed_namespaces (fc_aggregate champion) (_as_agg m) w with
    | _ :: _ => Some RETIRED_MONOTONICITY
    | [] =>
        if dominates margin champion_values (fm_axis_values m)
        then Some RETIRED_DOMINATED_BY_CHAMPION else None
    end.

Definition retire_step (champion : FrontierCandidate) (w : ScoringWeights) (margin : float)
    (champion_values : AxisValues) (round_index : Z) (f : Fold) (m : FrontierMember) : Fold :=
  match retire_reason champion w margin champion_values m with
  | Some why => _retire round_index f m why
  | None => keep f m
  end.

(** The member a candidate becomes, when nothing refuses it. *)
Definition admissible (champion : FrontierCandidate) (w : ScoringWeights) (margin : float)
    (champion_values : AxisValues) (axes : list string) (round_index : Z) (f : Fold)
    (c : FrontierCandidate) : option FrontierMember :=
  if bool_decide (fc_generation_id c ∈ known f) || is_placebo c then None
  else
    let values := axis_values (fc_aggregate c) axes in
    match values, regressed_namespaces (fc_aggregate champion) (fc_aggregate c) w,
          beats_on margin values champion_values with
    | _ :: _, [], (_ :: _) as beats =>
        if existsb (fun m => dominates margin (fm_axis_values m) values) (surviving f) then None
        else Some (_member_from c values beats (fc_generation_id champion) round_index)
    | _, _, _ => None
    end.

(** A newcomer displaces the survivors it dominates; [m not in displaced] compares by
    identity or equality. *)
Definition admit_member (margin : float) (round_index : Z) (f : Fold) (m : FrontierMember) : Fold :=
  let loses old := dominates margin (fm_axis_values m) (fm_axis_values old) in
  let displaced := List.filter loses (surviving f) in
  let retired := foldl (fun f old =>
                          _retire round_index f old (DOMINATED_BY_PREFIX +:+ fm_generation_id m))
                   f displaced in
  {| surviving :=
       List.filter (fun old => negb (loses old || existsb (member_eq old) displaced)) (surviving f)
       ++ [m];
     fold_retired := fold_retired retired; retired_ids := retired_ids retired;
     known := known f ++ [fm_generation_id m];
     admitted_ids := admitted_ids f ++ [fm_generation_id m] |}.

Definition admit_step (champion : FrontierCandidate) (w : ScoringWeights) (margin : float)
    (champion_values : AxisValues) (axes : list string) (round_index : Z) (f : Fold)
    (c : FrontierCandidate) : Fold :=
  match admissible champion w margin champion_values axes round_index f c with
  | Some m => admit_member margin round_index f m
  | None => f
  end.

Definition candidate_lt (a b : FrontierCandidate) : bool :=
  str_lt (fc_generation_id a) (fc_generation_id b).

Definition member_lt (a b : FrontierMember) : bool :=
  str_lt (fm_generation_id a) (fm_generation_id b).

Definition retired_lt (a b : RetiredMember) : bool :=
  if (round_retired a =? round_retired b)%Z then member_lt (rm_member a) (rm_member b)
  else (round_retired a <? round_retired b)%Z.

(** The survivors of the retire pass. *)
Definition retire_pass (frontier : ParetoFrontier) (champion : FrontierCandidate)
    (w : ScoringWeights) (round_index : Z) : Fold :=
  let champion_values := axis_values (fc_aggregate champion) (frontier_axes w) in
  foldl (retire_step champion w (promote_margin w) champion_values round_index)
    {| surviving := []; fold_retired := pf_retired frontier; retired_ids := []; known := [];
       admitted_ids := [] |} (pf_members frontier).

Definition admit_pass (f : Fold) (champion : FrontierCandidate)
    (candidates : list FrontierCandidate) (w : ScoringWeights) (round_index : Z) : Fold :=
  let axes := frontier_axes w in
  foldl (admit_step champion w (promote_margin w) (axis_values (fc_aggregate champion) axes) axes
           round_index)
    {| surviving := surviving f; fold_retired := fold_retired f; retired_ids := retired_ids f;
       known := (fm_generation_id <$> surviving f) ++ [fc_generation_id champion];
       admitted_ids := admitted_ids f |} (py_sorted candidate_lt candidates).

Definition update_frontier (frontier : ParetoFrontier) (champion : FrontierCandidate)
    (candidates : list FrontierCandidate) (w : ScoringWeights) (round_index : Z)
    : FrontierUpdate :=
  if is_placebo champion
  then {| fu_frontier := frontier; fu_admitted := []; fu_retired := [] |}
  else
    let f := admit_pass (retire_pass frontier champion w round_index) champion candidates w
               round_index in
    {| fu_frontier := {|
         pf_epoch_id := pf_epoch_id frontier; pf_axes := frontier_axes w;
         pf_margin := promote_margin w; pf_champion_generation_id := fc_generation_id champion;
         updated_round := round_index; pf_members := py_sorted member_lt (surviving f);
         pf_retired := py_sorted retired_lt (fold_retired f) |};
       fu_admitted := admitted_ids f; fu_retired := retired_ids f |}.

(** ** The file *)

Definition FRONTIER_FILENAME : string := "pareto_frontier.json".

Definition member_items (m : FrontierMember) : list (string * Json) :=
  [("generation_id", JStr (fm_generation_id m)); ("round_admitted", JInt (round_admitted m));
   ("champion_generation_id", JStr (fm_champion_generation_id m));
   ("axis_values", JObj (prod_map id JFloat <$> fm_axis_values m));
   ("beats_champion_on", JArr (JStr <$> beats_champion_on m));
   ("scalar", from_option JFloat JNull (fm_scalar m))].

Definition _member_to_dict (m : FrontierMember) : Json := JObj (member_items m).

Definition retired_items (r : RetiredMember) : list (string * Json) :=
  member_items (rm_member r)
  ++ [("round_retired", JInt (round_retired r)); ("reason", JStr (rm_reason r))].

Definition retired_to_dict (r : RetiredMember) : Json := JObj (retired_items r).

Definition frontier_items (f : ParetoFrontier) : list (string * Json) :=
  [("format_version", JInt RECORD_FORMAT_VERSION); ("epoch_id", JStr (pf_epoch_id f));
        ("axes", JArr (JStr <$> pf_axes f)); ("margin", JFloat (pf_margin f));
        ("champion_generation_id", JStr (pf_champion_generation_id f));
        ("updated_round", JInt (updated_round f));
        ("members", JArr (_member_to_dict <$> pf_members f));
        ("retired", JArr (retired_to_dict <$> pf_retired f))].

Definition frontier_to_dict (f : ParetoFrontier) : Json := JObj (frontier_items f).

Section Parsing.
Context `{PyConv} `{PyFloatParse}.

(** A list of strings; anything but a list is none. *)
Definition strings_of (v : Json) : list string :=
  match v with JArr items => json_str <$> items | _ => [] end.

Definition values_of (v : Json) : result AxisValues :=
  match v with
  | JObj items =>
      result_foldl (fun values item =>
                      float_or item.2 (fun x => dict_set values item.1 x) values) [] items
  | _ => Ok []
  end.

Definition _member_from_dict (body : list (string * Json)) : result FrontierMember :=
  try values <- values_of (get_or body "axis_values" (JObj []));
  try sc <- match dict_get body "scalar" with
            | None | Some JNull => Ok None
            | Some v => float_or v Some None
            end;
  try round_admitted <- json_int (get_or body "round_admitted" (JInt 0));
  Ok {| fm_generation_id :=
          match dict_get body "generation_id" with Some v => json_str v | None => "" end;
        round_admitted := round_admitted;
        fm_champion_generation_id := json_str (get_or body "champion_generation_id" (JStr ""));
        fm_axis_values := values;
        beats_champion_on := strings_of (get_or body "beats_champion_on" (JArr []));
        fm_scalar := sc |}.

(** The objects of a list; iterating what is no list raises unless it is empty. *)
Definition objects_of (v : Json) : result (list (list (string * Json))) :=
  match v with
  | JArr items => Ok (omap (fun v => match v with JObj d => Some d | _ => None end) items)
  | JStr _ | JObj _ => Ok []
  | _ => Raise (TypeError "object is not iterable")
  end.

Definition _retired_from_dict (body : list (string * Json)) : result RetiredMember :=
  try m <- _member_from_dict body;
  try round_retired <- json_int (get_or body "round_retired" (JInt 0));
  Ok {| rm_member := m; round_retired := round_retired;
        rm_reason := json_str (get_or body "reason" (JStr "")) |}.

Definition frontier_from_dict (body : list (string * Json)) (epoch_id : string)
    : result ParetoFrontier :=
  try _ <- check_record_format body FRONTIER_FILENAME RECORD_FORMAT_VERSION;
  let axes := strings_of (get_or body "axes" (JArr [])) in
  try members <- (try items <- objects_of (get_or body "members" (JArr []));
                  result_map _member_from_dict items);
  try retired <- (try items <- objects_of (get_or body "retired" (JArr []));
                  result_map _retired_from_dict items);
  try margin <- float_or (get_or body "margin" (JFloat f0)) id f0;
  try updated_round <- json_int (get_or body "updated_round" (JInt 0));
  Ok {| pf_epoch_id := json_str (get_or body "epoch_id" (JStr epoch_id)); pf_axes := axes;
        pf_margin := margin;
        pf_champion_generation_id := json_str (get_or body "champion_generation_id" (JStr ""));
        updated_round := updated_round; pf_members := members; pf_retired := retired |}.

Definition empty_frontier (epoch_id : string) : ParetoFrontier := {|
  pf_epoch_id := epoch_id; pf_axes := []; pf_margin := f0; pf_champion_generation_id := "";
  updated_round := 0; pf_members := []; pf_retired := [] |}.

(** [file] is what [read_json] decoded, [None] when there is no file. *)
Definition load_frontier (file : option Json) (epoch_id : string) : result ParetoFrontier :=
  match file with
  | Some (JObj body) => frontier_from_dict body epoch_id
  | _ => Ok (empty_frontier epoch_id)
  end.

(** The update, and the file it leaves. *)
Definition record_frontier (file : option Json) (epoch_id : string)
    (champion : FrontierCandidate) (candidates : list FrontierCandidate) (w : ScoringWeights)
    (round_index : Z) : result (FrontierUpdate * option Json) :=
  try current <- load_frontier file epoch_id;
  let update := update_frontier current champion candidates w round_index in
  Ok (update, if changed update then Some (frontier_to_dict (fu_frontier update)) else file).
End Parsing.
