(* ===== verification/ParetoSpec.v ===== *)
(** The frontier's record is an antichain nothing on it and no champion dominates, it
    loses no member without a recorded reason, and it survives its file. *)

From S2P Require Import Prelude PyFloat PyText PyJson CoreTypes Gate Pareto.

(** ** Dominance *)

Lemma better_by_asym margin x y : better_by margin x y = true -> better_by margin y x = false.
Proof.
  unfold better_by. intros [_ H]%andb_prop. by rewrite (flt_asym _ _ H), andb_false_r.
Qed.

Lemma better_by_irrefl margin x : better_by margin x x = false.
Proof. unfold better_by. by rewrite flt_irrefl, andb_false_r. Qed.

(** Better somewhere, worse nowhere. *)
Lemma dominates_from_true margin lhs rhs b :
  dominates_from margin b lhs rhs = true <->
  (b = true \/ exists ns v o, (ns, v) ∈ lhs /\ dict_get rhs ns = Some o /\ better_by margin v o = true)
  /\ (forall ns v o, (ns, v) ∈ lhs -> dict_get rhs ns = Some o -> better_by margin o v = false).
Proof.
  revert b. induction lhs as [|[ns v] lhs IH]; intros b; cbn.
  { split; [intros ->; split; [by left|]|].
    - intros ns v o Hin. by apply elem_of_nil in Hin.
    - intros [[->|(ns & v & o & Hin & _)] _]; [done|]. by apply elem_of_nil in Hin. }
  destruct (dict_get rhs ns) as [o|] eqn:Eo.
  2: { rewrite IH. setoid_rewrite elem_of_cons. naive_solver congruence. }
  destruct (better_by margin v o) eqn:Eb.
  { rewrite IH. setoid_rewrite elem_of_cons. pose proof (better_by_asym _ _ _ Eb). split.
    - intros [_ H']. split; [right; exists ns, v, o; auto|]. intros ? ? ? [[= -> ->]|]; naive_solver congruence.
    - intros [_ H']. split; [by left|]. naive_solver. }
  destruct (better_by margin o v) eqn:Eb'.
  { split; [done|]. intros [_ H']. rewrite (H' ns v o) in Eb'; [done|by left|done]. }
  rewrite IH. setoid_rewrite elem_of_cons. split.
  - intros [H1 H2]. split; [naive_solver|]. intros ? ? ? [[= -> ->]|]; naive_solver congruence.
  - intros [H1 H2]. split; [|naive_solver]. destruct H1 as [->|(ns' & v' & o' & [[= -> ->]|Hin] & Ho & Hb)];
      [by left|congruence|]. right. by exists ns', v', o'.
Qed.

Lemma dominates_true margin lhs rhs :
  dominates margin lhs rhs = true <->
  (exists ns v o, (ns, v) ∈ lhs /\ dict_get rhs ns = Some o /\ better_by margin v o = true)
  /\ (forall ns v o, (ns, v) ∈ lhs -> dict_get rhs ns = Some o -> better_by margin o v = false).
Proof. unfold dominates. rewrite dominates_from_true. naive_solver. Qed.

(** An axis where the right side is better keeps the left from dominating. *)
Lemma dominates_blocked margin lhs rhs ns v o :
  (ns, v) ∈ lhs -> dict_get rhs ns = Some o -> better_by margin o v = true ->
  dominates margin lhs rhs = false.
Proof.
  intros Hin Ho Hb. destruct (dominates margin lhs rhs) eqn:E; [|done].
  apply dominates_true in E as [_ Hn]. by rewrite (Hn ns v o) in Hb.
Qed.

Lemma dominates_irrefl margin l : NoDup (dict_keys l) -> dominates margin l l = false.
Proof.
  intros Hnd. destruct (dominates margin l l) eqn:E; [|done].
  apply dominates_true in E as [(ns & v & o & Hin & Ho & Hb) _].
  rewrite (dict_elem_get l ns v Hnd Hin) in Ho. injection Ho as <-. by rewrite better_by_irrefl in Hb.
Qed.

Lemma dominates_asym margin l r :
  NoDup (dict_keys l) -> dominates margin l r = true -> dominates margin r l = false.
Proof.
  intros Hnd [(ns & v & o & Hin & Ho & Hb) _]%dominates_true.
  exact (dominates_blocked margin r l ns o v (dict_get_Some_elem _ _ _ Ho)
           (dict_elem_get l ns v Hnd Hin) Hb).
Qed.

(** ** Axis values *)

Lemma axis_values_get aggregate axes ns v :
  dict_get (axis_values aggregate axes) ns = Some v ->
  dict_get (from_option id [] (namespace_aggregates aggregate)) ns = Some v.
Proof.
  unfold axis_values. set (raw := from_option id [] _).
  assert (forall out, (forall k x, dict_get out k = Some x -> dict_get raw k = Some x) ->
    forall k x, dict_get (foldl (fun out ns => match dict_get raw ns with
                   | Some value => if isfinite value then dict_set out ns value else out
                   | None => out end) out axes) k = Some x -> dict_get raw k = Some x) as Hgen.
  { induction axes as [|a axes IH]; intros out Hout k x; cbn; [by apply Hout|]. apply IH.
    intros k' x'. destruct (dict_get raw a) as [value|] eqn:Ea; [|by apply Hout].
    destruct (isfinite value); [|by apply Hout]. rewrite dict_get_set.
    case_decide as Hk; [subst; by intros [= <-]|by apply Hout]. }
  by apply Hgen.
Qed.

Lemma axis_values_NoDup aggregate axes : NoDup (dict_keys (axis_values aggregate axes)).
Proof.
  unfold axis_values. set (raw := from_option id [] _).
  assert (forall out, NoDup (dict_keys out) -> NoDup (dict_keys
    (foldl (fun out ns => match dict_get raw ns with
              | Some value => if isfinite value then dict_set out ns value else out
              | None => out end) out axes))) as Hgen.
  { induction axes as [|a axes IH]; intros out Hout; cbn; [done|]. apply IH.
    destruct (dict_get raw a); [|done]. case_match; [by apply NoDup_dict_keys_set|done]. }
  apply Hgen. constructor.
Qed.

(** The champion does not dominate what beats it somewhere. *)
Lemma beats_on_not_dominated margin values reference ns rest :
  NoDup (dict_keys values) -> beats_on margin values reference = ns :: rest ->
  dominates margin reference values = false.
Proof.
  intros Hnd Hb. assert (ns ∈ beats_on margin values reference) as Hin by (rewrite Hb; by left).
  unfold beats_on, sorted_strings in Hin. rewrite elem_of_py_sorted in Hin.
  apply list_elem_of_fmap in Hin as ([k v] & -> & Hin). apply elem_of_filter_In in Hin as [Hin Hk].
  cbn in Hk. destruct (dict_get reference k) as [r|] eqn:Er; [|done].
  exact (dominates_blocked margin reference values k r v (dict_get_Some_elem _ _ _ Er)
           (dict_elem_get values k v Hnd Hin) Hk).
Qed.

(** A member's axes are a restriction of its candidate's namespaces, so the
    monotonicity rule that let the candidate in holds of the member. *)
Lemma namespace_regressed_restrict parent_ns full part w item :
  (forall k v, dict_get part k = Some v -> dict_get full k = Some v) ->
  namespace_regressed parent_ns part w item = true ->
  namespace_regressed parent_ns full w item = true.
Proof.
  intros Hsub. destruct item as [ns enabled]. unfold namespace_regressed. destruct (negb enabled); [done|].
  destruct (feq _ _); [done|]. destruct (dict_get parent_ns ns); [|done].
  destruct (dict_get part ns) eqn:E; [|done]. by rewrite (Hsub _ _ E).
Qed.

Lemma regressed_restrict champ full part w :
  (forall k v, dict_get (from_option id [] (namespace_aggregates part)) k = Some v ->
     dict_get (from_option id [] (namespace_aggregates full)) k = Some v) ->
  regressed_namespaces champ full w = [] -> regressed_namespaces champ part w = [].
Proof.
  intros Hsub. unfold regressed_namespaces, sorted_strings. intros Hnil%py_sorted_nil%fmap_nil_inv.
  destruct (List.filter (namespace_regressed _ (from_option id [] (namespace_aggregates part)) w) _)
    as [|item items] eqn:E; [done|]. exfalso.
  assert (item ∈ item :: items) as Hin by (by left). rewrite <-E in Hin.
  apply elem_of_filter_In in Hin as [Hin Hr]. apply (elem_of_nil item). rewrite <-Hnil.
  apply elem_of_filter_In. split; [done|]. by eapply namespace_regressed_restrict.
Qed.

(** ** The invariant of the survivors *)

Definition ids_of (ms : list FrontierMember) : list string := fm_generation_id <$> ms.

(** No member dominates another, and each is listed once. *)
Record antichain (margin : float) (ms : list FrontierMember) : Prop := {
  ac_ids : NoDup (ids_of ms);
  ac_keys : forall m, m ∈ ms -> NoDup (dict_keys (fm_axis_values m));
  ac_free : forall a b, a ∈ ms -> b ∈ ms ->
              dominates margin (fm_axis_values a) (fm_axis_values b) = false;
}.

(** The champion retires none of them. *)
Definition unbeaten (champion : FrontierCandidate) (w : ScoringWeights) (ms : list FrontierMember)
    : Prop :=
  forall m, m ∈ ms ->
    retire_reason champion w (promote_margin w)
      (axis_values (fc_aggregate champion) (frontier_axes w)) m = None.

Lemma antichain_sublist margin ms ms' : sublist ms' ms -> antichain margin ms -> antichain margin ms'.
Proof.
  intros Hs [H1 H2 H3]. assert (forall m, m ∈ ms' -> m ∈ ms) as Hin.
  { intros m Hm. by eapply elem_of_submseteq, sublist_submseteq. }
  constructor; [|by auto|by auto]. eapply sublist_NoDup; [exact H1|by apply fmap_sublist].
Qed.

Lemma antichain_perm margin ms ms' : ms ≡ₚ ms' -> antichain margin ms -> antichain margin ms'.
Proof.
  intros Hp [H1 H2 H3]. constructor.
  - unfold ids_of in *. by rewrite <-Hp.
  - intros m. rewrite <-Hp. apply H2.
  - intros a b. rewrite <-Hp. apply H3.
Qed.

(** The retire pass keeps exactly the members the champion does not retire. *)
Lemma retire_foldl champion w margin values ix ms f :
  let f' := foldl (retire_step champion w margin values ix) f ms in
  surviving f' = surviving f
    ++ List.filter (fun m => bool_decide (retire_reason champion w margin values m = None)) ms
  /\ surviving f' ++ (rm_member <$> fold_retired f')
     ≡ₚ surviving f ++ (rm_member <$> fold_retired f) ++ ms
  /\ admitted_ids f' = admitted_ids f.
Proof.
  revert f. induction ms as [|m ms IH]; intros f; cbn [foldl List.filter].
  { by rewrite !app_nil_r. }
  destruct (IH (retire_step champion w margin values ix f m)) as (H1 & H2 & H3).
  cbn zeta in *. split; [rewrite H1; clear|split; [rewrite H2; clear|rewrite H3; clear]];
    unfold retire_step; destruct (retire_reason champion w margin values m) as [why|] eqn:E; cbn; try done.
  - by rewrite <-app_assoc.
  - rewrite fmap_app. cbn. solve_Permutation.
  - solve_Permutation.
Qed.

(** What the admit_member pass keeps of the fold. *)
Record admitting (champion : FrontierCandidate) (w : ScoringWeights) (f : Fold) : Prop := {
  ad_antichain : antichain (promote_margin w) (surviving f);
  ad_unbeaten : unbeaten champion w (surviving f);
  ad_known : forall i, i ∈ (fc_generation_id champion :: ids_of (surviving f)) -> i ∈ known f;
}.

(** What a candidate that is let in carries. *)
Lemma admissible_ok champion w f c m ix :
  admissible champion w (promote_margin w) (axis_values (fc_aggregate champion) (frontier_axes w))
    (frontier_axes w) ix f c = Some m ->
  is_placebo c = false /\ fm_generation_id m = fc_generation_id c
  /\ (fm_generation_id m ∉ known f) /\ fm_champion_generation_id m = fc_generation_id champion
  /\ fm_axis_values m = axis_values (fc_aggregate c) (frontier_axes w)
  /\ beats_champion_on m <> []
  /\ regressed_namespaces (fc_aggregate champion) (_as_agg m) w = []
  /\ dominates (promote_margin w) (axis_values (fc_aggregate champion) (frontier_axes w))
       (fm_axis_values m) = false
  /\ (forall old, old ∈ surviving f ->
        dominates (promote_margin w) (fm_axis_values old) (fm_axis_values m) = false).
Proof.
  unfold admissible. destruct (bool_decide _ || is_placebo c) eqn:Ek; [done|].
  apply orb_false_iff in Ek as [Ek Ep]. apply bool_decide_eq_false in Ek.
  set (values := axis_values (fc_aggregate c) (frontier_axes w)).
  set (champ := axis_values (fc_aggregate champion) (frontier_axes w)).
  destruct values as [|v vs] eqn:Ev; [done|]. rewrite <-Ev.
  destruct (regressed_namespaces _ _ _) eqn:Er; [|done].
  destruct (beats_on _ _ _) as [|b bs] eqn:Eb; [done|].
  destruct (existsb _ _) eqn:Ee; [done|]. intros [= <-]. cbn.
  split_and!; try done.
  - eapply regressed_restrict; [|exact Er]. cbn. intros k x. apply axis_values_get.
  - eapply beats_on_not_dominated; [|exact Eb]. apply axis_values_NoDup.
  - intros old Hold. destruct (dominates _ (fm_axis_values old) _) eqn:Ed; [|done].
    apply not_true_iff_false in Ee. destruct Ee. apply existsb_exists. exists old.
    split; [by apply list_elem_of_In|done].
Qed.

Lemma member_eq_id a b : member_eq a b = true -> fm_generation_id a = fm_generation_id b.
Proof. unfold member_eq. rewrite !andb_true_iff, String.eqb_eq. tauto. Qed.

Lemma ids_of_inj ms a b :
  NoDup (ids_of ms) -> a ∈ ms -> b ∈ ms -> fm_generation_id a = fm_generation_id b -> a = b.
Proof.
  intros Hnd Ha Hb E. induction ms as [|m ms IH]; [by apply elem_of_nil in Ha|].
  unfold ids_of in Hnd. cbn in Hnd. apply NoDup_cons in Hnd as [Hm Hnd].
  assert (forall x, x ∈ ms -> fm_generation_id x <> fm_generation_id m) as Hne.
  { intros x Hx Ex. apply Hm. rewrite <-Ex. by apply list_elem_of_fmap_2. }
  apply elem_of_cons in Ha as [->|Ha], Hb as [->|Hb]; try done.
  - by destruct (Hne b Hb).
  - by destruct (Hne a Ha).
  - by apply IH.
Qed.

(** With distinct ids, what an admission removes is what the newcomer dominates. *)
Lemma admit_survivors margin ix f m :
  NoDup (ids_of (surviving f)) ->
  surviving (admit_member margin ix f m)
  = List.filter (fun old => negb (dominates margin (fm_axis_values m) (fm_axis_values old)))
      (surviving f) ++ [m].
Proof.
  intros Hnd. unfold admit_member. cbn. f_equal. apply filter_ext. intros old Hold. f_equal.
  destruct (dominates margin (fm_axis_values m) (fm_axis_values old)) eqn:E; [done|]. cbn.
  apply not_true_iff_false. intros (d & Hd%list_elem_of_In & Heq%member_eq_id)%existsb_exists.
  apply elem_of_filter_In in Hd as [Hd Hdom].
  rewrite (ids_of_inj (surviving f) old d) in E by done. congruence.
Qed.

Lemma retire_all ix why f ms :
  let f' := foldl (fun f old => _retire ix f old why) f ms in
  rm_member <$> fold_retired f' = (rm_member <$> fold_retired f) ++ ms.
Proof.
  revert f. induction ms as [|m ms IH]; intros f; cbn in *; [by rewrite app_nil_r|].
  rewrite IH. cbn. by rewrite fmap_app, <-app_assoc.
Qed.

(** One admission conserves the members. *)
Lemma admit_perm margin ix f m :
  NoDup (ids_of (surviving f)) ->
  surviving (admit_member margin ix f m) ++ (rm_member <$> fold_retired (admit_member margin ix f m))
  ≡ₚ m :: surviving f ++ (rm_member <$> fold_retired f).
Proof.
  intros Hnd. rewrite admit_survivors by done. unfold admit_member at 1. cbn [fold_retired].
  rewrite retire_all.
  rewrite <-(filter_complement (fun old => dominates margin (fm_axis_values m) (fm_axis_values old))
               (surviving f)) at 3.
  solve_Permutation.
Qed.

Lemma admit_admitting champion w f c m ix :
  admitting champion w f ->
  admissible champion w (promote_margin w) (axis_values (fc_aggregate champion) (frontier_axes w))
    (frontier_axes w) ix f c = Some m ->
  admitting champion w (admit_member (promote_margin w) ix f m).
Proof.
  intros [Hac Hun Hkn] (Hp & Hid & Hnew & _ & Hval & _ & Hreg & Hdom & Hold)%admissible_ok.
  pose proof (ac_ids _ _ Hac) as Hids.
  assert (NoDup (dict_keys (fm_axis_values m))) as Hkeys by (rewrite Hval; apply axis_values_NoDup).
  pose proof (admit_survivors (promote_margin w) ix f m Hids) as Hsurv.
  assert (forall x, x ∈ surviving (admit_member (promote_margin w) ix f m) ->
    x = m \/ (x ∈ surviving f /\ dominates (promote_margin w) (fm_axis_values m) (fm_axis_values x) = false))
    as Hx.
  { intros x. rewrite Hsurv, elem_of_app, elem_of_filter_In, list_elem_of_singleton, negb_true_iff. tauto. }
  assert (fm_generation_id m ∉ ids_of (surviving f)) as Hm.
  { intros Hin. apply Hnew, Hkn. by right. }
  constructor.
  - constructor.
    + rewrite Hsurv. unfold ids_of. rewrite fmap_app. apply NoDup_app. split_and!; [| |apply NoDup_singleton].
      * eapply sublist_NoDup; [exact Hids|]. apply fmap_sublist, list_filter_sublist.
      * intros i Hi ->%list_elem_of_singleton. apply Hm.
        eapply elem_of_submseteq; [exact Hi|]. apply sublist_submseteq, fmap_sublist, list_filter_sublist.
    + intros x [->|[Hin _]]%Hx; [done|]. by apply (ac_keys _ _ Hac).
    + intros a b [->|[Ha Ha']]%Hx [->|[Hb Hb']]%Hx; auto.
      * by apply dominates_irrefl.
      * by apply (ac_free _ _ Hac).
  - intros x [->|[Hin _]]%Hx; [|by apply Hun]. unfold retire_reason.
    destruct (String.eqb_spec (fm_generation_id m) (fc_generation_id champion)) as [E|_].
    { destruct Hnew. rewrite E. apply Hkn. by left. }
    by rewrite Hreg, Hdom.
  - intros i Hi. cbn. rewrite elem_of_app, list_elem_of_singleton.
    apply elem_of_cons in Hi as [->|Hi]; [left; apply Hkn; by left|].
    apply list_elem_of_fmap in Hi as (x & -> & [->|[Hin _]]%Hx); [by right|].
    left. apply Hkn. right. by apply list_elem_of_fmap_2.
Qed.

(** ** Rounds *)

(** What a candidate admitted in a round became. *)
Definition entered (champion : FrontierCandidate) (w : ScoringWeights) (cs : list FrontierCandidate)
    (m : FrontierMember) : Prop :=
  exists c, c ∈ cs /\ is_placebo c = false /\ fm_generation_id m = fc_generation_id c
    /\ fm_champion_generation_id m = fc_generation_id champion
    /\ fm_axis_values m = axis_values (fc_aggregate c) (frontier_axes w)
    /\ beats_champion_on m <> [].

Lemma admit_foldl champion w ix cs f :
  admitting champion w f ->
  let f' := foldl (admit_step champion w (promote_margin w)
                     (axis_values (fc_aggregate champion) (frontier_axes w)) (frontier_axes w) ix) f cs in
  admitting champion w f' /\ exists new,
    admitted_ids f' = admitted_ids f ++ ids_of new
    /\ surviving f' ++ (rm_member <$> fold_retired f')
       ≡ₚ new ++ surviving f ++ (rm_member <$> fold_retired f)
    /\ Forall (entered champion w cs) new.
Proof.
  revert f. induction cs as [|c cs IH]; intros f Hf; cbn [foldl].
  { split; [done|]. exists []. cbn. by rewrite app_nil_r. }
  assert (forall m, entered champion w cs m -> entered champion w (c :: cs) m) as Hmore.
  { intros m (c' & Hin & Hrest). exists c'. split; [by right|done]. }
  unfold admit_step at 2 4 6 8.
  destruct (admissible _ _ _ _ _ _ f c) as [m|] eqn:Em.
  - pose proof (admit_admitting _ _ _ _ _ _ Hf Em) as Hadm.
    destruct (IH _ Hadm) as (Hf' & new & Hids & Hperm & Hnew).
    split; [done|]. exists (m :: new). split_and!.
    + rewrite Hids. cbn. by rewrite <-app_assoc.
    + rewrite Hperm, admit_perm by apply (ac_ids _ _ (ad_antichain _ _ _ Hf)). solve_Permutation.
    + constructor; [|by eapply Forall_impl].
      apply admissible_ok in Em as (? & ? & _ & ? & ? & ? & _). exists c. split; [by left|done].
  - destruct (IH _ Hf) as (Hf' & new & Hids & Hperm & Hnew). split; [done|]. exists new.
    split_and!; [done|done|by eapply Forall_impl].
Qed.

Record Settled := {
  st_champion : FrontierCandidate;
  st_candidates : list FrontierCandidate;
  st_round : Z;
}.

Definition settle (w : ScoringWeights) (f : ParetoFrontier) (r : Settled) : FrontierUpdate :=
  update_frontier f (st_champion r) (st_candidates r) w (st_round r).

(** The record of an epoch after its rounds. *)
Definition frontier_of (w : ScoringWeights) (epoch : string) (rounds : list Settled) : ParetoFrontier :=
  foldl (fun f r => fu_frontier (settle w f r)) (empty_frontier epoch) rounds.

Lemma frontier_of_snoc w epoch rounds r :
  frontier_of w epoch (rounds ++ [r]) = fu_frontier (settle w (frontier_of w epoch rounds) r).
Proof. unfold frontier_of. by rewrite foldl_app. Qed.

(** One round against a champion that is no placebo. *)
Lemma settle_ok w f r :
  antichain (promote_margin w) (pf_members f) -> is_placebo (st_champion r) = false ->
  let u := settle w f r in
  let after := fu_frontier u in
  antichain (promote_margin w) (pf_members after)
  /\ unbeaten (st_champion r) w (pf_members after)
  /\ exists new, fu_admitted u = ids_of new
     /\ pf_members after ++ (rm_member <$> pf_retired after)
        ≡ₚ new ++ pf_members f ++ (rm_member <$> pf_retired f)
     /\ Forall (entered (st_champion r) w (st_candidates r)) new.
Proof.
  intros Hac Hp. unfold settle, update_frontier. rewrite Hp. cbn zeta. cbn [fu_frontier fu_admitted pf_members pf_retired].
  destruct r as [champion cs ix]. cbn [st_champion st_candidates st_round] in *.
  set (values := axis_values (fc_aggregate champion) (frontier_axes w)).
  pose proof (retire_foldl champion w (promote_margin w) values ix (pf_members f)
    {| surviving := []; fold_retired := pf_retired f; retired_ids := []; known := [];
       admitted_ids := [] |}) as (H1 & H2 & H3). cbn zeta in H1, H2, H3.
  unfold admit_pass, retire_pass. fold values.
  set (f1 := foldl (retire_step champion w _ values ix) _ _) in *. cbn [surviving fold_retired app] in H1, H2.
  set (start := {| surviving := surviving f1; fold_retired := _ |}).
  assert (admitting champion w start) as Hstart.
  { constructor; cbn [surviving known start].
    - rewrite H1. eapply antichain_sublist; [apply list_filter_sublist|done].
    - intros m. rewrite H1, elem_of_filter_In, bool_decide_eq_true. tauto.
    - intros i. set_solver. }
  destruct (admit_foldl champion w ix (py_sorted candidate_lt cs) start Hstart)
    as ([Hac' Hun' _] & new & Hids & Hperm & Hnew). fold values in Hac', Hun', Hids, Hperm.
  split; [|split].
  - eapply antichain_perm; [|exact Hac']. symmetry. apply py_sorted_perm.
  - intros m. rewrite elem_of_py_sorted. apply Hun'.
  - exists new. split_and!.
    + rewrite Hids. cbn [start admitted_ids]. by rewrite H3.
    + etrans; [apply Permutation_app; [apply py_sorted_perm|apply fmap_Permutation, py_sorted_perm]|].
      etrans; [exact Hperm|]. cbn [start surviving fold_retired].
      by rewrite H2, (comm (++) (pf_members f)).
    + eapply Forall_impl; [exact Hnew|]. intros m (c & Hc & Hrest). exists c.
      by rewrite elem_of_py_sorted in Hc.
Qed.

Lemma frontier_of_antichain w epoch rounds :
  antichain (promote_margin w) (pf_members (frontier_of w epoch rounds)).
Proof.
  induction rounds as [|r rounds IH] using rev_ind.
  { constructor; [constructor|intros m Hm|intros a b Ha]; by apply elem_of_nil in Hm || apply elem_of_nil in Ha. }
  rewrite frontier_of_snoc. destruct (is_placebo (st_champion r)) eqn:Ep; [|by apply settle_ok].
  unfold settle, update_frontier. by rewrite Ep.
Qed.

(** The frontier is a frontier: after any rounds of an epoch its members are listed
    once each and none dominates another; and after a round settled against a champion
    that is no placebo, the champion is not on it, dominates none of its members, and
    none of them regresses a tracked namespace against the champion. *)
Theorem frontier_antichain w epoch rounds r :
  is_placebo (st_champion r) = false ->
  let after := frontier_of w epoch (rounds ++ [r]) in
  antichain (promote_margin w) (pf_members after)
  /\ forall m, m ∈ pf_members after ->
       fm_generation_id m <> fc_generation_id (st_champion r)
       /\ dominates (promote_margin w)
            (axis_values (fc_aggregate (st_champion r)) (frontier_axes w)) (fm_axis_values m) = false
       /\ regressed_namespaces (fc_aggregate (st_champion r)) (_as_agg m) w = [].
Proof.
  intros Hp. rewrite frontier_of_snoc.
  destruct (settle_ok w _ r (frontier_of_antichain w epoch rounds) Hp) as (Hac & Hun & _).
  split; [done|]. intros m Hm%Hun. unfold retire_reason in Hm.
  destruct (String.eqb_spec (fm_generation_id m) (fc_generation_id (st_champion r))); [done|].
  destruct (regressed_namespaces _ _ _); [|done]. by destruct (dominates _ _ _).
Qed.

(** The record forgets nobody: in every round of an epoch the members and the retired
    together gain exactly the candidates the round admits, each a candidate of the round
    that is no placebo, recorded with its own axis values, against the round's champion
    and with an axis on which it beat it. *)
Theorem frontier_forgets_nobody w epoch rounds r :
  let before := frontier_of w epoch rounds in
  let u := settle w before r in
  exists new, fu_admitted u = ids_of new
    /\ pf_members (fu_frontier u) ++ (rm_member <$> pf_retired (fu_frontier u))
       ≡ₚ new ++ pf_members before ++ (rm_member <$> pf_retired before)
    /\ Forall (entered (st_champion r) w (st_candidates r)) new.
Proof.
  cbn zeta. destruct (is_placebo (st_champion r)) eqn:Ep.
  - exists []. unfold settle, update_frontier. by rewrite Ep.
  - by destruct (settle_ok w _ r (frontier_of_antichain w epoch rounds) Ep) as (_ & _ & H).
Qed.

(** ** The file *)

#[local] Instance member_lt_swo : StrictWeakOrder member_lt (fun _ => True).
Proof. exact (swo_on fm_generation_id str_lt _ str_lt_swo). Qed.

#[local] Instance retired_lt_swo : StrictWeakOrder retired_lt (fun _ => True).
Proof.
  apply lex_swo.
  - exact (swo_on round_retired Z.ltb _ Z_ltb_swo).
  - exact (swo_on rm_member member_lt _ member_lt_swo).
  - intros x y _ _. apply Z_eqb_ltb.
Qed.

Record wf_frontier (f : ParetoFrontier) : Prop := {
  wf_epoch : pf_epoch_id f <> "";
  wf_margin : feq (pf_margin f) f0 = true -> pf_margin f = f0;
  wf_members : forall m, m ∈ pf_members f ++ (rm_member <$> pf_retired f) ->
                 NoDup (dict_keys (fm_axis_values m));
}.

Section File.
Context `{PyConv} `{PyFloatParse}.

Lemma strings_of_strs l : strings_of (JArr (JStr <$> l)) = l.
Proof. cbn. induction l; cbn; congruence. Qed.

Lemma get_strings (l : list string) :
  strings_of (if truthy (JArr (JStr <$> l)) then JArr (JStr <$> l) else JArr []) = l.
Proof. destruct l; [done|]. apply strings_of_strs. Qed.

Lemma values_of_items vs :
  NoDup (dict_keys vs) -> values_of (JObj (prod_map id JFloat <$> vs)) = Ok vs.
Proof.
  intros Hnd. unfold values_of.
  assert (forall acc, NoDup (dict_keys (acc ++ vs)) ->
    result_foldl (fun values item => float_or item.2 (fun x => dict_set values item.1 x) values) acc
      (prod_map id JFloat <$> vs) = Ok (acc ++ vs)) as Hgen; [|by apply Hgen].
  clear Hnd. induction vs as [|[k v] vs IH]; intros acc Hacc; cbn; [by rewrite app_nil_r|].
  assert (k ∉ dict_keys acc) as Hk.
  { unfold dict_keys in *. rewrite fmap_app in Hacc. apply NoDup_app in Hacc as (_ & Hd & _).
    intros Hin. apply (Hd k Hin). by left. }
  rewrite dict_set_fresh by done. rewrite IH, <-app_assoc; [done|]. by rewrite <-app_assoc.
Qed.

Lemma get_values vs :
  NoDup (dict_keys vs) ->
  values_of (if truthy (JObj (prod_map id JFloat <$> vs)) then JObj (prod_map id JFloat <$> vs)
             else JObj []) = Ok vs.
Proof. destruct vs; [done|]. apply values_of_items. Qed.

Lemma get_str s : json_str (if truthy (JStr s) then JStr s else JStr "") = s.
Proof. cbn. by destruct (String.eqb_spec s "") as [->|]. Qed.

Lemma get_int z : json_int (if truthy (JInt z) then JInt z else JInt 0) = Ok z.
Proof. cbn. by destruct (Z.eqb_spec z 0) as [->|]. Qed.

Lemma get_scalar o :
  match Some (from_option JFloat JNull o) with
  | None | Some JNull => Ok None
  | Some v => float_or v Some None
  end = Ok o.
Proof. by destruct o. Qed.

Lemma member_from_items m extra :
  NoDup (dict_keys (fm_axis_values m)) -> _member_from_dict (member_items m ++ extra) = Ok m.
Proof.
  intros Hnd. unfold _member_from_dict, get_or.
  assert (dict_get (member_items m ++ extra) "generation_id" = Some (JStr (fm_generation_id m))) as -> by done.
  assert (dict_get (member_items m ++ extra) "round_admitted" = Some (JInt (round_admitted m))) as -> by done.
  assert (dict_get (member_items m ++ extra) "champion_generation_id"
          = Some (JStr (fm_champion_generation_id m))) as -> by done.
  assert (dict_get (member_items m ++ extra) "axis_values"
          = Some (JObj (prod_map id JFloat <$> fm_axis_values m))) as -> by done.
  assert (dict_get (member_items m ++ extra) "beats_champion_on"
          = Some (JArr (JStr <$> beats_champion_on m))) as -> by done.
  assert (dict_get (member_items m ++ extra) "scalar" = Some (from_option JFloat JNull (fm_scalar m)))
    as -> by done.
  rewrite get_values, get_int, get_scalar, get_str, get_strings by done. by destruct m.
Qed.

(** A list of objects reads back when each of them does. *)
Lemma objects_round {A} (items : A -> list (string * Json)) (read : list (string * Json) -> result A) l :
  (forall x, x ∈ l -> read (items x) = Ok x) ->
  (try ds <- objects_of (JArr ((fun x => JObj (items x)) <$> l)); result_map read ds) = Ok l.
Proof.
  intros Hread.
  assert (objects_of (JArr ((fun x => JObj (items x)) <$> l)) = Ok (items <$> l)) as ->.
  { unfold objects_of. f_equal. clear Hread. induction l as [|x l IH]; [done|]. cbn. by f_equal. }
  cbn [result_bind]. induction l as [|x l IH]; [done|]. rewrite fmap_cons. cbn [result_map].
  rewrite Hread, IH by set_solver. done.
Qed.

Lemma retired_from_items r :
  NoDup (dict_keys (fm_axis_values (rm_member r))) -> _retired_from_dict (retired_items r) = Ok r.
Proof.
  intros Hnd. unfold _retired_from_dict, retired_items. rewrite member_from_items by done. cbn [result_bind].
  unfold get_or.
  assert (forall extra, dict_get (member_items (rm_member r) ++ ("round_retired", JInt (round_retired r)) :: extra)
            "round_retired" = Some (JInt (round_retired r))) as -> by done.
  assert (dict_get (member_items (rm_member r) ++ [("round_retired", JInt (round_retired r));
            ("reason", JStr (rm_reason r))]) "reason" = Some (JStr (rm_reason r))) as -> by done.
  rewrite get_int, get_str. by destruct r.
Qed.

Lemma get_arr {A} (f : A -> Json) (l : list A) :
  (if truthy (JArr (f <$> l)) then JArr (f <$> l) else JArr []) = JArr (f <$> l).
Proof. by destruct l. Qed.

Lemma get_margin x :
  (feq x f0 = true -> x = f0) ->
  float_or (if truthy (JFloat x) then JFloat x else JFloat f0) id f0 = Ok x.
Proof. intros Hx. cbn. destruct (feq x f0); [by rewrite Hx|done]. Qed.

Lemma frontier_roundtrip f epoch :
  wf_frontier f -> load_frontier (Some (frontier_to_dict f)) epoch = Ok f.
Proof.
  intros [He Hm Hk]. unfold load_frontier, frontier_to_dict, frontier_from_dict, get_or.
  assert (dict_get (frontier_items f) "epoch_id" = Some (JStr (pf_epoch_id f))) as -> by done.
  assert (dict_get (frontier_items f) "axes" = Some (JArr (JStr <$> pf_axes f))) as -> by done.
  assert (dict_get (frontier_items f) "margin" = Some (JFloat (pf_margin f))) as -> by done.
  assert (dict_get (frontier_items f) "champion_generation_id"
          = Some (JStr (pf_champion_generation_id f))) as -> by done.
  assert (dict_get (frontier_items f) "updated_round" = Some (JInt (updated_round f))) as -> by done.
  assert (dict_get (frontier_items f) "members" = Some (JArr (_member_to_dict <$> pf_members f))) as -> by done.
  assert (dict_get (frontier_items f) "retired" = Some (JArr (retired_to_dict <$> pf_retired f))) as -> by done.
  assert (check_record_format (frontier_items f) FRONTIER_FILENAME RECORD_FORMAT_VERSION = Ok tt) as -> by done.
  cbn [result_bind]. rewrite !get_arr.
  rewrite (objects_round member_items).
  2: { intros m Hin. rewrite <-(app_nil_r (member_items m)). apply member_from_items. set_solver. }
  cbn [result_bind]. rewrite (objects_round retired_items).
  2: { intros r Hin. apply retired_from_items, Hk, elem_of_app. right. by apply list_elem_of_fmap_2. }
  cbn [result_bind].
  rewrite get_margin, get_int, get_str by done. cbn [result_bind].
  rewrite strings_of_strs. cbn [truthy]. rewrite (proj2 (String.eqb_neq _ _) He). by destruct f.
Qed.

(** ** The file follows the pure record *)

(** The file after the rounds: absent at first, and written when membership moves. *)
Definition file_of (w : ScoringWeights) (epoch : string) (rounds : list Settled)
    : result (option Json) :=
  result_foldl (fun file r =>
                  try out <- record_frontier file epoch (st_champion r) (st_candidates r) w (st_round r);
                  Ok out.2) None rounds.

(** What the next rounds read of a record. *)
Definition same_record (f g : ParetoFrontier) : Prop :=
  pf_epoch_id f = pf_epoch_id g /\ pf_members f = pf_members g /\ pf_retired f = pf_retired g.

Lemma settle_same w f g r :
  same_record f g ->
  changed (settle w f r) = changed (settle w g r)
  /\ same_record (fu_frontier (settle w f r)) (fu_frontier (settle w g r))
  /\ (is_placebo (st_champion r) = false -> fu_frontier (settle w f r) = fu_frontier (settle w g r)).
Proof.
  intros (He & Hm & Hr). unfold settle, update_frontier. destruct (is_placebo _); [done|].
  unfold retire_pass. rewrite He, Hm, Hr. done.
Qed.

Lemma retire_foldl_ids champion w margin values ix ms f :
  let f' := foldl (retire_step champion w margin values ix) f ms in
  length (retired_ids f) <= length (retired_ids f')
  /\ (retired_ids f' = retired_ids f ->
      surviving f' = surviving f ++ ms /\ fold_retired f' = fold_retired f).
Proof.
  revert f. induction ms as [|m ms IH]; intros f; cbn [foldl]; [by rewrite app_nil_r|].
  destruct (IH (retire_step champion w margin values ix f m)) as [Hlen Hsame]. cbn zeta in *.
  assert (retire_step champion w margin values ix f m
          = match retire_reason champion w margin values m with
            | Some why => _retire ix f m why
            | None => keep f m
            end) as Hstep by done.
  destruct (retire_reason champion w margin values m) as [why|]; rewrite Hstep in *;
    cbn [_retire keep retired_ids surviving fold_retired] in Hlen, Hsame.
  - rewrite length_app in Hlen. cbn in Hlen. split; [lia|]. intros Hids. rewrite Hids in Hlen. lia.
  - split; [done|]. intros [-> ->]%Hsame. by rewrite <-app_assoc.
Qed.

Lemma admit_foldl_ids champion w margin values axes ix cs f :
  let f' := foldl (admit_step champion w margin values axes ix) f cs in
  length (admitted_ids f) <= length (admitted_ids f')
  /\ (admitted_ids f' = admitted_ids f -> f' = f).
Proof.
  revert f. induction cs as [|c cs IH]; intros f; cbn [foldl]; [done|].
  destruct (IH (admit_step champion w margin values axes ix f c)) as [Hlen Hsame]. cbn zeta in *.
  assert (admit_step champion w margin values axes ix f c
          = match admissible champion w margin values axes ix f c with
            | Some m => admit_member margin ix f m
            | None => f
            end) as Hstep by done.
  destruct (admissible champion w margin values axes ix f c) as [m|]; rewrite Hstep in *; [|done].
  cbn in Hlen. rewrite length_app in Hlen. cbn in Hlen. split; [lia|]. intros Hids. rewrite Hids in Hlen. lia.
Qed.

(** A round that moves nothing leaves the sorted record as it was. *)
Lemma settle_unchanged w f r :
  changed (settle w f r) = false ->
  StronglySorted (not_after member_lt) (pf_members f) ->
  StronglySorted (not_after retired_lt) (pf_retired f) ->
  same_record (fu_frontier (settle w f r)) f.
Proof.
  unfold settle, update_frontier. destruct (is_placebo _); [done|].
  unfold changed. cbn [fu_admitted fu_retired fu_frontier]. intros Hch Hsm Hsr.
  destruct r as [champion cs ix]. cbn [st_champion st_candidates st_round] in *.
  unfold admit_pass in *. set (values := axis_values (fc_aggregate champion) (frontier_axes w)) in *.
  set (f1 := retire_pass f champion w ix) in *.
  set (start := {| surviving := surviving f1; fold_retired := _ |}) in *.
  destruct (admit_foldl_ids champion w (promote_margin w) values (frontier_axes w) ix
              (py_sorted candidate_lt cs) start) as [_ Hsame]. cbn zeta in Hsame.
  destruct (retire_foldl champion w (promote_margin w) values ix (pf_members f)
    {| surviving := []; fold_retired := pf_retired f; retired_ids := []; known := [];
       admitted_ids := [] |}) as (_ & _ & Hadm). cbn zeta in Hadm.
  destruct (retire_foldl_ids champion w (promote_margin w) values ix (pf_members f)
    {| surviving := []; fold_retired := pf_retired f; retired_ids := []; known := [];
       admitted_ids := [] |}) as [_ Hret]. cbn zeta in Hret.
  set (f2 := foldl (admit_step champion w _ values _ ix) start _) in *.
  destruct (admitted_ids f2) as [|a ads] eqn:Ea; [|done].
  assert (f2 = start) as Hst.
  { apply Hsame. symmetry. exact Hadm. }
  clearbody f2. subst f2. cbn [start retired_ids surviving fold_retired] in *.
  destruct (retired_ids f1) eqn:Er; [|done]. destruct (Hret Er) as [Hs Hf].
  change (surviving f1 = pf_members f) in Hs. change (fold_retired f1 = pf_retired f) in Hf.
  rewrite Hs, Hf.
  split; [done|]. cbn [fu_frontier pf_members pf_retired app]. by rewrite !sorted_fixed.
Qed.

Lemma frontier_of_sorted w epoch rounds :
  let f := frontier_of w epoch rounds in
  StronglySorted (not_after member_lt) (pf_members f)
  /\ StronglySorted (not_after retired_lt) (pf_retired f).
Proof.
  induction rounds as [|r rounds IH] using rev_ind; [by repeat constructor|].
  rewrite frontier_of_snoc. unfold settle, update_frontier. destruct (is_placebo _); [done|].
  cbn. split; eapply py_sorted_sorted; by apply Forall_true || apply _.
Qed.

Lemma frontier_of_wf w epoch rounds :
  epoch <> "" -> (feq (promote_margin w) f0 = true -> promote_margin w = f0) ->
  wf_frontier (frontier_of w epoch rounds).
Proof.
  intros He Hm. induction rounds as [|r rounds IH] using rev_ind.
  { constructor; [done|done|]. intros m Hin. by apply elem_of_nil in Hin. }
  rewrite frontier_of_snoc. destruct (is_placebo (st_champion r)) eqn:Ep.
  { unfold settle, update_frontier. by rewrite Ep. }
  destruct (settle_ok w _ r (frontier_of_antichain w epoch rounds) Ep) as (_ & _ & new & _ & Hperm & Hnew).
  destruct IH as [He' _ Hk]. constructor.
  - unfold settle, update_frontier. by rewrite Ep.
  - unfold settle, update_frontier. by rewrite Ep.
  - intros m. rewrite Hperm, elem_of_app. intros [Hin|Hin]; [|by apply Hk].
    rewrite Forall_forall in Hnew. apply Hnew in Hin as (c & _ & _ & _ & _ & -> & _). apply axis_values_NoDup.
Qed.

(** C29.  The file implements the record: folding an epoch's rounds through the file, which
    is read before every round and rewritten only when membership moves, never fails, and
    what it then holds has the members and the retired of the record folded in memory. *)
Theorem frontier_file_refines w epoch rounds :
  epoch <> "" -> (feq (promote_margin w) f0 = true -> promote_margin w = f0) ->
  exists file f, file_of w epoch rounds = Ok file /\ load_frontier file epoch = Ok f
    /\ same_record f (frontier_of w epoch rounds).
Proof.
  intros He Hm. induction rounds as [|r rounds IH] using rev_ind.
  { by exists None, (empty_frontier epoch). }
  destruct IH as (file & f & Hfile & Hload & Hsame).
  unfold file_of in *. rewrite result_foldl_app, Hfile, frontier_of_snoc. cbn [result_bind result_foldl].
  unfold record_frontier. rewrite Hload. cbn [result_bind snd].
  destruct (settle_same w f (frontier_of w epoch rounds) r Hsame) as (Hch & Hsame' & Heq).
  fold (settle w f r). destruct (changed (settle w f r)) eqn:Ec.
  - eexists _, _. split; [done|]. split; [|exact Hsame']. apply frontier_roundtrip.
    rewrite Heq, <-frontier_of_snoc; [by apply frontier_of_wf|].
    destruct (is_placebo (st_champion r)) eqn:Ep; [|done].
    unfold settle, update_frontier in Ec. by rewrite Ep in Ec.
  - exists file, f. split; [done|]. split; [done|].
    destruct (frontier_of_sorted w epoch rounds) as [Hsm Hsr].
    destruct (settle_unchanged w (frontier_of w epoch rounds) r) as (H1 & H2 & H3); [congruence|done..|].
    destruct Hsame as (E1 & E2 & E3). split_and!; congruence.
Qed.
End File.

(** ** Two rounds of an epoch *)
Module ParetoWitness.
Definition agg (drift cost : float) : Aggregate := {|
  scalar := Some (fadd drift cost); pass_rate := None; mean_score := None;
  incomplete_entries := []; per_entry := [];
  namespace_aggregates := Some [("drift:", drift); ("cost:", cost)]; scalar_components := None;
  diff_size := None |}.

Definition side (gid : string) (drift cost : float) : FrontierCandidate :=
  {| fc_generation_id := gid; fc_aggregate := agg drift cost; is_placebo := false |}.

(** [v1] wins on cost, [v2] on drift, and in the next round [v3] on both. *)
Definition round0 : Settled := {|
  st_champion := side "v0" 1%float 1%float;
  st_candidates := [side "v2" 0.5%float 2%float; side "v1" 2%float 0.5%float]; st_round := 0 |}.

Definition round1 : Settled := {|
  st_champion := side "v0" 1%float 1%float;
  st_candidates := [side "v3" 0.25%float 0.25%float]; st_round := 1 |}.

Example two_members :
  ids_of (pf_members (frontier_of default_weights "epoch-1" [round0])) = ["v1"; "v2"].
Proof. vm_compute. reflexivity. Qed.

Example both_retired :
  let f := frontier_of default_weights "epoch-1" [round0; round1] in
  ids_of (pf_members f) = ["v3"]
  /\ rm_reason <$> pf_retired f = ["dominated_by:v3"; "dominated_by:v3"].
Proof. vm_compute. split; reflexivity. Qed.

Lemma frontier_antichain_witness :
  antichain (promote_margin default_weights)
    (pf_members (frontier_of default_weights "epoch-1" [round0; round1])).
Proof. apply (frontier_antichain default_weights "epoch-1" [round0] round1). reflexivity. Defined.

Lemma frontier_file_refines_witness :
  exists file f, @file_of plain_conv no_float_text default_weights "epoch-1" [round0; round1] = Ok file
    /\ @load_frontier plain_conv no_float_text file "epoch-1" = Ok f
    /\ same_record f (frontier_of default_weights "epoch-1" [round0; round1]).
Proof.
  apply (@frontier_file_refines plain_conv no_float_text default_weights "epoch-1" [round0; round1]);
    [discriminate|]. vm_compute. discriminate.
Defined.
End ParetoWitness.
