(* ===== verification/Governance.v ===== *)
(** Durable governance of the holdout, [src/zicato/tournament/governance.py]: the ladder's
    state file and its initialization marker, the reservation and the settlement of a
    query, and the outcome a crowning promotion gets from its holdout evidence.

    [Store] is what an epoch's two files hold.  An operation returns its result with the
    successive stores its writes leave, oldest first: every write replaces one file
    atomically, so these are the states a crash can expose.  The lock makes the
    operations of all threads and processes run one after the other; identities
    ([uuid4]) are handed in. *)

From S2P Require Import Prelude PyFloat PyText PyJson CoreTypes Gate.

(** * The holdout ladder, [src/zicato/tournament/ladder.py]: how many holdout queries an
    epoch may spend, and when the answer of one is released. *)

Record LadderState := {
  budget_total : Z;
  budget_remaining : Z;
  best_holdout_scalar : option float;
  best_confirmed : option bool;
}.

Definition seed (cfg : LadderConfig) : LadderState := {|
  budget_total := ladder_budget cfg; budget_remaining := ladder_budget cfg;
  best_holdout_scalar := None; best_confirmed := None |}.

Record LadderRelease := {
  released : bool;
  lr_confirmed : option bool;
  lr_holdout_scalar : option float;
  lr_threshold : float;
  lr_state : LadderState;
}.

Definition effective_threshold (cfg : LadderConfig) (w : ScoringWeights) : float :=
  from_option id (promote_margin w) (ladder_threshold cfg).

(** The state once one query is charged; [None] when the budget is spent. *)
Definition reserve_holdout_query (s : LadderState) : option LadderState :=
  if (budget_remaining s <=? 0)%Z then None
  else Some {| budget_total := budget_total s; budget_remaining := budget_remaining s - 1;
               best_holdout_scalar := best_holdout_scalar s; best_confirmed := best_confirmed s |}.

(** The answer that releases nothing: the best one so far, again. *)
Definition withheld (cfg : LadderConfig) (w : ScoringWeights) (s : LadderState) : LadderRelease := {|
  released := false; lr_confirmed := best_confirmed s; lr_holdout_scalar := best_holdout_scalar s;
  lr_threshold := effective_threshold cfg w; lr_state := s |}.

(** The measured improvement clears the bar. *)
Definition clears_bar (cfg : LadderConfig) (w : ScoringWeights) (train_parent train_child : float)
    : bool := fle (effective_threshold cfg w) (fsub train_parent train_child).

Definition improves_best (s : LadderState) (holdout_scalar : float) : bool :=
  match best_holdout_scalar s with None => true | Some best => fle holdout_scalar best end.

Definition decide_reserved_holdout (charged : LadderState) (cfg : LadderConfig) (w : ScoringWeights)
    (train_parent train_child holdout_scalar : float) (holdout_confirmed : bool) : LadderRelease :=
  if clears_bar cfg w train_parent train_child then
    let better := improves_best charged holdout_scalar in
    {| released := true; lr_confirmed := Some holdout_confirmed;
       lr_holdout_scalar := Some holdout_scalar; lr_threshold := effective_threshold cfg w;
       lr_state := {|
         budget_total := budget_total charged; budget_remaining := budget_remaining charged;
         best_holdout_scalar :=
           if better then Some holdout_scalar else best_holdout_scalar charged;
         best_confirmed := if better then Some holdout_confirmed else best_confirmed charged |} |}
  else withheld cfg w charged.

Definition query_holdout (s : LadderState) (cfg : LadderConfig) (w : ScoringWeights)
    (train_parent train_child holdout_scalar : float) (holdout_confirmed : bool) : LadderRelease :=
  match reserve_holdout_query s with
  | None => withheld cfg w s
  | Some charged =>
      decide_reserved_holdout charged cfg w train_parent train_child holdout_scalar
        holdout_confirmed
  end.

(** ** The evidence block of a round *)

Record HoldoutRecord := {
  hr_confirmation_status : ConfirmationStatus;
  hr_reason : string;
  hr_confirmed : option bool;
  hr_train_scalar : option float;
  hr_holdout_scalar : option float;
  hr_consulted : bool;
  hr_released : bool;
  hr_budget_total : Z;
  hr_budget_before_query : option Z;
  hr_budget_remaining : Z;
  hr_query_reserved : bool;
  hr_threshold : float;
}.

Definition holdout_record (confirmed : option bool) (train_scalar holdout_scalar : option float)
    (consulted rel : bool) (total : Z) (before : option Z) (remaining : Z) (reserved : bool)
    (threshold : float) (status : option ConfirmationStatus) (why : string) : HoldoutRecord := {|
  hr_confirmation_status :=
    match status with
    | Some s => s
    | None =>
        if rel && from_option id false confirmed then SATISFIED
        else if rel then FAILED else INCOMPLETE
    end;
  hr_reason := why; hr_confirmed := confirmed; hr_train_scalar := train_scalar;
  hr_holdout_scalar := holdout_scalar; hr_consulted := consulted; hr_released := rel;
  hr_budget_total := total; hr_budget_before_query := before; hr_budget_remaining := remaining;
  hr_query_reserved := reserved; hr_threshold := threshold |}.

Definition disabled_holdout_record : HoldoutRecord :=
  holdout_record None None None false false 0 None 0 false f0 (Some DISABLED)
    "no holdout slice in the evaluation contract".

(** * Governance *)

(** ** Records *)

Record LadderQueryReservation := {
  lq_state_path : string;
  lq_state_id : string;
  lq_epoch_id : string;
  lq_reservation_id : string;
}.

Record PendingReservation := {
  pending_id : string;
  budget_before_query : Z;
}.

#[export] Instance PendingReservation_eq_dec : EqDecision PendingReservation.
Proof. solve_decision. Defined.

Record DurableLadderState := {
  state_id : string;
  state : LadderState;
  pending_reservations : list PendingReservation;
}.

Definition LadderStateError (msg : string) : exn := OtherException "LadderStateError".

(** ** The state file *)

(** [uuid.UUID(hex=value).hex == value]: the 32 lowercase digits of the number. *)
Definition is_hex_digit (c : Ascii.ascii) : bool :=
  is_digit c || (let n := Ascii.nat_of_ascii c in (97 <=? n) && (n <=? 102)).

Definition _valid_identity (s : string) : bool :=
  (String.length s =? 32) && str_forallb is_hex_digit s.

Definition _LADDER_STATE_FORMAT : Z := 2.

Definition pending_to_json (p : PendingReservation) : Json :=
  JObj [("reservation_id", JStr (pending_id p)); ("budget_before_query", JInt (budget_before_query p))].

Definition _ladder_state_dict (r : DurableLadderState) : Json :=
  let s := state r in
  JObj [("format_version", JInt _LADDER_STATE_FORMAT); ("state_id", JStr (state_id r));
        ("budget_total", JInt (budget_total s)); ("budget_remaining", JInt (budget_remaining s));
        ("best_holdout_scalar", from_option JFloat JNull (best_holdout_scalar s));
        ("best_confirmed", from_option JBool JNull (best_confirmed s));
        ("pending_reservations", JArr (pending_to_json <$> pending_reservations r))].

(** [set(raw) == expected] for a mapping, which has each key once. *)
Definition has_keys (d : list (string * Json)) (expected : list string) : bool :=
  forallb (fun k => dict_mem d k) expected
  && forallb (fun k => bool_decide (k ∈ expected)) (dict_keys d).

Definition state_keys : list string :=
  ["format_version"; "state_id"; "budget_total"; "budget_remaining"; "best_holdout_scalar";
   "best_confirmed"; "pending_reservations"].

Definition pending_keys : list string := ["reservation_id"; "budget_before_query"].

(** [None] is the refusal of one pending reservation. *)
Definition decode_pending (total remaining : Z) (item : Json) : option PendingReservation :=
  match item with
  | JObj d =>
      match has_keys d pending_keys, dict_get d "reservation_id", dict_get d "budget_before_query" with
      | true, Some (JStr i), Some (JInt before) =>
          if _valid_identity i && (remaining <? before)%Z && (before <=? total)%Z
          then Some {| pending_id := i; budget_before_query := before |} else None
      | _, _, _ => None
      end
  | _ => None
  end.

(** The best scalar: a finite number or null. *)
Definition decode_scalar (v : option Json) : option (option float) :=
  match v with
  | Some JNull => Some None
  | Some (JInt z) => if isfinite (float_of_Z z) then Some (Some (float_of_Z z)) else None
  | Some (JFloat x) => if isfinite x then Some (Some x) else None
  | _ => None
  end.

Definition decode_bit (v : option Json) : option (option bool) :=
  match v with Some JNull => Some None | Some (JBool b) => Some (Some b) | _ => None end.

Definition distinct {A} `{EqDecision A} (l : list A) : bool := bool_decide (NoDup l).

(** The checks on the decoded values, one after the other. *)
Definition checked_state (cfg : LadderConfig) (i : string) (total remaining : Z)
    (scalar : option float) (bit : option bool) (raw_pending : list Json)
    : option DurableLadderState :=
  if _valid_identity i && (total =? ladder_budget cfg)%Z && (0 <=? remaining)%Z
     && (remaining <=? total)%Z
     && Bool.eqb (bool_decide (scalar = None)) (bool_decide (bit = None))
  then
    pending ← mapM (decode_pending total remaining) raw_pending;
    if distinct (pending_id <$> pending) && distinct (budget_before_query <$> pending)
       && (Z.of_nat (length pending) <=? total - remaining)%Z
    then Some {| state_id := i;
                 state := {| budget_total := total; budget_remaining := remaining;
                             best_holdout_scalar := scalar; best_confirmed := bit |};
                 pending_reservations := pending |}
    else None
  else None.

(** [_decode_ladder_state]: the shape, then the values. *)
Definition _decode_ladder_state (raw : Json) (cfg : LadderConfig) (path : string)
    : result DurableLadderState :=
  let invalid :=
    Raise (LadderStateError ("Ladder state " +:+ path +:+ " has invalid or mismatched values")) in
  match raw with
  | JObj d =>
      if has_keys d state_keys then
        match dict_get d "format_version", dict_get d "state_id", dict_get d "budget_total",
              dict_get d "budget_remaining", decode_scalar (dict_get d "best_holdout_scalar"),
              decode_bit (dict_get d "best_confirmed"), dict_get d "pending_reservations" with
        | Some (JInt version), Some (JStr i), Some (JInt total), Some (JInt remaining),
          Some scalar, Some bit, Some (JArr raw_pending) =>
            if (version =? _LADDER_STATE_FORMAT)%Z then
              match checked_state cfg i total remaining scalar bit raw_pending with
              | Some r => Ok r
              | None => invalid
              end
            else invalid
        | _, _, _, _, _, _, _ => invalid
        end
      else Raise (LadderStateError ("Ladder state " +:+ path +:+ " has an unsupported shape"))
  | _ => Raise (LadderStateError ("Ladder state " +:+ path +:+ " has an unsupported shape"))
  end.

(** ** The store *)

Inductive File :=
  | Absent
  | Corrupt
  | Holds (body : Json).

Record Store := {
  state_file : File;
  marker_file : File;
}.

Definition empty_store : Store := {| state_file := Absent; marker_file := Absent |}.

(** An operation: the stores its writes leave, oldest first, and its result. *)
Definition Op (A : Type) : Type := list Store * result A.

(** The store an operation ends with. *)
Definition final_store {A} (st : Store) (op : Op A) : Store := List.last op.1 st.

Definition ladder_state_path (epoch_dir : string) : string := epoch_dir +:+ "/ladder_state.json".
Definition _ladder_marker_path (epoch_dir : string) : string :=
  epoch_dir +:+ "/ladder_state.initialized.json".

(** [read_json]: a file that holds [null] reads as an absent one. *)
Definition read_file (path : string) (f : File) : result (option Json) :=
  match f with
  | Absent | Holds JNull => Ok None
  | Holds j => Ok (Some j)
  | Corrupt => Raise (LadderStateError ("cannot read Ladder state " +:+ path))
  end.

Definition write_state (r : DurableLadderState) (st : Store) : Store :=
  {| state_file := Holds (_ladder_state_dict r); marker_file := marker_file st |}.

Definition marker_json (i : string) : Json :=
  JObj [("format_version", JInt _LADDER_STATE_FORMAT); ("state_id", JStr i)].

Definition write_marker (i : string) (st : Store) : Store :=
  {| state_file := state_file st; marker_file := Holds (marker_json i) |}.

(** [marker == {"format_version": 2, "state_id": state_id}], where [2 == 2.0]. *)
Definition marker_matches (marker : Json) (i : string) : bool :=
  match marker with
  | JObj d =>
      has_keys d ["format_version"; "state_id"]
      && match dict_get d "format_version" with
         | Some (JInt z) => (z =? _LADDER_STATE_FORMAT)%Z
         | Some (JFloat x) => feq x (float_of_Z _LADDER_STATE_FORMAT)
         | _ => false
         end
      && match dict_get d "state_id" with Some (JStr s) => String.eqb s i | _ => false end
  | _ => false
  end.

Definition _load_ladder_state_locked (epoch_dir : string) (cfg : LadderConfig) (identity : string)
    (st : Store) : Op DurableLadderState :=
  let path := ladder_state_path epoch_dir in
  match (try raw <- read_file path (state_file st);
         try marker <- read_file path (marker_file st); Ok (raw, marker)) with
  | Raise e => ([], Raise e)
  | Ok (None, Some _) =>
      ([], Raise (LadderStateError ("Ladder state " +:+ path
                                    +:+ " is missing after the epoch budget was initialized")))
  | Ok (None, None) =>
      let r := {| state_id := identity; state := seed cfg; pending_reservations := [] |} in
      let st1 := write_state r st in
      ([st1; write_marker identity st1], Ok r)
  | Ok (Some raw, marker) =>
      match _decode_ladder_state raw cfg path with
      | Raise e => ([], Raise e)
      | Ok r =>
          match marker with
          | None => ([write_marker (state_id r) st], Ok r)
          | Some marker =>
              if marker_matches marker (state_id r) then ([], Ok r)
              else ([], Raise (LadderStateError ("Ladder initialization marker "
                                                 +:+ _ladder_marker_path epoch_dir +:+ " is malformed")))
          end
      end
  end.

Definition op_bind {A B} (st : Store) (op : Op A) (k : Store -> A -> Op B) : Op B :=
  match op.2 with
  | Ok a => let '(later, r) := k (final_store st op) a in (op.1 ++ later, r)
  | Raise e => (op.1, Raise e)
  end.

Definition _load_ladder_state (epoch_dir : string) (cfg : LadderConfig) (identity : string)
    (st : Store) : Op LadderState :=
  op_bind st (_load_ladder_state_locked epoch_dir cfg identity st)
    (fun _ r => ([], Ok (state r))).

(** The record after one query is charged. *)
Definition charge (r : DurableLadderState) (charged : LadderState) (reservation_id : string)
    : DurableLadderState := {|
  state_id := state_id r; state := charged;
  pending_reservations :=
    pending_reservations r
    ++ [{| pending_id := reservation_id; budget_before_query := budget_remaining (state r) |}] |}.

(** [identities] are the new epoch's and the new reservation's. *)
Definition _reserve_ladder_query (epoch_dir epoch_id : string) (cfg : LadderConfig)
    (identities : string * string) (st : Store)
    : Op (LadderState * option LadderQueryReservation) :=
  op_bind st (_load_ladder_state_locked epoch_dir cfg identities.1 st) (fun st r =>
    match reserve_holdout_query (state r) with
    | None => ([], Ok (state r, None))
    | Some charged =>
        ([write_state (charge r charged identities.2) st],
         Ok (charged, Some {| lq_state_path := ladder_state_path epoch_dir;
                              lq_state_id := state_id r; lq_epoch_id := epoch_id;
                              lq_reservation_id := identities.2 |}))
    end).

(** What a settlement is told of the query's evidence. *)
Record Observation := {
  ob_train_parent : float;
  ob_train_child : float;
  ob_holdout_scalar : option float;
  ob_confirmed : bool;
  ob_complete : bool;
}.

Definition settle_release (cfg : LadderConfig) (w : ScoringWeights) (s : LadderState)
    (ob : Observation) : result LadderRelease :=
  if ob_complete ob then
    match ob_holdout_scalar ob with
    | None => Raise (LadderStateError "complete holdout evidence requires a scalar")
    | Some holdout_scalar =>
        Ok (decide_reserved_holdout s cfg w (ob_train_parent ob) (ob_train_child ob)
              holdout_scalar (ob_confirmed ob))
    end
  else Ok (withheld cfg w s).

Definition settled (r : DurableLadderState) (s : LadderState) (reservation_id : string)
    : DurableLadderState := {|
  state_id := state_id r; state := s;
  pending_reservations :=
    List.filter (fun p => negb (String.eqb (pending_id p) reservation_id)) (pending_reservations r) |}.

Definition _settle_ladder_query (epoch_dir epoch_id : string) (res : LadderQueryReservation)
    (cfg : LadderConfig) (w : ScoringWeights) (ob : Observation) (identity : string) (st : Store)
    : Op (LadderRelease * Z) :=
  let path := ladder_state_path epoch_dir in
  let stale := LadderStateError ("Ladder reservation no longer matches " +:+ path) in
  if negb (String.eqb (lq_epoch_id res) epoch_id && String.eqb (lq_state_path res) path)
  then ([], Raise stale)
  else
    op_bind st (_load_ladder_state_locked epoch_dir cfg identity st) (fun st r =>
      if negb (String.eqb (state_id r) (lq_state_id res)) then ([], Raise stale)
      else
        match find_first (fun p => String.eqb (pending_id p) (lq_reservation_id res))
                (pending_reservations r) with
        | None =>
            ([], Raise (LadderStateError
                          ("Ladder reservation was already settled or is unknown at " +:+ path)))
        | Some pending =>
            match settle_release cfg w (state r) ob with
            | Raise e => ([], Raise e)
            | Ok release =>
                ([write_state (settled r (lr_state release) (lq_reservation_id res)) st],
                 Ok (release, budget_before_query pending))
            end
        end).

(** ** Outcomes *)

(** [replace(train_outcome, decision=..., reason=...)] *)
Definition with_verdict (o : GateOutcome) (d : TournamentDecision) (why : string) : GateOutcome := {|
  decision := d; reason := why; delta_scalar := delta_scalar o; delta_pass_rate := delta_pass_rate o;
  attributable_regressions := attributable_regressions o; explanation := explanation o |}.

Definition agg_scalar (a : Aggregate) : result float :=
  match scalar a with Some s => Ok s | None => Raise (KeyError "scalar") end.

Definition _ladder_exhausted_outcome (train_outcome : GateOutcome) (train_child_agg : Aggregate)
    (s : LadderState) (w : ScoringWeights) : result (GateOutcome * HoldoutRecord) :=
  let why := "holdout confirmation incomplete: query allowance exhausted; "
             +:+ "refresh the evaluation contract" in
  try train_scalar <- agg_scalar train_child_agg;
  Ok (with_verdict train_outcome DEFERRED why,
      holdout_record None (Some train_scalar) None false false (budget_total s)
        (Some (budget_remaining s)) (budget_remaining s) false
        (effective_threshold (ladder (overfitting w)) w) None why).

(** The holdout aggregates are a finished measurement. *)
Definition observed (agg : option Aggregate) : bool :=
  match agg with
  | None => false
  | Some a =>
      match incomplete_entries a, scalar a with
      | [], Some s => isfinite s
      | _, _ => false
      end
  end.

Section Outcomes.
Context `{PyFormat}.

(** The raw confirmation: why it fails, or [""]. *)
Definition raw_confirmation (hp hc : option Aggregate) (w : ScoringWeights) : result string :=
  match observed hp && observed hc, hp, hc with
  | true, Some p, Some c => holdout_confirms p c w
  | _, _, _ => Ok "holdout confirmation incomplete: execution did not complete"
  end.

(** The verdict of an unmediated confirmation, the governor switched off. *)
Definition unmediated_outcome (train_outcome : GateOutcome) (complete : bool) (raw_reason : string)
    : GateOutcome :=
  if String.eqb raw_reason "" then train_outcome
  else with_verdict train_outcome (if complete then REJECTED else DEFERRED) raw_reason.

(** The verdict of a settled query: only a released answer confirms or rejects. *)
Definition released_outcome (train_outcome : GateOutcome) (complete : bool) (raw_reason : string)
    (release : LadderRelease) : GateOutcome :=
  if negb (released release) then
    with_verdict train_outcome DEFERRED
      (if complete then "holdout confirmation incomplete: result withheld" else raw_reason)
  else if negb (complete && String.eqb raw_reason "") then with_verdict train_outcome REJECTED raw_reason
  else train_outcome.

Definition _ladder_mediated_outcome (epoch_dir epoch_id : string) (train_outcome : GateOutcome)
    (parent_agg child_agg : Aggregate) (hp hc : option Aggregate) (w : ScoringWeights)
    (reservation : option LadderQueryReservation) (identity : string) (st : Store)
    : Op (GateOutcome * option HoldoutRecord) :=
  match hp, hc, reservation with
  | None, None, None => ([], Ok (train_outcome, Some disabled_holdout_record))
  | _, _, _ =>
      let cfg := ladder (overfitting w) in
      match (try p <- agg_scalar parent_agg; try c <- agg_scalar child_agg; Ok (p, c)) with
      | Raise e => ([], Raise e)
      | Ok (train_parent_scalar, train_child_scalar) =>
          if negb (promoted (decision train_outcome)) then
            ([], Raise (LadderStateError ("holdout evidence was observed after the training gate "
                                          +:+ "rejected the challenger")))
          else
            match raw_confirmation hp hc w with
            | Raise e => ([], Raise e)
            | Ok raw_reason =>
                let complete := observed hp && observed hc in
                let raw_confirmed := complete && String.eqb raw_reason "" in
                let holdout_scalar := if complete then (hc ≫= scalar) else None in
                if negb (ladder_enabled cfg) then
                  ([], Ok (unmediated_outcome train_outcome complete raw_reason,
                           Some (holdout_record (if complete then Some raw_confirmed else None)
                                   (Some train_child_scalar) holdout_scalar true complete
                                   (ladder_budget cfg) None (ladder_budget cfg) false
                                   (effective_threshold cfg w) None raw_reason)))
                else
                  match reservation with
                  | None =>
                      ([], Raise (LadderStateError
                                    "holdout evidence was observed without a durable reservation"))
                  | Some res =>
                      op_bind st
                        (_settle_ladder_query epoch_dir epoch_id res cfg w
                           {| ob_train_parent := train_parent_scalar;
                              ob_train_child := train_child_scalar;
                              ob_holdout_scalar := holdout_scalar; ob_confirmed := raw_confirmed;
                              ob_complete := complete |} identity st)
                        (fun _ settled =>
                           let '(release, before) := settled in
                           let final := released_outcome train_outcome complete raw_reason release in
                           ([], Ok (final,
                              Some (holdout_record (lr_confirmed release) (Some train_child_scalar)
                                      (lr_holdout_scalar release) true (released release)
                                      (budget_total (lr_state release)) (Some before)
                                      (budget_remaining (lr_state release)) true
                                      (lr_threshold release) None
                                      (if promoted (decision final) then "" else reason final)))))
                  end
            end
      end
  end.

(** The tail of [confirm_crowning_holdout]: run the duel on the holdout entries and
    settle its verdict. *)
Definition observe_holdout (epoch_dir epoch_id : string) (holdout_ids : list string)
    (train_outcome : GateOutcome) (train_parent_agg train_child_agg : Aggregate)
    (w : ScoringWeights) (run_holdout : list string -> result (Aggregate * Aggregate))
    (identity : string) (st : Store) (reservation : option LadderQueryReservation)
    : Op (GateOutcome * option HoldoutRecord * option float) :=
  match run_holdout holdout_ids with
  | Raise e => ([], Raise e)
  | Ok (hp, hc) =>
      op_bind st
        (_ladder_mediated_outcome epoch_dir epoch_id train_outcome train_parent_agg
           train_child_agg (Some hp) (Some hc) w reservation identity st)
        (fun _ out =>
           match incomplete_entries hc with
           | _ :: _ => ([], Ok (out, None))
           | [] => ([], try s <- agg_scalar hc; Ok (out, Some s))
           end)
  end.

(** [confirm_crowning_holdout] of [src/zicato/tournament/runner.py]; [run_holdout] runs
    the duel on the holdout entries, and is only called when they may be observed. *)
Definition confirm_crowning_holdout (epoch_dir epoch_id : string) (holdout_ids : list string)
    (train_outcome : GateOutcome) (train_parent_agg train_child_agg : Aggregate)
    (w : ScoringWeights) (run_holdout : list string -> result (Aggregate * Aggregate))
    (identities : string * string) (st : Store)
    : Op (GateOutcome * option HoldoutRecord * option float) :=
  match holdout_ids with
  | [] => ([], Ok (train_outcome, Some disabled_holdout_record, None))
  | _ :: _ =>
      if negb (promoted (decision train_outcome)) then ([], Ok (train_outcome, None, None))
      else
        let cfg := ladder (overfitting w) in
        let confirm := observe_holdout epoch_dir epoch_id holdout_ids train_outcome
                         train_parent_agg train_child_agg w run_holdout identities.1 in
        if ladder_enabled cfg then
          op_bind st (_reserve_ladder_query epoch_dir epoch_id cfg identities st)
            (fun st reserved =>
               match reserved with
               | (s, None) =>
                   ([], try out <- _ladder_exhausted_outcome train_outcome train_child_agg s w;
                        Ok (out.1, Some out.2, None))
               | (_, Some reservation) => confirm st (Some reservation)
               end)
        else confirm st None
  end.
End Outcomes.

Definition _regression_rejection (parent_agg child_agg : Aggregate) (failed_tests : list string)
    (summary : string) : GateOutcome :=
  let scalar_of a := from_option id f0 (scalar a) in
  let pass_of a := from_option id f1 (pass_rate a) in
  {| decision := REJECTED;
     reason :=
       match failed_tests with
       | _ :: _ => "regression suite failed: " +:+ pretty (length failed_tests) +:+ " tests"
       | [] => "regression suite failed: " +:+ summary
       end;
     delta_scalar := fsub (scalar_of child_agg) (scalar_of parent_agg);
     delta_pass_rate := fsub (pass_of child_agg) (pass_of parent_agg);
     attributable_regressions := []; explanation := None |}.
