(* ===== verification/GovernanceSpec.v ===== *)
(** Governance keeps the holdout budget through crashes, settles each query once, shows
    nothing of a withheld answer, and promotes only on a confirmed holdout. *)

From S2P Require Import Prelude PyFloat PyText PyJson CoreTypes Gate GateSpec Governance.

(** ** The records a state file may hold *)

Record wf_durable (cfg : LadderConfig) (r : DurableLadderState) : Prop := {
  wf_id : _valid_identity (state_id r) = true;
  wf_total : budget_total (state r) = ladder_budget cfg;
  wf_remaining : (0 <= budget_remaining (state r) <= budget_total (state r))%Z;
  wf_scalar : forall x, best_holdout_scalar (state r) = Some x -> isfinite x = true;
  wf_pair : best_holdout_scalar (state r) = None <-> best_confirmed (state r) = None;
  wf_pending : Forall (fun p => _valid_identity (pending_id p) = true
                 /\ (budget_remaining (state r) < budget_before_query p <= budget_total (state r))%Z)
               (pending_reservations r);
  wf_ids : NoDup (pending_id <$> pending_reservations r);
  wf_positions : NoDup (budget_before_query <$> pending_reservations r);
  wf_charged : (Z.of_nat (length (pending_reservations r))
                <= budget_total (state r) - budget_remaining (state r))%Z;
}.

Lemma decode_pending_to_json total remaining p :
  _valid_identity (pending_id p) = true -> (remaining < budget_before_query p <= total)%Z ->
  decode_pending total remaining (pending_to_json p) = Some p.
Proof.
  intros Hi [Hlo Hhi].
  transitivity (if _valid_identity (pending_id p) && (remaining <? budget_before_query p)%Z
                   && (budget_before_query p <=? total)%Z
                then Some {| pending_id := pending_id p; budget_before_query := budget_before_query p |}
                else None); [done|].
  rewrite Hi, (proj2 (Z.ltb_lt _ _)), (proj2 (Z.leb_le _ _)) by done. by destruct p.
Qed.

Lemma decode_pending_ok total remaining item p :
  decode_pending total remaining item = Some p ->
  _valid_identity (pending_id p) = true /\ (remaining < budget_before_query p <= total)%Z.
Proof.
  unfold decode_pending. intros H. repeat case_match; simplify_eq/=.
  rewrite !andb_true_iff, Z.ltb_lt, Z.leb_le in *. naive_solver.
Qed.

Lemma bool_eqb_None {A B} (a : option A) (b : option B) :
  Bool.eqb (bool_decide (a = None)) (bool_decide (b = None)) = true <-> (a = None <-> b = None).
Proof. destruct a, b; cbn; naive_solver. Qed.

Lemma checked_state_ok cfg i total remaining scalar bit raw r :
  (forall x, scalar = Some x -> isfinite x = true) ->
  checked_state cfg i total remaining scalar bit raw = Some r -> wf_durable cfg r.
Proof.
  intros Hfin. unfold checked_state. destruct (_ && _ && _ && _ && _) eqn:Hc; [|done].
  rewrite !andb_true_iff, !Z.leb_le, Z.eqb_eq, bool_eqb_None in Hc. destruct Hc as ((((? & ?) & ?) & ?) & ?).
  intros (pending & Hp & Hr)%bind_Some. destruct (_ && _ && _) eqn:Hd; [|done].
  rewrite !andb_true_iff, Z.leb_le in Hd. unfold distinct in Hd. rewrite !bool_decide_eq_true in Hd.
  destruct Hd as ((? & ?) & ?). injection Hr as <-. apply mapM_Some in Hp.
  constructor; cbn; try done; try lia.
  clear -Hp. induction Hp as [|item p raw pending Hi _ IH]; constructor; [|done].
  by apply decode_pending_ok in Hi.
Qed.

Lemma decode_scalar_finite v s :
  decode_scalar v = Some s -> forall x, s = Some x -> isfinite x = true.
Proof. unfold decode_scalar. intros H x ->. repeat case_match; by simplify_eq. Qed.

Lemma decode_ladder_state_ok raw cfg path r :
  _decode_ladder_state raw cfg path = Ok r -> wf_durable cfg r.
Proof.
  unfold _decode_ladder_state. intros H. repeat (case_match; try done). simplify_eq.
  eapply checked_state_ok; [by eapply decode_scalar_finite|done].
Qed.

Lemma mapM_decode_pending total remaining ps :
  Forall (fun p => _valid_identity (pending_id p) = true
            /\ (remaining < budget_before_query p <= total)%Z) ps ->
  mapM (decode_pending total remaining) (pending_to_json <$> ps) = Some ps.
Proof.
  intros Hps. apply mapM_Some. apply Forall2_fmap_l, Forall_Forall2_diag.
  eapply Forall_impl; [exact Hps|]. intros p [Hi Hb]. by apply decode_pending_to_json.
Qed.

Lemma checked_state_of cfg r :
  wf_durable cfg r ->
  checked_state cfg (state_id r) (budget_total (state r)) (budget_remaining (state r))
    (best_holdout_scalar (state r)) (best_confirmed (state r))
    (pending_to_json <$> pending_reservations r) = Some r.
Proof.
  intros [Hi Ht Hr Hs Hp Hpend Hids Hpos Hch]. unfold checked_state.
  rewrite Hi, Ht, Z.eqb_refl, (proj2 (bool_eqb_None _ _) Hp), mapM_decode_pending by (by rewrite <-Ht).
  rewrite <-Ht, !(proj2 (Z.leb_le _ _)) by lia. cbn [andb mbind option_bind].
  unfold distinct. rewrite !bool_decide_eq_true_2, (proj2 (Z.leb_le _ _)) by (done || lia).
  by destruct r as [? [] ?].
Qed.

Lemma decode_written cfg path r :
  wf_durable cfg r -> _decode_ladder_state (_ladder_state_dict r) cfg path = Ok r.
Proof.
  intros [Hi Ht Hr Hs Hp Hpend Hids Hpos Hch].
  transitivity (match decode_scalar (Some (from_option JFloat JNull (best_holdout_scalar (state r)))),
                      decode_bit (Some (from_option JBool JNull (best_confirmed (state r)))) with
                | Some scalar, Some bit =>
                    match checked_state cfg (state_id r) (budget_total (state r))
                            (budget_remaining (state r)) scalar bit
                            (pending_to_json <$> pending_reservations r) with
                    | Some r => Ok r
                    | None => Raise (LadderStateError ("Ladder state " +:+ path
                                                       +:+ " has invalid or mismatched values"))
                    end
                | _, _ => Raise (LadderStateError ("Ladder state " +:+ path
                                                   +:+ " has invalid or mismatched values"))
                end); [done|].
  assert (decode_scalar (Some (from_option JFloat JNull (best_holdout_scalar (state r))))
          = Some (best_holdout_scalar (state r))) as ->.
  { destruct (best_holdout_scalar (state r)) as [x|] eqn:E; [|done]. cbn. by rewrite (Hs x). }
  assert (decode_bit (Some (from_option JBool JNull (best_confirmed (state r))))
          = Some (best_confirmed (state r))) as -> by (by destruct (best_confirmed (state r))).
  rewrite checked_state_of by done. by destruct r as [? [] ?].
Qed.

(** A ladder state survives its file: every record a reader would admit is written
    so that the reader returns exactly that record, and whatever a reader admits is
    such a record, with its budget within the contract's, each pending query charged
    to its own unit, and a best scalar exactly when there is a best confirmation. *)
Theorem ladder_state_roundtrip cfg path :
  (forall r, wf_durable cfg r -> _decode_ladder_state (_ladder_state_dict r) cfg path = Ok r)
  /\ (forall raw r, _decode_ladder_state raw cfg path = Ok r -> wf_durable cfg r).
Proof.
  split; intros *; [apply decode_written|apply decode_ladder_state_ok].
Qed.

(** ** One operation *)

Definition initial (cfg : LadderConfig) (identity : string) : DurableLadderState :=
  {| state_id := identity; state := seed cfg; pending_reservations := [] |}.

(** The store of an initialized epoch; a crash may have left it without its marker. *)
Definition store_holds (cfg : LadderConfig) (st : Store) (r : DurableLadderState) : Prop :=
  wf_durable cfg r /\ state_file st = Holds (_ladder_state_dict r)
  /\ (marker_file st = Absent \/ marker_file st = Holds (marker_json (state_id r))).

(** What reading a store yields: its record, or a new one. *)
Definition reads (cfg : LadderConfig) (identity : string) (st : Store) (r : DurableLadderState) : Prop :=
  store_holds cfg st r \/ (st = empty_store /\ r = initial cfg identity).

Lemma wf_initial cfg identity :
  (0 <= ladder_budget cfg)%Z -> _valid_identity identity = true -> wf_durable cfg (initial cfg identity).
Proof. intros Hb Hi. constructor; cbn; try done; try lia; constructor. Qed.

Lemma marker_matches_own i : marker_matches (marker_json i) i = true.
Proof. transitivity (String.eqb i i); [reflexivity|apply String.eqb_refl]. Qed.

Lemma load_ok dir cfg identity st r :
  (0 <= ladder_budget cfg)%Z -> _valid_identity identity = true -> reads cfg identity st r ->
  exists writes, _load_ladder_state_locked dir cfg identity st = (writes, Ok r)
    /\ Forall (fun st' => store_holds cfg st' r) writes /\ store_holds cfg (List.last writes st) r.
Proof.
  intros Hb Hi [(Hwf & Hs & Hm)|[-> ->]].
  - unfold _load_ladder_state_locked. rewrite Hs.
    assert (read_file (ladder_state_path dir) (Holds (_ladder_state_dict r))
            = Ok (Some (_ladder_state_dict r))) as -> by done.
    cbn [result_bind].
    destruct Hm as [Hm|Hm]; rewrite Hm; cbn [read_file marker_json result_bind];
      rewrite (decode_written cfg (ladder_state_path dir) r Hwf).
    + exists [write_marker (state_id r) st].
      assert (store_holds cfg (write_marker (state_id r) st) r)
        by exact (conj Hwf (conj Hs (or_intror eq_refl))).
      split_and!; [done|by apply Forall_singleton|done].
    + change (JObj _) with (marker_json (state_id r)). rewrite marker_matches_own. exists [].
      split_and!; [done|constructor|]. exact (conj Hwf (conj Hs (or_intror Hm))).
  - pose proof (wf_initial cfg identity Hb Hi) as Hwf.
    exists [write_state (initial cfg identity) empty_store;
            write_marker identity (write_state (initial cfg identity) empty_store)].
    assert (store_holds cfg (write_marker identity (write_state (initial cfg identity) empty_store))
              (initial cfg identity)) by exact (conj Hwf (conj eq_refl (or_intror eq_refl))).
    split_and!; [done| |done]. apply Forall_cons; split; [|by apply Forall_singleton].
    exact (conj Hwf (conj eq_refl (or_introl eq_refl))).
Qed.

(** Charging a unit, and settling a query, keep the record one that reads back. *)
Lemma wf_charge cfg r charged i :
  wf_durable cfg r -> reserve_holdout_query (state r) = Some charged ->
  _valid_identity i = true -> i ∉ pending_id <$> pending_reservations r ->
  wf_durable cfg (charge r charged i).
Proof.
  intros [Hi Ht Hr Hs Hp Hpend Hids Hpos Hch] Hc Hv Hnew. unfold reserve_holdout_query in Hc.
  destruct (Z.leb_spec (budget_remaining (state r)) 0); [done|]. injection Hc as <-.
  constructor; cbn; try done; try lia; rewrite ?fmap_app.
  - apply Forall_app. split.
    + eapply Forall_impl; [exact Hpend|]. cbn. intros p [? ?]. split; [done|lia].
    + repeat constructor; cbn; done || lia.
  - apply NoDup_app. split_and!; [done| |apply NoDup_singleton]. set_solver.
  - apply NoDup_app. split_and!; [done| |apply NoDup_singleton].
    intros b (p & -> & Hin)%list_elem_of_fmap Hb. apply list_elem_of_singleton in Hb. cbn in Hb.
    rewrite Forall_forall in Hpend. apply Hpend in Hin as [_ ?]. lia.
  - rewrite length_app. cbn. lia.
Qed.

Lemma settle_release_state cfg w s ob release :
  (forall x, ob_holdout_scalar ob = Some x -> isfinite x = true) ->
  settle_release cfg w s ob = Ok release ->
  let s' := lr_state release in
  budget_total s' = budget_total s /\ budget_remaining s' = budget_remaining s
  /\ ((forall x, best_holdout_scalar s = Some x -> isfinite x = true) ->
      forall x, best_holdout_scalar s' = Some x -> isfinite x = true)
  /\ ((best_holdout_scalar s = None <-> best_confirmed s = None) ->
      (best_holdout_scalar s' = None <-> best_confirmed s' = None)).
Proof.
  intros Hfin. unfold settle_release. destruct (ob_complete ob); [|by intros [= <-]].
  destruct (ob_holdout_scalar ob) as [h|]; [|done]. specialize (Hfin h eq_refl).
  unfold decide_reserved_holdout. destruct (clears_bar _ _ _ _); intros [= <-]; [|done]. cbn.
  destruct (improves_best s h); cbn; naive_solver.
Qed.

Lemma wf_settled cfg w r ob release i :
  wf_durable cfg r -> (forall x, ob_holdout_scalar ob = Some x -> isfinite x = true) ->
  settle_release cfg w (state r) ob = Ok release -> wf_durable cfg (settled r (lr_state release) i).
Proof.
  intros [Hi Ht Hr Hs Hp Hpend Hids Hpos Hch] Hfin Hrel.
  destruct (settle_release_state cfg w (state r) ob release Hfin Hrel) as (Et & Er & Hfs & Hps).
  pose proof (list_filter_sublist (fun p => negb (String.eqb (pending_id p) i)) (pending_reservations r)) as Hsub.
  constructor; cbn; rewrite ?Et, ?Er; try done; auto.
  - rewrite Forall_forall in *. intros p [Hin _]%elem_of_filter_In. by apply Hpend.
  - eapply sublist_NoDup; [exact Hids|by apply fmap_sublist].
  - eapply sublist_NoDup; [exact Hpos|by apply fmap_sublist].
  - apply sublist_length in Hsub. lia.
Qed.


(** ** Histories

    The threads and processes of an epoch reserve and settle queries in any order; each
    operation may fail, and each may be cut off after any of its writes.  [used] are the
    identities handed out, [answered] the reservations whose settlement returned, oldest
    last, and [releases] how many answers were released. *)

Record World := {
  w_store : Store;
  used : list string;
  answered : list string;
  releases : nat;
}.

Definition fresh_world : World :=
  {| w_store := empty_store; used := []; answered := []; releases := 0 |}.

(** A cut-off or failed operation shows the store before it or after one of its writes. *)
Definition exposes {A} (st : Store) (op : Op A) (st' : Store) : Prop := st' = st \/ st' ∈ op.1.

(** Identities are valid, distinct and never handed out twice. *)
Definition new_ids (ids : string * string) (wd : World) : Prop :=
  _valid_identity ids.1 = true /\ _valid_identity ids.2 = true
  /\ (ids.1 ∉ used wd) /\ (ids.2 ∉ used wd).

Definition finite_observation (ob : Observation) : Prop :=
  forall x, ob_holdout_scalar ob = Some x -> isfinite x = true.

Inductive gov_step (dir : string) (cfg : LadderConfig) (w : ScoringWeights) : World -> World -> Prop :=
  | gov_reserve epoch ids wd out :
      new_ids ids wd -> (_reserve_ladder_query dir epoch cfg ids (w_store wd)).2 = Ok out ->
      gov_step dir cfg w wd
        {| w_store := final_store (w_store wd) (_reserve_ladder_query dir epoch cfg ids (w_store wd));
           used := ids.1 :: ids.2 :: used wd; answered := answered wd; releases := releases wd |}
  | gov_settle epoch res ob ids wd release before :
      new_ids ids wd -> finite_observation ob ->
      (_settle_ladder_query dir epoch res cfg w ob ids.1 (w_store wd)).2 = Ok (release, before) ->
      gov_step dir cfg w wd
        {| w_store := final_store (w_store wd)
                        (_settle_ladder_query dir epoch res cfg w ob ids.1 (w_store wd));
           used := ids.1 :: ids.2 :: used wd; answered := lq_reservation_id res :: answered wd;
           releases := if released release then S (releases wd) else releases wd |}
  | gov_reserve_cut epoch ids wd st' :
      new_ids ids wd ->
      exposes (w_store wd) (_reserve_ladder_query dir epoch cfg ids (w_store wd)) st' ->
      gov_step dir cfg w wd
        {| w_store := st'; used := ids.1 :: ids.2 :: used wd; answered := answered wd;
           releases := releases wd |}
  | gov_settle_cut epoch res ob ids wd st' :
      new_ids ids wd -> finite_observation ob ->
      exposes (w_store wd) (_settle_ladder_query dir epoch res cfg w ob ids.1 (w_store wd)) st' ->
      gov_step dir cfg w wd
        {| w_store := st'; used := ids.1 :: ids.2 :: used wd; answered := answered wd;
           releases := releases wd |}.

(** What the books of an epoch add up to. *)
Record book (r : DurableLadderState) (wd : World) : Prop := {
  bk_pending : forall i, i ∈ pending_id <$> pending_reservations r -> i ∈ used wd;
  bk_answered : forall i, i ∈ answered wd -> i ∈ used wd;
  bk_disjoint : forall i, i ∈ pending_id <$> pending_reservations r -> i ∉ answered wd;
  bk_once : NoDup (answered wd);
  bk_released : releases wd <= length (answered wd);
  bk_budget : (Z.of_nat (length (answered wd) + length (pending_reservations r))
               <= budget_total (state r) - budget_remaining (state r))%Z;
}.

Definition gov_inv (cfg : LadderConfig) (wd : World) : Prop :=
  (w_store wd = empty_store /\ answered wd = [] /\ releases wd = 0)
  \/ exists r, store_holds cfg (w_store wd) r /\ book r wd.

(** The record an operation finds, whatever it then does. *)
Lemma gov_inv_reads cfg identity wd :
  gov_inv cfg wd -> exists r, reads cfg identity (w_store wd) r /\ book r wd.
Proof.
  intros [(Hst & Ha & Hn)|(r & Hr & Hb)]; [|exists r; split; [by left|done]].
  exists (initial cfg identity). split; [by right|]. constructor; cbn; rewrite ?Ha, ?Hn; cbn;
    try set_solver; try lia. constructor.
Qed.

Lemma book_more r wd st ids :
  book r wd ->
  book r {| w_store := st; used := ids ++ used wd; answered := answered wd; releases := releases wd |}.
Proof. intros [H1 H2 H3 H4 H5 H6]. constructor; cbn; set_solver. Qed.

Lemma book_charge r wd st charged ids :
  book r wd -> reserve_holdout_query (state r) = Some charged -> new_ids ids wd ->
  book (charge r charged ids.2)
    {| w_store := st; used := ids.1 :: ids.2 :: used wd; answered := answered wd;
       releases := releases wd |}.
Proof.
  intros [H1 H2 H3 H4 H5 H6] Hc (_ & _ & _ & Hnew). unfold reserve_holdout_query in Hc.
  destruct (Z.leb_spec (budget_remaining (state r)) 0); [done|]. injection Hc as <-.
  constructor; cbn; rewrite ?fmap_app, ?length_app; try set_solver.
  cbn. lia.
Qed.

Lemma filter_drops_one (ps : list PendingReservation) i :
  i ∈ pending_id <$> ps ->
  length (List.filter (fun p => negb (String.eqb (pending_id p) i)) ps) < length ps.
Proof.
  intros (p & Hp & Hin)%list_elem_of_fmap. subst i.
  induction ps as [|q ps IH]; [by apply elem_of_nil in Hin|]. cbn.
  apply elem_of_cons in Hin as [->|Hin].
  - rewrite String.eqb_refl. cbn.
    pose proof (sublist_length _ _ (list_filter_sublist
      (fun p => negb (String.eqb (pending_id p) (pending_id q))) ps)). lia.
  - specialize (IH Hin). destruct (negb _); cbn; lia.
Qed.

Lemma book_settled cfg w r wd st ob release i ids :
  book r wd -> finite_observation ob -> settle_release cfg w (state r) ob = Ok release ->
  i ∈ pending_id <$> pending_reservations r ->
  book (settled r (lr_state release) i)
    {| w_store := st; used := ids ++ used wd; answered := i :: answered wd;
       releases := if released release then S (releases wd) else releases wd |}
  /\ book (settled r (lr_state release) i)
    {| w_store := st; used := ids ++ used wd; answered := answered wd; releases := releases wd |}.
Proof.
  intros [H1 H2 H3 H4 H5 H6] Hfin Hrel Hi.
  destruct (settle_release_state cfg w (state r) ob release Hfin Hrel) as (Et & Er & _).
  pose proof (filter_drops_one _ _ Hi) as Hlen.
  assert (forall j, j ∈ pending_id <$> pending_reservations (settled r (lr_state release) i) ->
            j ∈ pending_id <$> pending_reservations r /\ j <> i) as Hin.
  { cbn. intros j (p & -> & [Hp Hne]%elem_of_filter_In)%list_elem_of_fmap. split.
    - apply list_elem_of_fmap. by exists p.
    - intros E. by rewrite E, String.eqb_refl in Hne. }
  split; constructor; cbn [used answered releases settled state pending_reservations];
    rewrite ?Et, ?Er; try done; try lia.
  - intros j [Hj _]%Hin. set_solver.
  - set_solver.
  - intros j [Hj Hne]%Hin. set_solver.
  - constructor; [by apply H3|done].
  - cbn. destruct (released release); lia.
  - cbn [length]. cbn in Hlen. lia.
  - intros j [Hj _]%Hin. set_solver.
  - set_solver.
  - intros j [Hj Hne]%Hin. by apply H3.
Qed.

Lemma store_holds_write cfg st r r' :
  store_holds cfg st r -> wf_durable cfg r' -> state_id r' = state_id r ->
  store_holds cfg (write_state r' st) r'.
Proof. intros (_ & _ & Hm) Hwf E. unfold store_holds. cbn. by rewrite E. Qed.

Lemma last_snoc {A} (l : list A) x d : List.last (l ++ [x]) d = x.
Proof. apply last_last. Qed.

(** What the writes of a reservation leave. *)
Lemma reserve_exposed dir epoch cfg ids st r :
  (0 <= ladder_budget cfg)%Z -> _valid_identity ids.1 = true -> _valid_identity ids.2 = true ->
  ids.2 ∉ pending_id <$> pending_reservations r -> reads cfg ids.1 st r ->
  let op := _reserve_ladder_query dir epoch cfg ids st in
  let after r' := exists charged, reserve_holdout_query (state r) = Some charged
                                  /\ r' = charge r charged ids.2 in
  is_ok op.2 = true
  /\ (forall st', st' ∈ op.1 -> exists r', (r' = r \/ after r') /\ store_holds cfg st' r')
  /\ (exists r', (r' = r \/ after r') /\ store_holds cfg (final_store st op) r').
Proof.
  intros Hb Hi1 Hi2 Hnew Hr. destruct (load_ok dir cfg ids.1 st r Hb Hi1 Hr) as (ws & Hl & Hws & Hlast).
  cbn zeta. unfold _reserve_ladder_query, op_bind. rewrite Hl. cbn [snd fst final_store].
  assert (forall st', st' ∈ ws -> store_holds cfg st' r) as Hall by (by apply Forall_forall).
  destruct (reserve_holdout_query (state r)) as [charged|] eqn:Hc; cbn [fst snd].
  - pose proof (store_holds_write cfg _ r _ Hlast (wf_charge cfg r charged ids.2 (proj1 Hlast) Hc Hi2 Hnew)
                  eq_refl) as Hst.
    unfold final_store in *. cbn [fst snd is_ok]. rewrite last_snoc.
    split_and!; [done| |by exists (charge r charged ids.2); eauto 6].
    intros st' [Hin|Hin%list_elem_of_singleton]%elem_of_app; [exists r; auto|subst st'].
    exists (charge r charged ids.2). eauto 6.
  - unfold final_store in *. cbn [fst snd is_ok]. rewrite app_nil_r. split_and!; [done| |exists r; auto].
    intros st' Hin. exists r. auto.
Qed.

(** What the writes of a settlement leave. *)
Lemma settle_exposed dir epoch cfg w res ob identity st r :
  (0 <= ladder_budget cfg)%Z -> _valid_identity identity = true -> finite_observation ob ->
  reads cfg identity st r ->
  let op := _settle_ladder_query dir epoch res cfg w ob identity st in
  let after r' := exists release, settle_release cfg w (state r) ob = Ok release
       /\ lq_reservation_id res ∈ pending_id <$> pending_reservations r
       /\ r' = settled r (lr_state release) (lq_reservation_id res) in
  (forall st', st' ∈ op.1 -> exists r', (r' = r \/ after r') /\ store_holds cfg st' r')
  /\ (forall release before, op.2 = Ok (release, before) ->
        settle_release cfg w (state r) ob = Ok release
        /\ lq_reservation_id res ∈ pending_id <$> pending_reservations r
        /\ store_holds cfg (final_store st op)
             (settled r (lr_state release) (lq_reservation_id res))).
Proof.
  intros Hb Hi Hfin Hr. destruct (load_ok dir cfg identity st r Hb Hi Hr) as (ws & Hl & Hws & Hlast).
  cbn zeta. unfold _settle_ladder_query, op_bind.
  destruct (negb _); cbn [fst snd]; [split; [set_solver|done]|].
  rewrite Hl. cbn [fst snd].
  assert (forall st', st' ∈ ws -> store_holds cfg st' r) as Hall by (by apply Forall_forall).
  assert (forall st', st' ∈ ws ++ [] -> exists r', (r' = r \/ exists release,
    settle_release cfg w (state r) ob = Ok release
    /\ lq_reservation_id res ∈ pending_id <$> pending_reservations r
    /\ r' = settled r (lr_state release) (lq_reservation_id res)) /\ store_holds cfg st' r') as Hnone.
  { rewrite app_nil_r. intros st' Hin. exists r. auto. }
  destruct (negb (String.eqb (state_id r) _)); cbn [fst snd]; [split; [exact Hnone|done]|].
  destruct (find_first _ _) as [p|] eqn:Hp; cbn [fst snd]; [|split; [exact Hnone|done]].
  apply find_first_Some in Hp as [Hp Heq%String.eqb_eq].
  assert (lq_reservation_id res ∈ pending_id <$> pending_reservations r) as Hin
    by (rewrite <-Heq; apply list_elem_of_fmap; by exists p).
  destruct (settle_release cfg w (state r) ob) as [release|] eqn:Hrel; cbn [fst snd];
    [|split; [exact Hnone|done]].
  pose proof (store_holds_write cfg _ r _ Hlast
                (wf_settled cfg w r ob release (lq_reservation_id res) (proj1 Hlast) Hfin Hrel) eq_refl) as Hst.
  unfold final_store in *. cbn [fst snd]. rewrite last_snoc. split.
  - intros st' [Hst'|Hst'%list_elem_of_singleton]%elem_of_app; [exists r; auto|subst st'].
    exists (settled r (lr_state release) (lq_reservation_id res)). split; [|done]. right. by exists release.
  - by intros release' before [= <- <-].
Qed.

Lemma gov_step_inv dir cfg w wd wd' :
  (0 <= ladder_budget cfg)%Z -> gov_inv cfg wd -> gov_step dir cfg w wd wd' -> gov_inv cfg wd'.
Proof.
  intros Hb Hinv Hstep.
  assert (forall st ids, st = w_store wd -> gov_inv cfg
            {| w_store := st; used := ids ++ used wd; answered := answered wd; releases := releases wd |})
    as Hsame.
  { intros st ids ->. destruct Hinv as [(? & ? & ?)|(r & Hr & Hbk)]; [by left|right]. exists r.
    split; [done|by apply (book_more r wd)]. }
  assert (forall r ids, book r wd -> new_ids ids wd -> ids.2 ∉ pending_id <$> pending_reservations r) as Hfresh.
  { intros r ids Hbk (_ & _ & _ & Hn) Hin. by apply Hn, (bk_pending r wd). }
  destruct Hstep as [epoch ids wd out Hids Hout|epoch res ob ids wd release before Hids Hfin Hout
                    |epoch ids wd st' Hids Hex|epoch res ob ids wd st' Hids Hfin Hex];
    destruct (gov_inv_reads cfg ids.1 wd Hinv) as (r & Hr & Hbk);
    pose proof Hids as (Hi1 & Hi2 & _).
  - destruct (reserve_exposed dir epoch cfg ids (w_store wd) r Hb Hi1 Hi2 (Hfresh r ids Hbk Hids) Hr)
      as (_ & _ & r' & Hr' & Hst). right. exists r'. split; [done|].
    destruct Hr' as [->|(charged & Hc & ->)]; [by apply (book_more r wd _ [ids.1; ids.2])|].
    by apply book_charge.
  - destruct (settle_exposed dir epoch cfg w res ob ids.1 (w_store wd) r Hb Hi1 Hfin Hr) as [_ Hok].
    apply Hok in Hout as (Hrel & Hin & Hst). right. eexists. split; [exact Hst|].
    by apply (book_settled cfg w r wd _ ob release _ [ids.1; ids.2]).
  - destruct Hex as [->|Hex]; [by apply (Hsame _ [ids.1; ids.2])|].
    destruct (reserve_exposed dir epoch cfg ids (w_store wd) r Hb Hi1 Hi2 (Hfresh r ids Hbk Hids) Hr)
      as (_ & Hw & _). destruct (Hw st' Hex) as (r' & Hr' & Hst). right. exists r'. split; [done|].
    destruct Hr' as [->|(charged & Hc & ->)]; [by apply (book_more r wd _ [ids.1; ids.2])|].
    by apply book_charge.
  - destruct Hex as [->|Hex]; [by apply (Hsame _ [ids.1; ids.2])|].
    destruct (settle_exposed dir epoch cfg w res ob ids.1 (w_store wd) r Hb Hi1 Hfin Hr) as [Hw _].
    destruct (Hw st' Hex) as (r' & Hr' & Hst). right. exists r'. split; [done|].
    destruct Hr' as [->|(release & Hrel & Hin & ->)]; [by apply (book_more r wd _ [ids.1; ids.2])|].
    by apply (book_settled cfg w r wd _ ob release _ [ids.1; ids.2]).
Qed.

(** The account of an epoch: a record of the contract's budget, whose charged units cover
    the answers returned and the queries pending, which are different ones. *)
Definition accounted (cfg : LadderConfig) (wd : World) (r : DurableLadderState) : Prop :=
  budget_total (state r) = ladder_budget cfg
  /\ (0 <= budget_remaining (state r))%Z
  /\ (forall i, i ∈ pending_id <$> pending_reservations r -> i ∉ answered wd)
  /\ (Z.of_nat (length (answered wd) + length (pending_reservations r))
      <= budget_total (state r) - budget_remaining (state r))%Z.

Lemma book_accounted cfg r wd : wf_durable cfg r -> book r wd -> accounted cfg wd r.
Proof. intros Hwf Hb. split_and!; [apply Hwf|apply Hwf|apply Hb|apply Hb]. Qed.

Lemma gov_reachable_inv dir cfg w wd :
  (0 <= ladder_budget cfg)%Z -> rtc (gov_step dir cfg w) fresh_world wd -> gov_inv cfg wd.
Proof.
  intros Hb. apply rtc_ind_r; [by left|]. intros y z _ Hs IH. by eapply gov_step_inv.
Qed.

Lemma reserve_accounted dir epoch cfg ids wd r :
  (0 <= ladder_budget cfg)%Z -> new_ids ids wd -> reads cfg ids.1 (w_store wd) r -> book r wd ->
  let op := _reserve_ladder_query dir epoch cfg ids (w_store wd) in
  exists s res r', op.2 = Ok (s, res) /\ state_file (final_store (w_store wd) op) = Holds (_ladder_state_dict r')
    /\ state r' = s /\ accounted cfg wd r'
    /\ (is_Some res <-> ids.2 ∈ pending_id <$> pending_reservations r').
Proof.
  intros Hb Hids Hr Hbk. pose proof Hids as (Hi1 & Hi2 & _ & Hn2).
  assert (ids.2 ∉ pending_id <$> pending_reservations r) as Hnew by (intros Hin; by apply Hn2, (bk_pending r wd)).
  destruct (load_ok dir cfg ids.1 (w_store wd) r Hb Hi1 Hr) as (ws & Hl & _ & Hlast).
  cbv zeta. unfold _reserve_ladder_query, op_bind. rewrite Hl. cbn [fst snd].
  destruct (reserve_holdout_query (state r)) as [charged|] eqn:Hc; cbn [fst snd].
  - pose proof (wf_charge cfg r charged ids.2 (proj1 Hlast) Hc Hi2 Hnew) as Hwf.
    pose proof (book_charge r wd (w_store wd) charged ids Hbk Hc Hids) as Hbk'.
    eexists _, (Some _), (charge r charged ids.2). split; [done|]. split; [unfold final_store; cbn; by rewrite last_snoc|].
    split; [done|]. split; [exact (book_accounted _ _ _ Hwf Hbk')|]. split; [|done]. intros _. cbn.
    rewrite fmap_app. set_solver.
  - exists (state r), None, r. split; [done|]. split; [unfold final_store in *; cbn; rewrite app_nil_r; apply Hlast|].
    split; [done|]. split; [exact (book_accounted _ _ _ (proj1 Hlast) Hbk)|]. split; [by intros [? ?]|done].
Qed.

(** C10.  The holdout budget of an epoch holds through every history of reservations and
    settlements, in any order, failing or cut off by a crash after any write.  No
    reservation is settled twice, and no more answers are released than returned.  The
    record on disk, whenever there is one, has the contract's budget, none of its pending
    queries was answered, and the answers returned and the queries pending together never
    exceed the units charged.  No history locks the epoch out of a further reservation
    under identities not used before, which keeps that account: a query it grants is
    charged and pending.  (The budget of a contract is not negative.) *)
Theorem holdout_budget_kept dir cfg w wd :
  (0 <= ladder_budget cfg)%Z -> rtc (gov_step dir cfg w) fresh_world wd ->
  NoDup (answered wd) /\ releases wd <= length (answered wd)
  /\ (forall raw path r, state_file (w_store wd) = Holds raw -> _decode_ladder_state raw cfg path = Ok r ->
        accounted cfg wd r)
  /\ forall epoch ids, new_ids ids wd ->
     let op := _reserve_ladder_query dir epoch cfg ids (w_store wd) in
     exists s res r', op.2 = Ok (s, res) /\ state_file (final_store (w_store wd) op) = Holds (_ladder_state_dict r')
       /\ state r' = s /\ accounted cfg wd r'
       /\ (is_Some res <-> ids.2 ∈ pending_id <$> pending_reservations r').
Proof.
  intros Hb Hreach. pose proof (gov_reachable_inv dir cfg w wd Hb Hreach) as Hinv.
  destruct (gov_inv_reads cfg "" wd Hinv) as (r0 & _ & Hbk0). split_and!; [apply Hbk0|apply Hbk0| |].
  { intros raw path r Hraw Hdec. destruct Hinv as [(Hst & _)|(r1 & (Hwf & Hs & _) & Hbk)]; [by rewrite Hst in Hraw|].
    rewrite Hraw in Hs. injection Hs as ->. rewrite (decode_written cfg path r1 Hwf) in Hdec. injection Hdec as <-.
    by apply book_accounted. }
  intros epoch ids Hids. pose proof Hids as (Hi1 & Hi2 & _ & Hn2).
  destruct (gov_inv_reads cfg ids.1 wd Hinv) as (r & Hr & Hbk). by apply (reserve_accounted dir epoch cfg ids wd r).
Qed.

(** ** Outcomes *)

Section Outcomes.
Context `{PyFormat}.

Lemma observed_confirms hp hc w :
  observed hp && observed hc = true -> exists why, raw_confirmation hp hc w = Ok why.
Proof.
  intros Ho. unfold raw_confirmation. rewrite Ho. destruct hp as [p|], hc as [c|]; try done; [|by eexists].
  apply andb_true_iff in Ho as [Hp Hc]. unfold observed in Hp, Hc.
  destruct (incomplete_entries p) eqn:Ep, (scalar p) eqn:Esp; try done.
  destruct (incomplete_entries c) eqn:Ec, (scalar c) eqn:Esc; try done.
  destruct (holdout_confirms p c w) as [why|e] eqn:E; [by exists why|].
  unfold holdout_confirms, _holdout_confirms in E. rewrite Ep, Ec, Esp, Esc in E.
  by repeat case_match.
Qed.


(** The evidence a settlement is told. *)
Definition observation (tp tc : float) (hp hc : option Aggregate) (why : string) : Observation :=
  let complete := observed hp && observed hc in
  {| ob_train_parent := tp; ob_train_child := tc;
     ob_holdout_scalar := if complete then (hc ≫= scalar) else None;
     ob_confirmed := complete && String.eqb why ""; ob_complete := complete |}.

Lemma observed_scalar hc : observed hc = true -> exists c s, hc = Some c /\ scalar c = Some s.
Proof.
  unfold observed. destruct hc as [c|]; [|done]. destruct (incomplete_entries c); [|done].
  destruct (scalar c) as [s|] eqn:E; [|done]. intros _. by exists c, s.
Qed.

Lemma observed_complete c : observed (Some c) = true -> incomplete_entries c = [] /\ is_Some (scalar c).
Proof. unfold observed. destruct (incomplete_entries c); [|done]. by destruct (scalar c). Qed.

(** Below the bar a settlement releases nothing, whatever the holdout said. *)
Lemma settle_release_withheld cfg w s tp tc hp hc why :
  clears_bar cfg w tp tc = false ->
  settle_release cfg w s (observation tp tc hp hc why) = Ok (withheld cfg w s).
Proof.
  intros Hbar. unfold settle_release, observation. cbn.
  destruct (observed hp && observed hc) eqn:Ho; [|done].
  pose proof (proj2 (andb_prop _ _ Ho)) as (c & x & -> & Hx)%observed_scalar. cbn. rewrite Hx.
  unfold decide_reserved_holdout. by rewrite Hbar.
Qed.

Lemma settle_ext dir epoch res cfg w ob ob' identity st :
  (forall s, settle_release cfg w s ob = settle_release cfg w s ob') ->
  _settle_ladder_query dir epoch res cfg w ob identity st
  = _settle_ladder_query dir epoch res cfg w ob' identity st.
Proof.
  intros Hext. unfold _settle_ladder_query. destruct (negb _); [done|]. unfold op_bind.
  destruct (_load_ladder_state_locked _ _ _ _) as [ws [r|e]]; [|done]. cbn [fst snd].
  destruct (negb _); [done|]. destruct (find_first _ _); [|done]. by rewrite Hext.
Qed.

Lemma settle_released dir epoch res cfg w ob identity st release before :
  (_settle_ladder_query dir epoch res cfg w ob identity st).2 = Ok (release, before) ->
  exists s, settle_release cfg w s ob = Ok release.
Proof.
  unfold _settle_ladder_query. destruct (negb _); [done|]. unfold op_bind.
  destruct (_load_ladder_state_locked _ _ _ _) as [ws [r|e]]; [|done]. cbn [fst snd].
  destruct (negb _); [done|]. destruct (find_first _ _); [|done].
  destruct (settle_release _ _ _ _) as [rel|e] eqn:E; [|done]. cbn. intros [= -> _]. by exists (state r).
Qed.

(** When the ladder mediates and the bar is not cleared, the settlement of two completed
    measurements writes and answers the same. *)
Lemma withheld_same dir epoch o p c hp hc hp' hc' w res identity st :
  ladder_enabled (ladder (overfitting w)) = true ->
  observed hp && observed hc = true -> observed hp' && observed hc' = true ->
  (forall tp tc, scalar p = Some tp -> scalar c = Some tc ->
     clears_bar (ladder (overfitting w)) w tp tc = false) ->
  _ladder_mediated_outcome dir epoch o p c hp hc w res identity st
  = _ladder_mediated_outcome dir epoch o p c hp' hc' w res identity st.
Proof.
  intros Hen Ho Ho' Hbar.
  destruct (observed_confirms hp hc w Ho) as [why Hwhy], (observed_confirms hp' hc' w Ho') as [why' Hwhy'].
  pose proof (proj2 (andb_prop _ _ Ho)) as (h & x & -> & Hx)%observed_scalar.
  pose proof (proj2 (andb_prop _ _ Ho')) as (h' & x' & -> & Hx')%observed_scalar.
  unfold _ladder_mediated_outcome.
  rewrite Hwhy, Hwhy', Ho, Ho', Hen. unfold agg_scalar.
  destruct hp as [hp|]; [|done]. destruct hp' as [hp'|]; [|done].
  destruct (scalar p) as [tp|] eqn:Ep; [|done]. destruct (scalar c) as [tc|] eqn:Ec; [|done].
  cbn [result_bind]. specialize (Hbar tp tc eq_refl eq_refl).
  destruct (negb _); [done|]. destruct res as [res|]; [|done]. cbn [negb].
  set (ob := {| ob_train_parent := _ |}). set (ob' := {| ob_train_parent := _ |}).
  assert (forall s, settle_release (ladder (overfitting w)) w s ob
                    = Ok (withheld (ladder (overfitting w)) w s)) as Hob.
  { intros s. pose proof (settle_release_withheld _ w s tp tc (Some hp) (Some h) why Hbar) as E.
    unfold observation in E. by rewrite Ho in E. }
  assert (forall s, settle_release (ladder (overfitting w)) w s ob'
                    = Ok (withheld (ladder (overfitting w)) w s)) as Hob'.
  { intros s. pose proof (settle_release_withheld _ w s tp tc (Some hp') (Some h') why' Hbar) as E.
    unfold observation in E. by rewrite Ho' in E. }
  rewrite (settle_ext _ _ _ _ _ ob ob') by (intros s; by rewrite Hob, Hob').
  unfold op_bind. destruct (_settle_ladder_query _ _ _ _ _ ob' _ _) as [ws r] eqn:Es.
  cbn [fst snd]. destruct r as [[rel before]|e]; [|done].
  destruct (settle_released dir epoch res (ladder (overfitting w)) w ob' identity st rel before)
    as [s Hs]; [by rewrite Es|]. rewrite Hob' in Hs. injection Hs as <-. done.
Qed.

(** Two answers that agree but for the scalar they carry beside the outcome and its
    evidence: none in both, or [x] in one and [x'] in the other. *)
Definition same_but_scalar {A} (x x' : option float) (r r' : Op (A * option float)) : Prop :=
  r.1 = r'.1
  /\ match r.2, r'.2 with
     | Ok (out, s), Ok (out', s') => out = out' /\ (s = None /\ s' = None \/ s = x /\ s' = x')
     | Raise e, Raise e' => e = e'
     | _, _ => False
     end.

Lemma same_but_scalar_refl {A} x x' (writes : list Store) (out : result A) :
  same_but_scalar x x' (writes, try o <- out; Ok (o, None)) (writes, try o <- out; Ok (o, None)).
Proof. split; [done|]. destruct out; cbn; [|done]. by split; [|left]. Qed.

Lemma same_but_scalar_bind {A B} x x' st (op : Op A) (k k' : Store -> A -> Op (B * option float)) :
  (forall st a, same_but_scalar x x' (k st a) (k' st a)) ->
  same_but_scalar x x' (op_bind st op k) (op_bind st op k').
Proof.
  intros Hk. unfold op_bind. destruct (op.2) as [a|e]; [|done].
  destruct (Hk (final_store st op) a) as [Hw Hr]. unfold same_but_scalar.
  destruct (k _ a) as [ws r], (k' _ a) as [ws' r']. cbn in *. by subst.
Qed.

(** Observing the holdout below the bar. *)
Lemma observe_same dir epoch ids o p c w run run' identity st res hp hc hp' hc' :
  ladder_enabled (ladder (overfitting w)) = true ->
  run ids = Ok (hp, hc) -> run' ids = Ok (hp', hc') ->
  observed (Some hp) && observed (Some hc) = true -> observed (Some hp') && observed (Some hc') = true ->
  (forall tp tc, scalar p = Some tp -> scalar c = Some tc ->
     clears_bar (ladder (overfitting w)) w tp tc = false) ->
  same_but_scalar (scalar hc) (scalar hc')
    (observe_holdout dir epoch ids o p c w run identity st res)
    (observe_holdout dir epoch ids o p c w run' identity st res).
Proof.
  intros Hen Hrun Hrun' Ho Ho' Hbar. unfold observe_holdout. rewrite Hrun, Hrun'.
  rewrite (withheld_same dir epoch o p c (Some hp) (Some hc) (Some hp') (Some hc') w res identity st Hen Ho Ho' Hbar).
  apply same_but_scalar_bind. intros _ out.
  apply andb_prop in Ho as [_ [Hi [x Hx]]%observed_complete], Ho' as [_ [Hi' [x' Hx']]%observed_complete].
  rewrite Hi, Hi'. unfold agg_scalar. rewrite Hx, Hx'. split; [done|]. cbn. auto.
Qed.

(** C33.  A withheld answer shows the holdout in one place only.  When the ladder mediates
    and the measured training improvement does not clear its bar, two confirmations of a
    crown whose holdout runs differ in any way, both complete, write the same files and
    come to the same outcome and evidence block, or the same error.  What still tells them
    apart is the last component of the answer: the scalar of the challenger's own holdout
    run, which is handed to the caller released or not. *)
Theorem withheld_shows_only_scalar dir epoch holdout_ids o p c w run run' idents st hp hc hp' hc' :
  ladder_enabled (ladder (overfitting w)) = true ->
  run holdout_ids = Ok (hp, hc) -> run' holdout_ids = Ok (hp', hc') ->
  observed (Some hp) && observed (Some hc) = true -> observed (Some hp') && observed (Some hc') = true ->
  (forall tp tc, scalar p = Some tp -> scalar c = Some tc ->
     clears_bar (ladder (overfitting w)) w tp tc = false) ->
  same_but_scalar (scalar hc) (scalar hc')
    (confirm_crowning_holdout dir epoch holdout_ids o p c w run idents st)
    (confirm_crowning_holdout dir epoch holdout_ids o p c w run' idents st).
Proof.
  intros Hen Hrun Hrun' Ho Ho' Hbar. unfold confirm_crowning_holdout.
  destruct holdout_ids as [|i ids]; [by repeat split; left|].
  destruct (negb _); [by repeat split; left|]. rewrite Hen.
  apply same_but_scalar_bind. intros st' [s [res|]].
  - by apply observe_same with hp hp'.
  - assert (forall r : result (GateOutcome * HoldoutRecord),
      (try out <- r; Ok (out.1, Some out.2, None)) =
      (try o <- (try out <- r; Ok (out.1, Some out.2)); Ok (o, @None float))) as Hassoc by (by intros []).
    rewrite Hassoc. apply same_but_scalar_refl.
Qed.

Lemma holdout_confirms_holds hp hc w :
  holdout_confirms hp hc w = Ok "" -> holdout_holds hp hc w = true.
Proof.
  unfold holdout_confirms. intros H0. by rewrite <-(holdout_confirms_spec hp hc w "").
Qed.

Lemma raw_confirmation_holds hp hc w :
  observed (Some hp) && observed (Some hc) = true -> raw_confirmation (Some hp) (Some hc) w = Ok "" ->
  holdout_holds hp hc w = true.
Proof. intros Ho. unfold raw_confirmation. rewrite Ho. apply holdout_confirms_holds. Qed.

Lemma released_clears cfg w s ob release :
  settle_release cfg w s ob = Ok release -> released release = true ->
  clears_bar cfg w (ob_train_parent ob) (ob_train_child ob) = true.
Proof.
  unfold settle_release. destruct (ob_complete ob); [|by intros [= <-]].
  destruct (ob_holdout_scalar ob); [|done]. unfold decide_reserved_holdout.
  by destruct (clears_bar _ _ _ _); intros [= <-].
Qed.

Lemma with_verdict_promoted o d why :
  decision (with_verdict o d why) = d.
Proof. done. Qed.

Lemma released_outcome_promoted o complete why release :
  decision (released_outcome o complete why release) = PROMOTED ->
  released_outcome o complete why release = o
  /\ released release = true /\ complete = true /\ why = "".
Proof.
  unfold released_outcome. destruct (released release); [|done]. cbn [negb].
  destruct complete; [|done]. cbn [andb]. destruct (String.eqb_spec why ""); [|done]. cbn. auto.
Qed.

(** A promotion that leaves the mediation is the training gate's, confirmed. *)
Lemma mediated_promotion dir epoch o p c hp hc w res identity st out block :
  (_ladder_mediated_outcome dir epoch o p c (Some hp) (Some hc) w res identity st).2 = Ok (out, block) ->
  decision out = PROMOTED ->
  out = o /\ holdout_holds hp hc w = true
  /\ (ladder_enabled (ladder (overfitting w)) = true -> exists tp tc,
        scalar p = Some tp /\ scalar c = Some tc /\ clears_bar (ladder (overfitting w)) w tp tc = true).
Proof.
  unfold _ladder_mediated_outcome, agg_scalar.
  destruct (scalar p) as [tp|] eqn:Ep; [|done]. destruct (scalar c) as [tc|] eqn:Ec; [|done].
  cbn [result_bind]. destruct (negb (promoted _)) eqn:Ep'; [done|].
  destruct (raw_confirmation (Some hp) (Some hc) w) as [why|e] eqn:Hwhy; [|done].
  destruct (negb (ladder_enabled _)) eqn:Hen.
  - cbn [snd]. intros [= <- _]. unfold unmediated_outcome. destruct (String.eqb_spec why "") as [->|_].
    + intros _. split_and!; [done| |by intros Hl; rewrite Hl in Hen].
      destruct (observed (Some hp) && observed (Some hc)) eqn:Ho; [by apply raw_confirmation_holds|].
      unfold raw_confirmation in Hwhy. by rewrite Ho in Hwhy.
    + by destruct (_ && _).
  - destruct res as [res|]; [|done]. unfold op_bind.
    destruct (_settle_ladder_query _ _ _ _ _ _ _ _) as [ws r] eqn:Es. cbn [fst snd].
    destruct r as [[rel before]|e]; [|done]. cbn [snd]. intros [= <- _].
    intros (-> & Hrel & Ho & ->)%released_outcome_promoted. split_and!; [done|by apply raw_confirmation_holds|].
    intros _. exists tp, tc. split_and!; [done..|].
    match type of Es with _settle_ladder_query _ _ _ _ _ ?ob _ _ = _ =>
      destruct (settle_released dir epoch res (ladder (overfitting w)) w ob identity st rel before)
        as [s Hs]; [by rewrite Es|] end.
    exact (released_clears _ _ _ _ _ Hs Hrel).
Qed.

Lemma op_bind_ok {A B} st (op : Op A) (k : Store -> A -> Op B) b :
  (op_bind st op k).2 = Ok b -> exists a, op.2 = Ok a /\ (k (final_store st op) a).2 = Ok b.
Proof.
  unfold op_bind. destruct (op.2) as [a|e]; [|done]. destruct (k _ a) as [later r] eqn:E.
  cbn. intros ->. exists a. by rewrite E.
Qed.


Lemma observed_promotion dir epoch ids o p c w run_holdout identity st res out block sc :
  (observe_holdout dir epoch ids o p c w run_holdout identity st res).2 = Ok (out, block, sc) ->
  decision out = PROMOTED ->
  out = o /\ exists hp hc, run_holdout ids = Ok (hp, hc) /\ holdout_holds hp hc w = true
    /\ (ladder_enabled (ladder (overfitting w)) = true -> exists tp tc,
          scalar p = Some tp /\ scalar c = Some tc
          /\ clears_bar (ladder (overfitting w)) w tp tc = true).
Proof.
  unfold observe_holdout. destruct (run_holdout ids) as [[hp hc]|e]; [|done].
  intros ([out' block'] & Hm & Hk)%op_bind_ok Hd.
  assert (out = out') as ->.
  { destruct (incomplete_entries hc); cbn in Hk; [|by injection Hk].
    destruct (agg_scalar hc); [|done]. by injection Hk. }
  destruct (mediated_promotion _ _ _ _ _ _ _ _ _ _ _ _ _ Hm Hd) as (-> & Hh & Hl).
  split; [done|]. exists hp, hc. auto.
Qed.

(** A challenger crowned in an epoch that has a holdout slice won twice: its
    outcome is the training gate's promotion unchanged, the holdout duel ran on
    exactly the slice and its complete, finite measurement confirms the win under the
    holdout's margin and pass-rate rule, and when the ladder mediates, the training
    improvement clears the ladder's bar as well.  A spent allowance, an unfinished or a
    withheld holdout never crowns. *)
Theorem confirmed_promotion dir epoch ids o p c w run_holdout identities st out block sc :
  ids <> [] ->
  (confirm_crowning_holdout dir epoch ids o p c w run_holdout identities st).2 = Ok (out, block, sc) ->
  decision out = PROMOTED ->
  out = o /\ exists hp hc, run_holdout ids = Ok (hp, hc) /\ holdout_holds hp hc w = true
    /\ (ladder_enabled (ladder (overfitting w)) = true -> exists tp tc,
          scalar p = Some tp /\ scalar c = Some tc
          /\ clears_bar (ladder (overfitting w)) w tp tc = true).
Proof.
  intros Hids. unfold confirm_crowning_holdout. destruct ids as [|i ids]; [done|].
  destruct (negb (promoted (decision o))) eqn:Hp.
  { cbn. intros [= <- _ _] E. by rewrite E in Hp. }
  intros Hk Hd. destruct (ladder_enabled _) in Hk; [|exact (observed_promotion _ _ _ _ _ _ _ _ _ _ _ _ _ _ Hk Hd)].
  apply op_bind_ok in Hk as ([s [res|]] & _ & Hk).
  { exact (observed_promotion _ _ _ _ _ _ _ _ _ _ _ _ _ _ Hk Hd). }
  cbn in Hk. unfold _ladder_exhausted_outcome in Hk. destruct (agg_scalar c); [|done].
  cbn [result_bind] in Hk. by injection Hk as <- _ _.
Qed.
End Outcomes.

(** ** Concrete histories *)
Module GovernanceWitness.
#[local] Existing Instance plain_format.

Definition id_a : string := "0123456789abcdef0123456789abcdef".
Definition id_b : string := "00000000000000000000000000000001".
Definition id_c : string := "00000000000000000000000000000002".
Definition id_d : string := "00000000000000000000000000000003".

Definition weights : ScoringWeights := default_weights.
Definition cfg : LadderConfig := default_ladder.

Definition row (s : float) : Row :=
  {| row_drift_loss := None; row_pass_fail := Some true; row_score := Some s |}.

Definition agg (loss : float) : Aggregate := {|
  scalar := Some loss; pass_rate := Some 1%float; mean_score := Some 1%float;
  incomplete_entries := []; per_entry := [("e1", row 1%float)];
  namespace_aggregates := Some []; scalar_components := None; diff_size := None |}.

Definition train_outcome : GateOutcome := {|
  decision := PROMOTED; reason := ""; delta_scalar := (-0.5)%float; delta_pass_rate := f0;
  attributable_regressions := []; explanation := None |}.

(** One reservation, then its settlement. *)
Definition reservation : LadderQueryReservation := {|
  lq_state_path := ladder_state_path "epoch"; lq_state_id := id_a; lq_epoch_id := "epoch-1";
  lq_reservation_id := id_b |}.

Definition reserved_op := _reserve_ladder_query "epoch" "epoch-1" cfg (id_a, id_b) empty_store.

Definition world1 : World :=
  {| w_store := final_store empty_store reserved_op; used := [id_a; id_b]; answered := [];
     releases := 0 |}.

Definition evidence : Observation := {|
  ob_train_parent := 1%float; ob_train_child := 0.5%float; ob_holdout_scalar := Some 0.25%float;
  ob_confirmed := true; ob_complete := true |}.

Definition settled_op :=
  _settle_ladder_query "epoch" "epoch-1" reservation cfg weights evidence id_c (w_store world1).

Definition world2 : World :=
  {| w_store := final_store (w_store world1) settled_op; used := [id_c; id_d; id_a; id_b];
     answered := [id_b]; releases := 1 |}.

Definition answer : LadderRelease * Z :=
  match settled_op.2 with
  | Ok a => a
  | Raise _ => (withheld cfg weights (seed cfg), 0%Z)
  end.

Lemma history : rtc (gov_step "epoch" cfg weights) fresh_world world2.
Proof.
  eapply rtc_l.
  { refine (gov_reserve "epoch" cfg weights "epoch-1" (id_a, id_b) fresh_world _ _ _).
    - repeat split; [apply not_elem_of_nil..].
    - vm_compute. reflexivity. }
  eapply rtc_l; [|apply rtc_refl].
  refine (gov_settle "epoch" cfg weights "epoch-1" reservation evidence (id_c, id_d) world1
            answer.1 answer.2 _ _ _).
  - repeat split; apply (bool_decide_unpack _); vm_compute; exact I.
  - intros x [= <-]. reflexivity.
  - vm_compute. reflexivity.
Qed.

Lemma holdout_budget_kept_witness : releases world2 <= length (answered world2).
Proof.
  apply (holdout_budget_kept "epoch" cfg weights world2); [vm_compute; discriminate|exact history].
Defined.

Definition record : DurableLadderState :=
  {| state_id := id_a;
     state := {| budget_total := 16; budget_remaining := 14; best_holdout_scalar := Some 0.25%float;
                 best_confirmed := Some false |};
     pending_reservations := [{| pending_id := id_b; budget_before_query := 15 |}] |}.

Lemma ladder_state_roundtrip_witness :
  _decode_ladder_state (_ladder_state_dict record) cfg "path" = Ok record.
Proof.
  apply (proj1 (ladder_state_roundtrip cfg "path")).
  constructor; cbn; try done.
  - by intros x [= <-].
  - repeat constructor; vm_compute; congruence.
  - apply NoDup_singleton.
  - apply NoDup_singleton.
Defined.

(** Two challengers that improve on nothing, and do well and badly on the holdout. *)
Definition withheld_run (x : float) :=
  confirm_crowning_holdout "epoch" "epoch-1" ["h1"] train_outcome (agg 1%float) (agg 1%float) weights
    (fun _ => Ok (agg 1%float, agg x)) (id_a, id_b) empty_store.

Lemma withheld_shows_only_scalar_witness :
  same_but_scalar (Some 0.25%float) (Some 7%float) (withheld_run 0.25%float) (withheld_run 7%float).
Proof.
  apply (withheld_shows_only_scalar "epoch" "epoch-1" ["h1"] train_outcome (agg 1%float) (agg 1%float) weights
    (fun _ => Ok (agg 1%float, agg 0.25%float)) (fun _ => Ok (agg 1%float, agg 7%float)) (id_a, id_b) empty_store
    (agg 1%float) (agg 0.25%float) (agg 1%float) (agg 7%float));
    [reflexivity..|intros tp tc [= <-] [= <-]; reflexivity].
Defined.

(** The evidence block of a withheld answer has no holdout scalar, and the answer has it:
    what the settlement records as the challenger's holdout loss. *)
Example withheld_scalar_returned :
  match (withheld_run 7%float).2 with
  | Ok (out, x) =>
      decision out.1 = DEFERRED /\ (hr_released <$> out.2) = Some false
      /\ (hr_holdout_scalar <$> out.2) = Some None /\ x = Some 7%float
  | Raise _ => False
  end.
Proof. vm_compute. repeat split. Qed.

Definition crowned :=
  (confirm_crowning_holdout "epoch" "epoch-1" ["h1"] train_outcome (agg 1%float) (agg 0.5%float)
     weights (fun _ => Ok (agg 1%float, agg 0.25%float)) (id_a, id_b) empty_store).2.

Definition crowned_result : GateOutcome * option HoldoutRecord * option float :=
  match crowned with Ok r => r | Raise _ => (train_outcome, None, None) end.

Lemma confirmed_promotion_witness : crowned_result.1.1 = train_outcome.
Proof.
  apply (confirmed_promotion "epoch" "epoch-1" ["h1"] train_outcome (agg 1%float) (agg 0.5%float)
           weights (fun _ => Ok (agg 1%float, agg 0.25%float)) (id_a, id_b) empty_store
           crowned_result.1.1 crowned_result.1.2 crowned_result.2);
    [discriminate|vm_compute; reflexivity..].
Defined.
End GovernanceWitness.
