(* ===== verification/Params.v ===== *)
(** Tournament parameters.

    The bounds of [src/zicato/core/constraints.py], the constraints and readers
    of [src/zicato/core/tournament.py], the typed readers at the end of
    [src/zicato/selection/strategy.py], and the two standings knobs of
    [src/zicato/selection/standings_ext.py].  A parameter is a JSON value; the
    mapping of parameters is a dictionary. *)

From S2P Require Import Prelude PyFloat PyJson CoreTypes.

Definition Params : Type := list (string * Json).

(** ** Bounds *)

Definition numeric_lt (a b : Numeric) : bool :=
  match a, b with
  | num_int a, num_int b => (a <? b)%Z
  | num_float a, num_float b => flt a b
  | num_int a, num_float b => bool_decide (Z_float_compare a b = Some Lt)
  | num_float a, num_int b => bool_decide (Z_float_compare b a = Some Gt)
  end.

Definition numeric_eq (a b : Numeric) : bool :=
  match a, b with
  | num_int a, num_int b => (a =? b)%Z
  | num_float a, num_float b => feq a b
  | num_int a, num_float b => bool_decide (Z_float_compare a b = Some Eq)
  | num_float a, num_int b => bool_decide (Z_float_compare b a = Some Eq)
  end.

Record KnobConstraint := {
  minimum : option Numeric;
  choices : option (list string);
  allow_none : bool;
  label : string;
  maximum : option Numeric;
  exclusive_minimum : bool;
  exclusive_maximum : bool;
  allow_bool : bool;
}.

Section Constraints.
Context `{PyFormat} `{PyRepr}.

Definition require_finite_number (name : string) (value : Json) : result Numeric :=
  match value with
  | JInt z => Ok (num_int z)
  | JFloat x =>
      ensure isfinite x
        orelse ValueError (name +:+ " must be finite, got " +:+ py_repr value);
      Ok (num_float x)
  | _ => Raise (ValueError (name +:+ " must be a finite number, got " +:+ py_repr value))
  end.

(** A bound as an operator writes it. *)
Definition _bound (n : Numeric) : string :=
  match n with
  | num_int z => pretty z
  | num_float x =>
      match float_floor x with
      | Some z => if bool_decide (Z_float_compare z x = Some Eq) then pretty z else str_float x
      | None => str_float x
      end
  end.

(** [KnobConstraint.check] *)
Definition knob_check (c : KnobConstraint) (name : string) (value : Json) : result unit :=
  let shown := if String.eqb (label c) "" then name else label c in
  let none := match value with JNull => true | _ => false end in
  let bool := match value with JBool _ => true | _ => false end in
  let suffix := if allow_none c then " or None" else "" in
  if allow_none c && none then Ok tt
  else if allow_bool c && bool then Ok tt
  else
    match choices c with
    | Some cs =>
        let member := match value with JStr s => bool_decide (s ∈ cs) | _ => false end in
        ensure member
          orelse ValueError (shown +:+ " must be one of {" +:+ py_join ", " (sorted_strings cs)
                             +:+ "}, got " +:+ py_repr value);
        Ok tt
    | None =>
        try number <- require_finite_number shown value;
        let below :=
          match minimum c with
          | None => None
          | Some m =>
              if numeric_lt number m || (exclusive_minimum c && numeric_eq number m)
              then Some m else None
          end in
        let above :=
          match maximum c with
          | None => None
          | Some m =>
              if numeric_lt m number || (exclusive_maximum c && numeric_eq number m)
              then Some m else None
          end in
        match below, above with
        | Some m, _ =>
            Raise (ValueError (shown +:+ " must be " +:+ (if exclusive_minimum c then ">" else ">=")
                               +:+ " " +:+ _bound m +:+ suffix +:+ ", got " +:+ py_repr value))
        | None, Some m =>
            Raise (ValueError (shown +:+ " must be " +:+ (if exclusive_maximum c then "<" else "<=")
                               +:+ " " +:+ _bound m +:+ ", got " +:+ py_repr value))
        | None, None => Ok tt
        end
    end.

Definition promote_confidence_threshold_constraint : KnobConstraint := {|
  minimum := Some (num_int 0); choices := None; allow_none := true;
  label := "tournament params["+:+dquote+:+"promote_confidence_threshold"+:+dquote+:+"]";
  maximum := Some (num_int 1); exclusive_minimum := false; exclusive_maximum := true;
  allow_bool := false |}.

Definition replicates_constraint : KnobConstraint := {|
  minimum := Some (num_int 1); choices := None; allow_none := false;
  label := "tournament params["+:+dquote+:+"replicates"+:+dquote+:+"]";
  maximum := None; exclusive_minimum := false; exclusive_maximum := false;
  allow_bool := false |}.

Definition promote_confidence_replicates_constraint : KnobConstraint := {|
  minimum := Some (num_int 0); choices := None; allow_none := true;
  label := "tournament params["+:+dquote+:+"promote_confidence_replicates"+:+dquote+:+"]";
  maximum := None; exclusive_minimum := false; exclusive_maximum := false;
  allow_bool := false |}.

Definition TOURNAMENT_PARAM_CONSTRAINTS : list (string * KnobConstraint) :=
  [("promote_confidence_threshold", promote_confidence_threshold_constraint);
   ("replicates", replicates_constraint);
   ("promote_confidence_replicates", promote_confidence_replicates_constraint)].

Definition DEFAULT_PROMOTE_CONFIDENCE_THRESHOLD : float := 0.8%float.
Definition DEFAULT_CONFIRMATION_BUDGET : Z := 32.

Definition read_promote_confidence_threshold (params : Params) : result (option float) :=
  let raw := dict_get_or params "promote_confidence_threshold" JNull in
  try _ <- knob_check promote_confidence_threshold_constraint "promote_confidence_threshold" raw;
  match raw with
  | JInt z => if (z =? 0)%Z then Ok None else Ok (Some (float_of_Z z))
  | JFloat x => if feq x f0 then Ok None else Ok (Some x)
  | _ => Ok None
  end.

Definition read_replicate_budget (params : Params) : result Z :=
  match dict_get_or params "promote_confidence_replicates" JNull with
  | JNull => Ok DEFAULT_CONFIRMATION_BUDGET
  | JInt raw =>
      ensure (0 <=? raw)%Z
        orelse ValueError "promote_confidence_replicates must be a nonnegative integer";
      try _ <- validate_measurement_count raw true;
      Ok raw
  | _ => Raise (ValueError "promote_confidence_replicates must be a nonnegative integer")
  end.

(** ** Structures *)

Definition VALID_TOURNAMENT_STRUCTURES : list string :=
  ["gauntlet"; "single_elim"; "double_elim"; "swiss"; "racing"].

Definition EXPERIMENTAL_TOURNAMENT_STRUCTURES : list string :=
  ["single_elim"; "double_elim"; "swiss"].

Definition EXPERIMENTAL_STRUCTURES_KEY : string := "experimental.tournament_structures".

Definition experimental_structure_refusal (structure : string) : string :=
  "tournament structure " +:+ py_repr (JStr structure) +:+ " is experimental; enable it with "
  +:+ EXPERIMENTAL_STRUCTURES_KEY +:+ " = true in scoring.json".

Record TournamentStructure := { ts_structure : string; ts_params : Params }.

(** The constraints of the keys the operator set, in declaration order. *)
Fixpoint check_params (constraints : list (string * KnobConstraint)) (params : Params)
    : result unit :=
  match constraints with
  | [] => Ok tt
  | (key, c) :: constraints =>
      try _ <- match dict_get params key with
               | Some value => knob_check c key value
               | None => Ok tt
               end;
      check_params constraints params
  end.

(** [TournamentStructure(structure, params)] with its [__post_init__]: the
    confirmation budget is filled in when a threshold is set. *)
Definition make_tournament_structure (structure : string) (params : Params)
    : result TournamentStructure :=
  ensure bool_decide (structure ∈ VALID_TOURNAMENT_STRUCTURES)
    orelse ValueError ("invalid tournament structure " +:+ py_repr (JStr structure)
                       +:+ "; valid values are: "
                       +:+ py_join ", " ((fun s => py_repr (JStr s)) <$> VALID_TOURNAMENT_STRUCTURES));
  try _ <- check_params TOURNAMENT_PARAM_CONSTRAINTS params;
  try threshold <- read_promote_confidence_threshold params;
  match threshold with
  | None => Ok {| ts_structure := structure; ts_params := params |}
  | Some _ =>
      try budget <- read_replicate_budget params;
      Ok {| ts_structure := structure;
            ts_params := dict_set params "promote_confidence_replicates" (JInt budget) |}
  end.

(** [TournamentStructure.gauntlet()] *)
Definition gauntlet_structure : result TournamentStructure :=
  make_tournament_structure "gauntlet" [].

Definition _default_tournament_structure : result TournamentStructure :=
  make_tournament_structure "racing"
    [("field_size", JInt 4); ("eta", JInt 2); ("board_fraction", JFloat 0.4%float);
     ("replicates", JInt 2);
     ("promote_confidence_threshold", JFloat DEFAULT_PROMOTE_CONFIDENCE_THRESHOLD);
     ("promote_confidence_replicates", JInt DEFAULT_CONFIRMATION_BUDGET)].

(** ** Typed readers ([selection/strategy.py]) *)

(** [validate_authored_value(int, raw, path=...)]: exactly an [int]. *)
Definition decode_int (path : string) (raw : Json) : result Z :=
  match raw with
  | JInt z => Ok z
  | _ => Raise (ConfigurationError path "type" "expected an integer")
  end.

(** [validate_authored_value(float, raw, path=...)]: an [int] or a finite
    [float]; an [int] beyond the range of a float is refused. *)
Definition decode_float (path : string) (raw : Json) : result float :=
  match raw with
  | JInt z =>
      ensure isfinite (float_of_Z z)
        orelse ConfigurationError path "range" "expected a finite number";
      Ok (float_of_Z z)
  | JFloat x =>
      ensure isfinite x orelse ConfigurationError path "range" "expected a finite number";
      Ok x
  | _ => Raise (ConfigurationError path "type" "expected a finite number")
  end.

Definition _param_int (params : Params) (key : string) (default : Z) : result Z :=
  let raw := dict_get_or params key (JInt default) in
  try z <- decode_int ("tournament.params." +:+ key) raw;
  try _ <- match dict_get TOURNAMENT_PARAM_CONSTRAINTS key with
           | Some constraint => knob_check constraint key raw
           | None => Ok tt
           end;
  Ok z.

Definition _param_float (params : Params) (key : string) (default : float) : result float :=
  decode_float ("tournament.params." +:+ key) (dict_get_or params key (JFloat default)).

Definition _param_opt_float (params : Params) (key : string) : result (option float) :=
  match dict_get_or params key JNull with
  | JNull => Ok None
  | _ =>
      try value <- _param_float params key f0;
      Ok (if flt f0 value then Some value else None)
  end.
End Constraints.

(** ** Standings knobs ([selection/standings_ext.py]) *)

Definition _VALID_RATINGS : list string := ["bradley_terry"].
Definition _VALID_RESOLVERS : list string := ["copeland"; "ranked_pairs"].

Definition read_token (valid : list string) (raw : Json) : option string :=
  match raw with
  | JStr raw =>
      let token := str_lower (str_strip raw) in
      if bool_decide (token ∈ valid) then Some token else None
  | _ => None
  end.

Definition read_rating (params : Params) : option string :=
  read_token _VALID_RATINGS (dict_get_or params "rating" JNull).

Definition read_resolver (params : Params) : option string :=
  read_token _VALID_RESOLVERS (dict_get_or params "resolver" JNull).

(** * Tournament parameters: the bounds check decides the admitted values, a
    threshold lies strictly between zero and one, and building a tournament
    structure is idempotent. *)

(** ** Bounds *)

(** The value is on the allowed side of a lower and of an upper bound. *)
Definition above (c : KnobConstraint) (n : Numeric) : Prop :=
  forall m, minimum c = Some m ->
    numeric_lt n m = false /\ (exclusive_minimum c = true -> numeric_eq n m = false).

Definition below (c : KnobConstraint) (n : Numeric) : Prop :=
  forall m, maximum c = Some m ->
    numeric_lt m n = false /\ (exclusive_maximum c = true -> numeric_eq n m = false).

Definition number_of (v : Json) : option Numeric :=
  match v with
  | JInt z => Some (num_int z)
  | JFloat x => if isfinite x then Some (num_float x) else None
  | _ => None
  end.

(** The values a constraint admits. *)
Definition admits (c : KnobConstraint) (v : Json) : Prop :=
  (allow_none c = true /\ v = JNull)
  \/ (allow_bool c = true /\ exists b, v = JBool b)
  \/ match choices c with
     | Some cs => exists s, v = JStr s /\ s ∈ cs
     | None => exists n, number_of v = Some n /\ above c n /\ below c n
     end.

Section ParamsLaws.
Context `{PyFormat} `{PyRepr}.

Lemma bound_above c n :
  match minimum c with
  | None => None
  | Some m => if numeric_lt n m || (exclusive_minimum c && numeric_eq n m) then Some m else None
  end = None <-> above c n.
Proof.
  unfold above. destruct (minimum c) as [m|]; [|by split; [intros _ m|]].
  destruct (numeric_lt n m) eqn:E1, (exclusive_minimum c) eqn:E2, (numeric_eq n m) eqn:E3; cbn;
    (split; [by intros H' m' [= <-]|intros H'; destruct (H' m eq_refl) as [? Hx]; try congruence;
             try (specialize (Hx eq_refl); congruence); done]).
Qed.

Lemma bound_below c n :
  match maximum c with
  | None => None
  | Some m => if numeric_lt m n || (exclusive_maximum c && numeric_eq n m) then Some m else None
  end = None <-> below c n.
Proof.
  unfold below. destruct (maximum c) as [m|]; [|by split; [intros _ m|]].
  destruct (numeric_lt m n) eqn:E1, (exclusive_maximum c) eqn:E2, (numeric_eq n m) eqn:E3; cbn;
    (split; [by intros H' m' [= <-]|intros H'; destruct (H' m eq_refl) as [? Hx]; try congruence;
             try (specialize (Hx eq_refl); congruence); done]).
Qed.

Lemma require_finite_number_ok name v n :
  require_finite_number name v = Ok n <-> number_of v = Some n.
Proof. destruct v; cbn; try done; [|case_match]; naive_solver. Qed.

Lemma knob_check_admits c name v : knob_check c name v = Ok tt <-> admits c v.
Proof.
  unfold knob_check, admits. set (shown := if String.eqb (label c) "" then name else label c).
  destruct (allow_none c && _) eqn:En.
  { apply andb_true_iff in En as [-> En]. destruct v; try done. split; [auto|done]. }
  destruct (allow_bool c && _) eqn:Eb.
  { apply andb_true_iff in Eb as [-> Eb]. destruct v; try done. split; [eauto|done]. }
  assert (Hsides : ~ (allow_none c = true /\ v = JNull) /\ ~ (allow_bool c = true /\ exists b, v = JBool b)).
  { split; [intros [Ha ->]; by rewrite Ha in En|intros [Ha [b ->]]; by rewrite Ha in Eb]. }
  destruct (choices c) as [cs|].
  - destruct v; cbn; try (split; [done|naive_solver]). case_bool_decide; cbn; naive_solver.
  - assert (Hnum : forall n, require_finite_number shown v = Ok n <-> number_of v = Some n)
      by (intros; apply require_finite_number_ok).
    destruct (require_finite_number shown v) as [n|e]; cbn.
    2:{ split; [done|]. intros [?|[?|(n & Hn & _)]]; [tauto|tauto|]. by apply Hnum in Hn. }
    pose proof (proj1 (Hnum n) eq_refl) as Hn. rewrite Hn.
    pose proof (bound_above c n) as Ha. pose proof (bound_below c n) as Hb.
    destruct (match minimum c with None => _ | Some _ => _ end) eqn:Emin;
      [split; [done|naive_solver]|].
    destruct (match maximum c with None => _ | Some _ => _ end) eqn:Emax;
      [split; [done|naive_solver]|].
    split; [|done]. intros _. right. right. exists n. naive_solver.
Qed.

(** ** Readers *)

Lemma param_int_replicates_pos params default n :
  _param_int params "replicates" default = Ok n -> (1 <= n)%Z.
Proof.
  unfold _param_int. set (raw := dict_get_or params "replicates" (JInt default)).
  intros (z & Hz & ([] & Hk & [= <-])%result_bind_ok)%result_bind_ok.
  destruct raw as [| |k| | | |]; try done. injection Hz as ->.
  change (knob_check replicates_constraint "replicates" (JInt z) = Ok tt) in Hk.
  apply knob_check_admits in Hk as [[_ ?]|[[_ [? ?]]|(m & [= <-] & Ha & _)]]; try done.
  destruct (Ha (num_int 1) eq_refl) as [Hlt _]. cbn in Hlt. apply Z.ltb_ge in Hlt. done.
Qed.

Lemma Z_float_compare_zero x :
  isfinite x = true -> Z_float_compare 0 x = Some Eq -> feq x f0 = true.
Proof.
  intros _. unfold Z_float_compare, float_parts, feq. rewrite FloatAxioms.eqb_spec.
  destruct (FloatOps.Prim2SF x) as [s|s| |s m e]; try done; [by destruct s|].
  intros Hc. exfalso. cbn -[Z.mul Z.pow Z.compare] in Hc. apply (inj Some) in Hc. revert Hc.
  destruct (Z.leb_spec 0 e) as [E|E]; intros Hc%Z.compare_eq_iff; [|destruct s; lia].
  pose proof (Z.pow_pos_nonneg 2 e ltac:(lia) E). destruct s; nia.
Qed.

(** What the reader of the threshold accepts. *)
Definition open_unit (t : float) : Prop :=
  Z_float_compare 0 t = Some Lt /\ Z_float_compare 1 t = Some Gt.

Lemma finite_compares z x : isfinite x = true -> is_Some (Z_float_compare z x).
Proof.
  intros [p Hp]%isfinite_parts. unfold Z_float_compare, float_parts in *.
  destruct (FloatOps.Prim2SF x); try done; by eexists.
Qed.

Lemma threshold_open_unit params t :
  read_promote_confidence_threshold params = Ok (Some t) -> open_unit t.
Proof.
  unfold read_promote_confidence_threshold. intros ([] & Hk & Hr)%result_bind_ok.
  apply knob_check_admits in Hk. set (raw := dict_get_or params _ JNull) in *.
  destruct Hk as [[_ Hn]|[[_ [b Hb]]|(m & Hm & Ha & Hb)]]; [by rewrite Hn in Hr|by rewrite Hb in Hr|].
  destruct (Ha (num_int 0) eq_refl) as [Hlo _]. destruct (Hb (num_int 1) eq_refl) as [Hhi Hne].
  specialize (Hne eq_refl). destruct raw as [| |z|x| | |]; try done; cbn in Hm.
  - injection Hm as <-. cbn in *. apply Z.ltb_ge in Hlo, Hhi. apply Z.eqb_neq in Hne.
    destruct (Z.eqb_spec z 0); [done|lia].
  - destruct (isfinite x) eqn:Ef; [|done]. injection Hm as <-. cbn in Hlo, Hhi, Hne.
    destruct (feq x f0) eqn:E0; [done|]. injection Hr as <-.
    apply bool_decide_eq_false in Hlo, Hhi, Hne. unfold open_unit.
    destruct (finite_compares 0 x Ef) as [c0 Hc0], (finite_compares 1 x Ef) as [c1 Hc1].
    rewrite Hc0, Hc1 in *. split; [destruct c0|destruct c1]; try done.
    exfalso. pose proof (Z_float_compare_zero x Ef Hc0). congruence.
Qed.

Lemma read_replicate_budget_ok params b :
  read_replicate_budget params = Ok b -> (0 <= b)%Z.
Proof.
  unfold read_replicate_budget. destruct (dict_get_or _ _ _); try done.
  - intros [= <-]. unfold DEFAULT_CONFIRMATION_BUDGET. lia.
  - destruct (Z.leb_spec 0 z); [|done]. by intros (? & _ & [= <-])%result_bind_ok.
Qed.

(** ** Structures *)

Lemma check_params_ok constraints params :
  check_params constraints params = Ok tt <->
  forall key c v, (key, c) ∈ constraints -> dict_get params key = Some v -> admits c v.
Proof.
  induction constraints as [|[key c] constraints IH]; cbn; [set_solver|]. split.
  - intros ([] & Hk & Hrest)%result_bind_ok key' c' v [[= -> ->]|Hin]%elem_of_cons Hv.
    + rewrite Hv in Hk. by apply knob_check_admits in Hk.
    + by apply (proj1 IH Hrest key' c').
  - intros Hall. assert (Hrest : check_params constraints params = Ok tt)
      by (apply IH; intros; eapply Hall; [by right|done]).
    destruct (dict_get params key) as [v|] eqn:E; [|done].
    assert (knob_check c key v = Ok tt) as -> by (apply knob_check_admits; eapply Hall; [by left|done]).
    done.
Qed.
End ParamsLaws.

(** A constraint admits exactly the values its declaration describes: a null or
    a boolean it allows, one of its choices, or a finite number on the allowed side
    of both bounds, a boundary value only when that bound is inclusive.  Every other
    value is refused. *)
Theorem knob_check_correct `{PyFormat} `{PyRepr} c name v :
  (knob_check c name v = Ok tt <-> admits c v)
  /\ (~ admits c v -> exists msg, knob_check c name v = Raise (ValueError msg)).
Proof.
  split; [apply knob_check_admits|]. intros Hno.
  destruct (knob_check c name v) as [[]|e] eqn:E; [by apply knob_check_admits in E|].
  unfold knob_check, require_finite_number in E.
  repeat (case_match; simplify_eq/=; try (by eexists)).
Qed.

(** C40.  A tournament structure that is built names a known structure, every
    bounded parameter it carries is admitted, and with a confidence threshold, which
    lies strictly between 0 and 1, it carries an explicit confirmation budget;
    rebuilding it from its own parameters changes nothing. *)
Theorem tournament_structure_wellformed `{PyFormat} `{PyRepr} token params spec :
  make_tournament_structure token params = Ok spec ->
  ts_structure spec = token /\ token ∈ VALID_TOURNAMENT_STRUCTURES
  /\ (forall key c v, (key, c) ∈ TOURNAMENT_PARAM_CONSTRAINTS -> dict_get params key = Some v -> admits c v)
  /\ (forall t, read_promote_confidence_threshold params = Ok (Some t) ->
        open_unit t /\ exists b, (0 <= b)%Z
          /\ dict_get (ts_params spec) "promote_confidence_replicates" = Some (JInt b)
          /\ read_replicate_budget params = Ok b)
  /\ make_tournament_structure (ts_structure spec) (ts_params spec) = Ok spec.
Proof.
  unfold make_tournament_structure. case_bool_decide as Htok; [|done].
  intros ([] & Hcheck & (thr & Hthr & Hrest)%result_bind_ok)%result_bind_ok.
  destruct thr as [t|].
  2:{ injection Hrest as <-. cbn [ts_structure ts_params]. rewrite bool_decide_eq_true_2, Hcheck by done. cbn [result_bind].
      rewrite Hthr. cbn [result_bind]. split_and!; [done|done|by apply check_params_ok|by intros t|done]. }
  apply result_bind_ok in Hrest as (b & Hb & [= <-]). cbn [ts_structure ts_params].
  pose proof (read_replicate_budget_ok _ _ Hb) as Hpos. set (params' := dict_set _ _ _).
  assert (Hget : dict_get params' "promote_confidence_replicates" = Some (JInt b)) by apply dict_get_set_eq.
  assert (Hother : forall k, k <> "promote_confidence_replicates" -> dict_get params' k = dict_get params k)
    by (intros; by apply dict_get_set_ne).
  split_and!; [done|done|by apply check_params_ok| |].
  - intros t' Ht'. split; [by eapply threshold_open_unit|]. by exists b.
  - rewrite bool_decide_eq_true_2 by done.
    assert (check_params TOURNAMENT_PARAM_CONSTRAINTS params' = Ok tt) as ->.
    { apply check_params_ok. intros key c v Hin Hv.
      destruct (decide (key = "promote_confidence_replicates")) as [->|Hne].
      - rewrite Hget in Hv. injection Hv as <-. apply knob_check_admits with (name := "").
        unfold TOURNAMENT_PARAM_CONSTRAINTS in Hin. rewrite !elem_of_cons in Hin.
        destruct Hin as [Hin|[Hin|[Hin|Hin]]]; [discriminate Hin|discriminate Hin| |set_solver].
        apply (f_equal snd) in Hin. cbn [snd] in Hin. subst c. cbn. by rewrite (proj2 (Z.ltb_ge b 0)).
      - rewrite Hother in Hv by done. by apply (proj1 (check_params_ok _ _) Hcheck key c v). }
    cbn [result_bind].
    assert (read_promote_confidence_threshold params' = Ok (Some t)) as ->.
    { unfold read_promote_confidence_threshold, dict_get_or in *. by rewrite Hother. }
    cbn [result_bind]. assert (read_replicate_budget params' = Ok b) as ->.
    { unfold read_replicate_budget, dict_get_or. rewrite Hget. cbn [from_option id].
      rewrite (proj2 (Z.leb_le 0 b)) by done.
      unfold validate_measurement_count. cbn -[Z.leb]. by rewrite (proj2 (Z.leb_le 0 b)). }
    cbn [result_bind]. do 2 f_equal. by apply dict_set_same.
Qed.

Module ParamsWitness.
#[local] Existing Instance plain_format.
#[local] Existing Instance plain_repr.

Lemma knob_check_correct_witness :
  exists msg, knob_check replicates_constraint "replicates" (JInt 0) = Raise (ValueError msg).
Proof.
  apply (knob_check_correct replicates_constraint "replicates" (JInt 0)).
  intros [[_ Hv]|[[Hv _]|(n & [= <-] & Ha & _)]]; [discriminate|discriminate|].
  destruct (Ha (num_int 1) eq_refl) as [Hlt _]. discriminate.
Defined.

Definition params : Params := [("promote_confidence_threshold", JFloat 0.9%float)].

Lemma tournament_structure_wellformed_witness :
  exists spec, make_tournament_structure "racing" params = Ok spec
    /\ make_tournament_structure (ts_structure spec) (ts_params spec) = Ok spec.
Proof.
  destruct (make_tournament_structure "racing" params) as [spec|e] eqn:E; [|vm_compute in E; discriminate].
  exists spec. split; [reflexivity|]. apply (tournament_structure_wellformed "racing" params spec E).
Defined.

(** The default structure of the shipped contract builds. *)
Example default_structure_builds : is_ok _default_tournament_structure = true.
Proof. vm_compute. reflexivity. Qed.
End ParamsWitness.
