(* ===== verification/Records.v ===== *)
(** What the record decoders share: the detached JSON copy a record keeps
    ([json.loads(json.dumps(value, allow_nan=False))]), the body a record writes back over
    that copy, the checks on required texts and optional numbers, and Python's equality
    of JSON values. *)
From S2P Require Import Prelude PyFloat PyText PyJson CoreTypes Params.

(** ** Detached copies *)

Fixpoint json_finite (v : Json) : bool :=
  match v with
  | JFloat x => isfinite x
  | JArr l => forallb json_finite l
  | JObj d => forallb (fun item => json_finite item.2) d
  | _ => true
  end.

Definition out_of_range : exn := ValueError "Out of range float values are not JSON compliant".

(** The text a record keeps parses back to the value, objects in their order. *)
Definition detach (v : Json) : result Json :=
  ensure json_finite v orelse out_of_range; Ok v.

Definition detach_obj (d : list (string * Json)) : result (list (string * Json)) :=
  ensure json_finite (JObj d) orelse out_of_range; Ok d.

(** ** Fields *)

(** [body.get(key)] *)
Definition get_none (d : list (string * Json)) (key : string) : Json := dict_get_or d key JNull.

(** A text, a non-empty text. *)
Definition as_text (v : Json) : option string := match v with JStr s => Some s | _ => None end.
Definition as_nonempty (v : Json) : option string :=
  match v with JStr s => if String.eqb s "" then None else Some s | _ => None end.

(** [math.isfinite(value)] of a number that is no [bool]; an [int] beyond the floats
    overflows. *)
Definition finite_number (refusal : exn) (v : Json) : result Numeric :=
  match v with
  | JInt z => if isfinite (float_of_Z z) then Ok (num_int z) else Raise OverflowError
  | JFloat x => if isfinite x then Ok (num_float x) else Raise refusal
  | _ => Raise refusal
  end.

Definition optional_number (refusal : exn) (v : Json) : result (option Numeric) :=
  match v with
  | JNull => Ok None
  | _ => try n <- finite_number refusal v; Ok (Some n)
  end.

Definition numeric_json (n : Numeric) : Json :=
  match n with num_int z => JInt z | num_float x => JFloat x end.

(** [if key in body or value != absent: body[key] = value], for the values a record
    states anew: [absent] is [None] or the empty text. *)
Inductive Absent := absent_none | absent_empty.

Definition is_absent (a : Absent) (v : Json) : bool :=
  match a, v with
  | absent_none, JNull => true
  | absent_empty, JStr s => String.eqb s ""
  | _, _ => false
  end.

Definition absent_value (a : Absent) : Json :=
  match a with absent_none => JNull | absent_empty => JStr "" end.

Definition restate (body : list (string * Json)) (field : string * Absent * Json)
    : list (string * Json) :=
  let '(key, absent, value) := field in
  if dict_mem body key || negb (is_absent absent value) then dict_set body key value else body.

Definition jstrs (l : list string) : Json := JArr (JStr <$> l).
Definition jopt {A} (f : A -> Json) (o : option A) : Json := from_option f JNull o.

(** [body.update(...)] *)
Definition dict_update (d e : list (string * Json)) : list (string * Json) :=
  foldl (fun d item => dict_set d item.1 item.2) d e.

(** ** Equality *)

(** A [bool] is an [int]. *)
Definition json_num (v : Json) : option Numeric :=
  match v with
  | JBool b => Some (num_int (if b then 1 else 0)%Z)
  | JInt z => Some (num_int z)
  | JFloat x => Some (num_float x)
  | _ => None
  end.

(** [a == b]: numbers by value, arrays in order, objects without their order. *)
Fixpoint json_eq (a b : Json) {struct a} : bool :=
  match a, b with
  | JNull, JNull => true
  | JStr s, JStr t => String.eqb s t
  | JArr l, JArr m =>
      (fix all (l m : list Json) :=
         match l, m with
         | [], [] => true
         | x :: l, y :: m => json_eq x y && all l m
         | _, _ => false
         end) l m
  | JObj d, JObj e =>
      Nat.eqb (length d) (length e)
      && forallb (fun item => match dict_get e item.1 with
                              | Some w => json_eq item.2 w
                              | None => false
                              end) d
  | _, _ => match json_num a, json_num b with Some x, Some y => numeric_eq x y | _, _ => false end
  end.

(** ** Lemmas *)

Section JsonInd.
Context (P : Json -> Prop) (Hnull : P JNull) (Hbool : forall b, P (JBool b))
  (Hint : forall z, P (JInt z)) (Hfloat : forall x, P (JFloat x)) (Hstr : forall s, P (JStr s))
  (Harr : forall l, Forall P l -> P (JArr l))
  (Hobj : forall d, Forall (fun item => P item.2) d -> P (JObj d)).

Fixpoint json_induction (v : Json) : P v :=
  match v with
  | JNull => Hnull
  | JBool b => Hbool b
  | JInt z => Hint z
  | JFloat x => Hfloat x
  | JStr s => Hstr s
  | JArr l =>
      Harr l ((fix all (l : list Json) : Forall P l :=
                 match l with
                 | [] => Forall_nil_2 P
                 | x :: l => Forall_cons_2 P x l (json_induction x) (all l)
                 end) l)
  | JObj d =>
      Hobj d ((fix all (d : list (string * Json)) : Forall (fun item => P item.2) d :=
                 match d with
                 | [] => Forall_nil_2 _
                 | x :: d => Forall_cons_2 _ x d (json_induction x.2) (all d)
                 end) d)
  end.
End JsonInd.

(** Every object lists its keys once. *)
Fixpoint json_wf (v : Json) : Prop :=
  match v with
  | JArr l => foldr (fun x P => json_wf x /\ P) True l
  | JObj d => NoDup d.*1 /\ foldr (fun item P => json_wf item.2 /\ P) True d
  | _ => True
  end.

Lemma isfinite_not_nan x : isfinite x = true -> is_nan x = false.
Proof.
  unfold isfinite, flt, is_nan, feq. rewrite negb_false_iff, FloatAxioms.ltb_spec, FloatAxioms.eqb_spec.
  rewrite FloatAxioms.abs_spec. destruct (FloatOps.Prim2SF x) as [[]|[]| |[] m e]; try done.
  all: intros _; unfold SpecFloat.SFeqb; cbn; by rewrite Z.compare_refl, Pos.compare_cont_refl.
Qed.

Lemma json_eq_refl v : json_finite v = true -> json_wf v -> json_eq v v = true.
Proof.
  induction v as [| | |x|s|l IH|d IH] using json_induction; intros Hf Hw; cbn -[numeric_eq].
  - done.
  - by destruct b.
  - cbn. apply Z.eqb_refl.
  - cbn in Hf |- *. apply isfinite_not_nan in Hf. by apply negb_false_iff in Hf.
  - apply String.eqb_refl.
  - cbn in Hf, Hw. induction IH as [|x l Hx IHl IHi]; [done|]. cbn in *.
    apply andb_true_iff in Hf as [Hfx Hfl]. destruct Hw as [Hwx Hwl].
    by rewrite Hx, IHi by done.
  - cbn in Hf, Hw. destruct Hw as [Hnd Hw]. rewrite Nat.eqb_refl. cbn.
    apply forallb_forall. intros [k w] Hin. apply list_elem_of_In in Hin.
    rewrite (dict_elem_get d k w) by done. cbn.
    rewrite Forall_forall in IH. apply (IH _ Hin).
    + rewrite forallb_forall in Hf. apply Hf. by apply list_elem_of_In.
    + clear -Hw Hin. induction d as [|y d IHd]; [set_solver|]. cbn in Hw.
      apply elem_of_cons in Hin as [<-|Hin]; naive_solver.
Qed.

Lemma detach_ok v w : detach v = Ok w <-> w = v /\ json_finite v = true.
Proof. unfold detach. destruct (json_finite v); naive_solver. Qed.

Lemma detach_obj_ok d e : detach_obj d = Ok e <-> e = d /\ json_finite (JObj d) = true.
Proof. unfold detach_obj. destruct (json_finite (JObj d)); naive_solver. Qed.

(** Stating anew what a body already says leaves it as it is. *)
Lemma restate_same body key a v :
  v = dict_get_or body key (absent_value a) -> restate body (key, a, v) = body.
Proof.
  unfold restate, dict_mem, dict_get_or. intros ->.
  destruct (dict_get body key) as [w|] eqn:E; cbn.
  - by apply dict_set_same.
  - by destruct a.
Qed.

Lemma foldl_restate_same body fields :
  Forall (fun f => f.2 = dict_get_or body f.1.1 (absent_value f.1.2)) fields ->
  foldl restate body fields = body.
Proof.
  induction 1 as [|[[k a] v] fields Hf _ IH]; [done|]. cbn [foldl].
  by rewrite restate_same.
Qed.

Lemma dict_update_same d e :
  Forall (fun item => dict_get d item.1 = Some item.2) e -> dict_update d e = d.
Proof.
  unfold dict_update. induction 1 as [|[k v] e Hk _ IH]; [done|]. cbn [foldl].
  by rewrite dict_set_same.
Qed.

Lemma as_text_ok v s : as_text v = Some s <-> v = JStr s.
Proof. destruct v; naive_solver. Qed.

Lemma as_nonempty_ok v s : as_nonempty v = Some s <-> v = JStr s /\ s <> "".
Proof. destruct v as [| | | |t| |]; cbn; try naive_solver. destruct (String.eqb_spec t ""); naive_solver. Qed.

Lemma finite_number_ok e v n : finite_number e v = Ok n -> v = numeric_json n.
Proof. destruct v; cbn; try done; case_match; naive_solver. Qed.

Lemma optional_number_ok e v n :
  optional_number e v = Ok n -> v = jopt numeric_json n.
Proof.
  destruct v; [intros [= <-]; done|..];
    intros (m & Hm & [= <-])%result_bind_ok; exact (finite_number_ok e _ m Hm).
Qed.

Lemma as_nonempty_text v s : as_nonempty v = Some s -> v = JStr s.
Proof. by intros [? _]%as_nonempty_ok. Qed.

Lemma as_text_text v s : as_text v = Some s -> v = JStr s.
Proof. by intros ?%as_text_ok. Qed.
