(* ===== verification/Configuration.v ===== *)
(** Strict decoding of authored JSON, [src/zicato/core/configuration.py].  The source's
    [_decode] interprets a type annotation; here each annotation is a decoder, built from
    the combinators below, one per branch of [_decode] ([decode_int] and [decode_float]
    are in [Params]).  A class is the decoders of its fields, in the order declared. *)
From S2P Require Import Prelude PyFloat PyText PyJson CoreTypes Params Records.

Definition Decoder (A : Type) : Type := string -> Json -> result A.

Definition decode_str : Decoder string := fun path raw =>
  match raw with
  | JStr s => Ok s
  | _ => Raise (ConfigurationError path "type" "expected a string")
  end.

Definition decode_bool : Decoder bool := fun path raw =>
  match raw with
  | JBool b => Ok b
  | _ => Raise (ConfigurationError path "type" "expected a boolean")
  end.

(** [X | None] *)
Definition decode_optional {A} (d : Decoder A) : Decoder (option A) := fun path raw =>
  match raw with
  | JNull => Ok None
  | _ => try x <- d path raw; Ok (Some x)
  end.

(** [int | float]: the first candidate that does not refuse. *)
Definition decode_number : Decoder Numeric := fun path raw =>
  match decode_int path raw with
  | Ok z => Ok (num_int z)
  | Raise (ConfigurationError _ _ _) =>
      match decode_float path raw with
      | Ok x => Ok (num_float x)
      | Raise (ConfigurationError _ _ _) =>
          Raise (ConfigurationError path "type" "expected one of [<class 'int'>, <class 'float'>]")
      | Raise e => Raise e
      end
  | Raise e => Raise e
  end.

Fixpoint decode_items {A} (d : Decoder A) (path : string) (index : nat) (items : list Json)
    : result (list A) :=
  match items with
  | [] => Ok []
  | raw :: items =>
      try x <- d (path +:+ "[" +:+ pretty index +:+ "]") raw;
      try xs <- decode_items d path (S index) items;
      Ok (x :: xs)
  end.

(** [tuple[X, ...]] and [list[X]] *)
Definition decode_array {A} (d : Decoder A) : Decoder (list A) := fun path raw =>
  match raw with
  | JArr items => decode_items d path 0 items
  | _ => Raise (ConfigurationError path "type" "expected an array")
  end.

(** A string [Literal] and a [StrEnum], by the tokens of their members. *)
Definition decode_literal {A} (members : list (string * A)) : Decoder A := fun path raw =>
  match raw with
  | JStr s =>
      match dict_get members s with
      | Some a => Ok a
      | None => Raise (ConfigurationError path "value"
                  ("expected one of (" +:+ py_join ", " members.*1 +:+ "); got " +:+ s))
      end
  | _ => Raise (ConfigurationError path "value"
           ("expected one of (" +:+ py_join ", " members.*1 +:+ ")"))
  end.

Definition decode_enum {A} (members : list (string * A)) : Decoder A := fun path raw =>
  match raw with
  | JStr s =>
      match dict_get members s with
      | Some a => Ok a
      | None => Raise (ConfigurationError path "value"
                  ("expected one of [" +:+ py_join ", " members.*1 +:+ "]"))
      end
  | _ => Raise (ConfigurationError path "type" "expected an enum value of its declared type")
  end.

(** [Any]: a finite JSON value, copied. *)
Fixpoint decode_any (path : string) (raw : Json) {struct raw} : result Json :=
  match raw with
  | JObj d =>
      try d' <- (fix all d : result (list (string * Json)) :=
                   match d with
                   | [] => Ok []
                   | (key, v) :: d =>
                       try v <- decode_any (path +:+ "." +:+ key) v;
                       try d <- all d;
                       Ok ((key, v) :: d)
                   end) d;
      Ok (JObj d')
  | JArr l =>
      try l' <- (fix all index l : result (list Json) :=
                   match l with
                   | [] => Ok []
                   | v :: l =>
                       try v <- decode_any (path +:+ "[" +:+ pretty index +:+ "]") v;
                       try l <- all (S index) l;
                       Ok (v :: l)
                   end) 0 l;
      Ok (JArr l')
  | JFloat x =>
      ensure isfinite x orelse ConfigurationError path "type" "expected a finite JSON value"; Ok raw
  | _ => Ok raw
  end.

(** [dict[str, Any]] *)
Definition decode_mapping : Decoder (list (string * Json)) := fun path raw =>
  match raw with
  | JObj d =>
      result_map (fun item => try v <- decode_any (path +:+ "." +:+ item.1) item.2; Ok (item.1, v)) d
  | _ => Raise (ConfigurationError path "type" "expected an object")
  end.

(** ** Classes *)

(** A key that no field declares is refused first, in the order of the object. *)
Definition declared_object (declared : list string) (path : string) (raw : Json)
    : result (list (string * Json)) :=
  match raw with
  | JObj d =>
      match find_first (fun key => bool_decide (key ∉ declared)) d.*1 with
      | Some key =>
          Raise (ConfigurationError (path +:+ "." +:+ key) "unknown"
                   ("unknown field; accepted: " +:+ py_join ", " (sorted_strings declared)))
      | None => Ok d
      end
  | _ => Raise (ConfigurationError path "type" "expected an object")
  end.

(** A field without, and with, a default. *)
Definition required {A} (d : Decoder A) (path : string) (raw : list (string * Json)) (key : string)
    : result A :=
  match dict_get raw key with
  | Some v => d (path +:+ "." +:+ key) v
  | None => Raise (ConfigurationError (path +:+ "." +:+ key) "missing" "required field is absent")
  end.

Definition defaulted {A} (d : Decoder A) (default : A) (path : string) (raw : list (string * Json))
    (key : string) : result A :=
  match dict_get raw key with
  | Some v => d (path +:+ "." +:+ key) v
  | None => Ok default
  end.

(** ** Lemmas *)

Lemma decode_items_inverse {A} (d : Decoder A) (encode : A -> Json) l path i :
  (forall path x, x ∈ l -> d path (encode x) = Ok x) ->
  decode_items d path i (encode <$> l) = Ok l.
Proof.
  revert i. induction l as [|x l IH]; intros i H; [done|]. cbn.
  rewrite H by set_solver. cbn. rewrite IH; [done|]. intros p y Hy. apply H. set_solver.
Qed.

Lemma decode_optional_inverse {A} (d : Decoder A) (encode : A -> Json) o path :
  (forall x, encode x <> JNull) -> (forall x, o = Some x -> d path (encode x) = Ok x) ->
  decode_optional d path (from_option encode JNull o) = Ok o.
Proof.
  destruct o as [x|]; [|done]. intros Hn H. cbn. specialize (Hn x). unfold decode_optional.
  destruct (encode x) eqn:E; try done; by rewrite <-E, H.
Qed.

Lemma result_map_same {A} (f : A -> result A) l :
  (forall x, x ∈ l -> f x = Ok x) -> result_map f l = Ok l.
Proof.
  induction l as [|x l IH]; intros H; [done|]. cbn. rewrite H by set_solver. cbn.
  rewrite IH; [done|]. intros y Hy. apply H. set_solver.
Qed.

Lemma decode_any_finite v path : json_finite v = true -> decode_any path v = Ok v.
Proof.
  revert path. induction v as [| | |x| |l IH|d IH] using json_induction; intros path Hf; try done.
  - cbn in *. by rewrite Hf.
  - cbn in Hf |- *.
    match goal with |- context [?all 0 l] => assert (forall i, all i l = Ok l) as Hl end;
      [|by rewrite Hl].
    induction IH as [|v l Hv _ IHl]; intros i; [done|]. cbn in Hf.
    apply andb_true_iff in Hf as [Hfv Hfl]. cbn. rewrite Hv by done. cbn. by rewrite IHl.
  - cbn in Hf |- *.
    match goal with |- context [result_bind (?all d) _] => assert (all d = Ok d) as Hd | |- context [match ?all d with _ => _ end] => assert (all d = Ok d) as Hd end; [|by rewrite Hd].
    induction IH as [|[k v] d Hv _ IHd]; [done|]. cbn in Hf, Hv.
    apply andb_true_iff in Hf as [Hfv Hfd]. cbn. rewrite Hv by done. cbn. by rewrite IHd.
Qed.

Lemma decode_mapping_finite d path : json_finite (JObj d) = true -> decode_mapping path (JObj d) = Ok d.
Proof.
  cbn. rewrite forallb_forall. intros H. apply result_map_same. intros [k v] Hin.
  cbn. rewrite decode_any_finite; [done|]. apply (H (k, v)). by apply list_elem_of_In.
Qed.

Lemma declared_object_ok declared path d :
  d.*1 ⊆ declared -> declared_object declared path (JObj d) = Ok d.
Proof.
  intros H. cbn. destruct (find_first _ _) as [key|] eqn:E; [|done].
  apply find_first_Some in E as [Hin Hk]. apply bool_decide_eq_true in Hk. set_solver.
Qed.

(** *** Inverses *)

Lemma decode_float_ok path x : isfinite x = true -> decode_float path (JFloat x) = Ok x.
Proof. intros H. cbn. by rewrite H. Qed.

Lemma decode_optional_int path o : decode_optional decode_int path (jopt JInt o) = Ok o.
Proof. by destruct o. Qed.

Lemma decode_optional_str path o : decode_optional decode_str path (jopt JStr o) = Ok o.
Proof. by destruct o. Qed.

Lemma decode_optional_float path o :
  json_finite (jopt JFloat o) = true -> decode_optional decode_float path (jopt JFloat o) = Ok o.
Proof. destruct o as [x|]; [|done]. cbn. by intros ->. Qed.

Lemma decode_optional_mapping path o :
  json_finite (jopt JObj o) = true -> decode_optional decode_mapping path (jopt JObj o) = Ok o.
Proof.
  destruct o as [d|]; [|done]. intros H. cbn [decode_optional jopt from_option].
  by rewrite decode_mapping_finite.
Qed.

Lemma decode_array_inverse {A} (d : Decoder A) (encode : A -> Json) l path :
  (forall path x, x ∈ l -> d path (encode x) = Ok x) -> decode_array d path (JArr (encode <$> l)) = Ok l.
Proof. apply decode_items_inverse. Qed.

Lemma json_finite_item d key v : json_finite (JObj d) = true -> dict_get d key = Some v -> json_finite v = true.
Proof.
  cbn. rewrite forallb_forall. intros H Hk%dict_get_Some_elem. apply (H (key, v)). by apply list_elem_of_In.
Qed.

Lemma json_finite_elem {A} (encode : A -> Json) l x :
  json_finite (JArr (encode <$> l)) = true -> x ∈ l -> json_finite (encode x) = true.
Proof.
  cbn. rewrite forallb_forall. intros H Hx. apply H, list_elem_of_In. by apply list_elem_of_fmap_2.
Qed.

(** *** Fields of an encoded record *)

Lemma bind_required {A B} (d : Decoder A) path raw key v x (k : A -> result B) r :
  dict_get raw key = Some v -> d (path +:+ "." +:+ key) v = Ok x -> k x = r ->
  result_bind (required d path raw key) k = r.
Proof. unfold required. by intros -> -> <-. Qed.

Lemma bind_defaulted {A B} (d : Decoder A) default path raw key v x (k : A -> result B) r :
  dict_get raw key = Some v -> d (path +:+ "." +:+ key) v = Ok x -> k x = r ->
  result_bind (defaulted d default path raw key) k = r.
Proof. unfold defaulted. by intros -> -> <-. Qed.

(** One field of an encoded record, by the inverse of its decoder. *)
Ltac field_by t :=
  first [eapply bind_required | eapply bind_defaulted]; [reflexivity|t|].

Create HintDb codec.
#[export] Hint Resolve decode_float_ok decode_optional_int decode_optional_str
  decode_optional_float decode_optional_mapping : codec.

Ltac fields := repeat (field_by ltac:(first [reflexivity | solve [eauto with codec]])).

(** The parts of a finite object are finite. *)
Ltac finite_at H key :=
  let Hk := fresh "Hfin" in pose proof (json_finite_item _ key _ H eq_refl) as Hk; cbn -[isfinite] in Hk.

