(* ===== verification/Journal.v ===== *)
(** The journal of experiments, [src/zicato/epoch/journal.py]: the codecs of an experiment,
    its patches and its outcome, and the workspace they are written to.
    [Workspace] holds the records of an epoch store this development reads and writes; a
    file is the JSON value its text parses to ([None] when it does not parse), with the
    keys of an object in the order the program listed them: the sorted keys and the
    indentation of the text are not modelled, and no reader depends on them.  The markdown
    rendering of the journal is left out. *)
From S2P Require Import Prelude PyFloat PyText PyJson CoreTypes Params Records Configuration.

(** ** The workspace *)

Definition FileText : Type := option Json.

(** [ws_rounds] is, per epoch, the directories under [rounds/] with the settlement receipt
    each holds; [ws_revisions] the epochs signalled to the derived index so far, and
    [ws_hooks] the promotions announced to the adapter outside. *)
Record Workspace := {
  ws_lineage : option FileText;
  ws_experiments : list ((string * string) * FileText);
  ws_patches : list ((string * string * string) * FileText);
  ws_tournaments : list ((string * string) * FileText);
  ws_rounds : list (string * list (string * option FileText));
  ws_revisions : list string;
  ws_hooks : list (string * string);
}.

(** An operation leaves the states of its writes, oldest first: a crash exposes one of
    them.  Writes are atomic, and the caller holds the writer's lock. *)
Definition Op (S A : Type) : Type := S -> list S * result A.
Definition Wop (A : Type) : Type := Op Workspace A.

Definition final_ws {S} (ws : S) (states : list S) : S := List.last states ws.

Definition wop_ret {S A} (r : result A) : Op S A := fun _ => ([], r).
Definition wop_read {S A} (f : S -> result A) : Op S A := fun ws => ([], f ws).
Definition wop_write {S} (f : S -> S) : Op S unit := fun ws => ([f ws], Ok tt).

Definition wop_bind {S A B} (m : Op S A) (k : A -> Op S B) : Op S B := fun ws =>
  let '(states, r) := m ws in
  match r with
  | Raise e => (states, Raise e)
  | Ok a => let '(later, r') := k a (final_ws ws states) in (states ++ later, r')
  end.

Declare Scope wop_scope.
Delimit Scope wop_scope with wop.
Notation "'perform' x <- m ; k" := (wop_bind m (fun x => k))
  (at level 10, x pattern, m at level 100, k at level 200) : wop_scope.
Open Scope wop_scope.

Fixpoint wop_each {S A} (f : A -> Op S unit) (l : list A) : Op S unit :=
  match l with
  | [] => wop_ret (Ok tt)
  | x :: l => perform _ <- f x; wop_each f l
  end.

(** [mark_epoch_changed] of [src/zicato/workspace/projection.py]; an epoch is named like
    a directory. *)
Definition epoch_name_ok (epoch_id : string) : bool :=
  negb (String.eqb epoch_id "") && negb (String.eqb epoch_id ".")
  && negb (String.eqb epoch_id "..")
  && str_forallb (fun c => negb (Ascii.eqb c (Ascii.ascii_of_nat 47))) epoch_id.

Definition mark_epoch_changed (epoch_id : string) : Wop unit := fun ws =>
  if epoch_name_ok epoch_id then
    wop_write (fun ws => {|
      ws_lineage := ws_lineage ws; ws_experiments := ws_experiments ws;
      ws_patches := ws_patches ws; ws_tournaments := ws_tournaments ws;
      ws_rounds := ws_rounds ws; ws_revisions := ws_revisions ws ++ [epoch_id];
      ws_hooks := ws_hooks ws |}) ws
  else ([], Raise (ValueError "index revision requires one epoch directory name")).

(** ** Codecs *)

(** The exceptions the decoders turn into a refusal of the record, and what they say. *)
Definition exn_text (e : exn) : string :=
  match e with
  | ValueError m | TypeError m | RecordError m | RuntimeError m => m
  | KeyError k => "'" +:+ k +:+ "'"
  | ConfigurationError path _ m => path +:+ ": " +:+ m
  | OtherException c => c
  | _ => ""
  end.

Definition refused_as {A} (prefix : string) (r : result A) : result A :=
  match r with
  | Raise (KeyError _ as e) | Raise (TypeError _ as e) | Raise (ValueError _ as e)
  | Raise (ConfigurationError _ _ _ as e) => Raise (RecordError (prefix +:+ exn_text e))
  | _ => r
  end.

(** [set(d) == {field names}] *)
Definition _complete_fields (record_name : string) (expected : list string) (v : Json)
    : result (list (string * Json)) :=
  let refusal := ValueError (record_name +:+ " must carry exactly ["
                   +:+ py_join ", " (sorted_strings expected) +:+ "]") in
  match v with
  | JObj d =>
      ensure bool_decide (d.*1 ⊆ expected) && bool_decide (expected ⊆ d.*1) orelse refusal; Ok d
  | _ => Raise refusal
  end.

Definition op_members : list (string * PatchOpKind) :=
  [("replace", op_replace); ("set_numeric", op_set_numeric); ("set_enum", op_set_enum)].
Definition direction_members : list (string * MovementDirection) :=
  [("decrease", decrease); ("increase", increase); ("neutral", neutral);
   ("decrease_or_neutral", decrease_or_neutral); ("increase_or_neutral", increase_or_neutral)].
Definition magnitude_members : list (string * MovementMagnitude) :=
  [("small", small); ("medium", medium); ("large", large)].
Definition decision_members : list (string * TournamentDecision) :=
  [("promoted", PROMOTED); ("rejected", REJECTED); ("deferred", DEFERRED)].

Definition op_token (o : PatchOpKind) : string :=
  match o with op_replace => "replace" | op_set_numeric => "set_numeric" | op_set_enum => "set_enum" end.
Definition direction_token (d : MovementDirection) : string :=
  match d with
  | decrease => "decrease" | increase => "increase" | neutral => "neutral"
  | decrease_or_neutral => "decrease_or_neutral" | increase_or_neutral => "increase_or_neutral"
  end.
Definition magnitude_token (m : MovementMagnitude) : string :=
  match m with small => "small" | medium => "medium" | large => "large" end.

(** *** Patches *)

Definition patch_fields : list string :=
  ["id"; "mutation_id"; "op"; "new_content"; "new_numeric"; "new_enum"; "rationale"].

Definition patch_body (p : Patch) : list (string * Json) :=
  [("id", JStr (patch_id p)); ("mutation_id", JStr (mutation_id p));
   ("op", JStr (op_token (patch_op p))); ("new_content", jopt JStr (new_content p));
   ("new_numeric", jopt numeric_json (new_numeric p)); ("new_enum", jopt JStr (new_enum p));
   ("rationale", JStr (rationale p))].

Definition decode_patch : Decoder Patch := fun path raw =>
  try d <- declared_object patch_fields path raw;
  try i <- required decode_str path d "id";
  try target <- required decode_str path d "mutation_id";
  try o <- required (decode_literal op_members) path d "op";
  try content <- required (decode_optional decode_str) path d "new_content";
  try numeric <- required (decode_optional decode_number) path d "new_numeric";
  try enum <- required (decode_optional decode_str) path d "new_enum";
  try why <- required decode_str path d "rationale";
  Ok {| patch_id := i; mutation_id := target; patch_op := o; new_content := content;
        new_numeric := numeric; new_enum := enum; rationale := why |}.

Definition selected_field (o : PatchOpKind) : string :=
  match o with op_replace => "new_content" | op_set_numeric => "new_numeric" | op_set_enum => "new_enum" end.

Definition payload_fields (p : Patch) : list (string * bool) :=
  [("new_content", bool_decide (is_Some (new_content p)));
   ("new_numeric", bool_decide (is_Some (new_numeric p)));
   ("new_enum", bool_decide (is_Some (new_enum p)))].

Definition _patch_from_dict (v : Json) : result Patch :=
  try _ <- _complete_fields "Patch" patch_fields v;
  try p <- decode_patch "patch" v;
  let selected := selected_field (patch_op p) in
  match find_first (fun f => negb (String.eqb f.1 selected) && f.2) (payload_fields p) with
  | Some (key, _) =>
      Raise (ValueError ("patch " +:+ op_token (patch_op p) +:+ " cannot supply " +:+ key))
  | None =>
      ensure dict_get_or (payload_fields p) selected false
        orelse ValueError ("patch " +:+ op_token (patch_op p) +:+ " requires " +:+ selected);
      Ok p
  end.

(** *** Hypotheses *)

Definition movement_fields : list string := ["metric_name"; "direction"; "magnitude"].
Definition hypothesis_fields : list string :=
  ["core_idea"; "modulating"; "why"; "expected_pass_rate_delta"; "risks";
   "expected_metric_movements"].

Definition movement_body (m : ExpectedMetricMovement) : Json :=
  JObj [("metric_name", JStr (emm_metric_name m));
        ("direction", JStr (direction_token (emm_direction m)));
        ("magnitude", JStr (magnitude_token (emm_magnitude m)))].

Definition hypothesis_body (h : HypothesisSpec) : list (string * Json) :=
  [("core_idea", JStr (core_idea h)); ("modulating", jstrs (modulating h)); ("why", JStr (why h));
   ("expected_pass_rate_delta", JStr (expected_pass_rate_delta h)); ("risks", JStr (risks h));
   ("expected_metric_movements", JArr (movement_body <$> expected_metric_movements h))].

Definition decode_movement : Decoder ExpectedMetricMovement := fun path raw =>
  try d <- declared_object movement_fields path raw;
  try name <- required decode_str path d "metric_name";
  try direction <- required (decode_literal direction_members) path d "direction";
  try magnitude <- required (decode_literal magnitude_members) path d "magnitude";
  Ok {| emm_metric_name := name; emm_direction := direction; emm_magnitude := magnitude |}.

Definition decode_hypothesis : Decoder HypothesisSpec := fun path raw =>
  try d <- declared_object hypothesis_fields path raw;
  try idea <- required decode_str path d "core_idea";
  try targets <- required (decode_array decode_str) path d "modulating";
  try reasons <- required decode_str path d "why";
  try forecast <- required decode_str path d "expected_pass_rate_delta";
  try dangers <- defaulted decode_str "" path d "risks";
  try movements <- defaulted (decode_array decode_movement) [] path d "expected_metric_movements";
  Ok {| core_idea := idea; modulating := targets; why := reasons;
        expected_pass_rate_delta := forecast; risks := dangers;
        expected_metric_movements := movements |}.

(** The elements of a field, each with exactly the fields of its record, and, of a movement,
    with a name. *)
Definition complete_elements (record_name : string) (expected : list string)
    (check : list (string * Json) -> result unit) (d : list (string * Json)) (key : string)
    : result unit :=
  match get_none d key with
  | JArr items =>
      result_foldl (fun _ m => try e <- _complete_fields record_name expected m; check e) tt items
  | _ => Ok tt
  end.

Definition named (refusal : string) (d : list (string * Json)) : result unit :=
  ensure truthy (get_none d "metric_name") orelse ValueError refusal; Ok tt.

Definition _hypothesis_from_dict (v : Json) : result HypothesisSpec :=
  try d <- _complete_fields "HypothesisSpec" hypothesis_fields v;
  try h <- decode_hypothesis "hypothesis" v;
  try _ <- complete_elements "ExpectedMetricMovement" movement_fields
             (named "prediction must name a metric") d "expected_metric_movements";
  Ok h.

(** *** Outcomes *)

Definition actual_fields : list string :=
  ["metric_name"; "from_value"; "to_value"; "hypothesis_match"; "note"].
Definition match_fields : list string := ["match_id"; "opponent"; "won"; "delta_scalar"].
Definition outcome_fields : list string :=
  ["ran_at"; "pass_rate_delta"; "drift_loss_delta"; "scalar_score_delta"; "tournament_decision";
   "rejection_reason"; "metric_movements"; "structure"; "final_rank"; "eliminated_in_round";
   "match_record"; "champion_eval_mode"; "holdout"; "train_loss"; "holdout_loss";
   "generalization_gap"; "operator_override"; "operator_override_reason"; "evidence"].

Definition actual_body (m : MetricMovementActual) : Json :=
  JObj [("metric_name", JStr (mma_metric_name m)); ("from_value", JFloat (from_value m));
        ("to_value", JFloat (to_value m)); ("hypothesis_match", JBool (hypothesis_match m));
        ("note", JStr (mma_note m))].

Definition match_body (m : MatchOutcome) : Json :=
  JObj [("match_id", JStr (mo_match_id m)); ("opponent", JStr (mo_opponent m));
        ("won", JBool (mo_won m)); ("delta_scalar", JFloat (mo_delta_scalar m))].

(** [asdict(outcome)], as JSON. *)
Definition outcome_body (o : OutcomeRecord) : list (string * Json) :=
  [("ran_at", JStr (ran_at o)); ("pass_rate_delta", JFloat (pass_rate_delta o));
   ("drift_loss_delta", JFloat (drift_loss_delta o));
   ("scalar_score_delta", JFloat (scalar_score_delta o));
   ("tournament_decision", jopt (fun d => JStr (decision_token d)) (tournament_decision o));
   ("rejection_reason", JStr (rejection_reason o));
   ("metric_movements", JArr (actual_body <$> metric_movements o));
   ("structure", JStr (outcome_structure o)); ("final_rank", jopt JInt (final_rank o));
   ("eliminated_in_round", jopt JInt (eliminated_in_round o));
   ("match_record", JArr (match_body <$> match_record o));
   ("champion_eval_mode", JStr (champion_eval_mode o));
   ("holdout", jopt JObj (outcome_holdout o)); ("train_loss", jopt JFloat (train_loss o));
   ("holdout_loss", jopt JFloat (holdout_loss o));
   ("generalization_gap", jopt JFloat (generalization_gap o));
   ("operator_override", JBool (operator_override o));
   ("operator_override_reason", JStr (operator_override_reason o));
   ("evidence", jopt JObj (outcome_evidence o))].

Definition decode_actual : Decoder MetricMovementActual := fun path raw =>
  try d <- declared_object actual_fields path raw;
  try name <- required decode_str path d "metric_name";
  try before <- required decode_float path d "from_value";
  try after <- required decode_float path d "to_value";
  try matched <- required decode_bool path d "hypothesis_match";
  try comment <- defaulted decode_str "" path d "note";
  Ok {| mma_metric_name := name; from_value := before; to_value := after;
        hypothesis_match := matched; mma_note := comment |}.

Definition decode_match : Decoder MatchOutcome := fun path raw =>
  try d <- declared_object match_fields path raw;
  try i <- required decode_str path d "match_id";
  try other <- required decode_str path d "opponent";
  try victory <- required decode_bool path d "won";
  try delta <- required decode_float path d "delta_scalar";
  Ok {| mo_match_id := i; mo_opponent := other; mo_won := victory; mo_delta_scalar := delta |}.

Definition decode_outcome : Decoder OutcomeRecord := fun path raw =>
  try d <- declared_object outcome_fields path raw;
  try at_time <- required decode_str path d "ran_at";
  try pass_delta <- required decode_float path d "pass_rate_delta";
  try drift_delta <- required decode_float path d "drift_loss_delta";
  try scalar_delta <- required decode_float path d "scalar_score_delta";
  try verdict <- required (decode_optional (decode_enum decision_members)) path d "tournament_decision";
  try why <- defaulted decode_str "" path d "rejection_reason";
  try movements <- defaulted (decode_array decode_actual) [] path d "metric_movements";
  try shape <- defaulted decode_str "gauntlet" path d "structure";
  try rank <- defaulted (decode_optional decode_int) None path d "final_rank";
  try out_round <- defaulted (decode_optional decode_int) None path d "eliminated_in_round";
  try matches <- defaulted (decode_array decode_match) [] path d "match_record";
  try mode <- defaulted decode_str "full" path d "champion_eval_mode";
  try holdout <- defaulted (decode_optional decode_mapping) None path d "holdout";
  try train <- defaulted (decode_optional decode_float) None path d "train_loss";
  try held <- defaulted (decode_optional decode_float) None path d "holdout_loss";
  try gap <- defaulted (decode_optional decode_float) None path d "generalization_gap";
  try overridden <- defaulted decode_bool false path d "operator_override";
  try override_why <- defaulted decode_str "" path d "operator_override_reason";
  try evidence <- defaulted (decode_optional decode_mapping) None path d "evidence";
  Ok {| ran_at := at_time; pass_rate_delta := pass_delta; drift_loss_delta := drift_delta;
        scalar_score_delta := scalar_delta; tournament_decision := verdict;
        rejection_reason := why; metric_movements := movements; outcome_structure := shape;
        final_rank := rank; eliminated_in_round := out_round; match_record := matches;
        champion_eval_mode := mode; outcome_holdout := holdout; train_loss := train;
        holdout_loss := held; generalization_gap := gap; operator_override := overridden;
        operator_override_reason := override_why; outcome_evidence := evidence |}.

Definition any_element : list (string * Json) -> result unit := fun _ => Ok tt.

Definition _outcome_from_dict (v : Json) : result (option OutcomeRecord) :=
  match v with
  | JNull => Ok None
  | _ =>
      try d <- _complete_fields "OutcomeRecord" outcome_fields v;
      try o <- decode_outcome "outcome" v;
      try _ <- complete_elements "MetricMovementActual" actual_fields
                 (named "movement must name a metric") d "metric_movements";
      try _ <- complete_elements "MatchOutcome" match_fields any_element d "match_record";
      Ok (Some o)
  end.

Definition outcome_from_dict (v : Json) : result OutcomeRecord :=
  try o <- _outcome_from_dict v;
  match o with
  | Some o => Ok o
  | None => Raise (ValueError "outcome payload must be a JSON object")
  end.

(** ** Experiments *)

Definition experiment_body (e : Experiment) : list (string * Json) :=
  [("format_version", JInt RECORD_FORMAT_VERSION); ("id", JStr (experiment_id e));
   ("epoch_id", JStr (exp_epoch_id e)); ("generation_id", JStr (exp_generation_id e));
   ("parent_generation_id", jopt JStr (parent_generation_id e));
   ("proposed_at", JStr (proposed_at e)); ("round_index", JInt (round_index e));
   ("hypothesis", JObj (hypothesis_body (hypothesis e)));
   ("patch_ids", jstrs (patch_id <$> patches e));
   ("outcome", jopt (fun o => JObj (outcome_body o)) (exp_outcome e))]
  ++ match recombined_from e with [] => [] | ids => [("recombined_from", jstrs ids)] end.

Definition put_patch (epoch_id gid : string) (p : Patch) : Wop unit :=
  wop_write (fun ws => {|
    ws_lineage := ws_lineage ws; ws_experiments := ws_experiments ws;
    ws_patches := dict_set (ws_patches ws) (epoch_id, gid, patch_id p) (Some (JObj (patch_body p)));
    ws_tournaments := ws_tournaments ws; ws_rounds := ws_rounds ws;
    ws_revisions := ws_revisions ws; ws_hooks := ws_hooks ws |}).

Definition put_experiment (epoch_id gid : string) (body : Json) : Wop unit :=
  wop_write (fun ws => {|
    ws_lineage := ws_lineage ws;
    ws_experiments := dict_set (ws_experiments ws) (epoch_id, gid) (Some body);
    ws_patches := ws_patches ws; ws_tournaments := ws_tournaments ws; ws_rounds := ws_rounds ws;
    ws_revisions := ws_revisions ws; ws_hooks := ws_hooks ws |}).

(** Patches first, then the body that references them. *)
Definition write_experiment (epoch_id gid : string) (e : Experiment) : Wop unit :=
  perform _ <- mark_epoch_changed epoch_id;
  perform _ <- wop_each (put_patch epoch_id gid) (patches e);
  put_experiment epoch_id gid (JObj (experiment_body e)).

(** The marker of an epoch's starting tree, written once. *)
Definition seed_experiment (epoch_id gid proposed_at : string) : Experiment := {|
  experiment_id := "exp_" +:+ epoch_id +:+ "_" +:+ gid; exp_epoch_id := epoch_id;
  exp_generation_id := gid; parent_generation_id := None; proposed_at := proposed_at;
  hypothesis := {| core_idea := "baseline seed"; modulating := []; why := "";
                   expected_pass_rate_delta := ""; risks := ""; expected_metric_movements := [] |};
  patches := []; exp_outcome := None; round_index := 0; recombined_from := [] |}.

Definition write_seed_experiment (epoch_id gid proposed_at : string) : Wop bool :=
  perform present <- wop_read (fun ws => Ok (dict_mem (ws_experiments ws) (epoch_id, gid)));
  if present then wop_ret (Ok false)
  else
    perform _ <- write_experiment epoch_id gid (seed_experiment epoch_id gid proposed_at);
    wop_ret (Ok true).

(** [body[key]] *)
Definition item (d : list (string * Json)) (key : string) : result Json :=
  match dict_get d key with Some v => Ok v | None => Raise (KeyError key) end.

Definition text_item (d : list (string * Json)) (key : string) : result string :=
  try v <- item d key;
  match v with JStr s => Ok s | _ => Raise (ValueError (key +:+ " must be a string")) end.

Definition texts (refusal : string) (v : Json) : result (list string) :=
  match v with
  | JArr items => result_map (fun i => match i with JStr s => Ok s | _ => Raise (ValueError refusal) end) items
  | _ => Raise (ValueError refusal)
  end.

(** The fields of an accepted body, its outcome and patches aside. *)
Record ExperimentFields := {
  ef_id : string;
  ef_parent_generation_id : option string;
  ef_proposed_at : string;
  ef_round_index : Z;
  ef_patch_ids : list string;
  ef_hypothesis : HypothesisSpec;
  ef_recombined_from : list string;
}.

(** The checks of [_accepted_body] between the stamp and the round's result. *)
Definition body_fields (epoch_id gid : string) (d : list (string * Json)) : result ExperimentFields :=
  try i <- text_item d "id";
  try e <- text_item d "epoch_id";
  try g <- text_item d "generation_id";
  try at_time <- text_item d "proposed_at";
  ensure String.eqb e epoch_id && String.eqb g gid
    orelse ValueError "experiment identity disagrees with its location";
  try parent_value <- item d "parent_generation_id";
  try parent <- match parent_value with
                | JNull => Ok None
                | JStr s => Ok (Some s)
                | _ => Raise (ValueError "parent_generation_id must be a string or null")
                end;
  try round_value <- item d "round_index";
  try round <- match round_value with
               | JInt z => Ok z
               | _ => Raise (ValueError "round_index must be an integer")
               end;
  try ids_value <- item d "patch_ids";
  try ids <- texts "patch_ids must be a list of strings" ids_value;
  try parents <- match dict_get d "recombined_from" with
                 | Some v => texts "recombined_from must be a list of generation identifiers" v
                 | None => Ok []
                 end;
  try hypothesis_value <- item d "hypothesis";
  try h <- _hypothesis_from_dict hypothesis_value;
  try outcome_value <- item d "outcome";
  try _ <- _outcome_from_dict outcome_value;
  Ok {| ef_id := i; ef_parent_generation_id := parent; ef_proposed_at := at_time;
        ef_round_index := round; ef_patch_ids := ids; ef_hypothesis := h;
        ef_recombined_from := parents |}.

Definition stored_patch (ws : Workspace) (epoch_id gid pid : string) : result Patch :=
  let location := epoch_id +:+ "/" +:+ gid in
  match dict_get (ws_patches ws) (epoch_id, gid, pid) with
  | Some None => Raise (RecordError ("patch record for " +:+ location +:+ " is not valid JSON"))
  | None | Some (Some JNull) =>
      Raise (RecordError ("patch record referenced by experiment.json for " +:+ location +:+ " is missing"))
  | Some (Some v) =>
      refused_as ("patch record for " +:+ location +:+ " does not parse: ") (_patch_from_dict v)
  end.

(** [_experiment_from_body] *)
Definition _experiment_from_body (ws : Workspace) (epoch_id gid : string) (f : ExperimentFields)
    (outcome_value : Json) : result Experiment :=
  try ps <- result_map (stored_patch ws epoch_id gid) (ef_patch_ids f);
  try o <- _outcome_from_dict outcome_value;
  Ok {| experiment_id := ef_id f; exp_epoch_id := epoch_id; exp_generation_id := gid;
        parent_generation_id := ef_parent_generation_id f; proposed_at := ef_proposed_at f;
        hypothesis := ef_hypothesis f; patches := ps; exp_outcome := o;
        round_index := ef_round_index f; recombined_from := ef_recombined_from f |}.

(** * Reasoning about the operations on a workspace, across crashes.  [wpc m I Q ws] says
    that [m], run from [ws], keeps the crash condition [I] after every write and ends in
    [Q] with its result and its last state. *)

Definition wpc {S A} (m : Op S A) (I : S -> Prop) (Q : result A -> S -> Prop)
    (ws : S) : Prop :=
  Forall I (m ws).1 /\ Q (m ws).2 (final_ws ws (m ws).1).

Lemma final_ws_cons {S} (ws s : S) l : final_ws ws (s :: l) = final_ws s l.
Proof.
  unfold final_ws. revert ws s. induction l as [|t l IH]; intros ws s; [done|].
  change (List.last (t :: l) ws = List.last (t :: l) s). by rewrite (IH ws t), (IH s t).
Qed.

Lemma final_ws_app {S} (ws : S) l l' : final_ws ws (l ++ l') = final_ws (final_ws ws l) l'.
Proof.
  revert ws. induction l as [|s l IH]; intros ws; [done|].
  cbn [app]. by rewrite !final_ws_cons, IH.
Qed.

Lemma wpc_mono {S A} (m : Op S A) (I I' : S -> Prop) (Q Q' : result A -> S -> Prop) ws :
  wpc m I Q ws -> (forall s, I s -> I' s) -> (forall r s, Q r s -> Q' r s) -> wpc m I' Q' ws.
Proof. intros [H1 H2] HI HQ. split; [by eapply Forall_impl|by apply HQ]. Qed.

Lemma wpc_ret {S A} (r : result A) I (Q : result A -> S -> Prop) ws :
  Q r ws -> wpc (wop_ret r) I Q ws.
Proof. by split. Qed.

Lemma wpc_read {S A} (f : S -> result A) I (Q : result A -> S -> Prop) ws :
  Q (f ws) ws -> wpc (wop_read f) I Q ws.
Proof. by split. Qed.

Lemma wpc_write {S} (f : S -> S) (I : S -> Prop) (Q : result unit -> S -> Prop) ws :
  I (f ws) -> Q (Ok tt) (f ws) -> wpc (wop_write f) I Q ws.
Proof. split; [by repeat constructor|done]. Qed.

Lemma wpc_bind {S A B} (m : Op S A) (k : A -> Op S B) I (Q : result B -> S -> Prop) ws :
  wpc m I (fun r s => match r with Ok a => wpc (k a) I Q s | Raise e => Q (Raise e) s end) ws ->
  wpc (wop_bind m k) I Q ws.
Proof.
  unfold wpc, wop_bind. destruct (m ws) as [l [a|e]]; cbn [fst snd]; [|done]. intros (Hl & Hk & HQ).
  destruct (k a _) as [l' r']. cbn [fst snd] in *. split; [by apply Forall_app|]. by rewrite final_ws_app.
Qed.

(** A step that succeeds, then the rest. *)
Lemma wpc_bind_ok {S A B} (m : Op S A) (k : A -> Op S B) I (Q : result B -> S -> Prop) ws a :
  wpc m I (fun r s => r = Ok a /\ wpc (k a) I Q s) ws -> wpc (wop_bind m k) I Q ws.
Proof. intros H. apply wpc_bind. eapply wpc_mono; [exact H|done|]. by intros r s [-> ?]. Qed.

Lemma wpc_read_ok {S A B} (f : S -> result A) (k : A -> Op S B) I Q ws a :
  f ws = Ok a -> wpc (k a) I Q ws -> wpc (wop_bind (wop_read f) k) I Q ws.
Proof. intros Hf Hk. eapply wpc_bind_ok, wpc_read. by rewrite Hf. Qed.

Lemma wpc_ret_ok {S A B} (r : result A) (k : A -> Op S B) I Q ws a :
  r = Ok a -> wpc (k a) I Q ws -> wpc (wop_bind (wop_ret r) k) I Q ws.
Proof. intros Hr Hk. eapply wpc_bind_ok, wpc_ret. by rewrite Hr. Qed.

(** What every state of an operation satisfies. *)
Lemma wpc_states {S A} (m : Op S A) I Q ws s : wpc m I Q ws -> s ∈ (m ws).1 -> I s.
Proof. intros [H _] Hs. by eapply Forall_forall in H. Qed.

(** An epoch signalled to the derived index. *)
Definition marked (epoch_id : string) (s : Workspace) : Workspace := {|
  ws_lineage := ws_lineage s; ws_experiments := ws_experiments s; ws_patches := ws_patches s;
  ws_tournaments := ws_tournaments s; ws_rounds := ws_rounds s;
  ws_revisions := ws_revisions s ++ [epoch_id]; ws_hooks := ws_hooks s |}.

Lemma wpc_mark epoch_id (I : Workspace -> Prop) (Q : result unit -> Workspace -> Prop) s :
  epoch_name_ok epoch_id = true -> I (marked epoch_id s) -> Q (Ok tt) (marked epoch_id s) ->
  wpc (mark_epoch_changed epoch_id) I Q s.
Proof. intros He HI HQ. unfold wpc, mark_epoch_changed. rewrite He. by split; [repeat constructor|]. Qed.
