(* ===== verification/Lineage.v ===== *)
(** The lineage graph, [src/zicato/epoch/lineage.py]: the ancestry and the disposition of
    every generation, per epoch, in [lineage.json].  The strict decoder, the writer that
    signals the epochs it changes, and the mutators, which edit the raw document.  The
    overlay of committed rounds, [load_lineage], is in [Receipt]. *)
From S2P Require Import Prelude PyFloat PyText PyJson CoreTypes Params Records Journal.

(** ** Accepted records *)

Record LineageGeneration := {
  lg_id : string;
  lg_parent_id : option string;
  lg_promoted : option bool;
  lg_created_at : string;
  lg_round_index : option Z;
  lg_rejection_reason : option string;
  lg_parent_scalar : option Numeric;
  lg_child_scalar : option Numeric;
  lg_delta_scalar : option Numeric;
  lg_json : list (string * Json);
}.

Record LineageEpoch := {
  le_id : string;
  le_name : string;
  le_started_at : string;
  le_closed_at : string;
  le_v0_parent : option string;
  le_generations : list LineageGeneration;
  le_json : list (string * Json);
}.

Record Lineage := {
  ln_epochs : list LineageEpoch;
  ln_json : list (string * Json);
  ln_exists : bool;
}.

Definition generation_stated (g : LineageGeneration) : list (string * Absent * Json) :=
  [("id", absent_none, JStr (lg_id g));
   ("parent_id", absent_none, jopt JStr (lg_parent_id g));
   ("promoted", absent_none, jopt JBool (lg_promoted g));
   ("created_at", absent_empty, JStr (lg_created_at g));
   ("round_index", absent_none, jopt JInt (lg_round_index g));
   ("rejection_reason", absent_none, jopt JStr (lg_rejection_reason g));
   ("parent_scalar", absent_none, jopt numeric_json (lg_parent_scalar g));
   ("child_scalar", absent_none, jopt numeric_json (lg_child_scalar g));
   ("delta_scalar", absent_none, jopt numeric_json (lg_delta_scalar g))].

Definition generation_to_dict (g : LineageGeneration) : list (string * Json) :=
  foldl restate (lg_json g) (generation_stated g).

Definition epoch_stated (e : LineageEpoch) : list (string * Absent * Json) :=
  [("id", absent_empty, JStr (le_id e)); ("name", absent_empty, JStr (le_name e));
   ("started_at", absent_empty, JStr (le_started_at e));
   ("closed_at", absent_empty, JStr (le_closed_at e));
   ("v0_parent", absent_none, jopt JStr (le_v0_parent e))].

Definition epoch_to_dict (e : LineageEpoch) : list (string * Json) :=
  dict_set (foldl restate (le_json e) (epoch_stated e)) "generations"
    (JArr ((fun g => JObj (generation_to_dict g)) <$> le_generations e)).

Definition lineage_to_dict (l : Lineage) : list (string * Json) :=
  dict_set (ln_json l) "epochs" (JArr ((fun e => JObj (epoch_to_dict e)) <$> ln_epochs l)).

Definition lineage_generation (e : LineageEpoch) (gid : string) : option LineageGeneration :=
  find_first (fun g => String.eqb (lg_id g) gid) (le_generations e).

Definition lineage_epoch (l : Lineage) (epoch_id : string) : option LineageEpoch :=
  find_first (fun e => String.eqb (le_id e) epoch_id) (ln_epochs l).

(** [v0_parent.split(":", 1)[0]] *)
Definition parent_epoch_id (e : LineageEpoch) : option string :=
  match le_v0_parent e with
  | Some p => if String.eqb p "" then None
              else Some (str_span (fun c => negb (Ascii.eqb c (Ascii.ascii_of_nat 58))) p).1
  | None => None
  end.

(** ** Decoding *)

Section Lineage.
Context `{PyRepr}.

Definition _string (row : list (string * Json)) (key : string) (required : bool) : result string :=
  match as_text (dict_get_or row key (JStr "")) with
  | Some s => if required && String.eqb s ""
              then Raise (RecordError ("lineage.json: invalid " +:+ key)) else Ok s
  | None => Raise (RecordError ("lineage.json: invalid " +:+ key))
  end.

Definition _parent (row : list (string * Json)) (key : string) : result (option string) :=
  match get_none row key with
  | JNull => Ok None
  | v => match as_nonempty v with
         | Some s => Ok (Some s)
         | None => Raise (RecordError ("lineage.json: " +:+ key +:+ " must be a nonempty string or null"))
         end
  end.

Definition _scalar (row : list (string * Json)) (key : string) : result (option Numeric) :=
  optional_number (RecordError ("lineage.json: " +:+ key +:+ " must be finite or null"))
    (get_none row key).

Definition decode_promoted (gid : string) (row : list (string * Json)) : result (option bool) :=
  match get_none row "promoted" with
  | JNull => Ok None
  | JBool b => Ok (Some b)
  | _ => Raise (RecordError ("lineage generation " +:+ py_repr (JStr gid) +:+ " has an invalid verdict"))
  end.

Definition decode_round_index (gid : string) (row : list (string * Json)) : result (option Z) :=
  let refusal := RecordError ("lineage.json: generation " +:+ py_repr (JStr gid)
                              +:+ " has an invalid round_index") in
  match get_none row "round_index" with
  | JNull => Ok None
  | JInt z => if (z <? 0)%Z then Raise refusal else Ok (Some z)
  | _ => Raise refusal
  end.

(** One row, after [ids] of its epoch. *)
Definition decode_generation (epoch_id : string) (ids : list string) (v : Json)
    : result LineageGeneration :=
  match v with
  | JObj row =>
      try gid <- _string row "id" true;
      ensure negb (bool_decide (gid ∈ ids))
        orelse RecordError ("lineage.json: epoch " +:+ py_repr (JStr epoch_id)
                            +:+ " contains duplicate generation ids");
      try verdict <- decode_promoted gid row;
      try birth <- decode_round_index gid row;
      try why <- if dict_mem row "rejection_reason"
                 then try s <- _string row "rejection_reason" false; Ok (Some s) else Ok None;
      try parent <- _parent row "parent_id";
      try at_time <- _string row "created_at" false;
      try ps <- _scalar row "parent_scalar";
      try cs <- _scalar row "child_scalar";
      try ds <- _scalar row "delta_scalar";
      try body <- detach_obj row;
      Ok {| lg_id := gid; lg_parent_id := parent; lg_promoted := verdict; lg_created_at := at_time;
            lg_round_index := birth; lg_rejection_reason := why; lg_parent_scalar := ps;
            lg_child_scalar := cs; lg_delta_scalar := ds; lg_json := body |}
  | _ => Raise (RecordError ("lineage.json: epoch " +:+ py_repr (JStr epoch_id)
                             +:+ " has a non-object generation"))
  end.

Fixpoint decode_generations (epoch_id : string) (ids : list string) (rows : list Json)
    : result (list LineageGeneration) :=
  match rows with
  | [] => Ok []
  | v :: rows =>
      try g <- decode_generation epoch_id ids v;
      try gs <- decode_generations epoch_id (ids ++ [lg_id g]) rows;
      Ok (g :: gs)
  end.

Definition decode_epoch (ids : list string) (v : Json) : result LineageEpoch :=
  let refusal := RecordError "lineage.json: each epoch requires a generations list" in
  match v with
  | JObj entry =>
      match get_none entry "generations" with
      | JArr rows =>
          try epoch_id <- _string entry "id" true;
          ensure negb (bool_decide (epoch_id ∈ ids))
            orelse RecordError ("lineage.json: duplicate epoch " +:+ py_repr (JStr epoch_id));
          try gs <- decode_generations epoch_id [] rows;
          try name <- _string entry "name" false;
          try started <- _string entry "started_at" false;
          try closed <- _string entry "closed_at" false;
          try parent <- _parent entry "v0_parent";
          try body <- detach_obj entry;
          Ok {| le_id := epoch_id; le_name := name; le_started_at := started;
                le_closed_at := closed; le_v0_parent := parent; le_generations := gs;
                le_json := body |}
      | _ => Raise refusal
      end
  | _ => Raise refusal
  end.

Fixpoint decode_epochs (ids : list string) (entries : list Json) : result (list LineageEpoch) :=
  match entries with
  | [] => Ok []
  | v :: entries =>
      try e <- decode_epoch ids v;
      try es <- decode_epochs (ids ++ [le_id e]) entries;
      Ok (e :: es)
  end.

Definition decode_lineage (v : Json) : result Lineage :=
  let refusal := RecordError "lineage.json: expected an object with an epochs list" in
  match v with
  | JObj d =>
      match get_none d "epochs" with
      | JArr entries =>
          try _ <- check_record_format d "lineage.json" RECORD_FORMAT_VERSION;
          try es <- decode_epochs [] entries;
          try body <- detach_obj d;
          Ok {| ln_epochs := es; ln_json := body; ln_exists := true |}
      | _ => Raise refusal
      end
  | _ => Raise refusal
  end.

(** ** The file *)

Definition empty_raw : list (string * Json) :=
  [("format_version", JInt RECORD_FORMAT_VERSION); ("epochs", JArr [])].

(** A [ValueError] of the parser or of a copy refuses the file; the others pass. *)
Definition lineage_refusal {A} (r : result A) : result A :=
  match r with
  | Raise (ValueError m) => Raise (RecordError ("lineage.json: " +:+ m))
  | _ => r
  end.

Definition _load_raw (ws : Workspace) : result (list (string * Json)) :=
  match ws_lineage ws with
  | None => Ok empty_raw
  | Some None => lineage_refusal (Raise (ValueError "not a JSON document"))
  | Some (Some v) => lineage_refusal (try l <- decode_lineage v; Ok (lineage_to_dict l))
  end.

(** The texts [json.dumps(..., sort_keys=True)] of two accepted epochs differ: the order of
    the keys does not matter, the type of a number does. *)
Fixpoint json_text_eq (a b : Json) {struct a} : bool :=
  match a, b with
  | JNull, JNull => true
  | JBool x, JBool y => Bool.eqb x y
  | JInt x, JInt y => (x =? y)%Z
  | JFloat x, JFloat y => feq x y && Bool.eqb (PrimFloat.get_sign x) (PrimFloat.get_sign y)
  | JStr s, JStr t => String.eqb s t
  | JArr l, JArr m =>
      (fix all (l m : list Json) :=
         match l, m with
         | [], [] => true
         | x :: l, y :: m => json_text_eq x y && all l m
         | _, _ => false
         end) l m
  | JObj d, JObj e =>
      Nat.eqb (length d) (length e)
      && forallb (fun kv => match dict_get e kv.1 with
                            | Some w => json_text_eq kv.2 w
                            | None => false
                            end) d
  | _, _ => false
  end.

Definition epoch_rows (l : Lineage) : list (string * Json) :=
  (fun e => (le_id e, JObj (epoch_to_dict e))) <$> ln_epochs l.

(** The epochs whose rows differ, sorted. *)
Definition changed_epochs (before after : list (string * Json)) : list string :=
  List.filter
    (fun epoch_id => negb (json_text_eq (get_none before epoch_id) (get_none after epoch_id)))
    (sorted_strings (list_union before.*1 after.*1)).

Definition put_lineage (v : Json) : Wop unit :=
  wop_write (fun ws => {|
    ws_lineage := Some (Some v); ws_experiments := ws_experiments ws; ws_patches := ws_patches ws;
    ws_tournaments := ws_tournaments ws; ws_rounds := ws_rounds ws;
    ws_revisions := ws_revisions ws; ws_hooks := ws_hooks ws |}).

(** [text] is what is written: the accepted document. *)
Definition _replace_lineage (l : Lineage) (text : Json) : Wop unit :=
  perform raw <- wop_read _load_raw;
  perform before <- wop_ret (decode_lineage (JObj raw));
  perform _ <- wop_each mark_epoch_changed (changed_epochs (epoch_rows before) (epoch_rows l));
  put_lineage text.

Definition write_lineage (l : Lineage) : Wop unit :=
  perform accepted <- wop_ret (decode_lineage (JObj (lineage_to_dict l)));
  _replace_lineage accepted (JObj (lineage_to_dict accepted)).

Definition initialize_lineage : Wop unit :=
  perform empty <- wop_ret (decode_lineage (JObj empty_raw));
  _replace_lineage empty (JObj (lineage_to_dict empty)).

Definition _save_raw (raw : list (string * Json)) : Wop unit :=
  perform l <- wop_ret (decode_lineage (JObj (dict_set raw "format_version" (JInt RECORD_FORMAT_VERSION))));
  write_lineage l.
End Lineage.

(** ** Mutators

    They edit the rows of the raw document in place: [set_epochs] and [set_generations]
    put the edited lists back where they were. *)

Definition arr (v : Json) : list Json := match v with JArr l => l | _ => [] end.
Definition obj (v : Json) : list (string * Json) := match v with JObj d => d | _ => [] end.

Definition raw_epochs (raw : list (string * Json)) : list Json := arr (get_none raw "epochs").
Definition set_epochs (raw : list (string * Json)) (entries : list Json) : list (string * Json) :=
  dict_set raw "epochs" (JArr entries).

(** [entry.get("id") == id] *)
Definition has_id (row_id : string) (v : Json) : bool :=
  match get_none (obj v) "id" with JStr s => String.eqb s row_id | _ => false end.

Definition _find_epoch (raw : list (string * Json)) (epoch_id : string) : option Json :=
  find_first (has_id epoch_id) (raw_epochs raw).

(** The first row with an id, edited in place. *)
Fixpoint edit_first (row_id : string) (edit : list (string * Json) -> list (string * Json))
    (rows : list Json) : list Json :=
  match rows with
  | [] => []
  | v :: rows =>
      if has_id row_id v then JObj (edit (obj v)) :: rows else v :: edit_first row_id edit rows
  end.

(** [Generation], as far as the lineage records it. *)
Record Generation := {
  gn_id : string;
  gn_promoted : bool;
  gn_created_at : string;
  gn_round_index : option Z;
}.

(** What a record of a generation states: its verdict, the reason and the two scalars. *)
Definition recorded_verdict (pending : bool) (g : Generation) : option bool :=
  if pending then None else Some (gn_promoted g).

Definition recorded_reason (verdict : option bool) (rejection_reason : string) : string :=
  match verdict with Some false => rejection_reason | _ => "" end.

Definition scalar_delta (child parent : option float) : option float :=
  c ← child; p ← parent; Some (fsub c p).

Definition set_if (key : string) (v : option Json) (d : list (string * Json)) : list (string * Json) :=
  match v with Some v => dict_set d key v | None => d end.

(** The update in place of a row that is there. *)
Definition upsert_row (g : Generation) (parent_id : option string) (verdict : option bool)
    (why : string) (parent_scalar child_scalar : option float) (row : list (string * Json))
    : list (string * Json) :=
  let row := dict_set row "parent_id" (jopt JStr parent_id) in
  let row := dict_set row "promoted" (jopt JBool verdict) in
  let row := dict_set row "created_at" (JStr (gn_created_at g)) in
  let row := dict_set row "round_index" (jopt JInt (gn_round_index g)) in
  let row := if negb (String.eqb why "") then dict_set row "rejection_reason" (JStr why)
             else match verdict with
                  | Some false => row
                  | _ => dict_set row "rejection_reason" (JStr "")
                  end in
  let row := dict_setdefault row "rejection_reason" (JStr "") in
  let row := set_if "parent_scalar" (JFloat <$> parent_scalar) row in
  let row := set_if "child_scalar" (JFloat <$> child_scalar) row in
  let row := set_if "delta_scalar" (JFloat <$> scalar_delta child_scalar parent_scalar) row in
  foldl (fun row key => dict_setdefault row key JNull) row
    ["parent_scalar"; "child_scalar"; "delta_scalar"].

Definition new_row (g : Generation) (parent_id : option string) (verdict : option bool)
    (why : string) (parent_scalar child_scalar : option float) : list (string * Json) :=
  [("id", JStr (gn_id g)); ("parent_id", jopt JStr parent_id); ("promoted", jopt JBool verdict);
   ("created_at", JStr (gn_created_at g)); ("round_index", jopt JInt (gn_round_index g));
   ("rejection_reason", JStr why); ("parent_scalar", jopt JFloat parent_scalar);
   ("child_scalar", jopt JFloat child_scalar);
   ("delta_scalar", jopt JFloat (scalar_delta child_scalar parent_scalar))].

(** The rows of an epoch with the generation recorded. *)
Definition record_generation (g : Generation) (parent_id : option string) (verdict : option bool)
    (why : string) (parent_scalar child_scalar : option float) (entry : list (string * Json))
    : list (string * Json) :=
  let rows := arr (get_none entry "generations") in
  dict_set entry "generations" (JArr
    (if existsb (has_id (gn_id g)) rows
     then edit_first (gn_id g) (upsert_row g parent_id verdict why parent_scalar child_scalar) rows
     else rows ++ [JObj (new_row g parent_id verdict why parent_scalar child_scalar)])).

Definition thin_epoch (epoch_id created_at : string) : list (string * Json) :=
  [("id", JStr epoch_id); ("name", JStr ""); ("started_at", JStr created_at);
   ("closed_at", JStr ""); ("v0_parent", JNull); ("generations", JArr [])].

Section Mutators.
Context `{PyRepr}.

(** [cfg] by its id, name and two dates. *)
Definition register_epoch (epoch_id name created_at closed_at : string)
    (parent_epoch_id : option string) : Wop unit :=
  perform raw <- wop_read _load_raw;
  match _find_epoch raw epoch_id with
  | Some _ => wop_ret (Ok tt)
  | None =>
      _save_raw (set_epochs raw (raw_epochs raw ++ [JObj
        [("id", JStr epoch_id); ("name", JStr name); ("started_at", JStr created_at);
         ("closed_at", JStr closed_at); ("v0_parent", jopt JStr parent_epoch_id);
         ("generations", JArr [])]]))
  end.

Definition mark_closed (epoch_id closed_at : string) : Wop unit :=
  perform raw <- wop_read _load_raw;
  match _find_epoch raw epoch_id with
  | None => wop_ret (Ok tt)
  | Some _ =>
      _save_raw (set_epochs raw
        (edit_first epoch_id (fun entry => dict_set entry "closed_at" (JStr closed_at))
           (raw_epochs raw)))
  end.

Definition append_to_lineage (epoch_id : string) (g : Generation) (parent_id : option string)
    (pending : bool) (rejection_reason : string) (parent_scalar child_scalar : option float)
    : Wop unit :=
  perform raw <- wop_read _load_raw;
  let verdict := recorded_verdict pending g in
  let record := record_generation g parent_id verdict (recorded_reason verdict rejection_reason)
                  parent_scalar child_scalar in
  _save_raw (set_epochs raw
    (match _find_epoch raw epoch_id with
     | Some _ => edit_first epoch_id record (raw_epochs raw)
     | None => raw_epochs raw ++ [JObj (record (thin_epoch epoch_id (gn_created_at g)))]
     end)).

(** The ids of [rows] that are among [ids], and the rows that are not. *)
Definition row_id (v : Json) : string :=
  match get_none (obj v) "id" with JStr s => s | _ => "" end.
Definition is_resolved (v : Json) : bool :=
  match get_none (obj v) "promoted" with JNull => false | _ => true end.
Definition named_row (ids : list string) (v : Json) : bool := bool_decide (row_id v ∈ ids).

Definition discard_pending_generations (epoch_id : string) (ids : list string)
    : Wop (list string) :=
  match ids with
  | [] => wop_ret (Ok [])
  | _ =>
      perform raw <- wop_read _load_raw;
      match _find_epoch raw epoch_id with
      | None => wop_ret (Ok [])
      | Some entry =>
          let rows := arr (get_none (obj entry) "generations") in
          match List.filter (fun v => named_row ids v && is_resolved v) rows with
          | (_ :: _) as resolved =>
              wop_ret (Raise (RuntimeError
                ("refusing to discard resolved lineage generations: "
                 +:+ py_join ", " (sorted_strings (row_id <$> resolved)))))
          | [] =>
              match row_id <$> List.filter (named_row ids) rows with
              | [] => wop_ret (Ok [])
              | removed =>
                  let kept := List.filter (fun v => negb (named_row ids v)) rows in
                  perform _ <- _save_raw (set_epochs raw
                    (edit_first epoch_id
                       (fun entry => dict_set entry "generations" (JArr kept)) (raw_epochs raw)));
                  wop_ret (Ok removed)
              end
          end
      end
  end.
End Mutators.
