(* ===== verification/Measurement.v ===== *)
(** Measurement draws: their order, their JSON form, and the files they are kept in,
    [src/zicato/core/measurement.py].

    A path of an artifact is [run_dir / seed directory / file name].  Directory
    listings are given to the definitions that read them. *)

From S2P Require Import Prelude PyFloat PyText PyJson CoreTypes Params.

(** ** Seeds *)

(** [_seed_from_qualifier] *)
Definition _seed_from_qualifier `{PyRepr} (value : string) : result (option Z) :=
  let invalid :=
    Raise (ValueError ("invalid measurement seed directory " +:+ py_repr (JStr value))) in
  if String.eqb value "seed-none" then Ok None
  else
    match str_after_prefix "seed-" value with
    | Some digits =>
        match py_int digits with
        | Some seed =>
            if String.eqb (seed_qualifier (Seed (Some seed))) value then Ok (Some seed) else invalid
        | None => invalid
        end
    | None => invalid
    end.

(** ** Order and JSON form *)

(** [__lt__]: the tuples (purpose, draw, seed qualifier). *)
Definition draw_lt (a b : MeasurementDraw) : bool :=
  let pa := purpose_token (purpose a) in
  let pb := purpose_token (purpose b) in
  if String.eqb pa pb
  then if draw a =? draw b
       then str_lt (seed_qualifier (Seed (base_seed a))) (seed_qualifier (Seed (base_seed b)))
       else draw a <? draw b
  else str_lt pa pb.

Definition purposes : list MeasurementPurpose :=
  [TOURNAMENT; CALIBRATION; PREFLIGHT; SCREEN; CONFIRMATION; REFLECTION; ADMISSION].

(** [MeasurementPurpose(token)]; [None] is its [ValueError]. *)
Definition purpose_of_token (token : string) : option MeasurementPurpose :=
  find_first (fun p => String.eqb (purpose_token p) token) purposes.

Definition draw_to_json (m : MeasurementDraw) : Json :=
  JObj [("purpose", JStr (purpose_token (purpose m))); ("draw", JInt (Z.of_nat (draw m)));
        ("base_seed", from_option JInt JNull (base_seed m))].

Definition draw_keys : list string := ["purpose"; "draw"; "base_seed"].

(** [MeasurementDraw.from_json]; a mapping lists each of its keys once. *)
Definition draw_from_json `{PyRepr} (value : Json) : result MeasurementDraw :=
  match value with
  | JObj d =>
      if forallb (fun k => dict_mem d k) draw_keys
         && forallb (fun k => bool_decide (k ∈ draw_keys)) (dict_keys d)
      then
        let raw_purpose := from_option id JNull (dict_get d "purpose") in
        match (match raw_purpose with JStr token => purpose_of_token token | _ => None end) with
        | None => Raise (ValueError (py_repr raw_purpose +:+ " is not a valid MeasurementPurpose"))
        | Some p =>
            match dict_get d "draw" with
            | Some (JInt n) =>
                match dict_get d "base_seed" with
                | Some (JInt seed) => make_draw p n (Some seed)
                | Some JNull => make_draw p n None
                | _ =>
                    try _ <- make_draw p n None;
                    Raise (ValueError "measurement base seed must be an integer or null")
                end
            | _ => Raise (ValueError "measurement draw must be a nonnegative integer")
            end
        end
      else Raise (ValueError "measurement requires purpose, draw, and base_seed")
  | _ => Raise (ValueError "measurement requires purpose, draw, and base_seed")
  end.

(** ** Artifacts *)

Definition extension (artifact : string) : string :=
  if String.eqb artifact "events" || String.eqb artifact "judge_io" then "jsonl" else "json".

Definition unit_artifact_name (artifact : string) (m : MeasurementDraw) : string :=
  artifact +:+ "." +:+ purpose_token (purpose m) +:+ ".r" +:+ pretty (draw m) +:+ "."
  +:+ extension artifact.

(** [[a-z_]] *)
Definition is_token_char (c : Ascii.ascii) : bool :=
  let n := Ascii.nat_of_ascii c in ((97 <=? n) && (n <=? 122)) || (n =? 95).

(** [artifact_measurement]: the two groups of the pattern, then their conversion. *)
Definition artifact_measurement (name artifact : string) : option MeasurementDraw :=
  rest ← str_after_prefix (artifact +:+ ".") name;
  let '(token, rest) := str_span is_token_char rest in
  rest ← str_after_prefix ".r" rest;
  let '(digits, rest) := str_span is_digit rest in
  if negb (String.eqb token "") && plain_number digits
     && String.eqb rest ("." +:+ extension artifact)
  then
    p ← purpose_of_token token;
    n ← int_digits false 0 digits;
    Some {| purpose := p; draw := N.to_nat n; base_seed := None |}
  else None.

(** A path as the code takes it apart: [path.parent.parent], [path.parent.name] and
    [path.name]. *)
Record ArtifactPath := {
  path_run_dir : string;
  path_seed_dir : string;
  path_name : string;
}.

Definition measurement_artifact_path (run_dir artifact : string) (m : MeasurementDraw)
    (seed : BaseSeed) : ArtifactPath := {|
  path_run_dir := run_dir;
  path_seed_dir :=
    seed_qualifier (match seed with UNKNOWN_SEED => Seed (base_seed m) | Seed _ => seed end);
  path_name := unit_artifact_name artifact m |}.

Definition recorded_artifact_measurement `{PyRepr} (run_dir : string) (path : ArtifactPath)
    (m : option MeasurementDraw) (artifact : string) : result MeasurementDraw :=
  match artifact_measurement (path_name path) artifact with
  | Some expected =>
      if String.eqb (path_run_dir path) run_dir then
        try seed <- _seed_from_qualifier (path_seed_dir path);
        let expected :=
          {| purpose := purpose expected; draw := draw expected; base_seed := seed |} in
        if bool_decide (m = Some expected) then Ok expected
        else Raise (ValueError "recorded measurement conflicts with its artifact path")
      else Raise (ValueError "artifact path does not identify a measurement in this entry")
  | None => Raise (ValueError "artifact path does not identify a measurement in this entry")
  end.

(** One entry of a run directory: its name, whether it is a directory and no
    symbolic link, and its own entries with whether each is a file. *)
Record SeedDir := {
  dir_name : string;
  dir_real : bool;
  dir_entries : list (string * bool);
}.

(** [iter_measurement_artifacts] over the listing of an existing run directory. *)
Definition iter_measurement_artifacts `{PyRepr} (run_dir : string) (listing : list SeedDir)
    (artifact : string) : list ArtifactPath :=
  py_sorted (fun a b => str_lt (dir_name a) (dir_name b)) listing ≫= (fun directory =>
    if dir_real directory && is_ok (_seed_from_qualifier (dir_name directory)) then
      (fun item => {| path_run_dir := run_dir; path_seed_dir := dir_name directory;
                      path_name := item.1 |})
      <$> List.filter
            (fun item => item.2 && bool_decide (is_Some (artifact_measurement item.1 artifact)))
            (py_sorted (fun a b => str_lt a.1 b.1) (dir_entries directory))
    else []).

(** * A measurement's file names it: the path of an artifact determines the purpose, the
    draw and the seed, a record is accepted exactly at its own path, and the JSON form
    of a draw is read back as the draw. *)

(** ** Seeds and purposes *)

Lemma seed_from_qualifier_ok `{PyRepr} value seed :
  _seed_from_qualifier value = Ok seed <-> value = seed_qualifier (Seed seed).
Proof.
  unfold _seed_from_qualifier. split.
  - destruct (String.eqb_spec value "seed-none") as [->|]; [by intros [= <-]|].
    destruct (str_after_prefix _ _); [|done]. destruct (py_int _); [|done].
    destruct (String.eqb_spec (seed_qualifier (Seed (Some z))) value) as [<-|]; [|done].
    by intros [= <-].
  - intros ->. destruct seed as [z|]; [|done]. unfold seed_qualifier.
    destruct (String.eqb_spec ("seed-" +:+ pretty z) "seed-none") as [E|].
    { apply (f_equal (str_after_prefix "seed-")) in E. rewrite str_after_prefix_app in E.
      injection E as E. pose proof (py_int_pretty z) as Hz. by rewrite E in Hz. }
    by rewrite str_after_prefix_app, py_int_pretty, String.eqb_refl.
Qed.

Lemma purpose_of_token_ok token p : purpose_of_token token = Some p <-> token = purpose_token p.
Proof.
  split.
  - intros [_ E%String.eqb_eq]%find_first_Some. done.
  - intros ->. by destruct p.
Qed.

Lemma purpose_token_span p rest :
  str_span is_token_char (purpose_token p +:+ ".r" +:+ rest) = (purpose_token p, ".r" +:+ rest).
Proof. apply str_span_app; [|done]. by destruct p. Qed.

(** ** Artifact names *)

(** An artifact's file name is exactly the text of its measurement: a name is
    read as a draw precisely when it is the name the program writes for that draw.
    So no two draws share a name, and no other file is mistaken for a measurement. *)
Theorem artifact_measurement_iff name artifact m :
  artifact_measurement name artifact = Some m
  <-> base_seed m = None /\ name = unit_artifact_name artifact m.
Proof.
  unfold artifact_measurement, unit_artifact_name. split.
  - intros (rest & ->%str_after_prefix_Some & Hm)%bind_Some.
    pose proof (str_span_spec is_token_char rest) as Hs.
    destruct (str_span is_token_char rest) as [token rest1]. destruct Hs as (-> & _ & _).
    apply bind_Some in Hm as (rest2 & ->%str_after_prefix_Some & Hm).
    pose proof (str_span_spec is_digit rest2) as Hs.
    destruct (str_span is_digit rest2) as [digits rest3]. destruct Hs as (-> & _ & _).
    destruct (negb _ && _ && _) eqn:Hc; [|done].
    rewrite !andb_true_iff, String.eqb_eq in Hc. destruct Hc as [[_ Hplain] ->].
    apply bind_Some in Hm as (p & ->%purpose_of_token_ok & Hm).
    apply plain_number_pretty in Hplain as (n & Hn & ->). rewrite Hn in Hm.
    injection Hm as <-. split; [done|]. cbn [purpose draw]. unfold pretty at 2, pretty_nat.
    by rewrite N2Nat.id, !str_app_assoc.
  - intros [Hseed ->]. change (pretty (draw m)) with (pretty (N.of_nat (draw m))).
    rewrite <-(str_app_assoc artifact), str_after_prefix_app.
    cbn [mbind option_bind]. rewrite purpose_token_span, str_after_prefix_app. cbn [mbind option_bind].
    rewrite str_span_app; [|apply pretty_N_digits|done].
    rewrite pretty_plain_number, String.eqb_refl.
    rewrite (proj2 (purpose_of_token_ok _ (purpose m))) by done.
    replace (String.eqb (purpose_token (purpose m)) "") with false by (by destruct (purpose m)).
    cbn [negb andb mbind option_bind]. rewrite int_digits_pretty.
    cbn. rewrite Nat2N.id. destruct m. cbn in *. by subst.
Qed.

(** A recorded measurement is accepted exactly at its own path: under the run
    directory of the entry, in the directory of its seed, under the name of its
    purpose and draw.  Anything else is refused. *)
Theorem recorded_artifact_measurement_iff `{PyRepr} run_dir path m artifact d :
  recorded_artifact_measurement run_dir path m artifact = Ok d
  <-> m = Some d /\ path = measurement_artifact_path run_dir artifact d UNKNOWN_SEED.
Proof.
  unfold recorded_artifact_measurement, measurement_artifact_path. split.
  - destruct (artifact_measurement _ _) as [e|] eqn:Ha; [|done].
    apply artifact_measurement_iff in Ha as [_ Hname].
    destruct (String.eqb_spec (path_run_dir path) run_dir) as [<-|]; [|done].
    intros (seed & Hseed%seed_from_qualifier_ok & Hm)%result_bind_ok.
    case_bool_decide as E; [|done]. injection Hm as <-. split; [done|].
    destruct path; cbn in *. by subst.
  - intros [-> ->]. cbn [path_name path_run_dir path_seed_dir].
    pose (e := {| purpose := purpose d; draw := draw d; base_seed := None |}).
    rewrite (proj2 (artifact_measurement_iff _ artifact e)) by done.
    rewrite String.eqb_refl, (proj2 (seed_from_qualifier_ok _ (base_seed d))) by done.
    cbn [result_bind purpose draw e]. rewrite bool_decide_eq_true_2; by destruct d.
Qed.

(** The enumeration of an entry's measurements yields exactly its artifacts: a
    path is yielded when some real directory of the entry is the directory of a seed
    and holds, as a file, the artifact of a draw with that seed. *)
Theorem iter_measurement_artifacts_exact `{PyRepr} run_dir listing artifact path :
  path ∈ iter_measurement_artifacts run_dir listing artifact
  <-> exists directory d, directory ∈ listing /\ dir_real directory = true
      /\ path = measurement_artifact_path run_dir artifact d UNKNOWN_SEED
      /\ dir_name directory = path_seed_dir path /\ (path_name path, true) ∈ dir_entries directory.
Proof.
  unfold iter_measurement_artifacts. rewrite list_elem_of_bind. split.
  - intros (dir & Hp & Hdir%elem_of_py_sorted). destruct (dir_real dir) eqn:Hr; [|set_solver].
    destruct (_seed_from_qualifier _) as [seed|] eqn:Hs; cbn [andb is_ok] in Hp; [|set_solver].
    apply seed_from_qualifier_ok in Hs.
    apply list_elem_of_fmap in Hp as ([name file] & -> & Hn).
    apply elem_of_filter_In in Hn as [Hn%elem_of_py_sorted [Hf Hm]%andb_true_iff]. cbn in *. subst file.
    apply bool_decide_eq_true in Hm as [e [_ ->]%artifact_measurement_iff].
    exists dir, {| purpose := purpose e; draw := draw e; base_seed := seed |}.
    split_and!; try done. unfold measurement_artifact_path. cbn. by rewrite Hs.
  - intros (dir & d & Hdir & Hr & -> & Hname & Hfile). exists dir. rewrite elem_of_py_sorted.
    split; [|done]. cbn in *. rewrite Hr, Hname.
    rewrite (proj2 (seed_from_qualifier_ok _ (base_seed d))) by done. cbn.
    apply list_elem_of_fmap. exists (unit_artifact_name artifact d, true). split; [done|].
    apply elem_of_filter_In. rewrite elem_of_py_sorted. split; [done|]. cbn.
    apply bool_decide_eq_true. exists {| purpose := purpose d; draw := draw d; base_seed := None |}.
    by apply artifact_measurement_iff.
Qed.

(** ** JSON *)

(** The members of a draw's JSON object. *)
Definition draw_members (m : MeasurementDraw) : list (string * Json) :=
  match draw_to_json m with JObj d => d | _ => [] end.

(** A JSON value is read as a draw exactly when it is an object with the same
    members as the draw's own JSON form, in any order: nothing is lost in writing a
    draw, and no malformed, incomplete or extended object is accepted. *)
Theorem draw_from_json_iff `{PyRepr} value m :
  draw_from_json value = Ok m
  <-> exists d, value = JObj d /\ forall k, dict_get d k = dict_get (draw_members m) k.
Proof.
  split.
  - destruct value as [| | | | | |d]; try done. cbn [draw_from_json].
    destruct (forallb _ _ && _) eqn:Hk; [|done]. apply andb_true_iff in Hk as [_ Hk].
    destruct (dict_get d "purpose") as [raw|] eqn:Hp; [|done]. cbn [from_option id].
    destruct raw as [| | | |token| |]; try done.
    destruct (purpose_of_token token) as [p|] eqn:Ht; [|done].
    apply purpose_of_token_ok in Ht as ->.
    destruct (dict_get d "draw") as [[| |n| | | |]|] eqn:Hd; try done.
    destruct (dict_get d "base_seed") as [raw|] eqn:Hb; [|by unfold make_draw; case_match].
    intros Hok. exists d. split; [done|]. intros k.
    assert (exists s, raw = from_option JInt JNull s
      /\ m = {| purpose := p; draw := Z.to_nat n; base_seed := s |} /\ (0 <= n)%Z) as (s & -> & -> & Hn).
    { unfold make_draw in Hok. destruct (Z.leb_spec 0 n); [|by destruct raw].
      destruct raw; try done; injection Hok as <-; [by exists None|by eexists (Some _)]. }
    unfold draw_members. cbn [draw_to_json purpose draw base_seed]. rewrite Z2Nat.id by done.
    destruct (decide (k ∈ draw_keys)) as [Hin|Hout].
    + unfold draw_keys in Hin. rewrite !elem_of_cons, elem_of_nil in Hin.
      destruct Hin as [->|[->|[->|[]]]]; [by rewrite Hp|by rewrite Hd|by rewrite Hb].
    + transitivity (@None Json).
      * apply dict_get_None. intros Hin. apply Hout.
        rewrite forallb_forall in Hk. apply list_elem_of_In in Hin. specialize (Hk k Hin).
        by apply bool_decide_eq_true in Hk.
      * symmetry. apply dict_get_None. done.
  - intros (d & -> & Hd). cbn [draw_from_json].
    assert (forall k, k ∈ draw_keys -> is_Some (dict_get d k)) as Hall.
    { intros k Hin. rewrite Hd. unfold draw_keys in Hin. rewrite !elem_of_cons, elem_of_nil in Hin.
      by destruct Hin as [->|[->|[->|[]]]]; eexists. }
    assert (forallb (fun k => dict_mem d k) draw_keys
            && forallb (fun k => bool_decide (k ∈ draw_keys)) (dict_keys d) = true) as ->.
    { rewrite andb_true_iff, !forallb_forall. split.
      - intros k Hin%list_elem_of_In. apply dict_mem_true. destruct (Hall k Hin) as [x Hx].
        apply dec_stable. intros Hn%dict_get_None. by rewrite Hn in Hx.
      - intros k Hin%list_elem_of_In. apply bool_decide_eq_true.
        destruct (decide (k ∈ draw_keys)) as [|Hout]; [done|].
        assert (dict_get d k = None) as Hn by (rewrite Hd; by apply dict_get_None).
        by apply dict_get_None in Hn. }
    rewrite !Hd. change (dict_get _ "purpose") with (Some (JStr (purpose_token (purpose m)))).
    change (dict_get _ "draw") with (Some (JInt (Z.of_nat (draw m)))).
    change (dict_get _ "base_seed") with (Some (from_option JInt JNull (base_seed m))).
    cbn [from_option id]. rewrite (proj2 (purpose_of_token_ok _ (purpose m))) by done.
    destruct m as [p n [s|]]; cbn; unfold make_draw;
      rewrite (proj2 (Z.leb_le 0 _)) by lia; by rewrite Nat2Z.id.
Qed.
