(* ===== verification/Loss.v ===== *)
(** What a run leaves for scoring, [src/zicato/core/loss.py]: the loss profile, the
    metrics scoring reads off it, and the checks on a recorded one. *)

From S2P Require Import Prelude PyFloat PyJson CoreTypes Board.

(** A named measurement; [mc_severity] is a severity or [""]. *)
Record MetricCount := {
  mc_name : string;
  mc_severity : string;
  mc_count : float;
}.

Record JudgeLoss := {
  jl_judge_name : string;
  raw_loss : float;
  jl_weight : float;
  weighted_loss : float;
}.

Record JudgeError := {
  je_judge_name : string;
  invocations : Z;
  errors : Z;
  last_error_type : string;
}.

Record ExpectationResult := {
  er_kind : ExpectationKind;
  passed : bool;
  detail : string;
  er_score : option float;
  er_metrics : option (list (string * float));
}.

Record LossProfile := {
  lp_run_id : string;
  lp_entry_id : string;
  lp_generation_id : string;
  lp_epoch_id : string;
  plan_revisions : Z;
  task_failure_ratio : float;
  runtime_ms : Z;
  wall_clock_budget_exceeded : bool;
  expectation_result : option ExpectationResult;
  drift_loss : float;
  pass_fail : option bool;
  turns_completed : option Z;
  memory_failure_count : option Z;
  context_loss_count : option Z;
  metric_counts : list MetricCount;
  tokens_spent : Z;
  output_chars : Z;
  schema_failures : Z;
  adk_session_id : string;
  lp_match_id : string;
  per_judge_loss : list JudgeLoss;
  judge_errors : list JudgeError;
  cached : bool;
  source_epoch : string;
  source_run : string;
  lp_score : option float;
  lp_metrics : option (list (string * float));
  scoring_provenance : option string;
  abort_cause : option string;
  not_completed : bool;
  not_completed_reason : option string;
  started_at : option string;
  ended_at : option string;
  execution_started : option bool;
  lp_measurement : option MeasurementDraw;
  source_measurements : list (option MeasurementDraw);
}.

(** The channels derived from the profile's own fields. *)
Definition derived_metrics (p : LossProfile) : list MetricCount :=
  ((fun jl => {| mc_name := "judge:" +:+ jl_judge_name jl; mc_severity := "";
                 mc_count := weighted_loss jl |}) <$> per_judge_loss p)
  ++ [{| mc_name := "failure:tasks"; mc_severity := ""; mc_count := task_failure_ratio p |};
      {| mc_name := "failure:not_completed"; mc_severity := "";
         mc_count := if not_completed p then f1 else f0 |};
      {| mc_name := "runtime:seconds"; mc_severity := "";
         mc_count := fdiv (float_of_Z (runtime_ms p)) 1000%float |}].

(** A measured entry of the same name takes precedence over a derived one. *)
Fixpoint add_derived (seen : list string) (derived : list MetricCount) : list MetricCount :=
  match derived with
  | [] => []
  | mc :: derived =>
      if bool_decide (mc_name mc ∈ seen) then add_derived seen derived
      else mc :: add_derived (mc_name mc :: seen) derived
  end.

Definition scoring_metrics (p : LossProfile) : list MetricCount :=
  metric_counts p ++ add_derived (mc_name <$> metric_counts p) (derived_metrics p).

Definition BUDGET_ABORT_CAUSE : string := "budget_exhausted".

Definition is_infra_abort_cause (cause : option string) : bool :=
  match cause with
  | None => false
  | Some c => negb (String.eqb c "") && negb (String.eqb c BUDGET_ABORT_CAUSE)
  end.

Definition nonempty (s : option string) : bool :=
  match s with None | Some "" => false | _ => true end.

Definition has_execution_evidence (p : LossProfile) : bool :=
  match execution_started p with
  | Some started => started
  | None =>
      if negb (bool_decide (abort_cause p = Some BUDGET_ABORT_CAUSE)) then true
      else nonempty (started_at p) || nonempty (ended_at p)
           || (0 <? runtime_ms p)%Z || (0 <? tokens_spent p)%Z
  end.

(** The recorded coordinates, then the run id of the requested draw, which
    [run_id_for_unit] computes. *)
Definition validate_loss_identity
    (run_id_for_unit : string -> string -> MeasurementDraw -> string -> string)
    (p : LossProfile) (epoch_id generation_id entry_id : string)
    (measurement : option MeasurementDraw) : result unit :=
  ensure bool_decide ((lp_epoch_id p, lp_generation_id p, lp_entry_id p)
                      = (epoch_id, generation_id, entry_id))
    orelse ValueError "recorded loss coordinates conflict with the requested cell";
  match measurement with
  | None => Ok tt
  | Some m =>
      ensure String.eqb (lp_run_id p) (run_id_for_unit generation_id entry_id m epoch_id)
        orelse ValueError "recorded loss runtime identity conflicts with the requested draw";
      Ok tt
  end.
