(* ===== verification/Scoring.v ===== *)
(** The two scoring seams, [src/zicato/scoring]: the declarative transforms
    ([transforms.py]), the built-in formulas ([builtins.py]), the plugin guard
    ([plugins.py]) and the dispatchers that compose them ([dispatch.py], on the contexts
    of [api.py]).  The operator's plugins, and the import that finds them, are handed in. *)

From S2P Require Import Prelude PyFloat PyText PyJson CoreTypes Gate Params Loss.

(** ** Transforms *)

Definition TransformSpecError (msg : string) : exn := ValueError msg.

(** The parameters of each registered op. *)
Definition _REQUIRED_PARAMS : list (string * list string) :=
  [("linear", []); ("pow", ["exponent"]); ("harmonic", []); ("cap", ["max"]);
   ("clip", ["lo"; "hi"]); ("log1p", [])].

Definition transform_op_names : list string := sorted_strings (dict_keys _REQUIRED_PARAMS).

(** The parameter [name] of [op] is there and finite. *)
Definition validate_param (spec : list (string * Json)) (op name : string) : result unit :=
  match dict_get spec name with
  | None => Raise (TransformSpecError ("transform op " +:+ op +:+ " requires param " +:+ name))
  | Some (JInt z) => if isfinite (float_of_Z z) then Ok tt else Raise OverflowError
  | Some (JFloat x) =>
      ensure isfinite x
        orelse TransformSpecError ("transform op " +:+ op +:+ " param " +:+ name +:+ " must be finite");
      Ok tt
  | Some _ =>
      Raise (TransformSpecError ("transform op " +:+ op +:+ " param " +:+ name
                                 +:+ " must be a finite number"))
  end.

(** A number as Python carries it, and its comparison by exact value. *)
Definition numeric_of (v : Json) : option Numeric :=
  match v with JInt z => Some (num_int z) | JFloat x => Some (num_float x) | _ => None end.

Definition num_lt (a b : Numeric) : bool :=
  match a, b with
  | num_int x, num_int y => (x <? y)%Z
  | num_float x, num_float y => flt x y
  | num_int x, num_float y => match Z_float_compare x y with Some Lt => true | _ => false end
  | num_float x, num_int y => match Z_float_compare y x with Some Gt => true | _ => false end
  end.

Definition num_float_of (a : Numeric) : result float :=
  match a with
  | num_float x => Ok x
  | num_int z => if isfinite (float_of_Z z) then Ok (float_of_Z z) else Raise OverflowError
  end.

Definition param_number (spec : list (string * Json)) (name : string) : result Numeric :=
  match dict_get spec name ≫= numeric_of with
  | Some n => Ok n
  | None => Raise (TypeError ("missing a required keyword-only argument: " +:+ name))
  end.

Definition validate_transform_spec (spec : Json) : result unit :=
  match spec with
  | JObj d =>
      match dict_get d "op" with
      | Some (JStr op) =>
          match dict_get _REQUIRED_PARAMS op with
          | None => Raise (TransformSpecError ("unknown transform op " +:+ op))
          | Some required =>
              ensure forallb (fun k => String.eqb k "op" || bool_decide (k ∈ required)) (dict_keys d)
                orelse TransformSpecError ("transform op " +:+ op +:+ " got unexpected param(s)");
              try _ <- result_map (validate_param d op) required;
              if String.eqb op "clip" then
                try lo <- (try n <- param_number d "lo"; num_float_of n);
                try hi <- (try n <- param_number d "hi"; num_float_of n);
                ensure negb (flt hi lo)
                  orelse TransformSpecError "transform op 'clip' requires lo <= hi";
                Ok tt
              else Ok tt
          end
      | _ => Raise (TransformSpecError "transform spec is missing a string 'op'")
      end
  | _ => Raise (TransformSpecError "transform spec must be a mapping")
  end.

(** [1 + 1/2 + ... + 1/n] *)
Definition harmonic_terms (n : Z) : list float :=
  (fun k => fdiv f1 (float_of_Z k)) <$> seqZ 1 n.

Definition _harmonic (value : float) : result float :=
  match float_trunc value with
  | None => if is_nan value then Raise (ValueError "cannot convert float NaN to integer")
            else Raise OverflowError
  | Some n => if (n <=? 0)%Z then Ok f0 else fsum (harmonic_terms n)
  end.

Section Transforms.
Context `{Libm} `{PyFormat}.

(** [math.log1p], which raises where the logarithm does not exist. *)
Definition _log1p (value : float) : result float :=
  if fle value (fneg f1) then Raise (ValueError "math domain error") else Ok (m_log1p value).

Definition apply_transform (spec : TransformSpec) (value : float) : result float :=
  match dict_get spec "op" with
  | None => Raise (KeyError "op")
  | Some (JStr "linear") => Ok value
  | Some (JStr "pow") =>
      try exponent <- (try n <- param_number spec "exponent"; num_float_of n);
      m_pow value exponent
  | Some (JStr "harmonic") => _harmonic value
  | Some (JStr "cap") =>
      try m <- param_number spec "max";
      num_float_of (if num_lt m (num_float value) then m else num_float value)
  | Some (JStr "clip") =>
      try lo <- param_number spec "lo";
      try hi <- param_number spec "hi";
      let v := if num_lt (num_float value) lo then lo else num_float value in
      num_float_of (if num_lt hi v then hi else v)
  | Some (JStr "log1p") => _log1p value
  | Some (JStr op) => Raise (KeyError op)
  | Some _ => Raise (KeyError "op")
  end.

Definition is_neutral (spec : option TransformSpec) : bool :=
  match spec with
  | None => true
  | Some d => match dict_get d "op" with Some (JStr op) => String.eqb op "linear" | _ => false end
  end.

(** ** Built-in formulas *)

(** [removeprefix("drift:")], [None] when the name is no drift metric. *)
Definition drift_kind (name : string) : option string := str_after_prefix "drift:" name.

Definition is_judge_attributed_kind (kind : string) : bool :=
  String.eqb kind "custom" || str_startswith "custom:" kind.

Definition _kind_multiplier (kind : string) (w : ScoringWeights) : float :=
  dict_get_or (per_kind_weights w) kind f1.

(** The drift metrics of a run that no judge authored, with their kinds. *)
Definition drift_counts (mcs : list MetricCount) : list (string * MetricCount) :=
  omap (fun mc =>
          match drift_kind (mc_name mc) with
          | Some kind => if is_judge_attributed_kind kind then None else Some (kind, mc)
          | None => None
          end) mcs.

(** [severity_weight * kind_weight * count] *)
Definition drift_term (w : ScoringWeights) (kind : string) (mc : MetricCount) (count : float) : float :=
  fmul (fmul (dict_get_or (severity_weights w) (mc_severity mc) f0) (_kind_multiplier kind w)) count.

Definition plan_term (w : ScoringWeights) (plan_revisions : Z) : float :=
  fmul (plan_revision_weight w) (float_of_Z plan_revisions).

Definition builtin_drift_loss (mcs : list MetricCount) (plan_revisions : Z) (w : ScoringWeights)
    : result float :=
  try total <- fsum (((fun item => drift_term w item.1 item.2 (mc_count item.2)) <$> drift_counts mcs)
                     ++ [plan_term w plan_revisions]);
  Ok (fmax f0 total).

Definition diff_complexity_component (w : ScoringWeights) (size : option DiffSize) : option float :=
  if fle (diff_complexity_weight w) f0 then None
  else match size with
       | None => None
       | Some _ => Some (fmul (diff_complexity_weight w) (diff_complexity size))
       end.

(** [s[:-1]] *)
Fixpoint drop_last (s : string) : string :=
  match s with
  | String c (String _ _ as t) => String c (drop_last t)
  | _ => ""
  end.

(** The namespace without its colon. *)
Definition component_name (ns : string) : string :=
  if str_endswith ":" ns then drop_last ns else ns.

(** The components dict: the miss, the namespaces in sorted order, the edit size last. *)
Definition scalar_components_of (mean_score : float) (namespace_aggregates : list (string * float))
    (w : ScoringWeights) (size : option DiffSize) : list (string * float) :=
  let components :=
    foldl (fun d ns => dict_set d (component_name ns) (dict_get_or namespace_aggregates ns f0))
      [("pass", fmul (pass_weight w) (fsub f1 mean_score))]
      (sorted_strings (dict_keys namespace_aggregates)) in
  match diff_complexity_component w size with
  | Some x => dict_set components "diff_complexity" x
  | None => components
  end.

Definition builtin_scalar (mean_score : float) (namespace_aggregates : list (string * float))
    (w : ScoringWeights) (size : option DiffSize) : result float :=
  fsum (scalar_components_of mean_score namespace_aggregates w size).*2.

(** ** Contexts and plugins *)

Record DriftContext := {
  dc_metric_counts : list MetricCount;
  dc_plan_revisions : Z;
  dc_task_failure_ratio : float;
  dc_runtime_ms : Z;
  dc_weights : ScoringWeights;
  builtin_loss : float;
}.

Record ScalarContext := {
  sc_pass_rate : float;
  sc_mean_score : float;
  sc_drift_loss_mean : float;
  sc_namespace_aggregates : list (string * float);
  sc_per_judge_loss : list (string * float);
  sc_weights : ScoringWeights;
  sc_builtin_scalar : float;
  sc_diff_size : option DiffSize;
}.

Definition PROVENANCE_BUILTIN : string := "builtin".

(** [type(exc).__name__] *)
Definition exn_class (e : exn) : string :=
  match e with
  | ValueError _ => "ValueError"
  | TypeError _ => "TypeError"
  | RecordError _ => "RecordError"
  | KeyError _ => "KeyError"
  | RuntimeError _ => "RuntimeError"
  | OverflowError => "OverflowError"
  | ZeroDivisionError => "ZeroDivisionError"
  | AssertionError => "AssertionError"
  | ConfigurationError _ _ _ => "ConfigurationError"
  | OtherException name => name
  end.

(** A plugin's return value as a finite float; [float] of an integer beyond the floats
    raises. *)
Definition _coerce_finite (v : Json) : result (option float) :=
  match v with
  | JInt z => if isfinite (float_of_Z z) then Ok (Some (float_of_Z z)) else Raise OverflowError
  | JFloat x => Ok (if isfinite x then Some x else None)
  | _ => Ok None
  end.

(** [resolve] is [import_dotted_path]: [None] where it raises [ValueError]. *)
Definition _invoke_plugin {Ctx} (resolve : string -> option (Ctx -> result Json)) (dotted : string)
    (ctx : Ctx) (fallback : float) (pre_token seam : string) : result (float * string) :=
  match resolve dotted with
  | None => Ok (fallback, pre_token +:+ " (fallback: unresolved)")
  | Some fn =>
      match fn ctx with
      | Raise e => Ok (fallback, pre_token +:+ " (fallback: raised " +:+ exn_class e +:+ ")")
      | Ok raw =>
          try value <- _coerce_finite raw;
          Ok (match value with
              | None => (fallback, pre_token +:+ " (fallback: non-finite return)")
              | Some value => (value, "plugin:" +:+ seam +:+ "=" +:+ dotted)
              end)
      end
  end.

Definition apply_drift_reducer resolve dotted (ctx : DriftContext) pre_value pre_token :=
  _invoke_plugin resolve dotted ctx pre_value pre_token "drift_reducer".

Definition apply_scalar_fn resolve dotted (ctx : ScalarContext) pre_value pre_token :=
  _invoke_plugin resolve dotted ctx pre_value pre_token "scalar_fn".

(** ** Dispatch *)

(** [f"{v}"] of a parameter, a number once the spec is validated. *)
Definition param_text (v : Json) : string :=
  match v with JInt z => pretty z | JFloat x => str_float x | _ => "?" end.

Definition _spec_provenance (spec : TransformSpec) : string :=
  let op := match dict_get spec "op" with Some (JStr op) => op | _ => "?" end in
  match List.filter (fun item => negb (String.eqb item.1 "op")) spec with
  | [] => op
  | params => op +:+ "(" +:+ py_join ", " ((fun item => param_text item.2) <$> params) +:+ ")"
  end.

(** The loop of [_drift_transform] over the drift metrics. *)
Definition transform_step (w : ScoringWeights) (active : list (string * TransformSpec))
    (acc : float * list (string * string)) (item : string * MetricCount)
    : result (float * list (string * string)) :=
  let '(loss, transformed) := acc in
  let '(kind, mc) := item in
  match dict_get active kind with
  | None => Ok (fadd loss (drift_term w kind mc (mc_count mc)), transformed)
  | Some spec =>
      try shaped <- apply_transform spec (mc_count mc);
      Ok (fadd loss (drift_term w kind mc shaped), dict_set transformed kind (_spec_provenance spec))
  end.

Definition item_lt (a b : string * string) : bool :=
  if String.eqb a.1 b.1 then str_lt a.2 b.2 else str_lt a.1 b.1.

Definition _drift_transform (ctx : DriftContext) : result (float * string) :=
  let w := dc_weights ctx in
  match List.filter (fun item => negb (is_neutral (Some item.2))) (drift_kind_aggregation w) with
  | [] => Ok (builtin_loss ctx, PROVENANCE_BUILTIN)
  | active =>
      try out <- result_foldl (transform_step w active) (f0, []) (drift_counts (dc_metric_counts ctx));
      let '(loss, transformed) := out in
      let loss := fmax f0 (fadd loss (plan_term w (dc_plan_revisions ctx))) in
      match transformed with
      | [] => Ok (loss, PROVENANCE_BUILTIN)
      | _ =>
          let body := (fun item => item.1 +:+ "=" +:+ item.2) <$> py_sorted item_lt transformed in
          Ok (loss, "transform:drift{" +:+ py_join ", " body +:+ "}")
      end
  end.

Definition resolve_drift_loss (resolve : string -> option (DriftContext -> result Json))
    (ctx : DriftContext) : result (float * string) :=
  try pre <- _drift_transform ctx;
  let '(pre_value, pre_token) := pre in
  match drift_reducer (dc_weights ctx) with
  | "" => Ok (pre_value, pre_token)
  | spec =>
      apply_drift_reducer resolve spec
        {| dc_metric_counts := dc_metric_counts ctx; dc_plan_revisions := dc_plan_revisions ctx;
           dc_task_failure_ratio := dc_task_failure_ratio ctx; dc_runtime_ms := dc_runtime_ms ctx;
           dc_weights := dc_weights ctx; builtin_loss := pre_value |} pre_value pre_token
  end.

Definition _scalar_transform (ctx : ScalarContext) : result (float * string) :=
  let w := sc_weights ctx in
  match pass_transform w with
  | None => Ok (sc_builtin_scalar ctx, PROVENANCE_BUILTIN)
  | Some spec =>
      if is_neutral (Some spec) then Ok (sc_builtin_scalar ctx, PROVENANCE_BUILTIN)
      else
        let miss := fsub f1 (sc_mean_score ctx) in
        try shaped <- apply_transform spec miss;
        Ok (fadd (fsub (sc_builtin_scalar ctx) (fmul (pass_weight w) miss)) (fmul (pass_weight w) shaped),
            "transform:pass=" +:+ _spec_provenance spec)
  end.

Definition resolve_scalar (resolve : string -> option (ScalarContext -> result Json))
    (ctx : ScalarContext) : result (float * string) :=
  try pre <- _scalar_transform ctx;
  let '(pre_value, pre_token) := pre in
  match scalar_fn (sc_weights ctx) with
  | "" => Ok (pre_value, pre_token)
  | spec =>
      apply_scalar_fn resolve spec
        {| sc_pass_rate := sc_pass_rate ctx; sc_mean_score := sc_mean_score ctx;
           sc_drift_loss_mean := sc_drift_loss_mean ctx;
           sc_namespace_aggregates := sc_namespace_aggregates ctx;
           sc_per_judge_loss := sc_per_judge_loss ctx; sc_weights := sc_weights ctx;
           sc_builtin_scalar := pre_value; sc_diff_size := sc_diff_size ctx |} pre_value pre_token
  end.
End Transforms.
