(* ===== verification/Aggregation.v ===== *)
(** Aggregation of the losses of a generation and the fold of its replicates,
    [src/zicato/tournament/scoring.py]. *)

From S2P Require Import Prelude PyFloat PyText PyJson CoreTypes Gate Measurement Loss Scoring.

(** ** One loss *)

Definition entry_score (p : LossProfile) : option float :=
  match lp_score p with
  | Some value =>
      Some (if negb (isfinite value) then f0
            else if flt value f0 then f0
            else if flt f1 value then f1
            else value)
  | None => (fun b : bool => if b then f1 else f0) <$> pass_fail p
  end.

Definition per_run_drift_loss (p : LossProfile) (w : ScoringWeights) : float := drift_loss p.

Definition not_colon (c : Ascii.ascii) : bool := negb (Ascii.eqb c (Ascii.ascii_of_nat 58)).

(** Everything up to the first colon, with it; [""] when there is none. *)
Definition _namespace_of (metric_name : string) : string :=
  match str_span not_colon metric_name with
  | (_, "") => ""
  | (before, _) => before +:+ ":"
  end.

Definition _within_channel_weight (metric_name : string) (w : ScoringWeights) : float :=
  if String.eqb metric_name "failure:tasks" then task_failure_weight w
  else if String.eqb metric_name "failure:not_completed" then not_completed_weight w
  else f1.

Definition _failure_channel_total (p : LossProfile) (w : ScoringWeights) : float :=
  let ratio := if feq (task_failure_ratio p) f0 then f0 else task_failure_ratio p in
  let total := fmul (task_failure_weight w) ratio in
  if not_completed p then fadd total (not_completed_weight w) else total.

(** ** Namespaces *)

(** [d.setdefault(key, []).append(value)] *)
Definition append_term {A} (d : list (string * list A)) (key : string) (value : A)
    : list (string * list A) := dict_set d key (dict_get_or d key [] ++ [value]).

(** The channel values of one loss, drift left out. *)
Definition per_loss_terms (p : LossProfile) (w : ScoringWeights) : list (string * list float) :=
  foldl (fun d mc =>
           let ns := _namespace_of (mc_name mc) in
           if String.eqb ns "" || String.eqb ns "drift:" then d
           else append_term d ns (fmul (mc_count mc) (_within_channel_weight (mc_name mc) w)))
    [] (scoring_metrics p).

(** [{ns: fsum(values)}] *)
Definition fsum_items (d : list (string * list float)) : result (list (string * float)) :=
  result_map (fun item => try total <- fsum item.2; Ok (item.1, total)) d.

Definition add_loss (w : ScoringWeights) (terms : list (string * list float)) (p : LossProfile)
    : result (list (string * list float)) :=
  try totals <- fsum_items (per_loss_terms p w);
  Ok (foldl (fun terms item => append_term terms item.1 item.2) terms totals).

Definition drift_mean (losses : list LossProfile) (w : ScoringWeights) : result float :=
  match losses with
  | [] => Ok f0
  | _ => try total <- fsum ((fun p => per_run_drift_loss p w) <$> losses);
         Ok (fdiv total (float_of_Z (Z.of_nat (length losses))))
  end.

(** The keys after ["drift:"] come from a set, whose order the language leaves open; here
    the observed ones come first.  The readers sort them or look them up. *)
Definition aggregate_namespaced_metrics (losses : list LossProfile) (w : ScoringWeights)
    : result (list (string * float)) :=
  try mean <- drift_mean losses w;
  let drift := ("drift:", fmul (dict_get_or (namespace_weights w) "drift:" f0) mean) in
  try terms <- result_foldl (add_loss w) [] losses;
  try sums <- fsum_items terms;
  let observed := list_union (dict_keys sums) (dict_keys (namespace_weights w)) in
  let value ns :=
    let mean := match losses with
                | [] => f0
                | _ => fdiv (dict_get_or sums ns f0) (float_of_Z (Z.of_nat (length losses)))
                end in
    fmul (dict_get_or (namespace_weights w) ns f0) mean in
  Ok (drift :: ((fun ns => (ns, value ns)) <$> List.filter (fun ns => negb (String.eqb ns "drift:")) observed)).

Definition _per_judge_loss_aggregate (losses : list LossProfile) : result (list (string * float)) :=
  let terms := foldl (fun d p => foldl (fun d jl => append_term d (jl_judge_name jl) (weighted_loss jl))
                                   d (per_judge_loss p)) [] losses in
  result_map (fun item =>
                try total <- fsum item.2;
                Ok (item.1, fdiv total (float_of_Z (Z.of_nat (length losses))))) terms.

(** ** The aggregate *)

(** The aggregate the gate reads, and the rest of the dict. *)
Record GenerationAggregate := {
  ga_aggregate : Aggregate;
  ga_drift_loss_mean : float;
  ga_expectation_count : nat;
  ga_entry_count : nat;
  ga_failures : list (string * float);
  ga_scalar_provenance : string;
  ga_base_seed : option (option Z);
}.

(** [execution_started is not False] *)
Definition executed (p : LossProfile) : bool := negb (bool_decide (execution_started p = Some false)).

Definition row_of (w : ScoringWeights) (p : LossProfile) : Row := {|
  row_drift_loss := Some (per_run_drift_loss p w); row_pass_fail := pass_fail p;
  row_score := entry_score p |}.

(** [{key(x): value(x) for x in l}] *)
Definition dict_of {A B} (key : A -> string) (value : A -> B) (l : list A) : list (string * B) :=
  foldl (fun d x => dict_set d (key x) (value x)) [] l.

(** [passed / total] of two counts. *)
Definition pass_rate_of (pass_count expectation_count : nat) : float :=
  match pass_count, expectation_count with
  | _, O => f1
  | O, _ => f0
  | S p, S n => int_truediv (Pos.of_succ_nat p) (Pos.of_succ_nat n)
  end.

Definition mean_score_of (scores : list float) : result float :=
  match scores with
  | [] => Ok f1
  | _ => try total <- fsum scores; Ok (fdiv total (float_of_Z (Z.of_nat (length scores))))
  end.

(** The draws behind a loss; [None] is a source without identity. *)
Definition source_draws (p : LossProfile) : list (option MeasurementDraw) :=
  match lp_measurement p with
  | Some m => [Some m]
  | None => match source_measurements p with [] => [None] | draws => draws end
  end.

(** The one seed all draws share, when every draw names its seed. *)
Definition shared_seed (losses : list LossProfile) : option (option Z) :=
  match remove_dups ((fun d : option MeasurementDraw => option_map base_seed d) <$> (losses ≫= source_draws) : list (option (option Z))) with
  | [Some seed] => Some seed
  | _ => None
  end.

Section Aggregation.
Context `{Libm} `{PyFormat} (scalar_plugin : string -> option (ScalarContext -> result Json)).

Definition aggregate_generation_score (losses : list LossProfile) (w : ScoringWeights)
    (size : option DiffSize) : result GenerationAggregate :=
  let incomplete :=
    sorted_strings (remove_dups (lp_entry_id <$> List.filter (fun p => negb (executed p)) losses)) in
  let losses := List.filter executed losses in
  let scores := omap entry_score losses in
  let votes := omap pass_fail losses in
  let entry_count := length losses in
  try drift_total <- fsum ((fun p => per_run_drift_loss p w) <$> losses);
  let drift_loss_mean :=
    match losses with
    | [] => f0
    | _ => fdiv drift_total (float_of_Z (Z.of_nat entry_count))
    end in
  let pass_rate := pass_rate_of (count id votes) (length votes) in
  try mean_score <- mean_score_of scores;
  try namespaces <- aggregate_namespaced_metrics losses w;
  let components := scalar_components_of mean_score namespaces w size in
  try judges <- _per_judge_loss_aggregate losses;
  try builtin <- builtin_scalar mean_score namespaces w size;
  try resolved <- resolve_scalar scalar_plugin
    {| sc_pass_rate := pass_rate; sc_mean_score := mean_score;
       sc_drift_loss_mean := drift_loss_mean; sc_namespace_aggregates := namespaces;
       sc_per_judge_loss := judges; sc_weights := w; sc_builtin_scalar := builtin;
       sc_diff_size := size |};
  let parsimony_active := bool_decide (is_Some (diff_complexity_component w size))
                          || flt f0 (diff_complexity_ceiling w) in
  Ok {| ga_aggregate := {|
          scalar := Some resolved.1; pass_rate := Some pass_rate; mean_score := Some mean_score;
          incomplete_entries := incomplete; per_entry := dict_of lp_entry_id (row_of w) losses;
          namespace_aggregates := Some namespaces; scalar_components := Some components;
          diff_size := if parsimony_active then size else None |};
        ga_drift_loss_mean := drift_loss_mean; ga_expectation_count := length votes;
        ga_entry_count := entry_count;
        ga_failures := dict_of lp_entry_id (fun p => _failure_channel_total p w) losses;
        ga_scalar_provenance := resolved.2; ga_base_seed := shared_seed losses |}.
End Aggregation.

(** ** Replicates *)

(** The mean of the values that are there. *)
Definition _mean_over_present (values : list (option float)) : result (option float) :=
  match omap id values with
  | [] => Ok None
  | present => try total <- fsum present;
               Ok (Some (fdiv total (float_of_Z (Z.of_nat (length present)))))
  end.

Definition _mean_outcome (profiles : list LossProfile) : result (option float) :=
  _mean_over_present (entry_score <$> profiles).

Definition metric_items (p : LossProfile) : list (string * float) := from_option id [] (lp_metrics p).

Definition _mean_metrics (profiles : list LossProfile) : result (option (list (string * float))) :=
  match first_seen (profiles ≫= (fun p => dict_keys (metric_items p))) with
  | [] => Ok None
  | keys =>
      try folded <- result_foldl (fun d key =>
        try mean <- _mean_over_present ((fun p => dict_get (metric_items p) key) <$> profiles);
        Ok (match mean with Some m => dict_set d key m | None => d end)) [] keys;
      Ok (Some folded)
  end.

(** A running total, term by term. *)
Definition running_total (terms : list float) : float := foldl fadd f0 terms.

(** The distinct elements in the order first seen. *)
Fixpoint distinct_from {A} `{EqDecision A} (seen l : list A) : list A :=
  match l with
  | [] => []
  | x :: l => if bool_decide (x ∈ seen) then distinct_from seen l else x :: distinct_from (x :: seen) l
  end.

Definition bucket (mc : MetricCount) : string * string := (mc_name mc, mc_severity mc).

Definition over_replicates (n : nat) (total : float) : float := fdiv total (float_of_Z (Z.of_nat n)).

Definition _mean_metric_counts (profiles : list LossProfile) : list MetricCount :=
  let counts := profiles ≫= metric_counts in
  (fun key =>
     {| mc_name := key.1; mc_severity := key.2;
        mc_count := over_replicates (length profiles)
          (running_total (mc_count <$> List.filter (fun mc => bool_decide (bucket mc = key)) counts)) |})
  <$> distinct_from [] (bucket <$> counts).

Definition _mean_per_judge_loss (profiles : list LossProfile) : list JudgeLoss :=
  let losses := profiles ≫= per_judge_loss in
  (fun name =>
     let own := List.filter (fun jl => String.eqb (jl_judge_name jl) name) losses in
     {| jl_judge_name := name;
        raw_loss := over_replicates (length profiles) (running_total (raw_loss <$> own));
        jl_weight := match own with jl :: _ => jl_weight jl | [] => f0 end;
        weighted_loss := over_replicates (length profiles) (running_total (weighted_loss <$> own)) |})
  <$> distinct_from [] (jl_judge_name <$> losses).

Definition _sum_judge_errors (profiles : list LossProfile) : list JudgeError :=
  let errs := profiles ≫= judge_errors in
  (fun name =>
     let own := List.filter (fun je => String.eqb (je_judge_name je) name) errs in
     {| je_judge_name := name; invocations := foldr Z.add 0%Z (invocations <$> own);
        errors := foldr Z.add 0%Z (errors <$> own);
        last_error_type :=
          foldl (fun last je => if String.eqb (last_error_type je) "" then last else last_error_type je)
            "" own |})
  <$> distinct_from [] (je_judge_name <$> errs).

(** [round(total / n)], half to even; [a / n] rounds once. *)
Definition Z_truediv (a : Z) (n : positive) : float :=
  match a with
  | Z0 => f0
  | Zpos a => int_truediv a n
  | Zneg a => fneg (int_truediv a n)
  end.

Definition round_half_even (x : float) : option Z :=
  '(v, e) ← float_parts x;
  Some (if (0 <=? e)%Z then (v * 2 ^ e)%Z
        else
          let d := (2 ^ (- e))%Z in
          let q := (v / d)%Z in
          match (2 * (v mod d) ?= d)%Z with
          | Lt => q
          | Gt => q + 1
          | Eq => if Z.even q then q else q + 1
          end)%Z.

Definition rounded_mean (values : list Z) (n : nat) : Z :=
  from_option id 0%Z (round_half_even (Z_truediv (foldr Z.add 0%Z values) (Pos.of_nat n))).

Definition majority (votes : list bool) : option bool :=
  match votes with [] => None | _ => Some (length votes <? count id votes * 2) end.

(** One entry's fold of its profiles, the first the representative. *)
Definition fold_profiles (first : LossProfile) (rest : list LossProfile) : result LossProfile :=
  let profiles := first :: rest in
  let n := length profiles in
  let mean xs := try total <- fsum xs; Ok (over_replicates n total) in
  try drift <- mean (drift_loss <$> profiles);
  try ratio <- mean (task_failure_ratio <$> profiles);
  try outcome <- _mean_outcome profiles;
  try metrics <- _mean_metrics profiles;
  Ok {| lp_run_id := lp_run_id first; lp_entry_id := lp_entry_id first;
        lp_generation_id := lp_generation_id first; lp_epoch_id := lp_epoch_id first;
        plan_revisions := plan_revisions first; task_failure_ratio := ratio;
        runtime_ms := rounded_mean (runtime_ms <$> profiles) n;
        wall_clock_budget_exceeded := wall_clock_budget_exceeded first;
        expectation_result := expectation_result first; drift_loss := drift;
        pass_fail := majority (omap pass_fail profiles);
        turns_completed := turns_completed first; memory_failure_count := memory_failure_count first;
        context_loss_count := context_loss_count first;
        metric_counts := _mean_metric_counts profiles;
        tokens_spent := rounded_mean (tokens_spent <$> profiles) n;
        output_chars := rounded_mean (output_chars <$> profiles) n;
        schema_failures := rounded_mean (schema_failures <$> profiles) n;
        adk_session_id := adk_session_id first; lp_match_id := lp_match_id first;
        per_judge_loss := _mean_per_judge_loss profiles; judge_errors := _sum_judge_errors profiles;
        cached := cached first; source_epoch := source_epoch first; source_run := source_run first;
        lp_score := outcome; lp_metrics := metrics; scoring_provenance := scoring_provenance first;
        abort_cause := abort_cause first; not_completed := existsb not_completed profiles;
        not_completed_reason := not_completed_reason first; started_at := started_at first;
        ended_at := ended_at first;
        execution_started :=
          if forallb executed profiles then execution_started first else Some false;
        lp_measurement := match rest with [] => lp_measurement first | _ => None end;
        source_measurements :=
          match rest with
          | [] => source_measurements first
          | _ => profiles ≫= source_draws
          end |}.

(** Per entry of the first map, over the maps that have it. *)
Definition average_replicate_losses (runs : list (list (string * LossProfile)))
    : result (list (string * LossProfile)) :=
  match runs with
  | [] => Ok []
  | first :: rest =>
      result_map (fun item =>
        try folded <- fold_profiles item.2 (omap (fun run => dict_get run item.1) rest);
        Ok (item.1, folded)) first
  end.

Definition fold_matchup_replicates
    (runs : list (list (string * LossProfile) * list (string * LossProfile)))
    : result (list (string * LossProfile) * list (string * LossProfile)) :=
  match runs with
  | [] => Ok ([], [])
  | [one] => Ok one
  | _ =>
      try lhs <- average_replicate_losses runs.*1;
      try rhs <- average_replicate_losses runs.*2;
      Ok (lhs, rhs)
  end.
