(* ===== verification/AggregationSpec.v ===== *)
(** Aggregation does not depend on the order of its losses, agrees with the binary pass
    rate on boolean boards, and lets no unstarted draw decide a duel. *)

From S2P Require Import Prelude PyFloat PyText PyJson CoreTypes Gate GateSpec Measurement Loss Scoring Aggregation.

(** ** Loops that may raise *)

Lemma result_map_perm {A B} (f : A -> result B) l l' ys :
  l ≡ₚ l' -> result_map f l = Ok ys -> exists ys', result_map f l' = Ok ys' /\ ys ≡ₚ ys'.
Proof.
  intros Hp. revert ys. induction Hp as [|x l l' _ IH|x y l|l1 l2 l3 _ IH1 _ IH2]; intros ys H.
  - by exists ys.
  - cbn in *. apply result_bind_ok in H as (a & Ha & H). apply result_bind_ok in H as (as' & Has & [= <-]).
    destruct (IH _ Has) as (ys' & Hys' & Hperm). rewrite Ha. cbn. rewrite Hys'. exists (a :: ys'). cbn. auto.
  - cbn in *. apply result_bind_ok in H as (b & Hb & H). apply result_bind_ok in H as (bs & Hbs & [= <-]).
    apply result_bind_ok in Hbs as (a & Ha & Hbs). apply result_bind_ok in Hbs as (as' & Has & [= <-]).
    rewrite Ha. cbn. rewrite Hb. cbn. rewrite Has. exists (a :: b :: as'). split; [done|constructor].
  - destruct (IH1 _ H) as (ys1 & H1 & Hp1), (IH2 _ H1) as (ys2 & H2 & Hp2).
    exists ys2. split; [done|by etrans].
Qed.

Lemma result_map_total {A B} (f : A -> result B) l :
  (forall x, x ∈ l -> is_ok (f x) = true) -> exists ys, result_map f l = Ok ys.
Proof.
  intros Hok. induction l as [|x l IH]; cbn; [by exists []|].
  pose proof (Hok x ltac:(by left)) as Hx. destruct (f x) as [y|]; [|done]. cbn.
  destruct IH as [ys ->]; [|by exists (y :: ys)]. intros z Hz. apply Hok. by right.
Qed.

(** ** Dictionaries of terms *)

Definition append_all {A} (d : list (string * list A)) (items : list (string * A)) :=
  foldl (fun d item => append_term d item.1 item.2) d items.

(** The values of one key, in order. *)
Definition values_at {A} (items : list (string * A)) (k : string) : list A :=
  (List.filter (fun item => String.eqb item.1 k) items).*2.

Lemma values_at_cons {A} k' (v : A) items k :
  values_at ((k', v) :: items) k
  = if String.eqb k' k then v :: values_at items k else values_at items k.
Proof. unfold values_at. cbn. by destruct (String.eqb k' k). Qed.

Lemma append_all_get {A} (d : list (string * list A)) items k :
  dict_get (append_all d items) k
  = match values_at items k with
    | [] => dict_get d k
    | vs => Some (dict_get_or d k [] ++ vs)
    end.
Proof.
  revert d. induction items as [|[k' v] items IH]; intros d; [done|].
  change (append_all d ((k', v) :: items)) with (append_all (append_term d k' v) items).
  rewrite IH, values_at_cons. unfold append_term, dict_get_or. rewrite dict_get_set.
  destruct (String.eqb_spec k' k) as [->|Hne].
  - rewrite decide_True by done. destruct (values_at items k) as [|x vs]; [done|]. cbn.
    by rewrite <-app_assoc.
  - by rewrite decide_False by done.
Qed.

Lemma append_all_keys {A} (d : list (string * list A)) items :
  (NoDup (dict_keys d) -> NoDup (dict_keys (append_all d items)))
  /\ forall k, k ∈ dict_keys (append_all d items) <-> k ∈ dict_keys d \/ k ∈ items.*1.
Proof.
  revert d. induction items as [|[k' v] items IH]; intros d; [cbn; set_solver|].
  destruct (IH (append_term d k' v)) as [H1 H2]. unfold append_all in *. cbn [foldl fst snd]. split.
  - intros Hd. apply H1, NoDup_dict_keys_set, Hd.
  - intros k. rewrite H2. unfold append_term. rewrite dict_keys_set. cbn. case_decide; set_solver.
Qed.

Lemma values_at_perm {A} (items items' : list (string * A)) k :
  items ≡ₚ items' -> values_at items k ≡ₚ values_at items' k.
Proof. intros Hp. unfold values_at. by apply fmap_Permutation, filter_perm. Qed.

(** The sums of a dict of terms. *)
Lemma fsum_items_spec d s :
  fsum_items d = Ok s ->
  dict_keys s = dict_keys d
  /\ forall k, dict_get s k = (dict_get d k ≫= (fun vs => match fsum vs with Ok x => Some x | Raise _ => None end)).
Proof.
  unfold fsum_items. revert s. induction d as [|[k' vs] d IH]; intros s; cbn.
  { by intros [= <-]. }
  intros (y & (x & Hx & [= <-])%result_bind_ok & H)%result_bind_ok.
  apply result_bind_ok in H as (s' & Hs' & [= <-]). destruct (IH _ Hs') as [Hk Hg]. cbn. split.
  - unfold dict_keys in *. cbn. by rewrite Hk.
  - intros k. case_decide; [|apply Hg]. cbn. by rewrite Hx.
Qed.

Lemma fsum_items_total d :
  (forall k vs, (k, vs) ∈ d -> is_ok (fsum vs) = true) -> exists s, fsum_items d = Ok s.
Proof.
  intros Hok. apply result_map_total. intros [k vs] Hin. cbn. pose proof (Hok k vs Hin).
  by destruct (fsum vs).
Qed.

(** Dicts of the same terms in another order have the same sums. *)
Record same_terms (d d' : list (string * list float)) : Prop := {
  st_nodup : NoDup (dict_keys d);
  st_nodup' : NoDup (dict_keys d');
  st_keys : forall k, k ∈ dict_keys d <-> k ∈ dict_keys d';
  st_terms : forall k vs vs', dict_get d k = Some vs -> dict_get d' k = Some vs' -> vs ≡ₚ vs';
}.

Lemma dict_get_keys {A} (d : list (string * A)) k : k ∈ dict_keys d <-> is_Some (dict_get d k).
Proof.
  destruct (dict_get d k) eqn:E; [|by rewrite dict_get_None in E; split; [|intros []]].
  split; [by eexists|]. intros _. apply dict_get_Some_elem in E. apply list_elem_of_fmap. by exists (k, a).
Qed.

Lemma same_terms_append items items' :
  items ≡ₚ items' -> same_terms (append_all [] items) (append_all [] items').
Proof.
  intros Hp. constructor.
  - apply append_all_keys. constructor.
  - apply append_all_keys. constructor.
  - intros k. rewrite !(proj2 (append_all_keys _ _)), Hp. done.
  - intros k vs vs'. rewrite !append_all_get. pose proof (values_at_perm _ _ k Hp) as Hv.
    destruct (values_at items k) as [|x xs]; [done|].
    destruct (values_at items' k) as [|x' xs']; [done|]. by intros [= <-] [= <-].
Qed.

Lemma fsum_items_same d d' s :
  same_terms d d' -> fsum_items d = Ok s ->
  exists s', fsum_items d' = Ok s'
    /\ (forall k, k ∈ dict_keys s <-> k ∈ dict_keys s') /\ forall k, dict_get s k = dict_get s' k.
Proof.
  intros [Hnd Hnd' Hk Ht] Hs. destruct (fsum_items_spec d s Hs) as [Hks Hgs].
  destruct (fsum_items_total d') as [s' Hs'].
  { intros k vs' Hin. pose proof (dict_elem_get d' k vs' Hnd' Hin) as Hg'.
    assert (k ∈ dict_keys d) as Hin' by (apply Hk, dict_get_keys; by eexists).
    pose proof Hin' as Hin2. rewrite <-Hks in Hin2.
    apply dict_get_keys in Hin' as [vs Hg]. apply dict_get_keys in Hin2 as [x Hx].
    rewrite Hgs, Hg in Hx. cbn in Hx. rewrite <-(fsum_perm _ _ (Ht k vs vs' Hg Hg')).
    by destruct (fsum vs). }
  destruct (fsum_items_spec d' s' Hs') as [Hks' Hgs']. exists s'. split_and!; [done| |].
  - intros k. by rewrite Hks, Hks'.
  - intros k. rewrite Hgs, Hgs'.
    destruct (dict_get d k) as [vs|] eqn:Eg, (dict_get d' k) as [vs'|] eqn:Eg'; try done; cbn.
    + by rewrite (fsum_perm _ _ (Ht k vs vs' Eg Eg')).
    + apply dict_get_None in Eg'. destruct Eg'. apply Hk, dict_get_keys. by eexists.
    + apply dict_get_None in Eg. destruct Eg. apply Hk, dict_get_keys. by eexists.
Qed.

(** ** Namespaces *)

Lemma add_loss_all w acc losses :
  result_foldl (add_loss w) acc losses
  = try totals <- result_map (fun p => fsum_items (per_loss_terms p w)) losses;
    Ok (append_all acc (concat totals)).
Proof.
  revert acc. induction losses as [|p losses IH]; intros acc; cbn; [done|].
  unfold add_loss at 1. destruct (fsum_items _) as [totals|]; [|done]. cbn [result_bind].
  rewrite IH. destruct (result_map _ losses) as [rest|]; [|done]. cbn.
  unfold append_all. by rewrite foldl_app.
Qed.

Lemma concat_perm {A} (l l' : list (list A)) : l ≡ₚ l' -> concat l ≡ₚ concat l'.
Proof.
  induction 1 as [|x l l' _ IH|x y l|l1 l2 l3 _ IH1 _ IH2]; cbn; [done|by rewrite IH| |by etrans].
  solve_Permutation.
Qed.

Lemma perm_match_nil {A B} (l l' : list A) (x y : B) :
  l ≡ₚ l' -> match l with [] => x | _ => y end = match l' with [] => x | _ => y end.
Proof.
  intros Hp. destruct l; [by apply Permutation_nil_l in Hp as <-|].
  destruct l'; [by apply Permutation_nil_r in Hp|done].
Qed.

Lemma drift_mean_perm losses losses' w :
  losses ≡ₚ losses' -> drift_mean losses w = drift_mean losses' w.
Proof.
  intros Hp. unfold drift_mean. rewrite (perm_match_nil _ _ _ _ Hp).
  rewrite (fsum_perm _ _ (fmap_Permutation _ _ _ Hp)). by rewrite (Permutation_length Hp).
Qed.

(** Two dicts a reader by key cannot tell apart. *)
Definition same_dict {A} (d d' : list (string * A)) : Prop :=
  dict_keys d ≡ₚ dict_keys d' /\ forall k, dict_get d k = dict_get d' k.

Lemma dict_get_map (ks : list string) (f : string -> float) k :
  dict_get ((fun k => (k, f k)) <$> ks) k = if decide (k ∈ ks) then Some (f k) else None.
Proof.
  induction ks as [|k' ks IH]; [done|]. rewrite fmap_cons. cbn [dict_get].
  destruct (decide (k' = k)) as [->|E].
  - rewrite (decide_True (P := k ∈ k :: ks)); [done|set_solver].
  - rewrite IH. destruct (decide (k ∈ ks)) as [Hin|Hin].
    + by rewrite decide_True by set_solver.
    + by rewrite decide_False by set_solver.
Qed.

Lemma same_dict_map (ks ks' : list string) (f : string -> float) :
  ks ≡ₚ ks' -> same_dict ((fun k => (k, f k)) <$> ks) ((fun k => (k, f k)) <$> ks').
Proof.
  intros Hp. split.
  - unfold dict_keys. rewrite <-!list_fmap_compose. by apply fmap_Permutation.
  - intros k. rewrite !dict_get_map.
    destruct (decide (k ∈ ks)) as [Hin|Hin], (decide (k ∈ ks')); try done; by rewrite Hp in Hin.
Qed.

Lemma namespaces_perm losses losses' w ns :
  losses ≡ₚ losses' -> aggregate_namespaced_metrics losses w = Ok ns ->
  exists ns', aggregate_namespaced_metrics losses' w = Ok ns' /\ same_dict ns ns'
    /\ NoDup (dict_keys ns).
Proof.
  intros Hp. unfold aggregate_namespaced_metrics. rewrite (drift_mean_perm _ _ w Hp), !add_loss_all.
  destruct (drift_mean losses' w) as [mean|]; [|done]. cbn [result_bind].
  intros H. apply result_bind_ok in H as (terms & Hterms & H).
  apply result_bind_ok in Hterms as (totals & Htot & [= <-]).
  destruct (result_map_perm _ _ _ _ Hp Htot) as (totals' & Htot' & Hpt). rewrite Htot'. cbn [result_bind].
  apply result_bind_ok in H as (sums & Hsums & H).
  destruct (fsum_items_same _ _ _ (same_terms_append _ _ (concat_perm _ _ Hpt)) Hsums)
    as (sums' & Hsums' & Hk & Hg). rewrite Hsums'. cbn [result_bind]. injection H as <-.
  set (observed := list_union (dict_keys sums) _). set (observed' := list_union (dict_keys sums') _).
  assert (observed ≡ₚ observed') as Hobs.
  { apply NoDup_Permutation; [apply NoDup_remove_dups..|]. intros k.
    unfold observed, observed', list_union. rewrite !elem_of_remove_dups, !elem_of_app. by rewrite Hk. }
  eexists. split; [reflexivity|].
  set (value := fun ns : string => fmul (dict_get_or (namespace_weights w) ns f0)
         (match losses with [] => f0 | _ => fdiv (dict_get_or sums ns f0) (float_of_Z (Z.of_nat (length losses))) end)).
  assert (forall k, fmul (dict_get_or (namespace_weights w) k f0)
         (match losses' with [] => f0 | _ => fdiv (dict_get_or sums' k f0) (float_of_Z (Z.of_nat (length losses'))) end)
         = value k) as Hvalue.
  { intros k. unfold value, dict_get_or. rewrite Hg, (Permutation_length Hp). f_equal.
    symmetry. apply (perm_match_nil _ _ _ _ Hp). }
  assert (same_dict (("drift:", fmul (dict_get_or (namespace_weights w) "drift:" f0) mean)
            :: ((fun k => (k, value k)) <$> List.filter (fun k => negb (String.eqb k "drift:")) observed))
          (("drift:", fmul (dict_get_or (namespace_weights w) "drift:" f0) mean)
            :: ((fun k => (k, value k)) <$> List.filter (fun k => negb (String.eqb k "drift:")) observed')))
    as [Hsk Hsg].
  { destruct (same_dict_map _ _ value (filter_perm (fun k => negb (String.eqb k "drift:")) _ _ Hobs)) as [H1 H2].
    split; [by apply Permutation_skip|]. intros k. cbn [dict_get]. by rewrite H2. }
  split.
  - split; [etrans; [exact Hsk|]; unfold dict_keys; cbn; by rewrite <-!list_fmap_compose|].
    intros k. etrans; [exact (Hsg k)|]. cbn [dict_get]. case_decide; [done|]. f_equal.
    apply list_fmap_ext. intros _ k' _. by rewrite Hvalue.
  - unfold dict_keys. cbn. rewrite <-list_fmap_compose. constructor.
    + rewrite list_fmap_id. rewrite elem_of_filter_In, String.eqb_refl. by intros [_ ?].
    + rewrite list_fmap_id. eapply sublist_NoDup; [apply NoDup_remove_dups|apply list_filter_sublist].
Qed.

Lemma scalar_components_same mean ns ns' w size :
  same_dict ns ns' -> scalar_components_of mean ns w size = scalar_components_of mean ns' w size.
Proof.
  intros [Hk Hg]. unfold scalar_components_of.
  assert (sorted_strings (dict_keys ns) = sorted_strings (dict_keys ns')) as ->.
  { apply (py_sorted_perm_eq str_lt (fun _ => True)); [apply str_lt_total|by apply Forall_true|done]. }
  assert (forall l d, foldl (fun d n => dict_set d (component_name n) (dict_get_or ns n f0)) d l
                      = foldl (fun d n => dict_set d (component_name n) (dict_get_or ns' n f0)) d l) as ->.
  { induction l as [|n l IH]; intros d; [done|]. cbn. unfold dict_get_or at 2 4. by rewrite Hg, IH. }
  done.
Qed.

(** ** The order of the losses *)

Lemma omap_perm {A B} (f : A -> option B) l l' : l ≡ₚ l' -> omap f l ≡ₚ omap f l'.
Proof. intros Hp. by rewrite Hp. Qed.

Lemma mean_score_perm scores scores' : scores ≡ₚ scores' -> mean_score_of scores = mean_score_of scores'.
Proof.
  intros Hp. unfold mean_score_of. rewrite (fsum_perm _ _ Hp), (Permutation_length Hp).
  apply (perm_match_nil _ _ _ _ Hp).
Qed.

Lemma pass_rate_perm votes votes' :
  votes ≡ₚ votes' -> pass_rate_of (count id votes) (length votes) = pass_rate_of (count id votes') (length votes').
Proof.
  intros Hp. unfold count. by rewrite (Permutation_length (filter_perm id _ _ Hp)), (Permutation_length Hp).
Qed.

Lemma shared_seed_perm losses losses' : losses ≡ₚ losses' -> shared_seed losses = shared_seed losses'.
Proof.
  intros Hp. unfold shared_seed.
  set (seeds := fun l : list LossProfile => (option_map base_seed <$> (l ≫= source_draws) : list (option (option Z)))).
  change (match remove_dups (seeds losses) with [Some s] => Some s | _ => None end
          = match remove_dups (seeds losses') with [Some s] => Some s | _ => None end).
  assert (remove_dups (seeds losses) ≡ₚ remove_dups (seeds losses')) as Hs.
  { apply NoDup_Permutation; [apply NoDup_remove_dups..|]. intros x. rewrite !elem_of_remove_dups.
    unfold seeds. by rewrite Hp. }
  destruct (remove_dups (seeds losses)) as [|x [|y l]].
  - by apply Permutation_nil_l in Hs as <-.
  - by apply Permutation_singleton_l in Hs as <-.
  - destruct (remove_dups (seeds losses')) as [|x' [|y' l']]; [by apply Permutation_nil_r in Hs| |].
    + by apply Permutation_length in Hs.
    + by destruct x, x'.
Qed.

Lemma dict_of_NoDup {A B} (key : A -> string) (value : A -> B) l :
  NoDup (key <$> l) -> dict_of key value l = (fun x => (key x, value x)) <$> l.
Proof.
  intros Hnd. unfold dict_of.
  assert (forall d, NoDup (dict_keys d ++ (key <$> l)) ->
            foldl (fun d x => dict_set d (key x) (value x)) d l = d ++ ((fun x => (key x, value x)) <$> l)) as Hgen;
    [|by apply Hgen].
  clear Hnd. induction l as [|x l IH]; intros d Hnd; cbn; [by rewrite app_nil_r|].
  assert (key x ∉ dict_keys d) as Hx.
  { apply NoDup_app in Hnd as (_ & Hd & _). intros Hin. apply (Hd _ Hin). set_solver. }
  rewrite dict_set_fresh, IH, <-app_assoc; [done| |done]. unfold dict_keys. rewrite fmap_app.
  cbn in *. by rewrite <-app_assoc.
Qed.

Lemma judges_total losses losses' js :
  losses ≡ₚ losses' -> _per_judge_loss_aggregate losses = Ok js ->
  exists js', _per_judge_loss_aggregate losses' = Ok js'.
Proof.
  intros Hp Hjs. unfold _per_judge_loss_aggregate in *.
  assert (forall l : list LossProfile,
    foldl (fun d p => foldl (fun d jl => append_term d (jl_judge_name jl) (weighted_loss jl)) d (per_judge_loss p)) [] l
    = append_all [] (l ≫= (fun p => (fun jl => (jl_judge_name jl, weighted_loss jl)) <$> per_judge_loss p))) as Hall.
  { intros l. unfold append_all. generalize (@nil (string * list float)).
    induction l as [|p l IH]; intros d; [done|]. cbn. rewrite foldl_app, IH. f_equal.
    clear IH. generalize d. induction (per_judge_loss p) as [|jl js' IHj]; intros d'; [done|]. cbn. by rewrite IHj. }
  rewrite Hall in *.
  set (items := fun l : list LossProfile => l ≫= (fun p => (fun jl => (jl_judge_name jl, weighted_loss jl)) <$> per_judge_loss p)) in *.
  assert (items losses ≡ₚ items losses') as Hitems by (unfold items; by rewrite Hp).
  destruct (same_terms_append _ _ Hitems) as [_ Hnd' Hk Ht]. clear Hall.
  apply result_map_total. intros [k vs'] Hin.
  pose proof (dict_elem_get _ k vs' Hnd' Hin) as Hg'.
  assert (k ∈ dict_keys (append_all [] (items losses))) as Hin' by (apply Hk, dict_get_keys; by eexists).
  apply dict_get_keys in Hin' as [vs Hg].
  cbn. rewrite <-(fsum_perm _ _ (Ht k vs vs' Hg Hg')).
  apply result_map_ok in Hjs. apply dict_get_Some_elem in Hg.
  apply list_elem_of_lookup in Hg as [i Hi].
  destruct (Forall2_lookup_l _ _ _ _ _ Hjs Hi) as (y & _ & Hy). cbn in Hy. by destruct (fsum vs).
Qed.

(** What two aggregates of the same losses agree on. *)
Record same_aggregate (a b : GenerationAggregate) : Prop := {
  sa_scalar : scalar (ga_aggregate a) = scalar (ga_aggregate b);
  sa_pass_rate : pass_rate (ga_aggregate a) = pass_rate (ga_aggregate b);
  sa_mean_score : mean_score (ga_aggregate a) = mean_score (ga_aggregate b);
  sa_incomplete : incomplete_entries (ga_aggregate a) = incomplete_entries (ga_aggregate b);
  sa_entries : per_entry (ga_aggregate a) ≡ₚ per_entry (ga_aggregate b);
  sa_namespaces : forall d d', namespace_aggregates (ga_aggregate a) = Some d ->
                    namespace_aggregates (ga_aggregate b) = Some d' -> same_dict d d';
  sa_components : scalar_components (ga_aggregate a) = scalar_components (ga_aggregate b);
  sa_diff_size : diff_size (ga_aggregate a) = diff_size (ga_aggregate b);
  sa_drift : ga_drift_loss_mean a = ga_drift_loss_mean b;
  sa_counts : (ga_expectation_count a, ga_entry_count a) = (ga_expectation_count b, ga_entry_count b);
  sa_provenance : ga_scalar_provenance a = ga_scalar_provenance b;
  sa_seed : ga_base_seed a = ga_base_seed b;
}.

Section Order.
Context `{Libm} `{PyFormat} (scalar_plugin : string -> option (ScalarContext -> result Json)).

(** With no scalar plugin the resolved scalar reads three things of its context. *)
Lemma resolve_scalar_ext c c' :
  sc_weights c = sc_weights c' -> scalar_fn (sc_weights c') = "" ->
  sc_builtin_scalar c = sc_builtin_scalar c' -> sc_mean_score c = sc_mean_score c' ->
  resolve_scalar scalar_plugin c = resolve_scalar scalar_plugin c'.
Proof. intros Hw Hfn Hb Hm. unfold resolve_scalar, _scalar_transform. by rewrite Hw, Hb, Hm, Hfn. Qed.

(** An aggregate is a function of its losses, not of the order they arrive in: with
    one loss per entry and no scalar plugin, the losses in another order aggregate to the
    same scalar and components, bit for bit, the same rates, counts and seed, the same
    rows, and the same value for every namespace. *)
Theorem aggregate_order losses losses' w size a :
  losses ≡ₚ losses' -> NoDup (lp_entry_id <$> losses) -> scalar_fn w = "" ->
  aggregate_generation_score scalar_plugin losses w size = Ok a ->
  exists b, aggregate_generation_score scalar_plugin losses' w size = Ok b /\ same_aggregate a b.
Proof.
  intros Hp Hnd Hfn. unfold aggregate_generation_score.
  assert (sorted_strings (remove_dups (lp_entry_id <$> List.filter (fun p => negb (executed p)) losses))
          = sorted_strings (remove_dups (lp_entry_id <$> List.filter (fun p => negb (executed p)) losses')))
    as Hinc.
  { apply (py_sorted_perm_eq str_lt (fun _ => True)); [apply str_lt_total|by apply Forall_true|].
    apply NoDup_Permutation; [apply NoDup_remove_dups..|]. intros x. rewrite !elem_of_remove_dups.
    by rewrite (filter_perm (fun p => negb (executed p)) _ _ Hp). }
  pose proof (filter_perm executed _ _ Hp) as Hex.
  assert (NoDup (lp_entry_id <$> List.filter executed losses)) as Hnd1
    by (eapply sublist_NoDup; [exact Hnd|apply fmap_sublist, list_filter_sublist]).
  assert (NoDup (lp_entry_id <$> List.filter executed losses')) as Hnd2 by (by rewrite <-Hex).
  clear Hp Hnd. cbn zeta. set (l := List.filter executed losses) in *. set (l' := List.filter executed losses') in *.
  rewrite <-Hinc, <-(fsum_perm _ _ (fmap_Permutation (fun p => per_run_drift_loss p w) _ _ Hex)),
    <-(mean_score_perm _ _ (omap_perm entry_score _ _ Hex)),
    <-(pass_rate_perm _ _ (omap_perm pass_fail _ _ Hex)), <-(shared_seed_perm _ _ Hex),
    <-(Permutation_length Hex), <-(Permutation_length (omap_perm pass_fail _ _ Hex)).
  intros (total & -> & H1)%result_bind_ok. cbn [result_bind] in *.
  rewrite <-(perm_match_nil l l' _ _ Hex).
  apply result_bind_ok in H1 as (mean & -> & H1). cbn [result_bind].
  apply result_bind_ok in H1 as (ns & Hns & H1).
  destruct (namespaces_perm _ _ _ _ Hex Hns) as (ns' & -> & Hsame & _). cbn [result_bind].
  apply result_bind_ok in H1 as (js & Hjs & H1). destruct (judges_total _ _ _ Hex Hjs) as [js' ->].
  cbn [result_bind]. unfold builtin_scalar in *. rewrite <-(scalar_components_same mean _ _ w size Hsame).
  apply result_bind_ok in H1 as (builtin & -> & H1). cbn [result_bind].
  apply result_bind_ok in H1 as (resolved & Hres & [= <-]).
  erewrite resolve_scalar_ext in Hres; [rewrite Hres; cbn [result_bind]|done..].
  eexists. split; [done|]. constructor; cbn; try done.
  - rewrite !dict_of_NoDup by done. by apply fmap_Permutation.
  - by intros d d' [= <-] [= <-].
Qed.
End Order.

(** ** Boolean boards *)

Definition bool_score (b : bool) : float := if b then f1 else f0.

Lemma bool_scores (losses : list LossProfile) :
  (forall p, p ∈ losses -> lp_score p = None) ->
  omap entry_score losses = bool_score <$> omap pass_fail losses.
Proof.
  intros Hb. induction losses as [|p losses IH]; [done|]. cbn.
  rewrite IH by set_solver. unfold entry_score. rewrite Hb by set_solver. by destruct (pass_fail p).
Qed.

(** The sum of a list of bits is their count, rounded. *)
Lemma fsum_bools (votes : list bool) :
  fsum (bool_score <$> votes)
  = let total := round_sum (Z.of_nat (count id votes) * 2 ^ 1074) in
    if isfinite total then Ok total else Raise OverflowError.
Proof.
  unfold fsum.
  assert (forall q, q f1 = false -> q f0 = false -> existsb q (bool_score <$> votes) = false) as Hnone.
  { intros q H1 H0. induction votes as [|v votes IH]; [done|]. cbn. rewrite IH.
    by destruct v; cbn; rewrite ?H1, ?H0. }
  rewrite !Hnone by reflexivity. cbn [andb].
  assert (exact_sum (bool_score <$> votes) = (Z.of_nat (count id votes) * 2 ^ 1074)%Z) as ->; [|done].
  clear Hnone. unfold exact_sum, count. induction votes as [|v votes IH]; [done|].
  cbn [fmap list_fmap foldr List.filter]. cbn [fmap list_fmap] in IH. rewrite IH.
  assert (fsum_unit f1 = (2 ^ 1074)%Z) as E1 by (vm_compute; reflexivity).
  assert (fsum_unit f0 = 0%Z) as E0 by (vm_compute; reflexivity).
  destruct v; cbn [bool_score id length]; rewrite ?E1, ?E0, ?Nat2Z.inj_succ; lia.
Qed.

(** The two quotients of one count by every count of votes, compared by evaluation. *)
Definition quotients_agree (bound p : nat) : bool :=
  let total := round_sum (Z.of_nat p * 2 ^ 1074) in
  isfinite total
  && forallb (fun n => PrimFloat.Leibniz.eqb (fdiv total (float_of_Z (Z.of_nat n))) (pass_rate_of p n))
       (seq 1 bound).

Definition vote_bound : nat := 64.

Lemma quotients_checked : forallb (quotients_agree vote_bound) (seq 0 (S vote_bound)) = true.
Proof. vm_compute. reflexivity. Qed.

(** On a boolean board the continuous outcome is the pass rate: when no executed loss
    carries a score, and at most 64 of them carry a verdict, the mean score is the binary
    pass rate, bit for bit. *)
Theorem boolean_board_mean (losses : list LossProfile) :
  (forall p, p ∈ losses -> lp_score p = None) -> length (omap pass_fail losses) <= vote_bound ->
  mean_score_of (omap entry_score losses)
  = Ok (pass_rate_of (count id (omap pass_fail losses)) (length (omap pass_fail losses))).
Proof.
  intros Hb Hlen. rewrite bool_scores by done. set (votes := omap pass_fail losses) in *.
  destruct votes as [|v votes'] eqn:Ev; [done|]. rewrite <-Ev in *.
  assert (count id votes <= length votes) as Hc.
  { unfold count. apply sublist_length, list_filter_sublist. }
  pose proof quotients_checked as Hq. rewrite forallb_forall in Hq.
  assert (In (length votes) (seq 1 vote_bound)) as Hn.
  { apply in_seq. rewrite Ev. cbn [length]. rewrite Ev in Hlen. cbn [length] in Hlen. lia. }
  specialize (Hq (count id votes)). unfold quotients_agree in Hq.
  rewrite andb_true_iff, forallb_forall in Hq. destruct Hq as [Hfin Heq]; [apply in_seq; lia|].
  specialize (Heq _ Hn). rewrite FloatAxioms.Leibniz.eqb_spec in Heq.
  unfold mean_score_of. rewrite fsum_bools, length_fmap. cbn zeta. rewrite Hfin. cbn [result_bind].
  rewrite Heq. by rewrite Ev.
Qed.

(** ** Unstarted draws *)

Lemma incomplete_entry `{Libm} `{PyFormat} plugin losses w size ga p :
  aggregate_generation_score plugin losses w size = Ok ga -> p ∈ losses -> executed p = false ->
  incomplete_entries (ga_aggregate ga) <> [].
Proof.
  unfold aggregate_generation_score. intros H1 Hp Hex.
  apply result_bind_ok in H1 as (total & _ & H1). apply result_bind_ok in H1 as (mean & _ & H1).
  apply result_bind_ok in H1 as (ns & _ & H1). apply result_bind_ok in H1 as (js & _ & H1).
  apply result_bind_ok in H1 as (builtin & _ & H1). apply result_bind_ok in H1 as (resolved & _ & [= <-]).
  cbn. intros Hnil%py_sorted_nil. apply (elem_of_nil (lp_entry_id p)). rewrite <-Hnil.
  apply elem_of_remove_dups, list_elem_of_fmap_2, elem_of_filter_In. by rewrite Hex.
Qed.

(** An incomplete aggregate never decides. *)
Lemma gate_defers_incomplete `{PyFormat} parent child w hp hc o :
  incomplete_entries child <> [] -> evaluate_gate parent child w hp hc = Ok o -> decision o = DEFERRED.
Proof.
  intros Hinc ->%evaluate_gate_spec_aux. unfold gate_spec, all_complete.
  assert (complete child = false) as -> by (unfold complete; by destruct (incomplete_entries child)).
  by rewrite andb_false_r.
Qed.

Lemma fold_profiles_executed first rest p :
  fold_profiles first rest = Ok p -> forallb executed (first :: rest) = false -> executed p = false.
Proof.
  unfold fold_profiles. intros H1 Hex. apply result_bind_ok in H1 as (d & _ & H1).
  apply result_bind_ok in H1 as (t & _ & H1). apply result_bind_ok in H1 as (o & _ & H1).
  apply result_bind_ok in H1 as (m & _ & [= <-]).
  cbn [forallb] in Hex. by rewrite Hex.
Qed.

Lemma average_unstarted runs folded run entry p :
  average_replicate_losses runs = Ok folded -> run ∈ runs -> dict_get run entry = Some p ->
  executed p = false -> (forall first rest, runs = first :: rest -> entry ∈ dict_keys first) ->
  (forall first rest, runs = first :: rest -> NoDup (dict_keys first)) ->
  exists q, q ∈ folded.*2 /\ executed q = false.
Proof.
  intros Hf Hrun Hget Hex Hin Hnd. destruct runs as [|first rest]; [by apply elem_of_nil in Hrun|].
  cbn in Hf. specialize (Hin first rest eq_refl). specialize (Hnd first rest eq_refl).
  apply dict_get_keys in Hin as [p0 Hp0].
  pose proof (dict_get_Some_elem _ _ _ Hp0) as [i Hi]%list_elem_of_lookup.
  apply result_map_ok in Hf. destruct (Forall2_lookup_l _ _ _ _ _ Hf Hi) as ([k q] & Hq & Hfold).
  apply result_bind_ok in Hfold as (q' & Hq' & [= <- <-]). exists q'. split.
  - apply list_elem_of_fmap. exists (entry, q'). split; [done|]. by apply list_elem_of_lookup_2 in Hq.
  - eapply fold_profiles_executed; [exact Hq'|]. cbn [fst snd] in *. apply not_true_iff_false.
    rewrite forallb_forall. intros Hall. rewrite (Hall p) in Hex; [done|]. apply list_elem_of_In.
    apply elem_of_cons in Hrun as [->|Hrun].
    + rewrite Hp0 in Hget. injection Hget as ->. by left.
    + right. apply list_elem_of_omap. by exists run.
Qed.

(** C11.  A draw that never ran decides nothing: when one replicate of a duel records an
    entry of the challenger's board as not started, the folded challenger is incomplete,
    and the gate defers it against every champion and holdout; a fold never turns the
    remaining draws into a decision. *)
Theorem unstarted_draw_defers `{Libm} `{PyFormat} plugin runs sides run entry p w size ga parent hp hc o :
  length runs <> 1 -> fold_matchup_replicates runs = Ok sides ->
  run ∈ runs.*2 -> dict_get run entry = Some p -> execution_started p = Some false ->
  (forall first rest, runs.*2 = first :: rest -> entry ∈ dict_keys first /\ NoDup (dict_keys first)) ->
  aggregate_generation_score plugin sides.2.*2 w size = Ok ga ->
  evaluate_gate parent (ga_aggregate ga) w hp hc = Ok o -> decision o = DEFERRED.
Proof.
  intros Hlen Hfold Hrun Hget Hex Hfirst Hga. apply gate_defers_incomplete.
  assert (average_replicate_losses runs.*2 = Ok sides.2) as Havg.
  { destruct runs as [|r1 [|r2 runs]]; [by injection Hfold as <-|done|]. cbn [fold_matchup_replicates] in Hfold.
    apply result_bind_ok in Hfold as (lhs & _ & H1). by apply result_bind_ok in H1 as (rhs & -> & [= <-]). }
  destruct (average_unstarted _ _ _ _ _ Havg Hrun Hget) as (q & Hq & Hqx).
  - unfold executed. by rewrite Hex.
  - intros first rest E. by apply (Hfirst first rest).
  - intros first rest E. by apply (Hfirst first rest).
  - by eapply incomplete_entry.
Qed.

(** ** Plugins *)

(** A scoring plugin cannot poison a scalar: whatever the plugin does (missing,
    raising, returning anything), the seam yields either the plugin's own finite number
    or the value it was given, and says which; the one exception it lets through is the
    conversion of an integer too large for a float. *)
Theorem plugin_guard {Ctx} (resolve : string -> option (Ctx -> result Json)) dotted ctx fallback pre seam :
  match _invoke_plugin resolve dotted ctx fallback pre seam with
  | Ok (value, token) =>
      (value = fallback /\ exists why, token = pre +:+ " (fallback: " +:+ why +:+ ")")
      \/ (isfinite value = true /\ token = "plugin:" +:+ seam +:+ "=" +:+ dotted
          /\ exists fn raw, resolve dotted = Some fn /\ fn ctx = Ok raw
             /\ (raw = JFloat value \/ exists z, raw = JInt z /\ value = float_of_Z z))
  | Raise e => e = OverflowError /\ exists fn z, resolve dotted = Some fn /\ fn ctx = Ok (JInt z)
                 /\ isfinite (float_of_Z z) = false
  end.
Proof.
  unfold _invoke_plugin. destruct (resolve dotted) as [fn|] eqn:Er.
  2: { left. split; [done|]. by exists "unresolved". }
  destruct (fn ctx) as [raw|e] eqn:Ef.
  2: { left. split; [done|]. exists ("raised " +:+ exn_class e). by rewrite !str_app_assoc. }
  assert (forall v, _coerce_finite v = Ok None ->
    match (try value <- _coerce_finite v;
           Ok (match value with
               | None => (fallback, pre +:+ " (fallback: non-finite return)")
               | Some value => (value, "plugin:" +:+ seam +:+ "=" +:+ dotted)
               end)) with
    | Ok (value, token) =>
        (value = fallback /\ exists why, token = pre +:+ " (fallback: " +:+ why +:+ ")") \/ False
    | Raise e => False
    end) as Hnone.
  { intros v ->. cbn [result_bind]. left. split; [done|]. by exists "non-finite return". }
  destruct raw as [|b|z|x|s|l|d];
    try (match goal with |- context [_coerce_finite ?v] => specialize (Hnone v eq_refl) end;
         cbn [_coerce_finite result_bind] in *; tauto).
  - cbn [_coerce_finite]. destruct (isfinite (float_of_Z z)) eqn:Ez; cbn [result_bind].
    + right. split; [exact Ez|]. split; [reflexivity|]. exists fn, (JInt z).
      split; [reflexivity|]. split; [exact Ef|]. right. exists z. split; reflexivity.
    + split; [reflexivity|]. exists fn, z. split; [reflexivity|]. split; [exact Ef|exact Ez].
  - cbn [_coerce_finite]. destruct (isfinite x) eqn:Ex; cbn [result_bind].
    + right. split; [exact Ex|]. split; [reflexivity|]. exists fn, (JFloat x).
      split; [reflexivity|]. split; [exact Ef|]. left. reflexivity.
    + left. split; [reflexivity|]. exists "non-finite return". reflexivity.
Qed.

(** ** Concrete boards *)
Module AggregationWitness.
#[local] Existing Instance plain_format.
#[local] Existing Instance plain_libm.

Definition loss (entry : string) (drift : float) (verdict : option bool) (counts : list MetricCount)
    (started : option bool) : LossProfile := {|
  lp_run_id := "run-" +:+ entry; lp_entry_id := entry; lp_generation_id := "v1"; lp_epoch_id := "epoch-1";
  plan_revisions := 0; task_failure_ratio := f0; runtime_ms := 1500;
  wall_clock_budget_exceeded := false; expectation_result := None; drift_loss := drift;
  pass_fail := verdict; turns_completed := None; memory_failure_count := None;
  context_loss_count := None; metric_counts := counts; tokens_spent := 10; output_chars := 20;
  schema_failures := 0; adk_session_id := ""; lp_match_id := ""; per_judge_loss := [];
  judge_errors := []; cached := false; source_epoch := ""; source_run := ""; lp_score := None;
  lp_metrics := None; scoring_provenance := None; abort_cause := None; not_completed := false;
  not_completed_reason := None; started_at := None; ended_at := None; execution_started := started;
  lp_measurement := Some TOURNAMENT_DRAW; source_measurements := [] |}.

Definition metric (name : string) (count : float) : MetricCount :=
  {| mc_name := name; mc_severity := ""; mc_count := count |}.

Definition no_plugin : string -> option (ScalarContext -> result Json) := fun _ => None.

Definition losses : list LossProfile :=
  [loss "a" 0.1%float (Some true) [metric "cost:tokens" 10%float] (Some true);
   loss "b" 0.2%float (Some false) [metric "cost:tokens" 20%float] (Some true);
   loss "c" 0.3%float None [metric "schema:failures" 1%float] (Some true)].

Definition aggregate (ls : list LossProfile) : GenerationAggregate :=
  match aggregate_generation_score no_plugin ls default_weights None with
  | Ok a => a
  | Raise _ => {| ga_aggregate := {| scalar := None; pass_rate := None; mean_score := None;
                    incomplete_entries := []; per_entry := []; namespace_aggregates := None;
                    scalar_components := None; diff_size := None |};
                  ga_drift_loss_mean := f0; ga_expectation_count := 0; ga_entry_count := 0;
                  ga_failures := []; ga_scalar_provenance := ""; ga_base_seed := None |}
  end.

Lemma aggregate_order_witness :
  exists b, aggregate_generation_score no_plugin (rev losses) default_weights None = Ok b
    /\ same_aggregate (aggregate losses) b.
Proof.
  apply (aggregate_order no_plugin losses (rev losses) default_weights None (aggregate losses)).
  - apply Permutation_rev.
  - apply (bool_decide_unpack _). vm_compute. exact I.
  - reflexivity.
  - vm_compute. reflexivity.
Defined.

Lemma boolean_board_mean_witness :
  mean_score_of (omap entry_score losses) = Ok (pass_rate_of 1 2).
Proof.
  apply (boolean_board_mean losses).
  - intros p Hp. repeat (apply elem_of_cons in Hp as [->|Hp]; [reflexivity|]). by apply elem_of_nil in Hp.
  - vm_compute. repeat constructor.
Defined.

(** The second replicate never started entry [b]. *)
Definition replicate1 : list (string * LossProfile) :=
  [("a", loss "a" 0.1%float (Some true) [] (Some true)); ("b", loss "b" 0.1%float (Some true) [] (Some true))].
Definition replicate2 : list (string * LossProfile) :=
  [("a", loss "a" 0.1%float (Some true) [] (Some true)); ("b", loss "b" 0.1%float None [] (Some false))].
Definition runs := [(replicate1, replicate1); (replicate1, replicate2)].

Definition sides : list (string * LossProfile) * list (string * LossProfile) :=
  match fold_matchup_replicates runs with Ok s => s | Raise _ => ([], []) end.

Definition duel : GateOutcome :=
  match evaluate_gate (ga_aggregate (aggregate losses)) (ga_aggregate (aggregate sides.2.*2))
          default_weights None None with
  | Ok o => o
  | Raise _ => {| decision := PROMOTED; reason := ""; delta_scalar := f0; delta_pass_rate := f0;
                  attributable_regressions := []; explanation := None |}
  end.

Lemma unstarted_draw_defers_witness : decision duel = DEFERRED.
Proof.
  apply (unstarted_draw_defers no_plugin runs sides replicate2 "b"
           (loss "b" 0.1%float None [] (Some false)) default_weights None
           (aggregate sides.2.*2) (ga_aggregate (aggregate losses)) None None duel).
  - discriminate.
  - vm_compute. reflexivity.
  - right. left.
  - reflexivity.
  - reflexivity.
  - intros first rest [= <- <-]. split; [right; left|].
    apply (bool_decide_unpack _). vm_compute. exact I.
  - vm_compute. reflexivity.
  - vm_compute. reflexivity.
Defined.

(** ** What the running totals change *)

(** The fold of the replicates' metrics depends on their order. *)
Example replicate_fold_order :
  let p x := loss "a" f0 None [metric "cost:tokens" x] None in
  match mc_count <$> _mean_metric_counts [p 0.1%float; p 0.2%float; p 0.3%float],
        mc_count <$> _mean_metric_counts [p 0.3%float; p 0.2%float; p 0.1%float] with
  | [x], [y] => feq x y = false
  | _, _ => False
  end.
Proof. vm_compute. reflexivity. Qed.

Definition severities : ScoringWeights := {|
  pass_weight := f1; severity_weights := [("info", 0.1%float); ("warning", 0.2%float); ("critical", 0.3%float)];
  per_kind_weights := []; per_judge_weights := []; default_judge_weight := f1;
  plan_revision_weight := 0.5%float; task_failure_weight := 10%float; not_completed_weight := 50%float;
  promote_margin := 0.01%float; holdout_margin := None; holdout_entry_regression_budget := 0;
  pass_rate_monotonicity := true; pass_rate_monotonicity_scope := per_entry_scope;
  regression_gate_enabled := false; namespace_weights := namespace_weights default_weights;
  namespace_monotonicity := namespace_monotonicity default_weights; overfitting := default_overfitting;
  diff_complexity_weight := f0; diff_complexity_ceiling := f0; pass_transform := None;
  drift_kind_aggregation := [("looping_reasoning", [("op", JStr "harmonic")])];
  drift_reducer := ""; scalar_fn := ""; block_on_containment_violation := false;
  block_on_gate_contradiction := false; telemetry_dialect := DIALECT_GOLDFIVE |}.

Definition drifts : list MetricCount :=
  [{| mc_name := "drift:off_topic"; mc_severity := "info"; mc_count := f1 |};
   {| mc_name := "drift:blocked"; mc_severity := "warning"; mc_count := f1 |};
   {| mc_name := "drift:wrong_agent"; mc_severity := "critical"; mc_count := f1 |}].

(** A transform that meets no drift of its kind still moves the loss, under the built-in's
    token. *)
Example unmatched_transform_moves_the_loss :
  match builtin_drift_loss drifts 0 severities with
  | Ok builtin =>
      match resolve_drift_loss (fun _ => None)
              {| dc_metric_counts := drifts; dc_plan_revisions := 0; dc_task_failure_ratio := f0;
                 dc_runtime_ms := 0; dc_weights := severities; builtin_loss := builtin |} with
      | Ok (loss, token) => feq loss builtin = false /\ token = PROVENANCE_BUILTIN
      | Raise _ => False
      end
  | Raise _ => False
  end.
Proof. vm_compute. split; reflexivity. Qed.

(** A plugin's integer beyond the floats is not caught. *)
Example huge_integer_escapes :
  _invoke_plugin (fun _ => Some (fun _ : unit => Ok (JInt (10 ^ 400)))) "pkg:fn" tt f0 "builtin"
    "scalar_fn" = Raise OverflowError.
Proof. vm_compute. reflexivity. Qed.

(** A power spec passes validation and still raises on a perfect generation, whose miss is
    zero, once the library's power does. *)
Example validated_power_raises (L : Libm) :
  m_pow f0 (fneg f1) = Raise ZeroDivisionError ->
  let spec := [("op", JStr "pow"); ("exponent", JFloat (fneg f1))] in
  validate_transform_spec (JObj spec) = Ok tt
  /\ apply_transform spec (fsub f1 f1) = Raise ZeroDivisionError.
Proof. intros Hpow. split; [vm_compute; reflexivity|exact Hpow]. Qed.
End AggregationWitness.
