(* ===== verification/Strategy.v ===== *)
(** Selection strategies, [src/zicato/selection/strategy.py].

    The value types every tournament structure exchanges with the driver, the
    state of the abstract base class, and the interface itself: [SelectionStrategy]
    is the abstract class' operations, and [SelectionLaws] what the driver relies
    on.  Each structure's file discharges the laws; the driver's theorems are
    proved against them. *)

From S2P Require Import Prelude PyFloat PyJson PyText CoreTypes Gate Params.

(** ** Value types *)

Inductive Role := role_champion | role_challenger.

Record Contestant := {
  generation_id : string;
  role : Role;
  snapshot_root : option string;
  experiment : option Experiment;
}.

Record Matchup := {
  mu_id : string;
  mu_left : Contestant;
  mu_right : Contestant;
  mu_board_subset : option (list string);
  mu_replicates : Z;
  mu_stage_index : nat;
  mu_bracket_slot : string;
  mu_budget_seconds : option float;
}.

Record MatchupResult := {
  mr_id : string;
  mr_left_id : string;
  mr_right_id : string;
  mr_left_agg : Aggregate;
  mr_right_agg : Aggregate;
  mr_outcome : GateOutcome;
  mr_stage_index : nat;
  mr_bracket_slot : string;
  mr_measurement_draw : option MeasurementDraw;
}.

(** [if self.left_agg.get("incomplete_entries")]: a non-empty list. *)
Definition execution_complete (r : MatchupResult) : bool :=
  match incomplete_entries (mr_left_agg r), incomplete_entries (mr_right_agg r) with
  | [], [] => true
  | _, _ => false
  end.

Definition left_scalar (r : MatchupResult) : float := from_option id f0 (scalar (mr_left_agg r)).
Definition right_scalar (r : MatchupResult) : float := from_option id f0 (scalar (mr_right_agg r)).

Definition lower_scalar_id (r : MatchupResult) : string :=
  if flt (delta_scalar (mr_outcome r)) f0 then mr_right_id r else mr_left_id r.

Inductive StandingStatus := alive | eliminated | crowned.

Record Standing := {
  sg_generation_id : string;
  sg_rank : nat;
  sg_scalar : float;
  sg_wins : Z;
  sg_losses : Z;
  sg_status : StandingStatus;
  sg_role : Role;
}.

Record SelectionDecision := {
  sd_promoted_generation_id : option string;
  sd_decision : TournamentDecision;
  sd_reason : string;
  sd_matchups : list MatchupResult;
  sd_crowning_matchup_id : string;
  sd_standings : list Standing;
}.

(** One lane of a racing rung's live progress. *)
Record LaneProgress := {
  lane_inflight : Z;
  lane_boards_total : option Z;
  lane_projected_scalar : option float;
  lane_projected : option bool;
}.

(** [winner] and [decision] are [""] until the match settles. *)
Record MatchRecord := {
  mc_match_id : string;
  mc_competitors : list string;
  mc_winner : string;
  mc_decision : string;
  mc_delta_scalar : option float;
  mc_bracket_slot : string;
  mc_bye : bool;
  mc_survivors : list string;
  mc_cut : list string;
  mc_board_fraction : option float;
  mc_pending : bool;
  mc_live_progress : list (string * LaneProgress);
}.

Record RoundRecord := {
  rr_stage_index : nat;
  rr_label : string;
  rr_matches : list MatchRecord;
}.

Definition pending_match_record (match_id : string) (competitors : list string)
    (bracket_slot : string) (board_fraction : option float)
    (live_progress : option (list (string * LaneProgress))) : MatchRecord := {|
  mc_match_id := match_id; mc_competitors := competitors; mc_winner := ""; mc_decision := "";
  mc_delta_scalar := None; mc_bracket_slot := bracket_slot; mc_bye := false; mc_survivors := [];
  mc_cut := []; mc_board_fraction := board_fraction; mc_pending := true;
  mc_live_progress := from_option id [] live_progress |}.

(** The [MatchRecord(...)] of a bye and of a decided duel. *)
Definition bye_record (match_id gid bracket_slot : string) : MatchRecord := {|
  mc_match_id := match_id; mc_competitors := [gid]; mc_winner := gid; mc_decision := "";
  mc_delta_scalar := None; mc_bracket_slot := bracket_slot; mc_bye := true; mc_survivors := [];
  mc_cut := []; mc_board_fraction := None; mc_pending := false; mc_live_progress := [] |}.

Definition settled_record (match_id : string) (competitors : list string) (winner : string)
    (outcome : GateOutcome) (bracket_slot : string) (board_fraction : option float)
    : MatchRecord := {|
  mc_match_id := match_id; mc_competitors := competitors; mc_winner := winner;
  mc_decision := decision_token (decision outcome);
  mc_delta_scalar := Some (delta_scalar outcome); mc_bracket_slot := bracket_slot;
  mc_bye := false; mc_survivors := []; mc_cut := []; mc_board_fraction := board_fraction;
  mc_pending := false; mc_live_progress := [] |}.

(** ** The base class' constructor *)

Definition base_parameter_names : list string := TOURNAMENT_PARAM_CONSTRAINTS.*1.

(** [SelectionStrategy.__init__]: the parameters and the replicate count. *)
Definition strategy_init `{PyFormat} `{PyRepr} (structure : string)
    (parameter_names : list string) (_default_replicates : Z) (params : option Params)
    : result (Params * Z) :=
  let params := from_option id [] params in
  let unknown := List.filter (fun k => bool_decide (k ∉ parameter_names)) (dict_keys params) in
  match unknown with
  | _ :: _ =>
      Raise (ValueError (structure +:+ " has unsupported tournament parameters: "
                         +:+ py_join ", " (sorted_strings unknown) +:+ "; accepted: "
                         +:+ py_join ", " (sorted_strings parameter_names)))
  | [] =>
      try _replicates <- _param_int params "replicates" _default_replicates;
      try _ <- read_promote_confidence_threshold params;
      try _ <- read_replicate_budget params;
      Ok (params, _replicates)
  end.

(** ** Rung labels *)

Definition rung_for_match_id (match_id : option string) : option string :=
  match match_id with
  | None => None
  | Some match_id =>
      if String.eqb match_id "" then None
      else
        let mid := str_strip match_id in
        if String.eqb mid "" then None
        else
          let lo := str_lower mid in
          if String.eqb lo "final" || str_endswith "-final" lo then Some "final"
          else
            match str_after_prefix "rung" lo with
            | Some rest =>
                match str_span is_digit rest with
                | ("", _) => Some mid
                | (digits, _) =>
                    Some ("rung " +:+ pretty (from_option id 0%N (int_digits false 0 digits)))
                end
            | None => Some mid
            end
  end.

(** ** The interface *)

(** The operations of the abstract class, on the state of one structure. *)
Class SelectionStrategy (S : Type) := {
  field_size : S -> Z;
  replicates : S -> Z;
  seed : Contestant -> list Contestant -> S -> result S;
  next_matchups : S -> result (list Matchup * S);
  record_result : MatchupResult -> S -> result S;
  resolved : S -> bool;
  champion : S -> SelectionDecision;
  rounds : S -> list RoundRecord;
  _pending_round : S -> result (option RoundRecord);
  _live_standings : S -> list Standing;
}.

(** [SelectionStrategy.live_rounds] and [live_standings]. *)
Definition live_rounds {S} `{SelectionStrategy S} (s : S) : result (list RoundRecord) :=
  try pending <- _pending_round s;
  Ok (match pending with None => rounds s | Some p => rounds s ++ [p] end).

Definition live_standings {S} `{SelectionStrategy S} (s : S) : list Standing := _live_standings s.

(** [for result in results: strategy.record_result(result)] *)
Fixpoint record_results {S} `{SelectionStrategy S} (rs : list MatchupResult) (s : S) : result S :=
  match rs with
  | [] => Ok s
  | r :: rs => try s <- record_result r s; record_results rs s
  end.

(** A result is the matchup's own: it carries its id and its two sides. *)
Definition answers (m : Matchup) (r : MatchupResult) : Prop :=
  mr_id r = mu_id m /\ mr_left_id r = generation_id (mu_left m)
  /\ mr_right_id r = generation_id (mu_right m).

(** The crown is the gate's: whoever is promoted is a challenger, and the duel
    that crowned it was the champion against it and said [PROMOTED]. *)
Definition crowned_by_gate (champ : Contestant) (challengers : list Contestant)
    (d : SelectionDecision) : Prop :=
  forall gid, sd_promoted_generation_id d = Some gid ->
    sd_decision d = PROMOTED
    /\ (exists c, c ∈ challengers /\ generation_id c = gid)
    /\ exists r, r ∈ sd_matchups d /\ mr_id r = sd_crowning_matchup_id d
         /\ mr_left_id r = generation_id champ /\ mr_right_id r = gid
         /\ decision (mr_outcome r) = PROMOTED.

(** What the driver relies on.  [fresh] are the states the constructor builds,
    [fields] the fields the structure accepts, [inv] the states between batches
    and [fuel] bounds the batches left. *)
Class SelectionLaws (S : Type) `{SelectionStrategy S} := {
  fresh : S -> Prop;
  fields : list Contestant -> Prop;
  inv : Contestant -> list Contestant -> S -> Prop;
  fuel : S -> nat;
  seed_law : forall champ chs s, fresh s -> fields chs ->
    exists s', seed champ chs s = Ok s' /\ inv champ chs s';
  schedule_law : forall champ chs s, inv champ chs s -> resolved s = false ->
    exists ms s', next_matchups s = Ok (ms, s') /\ (ms = [] -> inv champ chs s');
  batch_law : forall champ chs s ms s' rs, inv champ chs s -> resolved s = false ->
    next_matchups s = Ok (ms, s') -> ms <> [] -> Forall2 answers ms rs ->
    exists s'', record_results rs s' = Ok s'' /\ inv champ chs s'' /\ fuel s'' < fuel s;
  crown_law : forall champ chs s, inv champ chs s ->
    crowned_by_gate champ chs (champion s);
}.
