(* ===== verification/FieldRecord.v ===== *)
(** The durable record of a round's tournament, [src/zicato/tournament/records.py]: its
    strict decoder, its construction from the decision of the strategy with the
    elimination states of [tournament/structure.py], and its validation against a
    settlement receipt.  The projections of rounds and standings are those of
    [evolve/dashboard_projection.py]. *)
From S2P Require Import Prelude PyFloat PyText PyJson CoreTypes Params Records Gate Strategy.

(** ** Projections *)

Definition status_token (s : StandingStatus) : string :=
  match s with alive => "alive" | eliminated => "eliminated" | crowned => "champion" end.
Definition role_token (r : Role) : string :=
  match r with role_champion => "champion" | role_challenger => "challenger" end.

Definition optional_field (key : string) (v : option Json) : list (string * Json) :=
  match v with Some v => [(key, v)] | None => [] end.

(** The keys a lane has. *)
Definition lane_row (lane : LaneProgress) : list (string * Json) :=
  [("inflight", JInt (lane_inflight lane))]
  ++ optional_field "boards_total" (JInt <$> lane_boards_total lane)
  ++ optional_field "projected_scalar" (JFloat <$> lane_projected_scalar lane)
  ++ optional_field "projected" (JBool <$> lane_projected lane).

Definition match_row (m : MatchRecord) : Json :=
  JObj [("match_id", JStr (mc_match_id m)); ("competitors", jstrs (mc_competitors m));
        ("winner", if String.eqb (mc_winner m) "" then JNull else JStr (mc_winner m));
        ("decision", JStr (mc_decision m)); ("delta_scalar", jopt JFloat (mc_delta_scalar m));
        ("bracket_slot", JStr (mc_bracket_slot m)); ("bye", JBool (mc_bye m));
        ("survivors", jstrs (mc_survivors m)); ("cut", jstrs (mc_cut m));
        ("board_fraction", jopt JFloat (mc_board_fraction m)); ("pending", JBool (mc_pending m));
        ("live_progress", JObj ((fun l => (l.1, JObj (lane_row l.2))) <$> mc_live_progress m))].

Definition _serialise_rounds (rounds : list RoundRecord) : list (list (string * Json)) :=
  (fun r => [("stage_index", JInt (Z.of_nat (rr_stage_index r))); ("label", JStr (rr_label r));
             ("matches", JArr (match_row <$> rr_matches r))]) <$> rounds.

Definition _serialise_standings (standings : list Standing) : list (list (string * Json)) :=
  (fun s => [("generation_id", JStr (sg_generation_id s)); ("rank", JInt (Z.of_nat (sg_rank s)));
             ("scalar", JFloat (sg_scalar s)); ("wins", JInt (sg_wins s));
             ("losses", JInt (sg_losses s)); ("status", JStr (status_token (sg_status s)));
             ("role", JStr (role_token (sg_role s)))]) <$> standings.

(** ** The record *)

Record FieldTournamentRecord := {
  ft_tournament_id : string;
  ft_epoch_id : string;
  ft_state : string;
  ft_champion_generation_id : string;
  ft_promoted_generation_id : string;
  ft_json : list (string * Json);
}.

Definition field_to_dict (r : FieldTournamentRecord) : list (string * Json) :=
  dict_update (ft_json r)
    [("tournament_id", JStr (ft_tournament_id r)); ("epoch_id", JStr (ft_epoch_id r));
     ("state", JStr (ft_state r)); ("champion_generation_id", JStr (ft_champion_generation_id r));
     ("promoted_generation_id", JStr (ft_promoted_generation_id r))].

Definition refuse_field {A} (what : string) : result A :=
  Raise (RecordError ("field tournament record " +:+ what)).

(** A list of objects. *)
Definition object_rows (v : Json) : option (list (list (string * Json))) :=
  match v with JArr items => mapM (fun i => match i with JObj d => Some d | _ => None end) items | _ => None end.

(** A list of distinct non-empty texts. *)
Definition distinct_ids (vs : list Json) : option (list string) :=
  ids ← mapM as_nonempty vs; if bool_decide (NoDup ids) then Some ids else None.

Definition require_field {A} (what : string) (o : option A) : result A :=
  match o with Some a => Ok a | None => refuse_field what end.

Definition text_field (read : Json -> option string) (d : list (string * Json)) (key : string)
    : result string :=
  require_field ("has invalid " +:+ key) (read (get_none d key)).

Definition rows_field (d : list (string * Json)) (key : string)
    : result (list (list (string * Json))) :=
  require_field ("has invalid " +:+ key) (object_rows (get_none d key)).

Definition field_optional_number (v : Json) (name : string) : result (option Numeric) :=
  optional_number (RecordError ("field settlement receipt " +:+ name +:+ " must be finite or null")) v.

(** The state token. *)
Definition field_state (v : Json) : option string :=
  s ← as_text v; if String.eqb s "in_progress" || String.eqb s "settled" then Some s else None.

Definition competitor_role (row : list (string * Json)) : option string :=
  s ← as_text (get_none row "role");
  if String.eqb s "champion" || String.eqb s "challenger" then Some s else None.

(** The identities and the roles of the competitors, which agree on one champion. *)
Definition check_competitors (competitors : list (list (string * Json))) (champion : string)
    : result unit :=
  try ids <- require_field "has invalid competitor identities"
               (distinct_ids ((fun row => get_none row "generation_id") <$> competitors));
  try roles <- require_field "has invalid competitor roles" (mapM competitor_role competitors);
  ensure bool_decide ((List.filter (fun c => String.eqb c.2 "champion") (zip ids roles)).*1 = [champion])
    orelse RecordError "field tournament record has inconsistent incumbent";
  Ok tt.

Definition check_promoted_ids (d : list (string * Json)) : result unit :=
  match dict_get d "promoted_generation_ids" with
  | None => Ok tt
  | Some v =>
      try _ <- require_field "has invalid promoted ids"
                 (match v with JArr items => distinct_ids items | _ => None end);
      Ok tt
  end.

Definition check_override_status (d : list (string * Json)) : result unit :=
  match dict_get d "override_status" with
  | None | Some (JObj _) => Ok tt
  | Some _ => refuse_field "has invalid override_status"
  end.

Definition decode_field_tournament_record (v : Json) : result FieldTournamentRecord :=
  match v with
  | JObj d =>
      try tournament <- text_field as_nonempty d "tournament_id";
      try epoch <- text_field as_nonempty d "epoch_id";
      try _ <- text_field as_nonempty d "structure";
      try _ <- text_field as_nonempty d "ran_at";
      try champion <- text_field as_nonempty d "champion_generation_id";
      try state <- require_field "has invalid state" (field_state (get_none d "state"));
      try promoted_id <- text_field as_text d "promoted_generation_id";
      try _ <- text_field as_text d "decision";
      try _ <- text_field as_text d "reason";
      try _ <- require_field "has invalid structure_params"
                 (match get_none d "structure_params" with JObj _ => Some tt | _ => None end);
      try competitors <- rows_field d "competitors";
      try _ <- rows_field d "rounds";
      try _ <- rows_field d "standings";
      try _ <- rows_field d "field_status";
      try _ <- check_competitors competitors champion;
      try _ <- field_optional_number (get_none d "delta_scalar") "delta_scalar";
      try _ <- check_promoted_ids d;
      try _ <- check_override_status d;
      try body <- detach_obj d;
      Ok {| ft_tournament_id := tournament; ft_epoch_id := epoch; ft_state := state;
            ft_champion_generation_id := champion; ft_promoted_generation_id := promoted_id;
            ft_json := body |}
  | _ => refuse_field "must be an object"
  end.

(** ** Elimination states *)

Record GenState := {
  gs_generation_id : string;
  gs_played_rounds : list Z;
  gs_advanced_rounds : list Z;
  gs_lost_rounds : list Z;
  gs_eliminated_at_round : option Z;
  gs_side_by_round : list (string * string);
  gs_lb_entry_round : option Z;
  gs_projected : Json;
}.

Definition gen_state_row (s : GenState) : Json :=
  JObj [("generation_id", JStr (gs_generation_id s));
        ("played_rounds", JArr (JInt <$> gs_played_rounds s));
        ("advanced_rounds", JArr (JInt <$> gs_advanced_rounds s));
        ("lost_rounds", JArr (JInt <$> gs_lost_rounds s));
        ("eliminated_at_round", jopt JInt (gs_eliminated_at_round s));
        ("side_by_round", JObj ((fun kv => (kv.1, JStr kv.2)) <$> gs_side_by_round s));
        ("lb_entry_round", jopt JInt (gs_lb_entry_round s)); ("projected", gs_projected s)].

Definition fresh_state (gid : string) : GenState := {|
  gs_generation_id := gid; gs_played_rounds := []; gs_advanced_rounds := []; gs_lost_rounds := [];
  gs_eliminated_at_round := None; gs_side_by_round := []; gs_lb_entry_round := None;
  gs_projected := JNull |}.

(** [if column not in rounds: rounds.append(column)] *)
Definition note_round (column : Z) (l : list Z) : list Z :=
  if bool_decide (column ∈ l) then l else l ++ [column].

(** A match as the projection writes it: what the fold reads of it. *)
Record MatchView := {
  mv_competitors : list string;
  mv_winner : option string;
  mv_pending : bool;
  mv_bye : bool;
  mv_slot : string;
  mv_projected : list (string * Json);
}.

(** [competitors] is a list of texts, as in every projected match; an absent one raises. *)
Definition match_view (d : list (string * Json)) : result MatchView :=
  match dict_get d "competitors" with
  | None => Raise (KeyError "competitors")
  | Some v => Ok {|
      mv_competitors := match v with
                        | JArr items => from_option id [] (mapM as_text items)
                        | _ => []
                        end;
      mv_winner := as_nonempty (get_none d "winner");
      mv_pending := truthy (get_none d "pending"); mv_bye := truthy (get_none d "bye");
      mv_slot := from_option id "" (as_text (dict_get_or d "bracket_slot" (JStr "")));
      mv_projected := match get_none d "projected" with JObj p => p | _ => [] end |}
  end.

Definition slot_side (slot : string) : string := if str_startswith "LB" slot then "LB" else "WB".

Definition match_loser (m : MatchView) : option string :=
  match mv_winner m with
  | Some w => if mv_bye m then None
              else find_first (fun gid => negb (String.eqb gid w)) (mv_competitors m)
  | None => None
  end.

(** What a match of a column does to the state of one of its competitors. *)
Definition state_after (structure : string) (column : Z) (m : MatchView) (s : GenState) : GenState :=
  let gid := gs_generation_id s in
  let side := slot_side (mv_slot m) in
  let eliminates := String.eqb structure "single_elim" || String.eqb side "LB"
                    || String.eqb (mv_slot m) "GF" in
  let won := mv_bye m || bool_decide (mv_winner m = Some gid) in
  let lost := negb won && bool_decide (is_Some (mv_winner m)) in
  let settled := negb (mv_pending m) in
  {| gs_generation_id := gid;
     gs_played_rounds := note_round column (gs_played_rounds s);
     gs_advanced_rounds := if settled && won then note_round column (gs_advanced_rounds s)
                           else gs_advanced_rounds s;
     gs_lost_rounds := if settled && lost then note_round column (gs_lost_rounds s)
                       else gs_lost_rounds s;
     gs_eliminated_at_round := if settled && lost && eliminates then Some column
                               else gs_eliminated_at_round s;
     gs_side_by_round := dict_set (gs_side_by_round s) (pretty column) side;
     gs_lb_entry_round := match gs_lb_entry_round s with
                          | None => if String.eqb side "LB" then Some column else None
                          | some => some
                          end;
     gs_projected := if mv_pending m
                     then match get_none (mv_projected m) gid with JNull => gs_projected s | v => v end
                     else gs_projected s |}.

Definition note_match (structure : string) (column : Z) (m : MatchView)
    (states : list (string * GenState)) : list (string * GenState) :=
  foldl (fun states gid =>
           dict_set states gid (state_after structure column m
             (from_option id (fresh_state gid) (dict_get states gid))))
    states (mv_competitors m).

(** The rows of [stage["matches"]]. *)
Definition stage_matches (stage : list (string * Json)) : result (list (list (string * Json))) :=
  match dict_get stage "matches" with
  | None => Raise (KeyError "matches")
  | Some v => match object_rows v with
              | Some rows => Ok rows
              | None => Raise (TypeError "a match must be an object")
              end
  end.

Definition elim_match (structure : string) (column : Z)
    (acc : list (string * GenState) * list (list (string * Json))) (row : list (string * Json))
    : result (list (string * GenState) * list (list (string * Json))) :=
  try m <- match_view row;
  Ok (note_match structure column m acc.1,
      acc.2 ++ [dict_set row "loser" (jopt JStr (match_loser m))]).

Definition in_losers_bracket (row : list (string * Json)) : bool :=
  str_startswith "LB" (from_option id "" (as_text (dict_get_or row "bracket_slot" (JStr "")))).

Definition elim_stage (structure : string)
    (acc : Z * list (string * GenState) * list (list (string * Json))) (stage : list (string * Json))
    : result (Z * list (string * GenState) * list (list (string * Json))) :=
  let '(column, states, rounds) := acc in
  try rows <- stage_matches stage;
  try out <- result_foldl (elim_match structure column) (states, []) rows;
  let '(states, rows) := out in
  let side := if existsb in_losers_bracket rows then "LB" else "WB" in
  Ok ((column + 1)%Z, states,
      rounds ++ [dict_update stage [("matches", JArr (JObj <$> rows)); ("bracket_side", JStr side)]]).

Definition attach_elim_states (payload : list (string * Json)) : result (list (string * Json)) :=
  match get_none payload "structure" with
  | JStr structure =>
      if String.eqb structure "single_elim" || String.eqb structure "double_elim" then
        match dict_get payload "rounds" with
        | None => Raise (KeyError "rounds")
        | Some v =>
            match object_rows v with
            | None => Raise (TypeError "a round must be an object")
            | Some rounds =>
                try out <- result_foldl (elim_stage structure) (0%Z, [], []) rounds;
                let '(_, states, rounds) := out in
                Ok (dict_update payload
                      [("rounds", JArr (JObj <$> rounds));
                       ("gen_states", JArr (gen_state_row <$> states.*2))])
            end
        end
      else Ok payload
  | _ => Ok payload
  end.

(** ** Construction *)

(** The delta of the last match of the last round that has one. *)
Fixpoint crowning_delta (rounds_reversed : list (list (string * Json))) : Json :=
  match rounds_reversed with
  | [] => JNull
  | r :: rest =>
      match get_none r "matches" with
      | JArr [] | JNull => crowning_delta rest
      | JArr items =>
          match List.last items JNull with JObj m => get_none m "delta_scalar" | _ => JNull end
      | _ => JNull
      end
  end.

(** What the record takes of a decision: its matchup, the promoted id, its token and its
    reason; nothing while the round is in flight. *)
Record CrowningFields := {
  cw_crowning_matchup_id : Json;
  cw_promoted_generation_id : string;
  cw_decision : string;
  cw_reason : string;
}.

Definition no_decision : CrowningFields := {|
  cw_crowning_matchup_id := JNull; cw_promoted_generation_id := ""; cw_decision := "";
  cw_reason := "" |}.

Definition crowning_fields (d : SelectionDecision) : CrowningFields := {|
  cw_crowning_matchup_id := JStr (sd_crowning_matchup_id d);
  cw_promoted_generation_id := from_option id "" (sd_promoted_generation_id d);
  cw_decision := decision_token (sd_decision d); cw_reason := sd_reason d |}.

(** [competitors] by id, seed and role. *)
Record Competitor := { cp_generation_id : string; cp_seed : Z; cp_role : Role }.

Definition competitor_row (c : Competitor) : list (string * Json) :=
  [("generation_id", JStr (cp_generation_id c)); ("seed", JInt (cp_seed c));
   ("role", JStr (role_token (cp_role c)))].

Definition is_champion (c : Competitor) : bool :=
  match cp_role c with role_champion => true | role_challenger => false end.

Definition field_body (field_tournament_id epoch_id structure : string)
    (structure_params : list (string * Json)) (competitors : list Competitor)
    (rounds standings field_status : list (list (string * Json))) (decision : CrowningFields)
    (ran_at state : string) : list (string * Json) :=
  [("tournament_id", JStr field_tournament_id); ("epoch_id", JStr epoch_id);
   ("structure", JStr structure); ("structure_params", JObj structure_params);
   ("competitors", JArr ((fun c => JObj (competitor_row c)) <$> competitors));
   ("rounds", JArr (JObj <$> rounds)); ("standings", JArr (JObj <$> standings));
   ("crowning_matchup_id", cw_crowning_matchup_id decision);
   ("field_status", JArr (JObj <$> field_status));
   ("promoted_generation_id", JStr (cw_promoted_generation_id decision));
   ("champion_generation_id",
     JStr (from_option cp_generation_id "" (find_first is_champion competitors)));
   ("decision", JStr (cw_decision decision)); ("reason", JStr (cw_reason decision));
   ("delta_scalar", crowning_delta (reverse rounds)); ("state", JStr state);
   ("ran_at", JStr ran_at)].

Definition field_tournament_record (field_tournament_id epoch_id structure : string)
    (structure_params : list (string * Json)) (competitors : list Competitor)
    (rounds standings field_status : list (list (string * Json))) (decision : CrowningFields)
    (ran_at state : string) (override_status : list (string * list (string * Json)))
    (promoted_generation_ids : list string) : result FieldTournamentRecord :=
  let body := field_body field_tournament_id epoch_id structure structure_params competitors
                rounds standings field_status decision ran_at state in
  let body := body
    ++ match promoted_generation_ids with [] => [] | ids => [("promoted_generation_ids", jstrs ids)] end
    ++ match override_status with
       | [] => []
       | prov => [("override_status", JObj ((fun p => (p.1, JObj p.2)) <$> prov))]
       end in
  try body <- attach_elim_states body;
  decode_field_tournament_record (JObj body).

(** ** Validation against a receipt *)

Definition string_set_eq (a b : list string) : bool := bool_decide (a ⊆ b) && bool_decide (b ⊆ a).

Definition refuse_settlement {A} (what : string) : result A :=
  Raise (RecordError ("field settlement tournament record " +:+ what)).

(** [raw_record.get("promoted_generation_id") or None], and the set of the promoted ids. *)
Definition record_primary (r : FieldTournamentRecord) : option string :=
  if String.eqb (ft_promoted_generation_id r) "" then None else Some (ft_promoted_generation_id r).

Definition record_promoted (body : list (string * Json)) (primary : option string) : list string :=
  match get_none body "promoted_generation_ids" with
  | JArr items => from_option id [] (mapM as_text items)
  | _ => from_option (fun p => [p]) [] primary
  end.

Definition row_text (row : list (string * Json)) (key : string) : string :=
  from_option id "" (as_text (get_none row key)).

Definition competitor_roles (rows : list (list (string * Json))) : list (string * string) :=
  foldl (fun roles row => dict_set roles (row_text row "generation_id") (row_text row "role")) [] rows.

(** [except (ValueError, RuntimeError)] *)
Definition settlement_refusal {A} (r : result A) : result A :=
  let prefix m := Raise (RecordError ("field settlement tournament record: " +:+ m)) in
  match r with
  | Raise (ValueError m) | Raise (RecordError m) | Raise (RuntimeError m) => prefix m
  | Raise (ConfigurationError p _ m) => prefix (p +:+ ": " +:+ m)
  | _ => r
  end.

Definition validate_settlement_field_record (raw_record : Json) (epoch_id first_challenger parent_id : string)
    (candidate_ids promoted_ids : list string) (structure decision : string)
    : result (option (list (string * Json)) * option string) :=
  match raw_record with
  | JNull =>
      ensure (length candidate_ids <=? 1)
        orelse RecordError "multi-challenger settlement receipt has no field tournament record";
      Ok (None, head promoted_ids)
  | _ =>
      try r <- settlement_refusal (decode_field_tournament_record raw_record);
      let body := field_to_dict r in
      let rows := from_option id [] (object_rows (get_none body "competitors")) in
      let roles := competitor_roles rows in
      let primary := record_primary r in
      if negb (String.eqb (ft_tournament_id r) (epoch_id +:+ ":field:" +:+ first_challenger))
      then refuse_settlement "has a different identity"
      else if negb (String.eqb (ft_epoch_id r) epoch_id && String.eqb (ft_state r) "settled")
      then refuse_settlement "has an invalid epoch or state"
      else if negb (String.eqb (row_text body "structure") structure)
      then refuse_settlement "has inconsistent structure"
      else if negb (String.eqb (ft_champion_generation_id r) parent_id)
      then refuse_settlement "names a different incumbent"
      else if negb (string_set_eq ((fun row => row_text row "generation_id") <$> rows)
                      (parent_id :: candidate_ids))
      then refuse_settlement "has inconsistent competitors"
      else if negb (bool_decide (dict_get roles parent_id = Some "champion"))
              || existsb (fun gid => negb (bool_decide (dict_get roles gid = Some "challenger")))
                   candidate_ids
      then refuse_settlement "has inconsistent competitor roles"
      else if match primary with Some p => negb (bool_decide (p ∈ promoted_ids)) | None => false end
      then refuse_settlement "names an invalid primary champion"
      else if negb (string_set_eq (record_promoted body primary) promoted_ids)
      then refuse_settlement "has a different promoted set"
      else if negb (Bool.eqb (negb (bool_decide (is_Some primary)))
                      match promoted_ids with [] => true | _ => false end)
      then refuse_settlement "lacks its primary champion"
      else if negb (String.eqb (row_text body "decision") decision)
      then refuse_settlement "has a different decision or reason"
      else Ok (Some body, primary)
  end.
