(* ===== verification/Receipt.v ===== *)
(** Settlement receipts, [src/zicato/epoch/settlement_receipt.py]: the facts of a settled
    round, their strict decoder, the checks against the experiments, the lineage and the
    tournament record of the workspace, and the readers of the store.  The readers of
    [epoch/journal.py], [epoch/lineage.py] and [tournament/records.py] that put the outcome
    of a committed round over the stored record are here too. *)
From S2P Require Import Prelude PyFloat PyText PyJson CoreTypes Params Records Configuration Journal Lineage Strategy FieldRecord.

Definition SETTLEMENT_INTENT_FORMAT_VERSION : Z := 3.

Definition _HOOK_DELIVERY_STATES : list string :=
  ["not_applicable"; "pending"; "succeeded"; "failed"; "delivery_unknown"].
Definition _INDEX_PROJECTION_STATES : list string :=
  ["pending"; "succeeded"; "repair_required"; "repaired"].

(** ** Candidates *)

Record SettlementCandidate := {
  sc_experiment_id : string;
  sc_generation_id : string;
  sc_created_at : string;
  sc_parent_scalar : option Numeric;
  sc_child_scalar : option Numeric;
  sc_outcome_json : Json;
  sc_json : option (list (string * Json));
}.

(** [from_outcome] *)
Definition candidate_from_outcome (experiment_id gid created_at : string)
    (parent_scalar child_scalar : option Numeric) (outcome : OutcomeRecord)
    : result SettlementCandidate :=
  try encoded <- detach (JObj (outcome_body outcome));
  Ok {| sc_experiment_id := experiment_id; sc_generation_id := gid; sc_created_at := created_at;
        sc_parent_scalar := parent_scalar; sc_child_scalar := child_scalar;
        sc_outcome_json := encoded; sc_json := None |}.

Definition candidate_fields (c : SettlementCandidate) : list (string * Json) :=
  [("experiment_id", JStr (sc_experiment_id c)); ("generation_id", JStr (sc_generation_id c));
   ("created_at", JStr (sc_created_at c)); ("parent_scalar", jopt numeric_json (sc_parent_scalar c));
   ("child_scalar", jopt numeric_json (sc_child_scalar c)); ("outcome", sc_outcome_json c)].

Definition candidate_to_dict (c : SettlementCandidate) : list (string * Json) :=
  match sc_json c with
  | None => candidate_fields c
  | Some body =>
      dict_update body
        (List.filter (fun f => dict_mem body f.1 || negb (is_absent absent_none f.2)) (candidate_fields c))
  end.

(** [candidate.outcome] *)
Definition candidate_outcome (c : SettlementCandidate) : result OutcomeRecord :=
  outcome_from_dict (sc_outcome_json c).

(** ** Receipts *)

Record PromotionHook := { ph_state : string; ph_adapter_name : string; ph_failure_type : string }.
Record IndexProjection := { ip_state : string; ip_error_type : string }.

Record SettlementReceipt := {
  sr_epoch_id : string;
  sr_round_index : Z;
  sr_settlement_id : string;
  sr_state : string;
  sr_primary_id : option string;
  sr_candidates : list SettlementCandidate;
  sr_promotion_hook : PromotionHook;
  sr_index_projection : IndexProjection;
  sr_json : list (string * Json);
}.

Definition first_challenger_id (r : SettlementReceipt) : string :=
  from_option sc_generation_id "" (head (sr_candidates r)).

Definition hook_fields (h : PromotionHook) : list (string * Json) :=
  [("state", JStr (ph_state h)); ("adapter_name", JStr (ph_adapter_name h));
   ("failure_type", JStr (ph_failure_type h))].

Definition projection_fields (p : IndexProjection) : list (string * Json) :=
  [("state", JStr (ip_state p)); ("error_type", JStr (ip_error_type p))].

(** [body[key].update(fields)] *)
Definition update_in (key : string) (fields : list (string * Json)) (body : list (string * Json))
    : list (string * Json) :=
  dict_set body key (JObj (dict_update (obj (get_none body key)) fields)).

Definition receipt_to_dict (r : SettlementReceipt) : list (string * Json) :=
  let body := dict_update (sr_json r)
    [("epoch_id", JStr (sr_epoch_id r)); ("round_index", JInt (sr_round_index r));
     ("settlement_id", JStr (sr_settlement_id r)); ("state", JStr (sr_state r));
     ("candidates", JArr ((fun c => JObj (candidate_to_dict c)) <$> sr_candidates r))] in
  let body := restate body ("primary_promoted_generation_id", absent_none, jopt JStr (sr_primary_id r)) in
  let body := update_in "promotion_hook" (hook_fields (sr_promotion_hook r)) body in
  update_in "index_projection" (projection_fields (sr_index_projection r)) body.

(** [self.to_dict().get("field_tournament_record")] *)
Definition receipt_field_record (r : SettlementReceipt) : option (list (string * Json)) :=
  match get_none (receipt_to_dict r) "field_tournament_record" with JObj d => Some d | _ => None end.

Definition progress_keys : list string := ["state"; "index_projection"; "promotion_hook"].

Definition progress_key (key : string) : bool := bool_decide (key ∈ progress_keys).

Definition immutable_facts (r : SettlementReceipt) : list (string * Json) :=
  List.filter (fun kv => negb (progress_key kv.1)) (receipt_to_dict r).

(** ** Decoding *)

Definition refuse_receipt {A} (what : string) : result A :=
  Raise (RecordError ("field settlement receipt " +:+ what)).

Definition require_receipt {A} (what : string) (o : option A) : result A :=
  match o with Some a => Ok a | None => refuse_receipt what end.

Definition _required_string (d : list (string * Json)) (key : string) : result string :=
  require_receipt (key +:+ " must be a non-empty string") (as_nonempty (get_none d key)).

Definition _required_int (d : list (string * Json)) (key : string) : result Z :=
  match get_none d key with
  | JInt z => if (z <? 0)%Z then refuse_receipt (key +:+ " must be a non-negative integer") else Ok z
  | _ => refuse_receipt (key +:+ " must be a non-negative integer")
  end.

Definition _validate_optional_number (v : Json) (name : string) : result (option Numeric) :=
  optional_number (RecordError ("field settlement receipt " +:+ name +:+ " must be finite or null")) v.

(** A text among some tokens. *)
Definition token_of (tokens : list string) (v : Json) : option string :=
  s ← as_text v; if bool_decide (s ∈ tokens) then Some s else None.

Definition decode_hook (v : Json) : result PromotionHook :=
  match v with
  | JObj d =>
      try state <- require_receipt "has invalid promotion_hook state"
                     (token_of _HOOK_DELIVERY_STATES (get_none d "state"));
      try adapter <- require_receipt "has invalid promotion_hook details" (as_text (get_none d "adapter_name"));
      try failure <- require_receipt "has invalid promotion_hook details" (as_text (get_none d "failure_type"));
      let named := negb (String.eqb adapter "") in
      let failed := negb (String.eqb failure "") in
      if String.eqb state "not_applicable" && (named || failed)
      then refuse_receipt "has premature promotion_hook details"
      else if bool_decide (state ∈ ["pending"; "succeeded"; "delivery_unknown"]) && (negb named || failed)
      then refuse_receipt "has inconsistent promotion_hook result"
      else if String.eqb state "failed" && (negb named || negb failed)
      then refuse_receipt "has incomplete promotion_hook failure"
      else Ok {| ph_state := state; ph_adapter_name := adapter; ph_failure_type := failure |}
  | _ => refuse_receipt "has invalid promotion_hook state"
  end.

Definition decode_projection (v : Json) : result IndexProjection :=
  match v with
  | JObj d =>
      try state <- require_receipt "has invalid index_projection state"
                     (token_of _INDEX_PROJECTION_STATES (get_none d "state"));
      try error <- require_receipt "has invalid index_projection state" (as_text (get_none d "error_type"));
      ensure Bool.eqb (bool_decide (state ∈ ["repair_required"; "repaired"])) (negb (String.eqb error ""))
        orelse RecordError "field settlement receipt has inconsistent index_projection result";
      Ok {| ip_state := state; ip_error_type := error |}
  | _ => refuse_receipt "has invalid index_projection state"
  end.

(** What the loop over the candidates gathers: those accepted with their outcomes, in
    order, and the structure they name ([""] before the first). *)
Record Gathered := {
  ga_candidates : list (SettlementCandidate * OutcomeRecord);
  ga_structure : string;
}.

Definition ga_ids (g : Gathered) : list string := (fun c => sc_generation_id c.1) <$> ga_candidates g.

Definition was_promoted (o : OutcomeRecord) : bool := bool_decide (tournament_decision o = Some PROMOTED).
Definition was_deferred (o : OutcomeRecord) : bool := bool_decide (tournament_decision o = Some DEFERRED).

Definition ga_promoted (g : Gathered) : list string :=
  (fun c => sc_generation_id c.1) <$> List.filter (fun c => was_promoted c.2) (ga_candidates g).

Section Receipts.
Context `{PyRepr}.

Definition gather_candidate (g : Gathered) (v : Json) : result Gathered :=
  match v with
  | JObj raw =>
      match get_none raw "outcome" with
      | JObj _ as outcome_value =>
          try experiment <- _required_string raw "experiment_id";
          try gid <- _required_string raw "generation_id";
          ensure negb (bool_decide (gid ∈ ga_ids g))
            orelse RecordError ("field settlement receipt contains duplicate generation "
                                +:+ py_repr (JStr gid));
          try created <- _required_string raw "created_at";
          try parent <- _validate_optional_number (get_none raw "parent_scalar") "parent_scalar";
          try child <- _validate_optional_number (get_none raw "child_scalar") "child_scalar";
          try outcome <- outcome_from_dict outcome_value;
          ensure String.eqb (ga_structure g) "" || String.eqb (outcome_structure outcome) (ga_structure g)
            orelse RecordError ("field settlement candidate " +:+ py_repr (JStr gid)
                     +:+ " names structure " +:+ py_repr (JStr (outcome_structure outcome))
                     +:+ ", expected " +:+ py_repr (JStr (ga_structure g)));
          Ok {| ga_candidates := ga_candidates g ++
                  [({| sc_experiment_id := experiment; sc_generation_id := gid;
                       sc_created_at := created; sc_parent_scalar := parent;
                       sc_child_scalar := child; sc_outcome_json := outcome_value;
                       sc_json := Some raw |}, outcome)];
                ga_structure := outcome_structure outcome |}
      | _ => refuse_receipt "contains an invalid candidate record"
      end
  | _ => refuse_receipt "contains an invalid candidate record"
  end.

(** One recorded rule, and its id. *)
Definition recorded_rule_id (v : Json) : option string :=
  match v with
  | JObj rule =>
      i ← as_text (get_none rule "id");
      _ ← as_text (get_none rule "label");
      _ ← as_text (get_none rule "status");
      _ ← as_text (get_none rule "detail");
      match get_none rule "fired" with JBool _ => Some i | _ => None end
  | _ => None
  end.

Definition gate_numbers : list string :=
  ["champion_scalar"; "challenger_scalar"; "delta_scalar"; "delta_pass_rate"; "margin"].

Definition refuse_gate {A} (what : string) : result A := Raise (RecordError ("round gate result " +:+ what)).

Definition is_obj (v : Json) : bool := match v with JObj _ => true | _ => false end.

Definition check_gate (v : Json) : result unit :=
  match v with
  | JObj gate =>
      try _ <- _required_string gate "champion";
      try _ <- _required_string gate "challenger";
      try _ <- match token_of ["promoted"; "rejected"; "deferred"] (get_none gate "decision"),
                     as_text (get_none gate "reason") with
               | Some _, Some _ => Ok tt
               | _, _ => refuse_gate "requires a decision and reason"
               end;
      ensure is_obj (get_none gate "parent_aggregate") && is_obj (get_none gate "child_aggregate")
        orelse RecordError "round gate result requires both compared aggregates";
      try _ <- result_map (fun key => _validate_optional_number (get_none gate key) key) gate_numbers;
      match (match get_none gate "rules" with JArr items => mapM recorded_rule_id items | _ => None end) with
      | None => refuse_gate "requires recorded rule details"
      | Some ids =>
          match get_none gate "deciding_rule" with
          | JNull => Ok tt
          | JStr s => if bool_decide (s ∈ ids) then Ok tt
                      else refuse_gate "names an unrecorded deciding rule"
          | JArr _ | JObj _ => Raise (TypeError "unhashable type")
          | _ => refuse_gate "names an unrecorded deciding rule"
          end
      end
  | _ => refuse_gate "must be an object"
  end.

Definition check_gates (d : list (string * Json)) : result unit :=
  match dict_get_or d "gate_results" (JArr []) with
  | JArr gates => try _ <- result_map check_gate gates; Ok tt
  | _ => Raise (RecordError "round gate_results must be an array")
  end.

Definition is_hex (c : Ascii.ascii) : bool :=
  let n := Ascii.nat_of_ascii c in ((48 <=? n) && (n <=? 57)) || ((97 <=? n) && (n <=? 102)).

(** The decision of the round, from its outcomes. *)
Definition receipt_decision (g : Gathered) : string :=
  match ga_promoted g with
  | _ :: _ => "promoted"
  | [] => if existsb (fun c => was_deferred c.2) (ga_candidates g) then "deferred" else "rejected"
  end.

Definition receipt_state (d : list (string * Json)) : result string :=
  match token_of ["pending"; "committed"] (get_none d "state") with
  | Some s => Ok s
  | None => refuse_receipt ("has invalid state " +:+ py_repr (get_none d "state"))
  end.

Definition recorded_primary (d : list (string * Json)) : result (option string) :=
  match get_none d "primary_promoted_generation_id" with
  | JNull => Ok None
  | v => match as_nonempty v with
         | Some s => Ok (Some s)
         | None => refuse_receipt "primary_promoted_generation_id must be a non-empty string or null"
         end
  end.

(** The identity of the round: its format, epoch, round, state and recorded primary. *)
Definition check_identity (expected_epoch_id : option string) (expected_round_index : option Z)
    (d : list (string * Json)) : result (string * Z * string * option string) :=
  try _ <- check_record_format d "field settlement receipt" SETTLEMENT_INTENT_FORMAT_VERSION;
  try epoch_id <- _required_string d "epoch_id";
  try round <- _required_int d "round_index";
  ensure match expected_epoch_id with Some e => String.eqb epoch_id e | None => true end
    orelse RecordError ("field settlement receipt names epoch " +:+ py_repr (JStr epoch_id)
             +:+ " inside " +:+ py_repr (jopt JStr expected_epoch_id));
  ensure match expected_round_index with Some r => (round =? r)%Z | None => true end
    orelse RecordError ("field settlement receipt names round " +:+ pretty round
             +:+ " inside round " +:+ from_option pretty "" expected_round_index);
  try state <- receipt_state d;
  try primary <- recorded_primary d;
  Ok (epoch_id, round, state, primary).

Definition gather_candidates (d : list (string * Json)) : result Gathered :=
  match get_none d "candidates" with
  | JArr ((_ :: _) as raws) =>
      result_foldl gather_candidate {| ga_candidates := []; ga_structure := "" |} raws
  | _ => refuse_receipt "has no candidate list"
  end.

Definition detach_candidate (c : SettlementCandidate) : result SettlementCandidate :=
  try _ <- detach (sc_outcome_json c);
  try _ <- detach_obj (from_option id [] (sc_json c));
  Ok c.

Definition decode_settlement_receipt (expected_epoch_id : option string)
    (expected_round_index : option Z) (v : Json) : result SettlementReceipt :=
  match v with
  | JObj d =>
      try identity <- check_identity expected_epoch_id expected_round_index d;
      let '(epoch_id, round, state, recorded_primary) := identity in
      try settlement_id <- _required_string d "settlement_id";
      try hook <- decode_hook (get_none d "promotion_hook");
      try projection <- decode_projection (get_none d "index_projection");
      try g <- gather_candidates d;
      try _ <- check_gates d;
      ensure (String.length settlement_id =? 32) && str_forallb is_hex settlement_id
        orelse RecordError "field settlement receipt has inconsistent round identity";
      let raw_field := get_none d "field_tournament_record" in
      let parent_id := match raw_field with
                       | JObj f => from_option id "" (as_text (get_none f "champion_generation_id"))
                       | _ => ""
                       end in
      try field <- validate_settlement_field_record raw_field epoch_id
                     (from_option id "" (head (ga_ids g))) parent_id (ga_ids g) (ga_promoted g)
                     (ga_structure g) (receipt_decision g);
      ensure bool_decide (field.2 = recorded_primary)
        orelse RecordError "field settlement receipt primary champion conflicts with its tournament record";
      try candidates <- result_map detach_candidate (ga_candidates g).*1;
      try body <- detach_obj d;
      Ok {| sr_epoch_id := epoch_id; sr_round_index := round; sr_settlement_id := settlement_id;
            sr_state := state; sr_primary_id := field.2; sr_candidates := candidates;
            sr_promotion_hook := hook; sr_index_projection := projection; sr_json := body |}
  | _ => refuse_receipt "must contain a JSON object"
  end.

Definition new_receipt_body (settlement_id epoch_id : string) (round_index : Z)
    (primary_id : option string) (candidates : list SettlementCandidate)
    (field_record : option (list (string * Json))) (hook_adapter_name : string)
    : list (string * Json) :=
  [("format_version", JInt SETTLEMENT_INTENT_FORMAT_VERSION); ("state", JStr "pending");
   ("settlement_id", JStr settlement_id); ("epoch_id", JStr epoch_id);
   ("round_index", JInt round_index);
   ("primary_promoted_generation_id", jopt JStr primary_id);
   ("candidates", JArr ((fun c => JObj (candidate_to_dict c)) <$> candidates));
   ("field_tournament_record", jopt JObj field_record);
   ("index_projection", JObj [("state", JStr "pending"); ("error_type", JStr "")]);
   ("promotion_hook",
     JObj [("state", JStr (if String.eqb hook_adapter_name "" then "not_applicable" else "pending"));
           ("adapter_name", JStr hook_adapter_name); ("failure_type", JStr "")])].

Definition new_settlement_receipt (settlement_id epoch_id : string) (round_index : Z)
    (primary_id : option string) (candidates : list SettlementCandidate)
    (field_record : option (list (string * Json))) (hook_adapter_name : string)
    : result SettlementReceipt :=
  decode_settlement_receipt None None
    (JObj (new_receipt_body settlement_id epoch_id round_index primary_id candidates field_record
             hook_adapter_name)).

(** ** The store *)

Definition round_dirs (ws : Workspace) (epoch_id : string) : list (string * option FileText) :=
  dict_get_or (ws_rounds ws) epoch_id [].

Definition field_settlement_intent_key (epoch_id : string) (round_index : Z) : string :=
  "epochs/" +:+ epoch_id +:+ "/rounds/" +:+ pretty round_index +:+ "/field_settlement.json".

(** The text at a receipt's key, as JSON. *)
Definition receipt_text (ws : Workspace) (epoch_id : string) (round_index : Z) : option FileText :=
  dict_get (round_dirs ws epoch_id) (pretty round_index) ≫= id.

(** [except (OSError, ValueError, RuntimeError)] *)
Definition receipt_refusal {A} (key : string) (r : result A) : result A :=
  match r with
  | Raise (ValueError _ as e) | Raise (RecordError _ as e) | Raise (RuntimeError _ as e)
  | Raise (ConfigurationError _ _ _ as e) =>
      Raise (RecordError ("field settlement receipt " +:+ key +:+ ": " +:+ exn_text e))
  | _ => r
  end.

Definition read_settlement_receipt (epoch_id : string) (round_index : Z) (ws : Workspace)
    : result (option SettlementReceipt) :=
  receipt_refusal (field_settlement_intent_key epoch_id round_index)
    match receipt_text ws epoch_id round_index with
    | None => Ok None
    | Some None => Raise (ValueError "not a JSON document")
    | Some (Some v) =>
        try r <- decode_settlement_receipt (Some epoch_id) (Some round_index) v; Ok (Some r)
    end.

Definition put_receipt (epoch_id : string) (round_index : Z) (v : Json) : Wop unit :=
  wop_write (fun ws => {|
    ws_lineage := ws_lineage ws; ws_experiments := ws_experiments ws; ws_patches := ws_patches ws;
    ws_tournaments := ws_tournaments ws;
    ws_rounds := dict_set (ws_rounds ws) epoch_id
                   (dict_set (round_dirs ws epoch_id) (pretty round_index) (Some (Some v)));
    ws_revisions := ws_revisions ws; ws_hooks := ws_hooks ws |}).

Definition write_settlement_receipt (r : SettlementReceipt) : Wop unit :=
  perform r <- wop_ret (decode_settlement_receipt None None (JObj (receipt_to_dict r)));
  put_receipt (sr_epoch_id r) (sr_round_index r) (JObj (receipt_to_dict r)).

(** The round directories of an epoch in their order, with the round each encodes. *)
Definition round_namespace_key (tail : string) : Z :=
  match str_span is_digit tail with
  | (String _ _ as digits, "") => from_option Z.of_N 0%Z (int_digits false 0 digits)
  | _ => (2 ^ 31 - 1)%Z
  end.

Definition round_namespace_lt (a b : string) : bool :=
  if (round_namespace_key a =? round_namespace_key b)%Z then str_lt a b
  else (round_namespace_key a <? round_namespace_key b)%Z.

Definition namespace_round (tail : string) : result Z :=
  match str_span is_digit tail with
  | (String _ _, "") =>
      if String.eqb (pretty (round_namespace_key tail)) tail then Ok (round_namespace_key tail)
      else refuse_receipt ("has invalid round namespace " +:+ py_repr (JStr tail))
  | _ => refuse_receipt ("has invalid round namespace " +:+ py_repr (JStr tail))
  end.

Definition is_directory_name (epoch_id : string) : bool :=
  negb (String.eqb epoch_id "")
  && str_forallb (fun c => negb (Ascii.eqb c (Ascii.ascii_of_nat 47))) epoch_id.

(** The epochs a scan visits: the one asked for, or all of them. *)
Definition scanned_epochs (epoch_id : option string) (ws : Workspace) : list string :=
  match epoch_id with
  | Some e => if String.eqb e "" then sorted_strings (ws_rounds ws).*1
              else if is_directory_name e then [e] else []
  | None => sorted_strings (ws_rounds ws).*1
  end.

Definition _stored_receipt_locations (epoch_id : option string) (ws : Workspace)
    : list (string * result Z) :=
  e ← scanned_epochs epoch_id ws;
  (fun tail => (e, namespace_round tail)) <$> py_sorted round_namespace_lt (round_dirs ws e).*1.

(** The generator, as what each step yields: a receipt, or an exception that ends it. *)
Definition iter_settlement_receipts (epoch_id : option string) (ws : Workspace)
    : list (result SettlementReceipt) :=
  loc ← _stored_receipt_locations epoch_id ws;
  match loc.2 with
  | Raise e => [Raise e]
  | Ok round =>
      match read_settlement_receipt loc.1 round ws with
      | Ok None => []
      | Ok (Some r) => [Ok r]
      | Raise e => [Raise e]
      end
  end.

(** A generator consumed to its end. *)
Definition all_receipts (epoch_id : option string) (ws : Workspace) : result (list SettlementReceipt) :=
  result_map id (iter_settlement_receipts epoch_id ws).

Definition is_committed (r : SettlementReceipt) : bool := String.eqb (sr_state r) "committed".
Definition is_pending (r : SettlementReceipt) : bool := String.eqb (sr_state r) "pending".

(** ** Records under a committed round *)

(** The outcome of a candidate of the committed round, which replaces the stored one. *)
Definition overlaid_outcome (epoch_id gid : string) (f : ExperimentFields) (ws : Workspace)
    (stored : Json) : result Json :=
  match receipt_text ws epoch_id (ef_round_index f) with
  | None | Some (Some JNull) => Ok stored
  | Some None =>
      Raise (RecordError ("round result for " +:+ epoch_id +:+ "/" +:+ gid +:+ " cannot be read"))
  | Some (Some v) =>
      try r <- decode_settlement_receipt (Some epoch_id) (Some (ef_round_index f)) v;
      if is_committed r then
        match find_first (fun c => String.eqb (sc_generation_id c) gid) (sr_candidates r) with
        | Some c =>
            ensure String.eqb (sc_experiment_id c) (ef_id f)
              orelse RecordError "round result names a different experiment";
            Ok (get_none (candidate_to_dict c) "outcome")
        | None => Ok stored
        end
      else Ok stored
  end.

(** The fields of the stored body and its outcome; [None] when there is no record. *)
Definition _accepted_body (epoch_id gid : string) (ws : Workspace)
    : result (option (ExperimentFields * Json)) :=
  let location := "experiment.json for " +:+ epoch_id +:+ "/" +:+ gid in
  match dict_get (ws_experiments ws) (epoch_id, gid) with
  | None | Some (Some JNull) => Ok None
  | Some None => Raise (RecordError (location +:+ " is not valid JSON"))
  | Some (Some (JObj d)) =>
      try _ <- check_record_format d location RECORD_FORMAT_VERSION;
      ensure negb (dict_mem d "patches")
        orelse RecordError (location +:+ " carries an inline 'patches' array");
      try f <- refused_as (location +:+ " does not parse: ") (body_fields epoch_id gid d);
      try outcome_value <- overlaid_outcome epoch_id gid f ws (get_none d "outcome");
      Ok (Some (f, outcome_value))
  | Some (Some _) => Raise (RecordError (location +:+ " is not a JSON object"))
  end.

Definition read_experiment (epoch_id gid : string) (ws : Workspace) : result Experiment :=
  try body <- _accepted_body epoch_id gid ws;
  match body with
  | None => Raise (OtherException "FileNotFoundError")
  | Some (f, outcome_value) => _experiment_from_body ws epoch_id gid f outcome_value
  end.

Definition read_experiment_if_present (epoch_id gid : string) (ws : Workspace)
    : result (option Experiment) :=
  match read_experiment epoch_id gid ws with
  | Ok e => Ok (Some e)
  | Raise (OtherException "FileNotFoundError") => Ok None
  | Raise e => Raise e
  end.

(** [update_experiment_outcome] *)
Definition with_outcome (e : Experiment) (o : OutcomeRecord) : Experiment := {|
  experiment_id := experiment_id e; exp_epoch_id := exp_epoch_id e;
  exp_generation_id := exp_generation_id e; parent_generation_id := parent_generation_id e;
  proposed_at := proposed_at e; hypothesis := hypothesis e; patches := patches e;
  exp_outcome := Some o; round_index := round_index e; recombined_from := recombined_from e |}.

Definition update_experiment_outcome (epoch_id gid : string) (o : OutcomeRecord) : Wop Experiment :=
  perform e <- wop_read (read_experiment epoch_id gid);
  perform _ <- write_experiment epoch_id gid (with_outcome e o);
  wop_ret (Ok (with_outcome e o)).

(** [read_field_tournament_record]; an experiment whose round is no integer has no result. *)
Definition read_field_tournament_record (epoch_id first_id : string) (ws : Workspace)
    : result FieldTournamentRecord :=
  let refusal (r : result FieldTournamentRecord) : result FieldTournamentRecord :=
    match r with
    | Raise (ValueError _ as e) | Raise (RecordError _ as e) | Raise (RuntimeError _ as e)
    | Raise (ConfigurationError _ _ _ as e) =>
        Raise (RecordError ("field tournament record field-" +:+ first_id +:+ ".json: " +:+ exn_text e))
    | _ => r
    end in
  match dict_get (ws_tournaments ws) (epoch_id, first_id) with
  | None => Raise (OtherException "FileNotFoundError")
  | Some None => refusal (Raise (ValueError "not a JSON document"))
  | Some (Some v) =>
      refusal
        (try r <- decode_field_tournament_record v;
         match dict_get (ws_experiments ws) (ft_epoch_id r, first_id) with
         | None | Some (Some JNull) => Ok r
         | Some None => Raise (ValueError "not a JSON document")
         | Some (Some (JObj d)) =>
             try round <- item d "round_index";
             match round with
             | JInt z =>
                 try receipt <- read_settlement_receipt (ft_epoch_id r) z ws;
                 match receipt with
                 | Some receipt =>
                     match is_committed receipt, receipt_field_record receipt with
                     | true, Some f =>
                         try settled <- decode_field_tournament_record (JObj f);
                         ensure String.eqb (ft_tournament_id settled) (ft_tournament_id r)
                           orelse RecordError "round result names a different tournament";
                         Ok settled
                     | _, _ => Ok r
                     end
                 | None => Ok r
                 end
             | _ => Ok r
             end
         | Some (Some _) => Raise (TypeError "experiment.json is not a JSON object")
         end)
  end.

(** [field_tournament_records]: the settled structures of the committed rounds, then the
    tournaments in progress, by tournament id in the order first seen. *)
Definition settled_record (records : list (string * FieldTournamentRecord))
    (r : result SettlementReceipt) : result (list (string * FieldTournamentRecord)) :=
  try r <- r;
  match is_committed r, receipt_field_record r with
  | true, Some f =>
      try t <- decode_field_tournament_record (JObj f); Ok (dict_set records (ft_tournament_id t) t)
  | _, _ => Ok records
  end.

Definition tournament_file (first_id : string) : string := "field-" +:+ first_id +:+ ".json".

Definition field_tournament_records (epoch_id : string) (ws : Workspace)
    : result (list FieldTournamentRecord) :=
  try settled <- result_foldl settled_record [] (iter_settlement_receipts (Some epoch_id) ws);
  let first_ids := omap (fun kv => if String.eqb kv.1.1 epoch_id then Some kv.1.2 else None)
                     (ws_tournaments ws) in
  try records <- result_foldl
    (fun records first_id =>
       if dict_mem records (epoch_id +:+ ":field:" +:+ first_id) then Ok records
       else try t <- read_field_tournament_record epoch_id first_id ws;
            Ok (dict_set records (ft_tournament_id t) t))
    settled (py_sorted (fun a b => str_lt (tournament_file a) (tournament_file b)) first_ids);
  Ok records.*2.

Definition put_tournament (epoch_id first_id : string) (v : Json) : Wop unit :=
  wop_write (fun ws => {|
    ws_lineage := ws_lineage ws; ws_experiments := ws_experiments ws; ws_patches := ws_patches ws;
    ws_tournaments := dict_set (ws_tournaments ws) (epoch_id, first_id) (Some v);
    ws_rounds := ws_rounds ws; ws_revisions := ws_revisions ws; ws_hooks := ws_hooks ws |}).

Definition write_field_tournament_record (epoch_id first_id : string) (r : FieldTournamentRecord)
    : Wop unit :=
  perform r <- wop_ret (decode_field_tournament_record (JObj (field_to_dict r)));
  perform _ <- wop_ret
    (ensure String.eqb (ft_epoch_id r) epoch_id
            && String.eqb (ft_tournament_id r) (epoch_id +:+ ":field:" +:+ first_id)
       orelse RecordError "field tournament record conflicts with its storage namespace"; Ok tt);
  put_tournament epoch_id first_id (JObj (field_to_dict r)).

Definition numeric_float (n : Numeric) : float :=
  match n with num_int z => float_of_Z z | num_float x => x end.

(** [child - parent] *)
Definition numeric_sub (a b : Numeric) : Numeric :=
  match a, b with
  | num_int x, num_int y => num_int (x - y)%Z
  | _, _ => num_float (fsub (numeric_float a) (numeric_float b))
  end.

Definition settled_facts (c : SettlementCandidate) (o : OutcomeRecord) : list (string * Json) :=
  [("promoted", JBool (was_promoted o)); ("rejection_reason", JStr (rejection_reason o));
   ("parent_scalar", jopt numeric_json (sc_parent_scalar c));
   ("child_scalar", jopt numeric_json (sc_child_scalar c));
   ("delta_scalar", jopt numeric_json
     (child ← sc_child_scalar c; parent ← sc_parent_scalar c; Some (numeric_sub child parent)))].

Definition overlay_candidate (round : Z) (rows : list Json) (c : SettlementCandidate)
    : result (list Json) :=
  match find_first (has_id (sc_generation_id c)) rows with
  | None => Raise (RecordError "round result names a candidate absent from ancestry")
  | Some row =>
      ensure json_eq (get_none (obj row) "round_index") (JInt round)
        orelse RecordError "round result disagrees with candidate birth round";
      try o <- candidate_outcome c;
      Ok (edit_first (sc_generation_id c) (fun row => dict_update row (settled_facts c o)) rows)
  end.

Definition overlay_receipt (rows : list Json) (r : result SettlementReceipt) : result (list Json) :=
  try r <- r;
  if is_committed r then result_foldl (overlay_candidate (sr_round_index r)) rows (sr_candidates r)
  else Ok rows.

(** The generations of an epoch under its committed rounds. *)
Definition overlay_epoch (ws : Workspace) (entry : Json) : result Json :=
  let d := obj entry in
  try rows <- result_foldl overlay_receipt (arr (get_none d "generations"))
                (iter_settlement_receipts (Some (row_id entry)) ws);
  Ok (JObj (dict_set d "generations" (JArr rows))).

Definition no_lineage : Lineage := {|
  ln_epochs := []; ln_json := [("epochs", JArr [])]; ln_exists := false |}.

Definition load_lineage (ws : Workspace) : result Lineage :=
  match ws_lineage ws with
  | None => Ok no_lineage
  | Some _ =>
      try raw <- _load_raw ws;
      try entries <- result_map (overlay_epoch ws) (raw_epochs raw);
      decode_lineage (JObj (set_epochs raw entries))
  end.

(** ** Consistency *)

Definition refuse_settlement_facts {A} (what : string) : result A := Raise (RecordError what).

Definition outcome_eq (a b : OutcomeRecord) : bool :=
  json_eq (JObj (outcome_body a)) (JObj (outcome_body b)).

(** One candidate and its experiment: the parent generation. *)
Definition check_experiment (r : SettlementReceipt) (pair : SettlementCandidate * Experiment)
    : result string :=
  let '(c, e) := pair in
  let name := "field settlement candidate " +:+ py_repr (JStr (sc_generation_id c)) in
  ensure String.eqb (experiment_id e) (sc_experiment_id c) && String.eqb (exp_epoch_id e) (sr_epoch_id r)
         && String.eqb (exp_generation_id e) (sc_generation_id c) && (round_index e =? sr_round_index r)%Z
    orelse RecordError (name +:+ " does not match its experiment");
  try o <- candidate_outcome c;
  ensure negb (is_pending r && match exp_outcome e with Some stored => negb (outcome_eq stored o) | None => false end)
    orelse RecordError (name +:+ " already has a different outcome");
  match parent_generation_id e with
  | Some p => if String.eqb p "" then refuse_settlement_facts (name +:+ " has no parent generation") else Ok p
  | None => refuse_settlement_facts (name +:+ " has no parent generation")
  end.

Definition validate_settlement_experiments (r : SettlementReceipt) (experiments : list Experiment)
    : result string :=
  ensure length experiments =? length (sr_candidates r)
    orelse RecordError "field settlement lacks candidate experiments";
  try parents <- result_map (check_experiment r) (zip (sr_candidates r) experiments);
  match remove_dups parents with
  | [parent_id] =>
      match receipt_field_record r with
      | Some f =>
          ensure bool_decide (as_text (get_none f "champion_generation_id") = Some parent_id)
            orelse RecordError "field settlement tournament record names a different incumbent";
          Ok parent_id
      | None => Ok parent_id
      end
  | _ => refuse_settlement_facts "field settlement candidates do not share one parent generation"
  end.

Definition shared_field_keys : list string :=
  ["tournament_id"; "epoch_id"; "structure"; "structure_params"; "competitors";
   "champion_generation_id"].

Definition _validate_existing_field_record (existing : option FieldTournamentRecord)
    (expected : option (list (string * Json))) : result unit :=
  match expected, existing with
  | Some expected, Some existing =>
      let raw := field_to_dict existing in
      if String.eqb (ft_state existing) "settled" then
        ensure json_eq (JObj raw) (JObj expected)
          orelse RecordError "existing settled field settlement tournament conflicts with its receipt";
        Ok tt
      else
        match find_first (fun key => negb (json_eq (get_none raw key) (get_none expected key)))
                shared_field_keys with
        | Some key => refuse_settlement_facts
            ("existing in-progress field tournament conflicts on " +:+ key
             +:+ " (field settlement tournament record)")
        | None => Ok tt
        end
  | _, _ => Ok tt
  end.

Definition check_lineage_row (r : SettlementReceipt) (parent_id : string) (epoch : LineageEpoch)
    (c : SettlementCandidate) : result unit :=
  let gid := sc_generation_id c in
  match lineage_generation epoch gid with
  | None => refuse_settlement_facts ("lineage lacks settlement generation " +:+ py_repr (JStr gid))
  | Some g =>
      let conflict key := refuse_settlement_facts
        ("lineage generation " +:+ py_repr (JStr gid) +:+ " conflicts on " +:+ key) in
      if negb (bool_decide (lg_parent_id g = Some parent_id)) then conflict "parent_id"
      else if negb (String.eqb (lg_created_at g) (sc_created_at c)) then conflict "created_at"
      else if negb (bool_decide (lg_round_index g = Some (sr_round_index r))) then conflict "round_index"
      else Ok tt
  end.

Definition validate_settlement_records (r : SettlementReceipt) (experiments : list Experiment)
    (lineage : Lineage) (field_record : option FieldTournamentRecord)
    (current_generation : option string) : result string :=
  try parent_id <- validate_settlement_experiments r experiments;
  try _ <- _validate_existing_field_record field_record (receipt_field_record r);
  match lineage_epoch lineage (sr_epoch_id r) with
  | None => refuse_settlement_facts ("lineage lacks epoch " +:+ py_repr (JStr (sr_epoch_id r)))
  | Some epoch =>
      try _ <- result_map (check_lineage_row r parent_id epoch) (sr_candidates r);
      match is_pending r, sr_primary_id r, current_generation with
      | true, Some primary, Some current =>
          ensure String.eqb current parent_id || String.eqb current primary
            orelse RecordError ("field settlement cannot replace current_generation "
                     +:+ py_repr (JStr current) +:+ "; expected " +:+ py_repr (JStr parent_id)
                     +:+ " or " +:+ py_repr (JStr primary));
          Ok parent_id
      | _, _, _ => Ok parent_id
      end
  end.

(** The primary of the last committed round before one; the scan stops at the round. *)
Fixpoint prior_marker (round : Z) (marker : option string) (receipts : list (result SettlementReceipt))
    : result (option string) :=
  match receipts with
  | [] => Ok marker
  | Raise e :: _ => Raise e
  | Ok prior :: receipts =>
      if (round <=? sr_round_index prior)%Z then Ok marker
      else prior_marker round
             (match is_committed prior, sr_primary_id prior with
              | true, Some p => Some p
              | _, _ => marker
              end) receipts
  end.

Definition existing_field_record (r : SettlementReceipt) (ws : Workspace)
    : result (option FieldTournamentRecord) :=
  match is_pending r, receipt_field_record r with
  | true, Some _ =>
      match read_field_tournament_record (sr_epoch_id r) (first_challenger_id r) ws with
      | Ok f => Ok (Some f)
      | Raise (OtherException "FileNotFoundError") => Ok None
      | Raise e => Raise e
      end
  | _, _ => Ok None
  end.

Definition current_marker (r : SettlementReceipt) (ws : Workspace) : result (option string) :=
  match is_pending r, sr_primary_id r with
  | true, Some _ =>
      prior_marker (sr_round_index r) None (iter_settlement_receipts (Some (sr_epoch_id r)) ws)
  | _, _ => Ok None
  end.

(** The authorities of an accepted receipt. *)
Definition validate_accepted (r : SettlementReceipt) (ws : Workspace) : result string :=
  try experiments <- result_map (fun c => read_experiment (sr_epoch_id r) (sc_generation_id c) ws)
                       (sr_candidates r);
  try existing <- existing_field_record r ws;
  try marker <- current_marker r ws;
  try raw <- _load_raw ws;
  try lineage <- decode_lineage (JObj raw);
  validate_settlement_records r experiments lineage existing marker.

Definition validate_workspace_settlement (expected_epoch_id : option string)
    (expected_round_index : option Z) (intent : Json) (ws : Workspace)
    : result (SettlementReceipt * string) :=
  try r <- decode_settlement_receipt expected_epoch_id expected_round_index intent;
  try parent_id <- validate_accepted r ws;
  Ok (r, parent_id).

(** ** Readers of the whole store *)

Record Corruption := {
  rc_epoch_id : string;
  rc_storage_key : string;
  rc_exception : exn;
}.

Definition scan_location (ws : Workspace)
    (acc : list SettlementReceipt * list Corruption) (loc : string * Z)
    : list SettlementReceipt * list Corruption :=
  let '(epoch_id, round) := loc in
  match (try r <- read_settlement_receipt epoch_id round ws;
         match r with
         | None => Ok None
         | Some r =>
             try out <- validate_workspace_settlement (Some epoch_id) (Some round)
                          (JObj (receipt_to_dict r)) ws;
             Ok (Some out.1)
         end) with
  | Ok None => acc
  | Ok (Some r) => (acc.1 ++ [r], acc.2)
  | Raise e =>
      (acc.1, acc.2 ++ [{| rc_epoch_id := epoch_id;
                           rc_storage_key := field_settlement_intent_key epoch_id round;
                           rc_exception := e |}])
  end.

Definition scan_field_settlement_receipts (epoch_id : string) (ws : Workspace)
    : list SettlementReceipt * list Corruption :=
  match result_map (fun loc => try round <- loc.2; Ok (loc.1, round))
          (_stored_receipt_locations (Some epoch_id) ws) with
  | Raise e => ([], [{| rc_epoch_id := epoch_id; rc_storage_key := ""; rc_exception := e |}])
  | Ok locations => foldl (scan_location ws) ([], []) locations
  end.

(** The first receipt that needs a repair ends the scan. *)
Fixpoint repair_required_in (receipts : list (result SettlementReceipt)) : result bool :=
  match receipts with
  | [] => Ok false
  | Raise e :: _ => Raise e
  | Ok r :: receipts =>
      if is_committed r && String.eqb (ip_state (sr_index_projection r)) "repair_required" then Ok true
      else repair_required_in receipts
  end.

Definition settlement_index_repair_required (ws : Workspace) : result bool :=
  repair_required_in (iter_settlement_receipts None ws).

(** An epoch has a baseline when its [v0] is recorded. *)
Definition recorded_champions (epoch_id : string) (ws : Workspace) : result (list string) :=
  let baseline := if dict_mem (ws_experiments ws) (epoch_id, "v0") then ["v0"] else [] in
  try receipts <- all_receipts (Some epoch_id) ws;
  Ok (baseline ++ omap (fun r => if is_committed r then sr_primary_id r else None) receipts).

Definition recorded_champion (epoch_id : string) (ws : Workspace) : result (option string) :=
  try champions <- recorded_champions epoch_id ws;
  Ok (last champions).
End Receipts.
