(* ===== verification/ReceiptSpec.v ===== *)
(** Theorems about the records of a settled round: what an accepted record gives back, the
    outcomes a receipt carries, and the readers that put them over the stored records. *)
From S2P Require Import Prelude PyFloat PyText PyJson CoreTypes Params Records Configuration Journal Lineage Strategy FieldRecord Receipt.

(** Takes a chain of [try] apart. *)
Ltac peel H :=
  repeat (let a := fresh "a" in let Ha := fresh "Ha" in
          apply result_bind_ok in H as (a & Ha & H)).

Lemma if_ok {A} (b : bool) (r : result A) e a : (if b then r else Raise e) = Ok a <-> b = true /\ r = Ok a.
Proof. destruct b; naive_solver. Qed.

Lemma require_receipt_ok {A} what (o : option A) a : require_receipt what o = Ok a <-> o = Some a.
Proof. destruct o; cbn; naive_solver. Qed.

Lemma require_field_ok {A} what (o : option A) a : require_field what o = Ok a <-> o = Some a.
Proof. destruct o; cbn; naive_solver. Qed.

Lemma token_of_ok tokens v s : token_of tokens v = Some s -> v = JStr s /\ s ∈ tokens.
Proof. unfold token_of. destruct v; cbn; try done. case_bool_decide; naive_solver. Qed.

Lemma get_none_some d key v : get_none d key = v -> v <> JNull -> dict_get d key = Some v.
Proof. unfold get_none, dict_get_or. destruct (dict_get d key); cbn; congruence. Qed.

Lemma get_none_text d key s : get_none d key = JStr s -> dict_get d key = Some (JStr s).
Proof. intros H. by apply get_none_some. Qed.

(** ** The tournament record *)

Lemma field_state_text v s : field_state v = Some s -> v = JStr s.
Proof. unfold field_state. destruct v; cbn; try done. case_match; naive_solver. Qed.

Lemma decode_field_facts v r :
  decode_field_tournament_record v = Ok r ->
  exists d, v = JObj d /\ ft_json r = d
    /\ get_none d "tournament_id" = JStr (ft_tournament_id r)
    /\ get_none d "epoch_id" = JStr (ft_epoch_id r) /\ get_none d "state" = JStr (ft_state r)
    /\ get_none d "champion_generation_id" = JStr (ft_champion_generation_id r)
    /\ get_none d "promoted_generation_id" = JStr (ft_promoted_generation_id r)
    /\ json_finite v = true.
Proof.
  destruct v as [| | | | | |d]; try done. intros H. exists d. cbv beta iota delta [decode_field_tournament_record text_field rows_field] in H.
  peel H. rewrite detach_obj_ok in *. simplify_eq.
  repeat match goal with H : require_field _ _ = Ok _ |- _ => apply require_field_ok in H end.
  destruct_and!. simplify_eq. split_and!; try done; cbn.
  all: eauto using as_nonempty_text, as_text_text, field_state_text.
Qed.

Lemma field_lossless v r : decode_field_tournament_record v = Ok r -> JObj (field_to_dict r) = v.
Proof.
  intros (d & -> & Hj & H1 & H2 & H3 & H4 & H5 & _)%decode_field_facts. f_equal.
  unfold field_to_dict. rewrite Hj. apply dict_update_same.
  repeat constructor; cbn; by apply get_none_text.
Qed.

(** ** Receipts *)

Section Receipts.
Context `{PyRepr}.

Lemma restated_update_same body fields :
  Forall (fun f => f.2 = get_none body f.1) fields ->
  dict_update body (List.filter (fun f => dict_mem body f.1 || negb (is_absent absent_none f.2)) fields)
  = body.
Proof.
  intros Hf. apply dict_update_same, Forall_forall. intros [k v] [Hin Hk]%elem_of_filter_In.
  rewrite Forall_forall in Hf. specialize (Hf _ Hin). cbn in *. subst.
  unfold get_none, dict_get_or, dict_mem in *. by destruct (dict_get body k).
Qed.

(** What one accepted candidate adds. *)
Lemma gather_candidate_ok g v g' :
  gather_candidate g v = Ok g' ->
  exists raw c o, v = JObj raw /\ ga_candidates g' = ga_candidates g ++ [(c, o)]
    /\ sc_json c = Some raw /\ get_none raw "outcome" = sc_outcome_json c
    /\ get_none raw "generation_id" = JStr (sc_generation_id c)
    /\ candidate_outcome c = Ok o /\ candidate_to_dict c = raw
    /\ (sc_generation_id c ∉ ga_ids g) /\ sc_generation_id c <> ""
    /\ ga_structure g' = outcome_structure o
    /\ (ga_structure g = "" \/ outcome_structure o = ga_structure g).
Proof.
  destruct v as [| | | | | |raw]; try done. cbv beta iota delta [gather_candidate].
  destruct (get_none raw "outcome") as [| | | | | |od] eqn:Ho; try done. intros Hg.
  unfold _required_string in Hg. peel Hg. rewrite if_ok in Hg. destruct Hg as [Hfresh Hg].
  peel Hg. rewrite if_ok in Hg. destruct Hg as [Hs [= <-]].
  rewrite require_receipt_ok in *. apply negb_true_iff, bool_decide_eq_false in Hfresh.
  apply orb_true_iff in Hs. rewrite !String.eqb_eq in Hs.
  eexists raw, _, _. split_and!; try done.
  - cbn [sc_generation_id]. eauto using as_nonempty_text.
  - unfold candidate_to_dict. cbn [sc_json]. apply restated_update_same.
    repeat constructor; cbn -[get_none]; symmetry; eauto using as_nonempty_text.
    all: unfold _validate_optional_number in *; eauto using optional_number_ok.
  - cbn. by apply as_nonempty_ok in Ha0 as [_ ?].
Qed.

Definition gathered (g : Gathered) (raws : list Json) : Prop :=
  (fun c => JObj (candidate_to_dict c.1)) <$> ga_candidates g = raws
  /\ NoDup (ga_ids g)
  /\ Forall (fun c => candidate_outcome c.1 = Ok c.2 /\ sc_generation_id c.1 <> ""
                      /\ get_none (candidate_to_dict c.1) "outcome" = sc_outcome_json c.1
                      /\ get_none (candidate_to_dict c.1) "generation_id" = JStr (sc_generation_id c.1))
       (ga_candidates g).

Lemma gather_ok g0 raws0 raws g :
  gathered g0 raws0 -> result_foldl gather_candidate g0 raws = Ok g -> gathered g (raws0 ++ raws).
Proof.
  revert g0 raws0. induction raws as [|v raws IH]; intros g0 raws0 Hg0 Hg.
  { injection Hg as <-. by rewrite app_nil_r. }
  cbn [result_foldl] in Hg. apply result_bind_ok in Hg as (g1 & H1 & Hg).
  rewrite (app_assoc raws0 [v] raws : raws0 ++ v :: raws = _). apply (IH g1); [|done].
  destruct Hg0 as (Hr & Hnd & Hf).
  apply gather_candidate_ok in H1 as (raw & c & o & -> & Hc & _ & Hout & Hgid & Ho & Hd & Hfresh & Hne & _).
  unfold gathered, ga_ids in *. rewrite Hc, !fmap_app, Hr. cbn. rewrite Hd. split_and!; [done| |].
  - apply NoDup_app. split_and!; [done| |apply NoDup_singleton]. set_solver.
  - apply Forall_app. split; [done|]. constructor; [|constructor]. cbn [fst snd]. by rewrite Hd.
Qed.

Lemma gather_candidates_ok d g :
  gather_candidates d = Ok g ->
  exists raws, get_none d "candidates" = JArr raws /\ gathered g raws /\ raws <> [].
Proof.
  unfold gather_candidates. destruct (get_none d "candidates") as [| | | | |[|v raws]|] eqn:E; try done.
  intros Hg. exists (v :: raws). split_and!; [done| |done].
  apply (gather_ok {| ga_candidates := []; ga_structure := "" |} []); [|exact Hg].
  split_and!; [done|constructor|constructor].
Qed.

Lemma detach_candidates cs cs' : result_map detach_candidate cs = Ok cs' -> cs' = cs.
Proof.
  intros Hm%result_map_ok. induction Hm as [|c c' cs cs' Hc _ IH]; [done|]. f_equal; [|done].
  unfold detach_candidate in Hc. peel Hc. congruence.
Qed.

Lemma decode_hook_ok v h :
  decode_hook v = Ok h ->
  exists d, v = JObj d /\ Forall (fun f => dict_get d f.1 = Some f.2) (hook_fields h)
    /\ ph_state h ∈ _HOOK_DELIVERY_STATES.
Proof.
  destruct v as [| | | | | |d]; try done. cbv beta iota delta [decode_hook]. intros Hh. peel Hh.
  rewrite require_receipt_ok in *. cbv zeta in Hh. repeat (case_match; [done|]).
  injection Hh as <-. exists d. apply token_of_ok in Ha as [Hs Hin].
  split_and!; [done| |done]. repeat constructor; cbn -[get_none]; apply get_none_text;
    eauto using as_text_text.
Qed.

Lemma decode_projection_ok v p :
  decode_projection v = Ok p ->
  exists d, v = JObj d /\ Forall (fun f => dict_get d f.1 = Some f.2) (projection_fields p)
    /\ ip_state p ∈ _INDEX_PROJECTION_STATES.
Proof.
  destruct v as [| | | | | |d]; try done. cbv beta iota delta [decode_projection]. intros Hp. peel Hp.
  rewrite require_receipt_ok in *. apply if_ok in Hp as [_ [= <-]]. exists d.
  apply token_of_ok in Ha as [Hs Hin].
  split_and!; [done| |done]. repeat constructor; cbn -[get_none]; apply get_none_text;
    eauto using as_text_text.
Qed.

Lemma check_identity_ok e n d epoch_id round state primary :
  check_identity e n d = Ok (epoch_id, round, state, primary) ->
  get_none d "epoch_id" = JStr epoch_id /\ epoch_id <> "" /\ get_none d "round_index" = JInt round
  /\ (0 <= round)%Z
  /\ get_none d "state" = JStr state /\ state ∈ ["pending"; "committed"]
  /\ get_none d "primary_promoted_generation_id" = jopt JStr primary
  /\ (forall e', e = Some e' -> epoch_id = e') /\ (forall n', n = Some n' -> round = n').
Proof.
  unfold check_identity, _required_string. intros Hi. peel Hi. rewrite !if_ok in Hi.
  destruct Hi as (He & Hn & Hi). peel Hi. simplify_eq. rewrite require_receipt_ok in *.
  apply as_nonempty_ok in Ha0 as [H0 Hne].
  assert (get_none d "round_index" = JInt round /\ (0 <= round)%Z) as [H1 Hz].
  { unfold _required_int in Ha1. destruct (get_none d "round_index"); try done.
    destruct (Z.ltb_spec z 0); simplify_eq. done. }
  assert (get_none d "state" = JStr state /\ state ∈ ["pending"; "committed"]) as [H2 Hin].
  { unfold receipt_state in Ha2. destruct (token_of _ (get_none d "state")) eqn:Hs; simplify_eq.
    by apply token_of_ok in Hs. }
  split_and!; try done.
  - unfold recorded_primary in Ha3.
    destruct (get_none d "primary_promoted_generation_id") eqn:E; simplify_eq; try done.
    destruct (as_nonempty _) eqn:E'; simplify_eq. by apply as_nonempty_text in E'.
  - intros e' ->. by apply String.eqb_eq in He.
  - intros n' ->. by apply Z.eqb_eq in Hn.
Qed.

(** What an accepted receipt says of the object it was decoded from. *)
Record Accepted (d : list (string * Json)) (r : SettlementReceipt) : Prop := {
  ac_json : sr_json r = d;
  ac_epoch : get_none d "epoch_id" = JStr (sr_epoch_id r);
  ac_epoch_ne : sr_epoch_id r <> "";
  ac_round : get_none d "round_index" = JInt (sr_round_index r);
  ac_round_nonneg : (0 <= sr_round_index r)%Z;
  ac_id : get_none d "settlement_id" = JStr (sr_settlement_id r);
  ac_state : get_none d "state" = JStr (sr_state r);
  ac_state_in : sr_state r ∈ ["pending"; "committed"];
  ac_primary : get_none d "primary_promoted_generation_id" = jopt JStr (sr_primary_id r);
  ac_hook : decode_hook (get_none d "promotion_hook") = Ok (sr_promotion_hook r);
  ac_projection : decode_projection (get_none d "index_projection") = Ok (sr_index_projection r);
  ac_candidates : exists g raws, get_none d "candidates" = JArr raws /\ gathered g raws /\ raws <> []
                    /\ (ga_candidates g).*1 = sr_candidates r;
  ac_finite : json_finite (JObj d) = true;
}.

Lemma decode_accepted e n v r :
  decode_settlement_receipt e n v = Ok r ->
  exists d, v = JObj d /\ Accepted d r
    /\ (forall e', e = Some e' -> sr_epoch_id r = e') /\ (forall n', n = Some n' -> sr_round_index r = n').
Proof.
  destruct v as [| | | | | |d]; try done. cbv beta iota delta [decode_settlement_receipt].
  intros Hr. apply result_bind_ok in Hr as ([[[epoch round] state] primary] & Hi & Hr).
  apply check_identity_ok in Hi as (H1 & H2 & H3 & H4 & H5 & H6 & H7 & H8 & H9).
  unfold _required_string in Hr. peel Hr. apply if_ok in Hr as [_ Hr]. cbv zeta in Hr. peel Hr.
  apply if_ok in Hr as [Hp%bool_decide_eq_true Hr]. peel Hr. injection Hr as <-.
  rewrite require_receipt_ok in *. apply detach_candidates in Ha5 as ->.
  apply detach_obj_ok in Ha6 as [-> Hfin]. exists d. split_and!; [done| |done|done].
  split; cbn -[get_none]; try done; [eauto using as_nonempty_text|by rewrite Hp|].
  apply gather_candidates_ok in Ha2 as (raws & ? & ? & ?). by exists a2, raws.
Qed.

Lemma update_in_same key fields body d :
  get_none body key = JObj d -> Forall (fun f => dict_get d f.1 = Some f.2) fields ->
  update_in key fields body = body.
Proof.
  intros Hk Hf. unfold update_in. rewrite Hk. cbn [obj]. rewrite (dict_update_same d fields Hf).
  by apply dict_set_same, get_none_some.
Qed.

(** An accepted record gives back exactly the object it was decoded from. *)
Lemma accepted_to_dict d r : Accepted d r -> receipt_to_dict r = d.
Proof.
  intros [Hj He _ Hn _ Hi Hs _ Hp Hh Hx (g & raws & Hc & (Hraws & _) & _ & Hcs) _].
  unfold receipt_to_dict. rewrite Hj.
  rewrite (dict_update_same d).
  2:{ repeat constructor; cbn -[get_none]; apply get_none_some; try done.
      rewrite Hc. f_equal. rewrite <-Hcs, <-Hraws, <-list_fmap_compose. done. }
  rewrite restate_same by (symmetry; apply Hp).
  apply decode_hook_ok in Hh as (h & Hh & Hhf & _). apply decode_projection_ok in Hx as (p & Hx & Hxf & _).
  rewrite (update_in_same _ _ d h) by done. by rewrite (update_in_same _ _ d p).
Qed.

(** *** Expectations and progress *)

Definition identity_of (r : SettlementReceipt) : string * Z * string * option string :=
  (sr_epoch_id r, sr_round_index r, sr_state r, sr_primary_id r).

Lemma check_identity_expect e n d i :
  check_identity None None d = Ok i ->
  (forall e', e = Some e' -> i.1.1.1 = e') -> (forall n', n = Some n' -> i.1.1.2 = n') ->
  check_identity e n d = Ok i.
Proof.
  unfold check_identity. intros Hi He Hn. peel Hi. cbn [andb] in Hi.
  rewrite Ha, Ha0, Ha1. cbn [result_bind].
  injection Hi as <-. cbn in He, Hn. rewrite Ha2, Ha3. cbn [result_bind].
  destruct e as [e|]; [rewrite (He e eq_refl), String.eqb_refl|];
    (destruct n as [n|]; [rewrite (Hn n eq_refl), Z.eqb_refl|]); done.
Qed.

Lemma check_identity_forget e n d i : check_identity e n d = Ok i -> check_identity None None d = Ok i.
Proof.
  unfold check_identity. intros Hi. peel Hi. rewrite !if_ok in Hi. destruct Hi as (_ & _ & Hi).
  rewrite Ha, Ha0, Ha1. exact Hi.
Qed.

(** Naming the epoch and the round an accepted receipt states changes nothing. *)
Lemma decode_forget e n v r :
  decode_settlement_receipt e n v = Ok r -> decode_settlement_receipt None None v = Ok r.
Proof.
  destruct v as [| | | | | |d]; try done. cbv beta iota delta [decode_settlement_receipt].
  intros (i & Hi & Hr)%result_bind_ok. by rewrite (check_identity_forget _ _ _ _ Hi).
Qed.

Lemma decode_expect e n v r :
  decode_settlement_receipt None None v = Ok r ->
  (forall e', e = Some e' -> sr_epoch_id r = e') -> (forall n', n = Some n' -> sr_round_index r = n') ->
  decode_settlement_receipt e n v = Ok r.
Proof.
  intros Hr He Hn. destruct v as [| | | | | |d]; try done.
  cbv beta iota delta [decode_settlement_receipt] in Hr |- *.
  apply result_bind_ok in Hr as (i & Hi & Hr). rewrite (check_identity_expect e n d i Hi); [exact Hr|..].
  all: destruct i as [[[epoch round] state] primary]; cbv beta iota in Hr; peel Hr;
    apply if_ok in Hr as [_ Hr]; cbv zeta in Hr; peel Hr; apply if_ok in Hr as [_ Hr]; peel Hr;
    injection Hr as <-; done.
Qed.

(** An object that differs from an accepted one in the progress of its replay alone. *)
Lemma decode_progress d r d' state hook projection :
  decode_settlement_receipt None None (JObj d) = Ok r ->
  (forall key, key ∉ progress_keys -> dict_get d' key = dict_get d key) ->
  get_none d' "state" = JStr state -> state ∈ ["pending"; "committed"] ->
  decode_hook (get_none d' "promotion_hook") = Ok hook ->
  decode_projection (get_none d' "index_projection") = Ok projection ->
  json_finite (JObj d') = true ->
  decode_settlement_receipt None None (JObj d') = Ok {|
    sr_epoch_id := sr_epoch_id r; sr_round_index := sr_round_index r;
    sr_settlement_id := sr_settlement_id r; sr_state := state; sr_primary_id := sr_primary_id r;
    sr_candidates := sr_candidates r; sr_promotion_hook := hook; sr_index_projection := projection;
    sr_json := d' |}.
Proof.
  intros Hr Hd Hs Hin Hh Hp Hf.
  assert (forall key, progress_key key = false -> dict_get d' key = dict_get d key) as Hd'.
  { intros key Hkey. apply Hd. by apply bool_decide_eq_false in Hkey. }
  assert (forall key, progress_key key = false -> get_none d' key = get_none d key) as Hg.
  { intros key Hkey. unfold get_none, dict_get_or. by rewrite Hd'. }
  cbv beta iota zeta delta [decode_settlement_receipt] in Hr |- *.
  apply result_bind_ok in Hr as ([[[epoch round] state0] primary] & Hi & Hr).
  assert (check_identity None None d' = Ok (epoch, round, state, primary)) as Hi'.
  { assert (recorded_primary d' = recorded_primary d) as Hrp
      by (unfold recorded_primary; by rewrite Hg).
    unfold check_identity, check_record_format, _required_string, _required_int, receipt_state in Hi |- *.
    rewrite !Hg, Hd' by done. peel Hi. rewrite Ha, Ha0, Ha1. cbn [result_bind].
    rewrite Hs. unfold token_of. cbn [as_text mbind option_bind].
    rewrite bool_decide_true by done. injection Hi as <- <- <- <-. cbn [result_bind].
    by rewrite Hrp, Ha3. }
  rewrite Hi'. cbn [result_bind]. cbv beta iota in Hr |- *.
  assert (check_gates d' = check_gates d) as Hgates
    by (unfold check_gates, dict_get_or; by rewrite Hd').
  assert (gather_candidates d' = gather_candidates d) as Hgather
    by (unfold gather_candidates; by rewrite Hg).
  unfold _required_string in Hr |- *. rewrite Hgates, Hgather, Hh, Hp, !Hg by done.
  peel Hr. rewrite Ha, Ha2, Ha3. cbn [result_bind].
  apply if_ok in Hr as [Hid Hr]. rewrite Hid. peel Hr. rewrite Ha4. cbn [result_bind].
  apply if_ok in Hr as [Hpr Hr]. rewrite Hpr. peel Hr. rewrite Ha5. cbn [result_bind].
  unfold detach_obj. rewrite Hf. cbn [result_bind]. injection Hr as <-. done.
Qed.

Lemma filter_dict_set {V} (p : string -> bool) (d : list (string * V)) k v :
  p k = false ->
  List.filter (fun kv : string * V => p kv.1) (dict_set d k v) = List.filter (fun kv => p kv.1) d.
Proof.
  intros Hp. induction d as [|[k' v'] d IH]; cbn; [by rewrite Hp|].
  case_decide; subst; cbn; [by rewrite Hp|]. by rewrite IH.
Qed.

(** The facts of a receipt do not move with its progress. *)
Lemma facts_of_progress (d : list (string * Json)) key v :
  progress_key key = true ->
  List.filter (fun kv => negb (progress_key kv.1)) (dict_set d key v)
  = List.filter (fun kv => negb (progress_key kv.1)) d.
Proof. intros Hk. apply (filter_dict_set (fun k => negb (progress_key k))). by rewrite Hk. Qed.

Lemma json_finite_dict_set d key v :
  json_finite (JObj d) = true -> json_finite v = true -> json_finite (JObj (dict_set d key v)) = true.
Proof.
  intros Hd Hv. cbn in *. induction d as [|[k w] d IH]; cbn in *; [by rewrite Hv|].
  apply andb_true_iff in Hd as [Hw Hd]. case_decide; cbn; [by rewrite Hv|]. by rewrite Hw, IH.
Qed.

Lemma get_none_set d key v key' :
  get_none (dict_set d key v) key' = if decide (key = key') then v else get_none d key'.
Proof. unfold get_none, dict_get_or. rewrite dict_get_set. by case_decide. Qed.

End Receipts.
