(* ===== verification/JournalSpec.v ===== *)
(** Theorems about the journal of experiments: what is written reads back. *)
From S2P Require Import Prelude PyFloat PyText PyJson CoreTypes Params Records Configuration Journal Lineage Strategy FieldRecord Receipt ReceiptSpec.

(** ** Codecs *)

Lemma complete_fields_ok name expected d :
  d.*1 = expected -> _complete_fields name expected (JObj d) = Ok d.
Proof. intros <-. unfold _complete_fields. by rewrite bool_decide_true. Qed.

Lemma complete_elements_ok name expected check d key {A} (encode : A -> list (string * Json)) l :
  get_none d key = JArr ((fun x => JObj (encode x)) <$> l) ->
  (forall x, x ∈ l -> (encode x).*1 = expected /\ check (encode x) = Ok tt) ->
  complete_elements name expected check d key = Ok tt.
Proof.
  unfold complete_elements. intros ->. induction l as [|x l IH]; intros H; [done|]. cbn [fmap list_fmap result_foldl].
  destruct (H x) as [Hk Hc]; [set_solver|]. rewrite (complete_fields_ok _ _ _ Hk). cbn [result_bind].
  rewrite Hc. apply IH. set_solver.
Qed.

Lemma decode_decision_ok path d :
  decode_optional (decode_enum decision_members) path (jopt (fun d => JStr (decision_token d)) d) = Ok d.
Proof. by destruct d as [[]|]. Qed.

#[local] Hint Resolve decode_decision_ok : codec.

Lemma actual_inverse path m : json_finite (actual_body m) = true -> decode_actual path (actual_body m) = Ok m.
Proof.
  intros H. finite_at H "from_value". finite_at H "to_value".
  unfold decode_actual. unfold actual_body, match_body. rewrite declared_object_ok by done. cbn [result_bind].
  fields. by destruct m.
Qed.

Lemma match_inverse path m : json_finite (match_body m) = true -> decode_match path (match_body m) = Ok m.
Proof.
  intros H. finite_at H "delta_scalar".
  unfold decode_match. unfold actual_body, match_body. rewrite declared_object_ok by done. cbn [result_bind].
  fields. by destruct m.
Qed.

(** An outcome of finite numbers whose movements name their metrics reads back. *)
Definition outcome_sound (o : OutcomeRecord) : bool :=
  json_finite (JObj (outcome_body o))
  && forallb (fun m => negb (String.eqb (mma_metric_name m) "")) (metric_movements o).

Lemma decode_outcome_inverse path o :
  json_finite (JObj (outcome_body o)) = true -> decode_outcome path (JObj (outcome_body o)) = Ok o.
Proof.
  intros H. finite_at H "pass_rate_delta". finite_at H "drift_loss_delta". finite_at H "scalar_score_delta".
  pose proof (json_finite_item _ "metric_movements" _ H eq_refl) as Hm.
  pose proof (json_finite_item _ "match_record" _ H eq_refl) as Hr.
  pose proof (json_finite_item _ "holdout" _ H eq_refl) as Hh.
  pose proof (json_finite_item _ "evidence" _ H eq_refl) as He.
  pose proof (json_finite_item _ "train_loss" _ H eq_refl) as H7.
  pose proof (json_finite_item _ "holdout_loss" _ H eq_refl) as H8.
  pose proof (json_finite_item _ "generalization_gap" _ H eq_refl) as H9.
  assert (forall p, decode_array decode_actual p (JArr (actual_body <$> metric_movements o)) = Ok (metric_movements o)) as Ha.
  { intros p. apply decode_array_inverse. intros q x Hx. by eapply actual_inverse, json_finite_elem. }
  assert (forall p, decode_array decode_match p (JArr (match_body <$> match_record o)) = Ok (match_record o)) as Hb.
  { intros p. apply decode_array_inverse. intros q x Hx. by eapply match_inverse, json_finite_elem. }
  unfold decode_outcome. rewrite declared_object_ok by done. cbn [result_bind].
  fields. by destruct o.
Qed.

Lemma outcome_inverse o : outcome_sound o = true -> outcome_from_dict (JObj (outcome_body o)) = Ok o.
Proof.
  unfold outcome_sound. rewrite andb_true_iff. intros [Hf Hn].
  unfold outcome_from_dict. cbv beta iota delta [_outcome_from_dict].
  rewrite (complete_fields_ok _ _ (outcome_body o)) by done. cbn [result_bind].
  rewrite decode_outcome_inverse by done. cbn [result_bind].
  rewrite (complete_elements_ok _ _ _ _ "metric_movements"
             (fun m => [("metric_name", JStr (mma_metric_name m)); ("from_value", JFloat (from_value m));
                ("to_value", JFloat (to_value m)); ("hypothesis_match", JBool (hypothesis_match m));
                ("note", JStr (mma_note m))]) (metric_movements o)); [|done|].
  - cbn [result_bind].
    by rewrite (complete_elements_ok _ _ _ _ "match_record"
             (fun m => [("match_id", JStr (mo_match_id m)); ("opponent", JStr (mo_opponent m));
                ("won", JBool (mo_won m)); ("delta_scalar", JFloat (mo_delta_scalar m))]) (match_record o)).
  - intros m Hm. split; [done|]. rewrite forallb_forall in Hn. apply list_elem_of_In in Hm.
    specialize (Hn m Hm). unfold named.
    change (truthy _) with (negb (String.eqb (mma_metric_name m) "")). by rewrite Hn.
Qed.

(** *** Patches and hypotheses *)

(** The payload a patch carries is the one its operation selects, and no other. *)
Definition patch_sound (p : Patch) : bool :=
  json_finite (jopt numeric_json (new_numeric p))
  && match patch_op p with
     | op_replace => bool_decide (is_Some (new_content p) /\ new_numeric p = None /\ new_enum p = None)
     | op_set_numeric => match new_numeric p with Some _ => bool_decide (new_content p = None /\ new_enum p = None) | None => false end
     | op_set_enum => bool_decide (is_Some (new_enum p) /\ new_content p = None /\ new_numeric p = None)
     end.

Lemma decode_optional_number path o :
  json_finite (jopt numeric_json o) = true -> decode_optional decode_number path (jopt numeric_json o) = Ok o.
Proof. destruct o as [[z|x]|]; [done| |done]. cbn. by intros ->. Qed.

#[local] Hint Resolve decode_optional_number : codec.

Lemma patch_inverse p : patch_sound p = true -> _patch_from_dict (JObj (patch_body p)) = Ok p.
Proof.
  unfold patch_sound. rewrite andb_true_iff. intros [Hf Hp]. unfold _patch_from_dict.
  rewrite complete_fields_ok by done. cbn [result_bind].
  assert (decode_patch "patch" (JObj (patch_body p)) = Ok p) as ->.
  { unfold decode_patch. rewrite declared_object_ok by done. cbn [result_bind].
    field_by ltac:(reflexivity). field_by ltac:(reflexivity).
    eapply bind_required; [reflexivity|instantiate (1 := patch_op p); by destruct (patch_op p)|].
    fields. by destruct p. }
  cbn [result_bind]. unfold payload_fields, selected_field.
  destruct p as [i t [] c x n why]; cbn in *.
  - apply bool_decide_eq_true in Hp as ([? ->] & -> & ->). done.
  - destruct x as [x|]; [|done]. apply bool_decide_eq_true in Hp as [-> ->]. done.
  - apply bool_decide_eq_true in Hp as ([? ->] & -> & ->). done.
Qed.

Definition hypothesis_sound (h : HypothesisSpec) : bool :=
  forallb (fun m => negb (String.eqb (emm_metric_name m) "")) (expected_metric_movements h).

Lemma movement_inverse path m : decode_movement path (movement_body m) = Ok m.
Proof.
  unfold decode_movement, movement_body. rewrite declared_object_ok by done. cbn [result_bind].
  field_by ltac:(reflexivity).
  eapply bind_required; [reflexivity|instantiate (1 := emm_direction m); by destruct (emm_direction m)|].
  eapply bind_required; [reflexivity|instantiate (1 := emm_magnitude m); by destruct (emm_magnitude m)|].
  by destruct m.
Qed.

Lemma decode_strs path l : decode_array decode_str path (jstrs l) = Ok l.
Proof. by apply decode_array_inverse. Qed.

Lemma decode_movements path l : decode_array decode_movement path (JArr (movement_body <$> l)) = Ok l.
Proof. apply decode_array_inverse. intros. apply movement_inverse. Qed.

#[local] Hint Resolve decode_strs decode_movements : codec.

Lemma hypothesis_inverse h :
  hypothesis_sound h = true -> _hypothesis_from_dict (JObj (hypothesis_body h)) = Ok h.
Proof.
  intros Hn. unfold _hypothesis_from_dict. rewrite complete_fields_ok by done. cbn [result_bind].
  assert (decode_hypothesis "hypothesis" (JObj (hypothesis_body h)) = Ok h) as ->.
  { unfold decode_hypothesis. rewrite declared_object_ok by done. cbn [result_bind].
    fields. by destruct h. }
  cbn [result_bind].
  rewrite (complete_elements_ok _ _ _ _ "expected_metric_movements"
             (fun m => [("metric_name", JStr (emm_metric_name m));
                ("direction", JStr (direction_token (emm_direction m)));
                ("magnitude", JStr (magnitude_token (emm_magnitude m)))]) (expected_metric_movements h)); [done|done|].
  intros m Hm. split; [done|]. unfold hypothesis_sound in Hn. rewrite forallb_forall in Hn.
  apply list_elem_of_In in Hm. unfold named. change (truthy _) with (negb (String.eqb (emm_metric_name m) "")).
  by rewrite Hn.
Qed.

(** ** Experiments *)

Definition experiment_sound (e : Experiment) : bool :=
  hypothesis_sound (hypothesis e) && forallb patch_sound (patches e)
  && bool_decide (NoDup (patch_id <$> patches e))
  && match exp_outcome e with Some o => outcome_sound o | None => true end.

Lemma texts_inverse why l : texts why (jstrs l) = Ok l.
Proof. unfold texts, jstrs. induction l as [|s l IH]; [done|]. cbn [fmap list_fmap result_map result_bind]. by rewrite IH. Qed.

Lemma outcome_value_inverse e :
  experiment_sound e = true ->
  _outcome_from_dict (jopt (fun o => JObj (outcome_body o)) (exp_outcome e)) = Ok (exp_outcome e).
Proof.
  unfold experiment_sound. rewrite !andb_true_iff. intros [_ Ho]. destruct (exp_outcome e) as [o|]; [|done].
  apply outcome_inverse in Ho. unfold outcome_from_dict in Ho. apply result_bind_ok in Ho as ([o'|] & Ho & Hk); [|done].
  cbn [jopt from_option]. rewrite Ho. congruence.
Qed.

Definition fields_of (e : Experiment) : ExperimentFields := {|
  ef_id := experiment_id e; ef_parent_generation_id := parent_generation_id e;
  ef_proposed_at := proposed_at e; ef_round_index := round_index e;
  ef_patch_ids := patch_id <$> patches e; ef_hypothesis := hypothesis e;
  ef_recombined_from := recombined_from e |}.

Lemma body_fields_inverse epoch_id gid e :
  exp_epoch_id e = epoch_id -> exp_generation_id e = gid -> experiment_sound e = true ->
  body_fields epoch_id gid (experiment_body e) = Ok (fields_of e).
Proof.
  intros He Hg Hs. pose proof (outcome_value_inverse e Hs) as Ho. pose proof Hs as Hh.
  unfold experiment_sound in Hh. rewrite !andb_true_iff in Hh. destruct Hh as [[[Hh _] _] _].
  apply hypothesis_inverse in Hh.
  unfold body_fields.
  change (text_item (experiment_body e) "id") with (Ok (experiment_id e)).
  change (text_item (experiment_body e) "epoch_id") with (Ok (exp_epoch_id e)).
  change (text_item (experiment_body e) "generation_id") with (Ok (exp_generation_id e)).
  change (text_item (experiment_body e) "proposed_at") with (Ok (proposed_at e)).
  cbn [result_bind]. rewrite He, Hg, !String.eqb_refl. cbn [andb].
  change (item (experiment_body e) "parent_generation_id") with (Ok (jopt JStr (parent_generation_id e))).
  change (item (experiment_body e) "round_index") with (Ok (JInt (round_index e))).
  change (item (experiment_body e) "patch_ids") with (Ok (jstrs (patch_id <$> patches e))).
  change (item (experiment_body e) "hypothesis") with (Ok (JObj (hypothesis_body (hypothesis e)))).
  change (item (experiment_body e) "outcome") with (Ok (jopt (fun o => JObj (outcome_body o)) (exp_outcome e))).
  cbn [result_bind].
  assert (match jopt JStr (parent_generation_id e) with
          | JNull => Ok None | JStr s => Ok (Some s)
          | _ => Raise (ValueError "parent_generation_id must be a string or null") end
          = Ok (parent_generation_id e)) as -> by (by destruct (parent_generation_id e)).
  cbn [result_bind]. rewrite texts_inverse. cbn [result_bind].
  assert (match dict_get (experiment_body e) "recombined_from" with
          | Some v => texts "recombined_from must be a list of generation identifiers" v
          | None => Ok [] end = Ok (recombined_from e)) as ->.
  { unfold experiment_body. destruct (recombined_from e) as [|p ps]; [done|].
    change (dict_get _ _) with (Some (jstrs (p :: ps))). apply texts_inverse. }
  cbn [result_bind]. by rewrite Hh, Ho.
Qed.

Section Store.
Context `{PyRepr}.

(** The store while the patches are written. *)
Definition with_patches (epoch_id gid : string) (ps : list Patch) (ws : Workspace) : Workspace :=
  foldl (fun ws p => {|
    ws_lineage := ws_lineage ws; ws_experiments := ws_experiments ws;
    ws_patches := dict_set (ws_patches ws) (epoch_id, gid, patch_id p) (Some (JObj (patch_body p)));
    ws_tournaments := ws_tournaments ws; ws_rounds := ws_rounds ws;
    ws_revisions := ws_revisions ws; ws_hooks := ws_hooks ws |}) ws ps.

Lemma with_patches_kept epoch_id gid ps ws :
  ws_experiments (with_patches epoch_id gid ps ws) = ws_experiments ws
  /\ ws_rounds (with_patches epoch_id gid ps ws) = ws_rounds ws.
Proof.
  unfold with_patches. revert ws. induction ps as [|p ps IH]; intros ws; [done|]. cbn [foldl].
  edestruct IH as [-> ->]. done.
Qed.

Lemma with_patches_other epoch_id gid ps ws pid :
  pid ∉ patch_id <$> ps ->
  dict_get (ws_patches (with_patches epoch_id gid ps ws)) (epoch_id, gid, pid)
  = dict_get (ws_patches ws) (epoch_id, gid, pid).
Proof.
  unfold with_patches. revert ws. induction ps as [|p ps IH]; intros ws Hn; [done|].
  cbn in *. rewrite IH by set_solver. cbn. rewrite dict_get_set_ne; [done|]. intros [= Heq]. set_solver.
Qed.

Lemma with_patches_get epoch_id gid ps ws p :
  NoDup (patch_id <$> ps) -> p ∈ ps ->
  dict_get (ws_patches (with_patches epoch_id gid ps ws)) (epoch_id, gid, patch_id p)
  = Some (Some (JObj (patch_body p))).
Proof.
  revert ws. induction ps as [|q ps IH]; intros ws Hnd Hin; [set_solver|].
  apply NoDup_cons in Hnd as [Hq Hnd]. apply elem_of_cons in Hin as [<-|Hin].
  - unfold with_patches. cbn [foldl]. pose proof (with_patches_other epoch_id gid ps) as Ho.
    unfold with_patches in Ho. rewrite Ho by done. cbn. by rewrite dict_get_set_eq.
  - by apply IH.
Qed.

(** The writes of the patches touch neither the bodies nor the rounds. *)
Lemma wpc_patches epoch_id gid ps (I : Workspace -> Prop) (Q : result unit -> Workspace -> Prop) ws :
  (forall s, ws_experiments s = ws_experiments ws -> ws_rounds s = ws_rounds ws -> I s) ->
  Q (Ok tt) (with_patches epoch_id gid ps ws) ->
  wpc (wop_each (put_patch epoch_id gid) ps) I Q ws.
Proof.
  revert ws. induction ps as [|p ps IH]; intros ws HI HQ; cbn [wop_each]; [by apply wpc_ret|].
  eapply wpc_bind_ok, wpc_write; [by apply HI|]. split; [done|]. by apply IH.
Qed.

Lemma read_absent epoch_id gid s :
  dict_get (ws_experiments s) (epoch_id, gid) = None ->
  read_experiment epoch_id gid s = Raise (OtherException "FileNotFoundError").
Proof. intros Hn. unfold read_experiment, _accepted_body. by rewrite Hn. Qed.

(** A body under whose round nothing is settled reads as it was written. *)
Lemma read_written epoch_id gid e s :
  exp_epoch_id e = epoch_id -> exp_generation_id e = gid -> experiment_sound e = true ->
  dict_get (ws_experiments s) (epoch_id, gid) = Some (Some (JObj (experiment_body e))) ->
  receipt_text s epoch_id (round_index e) = None ->
  (forall p, p ∈ patches e -> dict_get (ws_patches s) (epoch_id, gid, patch_id p) = Some (Some (JObj (patch_body p)))) ->
  read_experiment epoch_id gid s = Ok e.
Proof.
  intros He Hg Hs Hbody Hround Hpatches. unfold read_experiment, _accepted_body. rewrite Hbody.
  change (check_record_format (experiment_body e) _ _) with (@Ok unit tt). cbn [result_bind].
  assert (dict_mem (experiment_body e) "patches" = false) as ->
    by (unfold experiment_body; by destruct (recombined_from e)).
  cbn [negb]. rewrite (body_fields_inverse epoch_id gid e) by done. cbn [refused_as result_bind].
  unfold overlaid_outcome. cbn [ef_round_index fields_of]. rewrite Hround. cbn [result_bind].
  unfold _experiment_from_body.
  assert (result_map (stored_patch s epoch_id gid) (ef_patch_ids (fields_of e)) = Ok (patches e)) as ->.
  { cbn [ef_patch_ids fields_of]. unfold experiment_sound in Hs. rewrite !andb_true_iff in Hs.
    destruct Hs as [[[_ Hps] _] _]. clear Hbody Hround.
    induction (patches e) as [|p ps IH]; [done|]. cbn [forallb] in Hps. apply andb_true_iff in Hps as [Hp Hps].
    cbn [fmap list_fmap result_map]. unfold stored_patch at 1. rewrite Hpatches by set_solver.
    rewrite patch_inverse by done. cbn [refused_as result_bind]. rewrite IH; try done. set_solver. }
  cbn [result_bind]. change (get_none _ _) with (jopt (fun o => JObj (outcome_body o)) (exp_outcome e)).
  rewrite outcome_value_inverse by done. cbn [result_bind]. subst. by destruct e.
Qed.

Lemma write_experiment_ok epoch_id gid e ws :
  epoch_name_ok epoch_id = true -> exp_epoch_id e = epoch_id -> exp_generation_id e = gid ->
  experiment_sound e = true -> dict_get (ws_experiments ws) (epoch_id, gid) = None ->
  receipt_text ws epoch_id (round_index e) = None ->
  wpc (write_experiment epoch_id gid e)
    (fun s => read_experiment epoch_id gid s = Raise (OtherException "FileNotFoundError")
              \/ read_experiment epoch_id gid s = Ok e)
    (fun res s => res = Ok tt /\ read_experiment epoch_id gid s = Ok e) ws.
Proof.
  intros Hname He Hg Hs Habs Hround. unfold write_experiment. eapply wpc_bind_ok.
  apply wpc_mark; [done|left; by apply read_absent|]. split; [done|].
  eapply wpc_bind_ok, wpc_patches.
  { intros s Hx _. left. apply read_absent. rewrite Hx. done. }
  split; [done|]. set (s := with_patches _ _ _ _).
  destruct (with_patches_kept epoch_id gid (patches e) (marked epoch_id ws)) as [_ Hrounds].
  fold s in Hrounds. cbn in Hrounds.
  unfold put_experiment. assert (read_experiment epoch_id gid {|
      ws_lineage := ws_lineage s;
      ws_experiments := dict_set (ws_experiments s) (epoch_id, gid) (Some (JObj (experiment_body e)));
      ws_patches := ws_patches s; ws_tournaments := ws_tournaments s; ws_rounds := ws_rounds s;
      ws_revisions := ws_revisions s; ws_hooks := ws_hooks s |} = Ok e) as Hread.
  { apply read_written; try done; cbn.
    - by rewrite dict_get_set_eq.
    - unfold receipt_text, round_dirs in *. cbn. by rewrite Hrounds.
    - intros p Hp. apply with_patches_get; [|done]. unfold experiment_sound in Hs.
      rewrite !andb_true_iff in Hs. destruct Hs as [[[_ _] Hnd] _]. by apply bool_decide_eq_true in Hnd. }
  apply wpc_write; [by right|done].
Qed.
End Store.

(** ** Theorems *)

(** C17.  Writing an experiment is atomic and loses nothing.  For a well-formed experiment that
    is not there yet, in a round that is not settled, the write completes; a reader that
    looks after any of its writes sees no experiment at all or the whole of it, never a
    body whose patches are missing; and at the end it reads back equal to what was
    written, hypothesis, patches and outcome included. *)
Theorem experiment_write_atomic `{PyRepr} epoch_id gid e ws :
  epoch_name_ok epoch_id = true -> exp_epoch_id e = epoch_id -> exp_generation_id e = gid ->
  experiment_sound e = true -> dict_get (ws_experiments ws) (epoch_id, gid) = None ->
  receipt_text ws epoch_id (round_index e) = None ->
  let run := write_experiment epoch_id gid e ws in
  run.2 = Ok tt /\ read_experiment epoch_id gid (final_ws ws run.1) = Ok e
  /\ forall s, s ∈ run.1 ->
       read_experiment epoch_id gid s = Raise (OtherException "FileNotFoundError")
       \/ read_experiment epoch_id gid s = Ok e.
Proof.
  intros Hn He Hg Hs Ha Hr run. destruct (write_experiment_ok epoch_id gid e ws Hn He Hg Hs Ha Hr) as [HI [Hok Hend]].
  split_and!; [done|done|]. intros s Hin. by eapply Forall_forall in HI.
Qed.

Module JournalWitness.
#[local] Existing Instance plain_repr.

Definition scored : OutcomeRecord := {|
  ran_at := "t2"; pass_rate_delta := 0.25%float; drift_loss_delta := 0%float;
  scalar_score_delta := (-0.5)%float; tournament_decision := Some PROMOTED; rejection_reason := "";
  metric_movements := [{| mma_metric_name := "latency"; from_value := 1%float; to_value := 0.5%float;
                          hypothesis_match := true; mma_note := "" |}];
  outcome_structure := "gauntlet"; final_rank := Some 1%Z; eliminated_in_round := None;
  match_record := [{| mo_match_id := "m1"; mo_opponent := "v0"; mo_won := true;
                      mo_delta_scalar := (-0.5)%float |}];
  champion_eval_mode := "full"; outcome_holdout := None; train_loss := Some 0.5%float;
  holdout_loss := None; generalization_gap := None; operator_override := false;
  operator_override_reason := ""; outcome_evidence := Some [("note", JStr "n")] |}.

Definition proposal : Experiment := {|
  experiment_id := "exp-1"; exp_epoch_id := "epoch-1"; exp_generation_id := "v1";
  parent_generation_id := Some "v0"; proposed_at := "t1";
  hypothesis := {| core_idea := "idea"; modulating := ["prompt"]; why := "because";
                   expected_pass_rate_delta := "+1"; risks := "";
                   expected_metric_movements := [{| emm_metric_name := "latency";
                     emm_direction := decrease; emm_magnitude := small |}] |};
  patches := [{| patch_id := "p1"; mutation_id := "prompt"; patch_op := op_replace;
                 new_content := Some "text"; new_numeric := None; new_enum := None; rationale := "r" |};
              {| patch_id := "p2"; mutation_id := "limit"; patch_op := op_set_numeric;
                 new_content := None; new_numeric := Some (num_int 3); new_enum := None; rationale := "r" |}];
  exp_outcome := Some scored; round_index := 1; recombined_from := ["v7"] |}.

Definition empty_ws : Workspace := {|
  ws_lineage := None; ws_experiments := []; ws_patches := []; ws_tournaments := []; ws_rounds := [];
  ws_revisions := []; ws_hooks := [] |}.

Lemma experiment_write_atomic_witness :
  read_experiment "epoch-1" "v1" (final_ws empty_ws (write_experiment "epoch-1" "v1" proposal empty_ws).1)
  = Ok proposal.
Proof.
  refine (proj1 (proj2 (experiment_write_atomic "epoch-1" "v1" proposal empty_ws _ eq_refl eq_refl _ eq_refl eq_refl)));
    vm_compute; reflexivity.
Defined.
End JournalWitness.
