(* ===== verification/Resolve.v ===== *)
(** Winner resolution over a duel matrix, [src/zicato/selection/resolve.py].

    A matrix holds the net margin of every decided pairing.  The file models the
    matrix builder, the Condorcet check, the Smith set, Ranked Pairs with its
    lock/skip trace, the Copeland order and the dispatch the strategies call. *)

From S2P Require Import Prelude PyFloat PyJson Params.

Record Duel := { winner : string; loser : string; duel_margin : float }.

Record MarginMatrix := {
  ids : list string;
  net : list ((string * string) * float);
}.

Definition margin (m : MarginMatrix) (a b : string) : float := dict_get_or (net m) (a, b) f0.
Definition beats (m : MarginMatrix) (a b : string) : bool := flt f0 (margin m a b).

(** ** Building the matrix *)

Definition add_duel (acc : list string * list ((string * string) * float)) (d : Duel)
    : list string * list ((string * string) * float) :=
  let '(ids, raw) := acc in
  if String.eqb (winner d) (loser d) then acc
  else
    let ids := note_id (note_id ids (winner d)) (loser d) in
    let key := (winner d, loser d) in
    (ids, dict_set raw key (fadd (dict_get_or raw key f0) (fabs (duel_margin d)))).

Definition unordered (a b : string) : string * string := if String.leb a b then (a, b) else (b, a).

(** One pairing of the second loop. *)
Definition net_pair (raw : list ((string * string) * float))
    (acc : list ((string * string) * float) * list (string * string)) (key : string * string)
    : list ((string * string) * float) * list (string * string) :=
  let '(net, handled) := acc in
  let '(a, b) := key in
  if bool_decide (unordered a b ∈ handled) then acc
  else
    let handled := unordered a b :: handled in
    let fwd := dict_get_or raw (a, b) f0 in
    let rev := dict_get_or raw (b, a) f0 in
    let diff := fsub fwd rev in
    if flt f0 diff then (dict_set net (a, b) diff, handled)
    else if flt diff f0 then (dict_set net (b, a) (fneg diff), handled)
    else (net, handled).

Definition raw_margins (duels : list Duel) : list string * list ((string * string) * float) :=
  foldl add_duel ([], []) duels.

Definition build_matrix (duels : list Duel) : MarginMatrix :=
  let '(ids, raw) := raw_margins duels in
  {| ids := ids; net := fst (foldl (net_pair raw) ([], []) (dict_keys raw)) |}.

(** ** Condorcet winner *)

Definition beats_all (m : MarginMatrix) (a : string) : bool :=
  forallb (fun b => String.eqb b a || beats m a b) (ids m).

Definition condorcet_check (m : MarginMatrix) : option string := find_first (beats_all m) (ids m).

(** ** Smith set *)

Definition b2z (b : bool) : Z := if b then 1%Z else 0%Z.

(** Wins minus losses of one contestant against the others. *)
Definition verdict (m : MarginMatrix) (a b : string) : Z :=
  if String.eqb b a then 0%Z else (b2z (beats m a b) - b2z (beats m b a))%Z.

Definition smith_score (m : MarginMatrix) (a : string) : Z :=
  foldr (fun b acc => verdict m a b + acc)%Z 0%Z (ids m).

(** One admission test of the inner loop: the state is [members] and [pending]. *)
Definition smith_visit (m : MarginMatrix) (member : string)
    (acc : list string * list string) (outsider : string) : list string * list string :=
  let '(members, pending) := acc in
  if negb (bool_decide (outsider ∈ members)) && negb (beats m member outsider)
  then (outsider :: members, outsider :: pending)
  else acc.

(** [while pending]; the head of [pending] is the top of the stack. *)
Fixpoint smith_loop (m : MarginMatrix) (fuel : nat) (members pending : list string)
    : option (list string) :=
  match pending with
  | [] => Some members
  | member :: pending =>
      match fuel with
      | 0 => None
      | S fuel =>
          let '(members, pending) := foldl (smith_visit m member) (members, pending) (ids m) in
          smith_loop m fuel members pending
      end
  end.

Definition smith_seed (m : MarginMatrix) : option string :=
  py_max (fun x y => (smith_score m x <? smith_score m y)%Z) (ids m).

Definition smith_set (m : MarginMatrix) : list string :=
  match smith_seed m with
  | None => []
  | Some seed =>
      match smith_loop m (length (ids m)) [seed] [seed] with
      | Some members => List.filter (fun gid => bool_decide (gid ∈ members)) (ids m)
      | None => []
      end
  end.

(** ** Ranked Pairs *)

Record LockStep := {
  ls_winner : string;
  ls_loser : string;
  ls_margin : float;
  ls_locked : bool;
}.

Record RankedPairsResult := {
  rp_winner : option string;
  rp_order : list string;
  rp_trace : list LockStep;
}.

Definition Edge : Type := string * string * float.

(** [key=lambda e: (-e[2], e[0], e[1])] *)
Definition edge_lt (e1 e2 : Edge) : bool :=
  let '(a1, b1, m1) := e1 in
  let '(a2, b2, m2) := e2 in
  if feq (fneg m1) (fneg m2)
  then if String.eqb a1 a2 then str_lt b1 b2 else str_lt a1 a2
  else flt (fneg m1) (fneg m2).

Definition matrix_edges (m : MarginMatrix) : list Edge :=
  py_sorted edge_lt
    ((fun '((a, b), x) => (a, b, x)) <$> List.filter (fun e => flt f0 e.2) (net m)).

Abbreviation Reach := (gmap string (gset string)).

(** [for node in ids: if node == a or a in reach[node]: reach[node].update(newly)] *)
Definition extend_reach (a : string) (newly : gset string) (reach : Reach) (node : string) : Reach :=
  match reach !! node with
  | Some rn =>
      if bool_decide (node = a) || bool_decide (a ∈ rn) then <[node := rn ∪ newly]> reach else reach
  | None => reach
  end.

(** One edge of the lock loop: the reachability sets and the trace. *)
Definition lock_edge (ids : list string) (acc : Reach * list LockStep) (e : Edge)
    : result (Reach * list LockStep) :=
  let '(reach, trace) := acc in
  let '(a, b, m) := e in
  match reach !! b with
  | None => Raise (KeyError b)
  | Some rb =>
      if bool_decide (a ∈ rb) || bool_decide (b = a)
      then Ok (reach, trace ++ [{| ls_winner := a; ls_loser := b; ls_margin := m; ls_locked := false |}])
      else
        let newly := {[b]} ∪ rb in
        let reach := foldl (extend_reach a newly) reach ids in
        match reach !! a with
        | None => Raise (KeyError a)
        | Some ra =>
            Ok (<[a := ra ∪ newly]> reach,
                trace ++ [{| ls_winner := a; ls_loser := b; ls_margin := m; ls_locked := true |}])
        end
  end.

Fixpoint lock_edges (ids : list string) (acc : Reach * list LockStep) (es : list Edge)
    : result (Reach * list LockStep) :=
  match es with
  | [] => Ok acc
  | e :: es => try acc <- lock_edge ids acc e; lock_edges ids acc es
  end.

Definition empty_reach (ids : list string) : Reach :=
  list_to_map ((fun gid => (gid, ∅)) <$> ids).

(** Wins minus losses over the raw matrix. *)
Definition copeland_score (m : MarginMatrix) (a : string) : Z :=
  foldl (fun c b =>
           if String.eqb a b then c
           else if beats m a b then (c + 1)%Z
           else if beats m b a then (c - 1)%Z else c) 0%Z (ids m).

Definition reach_size (reach : Reach) (gid : string) : nat :=
  size (from_option id ∅ (reach !! gid)).

(** [key=lambda gid: (-len(reach[gid]), -cope[gid], gid)] *)
Definition rank_lt (m : MarginMatrix) (reach : Reach) (x y : string) : bool :=
  let rx := reach_size reach x in
  let ry := reach_size reach y in
  if Nat.eqb rx ry
  then if (copeland_score m x =? copeland_score m y)%Z then str_lt x y
       else (copeland_score m y <? copeland_score m x)%Z
  else ry <? rx.

Definition ranked_pairs (m : MarginMatrix) : result RankedPairsResult :=
  match ids m with
  | [] => Ok {| rp_winner := None; rp_order := []; rp_trace := [] |}
  | [x] => Ok {| rp_winner := Some x; rp_order := [x]; rp_trace := [] |}
  | _ =>
      try acc <- lock_edges (ids m) (empty_reach (ids m), []) (matrix_edges m);
      let '(reach, trace) := acc in
      let order := py_sorted (rank_lt m reach) (ids m) in
      Ok {| rp_winner := head order; rp_order := order; rp_trace := trace |}
  end.

(** ** Copeland and the dispatch *)

Definition copeland_lt (m : MarginMatrix) (x y : string) : bool :=
  if (copeland_score m x =? copeland_score m y)%Z then str_lt x y
  else (copeland_score m y <? copeland_score m x)%Z.

Definition copeland_order (m : MarginMatrix) : list string := py_sorted (copeland_lt m) (ids m).

Definition _restrict (m : MarginMatrix) (keep : list string) : MarginMatrix :=
  {| ids := List.filter (fun gid => bool_decide (gid ∈ keep)) (ids m);
     net := List.filter
              (fun e => bool_decide (e.1.1 ∈ keep) && bool_decide (e.1.2 ∈ keep)) (net m) |}.

Definition resolve_leader `{PyRepr} (m : MarginMatrix) (resolver : string) : result (option string) :=
  match ids m with
  | [] => Ok None
  | _ =>
      match condorcet_check m with
      | Some c => Ok (Some c)
      | None =>
          let smith := smith_set m in
          let pruned := match smith with [] => m | _ => _restrict m smith end in
          if String.eqb resolver "ranked_pairs"
          then try r <- ranked_pairs pruned; Ok (rp_winner r)
          else if String.eqb resolver "copeland" then Ok (head (copeland_order pruned))
          else Raise (ValueError ("unknown resolver " +:+ py_repr (JStr resolver)
                                  +:+ "; expected 'ranked_pairs' or 'copeland'"))
      end
  end.
