(* ===== verification/ResolveSpec.v ===== *)
(** The resolver tier's contract: the matrix is asymmetric, the Condorcet winner
    is the one who beats everybody, the Smith set is the smallest dominating set,
    Ranked Pairs locks an acyclic relation that its order respects and crowns the
    Condorcet winner when there is one, and the dispatch always names a member of
    the Smith set. *)

From S2P Require Import Prelude PyFloat PyJson Params Resolve.

(** ** Well-formed matrices *)

Record wf_matrix (m : MarginMatrix) : Prop := {
  wf_ids : NoDup (ids m);
  wf_net_keys : NoDup (dict_keys (net m));
  wf_net_ids : forall a b, (a, b) ∈ dict_keys (net m) -> a ∈ ids m /\ b ∈ ids m /\ a <> b;
  wf_asym : forall a b, beats m a b = true -> beats m b a = false;
}.

Lemma beats_key m a b : beats m a b = true -> (a, b) ∈ dict_keys (net m).
Proof.
  unfold beats, margin, dict_get_or. intros Hb. apply dict_mem_true. unfold dict_mem.
  destruct (dict_get (net m) (a, b)); [done|]. cbn in Hb. by rewrite flt_irrefl in Hb.
Qed.

Lemma unordered_comm a b : unordered a b = unordered b a.
Proof.
  unfold unordered. destruct (String.leb a b) eqn:E1, (String.leb b a) eqn:E2; try done.
  - by rewrite (String.leb_antisym a b).
  - destruct (String.leb_total a b); congruence.
Qed.

(** The raw loop: distinct ids and keys, every key over two distinct known ids. *)
Definition raw_ok (acc : list string * list ((string * string) * float)) : Prop :=
  NoDup acc.1 /\ NoDup (dict_keys acc.2)
  /\ forall a b, (a, b) ∈ dict_keys acc.2 -> a ∈ acc.1 /\ b ∈ acc.1 /\ a <> b.

Lemma add_duel_ok acc d : raw_ok acc -> raw_ok (add_duel acc d).
Proof.
  destruct acc as [l raw]. intros (Hl & Hk & Hin). unfold add_duel.
  destruct (String.eqb_spec (winner d) (loser d)) as [|Hne]; [done|].
  split_and!; cbn in *.
  - by apply note_id_NoDup, note_id_NoDup.
  - auto with zicato.
  - intros a b. rewrite dict_keys_set, !elem_of_note_id.
    case_decide; [intros Hab; apply Hin in Hab; naive_solver|].
    rewrite elem_of_app, list_elem_of_singleton.
    intros [Hab|[= -> ->]]; [apply Hin in Hab|]; naive_solver.
Qed.

Lemma raw_margins_ok duels : raw_ok (raw_margins duels).
Proof.
  unfold raw_margins. cut (forall acc, raw_ok acc -> raw_ok (foldl add_duel acc duels)).
  { intros H. apply H. split_and!; try constructor; cbn; set_solver. }
  induction duels as [|d duels IH]; [done|]. intros acc Hacc. apply IH, add_duel_ok, Hacc.
Qed.

(** The netting loop. *)
Definition net_ok (raw : list ((string * string) * float))
    (acc : list ((string * string) * float) * list (string * string)) : Prop :=
  NoDup (dict_keys acc.1)
  /\ forall a b, (a, b) ∈ dict_keys acc.1 ->
       unordered a b ∈ acc.2
       /\ ((a, b) ∈ dict_keys raw \/ (b, a) ∈ dict_keys raw)
       /\ (b, a) ∉ dict_keys acc.1
       /\ exists x, dict_get acc.1 (a, b) = Some x /\ flt f0 x = true
            /\ (x = fsub (dict_get_or raw (a, b) f0) (dict_get_or raw (b, a) f0)
                \/ x = fneg (fsub (dict_get_or raw (b, a) f0) (dict_get_or raw (a, b) f0))).

Lemma net_ok_set raw n handled a b x :
  a <> b -> net_ok raw (n, handled) -> unordered a b ∉ handled -> flt f0 x = true ->
  ((a, b) ∈ dict_keys raw \/ (b, a) ∈ dict_keys raw) ->
  (x = fsub (dict_get_or raw (a, b) f0) (dict_get_or raw (b, a) f0)
   \/ x = fneg (fsub (dict_get_or raw (b, a) f0) (dict_get_or raw (a, b) f0))) ->
  net_ok raw (dict_set n (a, b) x, unordered a b :: handled).
Proof.
  intros Hab [Hnd Hn] Hh Hx Hraw Hxs. cbn in *. split; [by apply NoDup_dict_keys_set|].
  assert (Hfresh : forall c d, (c, d) ∈ dict_keys n -> unordered c d <> unordered a b).
  { intros c d Hcd Heq. apply Hn in Hcd as [Hcd _]. congruence. }
  intros c d Hcd. cbn in *. rewrite dict_keys_set in Hcd |- *.
  rewrite decide_False in Hcd |- * by (intros Hc; by apply (Hfresh a b)).
  rewrite elem_of_app, list_elem_of_singleton in Hcd.
  rewrite not_elem_of_app, list_elem_of_singleton. destruct Hcd as [Hcd|[= -> ->]].
  - pose proof (Hfresh _ _ Hcd) as Hne. apply Hn in Hcd as (H1 & H2 & H3 & y & H4 & H5).
    split_and!; [by right|done|done| |].
    + intros [= -> ->]. apply Hne, unordered_comm.
    + exists y. split; [|done]. rewrite dict_get_set_ne; [done|]. intros [= -> ->]. done.
  - split_and!; [by left|done| |congruence|exists x; by rewrite dict_get_set_eq].
    intros Hc%Hfresh. by rewrite unordered_comm in Hc.
Qed.

Lemma net_pair_ok raw acc a b :
  a <> b -> (a, b) ∈ dict_keys raw -> net_ok raw acc -> net_ok raw (net_pair raw acc (a, b)).
Proof.
  destruct acc as [n handled]. intros Hab Hraw Hok. unfold net_pair.
  case_bool_decide as Hh; [done|].
  destruct (flt f0 _) eqn:E1; [apply net_ok_set; auto|].
  destruct (flt _ f0) eqn:E2.
  - rewrite unordered_comm. apply net_ok_set; auto; [by rewrite unordered_comm|].
    by rewrite flt_0_fneg.
  - destruct Hok as [Hnd Hn]. split; [done|]. cbn in *. intros c d Hcd.
    apply Hn in Hcd as (? & ? & ? & ?). split_and!; [by right|done..].
Qed.

Lemma build_matrix_net_ok duels :
  net_ok (raw_margins duels).2
    (foldl (net_pair (raw_margins duels).2) ([], []) (dict_keys (raw_margins duels).2)).
Proof.
  destruct (raw_margins_ok duels) as (_ & _ & Hin). set (raw := (raw_margins duels).2) in *.
  assert (Hgen : forall keys acc, keys ⊆ dict_keys raw -> net_ok raw acc ->
                 net_ok raw (foldl (net_pair raw) acc keys)).
  { induction keys as [|[a b] keys IH]; [done|]. intros acc Hsub Hacc. cbn [foldl].
    assert ((a, b) ∈ dict_keys raw) as Hk by (apply Hsub; set_solver).
    apply IH; [set_solver|]. apply net_pair_ok; [|done|done]. by destruct (Hin _ _ Hk) as (_ & _ & ?). }
  apply Hgen; [done|]. split; [constructor|]. cbn. set_solver.
Qed.

(** The total margin the duels give [a] over [b]. *)
Definition total_margin (duels : list Duel) (a b : string) : float :=
  dict_get_or (raw_margins duels).2 (a, b) f0.

Lemma build_matrix_wf duels : wf_matrix (build_matrix duels).
Proof.
  pose proof (raw_margins_ok duels) as (Hl & _ & Hin).
  pose proof (build_matrix_net_ok duels) as [Hnd Hn].
  unfold build_matrix. destruct (raw_margins duels) as [l raw] eqn:E. cbn in *.
  set (n := (foldl (net_pair raw) ([], []) (dict_keys raw)).1) in *.
  split; cbn; [done|done| |].
  - intros a b Hab. destruct (Hn _ _ Hab) as (_ & [H|H] & _); apply Hin in H as (? & ? & ?); auto.
  - intros a b Hab%beats_key. destruct (Hn _ _ Hab) as (_ & _ & Hba & _).
    apply not_true_iff_false. by intros Hc%beats_key.
Qed.

(** The matrix nets the duels: it is well formed (distinct contestants,
    every edge over two of them, at most one direction per pairing), and an edge
    exists only for a side whose total margin over the other is the larger, and
    holds exactly that difference. *)
Theorem build_matrix_sound duels :
  wf_matrix (build_matrix duels)
  /\ forall a b, beats (build_matrix duels) a b = true ->
       margin (build_matrix duels) a b
       = fsub (total_margin duels a b) (total_margin duels b a)
       \/ margin (build_matrix duels) a b
          = fneg (fsub (total_margin duels b a) (total_margin duels a b)).
Proof.
  split; [apply build_matrix_wf|]. intros a b Hab.
  pose proof (build_matrix_net_ok duels) as [_ Hn].
  apply beats_key in Hab. unfold margin, total_margin, build_matrix in *.
  destruct (raw_margins duels) as [l raw]. cbn in *.
  destruct (Hn _ _ Hab) as (_ & _ & _ & x & Hx & _ & Hxs).
  unfold dict_get_or at 1 4. by rewrite Hx.
Qed.

(** ** Condorcet winner *)

Definition condorcet_winner (m : MarginMatrix) (a : string) : Prop :=
  a ∈ ids m /\ forall b, b ∈ ids m -> b <> a -> beats m a b = true.

Lemma beats_all_true m a :
  beats_all m a = true <-> forall b, b ∈ ids m -> b <> a -> beats m a b = true.
Proof.
  unfold beats_all. rewrite forallb_forall. setoid_rewrite <-list_elem_of_In.
  split; intros H b Hb.
  - intros Hne. apply H in Hb. by destruct (String.eqb_spec b a).
  - destruct (String.eqb_spec b a); [done|]. by apply H.
Qed.

Lemma condorcet_winner_unique m a b :
  wf_matrix m -> condorcet_winner m a -> condorcet_winner m b -> a = b.
Proof.
  intros Hwf [Ha Hab] [Hb Hba]. destruct (decide (a = b)) as [|Hne]; [done|].
  pose proof (wf_asym m Hwf a b (Hab b Hb ltac:(done))) as Hc.
  by rewrite (Hba a Ha Hne) in Hc.
Qed.

Lemma condorcet_check_iff m a :
  wf_matrix m -> condorcet_check m = Some a <-> condorcet_winner m a.
Proof.
  intros Hwf. unfold condorcet_check. split.
  - intros [Ha Hall]%find_first_Some. split; [done|]. by apply beats_all_true.
  - intros [Ha Hall]. destruct (find_first _ _) as [b|] eqn:E.
    + f_equal. apply find_first_Some in E as [Hb Hbb].
      apply (condorcet_winner_unique m); [done|split; [done|by apply beats_all_true]|done].
    + apply (find_first_None _ _ a) in E; [|done]. by apply beats_all_true in Hall; rewrite Hall in E.
Qed.

(** On every matrix the duels build, the Condorcet check returns a
    contestant exactly when that contestant beats every other one, so the winner
    it names is the only possible one. *)
Theorem condorcet_check_correct duels a :
  condorcet_check (build_matrix duels) = Some a <-> condorcet_winner (build_matrix duels) a.
Proof. apply condorcet_check_iff, build_matrix_wf. Qed.

(** ** Smith set *)

(** A set of contestants each of whom beats everybody outside it. *)
Definition dominating (m : MarginMatrix) (D : list string) : Prop :=
  (exists x, x ∈ D) /\ (forall x, x ∈ D -> x ∈ ids m)
  /\ forall x y, x ∈ D -> y ∈ ids m -> y ∉ D -> beats m x y = true.

Lemma verdict_range m a b : (-1 <= verdict m a b <= 1)%Z.
Proof. unfold verdict, b2z. destruct (String.eqb _ _), (beats m a b), (beats m b a); lia. Qed.

Lemma verdict_self m a : verdict m a a = 0%Z.
Proof. unfold verdict. by rewrite String.eqb_refl. Qed.

Lemma verdict_beats m a b : wf_matrix m -> a <> b -> beats m a b = true -> verdict m a b = 1%Z.
Proof.
  intros Hwf Hne Hb. unfold verdict. rewrite Hb, (wf_asym m Hwf a b Hb).
  by destruct (String.eqb_spec b a).
Qed.

Lemma verdict_beaten m a b : wf_matrix m -> a <> b -> beats m b a = true -> verdict m a b = (-1)%Z.
Proof.
  intros Hwf Hne Hb. unfold verdict. rewrite Hb, (wf_asym m Hwf b a Hb).
  by destruct (String.eqb_spec b a).
Qed.

(** A pointwise bound on the scores' terms, strict at one of them. *)
Lemma sum_pointwise_le (f g : string -> Z) (l : list string) :
  (forall o, o ∈ l -> (g o <= f o)%Z) ->
  (foldr (fun b acc => (g b + acc)%Z) 0%Z l <= foldr (fun b acc => (f b + acc)%Z) 0%Z l)%Z.
Proof.
  induction l as [|o l IH]; intros H; cbn; [done|].
  assert (g o <= f o)%Z by (apply H; set_solver).
  assert (forall o, o ∈ l -> (g o <= f o)%Z) as Hl by (intros; apply H; set_solver).
  specialize (IH Hl). lia.
Qed.

Lemma sum_pointwise_lt (f g : string -> Z) (l : list string) x :
  (forall o, o ∈ l -> (g o <= f o)%Z) -> x ∈ l -> (g x < f x)%Z ->
  (foldr (fun b acc => (g b + acc)%Z) 0%Z l < foldr (fun b acc => (f b + acc)%Z) 0%Z l)%Z.
Proof.
  induction l as [|o l IH]; intros H Hx Hlt; [set_solver|]. cbn.
  assert (g o <= f o)%Z by (apply H; set_solver).
  assert (forall o, o ∈ l -> (g o <= f o)%Z) as Hl by (intros; apply H; set_solver).
  pose proof (sum_pointwise_le f g l Hl).
  apply elem_of_cons in Hx as [<-|Hx]; [lia|]. specialize (IH Hl Hx Hlt). lia.
Qed.

(** A member of a dominating set outscores every outsider. *)
Lemma smith_score_dominating m D x y :
  wf_matrix m -> dominating m D -> x ∈ D -> y ∈ ids m -> y ∉ D ->
  (smith_score m y < smith_score m x)%Z.
Proof.
  intros Hwf (_ & Hsub & Hdom) Hx Hy HyD. unfold smith_score.
  assert (x <> y) by (by intros ->).
  apply (sum_pointwise_lt _ _ _ x); [|by apply Hsub|].
  - intros o Ho. destruct (decide (o ∈ D)) as [HoD|HoD].
    + rewrite (verdict_beaten m y o); [|done|by intros ->|by apply Hdom].
      pose proof (verdict_range m x o). lia.
    + rewrite (verdict_beats m x o); [|done|by intros ->|by apply Hdom].
      pose proof (verdict_range m y o). lia.
  - rewrite verdict_self, (verdict_beaten m y x); [lia|done|done|by apply Hdom].
Qed.

#[export] Instance smith_score_swo m :
  StrictWeakOrder (fun x y => (smith_score m x <? smith_score m y)%Z) (fun _ => True).
Proof. split; intros *; rewrite ?Z.ltb_ge, ?Z.ltb_lt; lia. Qed.

(** [max] returns an element nothing exceeds. *)
Lemma smith_seed_max m s :
  smith_seed m = Some s ->
  s ∈ ids m /\ forall y, y ∈ ids m -> (smith_score m y <= smith_score m s)%Z.
Proof.
  unfold smith_seed, py_max. destruct (ids m) as [|x l]; [done|]. intros [= <-].
  revert x. induction l as [|z l IH]; intros x; cbn.
  - split; [set_solver|]. intros y Hy%list_elem_of_singleton. by subst.
  - destruct (Z.ltb_spec (smith_score m x) (smith_score m z)) as [Hlt|Hge].
    + destruct (IH z) as [H1 H2]. split; [set_solver|].
      intros y [->|Hy]%elem_of_cons; [|by apply H2].
      specialize (H2 z ltac:(set_solver)). lia.
    + destruct (IH x) as [H1 H2]. split; [set_solver|].
      intros y [->|[->|Hy]%elem_of_cons]%elem_of_cons; [apply H2; set_solver| |apply H2; set_solver].
      specialize (H2 x ltac:(set_solver)). lia.
Qed.

(** The inner loop admits, in both lists, exactly the outsiders the member does
    not beat. *)
Lemma smith_visit_spec m member l members pending :
  NoDup members ->
  exists new,
    foldl (smith_visit m member) (members, pending) l = (new ++ members, new ++ pending)
    /\ NoDup (new ++ members)
    /\ forall x, x ∈ new ++ members <-> x ∈ members \/ x ∈ l /\ beats m member x = false.
Proof.
  revert members pending. induction l as [|o l IH]; intros members pending Hnd; cbn.
  { exists []. split_and!; [done|done|]. set_solver. }
  destruct (bool_decide (o ∈ members)) eqn:Em; cbn.
  { apply bool_decide_eq_true in Em. destruct (IH members pending Hnd) as (new & -> & Hnd' & Hin).
    exists new. split_and!; [done|done|]. intros x. rewrite Hin. set_solver. }
  apply bool_decide_eq_false in Em. destruct (beats m member o) eqn:Eb; cbn.
  { destruct (IH members pending Hnd) as (new & -> & Hnd' & Hin).
    exists new. split_and!; [done|done|]. intros x. rewrite Hin, elem_of_cons.
    split; [naive_solver|]. intros [|[[->|] ?]]; [by left|congruence|by right]. }
  destruct (IH (o :: members) (o :: pending)) as (new & -> & Hnd' & Hin); [by constructor|].
  exists (new ++ [o]). rewrite <-!app_assoc. split_and!; [done|done|].
  intros x. rewrite Hin, !elem_of_cons. naive_solver.
Qed.

(** The loop's invariant: the members stay known and distinct, those already
    popped beat everybody outside, and every dominating set that holds the first
    members holds the others. *)
Definition smith_inv (m : MarginMatrix) (s : string) (members pending : list string) : Prop :=
  NoDup members /\ (forall x, x ∈ members -> x ∈ ids m) /\ s ∈ members
  /\ (forall x, x ∈ pending -> x ∈ members)
  /\ (forall x y, x ∈ members -> x ∉ pending -> y ∈ ids m -> y ∉ members -> beats m x y = true)
  /\ (forall D, dominating m D -> s ∈ D -> forall x, x ∈ members -> x ∈ D).

Lemma smith_loop_spec m s fuel members pending :
  smith_inv m s members pending ->
  length (ids m) - length members + length pending <= fuel ->
  exists result, smith_loop m fuel members pending = Some result /\ smith_inv m s result [].
Proof.
  revert members pending. induction fuel as [|fuel IH]; intros members pending Hinv Hfuel.
  { destruct pending; [|cbn in Hfuel; lia]. by exists members. }
  destruct pending as [|x pending]; [by exists members|].
  destruct Hinv as (Hnd & Hids & Hs & Hpend & Hbeat & Hmin). cbn [smith_loop].
  destruct (smith_visit_spec m x (ids m) members pending Hnd) as (new & -> & Hnd' & Hin).
  assert (Hx : x ∈ members) by (apply Hpend; set_solver).
  assert (Hids' : forall y, y ∈ new ++ members -> y ∈ ids m).
  { intros y [?|[? _]]%Hin; auto. }
  apply IH.
  - split_and!; try done.
    + apply Hin. by left.
    + intros y [Hy|Hy]%elem_of_app; [set_solver|]. apply Hin. left. apply Hpend. set_solver.
    + intros y z Hy Hyp Hz Hzm.
      assert (z ∉ members) by (intros ?; apply Hzm, Hin; by left).
      destruct (decide (y = x)) as [->|Hne].
      * apply not_false_iff_true. intros Hb. apply Hzm, Hin. by right.
      * apply Hbeat; [|set_solver|done|done]. apply elem_of_app in Hy as [Hy|Hy]; [set_solver|done].
    + intros D HD HsD y [Hy|[Hy Hb]]%Hin; [by eapply Hmin|].
      destruct (decide (y ∈ D)) as [|HyD]; [done|].
      destruct HD as (Hne & Hsub & Hdom).
      assert (beats m x y = true) as Hc; [|congruence].
      apply Hdom; [|done|done]. by apply (Hmin D).
  - assert (length (new ++ members) <= length (ids m)).
    { apply (submseteq_length (new ++ members)), NoDup_submseteq; [done|]. exact Hids'. }
    rewrite !length_app in *. cbn in Hfuel. lia.
Qed.

Lemma smith_set_spec m s :
  smith_seed m = Some s ->
  exists members, smith_loop m (length (ids m)) [s] [s] = Some members /\ smith_inv m s members [].
Proof.
  intros [Hs _]%smith_seed_max. apply smith_loop_spec.
  - split_and!; try set_solver. constructor; [set_solver|constructor].
  - cbn. destruct (ids m); [set_solver|]. cbn. lia.
Qed.

Lemma elem_of_smith_set m s members x :
  smith_seed m = Some s -> smith_loop m (length (ids m)) [s] [s] = Some members ->
  smith_inv m s members [] -> x ∈ smith_set m <-> x ∈ members.
Proof.
  intros Hs Hm (_ & Hids & _). unfold smith_set. rewrite Hs, Hm, elem_of_filter_In.
  rewrite bool_decide_eq_true. split; [naive_solver|]. intros; split; auto.
Qed.

Lemma smith_seed_Some m : ids m <> [] -> exists s, smith_seed m = Some s.
Proof. unfold smith_seed, py_max. destruct (ids m); [done|eauto]. Qed.

Lemma smith_set_dominating m : wf_matrix m -> ids m <> [] -> dominating m (smith_set m).
Proof.
  intros Hwf (s & Hs)%smith_seed_Some. destruct (smith_set_spec m s Hs) as (mem & Hm & Hinv).
  pose proof (fun x => elem_of_smith_set m s mem x Hs Hm Hinv) as Hin.
  destruct Hinv as (_ & Hids & Hsm & _ & Hbeat & _). split_and!.
  - exists s. by apply Hin.
  - intros x Hx%Hin. auto.
  - intros x y Hx%Hin Hy Hn. apply Hbeat; [done|set_solver|done|]. by rewrite <-Hin.
Qed.

Lemma smith_set_least m D : wf_matrix m -> dominating m D -> smith_set m ⊆ D.
Proof.
  intros Hwf HD x Hx. unfold smith_set in Hx.
  destruct (smith_seed m) as [s|] eqn:Hs; [|set_solver].
  destruct (smith_set_spec m s Hs) as (mem & Hm & Hinv).
  rewrite Hm, elem_of_filter_In, bool_decide_eq_true in Hx. destruct Hx as [_ Hx].
  destruct Hinv as (_ & _ & _ & _ & _ & Hmin). apply (Hmin D HD); [|done].
  destruct (decide (s ∈ D)) as [|HsD]; [done|].
  pose proof (smith_seed_max m s Hs) as [Hsi Hmax].
  destruct (proj1 HD) as [d Hd].
  pose proof (smith_score_dominating m D d s Hwf HD Hd Hsi HsD).
  specialize (Hmax d (proj1 (proj2 HD) d Hd)). lia.
Qed.

(** The Smith set of every non-empty matrix the duels build is the smallest
    dominating set: each member beats every outsider, and it is contained in every
    set with that property.  The admission loop ends within one visit per
    contestant. *)
Theorem smith_set_correct duels :
  ids (build_matrix duels) <> [] ->
  dominating (build_matrix duels) (smith_set (build_matrix duels))
  /\ forall D, dominating (build_matrix duels) D -> smith_set (build_matrix duels) ⊆ D.
Proof.
  intros Hne. pose proof (build_matrix_wf duels) as Hwf.
  split; [by apply smith_set_dominating|]. intros D. by apply smith_set_least.
Qed.

(** ** Ranked Pairs *)

Definition edge_of (s : LockStep) : string * string := (ls_winner s, ls_loser s).

(** The edges the trace locked, as a relation. *)
Definition locked (trace : list LockStep) (a b : string) : Prop :=
  exists s, s ∈ trace /\ ls_locked s = true /\ edge_of s = (a, b).

(** Adding one edge to a relation. *)
Lemma tc_add (R R' : relation string) a b :
  (forall x y, R' x y <-> R x y \/ (x = a /\ y = b)) ->
  forall g x, tc R' g x <-> tc R g x \/ ((g = a \/ tc R g a) /\ (x = b \/ tc R b x)).
Proof.
  intros HR g x. split.
  - induction 1 as [g x Hgx|g y x Hgy _ IH].
    + apply HR in Hgx as [?|[-> ->]]; [left; by apply tc_once|auto].
    + apply HR in Hgy as [Hgy|[-> ->]].
      * destruct IH as [?|[[->|?] ?]]; [left; by eapply tc_l| |].
        -- right. split; [right; by apply tc_once|done].
        -- right. split; [right; by eapply tc_l|done].
      * destruct IH as [?|[_ ?]]; auto.
  - assert (Hsub : forall u v, tc R u v -> tc R' u v).
    { intros u v. apply tc_congruence with (f := fun z => z). intros. apply HR. by left. }
    assert (Hab : R' a b) by (apply HR; auto).
    intros [?|[Hg Hx]]; [auto|].
    assert (tc R' g b) as Hgb.
    { destruct Hg as [->|Hg]; [by apply tc_once|]. eapply tc_r; [by apply Hsub|done]. }
    destruct Hx as [->|Hx]; [done|]. etransitivity; [done|auto].
Qed.

(** The reachability sets hold the transitive closure of the locked edges, which
    is acyclic, and every skipped edge would have closed a cycle. *)
Record reach_ok (ids : list string) (reach : Reach) (trace : list LockStep) : Prop := {
  reach_dom : forall g, g ∈ ids -> is_Some (reach !! g);
  reach_tc : forall g s, reach !! g = Some s -> forall x, x ∈ s <-> tc (locked trace) g x;
  reach_ids : forall a b, locked trace a b -> a ∈ ids /\ b ∈ ids;
  reach_acyclic : forall a, ~ tc (locked trace) a a;
  reach_skipped : forall s, s ∈ trace -> ls_locked s = false ->
    tc (locked trace) (ls_loser s) (ls_winner s);
}.

Lemma locked_app trace s a b :
  locked (trace ++ [s]) a b <-> locked trace a b \/ (ls_locked s = true /\ edge_of s = (a, b)).
Proof.
  unfold locked. setoid_rewrite elem_of_app. setoid_rewrite list_elem_of_singleton.
  split; [intros (s' & [?| ->] & ? & ?); eauto|]. intros [(s' & ? & ? & ?)|[? ?]]; eauto.
Qed.

Lemma extend_reach_lookup a newly l reach g :
  NoDup l ->
  foldl (extend_reach a newly) reach l !! g
  = (fun s => if bool_decide (g ∈ l) && (bool_decide (g = a) || bool_decide (a ∈ s))
              then s ∪ newly else s) <$> reach !! g.
Proof.
  intros Hnd. revert reach. induction Hnd as [|o l Ho Hnd IH]; intros reach; cbn [foldl].
  { cbn. by destruct (reach !! g). }
  rewrite IH. unfold extend_reach at 1.
  destruct (decide (g = o)) as [->|Hne].
  - rewrite (bool_decide_eq_false_2 (o ∈ l)), (bool_decide_eq_true_2 (o ∈ o :: l)) by set_solver.
    cbn [andb]. destruct (reach !! o) as [rn|] eqn:E; [|by rewrite E].
    destruct (bool_decide (o = a) || bool_decide (a ∈ rn)) eqn:Ec.
    + rewrite lookup_insert, decide_True by done. cbn. by rewrite Ec.
    + rewrite E. cbn. by rewrite Ec.
  - assert (bool_decide (g ∈ o :: l) = bool_decide (g ∈ l)) as ->
      by (apply bool_decide_ext; set_solver).
    destruct (reach !! o) as [rn|] eqn:E; [|done].
    destruct (bool_decide (o = a) || bool_decide (a ∈ rn)); [|done].
    by rewrite lookup_insert_ne.
Qed.

(** Skipping an edge that closes a cycle keeps the relation. *)
Lemma reach_ok_skip ids reach trace s :
  ls_locked s = false -> tc (locked trace) (ls_loser s) (ls_winner s) ->
  reach_ok ids reach trace -> reach_ok ids reach (trace ++ [s]).
Proof.
  intros Hs Hcycle [H1 H2 H3 H4 H5].
  assert (Hl : forall u v, locked (trace ++ [s]) u v <-> locked trace u v).
  { intros. rewrite locked_app, Hs. naive_solver. }
  assert (Htc : forall u v, tc (locked (trace ++ [s])) u v <-> tc (locked trace) u v).
  { intros. split; apply (tc_congruence (fun z => z)); intros; by apply Hl. }
  split.
  - done.
  - intros g t Hg y. rewrite Htc. by apply H2.
  - intros u v Huv%Hl. by apply H3.
  - intros u Hu%Htc. by apply (H4 u).
  - intros s' Hs' Hsk. apply Htc.
    apply elem_of_app in Hs' as [Hs'|Hs'%list_elem_of_singleton]; [auto|by subst s'].
Qed.

(** Locking an edge whose target does not reach its source, with sets that grow
    by the target and what it reaches wherever the source is reachable. *)
Lemma reach_ok_lock ids reach reach' trace s a b rb :
  edge_of s = (a, b) -> ls_locked s = true -> a ∈ ids -> b ∈ ids -> a <> b ->
  reach_ok ids reach trace -> reach !! b = Some rb -> a ∉ rb ->
  (forall g, g ∈ ids -> is_Some (reach' !! g)) ->
  (forall g t, reach' !! g = Some t -> exists t0, reach !! g = Some t0 /\
     forall y, y ∈ t <-> y ∈ t0 \/ ((g = a \/ a ∈ t0) /\ (y = b \/ y ∈ rb))) ->
  reach_ok ids reach' (trace ++ [s]).
Proof.
  intros Hs Hsl Ha Hb Hab Hok Hrb Harb Hdom Hr.
  assert (Hl : forall u v, locked (trace ++ [s]) u v <-> locked trace u v \/ (u = a /\ v = b)).
  { intros. rewrite locked_app, Hs. naive_solver. }
  pose proof (tc_add _ _ a b Hl) as Htc.
  assert (Hba : ~ tc (locked trace) b a) by (by rewrite <-(reach_tc _ _ _ Hok b rb Hrb)).
  split.
  - done.
  - intros g t Hg y. apply Hr in Hg as (t0 & Hg & Ht). rewrite Ht, Htc.
    rewrite (reach_tc _ _ _ Hok g t0 Hg y), (reach_tc _ _ _ Hok g t0 Hg a).
    by rewrite (reach_tc _ _ _ Hok b rb Hrb y).
  - intros u v [Huv|[-> ->]]%Hl; [by apply (reach_ids _ _ _ Hok)|done].
  - intros u [Hu|[[->|Hu1] [Hu2|Hu2]]]%Htc.
    + by apply (reach_acyclic _ _ _ Hok u).
    + done.
    + done.
    + by subst.
    + apply Hba. by etransitivity.
  - intros s' Hs' Hsk. apply Htc. left. apply (reach_skipped _ _ _ Hok); [|done].
    apply elem_of_app in Hs' as [Hs'|Hs'%list_elem_of_singleton]; [done|congruence].
Qed.

Lemma reach_only_ids ids reach trace g t y :
  reach_ok ids reach trace -> reach !! g = Some t -> y ∈ t -> g ∈ ids.
Proof.
  intros Hok Hg Hy%(reach_tc _ _ _ Hok g t Hg). inversion Hy; subst;
    match goal with H : locked trace g _ |- _ => by apply (reach_ids _ _ _ Hok) in H as [? ?] end.
Qed.

Lemma lock_edge_ok ids reach trace a b x :
  NoDup ids -> a ∈ ids -> b ∈ ids -> a <> b -> reach_ok ids reach trace ->
  exists reach' s, lock_edge ids (reach, trace) (a, b, x) = Ok (reach', trace ++ [s])
    /\ (ls_winner s, ls_loser s, ls_margin s) = (a, b, x)
    /\ reach_ok ids reach' (trace ++ [s])
    /\ (ls_locked s = false -> tc (locked trace) b a).
Proof.
  intros Hnd Ha Hb Hab Hok. unfold lock_edge.
  destruct (reach_dom _ _ _ Hok b Hb) as [rb Hrb]. rewrite Hrb.
  rewrite (bool_decide_eq_false_2 (b = a)) by congruence. rewrite orb_false_r.
  case_bool_decide as Harb.
  { pose proof (proj1 (reach_tc _ _ _ Hok b rb Hrb a) Harb) as Hba.
    eexists _, _. split; [reflexivity|]. split_and!; [done| |done]. by apply reach_ok_skip. }
  set (newly := {[b]} ∪ rb). destruct (reach_dom _ _ _ Hok a Ha) as [ra Hra].
  pose proof (fun g => extend_reach_lookup a newly ids reach g Hnd) as Hlk.
  set (reach1 := foldl (extend_reach a newly) reach ids) in *.
  assert (Hra1 : reach1 !! a = Some (ra ∪ newly)).
  { rewrite Hlk, Hra. cbn.
    by rewrite (bool_decide_eq_true_2 (a ∈ ids)), (bool_decide_eq_true_2 (a = a)). }
  rewrite Hra1. eexists _, _. split; [reflexivity|]. split_and!; [done| |done].
  eapply reach_ok_lock; try done.
  - intros g Hg. destruct (decide (g = a)) as [->|Hga]; [by rewrite lookup_insert, decide_True|].
    rewrite lookup_insert_ne, Hlk by done. destruct (reach_dom _ _ _ Hok g Hg) as [t ->]. by eexists.
  - intros g t. destruct (decide (g = a)) as [->|Hga].
    + rewrite lookup_insert, decide_True by done. intros [= <-]. exists ra. split; [done|].
      unfold newly. set_solver.
    + rewrite lookup_insert_ne, Hlk by done. destruct (reach !! g) as [t0|] eqn:Hg; [|done].
      cbn. intros [= <-]. exists t0. split; [done|]. intros y.
      rewrite (bool_decide_eq_false_2 (g = a)) by done. cbn [orb].
      destruct (decide (a ∈ t0)) as [Et|Et].
      * pose proof (reach_only_ids _ _ _ _ _ _ Hok Hg Et).
        rewrite !bool_decide_eq_true_2 by done. cbn. unfold newly. set_solver.
      * rewrite (bool_decide_eq_false_2 (a ∈ t0)), andb_false_r by done. set_solver.
Qed.

Lemma str_lt_on {A} (f : A -> string) :
  StrictWeakOrder (fun x y => str_lt (f x) (f y)) (fun _ => True).
Proof. exact (swo_on f str_lt (fun _ => True) str_lt_swo). Qed.

#[export] Instance edge_lt_swo : StrictWeakOrder edge_lt (fun e => is_nan (fneg e.2) = false).
Proof.
  apply (swo_ext (fun e1 e2 => if feq (fneg e1.2) (fneg e2.2)
                               then if String.eqb e1.1.1 e2.1.1 then str_lt e1.1.2 e2.1.2
                                    else str_lt e1.1.1 e2.1.1
                               else flt (fneg e1.2) (fneg e2.2))).
  { by intros [[? ?] ?] [[? ?] ?]. }
  apply lex_swo.
  - exact (swo_on (fun e : Edge => fneg e.2) flt _ flt_swo).
  - eapply swo_weaken; [|apply lex_swo; [apply (str_lt_on (fun e : Edge => e.1.1))
      |apply (str_lt_on (fun e : Edge => e.1.2))|]]; [done|]. intros. apply str_eqb_lt.
  - intros x y Hx Hy. by apply feq_flt_total.
Qed.

#[export] Instance rank_lt_swo m reach : StrictWeakOrder (rank_lt m reach) (fun _ => True).
Proof.
  unfold rank_lt. apply (swo_ext (fun x y =>
    if Nat.eqb (reach_size reach y) (reach_size reach x)
    then if (copeland_score m y =? copeland_score m x)%Z then str_lt x y
         else (copeland_score m y <? copeland_score m x)%Z
    else reach_size reach y <? reach_size reach x)).
  { intros x y. cbn. by rewrite Nat.eqb_sym, Z.eqb_sym. }
  assert (Hflip : forall A (f : string -> A) lt (H : StrictWeakOrder lt (fun _ => True)),
            StrictWeakOrder (fun x y => lt (f y) (f x)) (fun _ => True)).
  { intros A f lt H. split; intros *; intros.
    - by apply (@swo_irrefl _ _ _ H).
    - by apply (@swo_asym _ _ _ H).
    - by eapply (@swo_neg_trans _ _ _ H _ (f y)). }
  apply lex_swo; [apply (Hflip _ _ Nat.ltb nat_ltb_swo)|apply lex_swo|].
  - apply (Hflip _ _ Z.ltb Z_ltb_swo).
  - apply str_lt_swo.
  - intros x y _ _. rewrite Z_eqb_ltb. done.
  - intros x y _ _. rewrite nat_eqb_ltb. done.
Qed.

Lemma elem_of_matrix_edges m a b x :
  (a, b, x) ∈ matrix_edges m <-> ((a, b), x) ∈ net m /\ flt f0 x = true.
Proof.
  unfold matrix_edges. rewrite elem_of_py_sorted, list_elem_of_fmap. split.
  - intros ([[a' b'] x'] & [= -> -> ->] & [? ?]%elem_of_filter_In). done.
  - intros [? ?]. exists ((a, b), x). split; [done|]. by apply elem_of_filter_In.
Qed.

Lemma matrix_edges_sorted m : StronglySorted (not_after edge_lt) (matrix_edges m).
Proof.
  apply (py_sorted_sorted edge_lt _ (H := edge_lt_swo)). apply Forall_forall.
  intros [[a b] x] (((a', b'), x') & [= -> -> ->] & [_ Hx]%elem_of_filter_In)%list_elem_of_fmap.
  cbn in *. rewrite is_nan_fneg. by apply flt_not_nan in Hx as [_ ?].
Qed.

Lemma matrix_edge_wf m a b x :
  wf_matrix m -> (a, b, x) ∈ matrix_edges m ->
  a ∈ ids m /\ b ∈ ids m /\ a <> b /\ beats m a b = true.
Proof.
  intros Hwf [Hin Hx]%elem_of_matrix_edges. pose proof (fmap_snd_elem _ _ _ Hin) as Hk.
  destruct (wf_net_ids m Hwf a b Hk) as (? & ? & ?). split_and!; try done.
  unfold beats, margin, dict_get_or. by rewrite (dict_elem_get _ _ _ (wf_net_keys m Hwf) Hin).
Qed.

Lemma beats_matrix_edge m a b : beats m a b = true -> (a, b, margin m a b) ∈ matrix_edges m.
Proof.
  intros Hb. apply elem_of_matrix_edges. split; [|done]. unfold beats, margin, dict_get_or in *.
  destruct (dict_get (net m) (a, b)) as [x|] eqn:E; cbn in *; [by apply dict_get_Some_elem|].
  by rewrite flt_irrefl in Hb.
Qed.

Definition step_edge (s : LockStep) : Edge := (ls_winner s, ls_loser s, ls_margin s).

Lemma lock_edges_ok ids reach trace es :
  NoDup ids -> (forall a b x, (a, b, x) ∈ es -> a ∈ ids /\ b ∈ ids /\ a <> b) ->
  reach_ok ids reach trace ->
  exists reach' steps, lock_edges ids (reach, trace) es = Ok (reach', trace ++ steps)
    /\ step_edge <$> steps = es /\ reach_ok ids reach' (trace ++ steps).
Proof.
  intros Hnd. revert reach trace. induction es as [|[[a b] x] es IH]; intros reach trace Hes Hok.
  { exists reach, []. by rewrite app_nil_r. }
  destruct (Hes a b x) as (Ha & Hb & Hab); [set_solver|]. cbn [lock_edges].
  destruct (lock_edge_ok ids reach trace a b x Hnd Ha Hb Hab Hok) as (r' & s & -> & Hs & Hok' & _).
  destruct (IH r' (trace ++ [s])) as (r'' & steps & Hst & Hmap & Hok'').
  { intros. apply (Hes a0 b0 x0). set_solver. } { done. }
  exists r'', (s :: steps). cbn [result_bind]. rewrite <-app_assoc in Hst, Hok''.
  split_and!; [done| |done]. rewrite fmap_cons, Hmap. unfold step_edge. by rewrite Hs.
Qed.

Lemma empty_reach_lookup ids g :
  empty_reach ids !! g = if bool_decide (g ∈ ids) then Some ∅ else None.
Proof.
  unfold empty_reach. induction ids as [|o ids IH]; [apply lookup_empty|].
  cbn. rewrite lookup_insert, IH. destruct (decide (o = g)) as [->|].
  - by rewrite bool_decide_eq_true_2 by set_solver.
  - by rewrite (bool_decide_ext (g ∈ o :: ids) (g ∈ ids)) by set_solver.
Qed.

Lemma empty_reach_ok ids : reach_ok ids (empty_reach ids) [].
Proof.
  assert (Hl : forall a b, ~ locked [] a b) by (intros a b (? & ? & _); set_solver).
  assert (Htc : forall a b, ~ tc (locked []) a b)
    by (intros a b H; inversion H; subst; eapply Hl; eauto).
  split.
  - intros g Hg. rewrite empty_reach_lookup, bool_decide_eq_true_2; eauto.
  - intros g s. rewrite empty_reach_lookup. case_bool_decide; [|done]. intros [= <-] x.
    split; [set_solver|]. by intros ?%Htc.
  - by intros a b ?%Hl.
  - intros a. apply Htc.
  - set_solver.
Qed.

(** What a run of Ranked Pairs over at least two contestants computes. *)
Lemma ranked_pairs_run m :
  wf_matrix m -> ids m <> [] ->
  exists reach r, ranked_pairs m = Ok r /\ reach_ok (ids m) reach (rp_trace r)
    /\ step_edge <$> rp_trace r = matrix_edges m
    /\ rp_order r = py_sorted (rank_lt m reach) (ids m) /\ rp_winner r = head (rp_order r).
Proof.
  intros Hwf Hne.
  destruct (lock_edges_ok (ids m) (empty_reach (ids m)) [] (matrix_edges m))
    as (reach & steps & Hrun & Hmap & Hok).
  { apply (wf_ids m Hwf). } { intros a b x Hx. by apply (matrix_edge_wf m) in Hx as (? & ? & ? & _). }
  { apply empty_reach_ok. }
  cbn in *. destruct (ids m) as [|x [|y l]] eqn:E; [done| |].
  - assert (matrix_edges m = []) as He.
    { destruct (matrix_edges m) as [|[[a b] z] es] eqn:Ee; [done|].
      destruct (matrix_edge_wf m a b z Hwf) as (Ha & Hb & Hab & _); [rewrite Ee; set_solver|].
      rewrite E in Ha, Hb. set_solver. }
    rewrite He in Hmap |- *. apply fmap_nil_inv in Hmap as ->.
    exists reach, {| rp_winner := Some x; rp_order := [x]; rp_trace := [] |}.
    unfold ranked_pairs. rewrite E. done.
  - eexists reach, _. split; [unfold ranked_pairs; rewrite E, Hrun; reflexivity|]. done.
Qed.

Lemma locked_size m reach trace a b :
  reach_ok (ids m) reach trace -> locked trace a b -> reach_size reach b < reach_size reach a.
Proof.
  intros Hok Hl. destruct (reach_ids _ _ _ Hok a b Hl) as [Ha Hb]. unfold reach_size.
  destruct (reach_dom _ _ _ Hok a Ha) as [ra Hra], (reach_dom _ _ _ Hok b Hb) as [rb Hrb].
  rewrite Hra, Hrb. cbn. apply subset_size. split.
  - intros y Hy. apply (reach_tc _ _ _ Hok _ _ Hra). apply (reach_tc _ _ _ Hok _ _ Hrb) in Hy.
    by eapply tc_l.
  - intros Hsub. apply (reach_acyclic _ _ _ Hok b). apply (reach_tc _ _ _ Hok _ _ Hrb), Hsub.
    apply (reach_tc _ _ _ Hok _ _ Hra). by apply tc_once.
Qed.

(** Ranked Pairs on any non-empty duel matrix returns a ranking of exactly
    its contestants, headed by the proposed winner; its trace considers every net
    edge once, strongest margin first; the locked edges form an acyclic relation
    that the ranking respects; and each skipped edge would have closed a cycle with
    the locked ones. *)
Theorem ranked_pairs_correct duels :
  ids (build_matrix duels) <> [] ->
  let m := build_matrix duels in
  exists r, ranked_pairs m = Ok r
    /\ rp_order r ≡ₚ ids m /\ rp_winner r = head (rp_order r)
    /\ step_edge <$> rp_trace r = matrix_edges m
    /\ StronglySorted (not_after edge_lt) (step_edge <$> rp_trace r)
    /\ (forall a, ~ tc (locked (rp_trace r)) a a)
    /\ (forall a b, locked (rp_trace r) a b -> precedes (rp_order r) a b)
    /\ (forall s, s ∈ rp_trace r -> ls_locked s = false ->
          tc (locked (rp_trace r)) (ls_loser s) (ls_winner s)).
Proof.
  intros Hne m. pose proof (build_matrix_wf duels : wf_matrix m) as Hwf.
  destruct (ranked_pairs_run m Hwf Hne) as (reach & r & Hr & Hok & Hsteps & Hord & Hwin).
  exists r. split_and!; try done.
  - rewrite Hord. apply py_sorted_perm.
  - rewrite Hsteps. apply matrix_edges_sorted.
  - apply (reach_acyclic _ _ _ Hok).
  - intros a b Hl. destruct (reach_ids _ _ _ Hok a b Hl) as [Ha Hb].
    pose proof (locked_size m reach _ a b Hok Hl) as Hlt. rewrite Hord.
    apply (sorted_precedes (rank_lt m reach)).
    + apply (py_sorted_sorted _ (fun _ => True)). by apply Forall_true.
    + by apply elem_of_py_sorted.
    + by apply elem_of_py_sorted.
    + unfold rank_lt. destruct (Nat.eqb_spec (reach_size reach a) (reach_size reach b)); [lia|].
      by apply Nat.ltb_lt.
    + intros ->. lia.
  - intros s Hs. by apply (reach_skipped _ _ _ Hok).
Qed.

(** A Condorcet winner reaches everybody and nobody reaches it. *)
Lemma condorcet_locked m reach trace c :
  wf_matrix m -> condorcet_winner m c -> reach_ok (ids m) reach trace ->
  step_edge <$> trace = matrix_edges m ->
  (forall g, ~ tc (locked trace) g c) /\ forall b, b ∈ ids m -> b <> c -> locked trace c b.
Proof.
  intros Hwf [Hc Hall] Hok Hsteps.
  assert (Hedge : forall s, s ∈ trace -> step_edge s ∈ matrix_edges m).
  { intros s Hs. rewrite <-Hsteps. by apply list_elem_of_fmap_2. }
  assert (Hno : forall g, ~ locked trace g c).
  { intros g (s & Hs%Hedge & _ & [= Hw Hlo]).
    apply (matrix_edge_wf m) in Hs as (Hg & _ & Hne & Hb); [|done]. rewrite Hw, Hlo in *.
    rewrite (wf_asym m Hwf c g (Hall g Hg Hne)) in Hb. done. }
  assert (Htc : forall g, ~ tc (locked trace) g c).
  { intros g Hg. remember c as c' eqn:Ec in Hg. induction Hg; subst; naive_solver. }
  split; [done|]. intros b Hb Hne.
  pose proof (beats_matrix_edge m c b (Hall b Hb Hne)) as He. rewrite <-Hsteps in He.
  apply list_elem_of_fmap in He as (s & [= Hw Hlo _] & Hs). exists s.
  split_and!; [done| |by unfold edge_of; rewrite <-Hw, <-Hlo].
  apply not_false_iff_true. intros Hsk. apply (reach_skipped _ _ _ Hok s Hs) in Hsk.
  rewrite <-Hw in Hsk. by eapply Htc.
Qed.

(** Ranked Pairs is Condorcet-consistent: when one contestant beats every
    other, it is the proposed winner. *)
Theorem ranked_pairs_condorcet duels c :
  condorcet_winner (build_matrix duels) c ->
  exists r, ranked_pairs (build_matrix duels) = Ok r /\ rp_winner r = Some c.
Proof.
  intros Hcw. set (m := build_matrix duels) in *.
  pose proof (build_matrix_wf duels : wf_matrix m) as Hwf. destruct Hcw as [Hc Hall].
  destruct (ranked_pairs_run m Hwf) as (reach & r & Hr & Hok & Hsteps & Hord & Hwin).
  { by destruct (ids m); [set_solver|]. }
  destruct (condorcet_locked m reach _ c Hwf (conj Hc Hall) Hok Hsteps) as [_ Hlk].
  exists r. split; [done|]. rewrite Hwin, Hord.
  destruct (py_sorted (rank_lt m reach) (ids m)) as [|h l] eqn:E.
  { apply py_sorted_nil in E. rewrite E in Hc. set_solver. }
  cbn. f_equal. destruct (decide (h = c)) as [|Hne]; [done|]. exfalso.
  apply (py_sorted_head _ (fun _ => True)) in E as [Hh Hmin]; [|by apply Forall_true].
  specialize (Hmin c Hc). pose proof (locked_size m reach _ c h Hok (Hlk h Hh Hne)) as Hlt.
  unfold rank_lt in Hmin. destruct (Nat.eqb_spec (reach_size reach c) (reach_size reach h)); [lia|].
  apply Nat.ltb_ge in Hmin. lia.
Qed.

(** ** The dispatch *)

Lemma filter_keys_sublist {K V} (p : K * V -> bool) (d : list (K * V)) :
  sublist (dict_keys (List.filter p d)) (dict_keys d).
Proof.
  unfold dict_keys. apply fmap_sublist. induction d as [|x d IH]; cbn; [constructor|].
  destruct (p x); by constructor.
Qed.

Lemma restrict_wf m keep : wf_matrix m -> wf_matrix (_restrict m keep).
Proof.
  intros Hwf. set (p := fun e : (string * string) * float =>
    bool_decide (e.1.1 ∈ keep) && bool_decide (e.1.2 ∈ keep)).
  assert (Hnd : NoDup (dict_keys (List.filter p (net m)))).
  { eapply sublist_NoDup; [apply (wf_net_keys m Hwf)|apply filter_keys_sublist]. }
  assert (Hsub : forall a b, beats (_restrict m keep) a b = true -> beats m a b = true).
  { intros a b. unfold beats, margin, dict_get_or.
    change (net (_restrict m keep)) with (List.filter p (net m)).
    destruct (dict_get (List.filter p (net m)) (a, b)) as [x|] eqn:E; cbn; [|by rewrite flt_irrefl].
    rewrite dict_get_filter in E by apply (wf_net_keys m Hwf).
    destruct (dict_get (net m) _) as [f|]; [|done]. by destruct (p _); simplify_eq. }
  split.
  - cbn. eapply sublist_NoDup; [apply (wf_ids m Hwf)|].
    induction (ids m) as [|x l IH]; cbn; [constructor|]. case_bool_decide; by constructor.
  - done.
  - intros a b Hab. apply list_elem_of_fmap in Hab as ([[a' b'] x] & [= -> ->] & Hin).
    apply elem_of_filter_In in Hin as [Hin [Ha%bool_decide_eq_true Hb%bool_decide_eq_true]%andb_true_iff].
    destruct (wf_net_ids m Hwf a' b' (fmap_snd_elem _ _ _ Hin)) as (? & ? & ?).
    cbn. rewrite !elem_of_filter_In, !bool_decide_eq_true. done.
  - intros a b Hb. apply not_true_iff_false. intros Hc.
    apply Hsub in Hb, Hc. by rewrite (wf_asym m Hwf _ _ Hb) in Hc.
Qed.

Lemma elem_of_restrict m keep x : x ∈ ids (_restrict m keep) <-> x ∈ ids m /\ x ∈ keep.
Proof. cbn. by rewrite elem_of_filter_In, bool_decide_eq_true. Qed.

Lemma condorcet_smith m c : wf_matrix m -> condorcet_winner m c -> c ∈ smith_set m.
Proof.
  intros Hwf [Hc Hall].
  assert (dominating m [c]) as Hd.
  { split_and!; [exists c; set_solver|set_solver|].
    intros x y Hx%list_elem_of_singleton Hy Hn. subst. apply Hall; set_solver. }
  destruct (smith_set_dominating m Hwf) as ((x & Hx) & _); [by destruct (ids m); [set_solver|]|].
  pose proof (smith_set_least m [c] Hwf Hd x Hx) as ->%list_elem_of_singleton. done.
Qed.

Lemma resolve_leader_smith `{PyRepr} m resolver :
  wf_matrix m -> ids m <> [] -> resolver ∈ ["copeland"; "ranked_pairs"] ->
  exists x, resolve_leader m resolver = Ok (Some x) /\ x ∈ ids m /\ x ∈ smith_set m
    /\ forall c, condorcet_winner m c -> x = c.
Proof.
  intros Hwf Hne Hres. unfold resolve_leader. destruct (ids m) as [|i0 l0] eqn:Ei; [done|].
  rewrite <-Ei in *. destruct (condorcet_check m) as [c|] eqn:Ec.
  { apply condorcet_check_iff in Ec; [|done]. exists c. split_and!; [done|by destruct Ec| |].
    - by apply condorcet_smith.
    - intros. by apply (condorcet_winner_unique m). }
  assert (Hno : forall c, ~ condorcet_winner m c).
  { intros c Hc. apply condorcet_check_iff in Hc; [|done]. congruence. }
  destruct (smith_set_dominating m Hwf Hne) as ((s0 & Hs0) & Hsub & _).
  destruct (smith_set m) as [|s1 l1] eqn:Es; [set_solver|]. rewrite <-Es in *.
  set (p := _restrict m (smith_set m)).
  assert (Hp : ids p <> []).
  { intros Hn. assert (s0 ∈ ids p) as Hc by (apply elem_of_restrict; auto). rewrite Hn in Hc. set_solver. }
  assert (Hans : forall x, x ∈ ids p -> x ∈ ids m /\ x ∈ smith_set m) by (intros; by apply elem_of_restrict).
  pose proof (restrict_wf m (smith_set m) Hwf : wf_matrix p) as Hpwf.
  assert (exists x, x ∈ ids p /\
    (if String.eqb resolver "ranked_pairs"
     then try r <- ranked_pairs p; Ok (rp_winner r)
     else if String.eqb resolver "copeland" then Ok (head (copeland_order p))
     else Raise (ValueError ("unknown resolver " +:+ py_repr (JStr resolver)
                             +:+ "; expected 'ranked_pairs' or 'copeland'"))) = Ok (Some x))
    as (x & Hx & ->); [|exists x; naive_solver].
  apply elem_of_cons in Hres as [->|Hres%list_elem_of_singleton]; [|subst resolver];
    [change (String.eqb "copeland" "ranked_pairs") with false
    |change (String.eqb "ranked_pairs" "ranked_pairs") with true]; cbv iota.
  - change (String.eqb "copeland" "copeland") with true. cbv iota. unfold copeland_order. destruct (py_sorted (copeland_lt p) (ids p)) as [|x l] eqn:E.
    + by apply py_sorted_nil in E.
    + exists x. split; [|done]. rewrite <-(elem_of_py_sorted (copeland_lt p)), E. set_solver.
  - destruct (ranked_pairs_run p Hpwf Hp) as (reach & r & -> & _ & _ & Hord & Hwin).
    cbn [result_bind]. rewrite Hwin, Hord. destruct (py_sorted (rank_lt p reach) (ids p)) as [|x l] eqn:E.
    + by apply py_sorted_nil in E.
    + exists x. split; [|done]. rewrite <-(elem_of_py_sorted (rank_lt p reach)), E. set_solver.
Qed.

(** The dispatch is total on every non-empty duel matrix and on both
    resolvers, never raises there, proposes a contestant of the Smith set, and
    proposes the Condorcet winner when there is one. *)
Theorem resolve_leader_correct `{PyRepr} duels resolver :
  ids (build_matrix duels) <> [] -> resolver ∈ ["copeland"; "ranked_pairs"] ->
  exists x, resolve_leader (build_matrix duels) resolver = Ok (Some x)
    /\ x ∈ ids (build_matrix duels) /\ x ∈ smith_set (build_matrix duels)
    /\ forall c, condorcet_winner (build_matrix duels) c -> x = c.
Proof. apply resolve_leader_smith, build_matrix_wf. Qed.

(** ** A cyclic field: a beats b, b beats c, c beats a, and all three beat d. *)
Module ResolveWitness.
#[local] Existing Instance plain_repr.

Definition duel (w l : string) (m : float) : Duel := {| winner := w; loser := l; duel_margin := m |}.

Definition cycle : list Duel :=
  [duel "a" "b" 3%float; duel "b" "c" 2%float; duel "c" "a" 1%float;
   duel "a" "d" 4%float; duel "b" "d" 4%float; duel "c" "d" 4%float].

Definition led : list Duel := [duel "a" "b" 1%float; duel "a" "c" 2%float; duel "c" "b" 1%float].

Example cycle_smith : smith_set (build_matrix cycle) = ["a"; "b"; "c"].
Proof. vm_compute. reflexivity. Qed.

Example cycle_ranked :
  resolve_leader (build_matrix cycle) "ranked_pairs" = Ok (Some "a").
Proof. vm_compute. reflexivity. Qed.

Lemma smith_set_correct_witness :
  dominating (build_matrix cycle) (smith_set (build_matrix cycle)).
Proof. destruct (smith_set_correct cycle) as [Hd _]; [vm_compute; discriminate|exact Hd]. Defined.

Lemma ranked_pairs_correct_witness :
  exists r, ranked_pairs (build_matrix cycle) = Ok r /\ rp_order r ≡ₚ ids (build_matrix cycle).
Proof.
  destruct (ranked_pairs_correct cycle) as (r & Hr & Hp & _); [vm_compute; discriminate|].
  exists r. exact (conj Hr Hp).
Defined.

Lemma ranked_pairs_condorcet_witness :
  exists r, ranked_pairs (build_matrix led) = Ok r /\ rp_winner r = Some "a".
Proof.
  apply (ranked_pairs_condorcet led). apply (condorcet_check_iff (build_matrix led));
    [apply build_matrix_wf|vm_compute; reflexivity].
Defined.

Lemma resolve_leader_correct_witness :
  exists x, resolve_leader (build_matrix cycle) "copeland" = Ok (Some x)
    /\ x ∈ smith_set (build_matrix cycle).
Proof.
  destruct (resolve_leader_correct cycle "copeland") as (x & Hx & _ & Hs & _);
    [vm_compute; discriminate|set_solver|exists x; exact (conj Hx Hs)].
Defined.
End ResolveWitness.
