(* ===== verification/Rating.v ===== *)
(** Latent strengths from pairwise wins or grouped rankings,
    [src/zicato/selection/rating.py].

    The two Newton fits with their dense linear algebra, in binary64 and in the
    order the source evaluates.  Vectors and matrices are lists; every index the
    source uses is within them, so a read outside is given the value 0 and a write
    outside does nothing.  [math.exp], [math.log] and [math.erf] are parameters. *)

From S2P Require Import Prelude PyFloat.

(** ** Vectors and matrices *)

Definition vget (v : list float) (i : nat) : float := from_option id f0 (v !! i).
Definition vadd (v : list float) (i : nat) (x : float) : list float := <[i := fadd (vget v i) x]> v.
Definition vsub (v : list float) (i : nat) (x : float) : list float := <[i := fsub (vget v i) x]> v.

Definition mrow (m : list (list float)) (i : nat) : list float := from_option id [] (m !! i).
Definition mget (m : list (list float)) (i j : nat) : float := vget (mrow m i) j.
Definition madd (m : list (list float)) (i j : nat) (x : float) : list (list float) :=
  <[i := vadd (mrow m i) j x]> m.
Definition msub (m : list (list float)) (i j : nat) (x : float) : list (list float) :=
  <[i := vsub (mrow m i) j x]> m.

Definition zeros (n : nat) : list float := replicate n f0.
Definition zero_matrix (n : nat) : list (list float) := replicate n (zeros n).

(** The row with the largest leading entry at or below the diagonal. *)
Definition pivot_row (aug : list (list float)) (col n : nat) : nat :=
  fst (foldl (fun '(pivot, best) r =>
                let v := fabs (mget aug r col) in
                if flt best v then (r, v) else (pivot, best))
             (col, fabs (mget aug col col)) (seq (S col) (n - S col))).

Definition swap_rows (m : list (list float)) (i j : nat) : list (list float) :=
  if i =? j then m else <[i := mrow m j]> (<[j := mrow m i]> m).

(** [for c in range(first, ...): aug[r][c] -= factor * aug[col][c]] *)
Definition subtract_row (aug : list (list float)) (r col first : nat) (factor : float)
    : list (list float) :=
  let pivot := mrow aug col in
  <[r := imap (fun c x => if first <=? c then fsub x (fmul factor (vget pivot c)) else x)
              (mrow aug r)]> aug.

(** One column of [_solve]. *)
Definition solve_column (n : nat) (aug : list (list float)) (col : nat) : list (list float) :=
  let aug := swap_rows aug col (pivot_row aug col n) in
  let diag := mget aug col col in
  if feq diag f0 then aug
  else
    foldl (fun aug r =>
             if r =? col then aug
             else
               let factor := fdiv (mget aug r col) diag in
               if feq factor f0 then aug else subtract_row aug r col col factor)
          aug (seq 0 n).

Definition _solve (matrix : list (list float)) (rhs : list float) : list float :=
  let n := length rhs in
  let aug := (fun i => mrow matrix i ++ [vget rhs i]) <$> seq 0 n in
  let aug := foldl (solve_column n) aug (seq 0 n) in
  (fun i => let diag := mget aug i i in
            if feq diag f0 then f0 else fdiv (mget aug i n) diag) <$> seq 0 n.

(** One column of [_invert]. *)
Definition invert_column (n : nat) (aug : list (list float)) (col : nat) : list (list float) :=
  let aug := swap_rows aug col (pivot_row aug col n) in
  let diag := mget aug col col in
  if feq diag f0 then aug
  else
    let inv_diag := fdiv f1 diag in
    let aug := <[col := (fun x => fmul x inv_diag) <$> mrow aug col]> aug in
    foldl (fun aug r =>
             if r =? col then aug
             else
               let factor := mget aug r col in
               if feq factor f0 then aug else subtract_row aug r col 0 factor)
          aug (seq 0 n).

Definition _invert (matrix : list (list float)) : list (list float) :=
  let n := length matrix in
  let aug := (fun i => mrow matrix i ++ ((fun j => if j =? i then f1 else f0) <$> seq 0 n))
             <$> seq 0 n in
  let aug := foldl (invert_column n) aug (seq 0 n) in
  (fun i => (fun j => mget aug i (n + j)) <$> seq 0 n) <$> seq 0 n.

(** ** Fits *)

Record RatingFit := {
  estimates : list (string * (float * float));
  covariance : list ((string * string) * float);
}.

(** [d[k]] *)
Definition dict_at {K V} `{EqDecision K} (d : list (K * V)) (k : K) (name : string) : result V :=
  match dict_get d k with Some v => Ok v | None => Raise (KeyError name) end.

(** [RatingFit.difference] *)
Definition difference (f : RatingFit) (l r : string) : result (float * float) :=
  try ll <- dict_at (covariance f) (l, l) l;
  try rr <- dict_at (covariance f) (r, r) r;
  try lr <- dict_at (covariance f) (l, r) l;
  try el <- dict_at (estimates f) l l;
  try er <- dict_at (estimates f) r r;
  let variance := fsub (fadd ll rr) (fmul 2%float lr) in
  Ok (fsub el.1 er.1, fsqrt (fmax f0 variance)).

Definition _centered_fit (ids : list string) (theta : list float) (cov : list (list float))
    : RatingFit :=
  let n := length ids in
  if n =? 0 then {| estimates := []; covariance := [] |}
  else
    let nf := float_of_Z (Z.of_nat n) in
    let mean_theta := fdiv (py_sum theta) nf in
    let row_means := (fun row => fdiv (py_sum row) nf) <$> cov in
    let overall_mean := fdiv (py_sum row_means) nf in
    let cell i j :=
      fadd (fsub (fsub (mget cov i j) (vget row_means i)) (vget row_means j)) overall_mean in
    let centered_covariance :=
      foldl (fun d l => foldl (fun d r => dict_set d (l.2, r.2) (cell l.1 r.1)) d (imap pair ids))
            [] (imap pair ids) in
    let estimates :=
      foldl (fun d l =>
               dict_set d l.2 (fsub (vget theta l.1) mean_theta, fsqrt (fmax f0 (cell l.1 l.1))))
            [] (imap pair ids) in
    {| estimates := estimates; covariance := centered_covariance |}.

Section Fits.
Context `{Libm}.

Definition _logistic (x : float) : float :=
  if fle f0 x then let z := m_exp (fneg x) in fdiv f1 (fadd f1 z)
  else let z := m_exp x in fdiv z (fadd f1 z).

(** *** Bradley--Terry *)

Definition DuelOutcome : Type := string * string.

(** The tally loop: the ids in order of appearance and the wins per ordered
    pair. *)
Definition tally (matches : list DuelOutcome) : list string * list ((string * string) * Z) :=
  foldl (fun '(ids, wins) '(w, l) =>
           if String.eqb w l then (ids, wins)
           else (note_id (note_id ids w) l,
                 dict_set wins (w, l) (dict_get_or wins (w, l) 0 + 1)%Z))
        ([], []) matches.

(** [{gid: i for i, gid in enumerate(ids)}] *)
Definition index_of (ids : list string) (gid : string) : nat :=
  from_option fst 0 (list_find (eq gid) ids).

(** Games and wins of the lower index per unordered pair. *)
Definition pair_counts (ids : list string) (wins : list ((string * string) * Z))
    : list ((nat * nat) * Z) * list ((nat * nat) * Z) :=
  foldl (fun '(games, low) '((a, b), w) =>
           let ia := index_of ids a in
           let ib := index_of ids b in
           let pair := if ia <? ib then (ia, ib) else (ib, ia) in
           let games := dict_set games pair (dict_get_or games pair 0 + w)%Z in
           let low := if ia <? ib then dict_set low pair (dict_get_or low pair 0 + w)%Z
                      else dict_setdefault low pair 0%Z in
           (games, low))
        ([], []) wins.

(** [hess[i][i] += info; hess[j][j] += info; hess[i][j] -= info; hess[j][i] -= info] *)
Definition add_info (hess : list (list float)) (i j : nat) (info : float) : list (list float) :=
  msub (msub (madd (madd hess i i info) j j info) i j info) j i info.

Definition add_ridge (prior : float) (n : nat) (m : list (list float)) : list (list float) :=
  foldl (fun m i => madd m i i prior) m (seq 0 n).

(** The gradient and the Hessian of one Newton step. *)
Definition bt_assemble (games low : list ((nat * nat) * Z)) (prior : float) (n : nat)
    (theta : list float) : list float * list (list float) :=
  let grad := foldl (fun g i => vsub g i (fmul prior (vget theta i))) (zeros n) (seq 0 n) in
  let hess := add_ridge prior n (zero_matrix n) in
  foldl (fun '(grad, hess) '((i, j), g) =>
           let wins_i := dict_get_or low (i, j) 0%Z in
           let p := _logistic (fsub (vget theta i) (vget theta j)) in
           let gp := fmul (float_of_Z g) p in
           let step := fsub (float_of_Z wins_i) gp in
           (vsub (vadd grad i step) j step, add_info hess i j (fmul gp (fsub f1 p))))
        (grad, hess) games.

(** [max_step], the largest coordinate update, starting from 0. *)
Definition max_step (delta : list float) : float :=
  foldl (fun best d => if flt best (fabs d) then fabs d else best) f0 delta.

Definition add_vectors (theta delta : list float) : list float :=
  imap (fun i t => fadd t (vget delta i)) theta.

Fixpoint bt_newton (games low : list ((nat * nat) * Z)) (prior tol : float) (n : nat)
    (max_iter : nat) (theta : list float) : list float :=
  match max_iter with
  | 0 => theta
  | S max_iter =>
      let '(grad, hess) := bt_assemble games low prior n theta in
      let delta := _solve hess grad in
      let theta := add_vectors theta delta in
      if flt (max_step delta) tol then theta
      else bt_newton games low prior tol n max_iter theta
  end.

(** [fit_bradley_terry] once its prior is accepted. *)
Definition bradley_terry_fit (matches : list DuelOutcome) (prior tol : float) (max_iter : nat)
    : RatingFit :=
  let '(ids, wins) := tally matches in
  let n := length ids in
  if n =? 0 then _centered_fit [] [] []
  else
    let '(games, low) := pair_counts ids wins in
    let theta := bt_newton games low prior tol n max_iter (zeros n) in
    let info :=
      foldl (fun m '((i, j), g) =>
               let p := _logistic (fsub (vget theta i) (vget theta j)) in
               add_info m i j (fmul (fmul (float_of_Z g) p) (fsub f1 p)))
            (add_ridge prior n (zero_matrix n)) games in
    _centered_fit ids theta (_invert info).

Definition fit_bradley_terry `{PyFormat} (matches : list DuelOutcome) (prior tol : float)
    (max_iter : nat) : result RatingFit :=
  ensure negb (fle prior f0)
    orelse ValueError ("prior must be positive, got " +:+ str_float prior);
  Ok (bradley_terry_fit matches prior tol max_iter).

(** The default arguments. *)
Definition BT_PRIOR : float := 1%float.
Definition BT_TOL : float := 1e-9%float.
Definition BT_MAX_ITER : nat := 100.

(** [fit_bradley_terry(matches)]: the default prior is positive, so the call
    returns. *)
Definition default_fit (matches : list DuelOutcome) : RatingFit :=
  bradley_terry_fit matches BT_PRIOR BT_TOL BT_MAX_ITER.

(** *** Comparisons *)

Definition prob_stronger (theta_a se_a theta_b se_b cov : float) : float :=
  let diff := fsub theta_a theta_b in
  let var := fsub (fadd (fmul se_a se_a) (fmul se_b se_b)) (fmul 2%float cov) in
  if fle var f0
  then if flt f0 diff then f1 else if flt diff f0 then f0 else 0.5%float
  else
    let z := fdiv diff (fsqrt var) in
    fmul 0.5%float (fadd f1 (m_erf (fdiv z (fsqrt 2%float)))).
End Fits.

(** [key=lambda gid: (-rating[gid][0], gid)] *)
Definition theta_lt (rating : list (string * (float * float))) (a b : string) : bool :=
  let ta := fneg (from_option fst f0 (dict_get rating a)) in
  let tb := fneg (from_option fst f0 (dict_get rating b)) in
  if feq ta tb then str_lt a b else flt ta tb.

Definition theta_rank (rating : RatingFit) : list string :=
  py_sorted (theta_lt (estimates rating)) (dict_keys (estimates rating)).
