(* ===== verification/PlackettLuce.v ===== *)
(** The Plackett--Luce fit of [src/zicato/selection/rating.py], and what the two
    fits promise whatever the numbers are.

    An observation ranks a set of survivors above a set of cut contestants; its
    likelihood sums over every order of the survivors.  [math.log] raises on a
    number that is not positive and a float division on a zero divisor, so the fit
    returns a [result]. *)

From S2P Require Import Prelude PyFloat PyJson CoreTypes Gate Params Strategy Resolve Rating.

Definition RankGroup : Type := list string * list string.

Definition PL_MAX_SURVIVORS : nat := 8.

(** [itertools.permutations(xs)], in its order. *)
Fixpoint picks {A} (xs : list A) : list (A * list A) :=
  match xs with
  | [] => []
  | x :: xs => (x, xs) :: ((fun '(y, ys) => (y, x :: ys)) <$> picks xs)
  end.

Fixpoint permutations_upto {A} (n : nat) (xs : list A) : list (list A) :=
  match n with
  | 0 => [[]]
  | S n => '(x, rest) ← picks xs; (fun p => x :: p) <$> permutations_upto n rest
  end.

Definition permutations {A} (xs : list A) : list (list A) := permutations_upto (length xs) xs.

(** [remaining.remove(chosen)] *)
Fixpoint list_remove (x : nat) (l : list nat) : list nat :=
  match l with
  | [] => []
  | y :: l => if y =? x then l else y :: list_remove x l
  end.

(** Comparison of tuples of strings, and of pairs of them. *)
Fixpoint strings_lt (a b : list string) : bool :=
  match a, b with
  | _, [] => false
  | [], _ :: _ => true
  | x :: a, y :: b => if String.eqb x y then strings_lt a b else str_lt x y
  end.

Definition group_lt (x y : RankGroup) : bool :=
  if bool_decide (x.1 = y.1) then strings_lt x.2 y.2 else strings_lt x.1 y.1.

Section PL.
Context `{Libm}.

Definition math_log (x : float) : result float :=
  ensure negb (fle x f0) orelse ValueError "math domain error";
  Ok (m_log x).

Definition pydiv (x y : float) : result float :=
  ensure negb (feq y f0) orelse ZeroDivisionError;
  Ok (fdiv x y).

Definition left_sum (xs : list float) : float := foldl fadd f0 xs.

Definition pool_max (theta : list float) (pool : list nat) : float :=
  match vget theta <$> pool with
  | [] => f0
  | x :: xs => foldl fmax x xs
  end.

Definition pool_exp (theta : list float) (tmax : float) (pool : list nat) : list (nat * float) :=
  foldl (fun d k => dict_set d k (m_exp (fsub (vget theta k) tmax))) [] pool.

Definition dict_add {K} `{EqDecision K} (d : list (K * float)) (k : K) (x : float)
    : list (K * float) :=
  dict_set d k (fadd (dict_get_or d k f0) x).

(** The state of one ordering's loop: [w_log], [g], [h] and [remaining]. *)
Definition ChoiceState : Type :=
  float * list (nat * float) * list ((nat * nat) * float) * list nat.

Definition choose (theta : list float) (tmax : float) (exp_t : list (nat * float))
    (s : ChoiceState) (chosen : nat) : result ChoiceState :=
  let '(w_log, g, h, remaining) := s in
  let denom := left_sum ((fun k => dict_get_or exp_t k f0) <$> remaining) in
  try log_denom <- math_log denom;
  let w_log := fadd w_log (fsub (fsub (vget theta chosen) tmax) log_denom) in
  let q k := fdiv (dict_get_or exp_t k f0) denom in
  let g :=
    foldl (fun g k => dict_add g k (fsub (if k =? chosen then f1 else f0) (q k))) g remaining in
  let h :=
    foldl (fun h a =>
             foldl (fun h b =>
                      dict_add h (a, b) (fsub (fmul (q a) (q b)) (if a =? b then q a else f0)))
                   h remaining) h remaining in
  Ok (w_log, g, h, list_remove chosen remaining).

Definition GroupSums : Type := float * list (nat * float) * list ((nat * nat) * float).

(** One ordering of the survivors folded into the weighted sums. *)
Definition add_ordering (theta : list float) (tmax : float) (exp_t : list (nat * float))
    (pool : list nat) (sums : GroupSums) (perm : list nat) : result GroupSums :=
  let '(sum_w, sum_wg, sum_whgg) := sums in
  try s <- result_foldl (choose theta tmax exp_t) (f0, [], [], pool) perm;
  let '(w_log, g, h, _) := s in
  let w := m_exp w_log in
  let sum_wg := foldl (fun d '(k, gv) => dict_add d k (fmul w gv)) sum_wg g in
  let sum_whgg :=
    foldl (fun d '((a, b), hv) =>
             dict_add d (a, b)
               (fmul w (fadd hv (fmul (dict_get_or g a f0) (dict_get_or g b f0))))) sum_whgg h in
  Ok (fadd sum_w w, sum_wg, sum_whgg).

Definition _pl_group_terms (surv cut : list nat) (theta : list float)
    : result (list (nat * float) * list ((nat * nat) * float)) :=
  let pool := surv ++ cut in
  let tmax := pool_max theta pool in
  let exp_t := pool_exp theta tmax pool in
  try sums <- result_foldl (add_ordering theta tmax exp_t pool) (f0, [], []) (permutations surv);
  let '(sum_w, sum_wg, sum_whgg) := sums in
  try grad <- result_map (fun '(k, v) => try x <- pydiv v sum_w; Ok (k, x)) sum_wg;
  try hess <- result_map (fun '((a, b), v) =>
                            try x <- pydiv v sum_w;
                            Ok ((a, b), fsub x (fmul (dict_get_or grad a f0) (dict_get_or grad b f0))))
                         sum_whgg;
  Ok (grad, hess).

(** The weight of one ordering, without the derivatives. *)
Definition weigh_choice (theta : list float) (tmax : float) (exp_t : list (nat * float))
    (s : float * list nat) (chosen : nat) : result (float * list nat) :=
  let '(w_log, remaining) := s in
  let denom := left_sum ((fun k => dict_get_or exp_t k f0) <$> remaining) in
  try log_denom <- math_log denom;
  Ok (fadd w_log (fsub (fsub (vget theta chosen) tmax) log_denom), list_remove chosen remaining).

Definition _pl_group_loglik (surv cut : list nat) (theta : list float) : result float :=
  let pool := surv ++ cut in
  let tmax := pool_max theta pool in
  let exp_t := pool_exp theta tmax pool in
  try sum_w <- result_foldl
                 (fun sum_w perm =>
                    try s <- result_foldl (weigh_choice theta tmax exp_t) (f0, pool) perm;
                    Ok (fadd sum_w (m_exp s.1)))
                 f0 (permutations surv);
  math_log sum_w.

Definition Obs : Type := list nat * list nat.

Definition _pl_assemble (obs_idx : list Obs) (theta : list float) (prior : float) (n : nat)
    : result (list float * list (list float)) :=
  let grad := foldl (fun g i => vsub g i (fmul prior (vget theta i))) (zeros n) (seq 0 n) in
  let hess := foldl (fun m i => msub m i i prior) (zero_matrix n) (seq 0 n) in
  result_foldl
    (fun '(grad, hess) '(surv, cut) =>
       try gh <- _pl_group_terms surv cut theta;
       let '(g, h) := gh in
       Ok (foldl (fun grad '(k, gv) => vadd grad k gv) grad g,
           foldl (fun hess '((a, b), hv) => madd hess a b hv) hess h))
    (grad, hess) obs_idx.

Definition _pl_penalized_loglik (obs_idx : list Obs) (theta : list float) (prior : float)
    : result float :=
  try total <- result_foldl
                 (fun total '(surv, cut) =>
                    try x <- _pl_group_loglik surv cut theta; Ok (fadd total x))
                 f0 obs_idx;
  Ok (fsub total (fmul (fmul 0.5%float prior) (py_sum ((fun t => fmul t t) <$> theta)))).

(** The backtracking line search: the accepted step and point, halving at most
    [tries] times. *)
Fixpoint line_search (obs_idx : list Obs) (prior obj0 : float) (theta delta : list float)
    (step : float) (tries : nat) : result (option (float * list float)) :=
  match tries with
  | 0 => Ok None
  | S tries =>
      let cand := imap (fun i t => fadd t (fmul step (vget delta i))) theta in
      try obj <- _pl_penalized_loglik obs_idx cand prior;
      if fle obj0 obj then Ok (Some (step, cand))
      else line_search obs_idx prior obj0 theta delta (fmul step 0.5%float) tries
  end.

Definition neg_matrix (m : list (list float)) (n : nat) : list (list float) :=
  (fun i => (fun j => fneg (mget m i j)) <$> seq 0 n) <$> seq 0 n.

Fixpoint pl_newton (obs_idx : list Obs) (prior tol : float) (n max_iter : nat)
    (theta : list float) : result (list float) :=
  match max_iter with
  | 0 => Ok theta
  | S max_iter =>
      try gh <- _pl_assemble obs_idx theta prior n;
      let '(grad, hess) := gh in
      let delta := _solve (neg_matrix hess n) grad in
      try obj0 <- _pl_penalized_loglik obs_idx theta prior;
      try found <- line_search obs_idx prior obj0 theta delta f1 40;
      match found with
      | None => Ok theta
      | Some (step, cand) =>
          if flt (max_step ((fun d => fmul step d) <$> delta)) tol then Ok cand
          else pl_newton obs_idx prior tol n max_iter cand
      end
  end.

(** The normalisation of one observation; [None] when it is dropped. *)
Definition normalise (max_survivors : nat) (obs : RankGroup) : option RankGroup :=
  let surv := first_seen obs.1 in
  let cut := first_seen obs.2 in
  if (length surv =? 0) || (length cut =? 0) then None
  else if existsb (fun x => bool_decide (x ∈ cut)) surv then None
  else if max_survivors <? length surv then None
  else Some (sorted_strings surv, sorted_strings cut).

(** [norm] after [norm.sort()]. *)
Definition canonical (max_survivors : nat) (observations : list RankGroup) : list RankGroup :=
  py_sorted group_lt (omap (normalise max_survivors) observations).

Definition fit_plackett_luce `{PyFormat} (observations : list RankGroup) (prior tol : float)
    (max_iter max_survivors : nat) : result RatingFit :=
  ensure negb (fle prior f0)
    orelse ValueError ("prior must be positive, got " +:+ str_float prior);
  match canonical max_survivors observations with
  | [] => Ok (_centered_fit [] [] [])
  | norm =>
      let ordered_ids := sorted_strings (remove_dups (norm ≫= (fun o : RankGroup => o.1 ++ o.2))) in
      let n := length ordered_ids in
      let index (l : list string) : list nat := index_of ordered_ids <$> l in
      let obs_idx := (fun '(surv, cut) => (index surv, index cut)) <$> norm in
      try theta <- pl_newton obs_idx prior tol n max_iter (zeros n);
      try gh <- _pl_assemble obs_idx theta prior n;
      Ok (_centered_fit ordered_ids theta (_invert (neg_matrix gh.2 n)))
  end.
End PL.

(** * Standings extensions over the audit,
    [src/zicato/selection/standings_ext.py]: a strategy's flat audit turned into
    the inputs of the rating and resolver layers. *)

(** The loop guard both conversions share: a genuine duel both sides of which
    measured every requested unit. *)
Definition audited (r : MatchupResult) : bool :=
  negb (String.eqb (mr_left_id r) (mr_right_id r) || negb (execution_complete r)).

Definition audit_duel (r : MatchupResult) : option DuelOutcome :=
  if negb (audited r) then None
  else
    let delta := delta_scalar (mr_outcome r) in
    if flt delta f0 then Some (mr_right_id r, mr_left_id r)
    else if flt f0 delta then Some (mr_left_id r, mr_right_id r)
    else None.

Definition audit_duels (audit : list MatchupResult) : list DuelOutcome := omap audit_duel audit.

Definition matrix_duel (r : MatchupResult) : option Duel :=
  if negb (audited r) then None
  else
    let delta := delta_scalar (mr_outcome r) in
    let margin := fabs delta in
    if flt delta f0
    then Some {| winner := mr_right_id r; loser := mr_left_id r; duel_margin := margin |}
    else if flt f0 delta
    then Some {| winner := mr_left_id r; loser := mr_right_id r; duel_margin := margin |}
    else if feq delta f0
    then Some {| winner := mr_left_id r; loser := mr_right_id r; duel_margin := f0 |}
    else None.

Definition audit_matrix (audit : list MatchupResult) : MarginMatrix :=
  build_matrix (omap matrix_duel audit).

Definition rating_order `{Libm} (audit : list MatchupResult) : list string :=
  match audit_duels audit with
  | [] => []
  | duels => theta_rank (default_fit duels)
  end.

Definition resolver_leader `{PyRepr} (audit : list MatchupResult) (resolver : string)
    : result (option string) :=
  let matrix := audit_matrix audit in
  match ids matrix with
  | [] => Ok None
  | _ => resolve_leader matrix resolver
  end.
