(* ===== verification/RatingSpec.v ===== *)
(** What the rating fits promise whatever the numbers are: which contestants they
    rate, that every rated pair can be compared, the ranking they induce, and that
    the grouped fit does not depend on the order of its input. *)

From S2P Require Import Prelude PyFloat Rating PlackettLuce.

(** ** Bradley--Terry *)

(** The endpoints of the matches the fit reads: a self-match is ignored. *)
Definition endpoints (matches : list DuelOutcome) : list string :=
  m ← matches; if String.eqb m.1 m.2 then [] else [m.1; m.2].

Lemma tally_ids matches : (tally matches).1 = first_seen (endpoints matches).
Proof.
  unfold tally, first_seen.
  assert (Hgen : forall acc : list string * list ((string * string) * Z),
    (foldl (fun '(ids, wins) '(w, l) =>
           if String.eqb w l then (ids, wins)
           else (note_id (note_id ids w) l,
                 dict_set wins (w, l) (dict_get_or wins (w, l) 0 + 1)%Z)) acc matches).1
    = foldl note_id acc.1 (endpoints matches)); [|apply Hgen].
  induction matches as [|[w l] matches IH]; intros [ids wins]; cbn; [done|].
  rewrite IH. by destruct (String.eqb w l).
Qed.

Lemma first_seen_spec l : NoDup (first_seen l) /\ forall x, x ∈ first_seen l <-> x ∈ l.
Proof.
  destruct (foldl_note_id_spec l []) as [H1 H2]; [constructor|]. split; [done|].
  intros x. unfold first_seen. rewrite H2. set_solver.
Qed.

(** Filling a dictionary from a list of fresh keys. *)
Lemma foldl_dict_set_keys {A K V} `{EqDecision K} (f : A -> K) (g : A -> V) (l : list A)
    (d : list (K * V)) :
  dict_keys (foldl (fun d x => dict_set d (f x) (g x)) d l)
  = foldl (fun ks x => if decide (f x ∈ ks) then ks else ks ++ [f x]) (dict_keys d) l.
Proof. revert d. induction l as [|x l IH]; intros d; cbn; [done|]. by rewrite IH, dict_keys_set. Qed.

Lemma foldl_fresh_keys {A K} `{EqDecision K} (f : A -> K) (l : list A) ks :
  NoDup (ks ++ (f <$> l)) ->
  foldl (fun ks x => if decide (f x ∈ ks) then ks else ks ++ [f x]) ks l = ks ++ (f <$> l).
Proof.
  revert ks. induction l as [|x l IH]; intros ks Hnd; cbn in *; [by rewrite app_nil_r|].
  rewrite decide_False.
  - rewrite IH; rewrite <-app_assoc; done.
  - apply NoDup_app in Hnd as (_ & Hd & _). intros Hc. apply (Hd _ Hc). set_solver.
Qed.

Lemma imap_pair_snd {A} (l : list A) : (imap pair l).*2 = l.
Proof. rewrite fmap_imap. apply list_eq. intros i. rewrite list_lookup_imap. by destruct (l !! i). Qed.

Lemma centered_fit_keys ids theta cov :
  NoDup ids -> dict_keys (estimates (_centered_fit ids theta cov)) = ids.
Proof.
  intros Hnd. unfold _centered_fit. destruct ids as [|i0 ids']; [done|].
  set (ids := i0 :: ids') in *. change (length ids =? 0) with false. cbv iota zeta. cbn [estimates]. clearbody ids.
  rewrite (foldl_dict_set_keys snd), foldl_fresh_keys; unfold dict_keys; cbn [app fmap list_fmap];
    by rewrite imap_pair_snd.
Qed.

(** Setting keys never unbinds one. *)
Lemma dict_mem_foldl_set {A K V} `{EqDecision K} (f : A -> K) (g : A -> V) (l : list A)
    (d : list (K * V)) k :
  dict_mem (foldl (fun d x => dict_set d (f x) (g x)) d l) k = true
  <-> dict_mem d k = true \/ exists x, x ∈ l /\ f x = k.
Proof.
  revert d. induction l as [|x l IH]; intros d; cbn [foldl]; [set_solver|].
  rewrite IH, !dict_mem_true, dict_keys_set. case_decide; set_solver.
Qed.

Lemma centered_fit_covariance ids theta cov l r :
  l ∈ ids -> r ∈ ids -> dict_mem (covariance (_centered_fit ids theta cov)) (l, r) = true.
Proof.
  intros Hl Hr. unfold _centered_fit. destruct ids as [|i0 ids']; [set_solver|].
  set (ids := i0 :: ids') in *. change (length ids =? 0) with false. cbv iota zeta. cbn [covariance]. clearbody ids.
  rewrite <-(imap_pair_snd ids) in Hl, Hr.
  apply list_elem_of_fmap in Hl as ([i l'] & -> & Hl), Hr as ([j r'] & -> & Hr). cbn.
  match goal with |- dict_mem (foldl ?F [] _) _ = true => set (row := F) end.
  assert (Hgen : forall ls d, (i, l') ∈ ls \/ dict_mem d (l', r') = true ->
            dict_mem (foldl row d ls) (l', r') = true).
  { induction ls as [|x ls IH]; intros d Hd; cbn [foldl]; [set_solver|].
    apply IH. unfold row at 1. rewrite (dict_mem_foldl_set (fun r => (x.2, r.2))).
    destruct Hd as [[<-|?]%elem_of_cons|?]; [|by left|by auto].
    right. right. by exists (j, r'). }
  apply Hgen. by left.
Qed.

(** A fit rates some contestants, once each, and can compare any two of them. *)
Definition rates (f : RatingFit) (ids : list string) : Prop :=
  dict_keys (estimates f) = ids /\ NoDup ids
  /\ forall l r, l ∈ ids -> r ∈ ids -> is_ok (difference f l r) = true.

Lemma dict_at_ok {K V} `{EqDecision K} (d : list (K * V)) k name :
  dict_mem d k = true -> exists v, dict_at d k name = Ok v.
Proof. unfold dict_mem, dict_at. destruct (dict_get d k); naive_solver. Qed.

Lemma centered_fit_rates ids theta cov : NoDup ids -> rates (_centered_fit ids theta cov) ids.
Proof.
  intros Hnd. pose proof (centered_fit_keys ids theta cov Hnd) as Hk.
  split_and!; [done|done|]. intros l r Hl Hr. unfold difference.
  pose proof (centered_fit_covariance ids theta cov) as Hc.
  destruct (dict_at_ok _ _ l (Hc l l Hl Hl)) as [? ->].
  destruct (dict_at_ok _ _ r (Hc r r Hr Hr)) as [? ->].
  destruct (dict_at_ok _ _ l (Hc l r Hl Hr)) as [? ->]. cbn [result_bind].
  destruct (dict_at_ok (estimates (_centered_fit ids theta cov)) l l) as [? ->].
  { by rewrite dict_mem_true, Hk. }
  destruct (dict_at_ok (estimates (_centered_fit ids theta cov)) r r) as [? ->]; [|done].
  by rewrite dict_mem_true, Hk.
Qed.

Section Ratings.
Context `{Libm}.

Lemma bradley_terry_fit_rates matches prior tol max_iter :
  rates (bradley_terry_fit matches prior tol max_iter) (first_seen (endpoints matches)).
Proof.
  unfold bradley_terry_fit. pose proof (tally_ids matches) as Ht. destruct (tally matches) as [ids wins].
  cbn in Ht. subst ids. destruct (first_seen_spec (endpoints matches)) as [Hnd _].
  destruct (first_seen (endpoints matches)) as [|i ids]; cbn [length Nat.eqb].
  - apply centered_fit_rates. constructor.
  - destruct (pair_counts _ _) as [games low]. by apply centered_fit_rates.
Qed.

(** A Bradley--Terry fit with a positive prior always returns, whatever the
    record: it rates exactly the contestants of the matches that are not
    self-matches, each once in order of appearance, and compares any two of them;
    a prior that is zero or negative is refused. *)
Theorem fit_bradley_terry_rates `{PyFormat} matches prior tol max_iter :
  (fle prior f0 = true ->
     fit_bradley_terry matches prior tol max_iter = Raise (ValueError ("prior must be positive, got " +:+ str_float prior)))
  /\ (fle prior f0 = false ->
     exists f, fit_bradley_terry matches prior tol max_iter = Ok f
       /\ rates f (first_seen (endpoints matches))).
Proof.
  unfold fit_bradley_terry. split; intros ->; [done|]. cbn [negb].
  eexists. split; [reflexivity|]. apply bradley_terry_fit_rates.
Qed.
End Ratings.

(** ** The ranking a fit induces *)

#[export] Instance theta_lt_swo rating :
  StrictWeakOrder (theta_lt rating)
    (fun g => is_nan (fneg (from_option fst f0 (dict_get rating g))) = false).
Proof.
  unfold theta_lt. apply lex_swo.
  - exact (swo_on (fun g => fneg (from_option fst f0 (dict_get rating g))) flt _ flt_swo).
  - eapply swo_weaken; [|exact str_lt_swo]. done.
  - intros. by apply feq_flt_total.
Qed.

Definition strength (f : RatingFit) (g : string) : float :=
  from_option fst f0 (dict_get (estimates f) g).

(** The strength ranking lists every rated contestant once, and when the
    fitted strengths are numbers no contestant precedes a stronger one; equal
    strengths are ordered by id. *)
Theorem theta_rank_sorted f :
  theta_rank f ≡ₚ dict_keys (estimates f)
  /\ ((forall g, g ∈ dict_keys (estimates f) -> is_nan (strength f g) = false) ->
      StronglySorted (fun a b => flt (strength f a) (strength f b) = false
                                 /\ (feq (strength f a) (strength f b) = true -> str_lt b a = false))
        (theta_rank f)).
Proof.
  split; [apply py_sorted_perm|]. intros Hnum.
  assert (Hs : StronglySorted (not_after (theta_lt (estimates f))) (theta_rank f)).
  { eapply py_sorted_sorted; [apply theta_lt_swo|]. apply Forall_forall. intros g Hg.
    rewrite is_nan_fneg. by apply Hnum. }
  assert (Hall : Forall (fun g => is_nan (strength f g) = false) (theta_rank f)).
  { apply Forall_forall. intros g Hg. apply Hnum. unfold theta_rank in Hg.
    by apply elem_of_py_sorted in Hg. }
  induction Hs as [|a l Hs IH Ha]; [constructor|]. apply Forall_cons in Hall as [Hna Hall].
  constructor; [by apply IH|]. rewrite !Forall_forall in *. intros b Hb.
  specialize (Ha b Hb). unfold not_after, theta_lt in Ha. fold (strength f a) (strength f b) in Ha.
  pose proof (feq_flt_total _ _ Hna (Hall b Hb)) as Heq.
  pose proof (feq_flt_total (fneg (strength f b)) (fneg (strength f a))) as Heq'.
  rewrite !is_nan_fneg, !flt_fneg in Heq'. specialize (Heq' (Hall b Hb) Hna).
  rewrite flt_fneg in Ha. rewrite Heq, Heq' in *.
  destruct (flt (strength f a) (strength f b)), (flt (strength f b) (strength f a)); naive_solver.
Qed.

(** ** Grouped rankings *)

Lemma swo_of_total {A} (lt : A -> A -> bool) :
  (forall x, lt x x = false) -> (forall x y z, lt x y = true -> lt y z = true -> lt x z = true) ->
  (forall x y, lt x y = false -> lt y x = false -> x = y) ->
  StrictWeakOrder lt (fun _ => True).
Proof.
  intros Hirr Htr Htot. split.
  - done.
  - intros x y _ _ Hxy. apply not_true_iff_false. intros Hyx.
    pose proof (Htr _ _ _ Hxy Hyx) as Hc. by rewrite Hirr in Hc.
  - intros x y z _ _ _ Hxy Hyz. apply not_true_iff_false. intros Hxz.
    destruct (lt y x) eqn:E.
    + by rewrite (Htr _ _ _ E Hxz) in Hyz.
    + by rewrite (Htot _ _ Hxy E), Hyz in Hxz.
Qed.

Lemma str_lt_trans x y z : str_lt x y = true -> str_lt y z = true -> str_lt x z = true.
Proof.
  intros Hxy Hyz. destruct (str_lt x z) eqn:E; [done|].
  pose proof (@swo_asym _ _ _ str_lt_swo y z I I Hyz) as Hzy.
  by rewrite (@swo_neg_trans _ _ _ str_lt_swo x z y I I I E Hzy) in Hxy.
Qed.

Lemma strings_lt_irrefl a : strings_lt a a = false.
Proof. induction a; cbn; [done|]. by rewrite String.eqb_refl. Qed.

Lemma strings_lt_total a b : strings_lt a b = false -> strings_lt b a = false -> a = b.
Proof.
  revert b. induction a as [|x a IH]; intros [|y b]; cbn; try done.
  rewrite (String.eqb_sym y x). destruct (String.eqb_spec x y) as [->|Hne].
  - intros. f_equal. by apply IH.
  - intros H1 H2. by destruct (Hne (str_lt_total x y H1 H2)).
Qed.

Lemma strings_lt_trans a b c : strings_lt a b = true -> strings_lt b c = true -> strings_lt a c = true.
Proof.
  revert b c. induction a as [|x a IH]; intros [|y b] [|z c]; cbn; try done.
  destruct (String.eqb_spec x y) as [->|Hxy], (String.eqb_spec y z) as [->|Hyz]; cbn.
  - apply IH.
  - by destruct (String.eqb_spec y z).
  - by destruct (String.eqb_spec x z).
  - intros H1 H2. pose proof (str_lt_trans x y z H1 H2) as H3.
    destruct (String.eqb_spec x z) as [->|]; [by rewrite str_lt_irrefl in H3|done].
Qed.

Lemma group_lt_total x y : group_lt x y = false -> group_lt y x = false -> x = y.
Proof.
  destruct x as [s1 c1], y as [s2 c2]. unfold group_lt. cbn.
  repeat case_bool_decide; intros H1 H2; try congruence.
  - subst. f_equal. by apply strings_lt_total.
  - exfalso. auto using strings_lt_total.
Qed.

#[export] Instance group_lt_swo : StrictWeakOrder group_lt (fun _ => True).
Proof.
  apply swo_of_total.
  - intros [s c]. unfold group_lt. rewrite bool_decide_eq_true_2 by done. apply strings_lt_irrefl.
  - intros [s1 c1] [s2 c2] [s3 c3]. unfold group_lt. cbn. repeat case_bool_decide; subst; try done.
    + apply strings_lt_trans.
    + intros H1 H2. pose proof (strings_lt_trans _ _ _ H1 H2) as Hc. by rewrite strings_lt_irrefl in Hc.
    + apply strings_lt_trans.
  - apply group_lt_total.
Qed.

(** The same observation with its two blocks listed in another order. *)
Definition same_group (x y : RankGroup) : Prop := x.1 ≡ₚ y.1 /\ x.2 ≡ₚ y.2.

Lemma first_seen_perm l l' : l ≡ₚ l' -> first_seen l ≡ₚ first_seen l'.
Proof.
  intros Hp. destruct (first_seen_spec l) as [H1 H2], (first_seen_spec l') as [H3 H4].
  apply NoDup_Permutation; [done..|]. intros x. by rewrite H2, H4, Hp.
Qed.

Lemma sorted_strings_perm l l' : l ≡ₚ l' -> sorted_strings l = sorted_strings l'.
Proof.
  apply (py_sorted_perm_eq str_lt (fun _ => True)); [apply str_lt_total|by apply Forall_true].
Qed.

Lemma normalise_same n x y : same_group x y -> normalise n x = normalise n y.
Proof.
  intros [H1%first_seen_perm H2%first_seen_perm]. unfold normalise.
  rewrite (sorted_strings_perm _ _ H1), (sorted_strings_perm _ _ H2).
  rewrite (Permutation_length H1), (Permutation_length H2).
  assert (existsb (fun x0 => bool_decide (x0 ∈ first_seen x.2)) (first_seen x.1)
          = existsb (fun x0 => bool_decide (x0 ∈ first_seen y.2)) (first_seen y.1)) as ->; [|done].
  apply eq_bool_prop_intro. rewrite !Is_true_true, !existsb_exists.
  setoid_rewrite <-list_elem_of_In. setoid_rewrite bool_decide_eq_true.
  by setoid_rewrite H1; setoid_rewrite H2.
Qed.

Lemma canonical_perm n obs obs' : obs ≡ₚ obs' -> canonical n obs = canonical n obs'.
Proof.
  intros Hp. unfold canonical. apply (py_sorted_perm_eq group_lt (fun _ => True)).
  - apply group_lt_total.
  - by apply Forall_true.
  - by rewrite Hp.
Qed.

Lemma canonical_same n obs obs' : Forall2 same_group obs obs' -> canonical n obs = canonical n obs'.
Proof.
  intros Hf. unfold canonical. f_equal. induction Hf as [|x y l l' Hxy _ IH]; [done|].
  cbn. by rewrite (normalise_same n x y Hxy), IH.
Qed.

(** The grouped fit does not depend on the order it is fed: shuffling the
    observations, and the contestants within each block of an observation, gives
    the same result bit for bit. *)
Theorem fit_plackett_luce_order `{Libm} `{PyFormat} obs shuffled relisted prior tol max_iter max_survivors :
  obs ≡ₚ shuffled -> Forall2 same_group shuffled relisted ->
  fit_plackett_luce obs prior tol max_iter max_survivors
  = fit_plackett_luce relisted prior tol max_iter max_survivors.
Proof.
  intros Hp Hf. unfold fit_plackett_luce.
  by rewrite (canonical_perm _ _ _ Hp), (canonical_same _ _ _ Hf).
Qed.

Module RatingWitness.
Lemma fit_plackett_luce_order_witness :
  @fit_plackett_luce plain_libm plain_format [(["a"; "b"], ["c"]); (["c"], ["d"])] 1%float 0.5%float 3 8
  = @fit_plackett_luce plain_libm plain_format [(["c"], ["d"]); (["b"; "a"], ["c"])] 1%float 0.5%float 3 8.
Proof.
  apply (@fit_plackett_luce_order plain_libm plain_format _ [(["c"], ["d"]); (["a"; "b"], ["c"])]).
  - apply perm_swap.
  - constructor; [split; reflexivity|]. constructor; [split; [apply perm_swap|reflexivity]|constructor].
Defined.

(** A perfect record against two opponents keeps finite, ordered strengths. *)
Example perfect_record :
  exists f, @fit_bradley_terry plain_libm plain_format [("a", "b"); ("a", "c"); ("b", "c")] 1%float 0.5%float 2 = Ok f
    /\ theta_rank f = ["a"; "b"; "c"].
Proof. eexists. split; vm_compute; reflexivity. Qed.

Lemma fit_bradley_terry_rates_witness :
  exists f, @fit_bradley_terry plain_libm plain_format [("a", "b"); ("b", "c")] 1%float 0.5%float 2 = Ok f
    /\ rates f ["a"; "b"; "c"].
Proof.
  destruct (@fit_bradley_terry_rates plain_libm plain_format [("a", "b"); ("b", "c")] 1%float 0.5%float 2)
    as [_ Hok].
  apply Hok. reflexivity.
Defined.

(** Two contestants of known strengths. *)
Definition two : RatingFit :=
  {| estimates := [("a", (0.25%float, f1)); ("b", (0.5%float, f1))]; covariance := [] |}.

Lemma theta_rank_sorted_witness :
  theta_rank two ≡ₚ ["a"; "b"]
  /\ StronglySorted (fun a b => flt (strength two a) (strength two b) = false
                                /\ (feq (strength two a) (strength two b) = true -> str_lt b a = false))
       (theta_rank two).
Proof.
  split; [exact (proj1 (theta_rank_sorted two))|]. apply (proj2 (theta_rank_sorted two)).
  intros g Hg. apply elem_of_cons in Hg as [Hg|Hg]; [rewrite Hg; vm_compute; reflexivity|].
  apply list_elem_of_singleton in Hg. rewrite Hg. vm_compute. reflexivity.
Defined.
End RatingWitness.
