(* ===== verification/DetectableEffect.v ===== *)
(** The minimum detectable effect and its inverse,
    [src/zicato/tournament/detectable_effect.py].

    The logarithm, exponential and log-gamma are parameters.  Every divisor of the
    source is positive or guarded away from zero, so no division raises. *)

From S2P Require Import Prelude PyFloat.

Definition MDE_ALPHA : float := 0.05%float.
Definition MDE_POWER : float := 0.8%float.
Definition REPLICATE_SIZING_CAP : Z := 32.

Section Effect.
Context `{Libm}.

(** ** The incomplete beta function *)

(** [if abs(d) < fpmin: d = fpmin] *)
Definition off_zero (d : float) : float := if flt (fabs d) 1.0e-300%float then 1.0e-300%float else d.

(** One half-step of Lentz's method with the coefficient [aa]. *)
Definition lentz (aa c d : float) : float * float :=
  (off_zero (fadd f1 (fdiv aa c)), fdiv f1 (off_zero (fadd f1 (fmul aa d)))).

(** [for m in range(...)] with its [break]; [fuel] iterations remain. *)
Fixpoint betacf_loop (fuel : nat) (m : Z) (a b x qab qap qam c d h : float) : float :=
  match fuel with
  | 0 => h
  | S fuel =>
      let fm := float_of_Z m in
      let m2 := float_of_Z (2 * m) in
      let aa := fdiv (fmul (fmul fm (fsub b fm)) x) (fmul (fadd qam m2) (fadd a m2)) in
      let '(c, d) := lentz aa c d in
      let h := fmul h (fmul d c) in
      let aa := fdiv (fmul (fmul (fneg (fadd a fm)) (fadd qab fm)) x)
                     (fmul (fadd a m2) (fadd qap m2)) in
      let '(c, d) := lentz aa c d in
      let delta := fmul d c in
      let h := fmul h delta in
      if flt (fabs (fsub delta f1)) 3.0e-16%float then h
      else betacf_loop fuel (m + 1) a b x qab qap qam c d h
  end.

Definition _betacf (a b x : float) : float :=
  let qab := fadd a b in
  let qap := fadd a f1 in
  let qam := fsub a f1 in
  let d := fdiv f1 (off_zero (fsub f1 (fdiv (fmul qab x) qap))) in
  betacf_loop 200 1 a b x qab qap qam f1 d d.

Definition _reg_incomplete_beta (a b x : float) : float :=
  if fle x f0 then f0
  else if fle f1 x then f1
  else
    let lbt :=
      fadd (fadd (fsub (fsub (m_lgamma (fadd a b)) (m_lgamma a)) (m_lgamma b))
                 (fmul a (m_log x)))
           (fmul b (m_log (fsub f1 x))) in
    let bt := m_exp lbt in
    if flt x (fdiv (fadd a f1) (fadd (fadd a b) 2.0%float))
    then fdiv (fmul bt (_betacf a b x)) a
    else fsub f1 (fdiv (fmul bt (_betacf b a (fsub f1 x))) b).

(** ** The Student-t quantile *)

(** [for _ in range(160)] *)
Fixpoint bisect_quantile (fuel : nat) (p2 df lo hi : float) : float * float :=
  match fuel with
  | 0 => (lo, hi)
  | S fuel =>
      let mid := fdiv (fadd lo hi) 2.0%float in
      if flt p2 (_reg_incomplete_beta (fdiv df 2.0%float) 0.5%float
                   (fdiv df (fadd df (fmul mid mid))))
      then bisect_quantile fuel p2 df mid hi
      else bisect_quantile fuel p2 df lo mid
  end.

Definition students_t_upper_quantile (upper_tail : float) (df : Z) : float :=
  let p2 := fmul 2.0%float upper_tail in
  let '(lo, hi) := bisect_quantile 160 p2 (float_of_Z df) f0 1.0e7%float in
  fdiv (fadd lo hi) 2.0%float.

(** ** The effect *)

Definition minimum_detectable_effect (sd : float) (n : Z) (alpha power : float) : option float :=
  if (n <? 2)%Z then None
  else
    let df := (2 * (n - 1))%Z in
    let t_alpha := students_t_upper_quantile (fdiv alpha 2.0%float) df in
    let t_beta := students_t_upper_quantile (fsub f1 power) df in
    Some (fmul (fmul (fadd t_alpha t_beta) sd) (fsqrt (fdiv 2.0%float (float_of_Z n)))).

(** [effect is not None and effect <= margin] *)
Definition resolves (delta_std margin alpha power : float) (n : Z) : bool :=
  match minimum_detectable_effect delta_std n alpha power with
  | Some effect => fle effect margin
  | None => false
  end.

Definition replicates_for_margin (delta_std margin alpha power : float) (cap : Z) : option Z :=
  if fle margin f0 then None
  else find_first (resolves delta_std margin alpha power) (seqZ 2 (cap - 1)).
End Effect.

(** ** The ladder *)

Lemma find_first_seqZ (p : Z -> bool) m len n :
  find_first p (seqZ m len) = Some n <->
  (m <= n < m + len)%Z /\ p n = true /\ forall k, (m <= k < n)%Z -> p k = false.
Proof.
  unfold find_first. destruct (Z.le_gt_cases 0 len) as [Hlen|Hlen].
  2:{ rewrite seqZ_nil by lia. cbn. split; [done|lia]. }
  revert m. pattern len. apply natlike_ind; [|clear len Hlen|done].
  - intros m. rewrite seqZ_nil by lia. cbn. split; [done|lia].
  - intros len Hlen IH m. rewrite seqZ_cons by lia. cbn [List.find].
    replace (Z.pred (Z.succ len)) with len by lia. destruct (p m) eqn:Em.
    + split; [intros [= <-]; split_and!; [lia|lia|done|lia]|]. intros (Hr & Hn & Hk). f_equal.
      destruct (Z.eq_dec m n) as [|Hne]; [done|]. rewrite Hk in Em by lia. done.
    + rewrite IH. split; intros (Hr & Hn & Hk).
      * split_and!; [lia..|done|]. intros k ?. destruct (Z.eq_dec k m) as [->|]; [done|]. apply Hk. lia.
      * assert (n <> m) by congruence. split_and!; [lia..|done|]. intros k ?. apply Hk. lia.
Qed.

Lemma replicates_for_margin_spec `{Libm} delta_std margin alpha power cap n :
  replicates_for_margin delta_std margin alpha power cap = Some n <->
  fle margin f0 = false /\ (2 <= n <= cap)%Z /\ resolves delta_std margin alpha power n = true
  /\ forall k, (2 <= k < n)%Z -> resolves delta_std margin alpha power k = false.
Proof.
  unfold replicates_for_margin. destruct (fle margin f0); [by split; [|intros [? _]]|].
  rewrite find_first_seqZ. split.
  - intros (? & ? & ?). split_and!; [done|lia..|done|done].
  - intros (_ & ? & ? & ?). split_and!; [lia..|done|done].
Qed.

(** The replicate count sized for a positive margin is the least count on the
    ladder 2, 3, ..., cap whose minimum detectable effect is within the margin; no
    count is returned exactly when the margin is not positive or no count on the
    ladder resolves it. *)
Theorem replicates_for_margin_least `{Libm} delta_std margin alpha power cap :
  match replicates_for_margin delta_std margin alpha power cap with
  | Some n =>
      fle margin f0 = false /\ (2 <= n <= cap)%Z /\ resolves delta_std margin alpha power n = true
      /\ forall k, (2 <= k < n)%Z -> resolves delta_std margin alpha power k = false
  | None =>
      fle margin f0 = true
      \/ forall k, (2 <= k <= cap)%Z -> resolves delta_std margin alpha power k = false
  end.
Proof.
  destruct (replicates_for_margin delta_std margin alpha power cap) as [n|] eqn:E.
  { by apply replicates_for_margin_spec. }
  unfold replicates_for_margin in E. destruct (fle margin f0); [by left|right].
  intros k Hk. apply (find_first_None _ _ _ E). apply elem_of_seqZ. lia.
Qed.
