(* ===== verification/ChampionGate.v ===== *)
(** The shared ending of the field structures,
    [src/zicato/selection/strategies/champion_gate.py].

    [GateState] is the state the base class keeps.  A structure's state extends it
    ([base]) and supplies the abstract methods and class attributes as an instance
    of [ChampionGate]; the crowned decision, the round records, the live
    projection and the default standings are then written once. *)

From S2P Require Import Prelude PyFloat PyJson CoreTypes Gate Params Strategy Resolve ResolveSpec PlackettLuce.

Record GateState := {
  gs_params : Params;
  gs_replicates : Z;
  gs_field_size : Z;
  gs_champion : option Contestant;
  gs_challengers : list Contestant;
  gs_audit : list MatchupResult;
  gs_records : list RoundRecord;
  gs_final_scheduled : bool;
  gs_final_result : option MatchupResult;
  gs_scalars : list (string * float);
  gs_wins : list (string * Z);
  gs_losses : list (string * Z);
  gs_rating : option string;
  gs_resolver : option string;
}.

Definition gate_parameter_names : list string := base_parameter_names ++ ["field_size"].

(** [ChampionGateStrategy.__init__], with the standings knobs its subclasses
    assign. *)
Definition gate_init `{PyFormat} `{PyRepr} (structure : string) (parameter_names : list string)
    (_default_replicates : Z) (knobs : bool) (params : option Params) : result GateState :=
  try pr <- strategy_init structure parameter_names _default_replicates params;
  let '(params, reps) := pr in
  try size <- _param_int params "field_size" 2;
  Ok {| gs_params := params; gs_replicates := reps; gs_field_size := Z.max 1 size;
        gs_champion := None; gs_challengers := []; gs_audit := []; gs_records := [];
        gs_final_scheduled := false; gs_final_result := None; gs_scalars := []; gs_wins := [];
        gs_losses := [];
        gs_rating := if knobs then read_rating params else None;
        gs_resolver := if knobs then read_resolver params else None |}.

(** ** Assignments to the base state *)

Definition gs_seed (champ : Contestant) (chs : list Contestant) (s : GateState) : GateState := {|
  gs_params := gs_params s; gs_replicates := gs_replicates s; gs_field_size := gs_field_size s;
  gs_champion := Some champ; gs_challengers := chs; gs_audit := gs_audit s;
  gs_records := gs_records s; gs_final_scheduled := gs_final_scheduled s;
  gs_final_result := gs_final_result s; gs_scalars := gs_scalars s; gs_wins := gs_wins s;
  gs_losses := gs_losses s; gs_rating := gs_rating s; gs_resolver := gs_resolver s |}.

(** [self._audit.append(result)] and the tally of its scalars. *)
Definition gs_log (r : MatchupResult) (scalars : list (string * float)) (s : GateState)
    : GateState := {|
  gs_params := gs_params s; gs_replicates := gs_replicates s; gs_field_size := gs_field_size s;
  gs_champion := gs_champion s; gs_challengers := gs_challengers s;
  gs_audit := gs_audit s ++ [r]; gs_records := gs_records s;
  gs_final_scheduled := gs_final_scheduled s; gs_final_result := gs_final_result s;
  gs_scalars := scalars; gs_wins := gs_wins s; gs_losses := gs_losses s;
  gs_rating := gs_rating s; gs_resolver := gs_resolver s |}.

Definition gs_set_scalars (scalars : list (string * float)) (s : GateState) : GateState := {|
  gs_params := gs_params s; gs_replicates := gs_replicates s; gs_field_size := gs_field_size s;
  gs_champion := gs_champion s; gs_challengers := gs_challengers s; gs_audit := gs_audit s;
  gs_records := gs_records s; gs_final_scheduled := gs_final_scheduled s;
  gs_final_result := gs_final_result s; gs_scalars := scalars; gs_wins := gs_wins s;
  gs_losses := gs_losses s; gs_rating := gs_rating s; gs_resolver := gs_resolver s |}.

Definition gs_tally (wins losses : list (string * Z)) (s : GateState) : GateState := {|
  gs_params := gs_params s; gs_replicates := gs_replicates s; gs_field_size := gs_field_size s;
  gs_champion := gs_champion s; gs_challengers := gs_challengers s; gs_audit := gs_audit s;
  gs_records := gs_records s; gs_final_scheduled := gs_final_scheduled s;
  gs_final_result := gs_final_result s; gs_scalars := gs_scalars s; gs_wins := wins;
  gs_losses := losses; gs_rating := gs_rating s; gs_resolver := gs_resolver s |}.

Definition gs_add_record (rec : RoundRecord) (s : GateState) : GateState := {|
  gs_params := gs_params s; gs_replicates := gs_replicates s; gs_field_size := gs_field_size s;
  gs_champion := gs_champion s; gs_challengers := gs_challengers s; gs_audit := gs_audit s;
  gs_records := gs_records s ++ [rec]; gs_final_scheduled := gs_final_scheduled s;
  gs_final_result := gs_final_result s; gs_scalars := gs_scalars s; gs_wins := gs_wins s;
  gs_losses := gs_losses s; gs_rating := gs_rating s; gs_resolver := gs_resolver s |}.

Definition gs_schedule_final (s : GateState) : GateState := {|
  gs_params := gs_params s; gs_replicates := gs_replicates s; gs_field_size := gs_field_size s;
  gs_champion := gs_champion s; gs_challengers := gs_challengers s; gs_audit := gs_audit s;
  gs_records := gs_records s; gs_final_scheduled := true; gs_final_result := gs_final_result s;
  gs_scalars := gs_scalars s; gs_wins := gs_wins s; gs_losses := gs_losses s;
  gs_rating := gs_rating s; gs_resolver := gs_resolver s |}.

Definition gs_set_final (r : MatchupResult) (s : GateState) : GateState := {|
  gs_params := gs_params s; gs_replicates := gs_replicates s; gs_field_size := gs_field_size s;
  gs_champion := gs_champion s; gs_challengers := gs_challengers s; gs_audit := gs_audit s;
  gs_records := gs_records s; gs_final_scheduled := gs_final_scheduled s;
  gs_final_result := Some r; gs_scalars := gs_scalars s; gs_wins := gs_wins s;
  gs_losses := gs_losses s; gs_rating := gs_rating s; gs_resolver := gs_resolver s |}.

(** [d[k] = d.get(k, 0) + 1] *)
Definition dict_incr (d : list (string * Z)) (k : string) : list (string * Z) :=
  dict_set d k (dict_get_or d k 0 + 1)%Z.

#[global] Arguments dict_incr : simpl never.

Lemma dict_incr_get d k g :
  dict_get_or (dict_incr d k) g 0%Z = (dict_get_or d g 0 + if bool_decide (g = k) then 1 else 0)%Z.
Proof.
  unfold dict_incr, dict_get_or. rewrite dict_get_set. case_decide as Hk.
  - rewrite bool_decide_eq_true_2 by done. by subst.
  - rewrite bool_decide_eq_false_2 by done. lia.
Qed.

(** ** The crowning duel *)

(** [_capture_final_result]: [Some] the state that stored the crowning duel. *)
Definition _capture_final_result (final_id : string) (r : MatchupResult) (s : GateState)
    : option GateState :=
  if gs_final_scheduled s && String.eqb (mr_id r) final_id then Some (gs_set_final r s) else None.

Definition _pick_finalist `{PyRepr} (s : GateState) (default : Contestant) : result Contestant :=
  match gs_resolver s, gs_champion s with
  | Some resolver, Some champ =>
      try proposed <- resolver_leader (gs_audit s) resolver;
      match proposed with
      | None => Ok default
      | Some proposed =>
          if String.eqb proposed (generation_id champ) then Ok default
          else
            let by_id := foldl (fun d c => dict_set d (generation_id c) c) [] (gs_challengers s) in
            Ok (dict_get_or by_id proposed default)
      end
  | _, _ => Ok default
  end.

(** The abstract methods and class attributes of a field structure. *)
Class ChampionGate (S : Type) := {
  base : S -> GateState;
  _final_match_id : string;
  _final_label : string;
  _final_bracket_slot : string;
  _final_board_fraction : option float;
  _finalist : S -> option Contestant;
  _final_stage_index : S -> nat;
  _no_promotion_reason : S -> string;
  _pending_stage_round : S -> result (option RoundRecord);
  _standings : S -> option string -> list Standing;
}.

Section Views.
Context {S : Type} `{ChampionGate S}.

(** [ChampionGateStrategy.champion] *)
Definition gate_champion (s : S) : SelectionDecision :=
  let audit := gs_audit (base s) in
  match gs_final_result (base s), _finalist s, gs_champion (base s) with
  | Some result, Some finalist, Some _ =>
      let outcome := mr_outcome result in
      let promoted_id :=
        if promoted (decision outcome) then Some (generation_id finalist) else None in
      {| sd_promoted_generation_id := promoted_id; sd_decision := decision outcome;
         sd_reason := reason outcome; sd_matchups := audit;
         sd_crowning_matchup_id := _final_match_id (S := S); sd_standings := _standings s promoted_id |}
  | _, _, _ =>
      {| sd_promoted_generation_id := None; sd_decision := REJECTED;
         sd_reason := _no_promotion_reason s; sd_matchups := audit; sd_crowning_matchup_id := "";
         sd_standings := _standings s None |}
  end.

Lemma gate_champion_matchups s : sd_matchups (gate_champion s) = gs_audit (base s).
Proof. unfold gate_champion. by repeat case_match. Qed.

Lemma gate_champion_standings s : exists o, sd_standings (gate_champion s) = _standings s o.
Proof. unfold gate_champion. repeat case_match; eexists; done. Qed.

Definition _final_round_record (s : S) : option RoundRecord :=
  match _finalist s, gs_final_result (base s), gs_champion (base s) with
  | Some finalist, Some result, Some champ =>
      let outcome := mr_outcome result in
      let winner :=
        if promoted (decision outcome) then generation_id finalist else generation_id champ in
      Some {| rr_stage_index := _final_stage_index s; rr_label := _final_label (S := S);
              rr_matches :=
                [settled_record (_final_match_id (S := S)) [generation_id champ; generation_id finalist]
                   winner outcome (_final_bracket_slot (S := S)) (_final_board_fraction (S := S))] |}
  | _, _, _ => None
  end.

Definition gate_rounds (s : S) : list RoundRecord :=
  match _final_round_record s with
  | None => gs_records (base s)
  | Some final => gs_records (base s) ++ [final]
  end.

Definition _pending_final_round (s : S) : result (option RoundRecord) :=
  match gs_final_scheduled (base s), gs_final_result (base s), _finalist s with
  | true, None, Some finalist =>
      match gs_champion (base s) with
      | None => Raise AssertionError
      | Some champ =>
          Ok (Some {| rr_stage_index := _final_stage_index s; rr_label := _final_label (S := S);
                      rr_matches :=
                        [pending_match_record (_final_match_id (S := S))
                           [generation_id champ; generation_id finalist]
                           (_final_bracket_slot (S := S)) (_final_board_fraction (S := S)) None] |})
      end
  | _, _, _ => Ok None
  end.

Definition gate_pending_round (s : S) : result (option RoundRecord) :=
  try stage <- _pending_stage_round s;
  match stage with Some r => Ok (Some r) | None => _pending_final_round s end.
End Views.

(** ** Standings *)

(** [_sort_standings]: by [(scalar, id)], or by fitted strength with the unrated
    after every rated contestant. *)
Definition scalar_row_lt (a b : Standing) : bool :=
  if feq (sg_scalar a) (sg_scalar b) then str_lt (sg_generation_id a) (sg_generation_id b)
  else flt (sg_scalar a) (sg_scalar b).

(** [rank.get(gid, len(order))] *)
Definition order_rank (order : list string) (gid : string) : nat :=
  from_option fst (length order) (list_find (eq gid) order).

Definition rated_row_lt (order : list string) (a b : Standing) : bool :=
  let ra := order_rank order (sg_generation_id a) in
  let rb := order_rank order (sg_generation_id b) in
  if ra =? rb then scalar_row_lt a b else ra <? rb.

Definition uses_rating (s : GateState) : bool := bool_decide (gs_rating s = Some "bradley_terry").

Definition _sort_standings `{Libm} (s : GateState) (rows : list Standing) : list Standing :=
  match (if uses_rating s then rating_order (gs_audit s) else []) with
  | [] => py_sorted scalar_row_lt rows
  | order => py_sorted (rated_row_lt order) rows
  end.

(** [replace(row, rank=i + 1)] *)
Definition _ranked (rows : list Standing) : list Standing :=
  imap (fun i row => {| sg_generation_id := sg_generation_id row; sg_rank := S i;
                        sg_scalar := sg_scalar row; sg_wins := sg_wins row;
                        sg_losses := sg_losses row; sg_status := sg_status row;
                        sg_role := sg_role row |}) rows.

(** The contestants' ids, the champion first, each once. *)
Definition standing_ids (s : GateState) : list string :=
  first_seen ((match gs_champion s with Some c => [generation_id c] | None => [] end)
              ++ (generation_id <$> gs_challengers s)).

Definition standing_row (s : GateState) (is_eliminated : string -> bool)
    (promoted_id : option string) (gid : string) : Standing := {|
  sg_generation_id := gid;
  sg_rank := 0;
  sg_scalar := dict_get_or (gs_scalars s) gid f0;
  sg_wins := dict_get_or (gs_wins s) gid 0%Z;
  sg_losses := dict_get_or (gs_losses s) gid 0%Z;
  sg_status := if bool_decide (promoted_id = Some gid) then crowned
               else if is_eliminated gid then eliminated else alive;
  sg_role := match gs_champion s with
             | Some c => if String.eqb gid (generation_id c) then role_champion else role_challenger
             | None => role_challenger
             end |}.

(** [ChampionGateStrategy._standings] *)
Definition gate_standings `{Libm} (s : GateState) (is_eliminated : string -> bool)
    (promoted_id : option string) : list Standing :=
  _ranked (_sort_standings s (standing_row s is_eliminated promoted_id <$> standing_ids s)).

(** ** What every field structure inherits *)

Section Inherited.
Context {S : Type} `{ChampionGate S}.

(** The crowning duel on record is the champion against the finalist, a
    challenger, and it is in the audit. *)
Definition final_ok (champ : Contestant) (chs : list Contestant) (s : S) : Prop :=
  gs_champion (base s) = Some champ /\ gs_challengers (base s) = chs
  /\ forall r, gs_final_result (base s) = Some r ->
       r ∈ gs_audit (base s) /\ mr_id r = _final_match_id (S := S)
       /\ exists f, _finalist s = Some f /\ f ∈ chs
            /\ mr_left_id r = generation_id champ /\ mr_right_id r = generation_id f.

Lemma final_ok_crowned champ chs s : final_ok champ chs s -> crowned_by_gate champ chs (gate_champion s).
Proof.
  intros (Hc & _ & Hr). unfold gate_champion, crowned_by_gate. intros gid.
  destruct (gs_final_result (base s)) as [r|] eqn:E; [|done].
  destruct (Hr r eq_refl) as (Hin & Hid & f & -> & Hf & Hl & Hright). rewrite Hc. cbn.
  destruct (decision (mr_outcome r)) eqn:Ed; cbn; try done. intros [= <-].
  split_and!; [done|by exists f|]. by exists r.
Qed.
End Inherited.

Lemma _ranked_ids rows : sg_generation_id <$> _ranked rows = sg_generation_id <$> rows.
Proof.
  unfold _ranked. rewrite fmap_imap. apply list_eq. intros i.
  rewrite list_lookup_imap, list_lookup_fmap. by destruct (rows !! i).
Qed.

Lemma _ranked_ranks rows : sg_rank <$> _ranked rows = seq 1 (length rows).
Proof.
  unfold _ranked. rewrite fmap_imap. apply list_eq. intros i. rewrite list_lookup_imap.
  destruct (rows !! i) as [r|] eqn:E; cbn.
  - apply lookup_lt_Some in E. by rewrite lookup_seq_lt.
  - apply lookup_ge_None in E. by rewrite lookup_seq_ge.
Qed.

Lemma _sort_standings_perm `{Libm} s rows : _sort_standings s rows ≡ₚ rows.
Proof. unfold _sort_standings. destruct (if uses_rating s then _ else _); apply py_sorted_perm. Qed.

(** The default standings rank every contestant of the field exactly once,
    champion included, with the ranks 1, 2, ... in order. *)
Theorem gate_standings_complete `{Libm} s is_eliminated promoted_id :
  let rows := gate_standings s is_eliminated promoted_id in
  NoDup (sg_generation_id <$> rows)
  /\ (forall gid, gid ∈ (sg_generation_id <$> rows)
        <-> (exists c, gs_champion s = Some c /\ gid = generation_id c)
            \/ gid ∈ (generation_id <$> gs_challengers s))
  /\ sg_rank <$> rows = seq 1 (length rows).
Proof.
  intros rows. unfold rows, gate_standings.
  set (ids := standing_ids s). set (mk := standing_row s is_eliminated promoted_id).
  assert (Hids : sg_generation_id <$> (mk <$> ids) = ids).
  { rewrite <-list_fmap_compose. apply list_eq. intros i. rewrite list_lookup_fmap. by destruct (ids !! i). }
  assert (Hp : sg_generation_id <$> _ranked (_sort_standings s (mk <$> ids)) ≡ₚ ids).
  { by rewrite _ranked_ids, _sort_standings_perm, Hids. }
  assert (Hspec : NoDup ids /\ forall x, x ∈ ids <-> (exists c, gs_champion s = Some c /\ x = generation_id c)
                    \/ x ∈ (generation_id <$> gs_challengers s)).
  { unfold ids, standing_ids, first_seen.
    destruct (foldl_note_id_spec ((match gs_champion s with Some c => [generation_id c] | None => [] end)
              ++ (generation_id <$> gs_challengers s)) []) as [H1 H2]; [constructor|].
    split; [done|]. intros x. rewrite H2, elem_of_app. destruct (gs_champion s); set_solver. }
  destruct Hspec as [Hnd Hin]. split_and!.
  - by rewrite Hp.
  - intros gid. by rewrite Hp, Hin.
  - rewrite _ranked_ranks. f_equal. unfold _ranked. by rewrite length_imap.
Qed.

(** ** The internal nomination *)

(** The resolver knob holds one of its two tokens, as [read_resolver] leaves it. *)
Definition resolver_ok (s : GateState) : Prop :=
  match gs_resolver s with None => True | Some r => r ∈ ["copeland"; "ranked_pairs"] end.

Lemma read_resolver_valid params r : read_resolver params = Some r -> r ∈ ["copeland"; "ranked_pairs"].
Proof.
  unfold read_resolver, read_token. destruct (dict_get_or _ _ _); try done.
  case_bool_decide; [|done]. by intros [= <-].
Qed.

Lemma resolver_leader_ok `{PyRepr} audit resolver :
  resolver ∈ ["copeland"; "ranked_pairs"] -> exists o, resolver_leader audit resolver = Ok o.
Proof.
  intros Hr. unfold resolver_leader, audit_matrix.
  destruct (ids (build_matrix _)) as [|i l] eqn:E; [by eexists|].
  destruct (resolve_leader_smith (build_matrix (omap matrix_duel audit)) resolver)
    as (x & -> & _); [apply build_matrix_wf|by rewrite E|done|by eexists].
Qed.

Lemma by_id_elem (chs : list Contestant) gid c :
  dict_get (foldl (fun d c => dict_set d (generation_id c) c) [] chs) gid = Some c ->
  c ∈ chs /\ generation_id c = gid.
Proof.
  assert (Hgen : forall d,
    dict_get (foldl (fun d c => dict_set d (generation_id c) c) d chs) gid = Some c ->
    dict_get d gid = Some c \/ (c ∈ chs /\ generation_id c = gid)).
  { induction chs as [|x chs IH]; intros d Hd; cbn in *; [by left|].
    apply IH in Hd as [Hd|[? ?]]; [|right; set_solver].
    rewrite dict_get_set in Hd. case_decide; [|by left]. injection Hd as <-. right. set_solver. }
  intros Hd. by apply Hgen in Hd as [?|?].
Qed.

Lemma _pick_finalist_ok `{PyRepr} s default :
  resolver_ok s -> default ∈ gs_challengers s ->
  exists f, _pick_finalist s default = Ok f /\ f ∈ gs_challengers s.
Proof.
  intros Hr Hd. unfold _pick_finalist, resolver_ok in *.
  destruct (gs_resolver s) as [resolver|]; [|by exists default].
  destruct (gs_champion s) as [champ|]; [|by exists default].
  destruct (resolver_leader_ok (gs_audit s) resolver Hr) as [o ->]. cbn.
  destruct o as [proposed|]; [|by exists default].
  destruct (String.eqb _ _); [by exists default|]. eexists. split; [reflexivity|].
  unfold dict_get_or. destruct (dict_get _ proposed) as [c|] eqn:E; [|done].
  by apply by_id_elem in E as [? _].
Qed.
