(* ===== verification/Driver.v ===== *)
(** Driving a strategy to a decision: [evaluate_tournament] of
    [src/zicato/selection/driver.py], over the interface of [Strategy].

    The field and the duels are injected callables.  [run k m] is what
    [run_matchup] does with matchup [m] of the [k]-th batch: a result, or the
    exception it raises.  The batch runs concurrently and is gathered in the order
    of the matchups, so the model runs it in that order; when several duels raise,
    the source raises the first to finish and the model the first of the batch. *)

From S2P Require Import Prelude PyFloat PyJson CoreTypes Gate Params Strategy.

(** [gather_owned] over the duels of a batch. *)
Definition gather_owned (run : Matchup -> result MatchupResult) (batch : list Matchup)
    : result (list MatchupResult) := result_map run batch.

Section Driver.
Context {S : Type} `{SelectionStrategy S}.

(** [while not strategy.resolved()]: [None] when the fuel runs out. *)
Fixpoint drive (run : nat -> Matchup -> result MatchupResult) (fuel k : nat) (s : S)
    : option (result S) :=
  if resolved s then Some (Ok s)
  else
    match fuel with
    | 0 => None
    | Datatypes.S fuel =>
        match next_matchups s with
        | Raise e => Some (Raise e)
        | Ok ([], s) => Some (Ok s)
        | Ok (batch, s) =>
            match (try results <- gather_owned (run k) batch; record_results results s) with
            | Raise e => Some (Raise e)
            | Ok s => drive run fuel (Datatypes.S k) s
            end
        end
    end.

(** [evaluate_tournament] up to [decision = strategy.champion()]: the field is requested
    for the size the strategy plans, seeded and driven.  The rest of the function, which
    hands the decision to the pre-gate, is
    [Confirmation.evaluate_tournament_with_evidence]. *)
Definition evaluate_tournament (request_field : Z -> result (Contestant * list Contestant))
    (run : nat -> Matchup -> result MatchupResult) (fuel : nat) (strategy : S)
    : option (result SelectionDecision) :=
  match (try fc <- request_field (field_size strategy); seed fc.1 fc.2 strategy) with
  | Raise e => Some (Raise e)
  | Ok s =>
      match drive run fuel 0 s with
      | None => None
      | Some (Raise e) => Some (Raise e)
      | Some (Ok s) => Some (Ok (champion s))
      end
  end.
End Driver.

(** More fuel changes nothing once the drive returns. *)
Lemma drive_more {S} `{SelectionStrategy S} run n m k (s : S) r :
  drive run n k s = Some r -> n <= m -> drive run m k s = Some r.
Proof.
  revert m k s. induction n as [|n IH]; intros m k s; destruct m as [|m]; cbn [drive]; try done; try lia.
  - by case_match.
  - intros Hd Hle. case_match; [done|]. destruct (next_matchups s) as [[[|x ms] s1]|]; try done.
    destruct (result_bind _ _); [|done]. apply IH; [done|lia].
Qed.

(** What scheduling and recording both keep, driving keeps. *)
Section Preserved.
Context {S A : Type} `{SelectionStrategy S} (f : S -> A).

Definition step_keeps : Prop :=
  (forall s ms s', next_matchups s = Ok (ms, s') -> f s' = f s)
  /\ (forall r s s', record_result r s = Ok s' -> f s' = f s).

Lemma record_results_keeps rs s s' : step_keeps -> record_results rs s = Ok s' -> f s' = f s.
Proof.
  intros [_ Hrec]. unfold record_results. revert s. induction rs as [|r rs IH]; intros s; cbn.
  { by intros [= ->]. }
  intros (s1 & H1 & H2)%result_bind_ok. rewrite (IH _ H2). by eapply Hrec.
Qed.

Lemma drive_keeps run n k s s' : step_keeps -> drive run n k s = Some (Ok s') -> f s' = f s.
Proof.
  intros Hk. revert k s. induction n as [|n IH]; intros k s; cbn [drive]; (case_match; [by intros [= ->]|]);
    [done|]. destruct (next_matchups s) as [[ms s1]|] eqn:Hn; [|done].
  pose proof (proj1 Hk _ _ _ Hn) as Hf. destruct ms as [|m ms]; [by intros [= ->]|].
  destruct (gather_owned _ _) as [rs|]; cbn [result_bind]; [|done].
  destruct (record_results rs s1) as [s2|] eqn:Hr; [|done].
  intros Hd%IH. by rewrite Hd, (record_results_keeps rs s1 s2).
Qed.
End Preserved.

(** Every duel returns, and its result names the duel it answers. *)
Definition answering (run : nat -> Matchup -> result MatchupResult) : Prop :=
  forall k m, exists r, run k m = Ok r /\ answers m r.

Section Termination.
Context {S : Type} `{SelectionLaws S}.

Lemma gather_answers run k batch :
  answering run -> exists rs, gather_owned (run k) batch = Ok rs /\ Forall2 answers batch rs.
Proof.
  intros Hrun. induction batch as [|m batch (rs & Hrs & Hf)]; [by exists []|].
  destruct (Hrun k m) as (r & Hr & Ha). exists (r :: rs).
  unfold gather_owned in *. cbn. rewrite Hr. cbn. rewrite Hrs.
  split; [done|by constructor].
Qed.

(** Where a driven strategy stops: resolved, or with nothing to schedule. *)
Definition stopped (champ : Contestant) (chs : list Contestant) (s : S) : Prop :=
  inv champ chs s
  /\ (resolved s = true
      \/ exists s0, inv champ chs s0 /\ resolved s0 = false /\ next_matchups s0 = Ok ([], s)).

Lemma drive_stops run champ chs s n k :
  answering run -> inv champ chs s -> fuel s < n ->
  exists s', drive run n k s = Some (Ok s') /\ stopped champ chs s'.
Proof.
  intros Hrun. revert s k. induction n as [|n IH]; intros s k Hinv Hn; [lia|].
  cbn [drive]. destruct (resolved s) eqn:Er; [exists s; split; [done|by split; [|left]]|].
  destruct (schedule_law champ chs s Hinv Er) as (ms & s' & Hnext & Hnil). rewrite Hnext.
  destruct ms as [|m ms].
  { exists s'. split; [done|]. split; [auto|]. right. by exists s. }
  destruct (gather_answers run k (m :: ms) Hrun) as (rs & Hrs & Hans). rewrite Hrs. cbn [result_bind].
  destruct (batch_law champ chs s (m :: ms) s' rs Hinv Er Hnext) as (s'' & Hs'' & Hinv'' & Hlt);
    [done|done|]. rewrite Hs''. apply IH; [done|lia].
Qed.

Lemma evaluate_tournament_drive request_field run strategy champ chs n :
  fresh strategy -> request_field (field_size strategy) = Ok (champ, chs) -> fields chs ->
  answering run -> (forall s, seed champ chs strategy = Ok s -> fuel s < n) ->
  exists s0 s, seed champ chs strategy = Ok s0 /\ drive run n 0 s0 = Some (Ok s)
    /\ evaluate_tournament request_field run n strategy = Some (Ok (champion s))
    /\ stopped champ chs s.
Proof.
  intros Hf Hreq Hfields Hrun Hn. unfold evaluate_tournament. rewrite Hreq. cbn [result_bind fst snd].
  destruct (seed_law champ chs strategy Hf Hfields) as (s & Hs & Hinv). rewrite Hs.
  destruct (drive_stops run champ chs s n 0 Hrun Hinv (Hn s Hs)) as (s' & Hd & Hst).
  exists s, s'. by rewrite Hd.
Qed.

Lemma evaluate_tournament_run request_field run strategy champ chs n :
  fresh strategy -> request_field (field_size strategy) = Ok (champ, chs) -> fields chs ->
  answering run -> (forall s, seed champ chs strategy = Ok s -> fuel s < n) ->
  exists s, evaluate_tournament request_field run n strategy = Some (Ok (champion s))
    /\ stopped champ chs s.
Proof.
  intros. destruct (evaluate_tournament_drive request_field run strategy champ chs n)
    as (_ & s & _ & _ & ? & ?); [done..|]. by exists s.
Qed.
End Termination.
