(* ===== verification/Gauntlet.v ===== *)
(** The one-challenger gauntlet,
    [src/zicato/selection/strategies/gauntlet.py]. *)

From S2P Require Import Prelude PyFloat PyJson CoreTypes Gate Params Strategy.

Record GauntletStrategy := {
  g_params : Params;
  g_replicates : Z;
  g_champion : option Contestant;
  g_challenger : option Contestant;
  g_result : option MatchupResult;
  g_scheduled : bool;
}.

Definition gauntlet_init `{PyFormat} `{PyRepr} (params : option Params) : result GauntletStrategy :=
  try pr <- strategy_init "gauntlet" base_parameter_names 2 params;
  Ok {| g_params := pr.1; g_replicates := pr.2; g_champion := None; g_challenger := None;
        g_result := None; g_scheduled := false |}.

Definition gauntlet_seed (champ : Contestant) (chs : list Contestant) (s : GauntletStrategy)
    : result GauntletStrategy :=
  match chs with
  | [] => Raise (ValueError "gauntlet requires exactly one challenger; got none")
  | c :: _ =>
      Ok {| g_params := g_params s; g_replicates := g_replicates s; g_champion := Some champ;
            g_challenger := Some c; g_result := g_result s; g_scheduled := g_scheduled s |}
  end.

Definition gauntlet_next (s : GauntletStrategy) : list Matchup * GauntletStrategy :=
  match g_scheduled s, g_champion s, g_challenger s with
  | false, Some champ, Some c =>
      ([{| mu_id := "gauntlet"; mu_left := champ; mu_right := c; mu_board_subset := None;
           mu_replicates := g_replicates s; mu_stage_index := 0; mu_bracket_slot := "";
           mu_budget_seconds := None |}],
       {| g_params := g_params s; g_replicates := g_replicates s; g_champion := g_champion s;
          g_challenger := g_challenger s; g_result := g_result s; g_scheduled := true |})
  | _, _, _ => ([], s)
  end.

Definition gauntlet_record (r : MatchupResult) (s : GauntletStrategy) : GauntletStrategy := {|
  g_params := g_params s; g_replicates := g_replicates s; g_champion := g_champion s;
  g_challenger := g_challenger s; g_result := Some r; g_scheduled := g_scheduled s |}.

Definition gauntlet_standings (s : GauntletStrategy) (promoted : bool) : list Standing :=
  match g_result s, g_champion s, g_challenger s with
  | Some r, Some champ, Some chal =>
      let won c scalar := {|
        sg_generation_id := generation_id c; sg_rank := 1; sg_scalar := scalar; sg_wins := 1;
        sg_losses := 0; sg_status := crowned;
        sg_role := if promoted then role_challenger else role_champion |} in
      let lost c scalar := {|
        sg_generation_id := generation_id c; sg_rank := 2; sg_scalar := scalar; sg_wins := 0;
        sg_losses := 1; sg_status := eliminated;
        sg_role := if promoted then role_champion else role_challenger |} in
      if promoted then [won chal (right_scalar r); lost champ (left_scalar r)]
      else [won champ (left_scalar r); lost chal (right_scalar r)]
  | _, _, _ => []
  end.

Definition gauntlet_champion (s : GauntletStrategy) : SelectionDecision :=
  match g_result s, g_challenger s with
  | Some r, Some c =>
      let outcome := mr_outcome r in
      let promoted := CoreTypes.promoted (decision outcome) in
      {| sd_promoted_generation_id := if promoted then Some (generation_id c) else None;
         sd_decision := decision outcome; sd_reason := reason outcome; sd_matchups := [r];
         sd_crowning_matchup_id := mr_id r; sd_standings := gauntlet_standings s promoted |}
  | _, challenger =>
      let missing :=
        match challenger with
        | None => "no challenger was fielded"
        | Some c =>
            if negb (g_scheduled s)
            then "the duel against " +:+ generation_id c +:+ " was never scheduled"
            else "the scheduled duel against " +:+ generation_id c +:+ " reported no result"
        end in
      {| sd_promoted_generation_id := None; sd_decision := REJECTED;
         sd_reason := "no challenger duel ran: " +:+ missing; sd_matchups := [];
         sd_crowning_matchup_id := ""; sd_standings := [] |}
  end.

Definition gauntlet_rounds (s : GauntletStrategy) : list RoundRecord :=
  match g_result s, g_champion s, g_challenger s with
  | Some r, Some champ, Some chal =>
      let outcome := mr_outcome r in
      let winner :=
        if CoreTypes.promoted (decision outcome) then generation_id chal else generation_id champ in
      [{| rr_stage_index := 0; rr_label := "Gauntlet";
          rr_matches := [settled_record (mr_id r) [generation_id champ; generation_id chal] winner
                           outcome "" None] |}]
  | _, _, _ => []
  end.

#[export] Instance gauntlet_strategy : SelectionStrategy GauntletStrategy := {|
  field_size _ := 1%Z;
  replicates := g_replicates;
  seed := gauntlet_seed;
  next_matchups s := Ok (gauntlet_next s);
  record_result r s := Ok (gauntlet_record r s);
  resolved s := bool_decide (is_Some (g_result s));
  champion := gauntlet_champion;
  rounds := gauntlet_rounds;
  _pending_round _ := Ok None;
  _live_standings _ := [];
|}.

(** Between batches the duel is either still to schedule or decided, between the
    champion and the first challenger of the field. *)
Definition gauntlet_inv (champ : Contestant) (chs : list Contestant) (s : GauntletStrategy) : Prop :=
  g_champion s = Some champ
  /\ exists c, head chs = Some c /\ g_challenger s = Some c
     /\ match g_result s with
        | None => g_scheduled s = false
        | Some r => mr_left_id r = generation_id champ /\ mr_right_id r = generation_id c
        end.

#[export] Instance gauntlet_laws : SelectionLaws GauntletStrategy.
Proof.
  refine {|
    fresh s := g_result s = None /\ g_scheduled s = false;
    fields chs := chs <> [];
    inv := gauntlet_inv;
    fuel s := match g_result s with None => 1 | Some _ => 0 end |}.
  - intros champ [|c chs] s [Hr Hs] Hne; [done|]. eexists. split; [reflexivity|].
    split; [done|]. exists c. cbn. by rewrite Hr.
  - intros champ chs s (Hc & c & Hh & Hch & Hr) Hres. cbn in *.
    destruct (g_result s); [done|]. unfold gauntlet_next. rewrite Hr, Hc, Hch.
    eexists _, _. split; [reflexivity|done].
  - intros champ chs s ms s' rs (Hc & c & Hh & Hch & Hr) Hres Hn Hne Hans. cbn in *.
    destruct (g_result s) eqn:E; [done|]. unfold gauntlet_next in Hn. rewrite Hr, Hc, Hch in Hn.
    injection Hn as <- <-. apply Forall2_cons_inv_l in Hans as (r & rs' & (Hid & Hl & Hrt) & Hnil & ->).
    apply Forall2_nil_inv_l in Hnil as ->. eexists. split; [reflexivity|]. split; [|cbn; lia].
    split; [done|]. by exists c.
  - intros champ chs s (Hc & c & Hh & Hch & Hr) gid. cbn. unfold gauntlet_champion. rewrite Hch.
    destruct (g_result s) as [r|]; [|done]. cbn. destruct (decision (mr_outcome r)) eqn:Ed; try done.
    intros [= <-]. destruct Hr as [Hl Hrt]. split_and!; [done| |].
    + exists c. split; [|done]. destruct chs; [done|]. injection Hh as ->. set_solver.
    + exists r. split_and!; try done. set_solver.
Defined.
