(* ===== verification/Bracket.v ===== *)
(** Pairing a bracket round, shared by the two elimination structures:
    [_schedule_round] of [src/zicato/selection/experimental/single_elim.py] and
    [_pair_round] of [double_elim.py], which pair a list of contestants in order
    and give the odd one a bye. *)

From S2P Require Import Prelude PyFloat PyJson CoreTypes Gate Params Strategy ChampionGate Driver.

(** [f"{prefix}-R{stage}-{slot}"] *)
Definition bracket_id (prefix : string) (stage slot : nat) : string :=
  prefix +:+ "-R" +:+ pretty stage +:+ "-" +:+ pretty slot.

(** The loop over [contestants]: the duels of consecutive pairs and the bye, with
    its slot, when the number is odd. *)
Fixpoint pair_round (prefix : string) (stage : nat) (reps : Z) (slot : nat)
    (contestants : list Contestant) : list Matchup * option (Contestant * nat) :=
  match contestants with
  | l :: r :: rest =>
      let mid := bracket_id prefix stage slot in
      let '(ms, bye) := pair_round prefix stage reps (S slot) rest in
      ({| mu_id := mid; mu_left := l; mu_right := r; mu_board_subset := None;
          mu_replicates := reps; mu_stage_index := stage; mu_bracket_slot := mid;
          mu_budget_seconds := None |} :: ms, bye)
  | [c] => ([], Some (c, slot))
  | [] => ([], None)
  end.

Definition Pending : Type := list (string * (Contestant * Contestant)).

(** [self._pending[mid] = (left, right)] for each scheduled duel. *)
Definition add_pending (pending : Pending) (ms : list Matchup) : Pending :=
  foldl (fun d m => dict_set d (mu_id m) (mu_left m, mu_right m)) pending ms.

Definition bye_contestants (bye : option (Contestant * nat)) : list Contestant :=
  match bye with Some (c, _) => [c] | None => [] end.

Definition bye_records (prefix : string) (stage : nat) (bye : option (Contestant * nat))
    : list MatchRecord :=
  match bye with
  | Some (c, slot) =>
      [bye_record (bracket_id prefix stage slot) (generation_id c) (bracket_id prefix stage slot)]
  | None => []
  end.

(** The winner and the loser of a decided node: the winner is [left] when the
    lower scalar is its id. *)
Definition node_sides (l r : Contestant) (res : MatchupResult) : Contestant * Contestant :=
  if String.eqb (lower_scalar_id res) (generation_id l) then (l, r) else (r, l).

(** ** Facts about a pairing *)

Lemma bracket_id_inj prefix stage i j : bracket_id prefix stage i = bracket_id prefix stage j -> i = j.
Proof.
  unfold bracket_id. intros H. repeat apply (inj (String.append _)) in H.
  by apply (inj pretty) in H.
Qed.

(** The scheduled duels in terms of their sides. *)
Definition sides (ms : list Matchup) : list Contestant := m ← ms; [mu_left m; mu_right m].

#[global] Arguments sides : simpl never.

Lemma sides_cons m ms : sides (m :: ms) = mu_left m :: mu_right m :: sides ms.
Proof. done. Qed.

Lemma pair_round_sides prefix stage reps slot cs ms bye :
  pair_round prefix stage reps slot cs = (ms, bye) -> sides ms ++ bye_contestants bye = cs.
Proof.
  revert slot ms bye. induction cs as [cs IH] using (induction_ltof1 _ length).
  intros slot ms bye. destruct cs as [|l [|r cs]]; cbn; [by intros [= <- <-]..|].
  destruct (pair_round prefix stage reps (S slot) cs) as [ms' bye'] eqn:E. intros [= <- <-].
  apply IH in E; [|unfold ltof; cbn; lia]. rewrite sides_cons. cbn. by rewrite E.
Qed.

Lemma pair_round_ids prefix stage reps slot cs ms bye m :
  pair_round prefix stage reps slot cs = (ms, bye) -> m ∈ ms ->
  exists k, slot <= k /\ mu_id m = bracket_id prefix stage k.
Proof.
  revert slot ms bye. induction cs as [cs IH] using (induction_ltof1 _ length).
  intros slot ms bye. destruct cs as [|l [|r cs]]; cbn; [intros [= <- <-]; set_solver..|].
  destruct (pair_round prefix stage reps (S slot) cs) as [ms' bye'] eqn:E.
  intros [= <- <-] [->|Hm]%elem_of_cons; [by exists slot|].
  destruct (IH cs ltac:(unfold ltof; cbn; lia) _ _ _ E Hm) as (k & ? & ?).
  exists k. split; [lia|done].
Qed.

Lemma pair_round_NoDup prefix stage reps slot cs ms bye :
  pair_round prefix stage reps slot cs = (ms, bye) -> NoDup (mu_id <$> ms).
Proof.
  revert slot ms bye. induction cs as [cs IH] using (induction_ltof1 _ length).
  intros slot ms bye. destruct cs as [|l [|r cs]]; cbn; [intros [= <- <-]; constructor..|].
  destruct (pair_round prefix stage reps (S slot) cs) as [ms' bye'] eqn:E. intros [= <- <-]. cbn.
  constructor; [|apply (IH cs) in E; [done|unfold ltof; cbn; lia]].
  intros (m & Hid & Hm)%list_elem_of_fmap.
  destruct (pair_round_ids _ _ _ _ _ _ _ _ E Hm) as (k & Hk & Hid').
  rewrite Hid' in Hid. apply bracket_id_inj in Hid. lia.
Qed.

Lemma length_sides ms : length (sides ms) = 2 * length ms.
Proof. induction ms as [|m ms IH]; [done|]. rewrite sides_cons. cbn. rewrite IH. lia. Qed.

Lemma pair_round_length prefix stage reps slot cs ms bye :
  pair_round prefix stage reps slot cs = (ms, bye) ->
  2 * length ms + length (bye_contestants bye) = length cs /\ length (bye_contestants bye) <= 1.
Proof.
  intros E. split.
  - by rewrite <-(pair_round_sides _ _ _ _ _ _ _ E), length_app, length_sides.
  - destruct bye as [[? ?]|]; cbn; lia.
Qed.

Lemma pair_round_nonempty prefix stage reps slot cs ms bye :
  2 <= length cs -> pair_round prefix stage reps slot cs = (ms, bye) -> ms <> [].
Proof. intros Hn [H1 H2]%pair_round_length ->. cbn in *. lia. Qed.

(** The pending dictionary right after a round is scheduled into an empty one. *)
Definition pending_of (ms : list Matchup) : Pending :=
  (fun m => (mu_id m, (mu_left m, mu_right m))) <$> ms.

Lemma add_pending_fresh ms d :
  NoDup (dict_keys d ++ (mu_id <$> ms)) -> add_pending d ms = d ++ pending_of ms.
Proof.
  unfold add_pending. revert d. induction ms as [|m ms IH]; intros d Hnd; cbn.
  { by rewrite app_nil_r. }
  assert (mu_id m ∉ dict_keys d) as Hm.
  { apply NoDup_app in Hnd as (_ & Hd & _). intros Hc. apply (Hd _ Hc). set_solver. }
  rewrite IH, dict_set_fresh by (rewrite ?dict_keys_set, ?decide_False, <-?app_assoc; done).
  by rewrite <-app_assoc.
Qed.

Lemma add_pending_nil ms : NoDup (mu_id <$> ms) -> add_pending [] ms = pending_of ms.
Proof. intros. by rewrite add_pending_fresh. Qed.

Lemma node_sides_perm l r res w x :
  node_sides l r res = (w, x) -> [generation_id w; generation_id x] ≡ₚ [generation_id l; generation_id r].
Proof. unfold node_sides. destruct (String.eqb _ _); intros [= <- <-]; [done|apply perm_swap]. Qed.

Lemma node_sides_elem l r res w x (P : Contestant -> Prop) :
  node_sides l r res = (w, x) -> P l -> P r -> P w /\ P x.
Proof. unfold node_sides. destruct (String.eqb _ _); by intros [= <- <-]. Qed.

(** The ids still to play in a pending dictionary, and the two facts a popped
    duel gives. *)
Definition pending_ids (p : Pending) : list string :=
  '(_, (l, r)) ← p; [generation_id l; generation_id r].

#[global] Arguments pending_ids : simpl never.

Lemma pending_ids_cons mid l r p :
  pending_ids ((mid, (l, r)) :: p) = generation_id l :: generation_id r :: pending_ids p.
Proof. done. Qed.

Lemma pending_ids_of ms : pending_ids (pending_of ms) = generation_id <$> sides ms.
Proof.
  induction ms as [|m ms IH]; [done|]. unfold pending_of in *.
  rewrite fmap_cons, pending_ids_cons, IH. by rewrite sides_cons.
Qed.

(** Every contestant of a pending duel satisfies [P]. *)
Definition pending_all (P : Contestant -> Prop) (p : Pending) : Prop :=
  Forall (fun e : string * (Contestant * Contestant) => P e.2.1 /\ P e.2.2) p.

Lemma pending_all_of P ms : Forall P (sides ms) -> pending_all P (pending_of ms).
Proof.
  unfold pending_all, pending_of. intros Hf. apply Forall_fmap.
  induction ms as [|m ms IH]; [constructor|]. rewrite sides_cons in Hf.
  apply Forall_cons in Hf as [? Hf], Hf as [? Hf]. constructor; [done|auto].
Qed.

(** A batch of node results, one at a time, for a structure whose live states
    have the shape [pend] and count [cur]: it empties the pending duels and counts
    one per duel. *)
Section Batch.
Context {S : Type} `{SelectionStrategy S} (live : S -> Prop) (pend : S -> Pending)
  (cur : S -> nat) (ok_id : string -> Prop).

Definition settles : Prop :=
  forall s mid l r rest res, live s -> pend s = (mid, (l, r)) :: rest -> ok_id mid -> mr_id res = mid ->
    mr_left_id res = generation_id l -> mr_right_id res = generation_id r ->
    exists s', record_result res s = Ok s' /\ live s' /\ pend s' = rest
      /\ cur s' = Datatypes.S (cur s).

Lemma batch_settles ms rs s :
  settles -> live s -> pend s = pending_of ms -> Forall (fun m => ok_id (mu_id m)) ms ->
  Forall2 answers ms rs ->
  exists s', record_results rs s = Ok s' /\ live s' /\ pend s' = []
    /\ cur s' = cur s + length ms.
Proof.
  intros Hstep Hlive Hp Hids Hans. revert s Hlive Hp.
  induction Hans as [|m r ms rs (Hid & Hml & Hmr) _ IH]; intros s Hlive Hp.
  { exists s. split_and!; try done; cbn; lia. }
  apply Forall_cons in Hids as [Hm Hids]. unfold pending_of in Hp. rewrite fmap_cons in Hp.
  destruct (Hstep s _ _ _ _ r Hlive Hp Hm Hid Hml Hmr) as (s1 & Hs1 & Hl & Hpend & Hcur).
  destruct (IH Hids s1 Hl Hpend) as (s' & Hs' & ? & ? & Hlen). exists s'.
  cbn [record_results]. rewrite Hs1. cbn [result_bind]. split_and!; try done.
  cbn [length]. rewrite Hlen, Hcur. lia.
Qed.
End Batch.

(** * A small concrete tournament, on which the structures' witnesses run: a champion,
    four challengers of fixed losses, and a duel decided by the difference of two
    losses. *)

Definition gen (gid : string) (r : Role) : Contestant :=
  {| generation_id := gid; role := r; snapshot_root := None; experiment := None |}.

Definition incumbent : Contestant := gen "v0" role_champion.
Definition field4 : list Contestant := (fun i => gen i role_challenger) <$> ["v1"; "v2"; "v3"; "v4"].

Definition loss_of (gid : string) : float :=
  if String.eqb gid "v3" then 0.25%float else if String.eqb gid "v0" then 0.5%float else 0.75%float.

Definition agg_of (gid : string) : Aggregate := {|
  scalar := Some (loss_of gid); pass_rate := None; mean_score := None; incomplete_entries := [];
  per_entry := []; namespace_aggregates := None; scalar_components := None; diff_size := None |}.

(** A duel decided by the difference of two fixed losses. *)
Definition duel (_ : nat) (m : Matchup) : result MatchupResult :=
  let l := generation_id (mu_left m) in
  let r := generation_id (mu_right m) in
  let delta := fsub (loss_of r) (loss_of l) in
  Ok {| mr_id := mu_id m; mr_left_id := l; mr_right_id := r; mr_left_agg := agg_of l;
        mr_right_agg := agg_of r;
        mr_outcome := {| decision := if flt delta f0 then PROMOTED else REJECTED; reason := "";
                         delta_scalar := delta; delta_pass_rate := f0;
                         attributable_regressions := []; explanation := None |};
        mr_stage_index := mu_stage_index m; mr_bracket_slot := mu_bracket_slot m;
        mr_measurement_draw := None |}.

Lemma duel_answers : answering duel.
Proof. intros k m. eexists. split; [reflexivity|]. done. Qed.

(** A field state with nothing in it. *)
Definition blank_gate : GateState := {|
  gs_params := []; gs_replicates := 0; gs_field_size := 0; gs_champion := None;
  gs_challengers := []; gs_audit := []; gs_records := []; gs_final_scheduled := false;
  gs_final_result := None; gs_scalars := []; gs_wins := []; gs_losses := []; gs_rating := None;
  gs_resolver := None |}.

Definition request_field4 (_ : Z) : result (Contestant * list Contestant) := Ok (incumbent, field4).
