(* ===== verification/SingleElim.v ===== *)
(** Single elimination over the challenger field,
    [src/zicato/selection/experimental/single_elim.py]. *)

From S2P Require Import Prelude PyFloat PyJson CoreTypes Gate Params Strategy ChampionGate Bracket.

Record SingleElim := {
  se_base : GateState;
  se_current_round : list Contestant;
  se_stage_index : nat;
  se_pending : Pending;
  se_round_matches : list MatchRecord;
  se_eliminated_round : list (string * nat);
  se_survivor : option Contestant;
}.

Section SingleElimination.
Context `{PyFormat} `{PyRepr} `{Libm}.

Definition single_elim_init (params : option Params) : result SingleElim :=
  try b <- gate_init "single_elim" (gate_parameter_names ++ ["rating"; "resolver"]) 2 true params;
  Ok {| se_base := b; se_current_round := []; se_stage_index := 0; se_pending := [];
        se_round_matches := []; se_eliminated_round := []; se_survivor := None |}.

Definition se_seed (champ : Contestant) (chs : list Contestant) (s : SingleElim) : SingleElim :=
  let b := gs_seed champ chs (se_base s) in
  let scalars := foldl (fun d c => dict_setdefault d (generation_id c) f0) (gs_scalars b) chs in
  {| se_base := gs_set_scalars scalars b; se_current_round := chs;
     se_stage_index := se_stage_index s; se_pending := se_pending s;
     se_round_matches := se_round_matches s; se_eliminated_round := se_eliminated_round s;
     se_survivor := se_survivor s |}.

(** [_flush_round] *)
Definition se_flush (s : SingleElim) : SingleElim :=
  let b := match se_round_matches s with
           | [] => se_base s
           | matches =>
               gs_add_record {| rr_stage_index := se_stage_index s;
                                rr_label := "Bracket round " +:+ pretty (S (se_stage_index s));
                                rr_matches := matches |} (se_base s)
           end in
  {| se_base := b; se_current_round := se_current_round s; se_stage_index := S (se_stage_index s);
     se_pending := se_pending s; se_round_matches := [];
     se_eliminated_round := se_eliminated_round s; se_survivor := se_survivor s |}.

(** [_schedule_round] *)
Definition se_schedule_round (s : SingleElim) : list Matchup * SingleElim :=
  let '(ms, bye) :=
    pair_round "WB" (se_stage_index s) (gs_replicates (se_base s)) 0 (se_current_round s) in
  (ms,
   {| se_base := se_base s; se_current_round := bye_contestants bye;
      se_stage_index := se_stage_index s; se_pending := add_pending (se_pending s) ms;
      se_round_matches := se_round_matches s ++ bye_records "WB" (se_stage_index s) bye;
      se_eliminated_round := se_eliminated_round s; se_survivor := se_survivor s |}).

(** [_maybe_final], called with a champion seeded. *)
Definition se_maybe_final (champ : Contestant) (s : SingleElim) : result (list Matchup * SingleElim) :=
  match gs_final_scheduled (se_base s), se_survivor s with
  | false, Some survivor =>
      try finalist <- _pick_finalist (se_base s) survivor;
      Ok ([{| mu_id := "final"; mu_left := champ; mu_right := finalist; mu_board_subset := None;
              mu_replicates := gs_replicates (se_base s); mu_stage_index := se_stage_index s;
              mu_bracket_slot := "final"; mu_budget_seconds := None |}],
          {| se_base := gs_schedule_final (se_base s); se_current_round := se_current_round s;
             se_stage_index := se_stage_index s; se_pending := se_pending s;
             se_round_matches := se_round_matches s;
             se_eliminated_round := se_eliminated_round s; se_survivor := Some finalist |})
  | _, _ => Ok ([], s)
  end.

Definition se_next (s : SingleElim) : result (list Matchup * SingleElim) :=
  match gs_champion (se_base s) with
  | None => Ok ([], s)
  | Some champ =>
      match se_survivor s, se_pending s with
      | None, [] =>
          if length (se_current_round s) <=? 1 then
            let s :=
              {| se_base := se_base s; se_current_round := se_current_round s;
                 se_stage_index := se_stage_index s; se_pending := se_pending s;
                 se_round_matches := se_round_matches s;
                 se_eliminated_round := se_eliminated_round s;
                 se_survivor := head (se_current_round s) |} in
            se_maybe_final champ (se_flush s)
          else Ok (se_schedule_round s)
      | None, _ => Ok ([], s)
      | Some _, _ => se_maybe_final champ s
      end
  end.

(** [record_result] of a node's duel, once its pair is popped. *)
Definition se_settle (res : MatchupResult) (l r : Contestant) (s : SingleElim) : SingleElim :=
  let winner_id := lower_scalar_id res in
  let '(winner, loser) := node_sides l r res in
  let b := gs_tally (dict_incr (gs_wins (se_base s)) winner_id)
             (dict_incr (gs_losses (se_base s)) (generation_id loser)) (se_base s) in
  {| se_base := b; se_current_round := se_current_round s ++ [winner];
     se_stage_index := se_stage_index s; se_pending := dict_del (se_pending s) (mr_id res);
     se_round_matches :=
       se_round_matches s
       ++ [settled_record (mr_id res) [generation_id l; generation_id r] winner_id
             (mr_outcome res) (mr_bracket_slot res) None];
     se_eliminated_round :=
       dict_set (se_eliminated_round s) (generation_id loser) (se_stage_index s);
     se_survivor := se_survivor s |}.

Definition se_with_base (b : GateState) (s : SingleElim) : SingleElim := {|
  se_base := b; se_current_round := se_current_round s; se_stage_index := se_stage_index s;
  se_pending := se_pending s; se_round_matches := se_round_matches s;
  se_eliminated_round := se_eliminated_round s; se_survivor := se_survivor s |}.

Definition se_record (res : MatchupResult) (s : SingleElim) : SingleElim :=
  let scalars :=
    dict_set (dict_set (gs_scalars (se_base s)) (mr_left_id res) (left_scalar res))
             (mr_right_id res) (right_scalar res) in
  let s := se_with_base (gs_log res scalars (se_base s)) s in
  match _capture_final_result "final" res (se_base s) with
  | Some b => se_with_base b s
  | None =>
      match dict_get (se_pending s) (mr_id res) with
      | None => s
      | Some (l, r) =>
          let s := se_settle res l r s in
          match se_pending s with [] => se_flush s | _ => s end
      end
  end.

Definition se_resolved (s : SingleElim) : bool :=
  match gs_champion (se_base s), gs_final_result (se_base s) with
  | None, _ | _, Some _ => true
  | Some _, None =>
      match gs_challengers (se_base s), se_survivor s, se_current_round s with
      | [], None, [] => true
      | _, _, _ => false
      end
  end.

Definition se_no_final_detail (s : SingleElim) : string :=
  match gs_champion (se_base s), se_survivor s with
  | None, _ => "no champion was seeded"
  | _, None =>
      "the bracket produced no finalist from " +:+ pretty (length (gs_challengers (se_base s)))
      +:+ " challenger(s) over " +:+ pretty (length (gs_audit (se_base s))) +:+ " duel(s)"
  | Some champ, Some survivor =>
      let measured :=
        match dict_get (gs_scalars (se_base s)) (generation_id champ),
              dict_get (gs_scalars (se_base s)) (generation_id survivor) with
        | Some c, Some f =>
            " (champion " +:+ fmt_fixed 6 c +:+ " vs finalist " +:+ fmt_fixed 6 f +:+ ")"
        | _, _ => ""
        end in
      "the final against finalist " +:+ generation_id survivor +:+ " reported no result" +:+ measured
  end.

Definition se_pending_stage_round (s : SingleElim) : result (option RoundRecord) :=
  match se_pending s with
  | [] => Ok None
  | pending =>
      Ok (Some {| rr_stage_index := se_stage_index s;
                  rr_label := "Bracket round " +:+ pretty (S (se_stage_index s));
                  rr_matches :=
                    se_round_matches s
                    ++ ((fun '(mid, (l, r)) =>
                           pending_match_record mid [generation_id l; generation_id r] mid None None)
                        <$> pending) |})
  end.

Definition se_is_eliminated (s : SingleElim) (gid : string) : bool :=
  dict_mem (se_eliminated_round s) gid.

#[export] Instance single_elim_gate : ChampionGate SingleElim := {|
  base := se_base;
  _final_match_id := "final";
  _final_label := "Final";
  _final_bracket_slot := "final";
  _final_board_fraction := None;
  _finalist := se_survivor;
  _final_stage_index := se_stage_index;
  _no_promotion_reason s := "no finalist cleared the champion gate: " +:+ se_no_final_detail s;
  _pending_stage_round := se_pending_stage_round;
  _standings s := gate_standings (se_base s) (se_is_eliminated s);
|}.

#[export] Instance single_elim_strategy : SelectionStrategy SingleElim := {|
  field_size s := gs_field_size (se_base s);
  replicates s := gs_replicates (se_base s);
  seed champ chs s := Ok (se_seed champ chs s);
  next_matchups := se_next;
  record_result r s := Ok (se_record r s);
  resolved := se_resolved;
  champion := gate_champion;
  rounds := gate_rounds;
  _pending_round := gate_pending_round;
  _live_standings s := _standings s None;
|}.
End SingleElimination.
