(* ===== verification/SingleElimSpec.v ===== *)
(** Single elimination keeps its bracket: every challenger is still in the
    bracket, waiting in a scheduled duel, or eliminated exactly once; each duel
    eliminates one; the tournament ends with the champion gate. *)

From S2P Require Import Prelude PyFloat PyJson CoreTypes Gate Params Strategy ChampionGate Driver Bracket SingleElim.

Section SingleElimSpec.
Context `{PyFormat} `{PyRepr} `{Libm}.

(** The bracket phase: no final scheduled and no survivor named yet. *)
Record se_live (champ : Contestant) (chs : list Contestant) (s : SingleElim) : Prop := {
  sl_champion : gs_champion (se_base s) = Some champ;
  sl_challengers : gs_challengers (se_base s) = chs;
  sl_unscheduled : gs_final_scheduled (se_base s) = false;
  sl_no_result : gs_final_result (se_base s) = None;
  sl_survivor : se_survivor s = None;
  sl_resolver : resolver_ok (se_base s);
  sl_current : Forall (fun c => c ∈ chs) (se_current_round s);
  sl_pending : pending_all (fun c => c ∈ chs) (se_pending s);
  sl_some : chs <> [] -> se_current_round s <> [] \/ se_pending s <> [];
  sl_count : length (gs_audit (se_base s)) + length (se_current_round s)
             + 2 * length (se_pending s) = length chs;
  sl_partition : NoDup (generation_id <$> chs) ->
    (generation_id <$> se_current_round s) ++ dict_keys (se_eliminated_round s)
    ++ pending_ids (se_pending s) ≡ₚ generation_id <$> chs;
}.

(** The final is decided. *)
Record se_done (champ : Contestant) (chs : list Contestant) (s : SingleElim) : Prop := {
  sd_final : final_ok champ chs s;
  sd_decided : is_Some (gs_final_result (se_base s));
  sd_duels : length (gs_audit (se_base s)) = length chs;
  sd_elim : NoDup (generation_id <$> chs) ->
    exists c, c ∈ chs /\ generation_id c :: dict_keys (se_eliminated_round s)
                        ≡ₚ generation_id <$> chs;
}.

Lemma se_flush_live champ chs s : se_live champ chs s -> se_live champ chs (se_flush s).
Proof. intros []. unfold se_flush. destruct (se_round_matches s); by split. Qed.

(** One node's result: the loser leaves the bracket, the winner stays. *)
Lemma se_settle_live champ chs s mid l r rest res scalars :
  se_live champ chs s -> se_pending s = (mid, (l, r)) :: rest -> mr_id res = mid ->
  let s' := se_settle res l r (se_with_base (gs_log res scalars (se_base s)) s) in
  se_live champ chs s' /\ se_pending s' = rest
  /\ length (se_current_round s') = S (length (se_current_round s)).
Proof.
  intros [] Hp Hid. unfold se_settle. destruct (node_sides l r res) as [w x] eqn:En. cbn.
  rewrite Hp, <-Hid in *. cbn. rewrite decide_True by done.
  apply Forall_cons in sl_pending0 as [[Hl Hr] Hrest]. cbn in Hl, Hr.
  destruct (node_sides_elem _ _ _ _ _ (fun c => c ∈ chs) En Hl Hr) as [Hw Hx].
  split_and!; [|done|rewrite length_app; cbn; lia]. split; cbn; try done.
  - apply Forall_app. split; [done|]. by constructor.
  - intros _. left. by destruct (se_current_round s).
  - rewrite !length_app in *. cbn in *. lia.
  - intros Hnd. specialize (sl_partition0 Hnd). rewrite pending_ids_cons in sl_partition0.
    assert (NoDup ((generation_id <$> se_current_round s) ++ dict_keys (se_eliminated_round s)
              ++ generation_id l :: generation_id r :: pending_ids rest)) as Hall
      by by rewrite sl_partition0.
    pose proof (node_sides_perm _ _ _ _ _ En) as Hperm.
    assert (Hsplit : generation_id l :: generation_id r :: pending_ids rest
              ≡ₚ generation_id w :: generation_id x :: pending_ids rest).
    { change (?a :: ?b :: ?t) with ([a; b] ++ t). by rewrite Hperm. }
    rewrite Hsplit in sl_partition0, Hall.
    rewrite dict_keys_set, decide_False.
    + rewrite <-sl_partition0, fmap_app. cbn [fmap list_fmap].
      rewrite <-!app_assoc. apply Permutation_app_head. cbn. by rewrite Permutation_middle, <-Permutation_middle.
    + intros Hc. apply NoDup_app in Hall as (_ & _ & Hall). apply NoDup_app in Hall as (_ & Hd & _).
      apply (Hd _ Hc). set_solver.
Qed.

Lemma se_record_live champ chs s mid l r rest res :
  se_live champ chs s -> se_pending s = (mid, (l, r)) :: rest -> mr_id res = mid ->
  se_live champ chs (se_record res s) /\ se_pending (se_record res s) = rest
  /\ length (se_current_round (se_record res s)) = S (length (se_current_round s)).
Proof.
  intros Hlive Hp Hid. pose proof Hlive as [].
  unfold se_record, _capture_final_result. cbn. rewrite sl_unscheduled0. cbn.
  rewrite Hp. cbn. rewrite decide_True by done.
  set (scalars := dict_set _ _ _).
  destruct (se_settle_live champ chs s mid l r rest res scalars Hlive Hp Hid) as (Hl & Hpend & Hcur).
  set (s' := se_settle _ _ _ _) in *. destruct (se_pending s') eqn:E; [|by rewrite Hpend in E].
  split_and!; [by apply se_flush_live|by rewrite <-Hpend|done].
Qed.

(** A whole batch of node results empties the round. *)
Lemma se_batch champ chs ms rs s :
  se_live champ chs s -> se_pending s = pending_of ms -> Forall2 answers ms rs ->
  exists s', record_results rs s = Ok s' /\ se_live champ chs s' /\ se_pending s' = []
    /\ length (se_current_round s') = length (se_current_round s) + length ms.
Proof.
  intros Hlive Hp Hans.
  apply (batch_settles (se_live champ chs) se_pending
    (fun s => length (se_current_round s)) (fun _ => True)); try done.
  - intros s0 mid l r rest res Hl Hp0 _ Hid _ _. eexists. split; [reflexivity|].
    by eapply se_record_live.
  - by apply Forall_true.
Qed.

(** Scheduling a round moves its contestants into the pending duels. *)
Lemma se_schedule_live champ chs s ms s' :
  se_live champ chs s -> se_pending s = [] -> 2 <= length (se_current_round s) ->
  se_schedule_round s = (ms, s') ->
  se_live champ chs s' /\ se_pending s' = pending_of ms /\ ms <> []
  /\ length (se_current_round s') + length ms < length (se_current_round s).
Proof.
  intros [] Hp Hn. unfold se_schedule_round.
  destruct (pair_round _ _ _ _ _) as [ms' bye] eqn:E. intros [= <- <-].
  pose proof (pair_round_sides _ _ _ _ _ _ _ E) as Hsides.
  pose proof (pair_round_length _ _ _ _ _ _ _ E) as [Hlen Hbye].
  pose proof (pair_round_NoDup _ _ _ _ _ _ _ E) as Hnd.
  pose proof (pair_round_nonempty _ _ _ _ _ _ _ Hn E) as Hne.
  rewrite <-Hsides in sl_current0. apply Forall_app in sl_current0 as [Hcs Hcb]. rewrite Hp in *.
  cbn. rewrite add_pending_nil by done.
  split_and!; [|done|done|destruct ms'; [done|cbn in Hlen |- *; lia]].
  split; cbn; try done.
  - by apply pending_all_of.
  - intros _. right. by destruct ms'.
  - unfold pending_of. rewrite length_fmap. cbn in *. lia.
  - intros Hndc. rewrite <-(sl_partition0 Hndc), <-Hsides, fmap_app, pending_ids_of.
    cbn. rewrite app_nil_r. solve_Permutation.
Qed.

(** The bracket's last step: the survivor, or the resolver's nominee, meets the
    champion. *)
Definition se_final_matchup (champ finalist : Contestant) (s : SingleElim) : Matchup := {|
  mu_id := "final"; mu_left := champ; mu_right := finalist; mu_board_subset := None;
  mu_replicates := gs_replicates (se_base s); mu_stage_index := S (se_stage_index s);
  mu_bracket_slot := "final"; mu_budget_seconds := None |}.

Lemma se_next_final champ chs s :
  se_live champ chs s -> se_pending s = [] -> chs <> [] -> length (se_current_round s) <= 1 ->
  exists c f s', se_current_round s = [c] /\ f ∈ chs
    /\ se_next s = Ok ([se_final_matchup champ f s], s')
    /\ gs_champion (se_base s') = Some champ /\ gs_challengers (se_base s') = chs
    /\ gs_audit (se_base s') = gs_audit (se_base s) /\ gs_final_scheduled (se_base s') = true
    /\ se_survivor s' = Some f /\ se_eliminated_round s' = se_eliminated_round s.
Proof.
  intros [] Hp Hne Hlen. destruct (sl_some0 Hne) as [Hc|?]; [|done].
  destruct (se_current_round s) as [|c [|]] eqn:Ec; [done| |cbn in Hlen; lia].
  apply Forall_cons in sl_current0 as [Hcin _].
  set (b := se_base (se_flush s)).
  assert (Hb : gs_challengers b = chs /\ resolver_ok b /\ gs_champion b = Some champ
               /\ gs_final_scheduled b = false /\ gs_audit b = gs_audit (se_base s)
               /\ gs_replicates b = gs_replicates (se_base s)).
  { unfold b, se_flush. by destruct (se_round_matches s). }
  destruct Hb as (Hchs & Hres & Hch & Hsch & Haud & Hrep).
  destruct (_pick_finalist_ok b c Hres) as (f & Hf & Hfin); [by rewrite Hchs|].
  exists c, f. eexists. split; [done|]. split; [by rewrite <-Hchs|]. split.
  - unfold se_next. rewrite sl_champion0, sl_survivor0, Hp, Ec. cbn [length Nat.leb head].
    unfold se_maybe_final, se_flush in *. cbn [se_round_matches se_base se_survivor se_stage_index].
    cbn [se_base] in b. subst b. rewrite Hsch, Hf. cbn [result_bind]. rewrite Hrep. reflexivity.
  - cbn. unfold b in *. unfold se_flush in *. cbn in *. done.
Qed.

Lemma se_final_done champ chs s c f s' r :
  se_live champ chs s -> se_current_round s = [c] -> se_pending s = [] -> f ∈ chs ->
  gs_champion (se_base s') = Some champ -> gs_challengers (se_base s') = chs ->
  gs_audit (se_base s') = gs_audit (se_base s) -> gs_final_scheduled (se_base s') = true ->
  se_survivor s' = Some f -> se_eliminated_round s' = se_eliminated_round s ->
  answers (se_final_matchup champ f s) r ->
  se_done champ chs (se_record r s').
Proof.
  intros [] Hc Hp Hf Hch Hchs Haud Hsch Hsurv Helim (Hid & Hl & Hr). cbn in Hid, Hl, Hr.
  unfold se_record, _capture_final_result. cbn. rewrite Hsch, Hid. cbn.
  split; cbn.
  - split_and!; [done|done|]. cbn. intros r' [= <-]. split_and!; [set_solver|done|].
    exists f. done.
  - done.
  - rewrite Haud, length_app. rewrite Hc, Hp in sl_count0. cbn in *. lia.
  - intros Hnd. exists c. rewrite Helim. rewrite Hc in *.
    apply Forall_cons in sl_current0 as [? _]. split; [done|].
    specialize (sl_partition0 Hnd). rewrite Hp in sl_partition0. cbn in sl_partition0.
    by rewrite app_nil_r in sl_partition0.
Qed.

Definition se_fresh (s : SingleElim) : Prop :=
  gs_audit (se_base s) = [] /\ gs_final_scheduled (se_base s) = false
  /\ gs_final_result (se_base s) = None /\ resolver_ok (se_base s)
  /\ se_pending s = [] /\ se_eliminated_round s = [] /\ se_survivor s = None.

Lemma single_elim_init_fresh params s : single_elim_init params = Ok s -> se_fresh s.
Proof.
  unfold single_elim_init, gate_init. intros (b & Hb & [= <-])%result_bind_ok.
  apply result_bind_ok in Hb as ([ps reps] & _ & Hb). apply result_bind_ok in Hb as (size & _ & [= <-]).
  split_and!; try done. unfold resolver_ok. cbn. destruct (read_resolver ps) eqn:E; [|done].
  by apply read_resolver_valid in E.
Qed.

Definition se_inv (champ : Contestant) (chs : list Contestant) (s : SingleElim) : Prop :=
  (se_live champ chs s /\ se_pending s = []) \/ se_done champ chs s.

Lemma se_seed_inv champ chs s : se_fresh s -> se_inv champ chs (se_seed champ chs s).
Proof.
  intros (Ha & Hs & Hr & Hres & Hp & He & Hsv). left. split; [|done]. split; cbn; try done.
  - by apply Forall_forall.
  - rewrite Hp. constructor.
  - auto.
  - rewrite Ha, Hp. cbn. lia.
  - intros _. rewrite He, Hp. by rewrite app_nil_r.
Qed.

Lemma se_done_resolved champ chs s : se_done champ chs s -> se_resolved s = true.
Proof.
  intros [(Hc & _) [r Hr] _ _]. unfold se_resolved. cbn in Hc. by rewrite Hc, Hr.
Qed.

Lemma se_unresolved champ chs s :
  se_inv champ chs s -> se_resolved s = false ->
  se_live champ chs s /\ se_pending s = [] /\ chs <> [].
Proof.
  intros [[Hl Hp]|Hd] Hres; [|by rewrite (se_done_resolved _ _ _ Hd) in Hres].
  split_and!; [done|done|]. intros ->. destruct Hl. unfold se_resolved in Hres.
  rewrite sl_champion0, sl_no_result0, sl_challengers0, sl_survivor0 in Hres.
  by destruct (se_current_round s); [|apply Forall_cons in sl_current0 as [? _]; set_solver].
Qed.

(** From an unresolved state the next batch is a round of the bracket or the
    final. *)
Lemma se_next_cases champ chs s :
  se_live champ chs s -> se_pending s = [] -> chs <> [] ->
  (2 <= length (se_current_round s) /\ se_next s = Ok (se_schedule_round s))
  \/ length (se_current_round s) <= 1.
Proof.
  intros [] Hp Hne. destruct (Nat.leb_spec (length (se_current_round s)) 1) as [|Hlt]; [by right|].
  left. split; [lia|]. unfold se_next. rewrite sl_champion0, sl_survivor0, Hp.
  destruct (Nat.leb_spec (length (se_current_round s)) 1); [lia|done].
Qed.

#[export] Instance single_elim_laws : SelectionLaws SingleElim.
Proof.
  refine {|
    fresh := se_fresh;
    fields _ := True;
    inv := se_inv;
    fuel s := match gs_final_result (se_base s) with
              | Some _ => 0
              | None => length (se_current_round s)
              end |}.
  - intros champ chs s Hf _. eexists. split; [reflexivity|]. by apply se_seed_inv.
  - intros champ chs s Hinv Hres.
    destruct (se_unresolved champ chs s Hinv Hres) as (Hl & Hp & Hne).
    destruct (se_next_cases champ chs s Hl Hp Hne) as [[Hn Hnext]|Hn].
    + cbn. rewrite Hnext. destruct (se_schedule_round s) as [ms s'] eqn:E.
      exists ms, s'. split; [done|]. intros ->.
      by destruct (se_schedule_live champ chs s [] s' Hl Hp Hn E) as (_ & _ & ? & _).
    + destruct (se_next_final champ chs s Hl Hp Hne Hn) as (c & f & s' & _ & _ & Hnext & _).
      cbn. rewrite Hnext. by eexists _, _.
  - intros champ chs s ms s' rs Hinv Hres Hnext Hms Hans.
    destruct (se_unresolved champ chs s Hinv Hres) as (Hl & Hp & Hne). cbn in Hnext.
    rewrite (sl_no_result _ _ _ Hl).
    destruct (se_next_cases champ chs s Hl Hp Hne) as [[Hn Hnext']|Hn].
    + rewrite Hnext' in Hnext. destruct (se_schedule_round s) as [ms0 s0] eqn:E.
      injection Hnext as -> ->.
      destruct (se_schedule_live champ chs s ms s' Hl Hp Hn E) as (Hl' & Hp' & _ & Hlt).
      destruct (se_batch champ chs ms rs s' Hl' Hp' Hans) as (s'' & Hs'' & Hl'' & Hp'' & Hlen).
      exists s''. split_and!; [done|by left|]. rewrite (sl_no_result _ _ _ Hl''). lia.
    + destruct (se_next_final champ chs s Hl Hp Hne Hn)
        as (c & f & s0 & Hc & Hf & Hnext' & Hch & Hchs & Haud & Hsch & Hsv & Hel).
      rewrite Hnext' in Hnext. injection Hnext as <- <-.
      apply Forall2_cons_inv_l in Hans as (r & rs' & Hr & Hnil & ->).
      apply Forall2_nil_inv_l in Hnil as ->.
      pose proof (se_final_done champ chs s c f s0 r Hl Hc Hp Hf Hch Hchs Haud Hsch Hsv Hel Hr) as Hd.
      eexists. split; [reflexivity|]. split; [by right|].
      destruct (sd_decided _ _ _ Hd) as [r' ->]. rewrite Hc. cbn. lia.
  - intros champ chs s [[Hl _]|Hd]; apply final_ok_crowned; [|by destruct Hd].
    destruct Hl. split_and!; [done|done|]. intros r. cbn. by rewrite sl_no_result0.
Defined.

(** A driven bracket over a non-empty field stops decided. *)
Lemma se_stopped_done champ chs s : chs <> [] -> stopped champ chs s -> se_done champ chs s.
Proof.
  intros Hne [Hinv Hstop]. destruct Hinv as [[Hl Hp]|?]; [|done]. exfalso.
  destruct Hstop as [Hres|(s0 & Hinv0 & Hres0 & Hnext)].
  - cbn in Hres. destruct Hl. unfold se_resolved in Hres.
    rewrite sl_champion0, sl_no_result0, sl_challengers0 in Hres. by destruct chs.
  - destruct (se_unresolved champ chs s0 Hinv0 Hres0) as (Hl0 & Hp0 & _). cbn in Hnext.
    destruct (se_next_cases champ chs s0 Hl0 Hp0 Hne) as [[Hn Hnext']|Hn].
    + rewrite Hnext' in Hnext. destruct (se_schedule_round s0) as [ms s'] eqn:E.
      destruct (se_schedule_live champ chs s0 ms s' Hl0 Hp0 Hn E) as (_ & _ & ? & _). congruence.
    + destruct (se_next_final champ chs s0 Hl0 Hp0 Hne Hn) as (c & f & s' & _ & _ & Hnext' & _).
      congruence.
Qed.
End SingleElimSpec.

(** A single-elimination tournament over n >= 1 challengers terminates after
    exactly n duels, n - 1 in the bracket and the crowning one; with distinct ids,
    exactly one challenger is never eliminated, every other one is eliminated
    once, and only the gate can promote. *)
Theorem single_elim_tournament `{PyFormat} `{PyRepr} `{Libm}
    request_field run (strategy : SingleElim) champ chs n :
  se_fresh strategy -> request_field (field_size strategy) = Ok (champ, chs) ->
  chs <> [] -> answering run -> length chs < n ->
  exists s, evaluate_tournament request_field run n strategy = Some (Ok (champion s))
    /\ length (sd_matchups (champion s)) = length chs
    /\ crowned_by_gate champ chs (champion s)
    /\ (NoDup (generation_id <$> chs) ->
        exists c, c ∈ chs /\ generation_id c :: dict_keys (se_eliminated_round s)
                            ≡ₚ generation_id <$> chs).
Proof.
  intros Hf Hreq Hne Hrun Hn.
  destruct (@evaluate_tournament_run SingleElim _ single_elim_laws request_field run strategy champ chs n
    Hf Hreq I Hrun) as (s & Hs & Hst).
  { intros s [= <-]. cbn. by destruct Hf as (_ & _ & -> & _). }
  exists s. pose proof (se_stopped_done champ chs s Hne Hst) as [Hfin [r Hr] Hd He].
  split_and!; [done| |by apply final_ok_crowned|done]. rewrite <-Hd.
  cbn. unfold gate_champion. cbn. destruct Hfin as (Hc & _ & Hfr). cbn in *. rewrite Hr, Hc.
  destruct (Hfr r Hr) as (_ & _ & f & -> & _). done.
Qed.

Module SingleElimWitness.
#[local] Existing Instance plain_format.
#[local] Existing Instance plain_repr.
#[local] Existing Instance plain_libm.

Definition strategy : SingleElim :=
  match single_elim_init None with
  | Ok s => s
  | Raise _ => {| se_base := blank_gate; se_current_round := []; se_stage_index := 0; se_pending := [];
                  se_round_matches := []; se_eliminated_round := []; se_survivor := None |}
  end.

Lemma single_elim_strategy_fresh : se_fresh strategy.
Proof. apply (single_elim_init_fresh None). vm_compute. reflexivity. Qed.

(** The best of four challengers is promoted over the champion. *)
Example single_elim_promotes_best :
  exists d, evaluate_tournament request_field4 duel 5 strategy = Some (Ok d)
    /\ sd_promoted_generation_id d = Some "v3"
    /\ mr_id <$> sd_matchups d = ["WB-R0-0"; "WB-R0-1"; "WB-R1-0"; "final"].
Proof. eexists. split; [vm_compute; reflexivity|]. split; reflexivity. Qed.

Lemma single_elim_tournament_witness :
  exists s, evaluate_tournament request_field4 duel 5 strategy
            = Some (Ok (champion s))
    /\ length (sd_matchups (champion s)) = 4.
Proof.
  destruct (single_elim_tournament request_field4 duel strategy incumbent field4 5)
    as (s & Hs & Hlen & _).
  - apply single_elim_strategy_fresh.
  - reflexivity.
  - discriminate.
  - apply duel_answers.
  - vm_compute. lia.
  - exists s. exact (conj Hs Hlen).
Defined.
End SingleElimWitness.
