(* ===== verification/DoubleElim.v ===== *)
(** Double elimination over the challenger field,
    [src/zicato/selection/experimental/double_elim.py]. *)

From S2P Require Import Prelude PyFloat PyJson CoreTypes Gate Params Strategy ChampionGate Bracket.

(** [self._phase]: "wb", "lb" or "gf". *)
Inductive Phase := phase_wb | phase_lb | phase_gf.

Record DoubleElim := {
  de_base : GateState;
  de_eliminated : gset string;
  de_eliminated_round : list (string * nat);
  de_phase : Phase;
  de_stage_index : nat;
  de_round_matches : list MatchRecord;
  de_wb_round : list Contestant;
  de_wb_pending : Pending;
  de_wb_survivor : option Contestant;
  de_wb_losers : list Contestant;
  de_lb_round : list Contestant;
  de_lb_pending : Pending;
  de_lb_survivor : option Contestant;
  de_gf_challenger : option Contestant;
}.

Section DoubleElimination.
Context `{PyFormat} `{PyRepr} `{Libm}.

Definition double_elim_init (params : option Params) : result DoubleElim :=
  try b <- gate_init "double_elim" (gate_parameter_names ++ ["rating"; "resolver"]) 2 true params;
  Ok {| de_base := b; de_eliminated := ∅; de_eliminated_round := []; de_phase := phase_wb;
        de_stage_index := 0; de_round_matches := []; de_wb_round := []; de_wb_pending := [];
        de_wb_survivor := None; de_wb_losers := []; de_lb_round := []; de_lb_pending := [];
        de_lb_survivor := None; de_gf_challenger := None |}.

Definition de_with_base (b : GateState) (s : DoubleElim) : DoubleElim := {|
  de_base := b; de_eliminated := de_eliminated s; de_eliminated_round := de_eliminated_round s;
  de_phase := de_phase s; de_stage_index := de_stage_index s;
  de_round_matches := de_round_matches s; de_wb_round := de_wb_round s;
  de_wb_pending := de_wb_pending s; de_wb_survivor := de_wb_survivor s;
  de_wb_losers := de_wb_losers s; de_lb_round := de_lb_round s; de_lb_pending := de_lb_pending s;
  de_lb_survivor := de_lb_survivor s; de_gf_challenger := de_gf_challenger s |}.

Definition de_seed (champ : Contestant) (chs : list Contestant) (s : DoubleElim) : DoubleElim :=
  let b := gs_seed champ chs (de_base s) in
  let scalars := foldl (fun d c => dict_setdefault d (generation_id c) f0) (gs_scalars b) chs in
  let losses := foldl (fun d c => dict_setdefault d (generation_id c) 0%Z) (gs_losses b) chs in
  let b := gs_tally (gs_wins b) losses (gs_set_scalars scalars b) in
  {| de_base := b; de_eliminated := de_eliminated s; de_eliminated_round := de_eliminated_round s;
     de_phase := de_phase s; de_stage_index := de_stage_index s;
     de_round_matches := de_round_matches s; de_wb_round := chs;
     de_wb_pending := de_wb_pending s; de_wb_survivor := de_wb_survivor s;
     de_wb_losers := de_wb_losers s; de_lb_round := de_lb_round s;
     de_lb_pending := de_lb_pending s; de_lb_survivor := de_lb_survivor s;
     de_gf_challenger := de_gf_challenger s |}.

(** [_flush_round]: the base state and the next stage. *)
Definition de_flush (label : string) (s : DoubleElim) : DoubleElim :=
  let b := match de_round_matches s with
           | [] => de_base s
           | matches =>
               gs_add_record {| rr_stage_index := de_stage_index s; rr_label := label;
                                rr_matches := matches |} (de_base s)
           end in
  {| de_base := b; de_eliminated := de_eliminated s; de_eliminated_round := de_eliminated_round s;
     de_phase := de_phase s; de_stage_index := S (de_stage_index s); de_round_matches := [];
     de_wb_round := de_wb_round s; de_wb_pending := de_wb_pending s;
     de_wb_survivor := de_wb_survivor s; de_wb_losers := de_wb_losers s;
     de_lb_round := de_lb_round s; de_lb_pending := de_lb_pending s;
     de_lb_survivor := de_lb_survivor s; de_gf_challenger := de_gf_challenger s |}.

Definition de_pick_challenger (s : DoubleElim) (wb_survivor : Contestant) : Contestant :=
  match de_lb_survivor s with
  | None => wb_survivor
  | Some lb_survivor =>
      let scalar c := dict_get_or (gs_scalars (de_base s)) (generation_id c) finf in
      if flt (scalar lb_survivor) (scalar wb_survivor) then lb_survivor else wb_survivor
  end.

Definition de_gf_step (champ : Contestant) (s : DoubleElim) : result (list Matchup * DoubleElim) :=
  match gs_final_scheduled (de_base s), de_wb_survivor s with
  | false, Some wb_survivor =>
      try challenger <- _pick_finalist (de_base s) (de_pick_challenger s wb_survivor);
      Ok ([{| mu_id := "GF"; mu_left := champ; mu_right := challenger; mu_board_subset := None;
              mu_replicates := gs_replicates (de_base s); mu_stage_index := de_stage_index s;
              mu_bracket_slot := "GF"; mu_budget_seconds := None |}],
          {| de_base := gs_schedule_final (de_base s); de_eliminated := de_eliminated s;
             de_eliminated_round := de_eliminated_round s; de_phase := de_phase s;
             de_stage_index := de_stage_index s; de_round_matches := de_round_matches s;
             de_wb_round := de_wb_round s; de_wb_pending := de_wb_pending s;
             de_wb_survivor := de_wb_survivor s; de_wb_losers := de_wb_losers s;
             de_lb_round := de_lb_round s; de_lb_pending := de_lb_pending s;
             de_lb_survivor := de_lb_survivor s; de_gf_challenger := Some challenger |})
  | _, _ => Ok ([], s)
  end.

(** [self._pair_round(self._lb_round, self._lb_pending, "LB")] *)
Definition de_pair_lb (s : DoubleElim) : list Matchup * DoubleElim :=
  let '(ms, bye) := pair_round "LB" (de_stage_index s) (gs_replicates (de_base s)) 0 (de_lb_round s) in
  (ms,
   {| de_base := de_base s; de_eliminated := de_eliminated s;
      de_eliminated_round := de_eliminated_round s; de_phase := de_phase s;
      de_stage_index := de_stage_index s;
      de_round_matches := de_round_matches s ++ bye_records "LB" (de_stage_index s) bye;
      de_wb_round := de_wb_round s; de_wb_pending := de_wb_pending s;
      de_wb_survivor := de_wb_survivor s; de_wb_losers := de_wb_losers s;
      de_lb_round := bye_contestants bye; de_lb_pending := add_pending (de_lb_pending s) ms;
      de_lb_survivor := de_lb_survivor s; de_gf_challenger := de_gf_challenger s |}).

Definition de_pair_wb (s : DoubleElim) : list Matchup * DoubleElim :=
  let '(ms, bye) := pair_round "WB" (de_stage_index s) (gs_replicates (de_base s)) 0 (de_wb_round s) in
  (ms,
   {| de_base := de_base s; de_eliminated := de_eliminated s;
      de_eliminated_round := de_eliminated_round s; de_phase := de_phase s;
      de_stage_index := de_stage_index s;
      de_round_matches := de_round_matches s ++ bye_records "WB" (de_stage_index s) bye;
      de_wb_round := bye_contestants bye; de_wb_pending := add_pending (de_wb_pending s) ms;
      de_wb_survivor := de_wb_survivor s; de_wb_losers := de_wb_losers s;
      de_lb_round := de_lb_round s; de_lb_pending := de_lb_pending s;
      de_lb_survivor := de_lb_survivor s; de_gf_challenger := de_gf_challenger s |}).

(** The losers' bracket ends: its survivor is named and the final follows. *)
Definition de_close_lb (s : DoubleElim) : DoubleElim :=
  let s := de_flush "Losers' bracket"
    {| de_base := de_base s; de_eliminated := de_eliminated s;
       de_eliminated_round := de_eliminated_round s; de_phase := de_phase s;
       de_stage_index := de_stage_index s; de_round_matches := de_round_matches s;
       de_wb_round := de_wb_round s; de_wb_pending := de_wb_pending s;
       de_wb_survivor := de_wb_survivor s; de_wb_losers := de_wb_losers s;
       de_lb_round := de_lb_round s; de_lb_pending := de_lb_pending s;
       de_lb_survivor := head (de_lb_round s); de_gf_challenger := de_gf_challenger s |} in
  {| de_base := de_base s; de_eliminated := de_eliminated s;
     de_eliminated_round := de_eliminated_round s; de_phase := phase_gf;
     de_stage_index := de_stage_index s; de_round_matches := de_round_matches s;
     de_wb_round := de_wb_round s; de_wb_pending := de_wb_pending s;
     de_wb_survivor := de_wb_survivor s; de_wb_losers := de_wb_losers s;
     de_lb_round := de_lb_round s; de_lb_pending := de_lb_pending s;
     de_lb_survivor := de_lb_survivor s; de_gf_challenger := de_gf_challenger s |}.

Definition de_lb_step (champ : Contestant) (s : DoubleElim) : result (list Matchup * DoubleElim) :=
  match de_lb_pending s with
  | _ :: _ => Ok ([], s)
  | [] =>
      if length (de_lb_round s) <=? 1 then de_gf_step champ (de_close_lb s)
      else Ok (de_pair_lb s)
  end.

(** The winners' bracket ends: the losers' bracket is seeded with its losers. *)
Definition de_close_wb (s : DoubleElim) : DoubleElim :=
  let s := de_flush "Winners' bracket"
    {| de_base := de_base s; de_eliminated := de_eliminated s;
       de_eliminated_round := de_eliminated_round s; de_phase := de_phase s;
       de_stage_index := de_stage_index s; de_round_matches := de_round_matches s;
       de_wb_round := de_wb_round s; de_wb_pending := de_wb_pending s;
       de_wb_survivor := head (de_wb_round s); de_wb_losers := de_wb_losers s;
       de_lb_round := de_lb_round s; de_lb_pending := de_lb_pending s;
       de_lb_survivor := de_lb_survivor s; de_gf_challenger := de_gf_challenger s |} in
  {| de_base := de_base s; de_eliminated := de_eliminated s;
     de_eliminated_round := de_eliminated_round s; de_phase := phase_lb;
     de_stage_index := de_stage_index s; de_round_matches := de_round_matches s;
     de_wb_round := de_wb_round s; de_wb_pending := de_wb_pending s;
     de_wb_survivor := de_wb_survivor s; de_wb_losers := de_wb_losers s;
     de_lb_round := de_wb_losers s; de_lb_pending := de_lb_pending s;
     de_lb_survivor := de_lb_survivor s; de_gf_challenger := de_gf_challenger s |}.

Definition de_wb_step (champ : Contestant) (s : DoubleElim) : result (list Matchup * DoubleElim) :=
  match de_wb_pending s with
  | _ :: _ => Ok ([], s)
  | [] =>
      if length (de_wb_round s) <=? 1 then de_lb_step champ (de_close_wb s)
      else Ok (de_pair_wb s)
  end.

Definition de_next (s : DoubleElim) : result (list Matchup * DoubleElim) :=
  match gs_champion (de_base s) with
  | None => Ok ([], s)
  | Some champ =>
      match de_phase s with
      | phase_wb => de_wb_step champ s
      | phase_lb => de_lb_step champ s
      | phase_gf => de_gf_step champ s
      end
  end.

(** [record_result] of a node's duel, once its pair is popped from the winners'
    ([wb]) or the losers' bracket. *)
Definition de_settle (wb : bool) (res : MatchupResult) (l r : Contestant) (s : DoubleElim)
    : DoubleElim :=
  let winner_id := lower_scalar_id res in
  let '(winner, loser) := node_sides l r res in
  let b := gs_tally (dict_incr (gs_wins (de_base s)) winner_id)
             (dict_incr (gs_losses (de_base s)) (generation_id loser)) (de_base s) in
  let matches :=
    de_round_matches s
    ++ [settled_record (mr_id res) [generation_id l; generation_id r] winner_id
          (mr_outcome res) (mr_bracket_slot res) None] in
  if wb then
    {| de_base := b; de_eliminated := de_eliminated s;
       de_eliminated_round := de_eliminated_round s; de_phase := de_phase s;
       de_stage_index := de_stage_index s; de_round_matches := matches;
       de_wb_round := de_wb_round s ++ [winner];
       de_wb_pending := dict_del (de_wb_pending s) (mr_id res);
       de_wb_survivor := de_wb_survivor s; de_wb_losers := de_wb_losers s ++ [loser];
       de_lb_round := de_lb_round s; de_lb_pending := de_lb_pending s;
       de_lb_survivor := de_lb_survivor s; de_gf_challenger := de_gf_challenger s |}
  else
    {| de_base := b; de_eliminated := {[generation_id loser]} ∪ de_eliminated s;
       de_eliminated_round :=
         dict_set (de_eliminated_round s) (generation_id loser) (de_stage_index s);
       de_phase := de_phase s; de_stage_index := de_stage_index s; de_round_matches := matches;
       de_wb_round := de_wb_round s; de_wb_pending := de_wb_pending s;
       de_wb_survivor := de_wb_survivor s; de_wb_losers := de_wb_losers s;
       de_lb_round := de_lb_round s ++ [winner];
       de_lb_pending := dict_del (de_lb_pending s) (mr_id res);
       de_lb_survivor := de_lb_survivor s; de_gf_challenger := de_gf_challenger s |}.

Definition de_record (res : MatchupResult) (s : DoubleElim) : DoubleElim :=
  let scalars :=
    dict_set (dict_set (gs_scalars (de_base s)) (mr_left_id res) (left_scalar res))
             (mr_right_id res) (right_scalar res) in
  let s := de_with_base (gs_log res scalars (de_base s)) s in
  match _capture_final_result "GF" res (de_base s) with
  | Some b => de_with_base b s
  | None =>
      let wb := str_startswith "WB-" (mr_id res) in
      match dict_get (if wb then de_wb_pending s else de_lb_pending s) (mr_id res) with
      | None => s
      | Some (l, r) => de_settle wb res l r s
      end
  end.

Definition de_resolved (s : DoubleElim) : bool :=
  match gs_champion (de_base s), gs_final_result (de_base s), gs_challengers (de_base s) with
  | None, _, _ | _, Some _, _ | _, _, [] => true
  | _, _, _ => false
  end.

Definition de_no_grand_final_detail (s : DoubleElim) : string :=
  match gs_champion (de_base s), de_gf_challenger s with
  | None, _ => "no champion was seeded"
  | _, None =>
      "the bracket nominated no grand finalist from "
      +:+ pretty (length (gs_challengers (de_base s)))
      +:+ " challenger(s) over " +:+ pretty (length (gs_audit (de_base s))) +:+ " duel(s)"
  | Some champ, Some challenger =>
      let measured :=
        match dict_get (gs_scalars (de_base s)) (generation_id champ),
              dict_get (gs_scalars (de_base s)) (generation_id challenger) with
        | Some c, Some f =>
            " (champion " +:+ fmt_fixed 6 c +:+ " vs grand finalist " +:+ fmt_fixed 6 f +:+ ")"
        | _, _ => ""
        end in
      "the grand final against " +:+ generation_id challenger +:+ " reported no result" +:+ measured
  end.

Definition de_pending_stage_round (s : DoubleElim) : result (option RoundRecord) :=
  let show label (pending : Pending) :=
    Ok (Some {| rr_stage_index := de_stage_index s; rr_label := label;
                rr_matches :=
                  de_round_matches s
                  ++ ((fun '(mid, (l, r)) =>
                         pending_match_record mid [generation_id l; generation_id r] mid None None)
                      <$> pending) |}) in
  match de_wb_pending s, de_lb_pending s with
  | [], [] => Ok None
  | [], pending => show "Losers' bracket" pending
  | pending, _ => show "Winners' bracket" pending
  end.

Definition de_is_eliminated (s : DoubleElim) (gid : string) : bool :=
  bool_decide (gid ∈ de_eliminated s).

#[export] Instance double_elim_gate : ChampionGate DoubleElim := {|
  base := de_base;
  _final_match_id := "GF";
  _final_label := "Grand final";
  _final_bracket_slot := "GF";
  _final_board_fraction := None;
  _finalist := de_gf_challenger;
  _final_stage_index := de_stage_index;
  _no_promotion_reason s :=
    "no grand finalist cleared the champion gate: " +:+ de_no_grand_final_detail s;
  _pending_stage_round := de_pending_stage_round;
  _standings s := gate_standings (de_base s) (de_is_eliminated s);
|}.

#[export] Instance double_elim_strategy : SelectionStrategy DoubleElim := {|
  field_size s := gs_field_size (de_base s);
  replicates s := gs_replicates (de_base s);
  seed champ chs s := Ok (de_seed champ chs s);
  next_matchups := de_next;
  record_result r s := Ok (de_record r s);
  resolved := de_resolved;
  champion := gate_champion;
  rounds := gate_rounds;
  _pending_round := gate_pending_round;
  _live_standings s := _standings s None;
|}.
End DoubleElimination.
