(* ===== verification/DoubleElimSpec.v ===== *)
(** Double elimination gives every challenger a second life: while the winners'
    bracket runs nobody is eliminated and a challenger has lost at most once;
    afterwards a challenger is eliminated exactly when it has lost twice. *)

From S2P Require Import Prelude PyFloat PyJson CoreTypes Gate Params Strategy ChampionGate Bracket.
From S2P Require Import Driver Bracket DoubleElim.

Section DoubleElimSpec.
Context `{PyFormat} `{PyRepr} `{Libm}.

Definition losses_of (s : DoubleElim) (gid : string) : Z := dict_get_or (gs_losses (de_base s)) gid 0%Z.

(** Both bracket phases. *)
Record de_common (champ : Contestant) (chs : list Contestant) (s : DoubleElim) : Prop := {
  dc_champion : gs_champion (de_base s) = Some champ;
  dc_challengers : gs_challengers (de_base s) = chs;
  dc_unscheduled : gs_final_scheduled (de_base s) = false;
  dc_no_result : gs_final_result (de_base s) = None;
  dc_resolver : resolver_ok (de_base s);
  dc_losers : Forall (fun c => c ∈ chs) (de_wb_losers s);
}.

Record de_wb_live (champ : Contestant) (chs : list Contestant) (s : DoubleElim) : Prop := {
  dw_common : de_common champ chs s;
  dw_phase : de_phase s = phase_wb;
  dw_lb : de_lb_pending s = [];
  dw_eliminated : de_eliminated_round s = [];
  dw_eliminated_set : de_eliminated s = ∅;
  dw_round : Forall (fun c => c ∈ chs) (de_wb_round s);
  dw_pending : pending_all (fun c => c ∈ chs) (de_wb_pending s);
  dw_some : chs <> [] -> de_wb_round s <> [] \/ de_wb_pending s <> [];
  dw_losers_count : length (de_wb_losers s) = length (gs_audit (de_base s));
  dw_count : length (gs_audit (de_base s)) + length (de_wb_round s)
             + 2 * length (de_wb_pending s) = length chs;
  dw_partition : NoDup (generation_id <$> chs) ->
    (generation_id <$> de_wb_round s) ++ (generation_id <$> de_wb_losers s)
    ++ pending_ids (de_wb_pending s) ≡ₚ generation_id <$> chs;
  dw_losses : NoDup (generation_id <$> chs) -> forall g,
    losses_of s g = if bool_decide (g ∈ (generation_id <$> de_wb_losers s)) then 1%Z else 0%Z;
}.

Record de_lb_live (champ : Contestant) (chs : list Contestant) (s : DoubleElim) : Prop := {
  dl_common : de_common champ chs s;
  dl_phase : de_phase s = phase_lb;
  dl_wb : de_wb_pending s = [];
  dl_survivor : exists w, de_wb_survivor s = Some w /\ w ∈ chs
    /\ (NoDup (generation_id <$> chs) ->
        generation_id w :: (generation_id <$> de_lb_round s) ++ dict_keys (de_eliminated_round s)
        ++ pending_ids (de_lb_pending s) ≡ₚ generation_id <$> chs);
  dl_round : Forall (fun c => c ∈ chs) (de_lb_round s);
  dl_pending : pending_all (fun c => c ∈ chs) (de_lb_pending s);
  dl_some : 2 <= length chs -> de_lb_round s <> [] \/ de_lb_pending s <> [];
  dl_count : length (gs_audit (de_base s)) + length (de_lb_round s)
             + 2 * length (de_lb_pending s) + 2 = 2 * length chs;
  dl_eliminated : forall g, g ∈ de_eliminated s <-> g ∈ dict_keys (de_eliminated_round s);
  dl_losses : NoDup (generation_id <$> chs) -> forall g,
    losses_of s g = if bool_decide (g ∈ dict_keys (de_eliminated_round s)) then 2%Z
                    else if bool_decide (g ∈ ((generation_id <$> de_lb_round s)
                                              ++ pending_ids (de_lb_pending s))) then 1%Z else 0%Z;
}.

(** The grand final is decided. *)
Record de_done (champ : Contestant) (chs : list Contestant) (s : DoubleElim) : Prop := {
  dd_final : final_ok champ chs s;
  dd_decided : is_Some (gs_final_result (de_base s));
  dd_duels : length (gs_audit (de_base s)) = Nat.max 1 (2 * length chs - 2);
  dd_losses : NoDup (generation_id <$> chs) -> forall g,
    (g ∈ de_eliminated s <-> losses_of s g = 2%Z) /\ (0 <= losses_of s g <= 2)%Z;
  dd_eliminated : NoDup (generation_id <$> chs) ->
    size (de_eliminated s) = length chs - 2;
}.

Definition wb_id (mid : string) : Prop := str_startswith "WB-" mid = true.
Definition lb_id (mid : string) : Prop := str_startswith "WB-" mid = false.

Lemma wb_id_bracket stage slot : wb_id (bracket_id "WB" stage slot).
Proof. reflexivity. Qed.

Lemma lb_id_bracket stage slot : lb_id (bracket_id "LB" stage slot).
Proof. reflexivity. Qed.

Lemma de_wb_settles champ chs :
  settles (S := DoubleElim) (de_wb_live champ chs) de_wb_pending
    (fun s => length (de_wb_round s)) wb_id.
Proof.
  intros s mid l r rest res [Hc ? ? ? ? ? Hpend ? Hlc ? Hpart Hloss] Hp Hwb Hid _ _.
  destruct Hc. eexists. split; [reflexivity|].
  unfold de_record, _capture_final_result. cbn. rewrite dc_unscheduled0. cbn.
  rewrite Hid, Hwb, Hp in *. cbn [dict_get]. rewrite decide_True by done.
  unfold de_settle. destruct (node_sides l r res) as [w x] eqn:En. cbn. rewrite Hp, Hid. cbn.
  rewrite decide_True by done. apply Forall_cons in Hpend as [[Hl Hr] Hrest]. cbn in Hl, Hr.
  destruct (node_sides_elem _ _ _ _ _ (fun c => c ∈ chs) En Hl Hr) as [Hw Hx].
  split_and!; [|done|rewrite length_app; cbn; lia].
  assert (Hsplit : forall t, generation_id l :: generation_id r :: t
              ≡ₚ generation_id w :: generation_id x :: t).
  { intros t. change (?a :: ?b :: t) with ([a; b] ++ t). by rewrite (node_sides_perm _ _ _ _ _ En). }
  split; cbn; try done.
  - split; cbn; try done. apply Forall_app. split; [done|]. by constructor.
  - apply Forall_app. split; [done|]. by constructor.
  - intros _. left. by destruct (de_wb_round s).
  - rewrite !length_app. cbn. lia.
  - rewrite !length_app in *. cbn in *. lia.
  - intros Hnd. rewrite <-(Hpart Hnd), !fmap_app, pending_ids_cons, Hsplit. cbn. solve_Permutation.
  - intros Hnd g. unfold losses_of in *. cbn. rewrite dict_incr_get, (Hloss Hnd g).
    specialize (Hpart Hnd). rewrite pending_ids_cons, Hsplit in Hpart.
    assert (NoDup ((generation_id <$> de_wb_round s) ++ (generation_id <$> de_wb_losers s)
      ++ generation_id w :: generation_id x :: pending_ids rest)) as Hall by by rewrite Hpart.
    apply NoDup_app in Hall as (_ & _ & Hall). apply NoDup_app in Hall as (_ & Hd & _).
    rewrite fmap_app. destruct (decide (g = generation_id x)) as [->|Hne].
    + rewrite (bool_decide_eq_true_2 (generation_id x = generation_id x)) by done.
      rewrite (bool_decide_eq_false_2 (generation_id x ∈ (generation_id <$> de_wb_losers s))).
      2: { intros Hin. apply (Hd _ Hin). set_solver. }
      by rewrite bool_decide_eq_true_2 by set_solver.
    + rewrite (bool_decide_eq_false_2 (g = generation_id x)) by done. rewrite Z.add_0_r.
      by rewrite (bool_decide_ext (g ∈ (generation_id <$> de_wb_losers s) ++ _)
                    (g ∈ (generation_id <$> de_wb_losers s))) by set_solver.
Qed.

Lemma de_lb_settles champ chs :
  settles (S := DoubleElim) (de_lb_live champ chs) de_lb_pending
    (fun s => length (de_lb_round s)) lb_id.
Proof.
  intros s mid l r rest res [Hc ? ? (sv & Hsv & Hsvc & Hpart) ? Hpend ? ? Hel Hloss] Hp Hlb Hid _ _.
  destruct Hc. eexists. split; [reflexivity|].
  unfold de_record, _capture_final_result. cbn. rewrite dc_unscheduled0. cbn.
  rewrite Hid, Hlb, Hp in *. cbn [dict_get]. rewrite decide_True by done.
  unfold de_settle. destruct (node_sides l r res) as [w x] eqn:En. cbn. rewrite Hp, Hid. cbn.
  rewrite decide_True by done. apply Forall_cons in Hpend as [[Hl Hr] Hrest]. cbn in Hl, Hr.
  destruct (node_sides_elem _ _ _ _ _ (fun c => c ∈ chs) En Hl Hr) as [Hw Hx].
  split_and!; [|done|rewrite length_app; cbn; lia].
  assert (Hsplit : forall t, generation_id l :: generation_id r :: t
              ≡ₚ generation_id w :: generation_id x :: t).
  { intros t. change (?a :: ?b :: t) with ([a; b] ++ t). by rewrite (node_sides_perm _ _ _ _ _ En). }
  assert (Hfresh : NoDup (generation_id <$> chs) ->
            generation_id x ∉ dict_keys (de_eliminated_round s)
            /\ generation_id x ∉ ((generation_id <$> de_lb_round s) ++ generation_id w :: pending_ids rest)).
  { intros Hnd. specialize (Hpart Hnd). rewrite pending_ids_cons, Hsplit in Hpart.
    rewrite <-Hpart in Hnd. apply NoDup_cons in Hnd as [_ Hnd].
    apply NoDup_app in Hnd as (_ & HA & Hnd). apply NoDup_app in Hnd as (_ & HB & Hnd).
    apply NoDup_cons in Hnd as [Hw' Hnd]. apply NoDup_cons in Hnd as [Hx' _].
    split; [intros Hin; apply (HB _ Hin); set_solver|].
    intros [Hin|[Heq|Hin]%elem_of_cons]%elem_of_app; [apply (HA _ Hin); set_solver| |done].
    apply Hw'. rewrite Heq. set_solver. }
  split; cbn; try done.
  - exists sv. split_and!; [done|done|]. intros Hnd. rewrite dict_keys_set, decide_False by by apply Hfresh.
    rewrite <-(Hpart Hnd), fmap_app, pending_ids_cons, Hsplit. cbn. solve_Permutation.
  - apply Forall_app. split; [done|]. by constructor.
  - intros _. left. by destruct (de_lb_round s).
  - rewrite !length_app in *. cbn in *. lia.
  - intros g. rewrite dict_keys_set, elem_of_union, elem_of_singleton, Hel. case_decide; set_solver.
  - intros Hnd g. unfold losses_of in *. cbn. rewrite dict_incr_get, (Hloss Hnd g).
    destruct (Hfresh Hnd) as [Hx1 Hx2]. rewrite dict_keys_set, decide_False by done.
    rewrite fmap_app, pending_ids_cons. destruct (decide (g = generation_id x)) as [->|Hne].
    + rewrite (bool_decide_eq_false_2 (generation_id x ∈ dict_keys _)) by done.
      rewrite (bool_decide_eq_true_2 (generation_id x ∈ dict_keys _ ++ _)) by set_solver.
      rewrite (bool_decide_eq_true_2 (generation_id x = generation_id x)) by done.
      rewrite bool_decide_eq_true_2; [done|]. rewrite elem_of_app, Hsplit. set_solver.
    + rewrite (bool_decide_eq_false_2 (g = generation_id x)), Z.add_0_r by done.
      rewrite (bool_decide_ext (g ∈ dict_keys _ ++ _) (g ∈ dict_keys (de_eliminated_round s)))
        by set_solver.
      rewrite (bool_decide_ext (g ∈ (generation_id <$> de_lb_round s) ++ _ :: _ :: _)
                 (g ∈ (((generation_id <$> de_lb_round s) ++ [generation_id w]) ++ pending_ids rest)));
        [done|]. rewrite elem_of_app, Hsplit. set_solver.
Qed.

(** ** Scheduling *)

Lemma de_pair_wb_live champ chs s ms s' :
  de_wb_live champ chs s -> de_wb_pending s = [] -> 2 <= length (de_wb_round s) ->
  de_pair_wb s = (ms, s') ->
  de_wb_live champ chs s' /\ de_wb_pending s' = pending_of ms /\ ms <> []
  /\ Forall (fun m => wb_id (mu_id m)) ms
  /\ length (de_wb_round s') + length ms < length (de_wb_round s).
Proof.
  intros [] Hp Hn. unfold de_pair_wb.
  destruct (pair_round _ _ _ _ _) as [ms' bye] eqn:E. intros [= <- <-].
  pose proof (pair_round_sides _ _ _ _ _ _ _ E) as Hsides.
  pose proof (pair_round_length _ _ _ _ _ _ _ E) as [Hlen Hbye].
  pose proof (pair_round_NoDup _ _ _ _ _ _ _ E) as Hnd.
  pose proof (pair_round_nonempty _ _ _ _ _ _ _ Hn E) as Hne.
  rewrite <-Hsides in dw_round0. apply Forall_app in dw_round0 as [Hcs Hcb]. rewrite Hp in *.
  cbn. rewrite add_pending_nil by done.
  split_and!; [|done|done| |destruct ms'; [done|cbn in Hlen |- *; lia]].
  2: { apply Forall_forall. intros m Hm.
       destruct (pair_round_ids _ _ _ _ _ _ _ _ E Hm) as (k & _ & ->). apply wb_id_bracket. }
  split; cbn; try done.
  - destruct dw_common0. by split.
  - by apply pending_all_of.
  - intros _. right. by destruct ms'.
  - unfold pending_of. rewrite length_fmap. cbn in *. lia.
  - intros Hndc. rewrite <-(dw_partition0 Hndc), <-Hsides, fmap_app, pending_ids_of.
    cbn. rewrite app_nil_r. solve_Permutation.
Qed.

Lemma de_pair_lb_live champ chs s ms s' :
  de_lb_live champ chs s -> de_lb_pending s = [] -> 2 <= length (de_lb_round s) ->
  de_pair_lb s = (ms, s') ->
  de_lb_live champ chs s' /\ de_lb_pending s' = pending_of ms /\ ms <> []
  /\ Forall (fun m => lb_id (mu_id m)) ms
  /\ length (de_lb_round s') + length ms < length (de_lb_round s).
Proof.
  intros [Hc ? ? (sv & Hsv & Hsvc & Hpart) ? Hpend ? ? Hel Hloss] Hp Hn. unfold de_pair_lb.
  destruct (pair_round _ _ _ _ _) as [ms' bye] eqn:E. intros [= <- <-].
  pose proof (pair_round_sides _ _ _ _ _ _ _ E) as Hsides.
  pose proof (pair_round_length _ _ _ _ _ _ _ E) as [Hlen Hbye].
  pose proof (pair_round_NoDup _ _ _ _ _ _ _ E) as Hnd.
  pose proof (pair_round_nonempty _ _ _ _ _ _ _ Hn E) as Hne.
  rewrite <-Hsides in dl_round0. apply Forall_app in dl_round0 as [Hcs Hcb]. rewrite Hp in *.
  cbn. rewrite add_pending_nil by done.
  split_and!; [|done|done| |destruct ms'; [done|cbn in Hlen |- *; lia]].
  2: { apply Forall_forall. intros m Hm.
       destruct (pair_round_ids _ _ _ _ _ _ _ _ E Hm) as (k & _ & ->). apply lb_id_bracket. }
  split; cbn; try done.
  - destruct Hc. by split.
  - exists sv. split_and!; [done|done|]. intros Hndc.
    rewrite <-(Hpart Hndc), <-Hsides, fmap_app, pending_ids_of. cbn. rewrite app_nil_r. solve_Permutation.
  - by apply pending_all_of.
  - intros _. right. by destruct ms'.
  - unfold pending_of. rewrite length_fmap. cbn in *. lia.
  - intros Hndc g. unfold losses_of in *. cbn. rewrite (Hloss Hndc g), pending_ids_of.
    rewrite <-Hsides, fmap_app. cbn. rewrite app_nil_r.
    by rewrite (bool_decide_ext (g ∈ (generation_id <$> sides ms') ++ _)
                  (g ∈ ((generation_id <$> bye_contestants bye) ++ (generation_id <$> sides ms'))))
      by set_solver.
Qed.

(** Closing the winners' bracket gives every loser its second life. *)
Lemma de_close_wb_live champ chs s :
  de_wb_live champ chs s -> de_wb_pending s = [] -> chs <> [] -> length (de_wb_round s) <= 1 ->
  de_lb_live champ chs (de_close_wb s) /\ de_lb_pending (de_close_wb s) = []
  /\ length (de_lb_round (de_close_wb s)) < length chs.
Proof.
  intros [Hc ? ? He Hes Hround Hpend Hsome Hlc Hcount Hpart Hloss] Hp Hne Hlen.
  destruct (Hsome Hne) as [Hr|?]; [|done].
  destruct (de_wb_round s) as [|w [|]] eqn:Ew; [done| |cbn in Hlen; lia].
  apply Forall_cons in Hround as [Hw _]. rewrite Hp in Hcount, Hpart. cbn in Hcount.
  assert (Haud : gs_audit (de_base (de_close_wb s)) = gs_audit (de_base s)
                 /\ gs_losses (de_base (de_close_wb s)) = gs_losses (de_base s)).
  { unfold de_close_wb, de_flush. cbn. by destruct (de_round_matches s). }
  destruct Haud as [Haud Hls].
  split_and!; [|done|cbn; lia]. split; cbn [de_close_wb de_flush de_phase de_wb_pending
    de_wb_survivor de_lb_round de_eliminated_round de_lb_pending de_eliminated de_wb_round]; try done.
  - destruct Hc. unfold de_close_wb, de_flush. by destruct (de_round_matches s); split.
  - exists w. rewrite Ew, He, dw_lb0. split_and!; [done|done|]. intros Hnd.
    rewrite <-(Hpart Hnd). cbn. solve_Permutation.
  - by destruct Hc.
  - rewrite dw_lb0. constructor.
  - intros Hn. left. intros Hnil. cbn in Hnil. rewrite Hnil in Hlc. cbn in Hlc. lia.
  - rewrite Haud, dw_lb0. cbn. lia.
  - rewrite He, Hes. cbn. set_solver.
  - intros Hnd g. unfold losses_of in *. rewrite Hls, (Hloss Hnd g), He, dw_lb0. cbn.
    by rewrite app_nil_r.
Qed.

Definition de_final_matchup (champ f : Contestant) (s : DoubleElim) : Matchup := {|
  mu_id := "GF"; mu_left := champ; mu_right := f; mu_board_subset := None;
  mu_replicates := gs_replicates (de_base s); mu_stage_index := S (de_stage_index s);
  mu_bracket_slot := "GF"; mu_budget_seconds := None |}.

(** What scheduling the grand final leaves of the losers' bracket. *)
Record de_finalising (champ : Contestant) (chs : list Contestant) (f : Contestant) (s s' : DoubleElim)
    : Prop := {
  df_champion : gs_champion (de_base s') = Some champ;
  df_challengers : gs_challengers (de_base s') = chs;
  df_scheduled : gs_final_scheduled (de_base s') = true;
  df_audit : gs_audit (de_base s') = gs_audit (de_base s);
  df_losses : gs_losses (de_base s') = gs_losses (de_base s);
  df_finalist : de_gf_challenger s' = Some f /\ f ∈ chs;
  df_eliminated : de_eliminated s' = de_eliminated s;
}.

Lemma de_lb_final champ chs s :
  de_lb_live champ chs s -> de_lb_pending s = [] -> length (de_lb_round s) <= 1 ->
  exists f s', de_lb_step champ s = Ok ([de_final_matchup champ f s], s')
    /\ de_finalising champ chs f s s'.
Proof.
  intros [Hc ? ? (sv & Hsv & Hsvc & _) Hround ? ? ? ? ?] Hp Hlen.
  set (s1 := de_close_lb s).
  assert (Hb : gs_challengers (de_base s1) = chs /\ resolver_ok (de_base s1)
    /\ gs_champion (de_base s1) = Some champ /\ gs_final_scheduled (de_base s1) = false
    /\ gs_audit (de_base s1) = gs_audit (de_base s) /\ gs_losses (de_base s1) = gs_losses (de_base s)
    /\ gs_replicates (de_base s1) = gs_replicates (de_base s)).
  { destruct Hc. unfold s1, de_close_lb, de_flush. cbn. by destruct (de_round_matches s). }
  destruct Hb as (Hchs & Hres & Hch & Hsch & Haud & Hls & Hrep).
  assert (Hpick : de_pick_challenger s1 sv ∈ gs_challengers (de_base s1)).
  { rewrite Hchs. unfold de_pick_challenger. cbn. destruct (de_lb_round s) as [|c l]; cbn; [done|].
    apply Forall_cons in Hround as [? _]. by destruct (flt _ _). }
  destruct (_pick_finalist_ok (de_base s1) _ Hres Hpick) as (f & Hf & Hfin).
  exists f. eexists. split.
  - unfold de_lb_step. rewrite Hp. destruct (Nat.leb_spec (length (de_lb_round s)) 1); [|lia].
    fold s1. unfold de_gf_step. rewrite Hsch. change (de_wb_survivor s1) with (de_wb_survivor s).
    rewrite Hsv, Hf. cbn [result_bind]. rewrite Hrep. reflexivity.
  - by split; cbn; rewrite <-?Hchs.
Qed.

Lemma de_final_done champ chs s f s' r :
  de_lb_live champ chs s -> de_lb_pending s = [] -> length (de_lb_round s) <= 1 -> chs <> [] ->
  de_finalising champ chs f s s' -> answers (de_final_matchup champ f s) r ->
  de_done champ chs (de_record r s').
Proof.
  intros [Hc ? ? (sv & Hsv & Hsvc & Hpart) ? ? Hsome Hcount Hel Hloss] Hp Hlen Hne
    [? ? ? Haud Hls [Hf Hfin] Helim] (Hid & Hl & Hr).
  cbn in Hid, Hl, Hr. rewrite Hp in Hcount. cbn in Hcount.
  assert (Hn : 1 <= length chs) by (destruct chs; [done|cbn; lia]).
  assert (Hlb : length (de_lb_round s) = Nat.min 1 (length chs - 1)).
  { destruct (decide (2 <= length chs)) as [Hge|Hlt].
    - destruct (Hsome Hge) as [?|?]; [|done].
      assert (length (de_lb_round s) <> 0) by (by destruct (de_lb_round s)). lia.
    - lia. }
  unfold de_record, _capture_final_result. cbn. rewrite df_scheduled0, Hid. cbn.
  split; cbn.
  - split_and!; [done|done|]. cbn. intros r' [= <-]. split_and!; [set_solver|done|]. by exists f.
  - done.
  - rewrite Haud, length_app. cbn. lia.
  - intros Hnd g. unfold losses_of in *. cbn. rewrite Helim, Hls, (Hloss Hnd g), Hel.
    repeat case_bool_decide; split; (done || lia || naive_solver lia).
  - intros Hnd. specialize (Hpart Hnd). rewrite Hp in Hpart. cbn in Hpart. rewrite app_nil_r in Hpart.
    rewrite Helim.
    assert (de_eliminated s = list_to_set (dict_keys (de_eliminated_round s))) as ->
      by (apply set_eq; intros g; by rewrite Hel, elem_of_list_to_set).
    rewrite size_list_to_set.
    + apply Permutation_length in Hpart. cbn in Hpart. rewrite length_app, !length_fmap in Hpart. lia.
    + rewrite <-Hpart in Hnd. apply NoDup_cons in Hnd as [_ Hnd]. by apply NoDup_app in Hnd as (_ & _ & ?).
Qed.

(** ** The laws *)

Definition de_fresh (s : DoubleElim) : Prop :=
  gs_audit (de_base s) = [] /\ gs_final_scheduled (de_base s) = false
  /\ gs_final_result (de_base s) = None /\ resolver_ok (de_base s) /\ gs_losses (de_base s) = []
  /\ de_eliminated s = ∅ /\ de_eliminated_round s = [] /\ de_phase s = phase_wb
  /\ de_wb_pending s = [] /\ de_wb_losers s = [] /\ de_lb_pending s = [].

Lemma double_elim_init_fresh params s : double_elim_init params = Ok s -> de_fresh s.
Proof.
  unfold double_elim_init, gate_init. intros (b & Hb & [= <-])%result_bind_ok.
  apply result_bind_ok in Hb as ([ps reps] & _ & Hb). apply result_bind_ok in Hb as (size & _ & [= <-]).
  split_and!; try done. unfold resolver_ok. cbn. destruct (read_resolver ps) eqn:E; [|done].
  by apply read_resolver_valid in E.
Qed.

Definition de_inv (champ : Contestant) (chs : list Contestant) (s : DoubleElim) : Prop :=
  (de_wb_live champ chs s /\ de_wb_pending s = [])
  \/ (de_lb_live champ chs s /\ de_lb_pending s = [] /\ chs <> [])
  \/ de_done champ chs s.

Lemma setdefault_zero (chs : list Contestant) g :
  dict_get_or (foldl (fun d c => dict_setdefault d (generation_id c) 0%Z) [] chs) g 0%Z = 0%Z.
Proof.
  assert (Hgen : forall d, dict_get_or d g 0%Z = 0%Z ->
    dict_get_or (foldl (fun d c => dict_setdefault d (generation_id c) 0%Z) d chs) g 0%Z = 0%Z);
    [|by apply Hgen].
  induction chs as [|c chs IH]; intros d Hd; cbn; [done|]. apply IH. unfold dict_setdefault.
  destruct (dict_mem d (generation_id c)); [done|]. unfold dict_get_or in *. rewrite dict_get_set.
  by case_decide.
Qed.

Lemma de_seed_inv champ chs s : de_fresh s -> de_inv champ chs (de_seed champ chs s).
Proof.
  intros (Ha & Hs & Hr & Hres & Hl & Hes & Her & Hph & Hwp & Hwl & Hlp). left. split; [|done].
  split; cbn; try done.
  - split; cbn; try done. rewrite Hwl. constructor.
  - by apply Forall_forall.
  - rewrite Hwp. constructor.
  - auto.
  - by rewrite Hwl, Ha.
  - rewrite Ha, Hwp. cbn. lia.
  - intros _. rewrite Hwl, Hwp. by rewrite app_nil_r.
  - intros _ g. rewrite Hwl. unfold losses_of. cbn. by rewrite Hl, setdefault_zero.
Qed.

Definition de_fuel (s : DoubleElim) : nat :=
  match gs_final_result (de_base s), de_phase s with
  | Some _, _ => 0
  | None, phase_wb => length (de_wb_round s) + length (gs_challengers (de_base s))
  | None, _ => Nat.max 1 (length (de_lb_round s))
  end.

Lemma de_unresolved champ chs s :
  de_inv champ chs s -> de_resolved s = false ->
  chs <> [] /\ ((de_wb_live champ chs s /\ de_wb_pending s = [])
               \/ (de_lb_live champ chs s /\ de_lb_pending s = [])).
Proof.
  unfold de_resolved. intros [[Hl Hp]|[(Hl & Hp & Hne)|[(Hc & _) [r Hr] _ _ _]]] Hres.
  - destruct (dw_common _ _ _ Hl) as [Hc Hchs _ _ _ _]. rewrite Hc, Hchs in Hres.
    split; [|by left]. intros ->. by destruct (gs_final_result (de_base s)).
  - split; [done|by right].
  - cbn in Hc. by rewrite Hc, Hr in Hres.
Qed.

(** A step of the losers' bracket schedules a round that leaves fewer
    contestants, or the grand final. *)
Lemma de_lb_step_cases champ chs s :
  de_lb_live champ chs s -> de_lb_pending s = [] -> chs <> [] ->
  exists ms s', de_lb_step champ s = Ok (ms, s') /\ ms <> []
    /\ forall rs, Forall2 answers ms rs -> exists s'', record_results rs s' = Ok s''
         /\ de_inv champ chs s''
         /\ de_fuel s'' < Nat.max 1 (length (de_lb_round s)).
Proof.
  intros Hl Hp Hne. destruct (Nat.leb_spec (length (de_lb_round s)) 1) as [Hlen|Hlen].
  - destruct (de_lb_final champ chs s Hl Hp Hlen) as (f & s' & Hstep & Hfin).
    exists [de_final_matchup champ f s], s'. split_and!; [done|done|].
    intros rs Hans. apply Forall2_cons_inv_l in Hans as (r & rs' & Hr & Hnil & ->).
    apply Forall2_nil_inv_l in Hnil as ->. eexists. split; [reflexivity|].
    pose proof (de_final_done champ chs s f s' r Hl Hp Hlen Hne Hfin Hr) as Hd.
    split; [by right; right|]. unfold de_fuel. destruct (dd_decided _ _ _ Hd) as [r' ->]. lia.
  - destruct (de_pair_lb s) as [ms s'] eqn:E. exists ms, s'.
    destruct (de_pair_lb_live champ chs s ms s' Hl Hp Hlen E) as (Hl' & Hp' & Hms & Hids & Hlt).
    split_and!; [|done|].
    { unfold de_lb_step. rewrite Hp. destruct (Nat.leb_spec (length (de_lb_round s)) 1); [lia|].
      by rewrite E. }
    intros rs Hans.
    destruct (batch_settles (de_lb_live champ chs) de_lb_pending (fun s => length (de_lb_round s)) lb_id ms rs s'
                (de_lb_settles champ chs) Hl' Hp' Hids Hans) as (s'' & Hs'' & Hl'' & Hp'' & Hlen'').
    exists s''. split_and!; [done|by right; left|]. unfold de_fuel.
    destruct (dl_common _ _ _ Hl'') as [_ _ _ -> _ _]. rewrite (dl_phase _ _ _ Hl'').
    assert (length ms <> 0) by (by destruct ms). lia.
Qed.

Lemma de_next_cases champ chs s :
  de_inv champ chs s -> de_resolved s = false ->
  exists ms s', de_next s = Ok (ms, s') /\ ms <> []
    /\ forall rs, Forall2 answers ms rs -> exists s'', record_results rs s' = Ok s''
         /\ de_inv champ chs s'' /\ de_fuel s'' < de_fuel s.
Proof.
  intros Hinv Hres. destruct (de_unresolved champ chs s Hinv Hres) as [Hne [[Hl Hp]|[Hl Hp]]].
  - destruct (dw_common _ _ _ Hl) as [Hc Hchs _ Hnr _ _].
    unfold de_next, de_fuel at 2. rewrite Hc, Hnr, (dw_phase _ _ _ Hl), Hchs. unfold de_wb_step. rewrite Hp.
    assert (Hn : 1 <= length chs) by (destruct chs; [done|cbn; lia]).
    destruct (Nat.leb_spec (length (de_wb_round s)) 1) as [Hlen|Hlen].
    + destruct (de_close_wb_live champ chs s Hl Hp Hne Hlen) as (Hl' & Hp' & Hlt).
      destruct (de_lb_step_cases champ chs _ Hl' Hp' Hne) as (ms & s' & Hst & Hms & Hall).
      exists ms, s'. split_and!; [done|done|]. intros rs Hans.
      destruct (Hall rs Hans) as (s'' & ? & ? & ?). exists s''. split_and!; [done|done|lia].
    + destruct (de_pair_wb s) as [ms s'] eqn:E. exists ms, s'.
      destruct (de_pair_wb_live champ chs s ms s' Hl Hp Hlen E) as (Hl' & Hp' & Hms & Hids & Hlt).
      split_and!; [done|done|]. intros rs Hans.
      destruct (batch_settles (de_wb_live champ chs) de_wb_pending (fun s => length (de_wb_round s)) wb_id ms rs s'
                  (de_wb_settles champ chs) Hl' Hp' Hids Hans) as (s'' & Hs'' & Hl'' & Hp'' & Hlen'').
      exists s''. split_and!; [done|by left|]. unfold de_fuel.
      destruct (dw_common _ _ _ Hl'') as [_ -> _ -> _ _]. rewrite (dw_phase _ _ _ Hl''). lia.
  - destruct (dl_common _ _ _ Hl) as [Hc _ _ Hnr _ _].
    unfold de_next, de_fuel at 2. rewrite Hc, Hnr, (dl_phase _ _ _ Hl).
    by apply de_lb_step_cases.
Qed.

Lemma de_common_final champ chs s : de_common champ chs s -> final_ok champ chs s.
Proof. intros []. split_and!; [done|done|]. intros r. cbn. by rewrite dc_no_result0. Qed.

#[export] Instance double_elim_laws : SelectionLaws DoubleElim.
Proof.
  refine {| fresh := de_fresh; fields _ := True; inv := de_inv; fuel := de_fuel |}.
  - intros champ chs s Hf _. eexists. split; [reflexivity|]. by apply de_seed_inv.
  - intros champ chs s Hinv Hres.
    destruct (de_next_cases champ chs s Hinv Hres) as (ms & s' & Hn & Hne & _).
    exists ms, s'. by split.
  - intros champ chs s ms s' rs Hinv Hres Hnext Hms Hans.
    destruct (de_next_cases champ chs s Hinv Hres) as (ms0 & s0 & Hn & _ & Hall).
    cbn in Hnext. rewrite Hn in Hnext. injection Hnext as -> ->. by apply Hall.
  - intros champ chs s Hinv. apply final_ok_crowned.
    destruct Hinv as [[Hl _]|[(Hl & _ & _)|Hd]]; [apply de_common_final, Hl..|apply Hd].
Defined.

(** A driven bracket over a non-empty field stops decided. *)
Lemma de_stopped_done champ chs s : chs <> [] -> stopped champ chs s -> de_done champ chs s.
Proof.
  intros Hne [Hinv Hstop]. destruct Hstop as [Hres|(s0 & Hinv0 & Hres0 & Hnext)].
  - assert (Hres' : forall s, de_common champ chs s -> de_resolved s = false).
    { intros s1 []. unfold de_resolved. rewrite dc_champion0, dc_no_result0, dc_challengers0.
      by destruct chs. }
    cbn in Hres. destruct Hinv as [[Hl _]|[(Hl & _ & _)|Hd]]; [| |done];
      (rewrite Hres' in Hres; [done|apply Hl]).
  - destruct (de_next_cases champ chs s0 Hinv0 Hres0) as (ms & s' & Hn & Hms & _).
    cbn in Hnext. congruence.
Qed.
End DoubleElimSpec.

(** A double-elimination tournament over n >= 1 challengers terminates after
    exactly max(1, 2n - 2) duels; with distinct ids it has eliminated all but two
    of them (none when n = 1), a challenger is eliminated exactly when it lost two
    nodes, and nobody loses more than two. *)
Theorem double_elim_tournament `{PyFormat} `{PyRepr} `{Libm}
    request_field run (strategy : DoubleElim) champ chs n :
  de_fresh strategy -> request_field (field_size strategy) = Ok (champ, chs) ->
  chs <> [] -> answering run -> 2 * length chs < n ->
  exists s, evaluate_tournament request_field run n strategy = Some (Ok (champion s))
    /\ length (sd_matchups (champion s)) = Nat.max 1 (2 * length chs - 2)
    /\ crowned_by_gate champ chs (champion s)
    /\ (NoDup (generation_id <$> chs) ->
        size (de_eliminated s) = length chs - 2
        /\ forall g, (g ∈ de_eliminated s <-> losses_of s g = 2%Z) /\ (0 <= losses_of s g <= 2)%Z).
Proof.
  intros Hf Hreq Hne Hrun Hn.
  destruct (@evaluate_tournament_run DoubleElim _ double_elim_laws request_field run strategy champ chs n
    Hf Hreq I Hrun) as (s & Hs & Hst).
  { intros s [= <-]. cbn. destruct Hf as (_ & _ & Hr & _ & _ & _ & _ & Hph & _).
    unfold de_fuel. cbn. rewrite Hr, Hph. lia. }
  exists s. pose proof (de_stopped_done champ chs s Hne Hst) as [Hfin [r Hr] Hd Hl He].
  split_and!; [done| |by apply final_ok_crowned|auto]. rewrite <-Hd.
  cbn. unfold gate_champion. cbn. destruct Hfin as (Hc & _ & Hfr). cbn in *. rewrite Hr, Hc.
  destruct (Hfr r Hr) as (_ & _ & f & -> & _). done.
Qed.

Module DoubleElimWitness.
#[local] Existing Instance plain_format.
#[local] Existing Instance plain_repr.
#[local] Existing Instance plain_libm.

Definition strategy : DoubleElim :=
  match double_elim_init None with
  | Ok s => s
  | Raise _ => {| de_base := blank_gate; de_eliminated := ∅; de_eliminated_round := [];
        de_phase := phase_wb;
        de_stage_index := 0; de_round_matches := []; de_wb_round := []; de_wb_pending := [];
        de_wb_survivor := None; de_wb_losers := []; de_lb_round := []; de_lb_pending := [];
        de_lb_survivor := None; de_gf_challenger := None |}
  end.

Lemma double_elim_strategy_fresh : de_fresh strategy.
Proof. apply (double_elim_init_fresh None). vm_compute. reflexivity. Qed.

Lemma double_elim_tournament_witness :
  exists s, evaluate_tournament request_field4 duel 9 strategy = Some (Ok (champion s))
    /\ length (sd_matchups (champion s)) = 6.
Proof.
  destruct (double_elim_tournament request_field4 duel strategy incumbent field4 9)
    as (s & Hs & Hlen & _).
  - apply double_elim_strategy_fresh.
  - reflexivity.
  - discriminate.
  - apply duel_answers.
  - vm_compute. lia.
  - exists s. exact (conj Hs Hlen).
Defined.

(** Matchup ids are not unique within a double-elimination tournament: on
    four challengers the second round of the winners' bracket reuses the id
    "WB-R0-0" of the first, for a duel between other contestants. *)
Theorem double_elim_repeats_matchup_id :
  exists d r1 r2, evaluate_tournament request_field4 duel 9 strategy = Some (Ok d)
    /\ sd_matchups d !! 0 = Some r1 /\ sd_matchups d !! 2 = Some r2
    /\ mr_id r1 = "WB-R0-0" /\ mr_id r2 = "WB-R0-0"
    /\ (mr_left_id r1, mr_right_id r1) = ("v1", "v2") /\ (mr_left_id r2, mr_right_id r2) = ("v1", "v3").
Proof. do 3 eexists. split; [vm_compute; reflexivity|]. split_and!; reflexivity. Qed.
End DoubleElimWitness.
