(* ===== verification/Swiss.v ===== *)
(** The Swiss tournament over the champion and the challengers,
    [src/zicato/selection/experimental/swiss.py]. *)

From S2P Require Import Prelude PyFloat PyJson CoreTypes Gate Params Strategy Rating PlackettLuce.
From S2P Require Import ChampionGate Bracket.

Record Swiss := {
  sw_base : GateState;
  sw_field : list Contestant;
  sw_by_id : list (string * Contestant);
  sw_rounds_n : Z;
  sw_stage_index : nat;
  sw_pending : Pending;
  sw_copeland : list (string * Z);
  sw_scalar_sum : list (string * float);
  sw_scalar_n : list (string * Z);
  sw_round_matches : list MatchRecord;
  sw_scheduled_round : Z;
  sw_leader : option Contestant;
}.

Section SwissTournament.
Context `{PyFormat} `{PyRepr} `{Libm}.

Definition swiss_init (params : option Params) : result Swiss :=
  try b <- gate_init "swiss" (gate_parameter_names ++ ["rating"; "resolver"; "rounds_n"]) 2 true params;
  try rounds_n <- _param_int (gs_params b) "rounds_n" 4;
  Ok {| sw_base := b; sw_field := []; sw_by_id := []; sw_rounds_n := Z.max 1 rounds_n;
        sw_stage_index := 0; sw_pending := []; sw_copeland := []; sw_scalar_sum := [];
        sw_scalar_n := []; sw_round_matches := []; sw_scheduled_round := -1; sw_leader := None |}.

Definition sw_seed (champ : Contestant) (chs : list Contestant) (s : Swiss) : Swiss :=
  let field := champ :: chs in
  {| sw_base := gs_seed champ chs (sw_base s); sw_field := field;
     sw_by_id := foldl (fun d c => dict_set d (generation_id c) c) (sw_by_id s) field;
     sw_rounds_n := sw_rounds_n s; sw_stage_index := sw_stage_index s; sw_pending := sw_pending s;
     sw_copeland := foldl (fun d c => dict_setdefault d (generation_id c) 0%Z) (sw_copeland s) field;
     sw_scalar_sum := foldl (fun d c => dict_setdefault d (generation_id c) f0) (sw_scalar_sum s) field;
     sw_scalar_n := foldl (fun d c => dict_setdefault d (generation_id c) 0%Z) (sw_scalar_n s) field;
     sw_round_matches := sw_round_matches s; sw_scheduled_round := sw_scheduled_round s;
     sw_leader := sw_leader s |}.

(** ** The standing *)

Definition _mean_scalar (s : Swiss) (gid : string) : float :=
  let n := dict_get_or (sw_scalar_n s) gid 0%Z in
  if (n =? 0)%Z then f0 else fdiv (dict_get_or (sw_scalar_sum s) gid f0) (float_of_Z n).

Definition copeland_of (s : Swiss) (gid : string) : Z := dict_get_or (sw_copeland s) gid 0%Z.

(** [key=lambda gid: (-copeland, mean scalar, gid)] *)
Definition sw_standing_lt (s : Swiss) (a b : string) : bool :=
  if (- copeland_of s a =? - copeland_of s b)%Z
  then if feq (_mean_scalar s a) (_mean_scalar s b) then str_lt a b
       else flt (_mean_scalar s a) (_mean_scalar s b)
  else (- copeland_of s a <? - copeland_of s b)%Z.

Definition sw_theta_lt (order : list string) (s : Swiss) (a b : string) : bool :=
  if order_rank order a =? order_rank order b then sw_standing_lt s a b
  else order_rank order a <? order_rank order b.

(** [_theta_standing_order] *)
Definition sw_theta_standing_order (s : Swiss) (ids : list string) : list string :=
  match rating_order (gs_audit (sw_base s)) with
  | [] => py_sorted (sw_standing_lt s) ids
  | order => py_sorted (sw_theta_lt order s) ids
  end.

Definition _standing_order (s : Swiss) : list string :=
  let ids := generation_id <$> sw_field s in
  if uses_rating (sw_base s) then sw_theta_standing_order s ids
  else py_sorted (sw_standing_lt s) ids.

(** ** Scheduling *)

Definition swiss_id (stage slot : nat) : string := "r" +:+ pretty stage +:+ "_m" +:+ pretty slot.

(** The loop over [ordered]: the duels of consecutive ids, and the bye. *)
Fixpoint pair_ids (by_id : list (string * Contestant)) (stage : nat) (reps : Z) (slot : nat)
    (ordered : list string) : result (list Matchup * option (string * nat)) :=
  match ordered with
  | a :: b :: rest =>
      try l <- dict_at by_id a a;
      try r <- dict_at by_id b b;
      try others <- pair_ids by_id stage reps (S slot) rest;
      Ok ({| mu_id := swiss_id stage slot; mu_left := l; mu_right := r; mu_board_subset := None;
             mu_replicates := reps; mu_stage_index := stage; mu_bracket_slot := "";
             mu_budget_seconds := None |} :: others.1, others.2)
  | [a] => Ok ([], Some (a, slot))
  | [] => Ok ([], None)
  end.

(** [_schedule_swiss_round] *)
Definition sw_schedule_round (s : Swiss) : result (list Matchup * Swiss) :=
  try paired <- pair_ids (sw_by_id s) (sw_stage_index s) (gs_replicates (sw_base s)) 0
                  (_standing_order s);
  let '(ms, bye) := paired in
  Ok (ms,
      {| sw_base := sw_base s; sw_field := sw_field s; sw_by_id := sw_by_id s;
         sw_rounds_n := sw_rounds_n s; sw_stage_index := sw_stage_index s;
         sw_pending := add_pending (sw_pending s) ms;
         sw_copeland := match bye with
                        | Some (gid, _) => dict_incr (sw_copeland s) gid
                        | None => sw_copeland s
                        end;
         sw_scalar_sum := sw_scalar_sum s; sw_scalar_n := sw_scalar_n s;
         sw_round_matches :=
           match bye with
           | Some (gid, slot) =>
               sw_round_matches s ++ [bye_record (swiss_id (sw_stage_index s) slot) gid ""]
           | None => sw_round_matches s
           end;
         sw_scheduled_round := Z.of_nat (sw_stage_index s); sw_leader := sw_leader s |}).

(** [_pick_leader], called with a champion seeded. *)
Definition _pick_leader (champ : Contestant) (s : Swiss) : result (option string) :=
  let default_leader :=
    find_first (fun g => negb (String.eqb g (generation_id champ))) (_standing_order s) in
  match gs_resolver (sw_base s) with
  | None => Ok default_leader
  | Some resolver =>
      try proposed <- resolver_leader (gs_audit (sw_base s)) resolver;
      match proposed with
      | Some proposed =>
          if negb (String.eqb proposed (generation_id champ)) && dict_mem (sw_by_id s) proposed
          then Ok (Some proposed) else Ok default_leader
      | None => Ok default_leader
      end
  end.

(** [_maybe_final]: the final is scheduled, with or without a leader. *)
Definition sw_close (leader : option Contestant) (s : Swiss) : Swiss := {|
  sw_base := gs_schedule_final (sw_base s); sw_field := sw_field s; sw_by_id := sw_by_id s;
  sw_rounds_n := sw_rounds_n s; sw_stage_index := sw_stage_index s; sw_pending := sw_pending s;
  sw_copeland := sw_copeland s; sw_scalar_sum := sw_scalar_sum s; sw_scalar_n := sw_scalar_n s;
  sw_round_matches := sw_round_matches s; sw_scheduled_round := sw_scheduled_round s;
  sw_leader := leader |}.

Definition sw_maybe_final (champ : Contestant) (s : Swiss) : result (list Matchup * Swiss) :=
  if gs_final_scheduled (sw_base s) then Ok ([], s)
  else
    try leader_id <- _pick_leader champ s;
    match leader_id with
    | None => Ok ([], sw_close (sw_leader s) s)
    | Some leader_id =>
        try leader <- dict_at (sw_by_id s) leader_id leader_id;
        Ok ([{| mu_id := "swiss-final"; mu_left := champ; mu_right := leader;
                mu_board_subset := None; mu_replicates := gs_replicates (sw_base s);
                mu_stage_index := sw_stage_index s; mu_bracket_slot := "";
                mu_budget_seconds := None |}],
            sw_close (Some leader) s)
    end.

Definition sw_next (s : Swiss) : result (list Matchup * Swiss) :=
  match gs_champion (sw_base s), sw_pending s with
  | None, _ | _, _ :: _ => Ok ([], s)
  | Some champ, [] =>
      if (sw_rounds_n s <=? Z.of_nat (sw_stage_index s))%Z then sw_maybe_final champ s
      else sw_schedule_round s
  end.

(** ** Recording *)

Definition add_sum (d : list (string * float)) (k : string) (x : float) : list (string * float) :=
  dict_set d k (fadd (dict_get_or d k f0) x).

(** [self._audit.append(result)] and the two [_tally_scalar] calls. *)
Definition sw_log (res : MatchupResult) (s : Swiss) : Swiss := {|
  sw_base := gs_log res (gs_scalars (sw_base s)) (sw_base s); sw_field := sw_field s;
  sw_by_id := sw_by_id s; sw_rounds_n := sw_rounds_n s; sw_stage_index := sw_stage_index s;
  sw_pending := sw_pending s; sw_copeland := sw_copeland s;
  sw_scalar_sum := add_sum (add_sum (sw_scalar_sum s) (mr_left_id res) (left_scalar res))
                     (mr_right_id res) (right_scalar res);
  sw_scalar_n := dict_incr (dict_incr (sw_scalar_n s) (mr_left_id res)) (mr_right_id res);
  sw_round_matches := sw_round_matches s; sw_scheduled_round := sw_scheduled_round s;
  sw_leader := sw_leader s |}.

Definition sw_with_base (b : GateState) (s : Swiss) : Swiss := {|
  sw_base := b; sw_field := sw_field s; sw_by_id := sw_by_id s; sw_rounds_n := sw_rounds_n s;
  sw_stage_index := sw_stage_index s; sw_pending := sw_pending s; sw_copeland := sw_copeland s;
  sw_scalar_sum := sw_scalar_sum s; sw_scalar_n := sw_scalar_n s;
  sw_round_matches := sw_round_matches s; sw_scheduled_round := sw_scheduled_round s;
  sw_leader := sw_leader s |}.

(** One settled pairing. *)
Definition sw_settle (res : MatchupResult) (l r : Contestant) (s : Swiss) : Swiss :=
  let winner_id := lower_scalar_id res in
  let loser_id :=
    if String.eqb winner_id (generation_id l) then generation_id r else generation_id l in
  let b := gs_tally (gs_wins (sw_base s)) (dict_incr (gs_losses (sw_base s)) loser_id) (sw_base s) in
  {| sw_base := b; sw_field := sw_field s; sw_by_id := sw_by_id s; sw_rounds_n := sw_rounds_n s;
     sw_stage_index := sw_stage_index s; sw_pending := dict_del (sw_pending s) (mr_id res);
     sw_copeland := dict_incr (sw_copeland s) winner_id; sw_scalar_sum := sw_scalar_sum s;
     sw_scalar_n := sw_scalar_n s;
     sw_round_matches :=
       sw_round_matches s
       ++ [settled_record (mr_id res) [generation_id l; generation_id r] winner_id
             (mr_outcome res) "" None];
     sw_scheduled_round := sw_scheduled_round s; sw_leader := sw_leader s |}.

(** The round closes once every pairing has landed. *)
Definition sw_close_round (s : Swiss) : Swiss :=
  match sw_pending s with
  | _ :: _ => s
  | [] =>
      {| sw_base := gs_add_record {| rr_stage_index := sw_stage_index s;
                                     rr_label := "Swiss round " +:+ pretty (S (sw_stage_index s));
                                     rr_matches := sw_round_matches s |} (sw_base s);
         sw_field := sw_field s; sw_by_id := sw_by_id s; sw_rounds_n := sw_rounds_n s;
         sw_stage_index := S (sw_stage_index s); sw_pending := []; sw_copeland := sw_copeland s;
         sw_scalar_sum := sw_scalar_sum s; sw_scalar_n := sw_scalar_n s; sw_round_matches := [];
         sw_scheduled_round := sw_scheduled_round s; sw_leader := sw_leader s |}
  end.

Definition sw_record (res : MatchupResult) (s : Swiss) : Swiss :=
  let s := sw_log res s in
  match _capture_final_result "swiss-final" res (sw_base s) with
  | Some b => sw_with_base b s
  | None =>
      match dict_get (sw_pending s) (mr_id res) with
      | None => s
      | Some (l, r) => sw_close_round (sw_settle res l r s)
      end
  end.

Definition sw_resolved (s : Swiss) : bool :=
  match gs_champion (sw_base s), gs_final_result (sw_base s) with
  | None, _ | _, Some _ => true
  | Some _, None =>
      gs_final_scheduled (sw_base s) && match sw_leader s with None => true | Some _ => false end
  end.

Definition sw_no_final_detail (s : Swiss) : string :=
  match gs_champion (sw_base s), sw_leader s with
  | None, _ => "no champion was seeded"
  | _, None =>
      "the swiss rounds produced no leader over " +:+ pretty (length (gs_audit (sw_base s)))
      +:+ " duel(s) across " +:+ pretty (length (sw_scalar_n s)) +:+ " contestant(s)"
  | Some champ, Some leader =>
      "the crowning duel against leader " +:+ generation_id leader
      +:+ " reported no result (champion mean " +:+ fmt_fixed 6 (_mean_scalar s (generation_id champ))
      +:+ " vs leader mean " +:+ fmt_fixed 6 (_mean_scalar s (generation_id leader)) +:+ ")"
  end.

(** [SwissStrategy._standings] *)
Definition sw_standings (s : Swiss) (promoted_id : option string) : list Standing :=
  _ranked
    ((fun gid =>
        {| sg_generation_id := gid; sg_rank := 0; sg_scalar := _mean_scalar s gid;
           sg_wins := copeland_of s gid;
           sg_losses := dict_get_or (gs_losses (sw_base s)) gid 0%Z;
           sg_status := if bool_decide (promoted_id = Some gid) then crowned else alive;
           sg_role := match gs_champion (sw_base s) with
                      | Some c => if String.eqb gid (generation_id c) then role_champion
                                  else role_challenger
                      | None => role_challenger
                      end |}) <$> _standing_order s).

Definition sw_pending_stage_round (s : Swiss) : result (option RoundRecord) :=
  match sw_pending s with
  | [] => Ok None
  | pending =>
      Ok (Some {| rr_stage_index := sw_stage_index s;
                  rr_label := "Swiss round " +:+ pretty (S (sw_stage_index s));
                  rr_matches :=
                    sw_round_matches s
                    ++ ((fun '(mid, (l, r)) =>
                           pending_match_record mid [generation_id l; generation_id r] "" None None)
                        <$> pending) |})
  end.

#[export] Instance swiss_gate : ChampionGate Swiss := {|
  base := sw_base;
  _final_match_id := "swiss-final";
  _final_label := "Champion gate";
  _final_bracket_slot := "";
  _final_board_fraction := None;
  _finalist := sw_leader;
  _final_stage_index := sw_stage_index;
  _no_promotion_reason s :=
    "swiss leader did not clear the champion gate: " +:+ sw_no_final_detail s;
  _pending_stage_round := sw_pending_stage_round;
  _standings := sw_standings;
|}.

#[export] Instance swiss_strategy : SelectionStrategy Swiss := {|
  field_size s := gs_field_size (sw_base s);
  replicates s := gs_replicates (sw_base s);
  seed champ chs s := Ok (sw_seed champ chs s);
  next_matchups := sw_next;
  record_result r s := Ok (sw_record r s);
  resolved := sw_resolved;
  champion := gate_champion;
  rounds := gate_rounds;
  _pending_round := gate_pending_round;
  _live_standings s := _standings s None;
|}.
End SwissTournament.
