(* ===== verification/SwissSpec.v ===== *)
(** The Swiss tournament plays a fixed number of rounds in which every contestant
    is paired or receives the bye, then confirms its leader at the champion gate. *)

From S2P Require Import Prelude PyFloat PyJson CoreTypes Gate Params Resolve ResolveSpec Rating.
From S2P Require Import Strategy PlackettLuce ChampionGate Driver Bracket Swiss.

Section SwissSpec.
Context `{PyFormat} `{PyRepr} `{Libm}.

Definition occurrences (g : string) (l : list string) : Z := Z.of_nat (count (String.eqb g) l).

Lemma occurrences_cons g x l :
  occurrences g (x :: l) = ((if String.eqb g x then 1 else 0) + occurrences g l)%Z.
Proof. unfold occurrences, count. cbn. destruct (String.eqb g x); cbn; lia. Qed.

Lemma occurrences_app g l1 l2 : occurrences g (l1 ++ l2) = (occurrences g l1 + occurrences g l2)%Z.
Proof. unfold occurrences, count. rewrite List.filter_app, length_app. lia. Qed.

Lemma occurrences_perm g l1 l2 : l1 ≡ₚ l2 -> occurrences g l1 = occurrences g l2.
Proof. induction 1; rewrite ?occurrences_cons; lia. Qed.

Lemma occurrences_NoDup g l : NoDup l -> g ∈ l -> occurrences g l = 1%Z.
Proof.
  induction 1 as [|x l Hx Hnd IH]; [set_solver|]. rewrite occurrences_cons.
  assert (Hno : forall y, y ∉ l -> occurrences y l = 0%Z).
  { clear. intros y Hy. unfold occurrences, count. induction l as [|z l IH]; [done|]. cbn.
    destruct (String.eqb_spec y z); [set_solver|]. apply IH. set_solver. }
  intros [->|Hg]%elem_of_cons; [rewrite String.eqb_refl, Hno; done|].
  destruct (String.eqb_spec g x); [congruence|]. by rewrite IH.
Qed.

(** The rounds a contestant has been scheduled in. *)
Definition rounds_begun (s : Swiss) : nat :=
  match sw_pending s with [] => sw_stage_index s | _ => S (sw_stage_index s) end.

Definition losses_of (s : Swiss) (g : string) : Z := dict_get_or (gs_losses (sw_base s)) g 0%Z.

Definition pairings (chs : list Contestant) : nat := Nat.div2 (S (length chs)).
#[local] Arguments pairings : simpl never.

Record sw_live (champ : Contestant) (chs : list Contestant) (s : Swiss) : Prop := {
  wl_champion : gs_champion (sw_base s) = Some champ;
  wl_challengers : gs_challengers (sw_base s) = chs;
  wl_unscheduled : gs_final_scheduled (sw_base s) = false;
  wl_no_result : gs_final_result (sw_base s) = None;
  wl_resolver : resolver_ok (sw_base s);
  wl_leader : sw_leader s = None;
  wl_field : sw_field s = champ :: chs;
  wl_by_id : forall c, c ∈ champ :: chs -> dict_mem (sw_by_id s) (generation_id c) = true;
  wl_by_id_elem : forall g c, dict_get (sw_by_id s) g = Some c ->
    c ∈ champ :: chs /\ generation_id c = g;
  wl_stage : (Z.of_nat (rounds_begun s) <= sw_rounds_n s)%Z;
  wl_count : length (gs_audit (sw_base s)) + length (sw_pending s)
             = pairings chs * rounds_begun s;
  wl_points : chs <> [] -> NoDup (generation_id <$> champ :: chs) ->
    forall g, g ∈ (generation_id <$> champ :: chs) ->
    (copeland_of s g + losses_of s g + occurrences g (pending_ids (sw_pending s))
     = Z.of_nat (rounds_begun s))%Z;
}.

Lemma swiss_id_inj stage i j : swiss_id stage i = swiss_id stage j -> i = j.
Proof.
  unfold swiss_id. intros H'. repeat apply (inj (String.append _)) in H'.
  by apply (inj pretty) in H'.
Qed.

Definition bye_ids (bye : option (string * nat)) : list string :=
  match bye with Some (gid, _) => [gid] | None => [] end.

Lemma pair_ids_ok by_id stage reps slot ordered :
  (forall g, g ∈ ordered -> dict_mem by_id g = true) ->
  (forall g c, dict_get by_id g = Some c -> generation_id c = g) ->
  exists ms bye, pair_ids by_id stage reps slot ordered = Ok (ms, bye)
    /\ (generation_id <$> sides ms) ++ bye_ids bye = ordered
    /\ length ms = Nat.div2 (length ordered)
    /\ (forall m, m ∈ ms -> exists k, slot <= k /\ mu_id m = swiss_id stage k)
    /\ NoDup (mu_id <$> ms).
Proof.
  revert slot. induction ordered as [ordered IH] using (induction_ltof1 _ length).
  intros slot Hmem Hid. destruct ordered as [|a [|b rest]].
  - exists [], None. split_and!; try done; [set_solver|constructor].
  - exists [], (Some (a, slot)). split_and!; try done; [set_solver|constructor].
  - destruct (IH rest ltac:(unfold ltof; cbn; lia) (S slot)) as (ms & bye & Hp & Hs & Hl & Hk & Hnd);
      [intros; apply Hmem; set_solver|done|].
    assert (Hget : forall g, g ∈ a :: b :: rest -> exists c, dict_at by_id g g = Ok c /\ generation_id c = g).
    { intros g Hg%Hmem. unfold dict_mem, dict_at in *. destruct (dict_get by_id g) as [c|] eqn:E; [|done].
      exists c. eauto. }
    destruct (Hget a) as (ca & Ha & Hca); [set_solver|].
    destruct (Hget b) as (cb & Hb & Hcb); [set_solver|].
    cbn [pair_ids]. rewrite Ha, Hb, Hp. cbn [result_bind fst snd]. eexists _, bye.
    split; [reflexivity|]. rewrite sides_cons. cbn. rewrite Hca, Hcb, Hs, Hl. split_and!; [done|done| |].
    + intros m [->|Hm]%elem_of_cons; [by exists slot|].
      destruct (Hk m Hm) as (k & ? & ?). exists k. split; [lia|done].
    + constructor; [|done]. intros (m & Hm & Hin)%list_elem_of_fmap.
      destruct (Hk m Hin) as (k & Hle & Hk'). rewrite Hk' in Hm. apply swiss_id_inj in Hm. lia.
Qed.

Lemma _standing_order_perm s : _standing_order s ≡ₚ generation_id <$> sw_field s.
Proof.
  unfold _standing_order, sw_theta_standing_order.
  destruct (uses_rating _); [destruct (rating_order _)|]; apply py_sorted_perm.
Qed.

(** ** One round *)

Lemma sw_record_live champ chs s mid l r rest res :
  sw_live champ chs s -> sw_pending s = (mid, (l, r)) :: rest -> mr_id res = mid ->
  mr_left_id res = generation_id l -> mr_right_id res = generation_id r ->
  sw_live champ chs (sw_record res s) /\ sw_pending (sw_record res s) = rest
  /\ rounds_begun (sw_record res s) = rounds_begun s
  /\ sw_rounds_n (sw_record res s) = sw_rounds_n s.
Proof.
  intros [] Hp Hid Hml Hmr. unfold sw_record, _capture_final_result. cbn.
  rewrite wl_unscheduled0. cbn. rewrite Hp, Hid. cbn. rewrite decide_True by done.
  set (s1 := sw_settle res l r (sw_log res s)).
  assert (Hp1 : sw_pending s1 = rest).
  { unfold s1, sw_settle. cbn. rewrite Hp, Hid. cbn. by rewrite decide_True. }
  assert (Hbegun : rounds_begun (sw_close_round s1) = rounds_begun s).
  { unfold rounds_begun, sw_close_round. rewrite Hp1, Hp. destruct rest; [done|]. by rewrite Hp1. }
  assert (Hpend : sw_pending (sw_close_round s1) = rest).
  { unfold sw_close_round. rewrite Hp1. by destruct rest. }
  assert (Hsame : gs_audit (sw_base (sw_close_round s1)) = gs_audit (sw_base s) ++ [res]
    /\ gs_losses (sw_base (sw_close_round s1)) = gs_losses (sw_base s1)
    /\ sw_copeland (sw_close_round s1) = sw_copeland s1
    /\ sw_rounds_n (sw_close_round s1) = sw_rounds_n s).
  { unfold sw_close_round. by destruct (sw_pending s1). }
  destruct Hsame as (Haud & Hls & Hcp & Hrn).
  split_and!; [|done|done|done]. split; rewrite ?Hpend, ?Hbegun, ?Haud, ?Hrn; try done;
    try (unfold sw_close_round; destruct (sw_pending s1); done).
  - rewrite Hp in wl_count0. rewrite length_app. cbn [length] in *. lia.
  - intros Hne Hnd g Hg. specialize (wl_points0 Hne Hnd g Hg).
    rewrite Hp, pending_ids_cons, !occurrences_cons in wl_points0.
    unfold copeland_of, losses_of in *. rewrite Hls, Hcp. unfold s1, sw_settle. cbn.
    rewrite !dict_incr_get. unfold lower_scalar_id. rewrite Hml, Hmr.
    destruct (flt _ f0); rewrite ?String.eqb_refl;
      [destruct (String.eqb_spec (generation_id r) (generation_id l)) as [Erl|]; [rewrite Erl in *|]|];
      destruct (String.eqb_spec g (generation_id l)), (String.eqb_spec g (generation_id r));
      repeat case_bool_decide; try congruence; lia.
Qed.

Lemma sw_batch champ chs s ms rs :
  sw_live champ chs s -> sw_pending s = pending_of ms -> Forall2 answers ms rs ->
  exists s', record_results rs s = Ok s' /\ sw_live champ chs s' /\ sw_pending s' = []
    /\ rounds_begun s' = rounds_begun s /\ sw_rounds_n s' = sw_rounds_n s.
Proof.
  intros Hl Hp Hans.
  destruct (batch_settles (S := Swiss)
    (fun t => sw_live champ chs t /\ rounds_begun t = rounds_begun s /\ sw_rounds_n t = sw_rounds_n s)
    sw_pending (fun t => length (gs_audit (sw_base t))) (fun _ => True) ms rs s)
    as (s' & Hs' & (? & ? & ?) & Hp' & _); try done.
  - intros t mid l r rest res (Ht & Hb & Hr) Hpt _ Hid Hml Hmr. eexists. split; [reflexivity|].
    destruct (sw_record_live champ chs t mid l r rest res Ht Hpt Hid Hml Hmr) as (H1' & H2' & H3' & H4').
    split_and!; try done; [congruence..|].
    unfold sw_record, _capture_final_result. cbn. rewrite (wl_unscheduled _ _ _ Ht). cbn.
    rewrite Hpt, Hid. cbn. rewrite decide_True by done.
    unfold sw_close_round. case_match; cbn; rewrite length_app; cbn; lia.
  - by apply Forall_true.
  - by exists s'.
Qed.

(** Scheduling a round pairs the whole field. *)
Lemma sw_schedule_live champ chs s :
  sw_live champ chs s -> sw_pending s = [] -> (Z.of_nat (sw_stage_index s) < sw_rounds_n s)%Z ->
  exists ms s', sw_schedule_round s = Ok (ms, s') /\ sw_live champ chs s'
    /\ sw_pending s' = pending_of ms /\ length ms = pairings chs
    /\ sw_rounds_n s' = sw_rounds_n s /\ sw_stage_index s' = sw_stage_index s.
Proof.
  intros [] Hp Hlt. unfold sw_schedule_round.
  pose proof (_standing_order_perm s) as Hperm. rewrite wl_field0 in Hperm.
  destruct (pair_ids_ok (sw_by_id s) (sw_stage_index s) (gs_replicates (sw_base s)) 0 (_standing_order s))
    as (ms & bye & Hpair & Hsides & Hlen & _ & Hnd).
  { intros g Hg. rewrite Hperm in Hg. apply list_elem_of_fmap in Hg as (c & -> & Hc). by apply wl_by_id0. }
  { intros g c Hg. by apply wl_by_id_elem0 in Hg as [_ ?]. }
  rewrite Hpair. cbn [result_bind]. eexists ms, _. split; [reflexivity|]. rewrite Hp, add_pending_nil by done.
  assert (Hms : length ms = pairings chs).
  { rewrite Hlen, (Permutation_length Hperm), length_fmap. done. }
  unfold rounds_begun in *. rewrite Hp in *. cbn [length] in wl_count0.
  split_and!; try done. split; unfold rounds_begun; cbn; try done.
  - destruct ms; cbn; lia.
  - unfold pending_of at 1. rewrite length_fmap. destruct ms as [|m ms]; cbn [length pending_of fmap list_fmap] in *;
      [lia|]. rewrite <-Hms in *. lia.
  - intros Hne Hndc g Hg. specialize (wl_points0 Hne Hndc g Hg).
    assert (Hne' : ms <> []) by (intros ->; destruct chs; done).
    replace (match pending_of ms with [] => _ | _ :: _ => _ end) with (S (sw_stage_index s)) by (by destruct ms).
    assert (Hocc : (occurrences g (pending_ids (pending_of ms)) + occurrences g (bye_ids bye) = 1)%Z).
    { rewrite pending_ids_of, <-occurrences_app, Hsides, (occurrences_perm g _ _ Hperm).
      by apply occurrences_NoDup. }
    unfold copeland_of, losses_of in *. cbn. change (occurrences g (pending_ids [])) with 0%Z in wl_points0.
    destruct bye as [[b k]|]; cbn [bye_ids] in Hocc.
    + rewrite dict_incr_get, occurrences_cons in *. change (occurrences g []) with 0%Z in Hocc.
      destruct (String.eqb_spec g b); case_bool_decide; try congruence; lia.
    + change (occurrences g []) with 0%Z in Hocc. lia.
Qed.

(** ** The confirmation *)

Definition not_champion (champ : Contestant) (g : string) : bool :=
  negb (String.eqb g (generation_id champ)).

(** The leader is a known contestant other than the champion. *)
Lemma _pick_leader_ok champ chs s :
  sw_live champ chs s ->
  exists o, _pick_leader champ s = Ok o
    /\ (forall g, o = Some g -> dict_mem (sw_by_id s) g = true /\ not_champion champ g = true)
    /\ (o = None -> forall c, c ∈ chs -> not_champion champ (generation_id c) = false).
Proof.
  intros []. unfold _pick_leader. fold (not_champion champ).
  set (d := find_first _ _).
  assert (Hd : (forall g, d = Some g -> dict_mem (sw_by_id s) g = true /\ not_champion champ g = true)
    /\ (d = None -> forall c, c ∈ chs -> not_champion champ (generation_id c) = false)).
  { split.
    - intros g Hg. apply find_first_Some in Hg as [Hg Hn]. split; [|done].
      rewrite _standing_order_perm, wl_field0 in Hg. apply list_elem_of_fmap in Hg as (c & -> & Hc).
      by apply wl_by_id0.
    - intros Hn c Hc. apply (find_first_None _ _ _ Hn).
      rewrite _standing_order_perm, wl_field0. apply list_elem_of_fmap_2. set_solver. }
  destruct Hd as [Hd1 Hd2]. unfold resolver_ok in wl_resolver0.
  destruct (gs_resolver (sw_base s)) as [resolver|]; [|by exists d].
  destruct (resolver_leader_ok (gs_audit (sw_base s)) resolver wl_resolver0) as [o ->]. cbn [result_bind].
  destruct o as [g|]; [|by exists d]. fold (not_champion champ g).
  destruct (not_champion champ g) eqn:En; cbn [andb]; [|by exists d].
  destruct (dict_mem (sw_by_id s) g) eqn:Em; [|by exists d].
  exists (Some g). split_and!; [done| |done]. by intros g' [= <-].
Qed.

Definition sw_final_matchup (champ f : Contestant) (s : Swiss) : Matchup := {|
  mu_id := "swiss-final"; mu_left := champ; mu_right := f; mu_board_subset := None;
  mu_replicates := gs_replicates (sw_base s); mu_stage_index := sw_stage_index s;
  mu_bracket_slot := ""; mu_budget_seconds := None |}.

Lemma sw_maybe_final_ok champ chs s :
  sw_live champ chs s ->
  (exists f, f ∈ chs /\ sw_maybe_final champ s = Ok ([sw_final_matchup champ f s], sw_close (Some f) s))
  \/ ((forall c, c ∈ chs -> not_champion champ (generation_id c) = false)
      /\ sw_maybe_final champ s = Ok ([], sw_close None s)).
Proof.
  intros Hl. pose proof Hl as []. unfold sw_maybe_final. rewrite wl_unscheduled0.
  destruct (_pick_leader_ok champ chs s Hl) as (o & -> & Hs & Hn). cbn [result_bind].
  destruct o as [g|]; [left|right; rewrite wl_leader0; auto].
  destruct (Hs g eq_refl) as [Hm Hnc]. unfold dict_mem, dict_at in *.
  destruct (dict_get (sw_by_id s) g) as [f|] eqn:E; [|done]. exists f. split; [|done].
  apply wl_by_id_elem0 in E as [Hin Hid]. apply elem_of_cons in Hin as [->|?]; [|done].
  unfold not_champion in Hnc. by rewrite Hid, String.eqb_refl in Hnc.
Qed.

(** The crowning duel is decided. *)
Record sw_done (champ : Contestant) (chs : list Contestant) (s : Swiss) : Prop := {
  wd_final : final_ok champ chs s;
  wd_decided : is_Some (gs_final_result (sw_base s));
  wd_field : sw_field s = champ :: chs;
  wd_rounds : exists k, Z.of_nat k = sw_rounds_n s
    /\ length (gs_audit (sw_base s)) = k * pairings chs + 1
    /\ (chs <> [] -> NoDup (generation_id <$> champ :: chs) ->
        forall g, g ∈ (generation_id <$> champ :: chs) ->
        (copeland_of s g + losses_of s g = Z.of_nat k)%Z);
}.

Lemma sw_final_done champ chs s f r :
  sw_live champ chs s -> sw_pending s = [] -> (sw_rounds_n s <= Z.of_nat (sw_stage_index s))%Z ->
  f ∈ chs -> answers (sw_final_matchup champ f s) r ->
  sw_done champ chs (sw_record r (sw_close (Some f) s)).
Proof.
  intros [] Hp Hge Hf (Hid & Hl & Hr). cbn in Hid, Hl, Hr.
  unfold sw_record, _capture_final_result. cbn. rewrite Hid. cbn.
  unfold rounds_begun in *. rewrite Hp in *.
  split; cbn.
  - split_and!; [done|done|]. cbn. intros r' [= <-]. split_and!; [set_solver|done|]. by exists f.
  - done.
  - done.
  - exists (sw_stage_index s). split_and!; [lia|rewrite length_app; cbn [length] in *; lia|].
    intros Hne Hnd g Hg. specialize (wl_points0 Hne Hnd g Hg).
    change (occurrences g (pending_ids [])) with 0%Z in wl_points0.
    unfold copeland_of, losses_of in *. cbn. lia.
Qed.

(** ** The laws *)

Definition sw_fresh (s : Swiss) : Prop :=
  gs_audit (sw_base s) = [] /\ gs_final_scheduled (sw_base s) = false
  /\ gs_final_result (sw_base s) = None /\ resolver_ok (sw_base s) /\ gs_losses (sw_base s) = []
  /\ sw_by_id s = [] /\ sw_stage_index s = 0 /\ sw_pending s = [] /\ sw_copeland s = []
  /\ sw_leader s = None /\ (1 <= sw_rounds_n s)%Z.

Lemma swiss_init_fresh params s : swiss_init params = Ok s -> sw_fresh s.
Proof.
  unfold swiss_init, gate_init. intros (b & Hb & Hs)%result_bind_ok.
  apply result_bind_ok in Hb as ([ps reps] & _ & Hb). apply result_bind_ok in Hb as (size & _ & [= <-]).
  apply result_bind_ok in Hs as (n & _ & [= <-]).
  split_and!; try done; [|cbn; lia]. unfold resolver_ok. cbn. destruct (read_resolver ps) eqn:E; [|done].
  by apply read_resolver_valid in E.
Qed.

(** Closed without a leader: every challenger carries the champion's id. *)
Definition sw_closed (champ : Contestant) (chs : list Contestant) (s : Swiss) : Prop :=
  gs_champion (sw_base s) = Some champ /\ gs_challengers (sw_base s) = chs
  /\ gs_final_scheduled (sw_base s) = true /\ gs_final_result (sw_base s) = None
  /\ sw_leader s = None /\ forall c, c ∈ chs -> not_champion champ (generation_id c) = false.

Definition sw_inv (champ : Contestant) (chs : list Contestant) (s : Swiss) : Prop :=
  (sw_live champ chs s /\ sw_pending s = []) \/ sw_closed champ chs s \/ sw_done champ chs s.

Lemma by_id_mem (l : list Contestant) d g :
  dict_mem (foldl (fun d c => dict_set d (generation_id c) c) d l) g = true
  <-> dict_mem d g = true \/ g ∈ (generation_id <$> l).
Proof.
  revert d. induction l as [|c l IH]; intros d; cbn; [set_solver|].
  rewrite IH, !dict_mem_true, dict_keys_set. case_decide; set_solver.
Qed.

Lemma sw_seed_inv champ chs s : sw_fresh s -> sw_inv champ chs (sw_seed champ chs s).
Proof.
  intros (Ha & Hs & Hr & Hres & Hl & Hb & Hst & Hp & Hc & Hld & Hn). left. split; [|done].
  split; unfold rounds_begun; cbn -[foldl]; rewrite ?Hp, ?Hst, ?Ha, ?Hb; try done; try lia.
  - intros c Hc'. rewrite (by_id_mem (champ :: chs)). right. by apply list_elem_of_fmap_2.
  - intros g c Hg. by apply (by_id_elem (champ :: chs)).
  - intros _ _ g _. unfold copeland_of, losses_of. cbn -[foldl].
    rewrite Hc, Hl. change (dict_get_or [] g 0%Z) with 0%Z.
    assert (Hz : forall l d, dict_get_or d g 0%Z = 0%Z ->
      dict_get_or (foldl (fun d c => dict_setdefault d (generation_id c) 0%Z) d l) g 0%Z = 0%Z).
    { induction l as [|c l IH]; intros d Hd; cbn; [done|]. apply IH. unfold dict_setdefault.
      destruct (dict_mem d (generation_id c)); [done|]. unfold dict_get_or in *. rewrite dict_get_set.
      by case_decide. }
    rewrite (Hz (champ :: chs) []); done.
Qed.

Definition sw_fuel (s : Swiss) : nat :=
  match gs_final_result (sw_base s) with
  | Some _ => 0
  | None => S (Z.to_nat (sw_rounds_n s - Z.of_nat (sw_stage_index s)))
  end.

Lemma sw_unresolved champ chs s :
  sw_inv champ chs s -> sw_resolved s = false -> sw_live champ chs s /\ sw_pending s = [].
Proof.
  unfold sw_resolved. intros [?|[(Hc & _ & Hs & Hr & Hl & _)|[(Hc & _) [r Hr] _ _]]] Hres; [done| |].
  - by rewrite Hc, Hr, Hs, Hl in Hres.
  - cbn in Hc. by rewrite Hc, Hr in Hres.
Qed.

Lemma sw_next_cases champ chs s :
  sw_live champ chs s -> sw_pending s = [] ->
  exists ms s', sw_next s = Ok (ms, s') /\ (ms = [] -> sw_inv champ chs s')
    /\ forall rs, ms <> [] -> Forall2 answers ms rs ->
         exists s'', record_results rs s' = Ok s'' /\ sw_inv champ chs s'' /\ sw_fuel s'' < sw_fuel s.
Proof.
  intros Hl Hp. pose proof Hl as []. unfold sw_next. rewrite wl_champion0, Hp.
  destruct (Z.leb_spec (sw_rounds_n s) (Z.of_nat (sw_stage_index s))) as [Hge|Hlt].
  - destruct (sw_maybe_final_ok champ chs s Hl) as [(f & Hf & ->)|[Hno ->]].
    + eexists _, _. split_and!; [done|done|]. intros rs _ Hans.
      apply Forall2_cons_inv_l in Hans as (r & rs' & Hr & Hnil & ->).
      apply Forall2_nil_inv_l in Hnil as ->. eexists. split; [reflexivity|].
      pose proof (sw_final_done champ chs s f r Hl Hp Hge Hf Hr) as Hd.
      split; [by right; right|]. unfold sw_fuel. destruct (wd_decided _ _ _ Hd) as [r' ->].
      rewrite wl_no_result0. lia.
    + eexists _, _. split_and!; [done| |done]. intros _. right. left. by split_and!.
  - destruct (sw_schedule_live champ chs s Hl Hp Hlt) as (ms & s' & Hsch & Hl' & Hp' & Hlen & Hrn & Hst).
    exists ms, s'. split_and!; [done|intros ->; left; by split|]. intros rs Hne Hans.
    destruct (sw_batch champ chs s' ms rs Hl' Hp' Hans) as (s'' & Hs'' & Hl'' & Hp'' & Hb & Hrn').
    exists s''. split_and!; [done|by left|]. unfold sw_fuel.
    rewrite (wl_no_result _ _ _ Hl''), wl_no_result0, Hrn', Hrn.
    unfold rounds_begun in Hb. rewrite Hp'', Hp' in Hb. destruct ms as [|m ms]; [done|].
    change (match pending_of (m :: ms) with [] => _ | _ :: _ => _ end) with (S (sw_stage_index s')) in Hb.
    rewrite Hb, Hst. lia.
Qed.

#[export] Instance swiss_laws : SelectionLaws Swiss.
Proof.
  refine {| fresh := sw_fresh; fields _ := True; inv := sw_inv; fuel := sw_fuel |}.
  - intros champ chs s Hf _. eexists. split; [reflexivity|]. by apply sw_seed_inv.
  - intros champ chs s Hinv Hres. destruct (sw_unresolved champ chs s Hinv Hres) as [Hl Hp].
    destruct (sw_next_cases champ chs s Hl Hp) as (ms & s' & ? & ? & _). by exists ms, s'.
  - intros champ chs s ms s' rs Hinv Hres Hnext Hms Hans.
    destruct (sw_unresolved champ chs s Hinv Hres) as [Hl Hp].
    destruct (sw_next_cases champ chs s Hl Hp) as (ms0 & s0 & Hn & _ & Hall).
    cbn in Hnext. rewrite Hn in Hnext. injection Hnext as -> ->. by apply Hall.
  - intros champ chs s Hinv. apply final_ok_crowned.
    destruct Hinv as [[[] _]|[(Hc & Hchs & _ & Hr & _)|Hd]]; [| |apply Hd].
    + split_and!; [done|done|]. intros r. cbn. by rewrite wl_no_result0.
    + split_and!; [done|done|]. intros r. cbn. by rewrite Hr.
Defined.

(** A driven Swiss over challengers with ids of their own stops decided. *)
Lemma sw_stopped_done champ chs s :
  chs <> [] -> NoDup (generation_id <$> champ :: chs) -> stopped champ chs s -> sw_done champ chs s.
Proof.
  intros Hne Hnd Hst.
  assert (Hno : forall c, c ∈ chs -> not_champion champ (generation_id c) = true).
  { intros c Hc. unfold not_champion. apply negb_true_iff. rewrite fmap_cons in Hnd.
    apply NoDup_cons in Hnd as [Hnd _]. destruct (String.eqb_spec (generation_id c) (generation_id champ)) as [E|];
      [|done]. destruct Hnd. rewrite <-E. by apply list_elem_of_fmap_2. }
  assert (Hcl : forall t, ~ sw_closed champ chs t).
  { intros t (_ & _ & _ & _ & _ & Hall). destruct chs as [|c chs]; [done|].
    specialize (Hno c ltac:(set_solver)). rewrite Hall in Hno; set_solver. }
  destruct Hst as [[[Hl Hp]|[Hc|?]] Hstop]; [|by destruct (Hcl _ Hc)|done]. exfalso.
  destruct Hstop as [Hres|(s0 & Hinv0 & Hres0 & Hnext)].
  - cbn in Hres. destruct Hl. unfold sw_resolved in Hres.
    by rewrite wl_champion0, wl_no_result0, wl_unscheduled0 in Hres.
  - destruct (sw_unresolved champ chs s0 Hinv0 Hres0) as [Hl0 Hp0]. cbn in Hnext. unfold sw_next in Hnext.
    rewrite (wl_champion _ _ _ Hl0), Hp0 in Hnext.
    destruct (Z.leb_spec (sw_rounds_n s0) (Z.of_nat (sw_stage_index s0))) as [Hge|Hlt].
    + destruct (sw_maybe_final_ok champ chs s0 Hl0) as [(f & _ & He)|[Hall _]]; [congruence|].
      destruct chs as [|c chs]; [done|]. specialize (Hno c ltac:(set_solver)). rewrite Hall in Hno; set_solver.
    + destruct (sw_schedule_live champ chs s0 Hl0 Hp0 Hlt) as (ms & s' & Hsch & _ & _ & Hlen & _).
      rewrite Hsch in Hnext. injection Hnext as -> _. destruct chs; done.
Qed.

Lemma sw_rounds_kept : step_keeps sw_rounds_n.
Proof.
  split.
  - intros s ms s' Hn. cbn in Hn. unfold sw_next, sw_maybe_final, sw_schedule_round in Hn.
    repeat (case_match; simplify_eq/=; try done);
      apply result_bind_ok in Hn as (x & _ & Hn); repeat case_match; simplify_eq/=; try done.
    by apply result_bind_ok in Hn as (y & _ & [= _ <-]).
  - intros r s s' [= <-]. unfold sw_record. case_match; [done|]. case_match; [|done].
    destruct p. unfold sw_close_round. by case_match.
Qed.

Lemma sw_row_points s promoted_id row :
  row ∈ sw_standings s promoted_id ->
  sg_wins row = copeland_of s (sg_generation_id row) /\ sg_losses row = losses_of s (sg_generation_id row)
  /\ sg_generation_id row ∈ (generation_id <$> sw_field s).
Proof.
  unfold sw_standings, _ranked. intros (k & row0 & -> & Hlk)%elem_of_lookup_imap.
  apply list_lookup_fmap_Some in Hlk as (g & -> & Hg). split_and!; [done|done|].
  rewrite <-_standing_order_perm. by eapply list_elem_of_lookup_2.
Qed.
End SwissSpec.

(** A Swiss tournament over n >= 1 challengers with ids of their own terminates
    after its fixed number of rounds: floor((n + 1) / 2) duels a round and the
    crowning one.  In the final standings every contestant, champion included, was
    scored once a round (a win, a loss or the bye counted as a win), so its wins and
    losses add up to the rounds; only the gate can promote. *)
Theorem swiss_tournament `{PyFormat} `{PyRepr} `{Libm}
    request_field run (strategy : Swiss) champ chs n :
  sw_fresh strategy -> request_field (field_size strategy) = Ok (champ, chs) ->
  chs <> [] -> NoDup (generation_id <$> champ :: chs) -> answering run ->
  S (Z.to_nat (sw_rounds_n strategy)) < n ->
  exists s, evaluate_tournament request_field run n strategy = Some (Ok (champion s))
    /\ length (sd_matchups (champion s))
       = Z.to_nat (sw_rounds_n strategy) * Nat.div2 (S (length chs)) + 1
    /\ crowned_by_gate champ chs (champion s)
    /\ forall row, row ∈ sd_standings (champion s) ->
         (sg_wins row + sg_losses row = sw_rounds_n strategy)%Z.
Proof.
  intros Hf Hreq Hne Hnd Hrun Hn.
  destruct (@evaluate_tournament_drive Swiss _ swiss_laws request_field run strategy champ chs n
    Hf Hreq I Hrun) as (s0 & s & Hseed & Hdrive & Hs & Hst).
  { intros s [= <-]. cbn. unfold sw_fuel. cbn. destruct Hf as (_ & _ & -> & _ & _ & _ & -> & _). lia. }
  exists s. pose proof (sw_stopped_done champ chs s Hne Hnd Hst) as [Hfin _ Hfield (k & Hk & Hd & Hpts)].
  apply (drive_keeps sw_rounds_n _ _ _ _ _ sw_rounds_kept) in Hdrive. injection Hseed as <-.
  rewrite Hdrive in Hk. cbn in Hk. split_and!; [done| |by apply final_ok_crowned|].
  - rewrite <-Hk, Nat2Z.id. change (Nat.div2 (S (length chs))) with (pairings chs).
    rewrite <-Hd. exact (f_equal length (gate_champion_matchups s)).
  - intros row Hrow. destruct (gate_champion_standings s) as [o Ho].
    change (row ∈ sd_standings (gate_champion s)) in Hrow. rewrite Ho in Hrow.
    destruct (sw_row_points s o row Hrow) as (-> & -> & Hin). rewrite <-Hk. apply Hpts; [done|done|].
    by rewrite <-Hfield.
Qed.

Module SwissWitness.
#[local] Existing Instance plain_format.
#[local] Existing Instance plain_repr.
#[local] Existing Instance plain_libm.

Definition strategy : Swiss :=
  match swiss_init None with
  | Ok s => s
  | Raise _ => {| sw_base := blank_gate; sw_field := []; sw_by_id := []; sw_rounds_n := 1;
                  sw_stage_index := 0; sw_pending := []; sw_copeland := []; sw_scalar_sum := [];
                  sw_scalar_n := []; sw_round_matches := []; sw_scheduled_round := -1;
                  sw_leader := None |}
  end.

Lemma swiss_strategy_fresh : sw_fresh strategy.
Proof. apply (swiss_init_fresh None). vm_compute. reflexivity. Qed.

Lemma swiss_tournament_witness :
  exists s, evaluate_tournament request_field4 duel 6 strategy = Some (Ok (champion s))
    /\ length (sd_matchups (champion s)) = Z.to_nat (sw_rounds_n strategy) * 2 + 1.
Proof.
  destruct (swiss_tournament request_field4 duel strategy incumbent field4 6)
    as (s & Hs & Hlen & _).
  - apply swiss_strategy_fresh.
  - reflexivity.
  - discriminate.
  - repeat constructor; set_solver.
  - apply duel_answers.
  - vm_compute. lia.
  - exists s. exact (conj Hs Hlen).
Defined.
End SwissWitness.
