(* ===== verification/Racing.v ===== *)
(** Racing: successive-halving rungs on growing board slices, then the crowning
    duel, [src/zicato/selection/strategies/racing.py]. *)

From S2P Require Import Prelude PyFloat PyJson CoreTypes Gate Params Strategy Sha256.
From S2P Require Import DetectableEffect ChampionGate Bracket.

Definition PREFIX_SLICE_SCHEDULE : string := "prefix".
Definition SHUFFLED_SLICE_SCHEDULE : string := "shuffled_v1".
Definition SLICE_SCHEDULES : list string := [PREFIX_SLICE_SCHEDULE; SHUFFLED_SLICE_SCHEDULE].

(** The separators "\x1e" and "\x1c". *)
Definition record_separator : string := String (Ascii.ascii_of_nat 30) "".
Definition file_separator : string := String (Ascii.ascii_of_nat 28) "".

(** [key=lambda entry_id: (rank(entry_id), entry_id)] *)
Definition shuffle_lt (seed_material : string) (a b : string) : bool :=
  let ra := sha256 (seed_material +:+ file_separator +:+ a) in
  let rb := sha256 (seed_material +:+ file_separator +:+ b) in
  if bool_decide (ra = rb) then str_lt a b else bytes_lt ra rb.

Definition _shuffled_order (board_ids : list string) : list string :=
  match board_ids with
  | [] => []
  | _ =>
      let unique_ids := sorted_strings (remove_dups board_ids) in
      py_sorted (shuffle_lt (py_join record_separator unique_ids)) unique_ids
  end.

(** What the constructor reads from the parameters. *)
Record RacingKnobs := {
  rk_eta : Z;
  rk_board_fraction : float;
  rk_rung0_board_size : Z;
  rk_board_ids : list string;
  rk_slice_board_ids : list string;
  rk_matchup_budget_s : option float;
  rk_final_budget_s : option float;
  rk_noise_delta_std : option float;
}.

Record Racing := {
  rc_base : GateState;
  rc_knobs : RacingKnobs;
  rc_rung : nat;
  rc_alive : list Contestant;
  rc_pending : Pending;
  rc_rung_scalars : list (string * float);
  rc_champion_scalar : option float;
  rc_eliminated_round : list (string * nat);
  rc_rung_started : bool;
  rc_survivor : option Contestant;
}.

Definition racing_parameter_names : list string :=
  gate_parameter_names
  ++ ["eta"; "board_fraction"; "rung0_board_size"; "board_ids"; "slice_schedule";
      "matchup_budget_seconds"; "final_rung_budget_seconds"; "noise_floor_delta_std"].

(** [validate_authored_value(tuple[str, ...], raw, path=...)] and [tuple(raw)] *)
Definition decode_str_array `{PyRepr} (path : string) (raw : Json) : result (list string) :=
  match raw with
  | JArr items =>
      result_map (fun '(i, v) =>
        match v with
        | JStr s => Ok s
        | _ => Raise (ConfigurationError (path +:+ "[" +:+ pretty i +:+ "]") "type" "expected a string")
        end) (imap (fun (i : nat) v => (i, v)) items)
  | _ => Raise (ConfigurationError path "type" "expected an array")
  end.

Section RacingStrategy.
Context `{PyFormat} `{PyRepr} `{Libm}.

Definition racing_knobs (params : Params) : result RacingKnobs :=
  try eta <- _param_int params "eta" 2;
  try board_fraction <- _param_float params "board_fraction" 0.25%float;
  try rung0_board_size <- _param_int params "rung0_board_size" 0;
  try board_ids <- decode_str_array "tournament.params.board_ids"
                     (dict_get_or params "board_ids" (JArr []));
  let slice_schedule :=
    match dict_get_or params "slice_schedule" (JStr PREFIX_SLICE_SCHEDULE) with
    | JStr s => s
    | raw => py_repr raw
    end in
  ensure bool_decide (slice_schedule ∈ SLICE_SCHEDULES)
    orelse ValueError ("racing slice_schedule must be one of "
                       +:+ py_join ", " ((fun s => py_repr (JStr s)) <$> SLICE_SCHEDULES)
                       +:+ "; got " +:+ py_repr (JStr slice_schedule));
  let slice_board_ids :=
    if String.eqb slice_schedule SHUFFLED_SLICE_SCHEDULE then _shuffled_order board_ids
    else board_ids in
  try matchup_budget_s <- _param_opt_float params "matchup_budget_seconds";
  try final_budget <- _param_opt_float params "final_rung_budget_seconds";
  try noise_delta_std <- _param_opt_float params "noise_floor_delta_std";
  Ok {| rk_eta := Z.max 2 eta; rk_board_fraction := board_fraction;
        rk_rung0_board_size := rung0_board_size; rk_board_ids := board_ids;
        rk_slice_board_ids := slice_board_ids; rk_matchup_budget_s := matchup_budget_s;
        rk_final_budget_s := match final_budget with Some b => Some b | None => matchup_budget_s end;
        rk_noise_delta_std := noise_delta_std |}.

Definition racing_init (params : option Params) : result Racing :=
  try b <- gate_init "racing" racing_parameter_names 1 false params;
  try knobs <- racing_knobs (gs_params b);
  Ok {| rc_base := b; rc_knobs := knobs; rc_rung := 0; rc_alive := []; rc_pending := [];
        rc_rung_scalars := []; rc_champion_scalar := None; rc_eliminated_round := [];
        rc_rung_started := false; rc_survivor := None |}.

Definition rc_seed (champ : Contestant) (chs : list Contestant) (s : Racing) : Racing := {|
  rc_base := gs_seed champ chs (rc_base s); rc_knobs := rc_knobs s; rc_rung := rc_rung s;
  rc_alive := chs; rc_pending := rc_pending s; rc_rung_scalars := rc_rung_scalars s;
  rc_champion_scalar := rc_champion_scalar s; rc_eliminated_round := rc_eliminated_round s;
  rc_rung_started := rc_rung_started s; rc_survivor := rc_survivor s |}.

(** ** Board slices *)

Definition board_total (k : RacingKnobs) : Z := Z.of_nat (length (rk_board_ids k)).

(** [rung0_board_size], or [max(1, ceil(total * board_fraction))]: the ceiling of
    an infinite product raises. *)
Definition rung_base_size (k : RacingKnobs) : result Z :=
  if (0 <? rk_rung0_board_size k)%Z then Ok (rk_rung0_board_size k)
  else
    match float_ceil (fmul (float_of_Z (board_total k)) (rk_board_fraction k)) with
    | Some size => Ok (Z.max 1 size)
    | None => Raise OverflowError
    end.

Definition board_size_at_rung (k : RacingKnobs) (rung : nat) : result Z :=
  if (board_total k =? 0)%Z then Ok 0%Z
  else
    try base <- rung_base_size k;
    Ok (Z.min (board_total k) (base * rk_eta k ^ Z.of_nat rung)).

Definition _rung_board_subset (s : Racing) : result (option (list string)) :=
  match rk_board_ids (rc_knobs s) with
  | [] => Ok None
  | _ =>
      try size <- board_size_at_rung (rc_knobs s) (rc_rung s);
      Ok (Some (take (Z.to_nat size) (rk_slice_board_ids (rc_knobs s))))
  end.

(** [a / b] on nonnegative integers. *)
Definition Z_truediv (a b : Z) : float :=
  match a, b with Zpos a, Zpos b => int_truediv a b | _, _ => f0 end.

Definition _rung_fraction (s : Racing) : result float :=
  if (board_total (rc_knobs s) =? 0)%Z then Ok f1
  else
    try size <- board_size_at_rung (rc_knobs s) (rc_rung s);
    Ok (Z_truediv size (board_total (rc_knobs s))).

Definition _is_final_rung (s : Racing) : result bool :=
  try fraction <- _rung_fraction s;
  Ok (fle f1 fraction || (length (rc_alive s) <=? 1)).

Definition _rung_detectable_gap (s : Racing) : result (option float) :=
  match rk_noise_delta_std (rc_knobs s) with
  | None => Ok None
  | Some delta_std =>
      let total := board_total (rc_knobs s) in
      try size <- board_size_at_rung (rc_knobs s) (rc_rung s);
      if (total =? 0)%Z || (size =? 0)%Z then Ok None
      else
        let unit_sd := fmul delta_std (fsqrt (fdiv (float_of_Z total) 2.0%float)) in
        Ok (minimum_detectable_effect unit_sd (size * gs_replicates (rc_base s)) MDE_ALPHA MDE_POWER)
  end.

(** ** Scheduling *)

Definition rung_id (rung slot : nat) : string := "rung" +:+ pretty rung +:+ "_m" +:+ pretty slot.

Definition rung_matchup (champ : Contestant) (subset : option (list string)) (s : Racing)
    (slot : nat) (challenger : Contestant) : Matchup := {|
  mu_id := rung_id (rc_rung s) slot; mu_left := champ; mu_right := challenger;
  mu_board_subset := subset; mu_replicates := gs_replicates (rc_base s);
  mu_stage_index := rc_rung s; mu_bracket_slot := "";
  mu_budget_seconds := rk_matchup_budget_s (rc_knobs s) |}.

Definition _schedule_rung (champ : Contestant) (s : Racing) : result (list Matchup * Racing) :=
  try subset <- _rung_board_subset s;
  let matchups := imap (rung_matchup champ subset s) (rc_alive s) in
  Ok (matchups,
      {| rc_base := rc_base s; rc_knobs := rc_knobs s; rc_rung := rc_rung s; rc_alive := rc_alive s;
         rc_pending := add_pending (rc_pending s) matchups; rc_rung_scalars := [];
         rc_champion_scalar := rc_champion_scalar s;
         rc_eliminated_round := rc_eliminated_round s; rc_rung_started := true;
         rc_survivor := rc_survivor s |}).

(** [key=lambda c: (scalars.get(c.generation_id, inf), c.generation_id)] *)
Definition by_scalar_lt (scalars : list (string * float)) (a b : Contestant) : bool :=
  let sa := dict_get_or scalars (generation_id a) finf in
  let sb := dict_get_or scalars (generation_id b) finf in
  if feq sa sb then str_lt (generation_id a) (generation_id b) else flt sa sb.

Definition _pick_survivor (s : Racing) : option Contestant :=
  py_min (by_scalar_lt (gs_scalars (rc_base s))) (rc_alive s).

Definition rc_set_survivor (c : option Contestant) (s : Racing) : Racing := {|
  rc_base := rc_base s; rc_knobs := rc_knobs s; rc_rung := rc_rung s; rc_alive := rc_alive s;
  rc_pending := rc_pending s; rc_rung_scalars := rc_rung_scalars s;
  rc_champion_scalar := rc_champion_scalar s; rc_eliminated_round := rc_eliminated_round s;
  rc_rung_started := rc_rung_started s; rc_survivor := c |}.

Definition rc_with_base (b : GateState) (s : Racing) : Racing := {|
  rc_base := b; rc_knobs := rc_knobs s; rc_rung := rc_rung s; rc_alive := rc_alive s;
  rc_pending := rc_pending s; rc_rung_scalars := rc_rung_scalars s;
  rc_champion_scalar := rc_champion_scalar s; rc_eliminated_round := rc_eliminated_round s;
  rc_rung_started := rc_rung_started s; rc_survivor := rc_survivor s |}.

Definition racing_final (champ survivor : Contestant) (s : Racing) : Matchup := {|
  mu_id := "racing-final"; mu_left := champ; mu_right := survivor; mu_board_subset := None;
  mu_replicates := gs_replicates (rc_base s); mu_stage_index := S (rc_rung s);
  mu_bracket_slot := ""; mu_budget_seconds := rk_final_budget_s (rc_knobs s) |}.

Definition rc_maybe_final (champ : Contestant) (s : Racing) : list Matchup * Racing :=
  match gs_final_scheduled (rc_base s), rc_survivor s with
  | false, Some survivor =>
      ([racing_final champ survivor s], rc_with_base (gs_schedule_final (rc_base s)) s)
  | _, _ => ([], s)
  end.

Definition rc_next (s : Racing) : result (list Matchup * Racing) :=
  match gs_champion (rc_base s), rc_pending s with
  | None, _ | _, _ :: _ => Ok ([], s)
  | Some champ, [] =>
      match rc_survivor s, rc_alive s with
      | Some _, _ => Ok (rc_maybe_final champ s)
      | None, [] => Ok ([], s)
      | None, _ :: _ =>
          try final <- _is_final_rung s;
          if final then Ok (rc_maybe_final champ (rc_set_survivor (_pick_survivor s) s))
          else _schedule_rung champ s
      end
  end.

(** ** Recording *)

(** The audit, the challenger's scalar and the champion's best running scalar. *)
Definition rc_log (res : MatchupResult) (s : Racing) : Racing := {|
  rc_base := gs_log res (dict_set (gs_scalars (rc_base s)) (mr_right_id res) (right_scalar res))
               (rc_base s);
  rc_knobs := rc_knobs s; rc_rung := rc_rung s; rc_alive := rc_alive s; rc_pending := rc_pending s;
  rc_rung_scalars := rc_rung_scalars s;
  rc_champion_scalar :=
    match gs_champion (rc_base s) with
    | Some c =>
        if String.eqb (mr_left_id res) (generation_id c) then
          match rc_champion_scalar s with
          | Some best => if flt (left_scalar res) best then Some (left_scalar res) else Some best
          | None => Some (left_scalar res)
          end
        else rc_champion_scalar s
    | None => rc_champion_scalar s
    end;
  rc_eliminated_round := rc_eliminated_round s; rc_rung_started := rc_rung_started s;
  rc_survivor := rc_survivor s |}.

(** [while keep_n < len(ranked)]: how many more candidates the rung's sample cannot
    separate from the cut line; [rest] is [ranked[keep_n:]]. *)
Fixpoint unresolved (scalar_of : Contestant -> float) (line gap : float) (rest : list Contestant)
    : nat :=
  match rest with
  | [] => 0
  | c :: rest =>
      if fle gap (fsub (scalar_of c) line) then 0 else S (unresolved scalar_of line gap rest)
  end.

Definition rung_scalar (s : Racing) (c : Contestant) : float :=
  dict_get_or (rc_rung_scalars s) (generation_id c) finf.

(** [max(1, int(math.floor(len(ranked) / eta)))] *)
Definition keep_by_rank (ranked : nat) (eta : Z) : nat :=
  Z.to_nat (Z.max 1 (from_option id 0%Z (float_floor (Z_truediv (Z.of_nat ranked) eta)))).

(** The count the cut keeps. *)
Definition keep_count (ranked : list Contestant) (gap : option float) (s : Racing) : nat :=
  let keep_n := keep_by_rank (length ranked) (rk_eta (rc_knobs s)) in
  match gap, ranked !! (keep_n - 1) with
  | Some gap, Some last =>
      keep_n + unresolved (rung_scalar s) (rung_scalar s last) gap (drop keep_n ranked)
  | _, _ => keep_n
  end.

Definition rung_record (ranked survivors cut : list Contestant) (fraction : float) (rung : nat)
    : RoundRecord := {|
  rr_stage_index := rung;
  rr_label := "Rung " +:+ pretty rung;
  rr_matches :=
    [{| mc_match_id := "rung" +:+ pretty rung; mc_competitors := generation_id <$> ranked;
        mc_winner := ""; mc_decision := ""; mc_delta_scalar := None; mc_bracket_slot := "";
        mc_bye := false; mc_survivors := generation_id <$> survivors;
        mc_cut := generation_id <$> cut; mc_board_fraction := Some fraction; mc_pending := false;
        mc_live_progress := [] |}] |}.

Definition rung_ranking (s : Racing) : list Contestant :=
  py_sorted (by_scalar_lt (rc_rung_scalars s)) (rc_alive s).

(** The state once the first [keep_n] of the ranking advance. *)
Definition cut_at (keep_n : nat) (fraction : float) (s : Racing) : Racing :=
  let ranked := rung_ranking s in
  let survivors := take keep_n ranked in
  let cut := drop keep_n ranked in
  {| rc_base := gs_add_record (rung_record ranked survivors cut fraction (rc_rung s)) (rc_base s);
     rc_knobs := rc_knobs s; rc_rung := S (rc_rung s); rc_alive := survivors;
     rc_pending := rc_pending s; rc_rung_scalars := rc_rung_scalars s;
     rc_champion_scalar := rc_champion_scalar s;
     rc_eliminated_round :=
       foldl (fun d c => dict_set d (generation_id c) (rc_rung s)) (rc_eliminated_round s) cut;
     rc_rung_started := false; rc_survivor := rc_survivor s |}.

Definition _apply_cut (s : Racing) : result Racing :=
  try gap <- _rung_detectable_gap s;
  try fraction <- _rung_fraction s;
  Ok (cut_at (keep_count (rung_ranking s) gap s) fraction s).

(** One settled duel of the rung. *)
Definition rc_settle (res : MatchupResult) (s : Racing) : Racing := {|
  rc_base := rc_base s; rc_knobs := rc_knobs s; rc_rung := rc_rung s; rc_alive := rc_alive s;
  rc_pending := dict_del (rc_pending s) (mr_id res);
  rc_rung_scalars := dict_set (rc_rung_scalars s) (mr_right_id res) (right_scalar res);
  rc_champion_scalar := rc_champion_scalar s; rc_eliminated_round := rc_eliminated_round s;
  rc_rung_started := rc_rung_started s; rc_survivor := rc_survivor s |}.

Definition rc_record (res : MatchupResult) (s : Racing) : result Racing :=
  let s := rc_log res s in
  match _capture_final_result "racing-final" res (rc_base s) with
  | Some b => Ok (rc_with_base b s)
  | None =>
      match dict_get (rc_pending s) (mr_id res) with
      | None => Ok s
      | Some _ =>
          let s := rc_settle res s in
          match rc_pending s with
          | [] => _apply_cut s
          | _ :: _ => Ok s
          end
      end
  end.

Definition rc_resolved (s : Racing) : bool :=
  match gs_champion (rc_base s), gs_final_result (rc_base s) with
  | None, _ | _, Some _ => true
  | Some _, None => match gs_challengers (rc_base s) with [] => true | _ :: _ => false end
  end.

Definition rc_is_eliminated (s : Racing) (gid : string) : bool :=
  dict_mem (rc_eliminated_round s) gid.

(** ** The live projection *)

Definition lane (s : Racing) (champion_id : option string) (total : Z) (gid : string) : LaneProgress :=
  let scalar :=
    if bool_decide (Some gid = champion_id) then rc_champion_scalar s
    else dict_get (gs_scalars (rc_base s)) gid in
  {| lane_inflight := 1;
     lane_boards_total := if (0 <? total)%Z then Some total else None;
     lane_projected_scalar := scalar;
     lane_projected := match scalar with Some _ => Some true | None => None end |}.

Definition _live_progress (s : Racing) : result (list (string * LaneProgress)) :=
  try total <- board_size_at_rung (rc_knobs s) (rc_rung s);
  let champion_id := generation_id <$> gs_champion (rc_base s) in
  let lanes := (match champion_id with Some c => [c] | None => [] end)
               ++ ((fun '(_, (_, r)) => generation_id r) <$> rc_pending s) in
  Ok (foldl (fun d gid => dict_set d gid (lane s champion_id total gid)) [] lanes).

Definition rc_pending_stage_round (s : Racing) : result (option RoundRecord) :=
  match rc_pending s with
  | [] => Ok None
  | pending =>
      try fraction <- _rung_fraction s;
      try live_progress <- _live_progress s;
      Ok (Some {| rr_stage_index := rc_rung s;
                  rr_label := "Rung " +:+ pretty (rc_rung s);
                  rr_matches :=
                    imap (fun slot '(mid, (l, r)) =>
                      pending_match_record mid [generation_id l; generation_id r] ""
                        (Some fraction) (if slot =? 0 then Some live_progress else None)) pending |})
  end.

#[export] Instance racing_gate : ChampionGate Racing := {|
  base := rc_base;
  _final_match_id := "racing-final";
  _final_label := "Champion gate";
  _final_bracket_slot := "";
  _final_board_fraction := Some f1;
  _finalist := rc_survivor;
  _final_stage_index s := S (rc_rung s);
  _no_promotion_reason _ := "no racing survivor cleared the full-board champion gate";
  _pending_stage_round := rc_pending_stage_round;
  _standings s := gate_standings (rc_base s) (rc_is_eliminated s);
|}.

#[export] Instance racing_strategy : SelectionStrategy Racing := {|
  field_size s := gs_field_size (rc_base s);
  replicates s := gs_replicates (rc_base s);
  seed champ chs s := Ok (rc_seed champ chs s);
  next_matchups := rc_next;
  record_result := rc_record;
  resolved := rc_resolved;
  champion := gate_champion;
  rounds := gate_rounds;
  _pending_round := gate_pending_round;
  _live_standings s := _standings s None;
|}.
End RacingStrategy.
