(* ===== verification/RacingSpec.v ===== *)
(** Racing: the board slices grow to the whole board, a rung cuts by rank only what
    its sample resolves, and the race terminates within the logarithm of the board. *)

From S2P Require Import Prelude PyFloat PyJson CoreTypes Gate Params Strategy Sha256.
From S2P Require Import DetectableEffect ChampionGate Driver Bracket Racing.

(** ** The shuffled schedule *)

Lemma sorted_unique_ext l l' :
  (forall x, x ∈ l <-> x ∈ l') -> sorted_strings (remove_dups l) = sorted_strings (remove_dups l').
Proof.
  intros Heq. apply (py_sorted_perm_eq str_lt (fun _ => True)); [exact str_lt_total|by apply Forall_true|].
  apply NoDup_Permutation; [apply NoDup_remove_dups..|]. intros x. by rewrite !elem_of_remove_dups.
Qed.

(** The shuffled schedule is a pure function of the set of entry ids: neither
    the authored order of the board nor a repeated id changes it, and it lists every
    id exactly once. *)
Theorem shuffled_order_canonical l l' :
  (forall x, x ∈ l <-> x ∈ l') ->
  _shuffled_order l = _shuffled_order l' /\ NoDup (_shuffled_order l)
  /\ forall x, x ∈ _shuffled_order l <-> x ∈ l.
Proof.
  intros Heq. assert (Hshape : forall l, _shuffled_order l =
    let ids := sorted_strings (remove_dups l) in py_sorted (shuffle_lt (py_join record_separator ids)) ids).
  { clear. by intros []. }
  rewrite !Hshape. cbn zeta. rewrite <-(sorted_unique_ext l l' Heq). split_and!; [done| |].
  - apply NoDup_py_sorted, NoDup_py_sorted, NoDup_remove_dups.
  - intros x. unfold sorted_strings. by rewrite !elem_of_py_sorted, elem_of_remove_dups.
Qed.

(** ** Board slices *)

Lemma rung_base_size_pos k b : rung_base_size k = Ok b -> (1 <= b)%Z.
Proof.
  unfold rung_base_size. destruct (Z.ltb_spec 0 (rk_rung0_board_size k)).
  - intros [= <-]. lia.
  - destruct (float_ceil _); [|done]. intros [= <-]. lia.
Qed.

(** The knobs of a constructed strategy whose rung-0 size does not overflow. *)
Definition knobs_ok (k : RacingKnobs) : Prop :=
  (2 <= rk_eta k)%Z /\ exists b, rung_base_size k = Ok b.

(** The rungs after which every slice is the whole board. *)
Definition max_rungs (k : RacingKnobs) : nat := Z.to_nat (Z.log2_up (board_total k)).

Lemma board_size_ok k rung :
  knobs_ok k -> exists size, board_size_at_rung k rung = Ok size /\ (0 <= size <= board_total k)%Z
    /\ (board_total k <> 0 -> 1 <= size)%Z /\ (max_rungs k <= rung -> size = board_total k).
Proof.
  intros (He & b & Hb). pose proof (rung_base_size_pos _ _ Hb) as Hb1. unfold board_size_at_rung.
  destruct (Z.eqb_spec (board_total k) 0) as [E|E]; [exists 0%Z; split_and!; [done|lia..]|].
  rewrite Hb. cbn [result_bind]. eexists. split; [reflexivity|].
  assert (0 <= board_total k)%Z by (unfold board_total; lia).
  pose proof (Z.pow_pos_nonneg (rk_eta k) (Z.of_nat rung) ltac:(lia) ltac:(lia)).
  split_and!; [nia|nia|nia|]. intros Hr. apply Z.min_l.
  assert (board_total k <= 2 ^ Z.of_nat rung)%Z.
  { destruct (Z.eq_dec (board_total k) 1%Z) as [->|].
    - pose proof (Z.pow_pos_nonneg 2 (Z.of_nat rung) ltac:(lia) ltac:(lia)). lia.
    - apply Z.log2_up_le_pow2; [lia|]. unfold max_rungs in Hr.
      pose proof (Z.log2_up_nonneg (board_total k)). lia. }
  pose proof (Z.pow_le_mono_l 2 (rk_eta k) (Z.of_nat rung) ltac:(lia)). nia.
Qed.

Lemma take_prefix_le {A} (l : list A) n m : n <= m -> take n l `prefix_of` take m l.
Proof.
  intros Hle. exists (drop n (take m l)).
  by rewrite <-(take_drop n (take m l)) at 1; rewrite take_take, Nat.min_l by done.
Qed.

(** The slices of consecutive rungs: each is nonempty and within the board, the
    next is the board-capped [eta]-fold, so the entries of a rung are a prefix of
    the next rung's, and after ceil(log2 |board|) rungs the slice is the board. *)
Theorem board_slices_escalate k rung size :
  (2 <= rk_eta k)%Z -> board_total k <> 0%Z -> board_size_at_rung k rung = Ok size ->
  (1 <= size <= board_total k)%Z
  /\ (exists size', board_size_at_rung k (S rung) = Ok size'
      /\ size' = Z.min (board_total k) (rk_eta k * size)
      /\ take (Z.to_nat size) (rk_slice_board_ids k)
         `prefix_of` take (Z.to_nat size') (rk_slice_board_ids k))
  /\ (Z.log2_up (board_total k) <= Z.of_nat rung -> size = board_total k)%Z.
Proof.
  intros He Ht Hs. assert (Hok : knobs_ok k).
  { split; [done|]. unfold board_size_at_rung in Hs. rewrite (proj2 (Z.eqb_neq _ _) Ht) in Hs.
    apply result_bind_ok in Hs as (b & Hb & _). by exists b. }
  destruct (board_size_ok k rung Hok) as (size0 & Hs0 & Hr & H1 & Hm).
  rewrite Hs in Hs0. injection Hs0 as <-. split_and!; [lia|lia| |].
  - destruct (board_size_ok k (S rung) Hok) as (size' & Hs' & _). exists size'. split; [done|].
    unfold board_size_at_rung in Hs, Hs'. rewrite (proj2 (Z.eqb_neq _ _) Ht) in Hs, Hs'.
    destruct Hok as (_ & b & Hb). rewrite Hb in Hs, Hs'. cbn [result_bind] in Hs, Hs'.
    pose proof (rung_base_size_pos _ _ Hb). injection Hs as Hs. injection Hs' as Hs'.
    rewrite Nat2Z.inj_succ, Z.pow_succ_r in Hs' by lia.
    assert (0 <= board_total k)%Z by (unfold board_total; lia).
    assert (size' = Z.min (board_total k) (rk_eta k * size)) as Heq by nia.
    split; [done|]. apply take_prefix_le. nia.
  - intros Hle. apply Hm. unfold max_rungs. lia.
Qed.

Lemma rung_fraction_ok s :
  knobs_ok (rc_knobs s) -> exists f, _rung_fraction s = Ok f
    /\ (max_rungs (rc_knobs s) <= rc_rung s -> f = f1).
Proof.
  intros Hok. unfold _rung_fraction.
  destruct (Z.eqb_spec (board_total (rc_knobs s)) 0) as [E|E]; [by exists f1|].
  destruct (board_size_ok (rc_knobs s) (rc_rung s) Hok) as (size & -> & Hr & H1 & Hm). cbn [result_bind].
  eexists. split; [reflexivity|]. intros Hle. rewrite Hm by done. unfold Z_truediv.
  destruct (board_total (rc_knobs s)); [done|apply int_truediv_same|lia].
Qed.

(** ** The cut *)

Lemma by_scalar_lt_swo scalars :
  StrictWeakOrder (by_scalar_lt scalars)
    (fun c => is_nan (dict_get_or scalars (generation_id c) finf) = false).
Proof.
  set (key := fun c => dict_get_or scalars (generation_id c) finf).
  apply (lex_swo (fun a b => feq (key a) (key b)) (fun a b => flt (key a) (key b))
           (fun a b => str_lt (generation_id a) (generation_id b))).
  - exact (swo_on key flt _ flt_swo).
  - eapply swo_weaken; [|exact (swo_on generation_id str_lt _ str_lt_swo)]. done.
  - intros x y Hx Hy. by apply feq_flt_total.
Qed.

Section RacingSpec.
Context `{PyFormat} `{PyRepr} `{Libm}.

Lemma keep_by_rank_pos n eta : 1 <= keep_by_rank n eta.
Proof. unfold keep_by_rank. lia. Qed.

Lemma keep_count_ge ranked gap s :
  keep_by_rank (length ranked) (rk_eta (rc_knobs s)) <= keep_count ranked gap s.
Proof. unfold keep_count. destruct gap; [|lia]. case_match; lia. Qed.

(** Where the walk past the cut line stops. *)
Lemma unresolved_spec scalar_of line gap rest :
  let n := unresolved scalar_of line gap rest in
  n <= length rest
  /\ (forall c, c ∈ take n rest -> fle gap (fsub (scalar_of c) line) = false)
  /\ (forall c cut, drop n rest = c :: cut -> fle gap (fsub (scalar_of c) line) = true).
Proof.
  induction rest as [|c rest IH]; cbn.
  { split_and!; [done|set_solver|done]. }
  destruct (fle gap (fsub (scalar_of c) line)) eqn:E; cbn.
  - split_and!; [lia|set_solver|by intros ? ? [= <- <-]].
  - destruct IH as (Hl & Ht & Hd). split_and!; [lia| |done].
    intros c' [->|Hc]%elem_of_cons; [done|auto].
Qed.

(** With a gap, the walk starts from the last candidate kept by rank. *)
Lemma keep_count_gap ranked gap s last :
  let keep := keep_by_rank (length ranked) (rk_eta (rc_knobs s)) in
  let n := keep_count ranked (Some gap) s in
  let trails c := fle gap (fsub (rung_scalar s c) (rung_scalar s last)) in
  ranked !! (keep - 1) = Some last ->
  (forall c, c ∈ drop keep (take n ranked) -> trails c = false)
  /\ (forall c, head (drop n ranked) = Some c -> trails c = true).
Proof.
  intros keep n trails El. subst n trails. unfold keep_count. fold keep. rewrite El.
  destruct (unresolved_spec (rung_scalar s) (rung_scalar s last) gap (drop keep ranked)) as (_ & Ht & Hd).
  set (n := unresolved _ _ _ _) in *. rewrite <-take_drop_commute, <-drop_drop. split; [exact Ht|].
  intros c Hc. destruct (drop n (drop keep ranked)) as [|c' cut] eqn:E; [done|].
  injection Hc as ->. by eapply Hd.
Qed.

Lemma _apply_cut_ok s s' :
  _apply_cut s = Ok s' ->
  exists gap, _rung_detectable_gap s = Ok gap
    /\ let n := keep_count (rung_ranking s) gap s in
       rc_alive s' = take n (rung_ranking s)
       /\ rc_eliminated_round s'
          = foldl (fun d c => dict_set d (generation_id c) (rc_rung s)) (rc_eliminated_round s)
              (drop n (rung_ranking s))
       /\ rc_rung s' = S (rc_rung s).
Proof.
  unfold _apply_cut. intros (gap & Hgap & Hrest)%result_bind_ok.
  apply result_bind_ok in Hrest as (f & _ & [= <-]). by exists gap.
Qed.

Lemma sorted_app_order {A} (R : A -> A -> Prop) l1 l2 x y :
  StronglySorted R (l1 ++ l2) -> x ∈ l1 -> y ∈ l2 -> R x y.
Proof.
  induction l1 as [|z l1 IH]; cbn; [set_solver|]. intros [Hs Hf]%StronglySorted_inv Hx Hy.
  rewrite Forall_forall in Hf. apply elem_of_cons in Hx as [->|Hx]; [apply Hf; set_solver|auto].
Qed.

Lemma dict_get_foldl_set {V} (cs : list Contestant) (v : V) d c :
  c ∈ cs -> dict_get (foldl (fun d c => dict_set d (generation_id c) v) d cs) (generation_id c) = Some v.
Proof.
  revert d. induction cs as [|c0 cs IH] using rev_ind; [set_solver|]. intros d Hc.
  rewrite foldl_app. cbn. rewrite dict_get_set. case_decide; [done|].
  apply IH. apply elem_of_app in Hc as [?|Hc%list_elem_of_singleton]; [done|congruence].
Qed.
End RacingSpec.

(** C31.  The cut of a rung whose scalars are numbers.  The survivors and the cut split the
    field; no cut contestant ranks before a survivor; each one is recorded as eliminated at
    this rung, and the next rung follows.  How many survive is fixed: at least
    floor(n / eta) and at least one.  Without a measured noise floor that many and no more.
    With one, a contestant past that line survives only if it trails the last contestant
    kept by rank by less than the rung's detectable gap, and the best of the cut trails it
    by the gap at least: nobody who trails by the gap advances, and nobody who may still be
    separated is cut. *)
Theorem apply_cut_sound `{Libm} s s' :
  _apply_cut s = Ok s' ->
  (forall c, c ∈ rc_alive s -> is_nan (rung_scalar s c) = false) ->
  let keep := keep_by_rank (length (rc_alive s)) (rk_eta (rc_knobs s)) in
  exists cut, rc_alive s' ++ cut = rung_ranking s /\ rung_ranking s ≡ₚ rc_alive s
    /\ min keep (length (rc_alive s)) <= length (rc_alive s') /\ 1 <= keep
    /\ (forall x y, x ∈ rc_alive s' -> y ∈ cut -> by_scalar_lt (rc_rung_scalars s) y x = false)
    /\ (forall c, c ∈ cut -> dict_get (rc_eliminated_round s') (generation_id c) = Some (rc_rung s))
    /\ rc_rung s' = S (rc_rung s)
    /\ (_rung_detectable_gap s = Ok None -> length (rc_alive s') = min keep (length (rc_alive s)))
    /\ (forall gap last, _rung_detectable_gap s = Ok (Some gap) ->
        rung_ranking s !! (keep - 1) = Some last ->
        let trails c := fle gap (fsub (rung_scalar s c) (rung_scalar s last)) in
        (forall c, c ∈ drop keep (rc_alive s') -> trails c = false)
        /\ (forall c, head cut = Some c -> trails c = true)).
Proof.
  intros Hcut Hnan keep. destruct (_apply_cut_ok s s' Hcut) as (gap & Hgap & Ha & He & Hr).
  set (n := keep_count (rung_ranking s) gap s) in *. exists (drop n (rung_ranking s)).
  assert (Hp : rung_ranking s ≡ₚ rc_alive s) by apply py_sorted_perm.
  pose proof (Permutation_length Hp) as Hlen.
  pose proof (keep_count_ge (rung_ranking s) gap s) as Hge. rewrite Hlen in Hge. fold keep n in Hge.
  rewrite Ha, He.
  split_and!; [apply take_drop|done|rewrite length_take, Hlen; lia|apply keep_by_rank_pos| | |done| |].
  - intros x y Hx Hy.
    eapply (sorted_app_order (not_after (by_scalar_lt (rc_rung_scalars s)))); [|done|exact Hy].
    rewrite take_drop. eapply py_sorted_sorted; [apply by_scalar_lt_swo|]. by apply Forall_forall.
  - intros c Hc. by apply dict_get_foldl_set.
  - intros Hg. rewrite Hgap in Hg. injection Hg as ->.
    rewrite length_take. unfold n, keep_count. fold keep. by rewrite Hlen.
  - intros g last Hg Hl. rewrite Hgap in Hg. injection Hg as ->. unfold n, keep in *.
    rewrite <-Hlen in *. by apply keep_count_gap.
Qed.

(** ** The race *)

Section RacingLaws.
Context `{PyFormat} `{PyRepr} `{Libm}.

(** The rungs a survivor has been scheduled in. *)
Definition rungs_begun (s : Racing) : nat :=
  match rc_pending s with [] => rc_rung s | _ => S (rc_rung s) end.

(** The challengers are the survivors and the eliminated, each once. *)
Definition field_split (chs : list Contestant) (s : Racing) : Prop :=
  NoDup (generation_id <$> chs) ->
  (generation_id <$> rc_alive s) ++ dict_keys (rc_eliminated_round s) ≡ₚ generation_id <$> chs.

Record rc_live (champ : Contestant) (chs : list Contestant) (s : Racing) : Prop := {
  rl_champion : gs_champion (rc_base s) = Some champ;
  rl_challengers : gs_challengers (rc_base s) = chs;
  rl_unscheduled : gs_final_scheduled (rc_base s) = false;
  rl_no_result : gs_final_result (rc_base s) = None;
  rl_knobs : knobs_ok (rc_knobs s);
  rl_no_survivor : rc_survivor s = None;
  rl_alive : forall c, c ∈ rc_alive s -> c ∈ chs;
  rl_nonempty : chs <> [] -> rc_alive s <> [];
  rl_rungs : rungs_begun s <= max_rungs (rc_knobs s);
  rl_records : length (gs_records (rc_base s)) = rc_rung s;
  rl_field : field_split chs s;
}.

Lemma dict_keys_foldl_set {V} (cs : list Contestant) (v : V) d :
  NoDup (dict_keys d ++ (generation_id <$> cs)) ->
  dict_keys (foldl (fun d c => dict_set d (generation_id c) v) d cs) = dict_keys d ++ (generation_id <$> cs).
Proof.
  revert d. induction cs as [|c cs IH]; intros d Hnd; cbn; [by rewrite app_nil_r|].
  assert (generation_id c ∉ dict_keys d) as Hc.
  { apply NoDup_app in Hnd as (_ & Hd & _). intros Hc. apply (Hd _ Hc). set_solver. }
  assert (Hk : dict_keys (dict_set d (generation_id c) v) = dict_keys d ++ [generation_id c])
    by (by rewrite dict_keys_set, decide_False).
  rewrite IH, Hk by (rewrite Hk, <-app_assoc; done). by rewrite <-app_assoc.
Qed.

Lemma cut_field chs s s' : field_split chs s -> _apply_cut s = Ok s' -> field_split chs s'.
Proof.
  intros Hf Hc Hnd. apply _apply_cut_ok in Hc as (gap & _ & Ha & He & _). specialize (Hf Hnd). rewrite Ha, He.
  set (n := keep_count _ _ _) in *.
  assert (Hp : (generation_id <$> take n (rung_ranking s)) ++ (generation_id <$> drop n (rung_ranking s))
    ≡ₚ generation_id <$> rc_alive s).
  { rewrite <-fmap_app, take_drop. apply fmap_Permutation, py_sorted_perm. }
  assert (Hall : (generation_id <$> take n (rung_ranking s))
    ++ dict_keys (rc_eliminated_round s) ++ (generation_id <$> drop n (rung_ranking s))
    ≡ₚ generation_id <$> chs).
  { rewrite <-Hf, <-Hp, <-!app_assoc. apply Permutation_app_head, Permutation_app_comm. }
  rewrite dict_keys_foldl_set; [done|]. rewrite <-Hall in Hnd. by apply NoDup_app in Hnd as (_ & _ & ?).
Qed.

(** A cut of a live state runs, and leaves a nonempty field. *)
Lemma cut_live champ chs s :
  rc_live champ chs s -> rc_pending s = [] -> rc_rung s < max_rungs (rc_knobs s) ->
  exists s', _apply_cut s = Ok s' /\ rc_live champ chs s' /\ rc_pending s' = []
    /\ rc_rung s' = S (rc_rung s) /\ rc_knobs s' = rc_knobs s
    /\ length (gs_audit (rc_base s')) = length (gs_audit (rc_base s)).
Proof.
  intros [] Hp Hlt. destruct (rung_fraction_ok s rl_knobs0) as (f & Hf & _).
  assert (exists gap, _rung_detectable_gap s = Ok gap) as [gap Hgap].
  { unfold _rung_detectable_gap. destruct (rk_noise_delta_std _); [|by eexists].
    destruct (board_size_ok (rc_knobs s) (rc_rung s) rl_knobs0) as (size & -> & _). cbn. case_match; by eexists. }
  assert (E : _apply_cut s = Ok (cut_at (keep_count (rung_ranking s) gap s) f s))
    by (unfold _apply_cut; by rewrite Hgap, Hf).
  pose proof (cut_field chs s _ rl_field0 E) as Hfield'.
  assert (Hperm : rung_ranking s ≡ₚ rc_alive s) by apply py_sorted_perm.
  eexists. split; [exact E|].
  split_and!; try done. split; unfold rungs_begun; cbn; rewrite ?Hp; try done.
  - intros c Hc. apply rl_alive0. rewrite <-Hperm. apply elem_of_take in Hc as (i & Hi & _). by eapply list_elem_of_lookup_2.
  - intros Hne. specialize (rl_nonempty0 Hne). pose proof (keep_count_ge (rung_ranking s) gap s) as Hge.
    pose proof (keep_by_rank_pos (length (rung_ranking s)) (rk_eta (rc_knobs s))).
    destruct (rung_ranking s) as [|c l] eqn:Er; [by apply Permutation_nil_l in Hperm|].
    destruct (keep_count (c :: l) gap s); [lia|done].
  - rewrite length_app. cbn. lia.
Qed.

(** One settled duel of the rung, the last of which applies the cut. *)
Lemma rc_record_live champ chs s mid l r rest res :
  rc_live champ chs s -> rc_pending s = (mid, (l, r)) :: rest -> mr_id res = mid ->
  exists s', rc_record res s = Ok s' /\ rc_live champ chs s' /\ rc_pending s' = rest
    /\ rungs_begun s' = rungs_begun s /\ rc_knobs s' = rc_knobs s
    /\ length (gs_audit (rc_base s')) = S (length (gs_audit (rc_base s))).
Proof.
  intros Hl Hp Hid. pose proof Hl as []. set (s1 := rc_settle res (rc_log res s)).
  assert (Hrec : rc_record res s = match rc_pending s1 with [] => _apply_cut s1 | _ :: _ => Ok s1 end).
  { unfold rc_record, _capture_final_result. cbn [rc_log rc_base gs_log gs_final_scheduled rc_pending].
    rewrite rl_unscheduled0, Hp, Hid. cbn. by rewrite decide_True. }
  rewrite Hrec. clear Hrec.
  assert (Hp1 : rc_pending s1 = rest).
  { unfold s1, rc_settle. cbn. rewrite Hp, Hid. cbn. by rewrite decide_True. }
  assert (Haud : length (gs_audit (rc_base s1)) = S (length (gs_audit (rc_base s)))).
  { cbn. rewrite length_app. cbn. lia. }
  unfold rungs_begun in rl_rungs0. rewrite Hp in rl_rungs0.
  assert (Hl1 : rc_live champ chs s1).
  { split; try done. unfold rungs_begun. rewrite Hp1. change (rc_rung s1) with (rc_rung s).
    change (rc_knobs s1) with (rc_knobs s). destruct rest; lia. }
  destruct rest as [|e rest].
  - destruct (cut_live champ chs s1 Hl1 Hp1) as (s' & Hs' & Hl' & Hp' & Hr' & Hk' & Ha').
    { change (rc_rung s < max_rungs (rc_knobs s)). lia. }
    exists s'. unfold rungs_begun. rewrite Hp1, Hp', Hp, Hr', Ha', Haud. by split_and!.
  - exists s1. unfold rungs_begun. by rewrite Hp1, Hp.
Qed.

Lemma rc_batch champ chs s ms rs :
  rc_live champ chs s -> rc_pending s = pending_of ms -> Forall2 answers ms rs ->
  exists s', record_results rs s = Ok s' /\ rc_live champ chs s' /\ rc_pending s' = []
    /\ rungs_begun s' = rungs_begun s /\ rc_knobs s' = rc_knobs s.
Proof.
  intros Hl Hp Hans.
  destruct (batch_settles (S := Racing)
    (fun t => rc_live champ chs t /\ rungs_begun t = rungs_begun s /\ rc_knobs t = rc_knobs s)
    rc_pending (fun t => length (gs_audit (rc_base t))) (fun _ => True) ms rs s)
    as (s' & Hs' & (? & ? & ?) & Hp' & _); try done.
  - intros t mid l r rest res (Ht & Hb & Hk) Hpt _ Hid _ _.
    destruct (rc_record_live champ chs t mid l r rest res Ht Hpt Hid) as (t' & H1' & H2' & H3' & H4' & H5' & H6').
    exists t'. split_and!; try done; congruence.
  - by apply Forall_true.
  - by exists s'.
Qed.

Lemma rung_ids_NoDup champ subset s : NoDup (mu_id <$> imap (rung_matchup champ subset s) (rc_alive s)).
Proof.
  rewrite fmap_imap. apply NoDup_alt. intros i j id Hi Hj.
  rewrite list_lookup_imap in Hi, Hj.
  destruct (rc_alive s !! i); [|done]. destruct (rc_alive s !! j); [|done].
  cbn in Hi, Hj. injection Hi as <-. injection Hj as Hj. unfold rung_id in Hj.
  repeat apply (inj (String.append _)) in Hj. by apply (inj pretty) in Hj.
Qed.

(** Scheduling a rung before the last one. *)
Lemma _schedule_rung_live champ chs s :
  rc_live champ chs s -> rc_pending s = [] -> rc_rung s < max_rungs (rc_knobs s) -> chs <> [] ->
  exists ms s', _schedule_rung champ s = Ok (ms, s') /\ ms <> [] /\ rc_live champ chs s'
    /\ rc_pending s' = pending_of ms /\ rc_knobs s' = rc_knobs s /\ rungs_begun s' = S (rc_rung s).
Proof.
  intros Hl Hp Hlt Hne. pose proof Hl as []. unfold _schedule_rung.
  assert (exists subset, _rung_board_subset s = Ok subset) as [subset ->].
  { unfold _rung_board_subset. destruct (board_size_ok (rc_knobs s) (rc_rung s) rl_knobs0) as (size & -> & _).
    case_match; by eexists. }
  cbn [result_bind]. set (ms := imap _ _). eexists ms, _. split; [reflexivity|].
  rewrite Hp, add_pending_nil by apply rung_ids_NoDup. fold ms.
  specialize (rl_nonempty0 Hne).
  assert (Hms : ms <> []) by (unfold ms; by destruct (rc_alive s)).
  assert (Hpo : pending_of ms <> []) by (by destruct ms).
  split_and!; try done.
  - split; unfold rungs_begun; cbn; try done. destruct (pending_of ms); [done|lia].
  - unfold rungs_begun. cbn. by destruct (pending_of ms).
Qed.

(** The crowning duel is decided. *)
Record rc_done (champ : Contestant) (chs : list Contestant) (s : Racing) : Prop := {
  rd_final : final_ok champ chs s;
  rd_decided : is_Some (gs_final_result (rc_base s));
  rd_survivor : exists c, rc_survivor s = Some c /\ c ∈ rc_alive s;
  rd_field : field_split chs s;
  rd_records : length (gs_records (rc_base s)) <= max_rungs (rc_knobs s);
}.

Definition race_final_state (c : Contestant) (s : Racing) : Racing :=
  rc_with_base (gs_schedule_final (rc_base s)) (rc_set_survivor (Some c) s).

Lemma rc_next_final champ chs s :
  rc_live champ chs s -> rc_pending s = [] -> chs <> [] -> _is_final_rung s = Ok true ->
  exists c, c ∈ rc_alive s /\ _pick_survivor s = Some c
    /\ rc_next s = Ok ([racing_final champ c s], race_final_state c s).
Proof.
  intros [] Hp Hne Hfin. specialize (rl_nonempty0 Hne). unfold rc_next.
  rewrite rl_champion0, Hp, rl_no_survivor0, Hfin.
  destruct (_pick_survivor s) as [c|] eqn:Ec.
  - exists c. pose proof (py_min_elem _ _ _ Ec) as Hc. split_and!; [done|done|].
    destruct (rc_alive s); [done|]. cbn [result_bind]. unfold rc_maybe_final. cbn. by rewrite rl_unscheduled0.
  - unfold _pick_survivor in Ec. by destruct (rc_alive s).
Qed.

Lemma rc_final_done champ chs s c r :
  rc_live champ chs s -> rc_pending s = [] -> c ∈ rc_alive s -> answers (racing_final champ c s) r ->
  exists s', rc_record r (race_final_state c s) = Ok s' /\ rc_done champ chs s'.
Proof.
  intros [] Hp Hc (Hid & Hl & Hr). cbn in Hid, Hl, Hr. eexists.
  unfold rc_record, _capture_final_result. cbn. rewrite Hid. cbn. split; [reflexivity|].
  unfold rungs_begun in rl_rungs0. rewrite Hp in rl_rungs0. split; cbn.
  - split_and!; [done|done|]. cbn. intros r' [= <-]. split_and!; [set_solver|done|]. exists c. auto.
  - done.
  - by exists c.
  - done.
  - lia.
Qed.

(** Which of the two steps a live race takes. *)
Lemma is_final_rung_cases champ chs s :
  rc_live champ chs s -> rc_pending s = [] ->
  _is_final_rung s = Ok true \/ (_is_final_rung s = Ok false /\ rc_rung s < max_rungs (rc_knobs s)).
Proof.
  intros [] Hp. unfold _is_final_rung. destruct (rung_fraction_ok s rl_knobs0) as (f & -> & Hf).
  cbn [result_bind]. destruct (Nat.lt_ge_cases (rc_rung s) (max_rungs (rc_knobs s))) as [|Hge].
  - destruct (fle f1 f || (length (rc_alive s) <=? 1)); auto.
  - rewrite Hf by done. by left.
Qed.

Definition rc_fresh (s : Racing) : Prop :=
  gs_final_scheduled (rc_base s) = false /\ gs_final_result (rc_base s) = None
  /\ gs_records (rc_base s) = [] /\ gs_scalars (rc_base s) = [] /\ knobs_ok (rc_knobs s)
  /\ rc_rung s = 0 /\ rc_pending s = [] /\ rc_eliminated_round s = [] /\ rc_survivor s = None.

Lemma racing_init_fresh params s :
  racing_init params = Ok s -> (exists b, rung_base_size (rc_knobs s) = Ok b) -> rc_fresh s.
Proof.
  unfold racing_init, gate_init. intros (b & Hb & Hs)%result_bind_ok Hsize.
  apply result_bind_ok in Hb as ([ps reps] & _ & Hb). apply result_bind_ok in Hb as (size & _ & [= <-]).
  apply result_bind_ok in Hs as (k & Hk & [= <-]). cbn in *.
  split_and!; try done. split; [|done]. unfold racing_knobs in Hk.
  repeat (apply result_bind_ok in Hk as (? & _ & Hk)). case_match; [|done].
  repeat (apply result_bind_ok in Hk as (? & _ & Hk)). injection Hk as <-. cbn. lia.
Qed.

Definition rc_inv (champ : Contestant) (chs : list Contestant) (s : Racing) : Prop :=
  (rc_live champ chs s /\ rc_pending s = []) \/ rc_done champ chs s.

Definition rc_fuel (s : Racing) : nat :=
  match gs_final_result (rc_base s) with
  | Some _ => 0
  | None => S (max_rungs (rc_knobs s) - rc_rung s)
  end.

Lemma rc_seed_inv champ chs s : rc_fresh s -> rc_inv champ chs (rc_seed champ chs s).
Proof.
  intros (Hs & Hr & Hrec & _ & Hk & Hrung & Hp & He & Hsv). left. split; [|done].
  split; unfold rungs_begun, field_split; cbn; rewrite ?Hp, ?Hrung, ?Hrec, ?He; try done; [lia|].
  intros _. by rewrite app_nil_r.
Qed.

Lemma rc_unresolved champ chs s :
  rc_inv champ chs s -> rc_resolved s = false -> rc_live champ chs s /\ rc_pending s = [] /\ chs <> [].
Proof.
  unfold rc_resolved. intros [[Hl Hp]|[(Hc & _) [r Hr] _ _ _]] Hres.
  - destruct Hl. rewrite rl_champion0, rl_no_result0, rl_challengers0 in Hres. by destruct chs.
  - cbn in Hc. by rewrite Hc, Hr in Hres.
Qed.

Lemma rc_next_cases champ chs s :
  rc_live champ chs s -> rc_pending s = [] -> chs <> [] ->
  exists ms s', rc_next s = Ok (ms, s') /\ ms <> []
    /\ forall rs, Forall2 answers ms rs ->
         exists s'', record_results rs s' = Ok s'' /\ rc_inv champ chs s'' /\ rc_fuel s'' < rc_fuel s.
Proof.
  intros Hl Hp Hne. pose proof Hl as [].
  destruct (is_final_rung_cases champ chs s Hl Hp) as [Hfin|[Hfin Hlt]].
  - destruct (rc_next_final champ chs s Hl Hp Hne Hfin) as (c & Hc & _ & ->).
    eexists _, _. split_and!; [done|done|]. intros rs Hans.
    apply Forall2_cons_inv_l in Hans as (r & rs' & Hr & Hnil & ->). apply Forall2_nil_inv_l in Hnil as ->.
    destruct (rc_final_done champ chs s c r Hl Hp Hc Hr) as (s' & Hs' & Hd). exists s'.
    cbn [record_results record_result racing_strategy]. rewrite Hs'. split_and!; [done|by right|].
    unfold rc_fuel. destruct (rd_decided _ _ _ Hd) as [r' ->]. rewrite rl_no_result0. lia.
  - destruct (_schedule_rung_live champ chs s Hl Hp Hlt Hne) as (ms & s' & Hs' & Hms & Hl' & Hp' & Hk' & Hb').
    exists ms, s'. split_and!; [|done|].
    + unfold rc_next. rewrite rl_champion0, Hp, rl_no_survivor0, Hfin. specialize (rl_nonempty0 Hne).
      by destruct (rc_alive s).
    + intros rs Hans. destruct (rc_batch champ chs s' ms rs Hl' Hp' Hans) as (s'' & Hs'' & Hl'' & Hp'' & Hb & Hk).
      exists s''. split_and!; [done|by left|]. unfold rc_fuel.
      rewrite (rl_no_result _ _ _ Hl''), rl_no_result0, Hk, Hk'.
      unfold rungs_begun in Hb at 1. rewrite Hp'' in Hb. rewrite Hb, Hb'. lia.
Qed.

#[export] Instance racing_laws : SelectionLaws Racing.
Proof.
  refine {| fresh := rc_fresh; fields _ := True; inv := rc_inv; fuel := rc_fuel |}.
  - intros champ chs s Hf _. eexists. split; [reflexivity|]. by apply rc_seed_inv.
  - intros champ chs s Hinv Hres. destruct (rc_unresolved champ chs s Hinv Hres) as (Hl & Hp & Hne).
    destruct (rc_next_cases champ chs s Hl Hp Hne) as (ms & s' & ? & ? & _). exists ms, s'. by split.
  - intros champ chs s ms s' rs Hinv Hres Hnext Hms Hans.
    destruct (rc_unresolved champ chs s Hinv Hres) as (Hl & Hp & Hne).
    destruct (rc_next_cases champ chs s Hl Hp Hne) as (ms0 & s0 & Hn & _ & Hall).
    cbn in Hnext. rewrite Hn in Hnext. injection Hnext as -> ->. by apply Hall.
  - intros champ chs s [[Hl _]|Hd]; apply final_ok_crowned; [|apply Hd].
    destruct Hl. split_and!; [done|done|]. intros r. cbn. by rewrite rl_no_result0.
Defined.

Lemma rc_stopped_done champ chs s : chs <> [] -> stopped champ chs s -> rc_done champ chs s.
Proof.
  intros Hne [[[Hl Hp]|?] Hstop]; [|done]. exfalso.
  destruct Hstop as [Hres|(s0 & Hinv0 & Hres0 & Hnext)].
  - cbn in Hres. destruct Hl. unfold rc_resolved in Hres.
    rewrite rl_champion0, rl_no_result0, rl_challengers0 in Hres. by destruct chs.
  - destruct (rc_unresolved champ chs s0 Hinv0 Hres0) as (Hl0 & Hp0 & _).
    destruct (rc_next_cases champ chs s0 Hl0 Hp0 Hne) as (ms & s' & Hn & Hms & _). cbn in Hnext. congruence.
Qed.
End RacingLaws.

Lemma rc_knobs_kept `{PyFormat} `{PyRepr} `{Libm} : step_keeps rc_knobs.
Proof.
  split.
  - intros s ms s' Hn. cbn in Hn. unfold rc_next, rc_maybe_final, _schedule_rung in Hn.
    repeat (case_match; simplify_eq/=; try done);
      apply result_bind_ok in Hn as (x & _ & Hn); repeat case_match; simplify_eq/=; try done;
      by apply result_bind_ok in Hn as (y & _ & [= _ <-]).
  - intros r s s' Hr. cbn in Hr. unfold rc_record in Hr. repeat (case_match; simplify_eq/=; try done).
    unfold _apply_cut in Hr. apply result_bind_ok in Hr as (? & _ & Hr).
    by apply result_bind_ok in Hr as (? & _ & [= <-]).
Qed.

(** C36.  A race over n >= 1 challengers terminates within ceil(log2 |board|) rungs
    and the crowning duel.  With distinct ids, every challenger is either eliminated,
    once, or among the last survivors, and the one sent to the crowning duel is a
    survivor; only the gate can promote it. *)
Theorem racing_tournament `{PyFormat} `{PyRepr} `{Libm}
    request_field run (strategy : Racing) champ chs n :
  rc_fresh strategy -> request_field (field_size strategy) = Ok (champ, chs) ->
  chs <> [] -> answering run -> S (max_rungs (rc_knobs strategy)) < n ->
  exists s, evaluate_tournament request_field run n strategy = Some (Ok (champion s))
    /\ crowned_by_gate champ chs (champion s)
    /\ length (rounds s) <= S (max_rungs (rc_knobs strategy))
    /\ (NoDup (generation_id <$> chs) ->
        exists c, c ∈ chs /\ rc_survivor s = Some c
          /\ generation_id c ∉ dict_keys (rc_eliminated_round s)
          /\ (generation_id <$> rc_alive s) ++ dict_keys (rc_eliminated_round s)
             ≡ₚ generation_id <$> chs).
Proof.
  intros Hf Hreq Hne Hrun Hn.
  destruct (@evaluate_tournament_drive Racing _ racing_laws request_field run strategy champ chs n
    Hf Hreq I Hrun) as (s0 & s & Hseed & Hdrive & Hs & Hst).
  { intros s [= <-]. cbn. unfold rc_fuel. cbn. destruct Hf as (_ & -> & _ & _ & _ & -> & _). lia. }
  exists s. apply (drive_keeps rc_knobs _ _ _ _ _ rc_knobs_kept) in Hdrive. injection Hseed as <-.
  cbn in Hdrive. pose proof (rc_stopped_done champ chs s Hne Hst) as [Hfin _ (c & Hsv & Hc) Hfield Hrec].
  split_and!; [done|by apply final_ok_crowned| |].
  - rewrite Hdrive in Hrec. cbn. unfold gate_rounds. change (base s) with (rc_base s).
    case_match; rewrite ?length_app; cbn; lia.
  - intros Hnd. specialize (Hfield Hnd). rewrite <-Hfield in Hnd.
    assert (Hin : generation_id c ∈ (generation_id <$> rc_alive s)) by (by apply list_elem_of_fmap_2).
    exists c. split_and!; [|done| |done].
    + destruct Hst as [[[Hl _]|Hd] _]; [by apply Hl|]. destruct Hfin as (_ & _ & Hr).
      destruct (rd_decided _ _ _ Hd) as [r Hr']. destruct (Hr r Hr') as (_ & _ & f & Hf' & Hfc & _).
      cbn in Hf'. congruence.
    + apply NoDup_app in Hnd as (_ & Hd & _). by apply Hd.
Qed.

(** Without board ids (or with a rung-0 slice that is already the whole board)
    no rung is run: the first matchup scheduled is the crowning duel, for the
    challenger with the smallest id. *)
Theorem racing_full_board_skips_rungs `{PyFormat} `{PyRepr} `{Libm} s champ chs :
  rc_fresh s -> chs <> [] -> board_size_at_rung (rc_knobs s) 0 = Ok (board_total (rc_knobs s)) ->
  exists c s', next_matchups (rc_seed champ chs s) = Ok ([racing_final champ c (rc_seed champ chs s)], s')
    /\ c ∈ chs /\ forall c', c' ∈ chs -> str_lt (generation_id c') (generation_id c) = false.
Proof.
  intros Hf Hne Hsize. destruct (rc_seed_inv champ chs s Hf) as [[Hl Hp]|Hd].
  2:{ destruct (rd_decided _ _ _ Hd) as [r Hr]. destruct Hf as (_ & Hnone & _). cbn in Hr. congruence. }
  destruct Hf as (_ & _ & _ & Hsc & _ & Hrung & _).
  assert (Hfin : _is_final_rung (rc_seed champ chs s) = Ok true).
  { unfold _is_final_rung, _rung_fraction. cbn. rewrite Hrung, Hsize.
    destruct (Z.eqb_spec (board_total (rc_knobs s)) 0) as [E|E]; [done|]. cbn.
    unfold Z_truediv. destruct (board_total (rc_knobs s)) eqn:Et; [done| |unfold board_total in Et; lia].
    by rewrite int_truediv_same. }
  destruct (rc_next_final champ chs _ Hl Hp Hne Hfin) as (c & Hc & Hpick & Hnext).
  exists c. eexists. split; [exact Hnext|]. split; [done|]. intros c' Hc'.
  unfold _pick_survivor in Hpick. cbn in Hpick. rewrite Hsc in Hpick.
  destruct chs as [|c0 chs]; [done|]. injection Hpick as Hpick.
  assert (Hmin : by_scalar_lt [] c' c = false).
  { rewrite <-Hpick. apply (py_min_from_le _ _ (H := by_scalar_lt_swo [])); [done| |done].
    apply Forall_forall. done. }
  done.
Qed.

Module RacingWitness.
#[local] Existing Instance plain_format.
#[local] Existing Instance plain_repr.
#[local] Existing Instance plain_libm.

Definition board8 : Json := JArr (JStr <$> ["b1"; "b2"; "b3"; "b4"; "b5"; "b6"; "b7"; "b8"]).

Definition blank_racing : Racing := {|
  rc_base := blank_gate;
  rc_knobs := {| rk_eta := 2; rk_board_fraction := f0; rk_rung0_board_size := 0; rk_board_ids := [];
                 rk_slice_board_ids := []; rk_matchup_budget_s := None; rk_final_budget_s := None;
                 rk_noise_delta_std := None |};
  rc_rung := 0; rc_alive := []; rc_pending := []; rc_rung_scalars := []; rc_champion_scalar := None;
  rc_eliminated_round := []; rc_rung_started := false; rc_survivor := None |}.

Definition from_params (params : Params) : Racing :=
  match racing_init (Some params) with Ok s => s | Raise _ => blank_racing end.

(** Eight entries, a quarter of them at rung 0. *)
Definition strategy : Racing := from_params [("board_ids", board8)].

Lemma racing_strategy_fresh : rc_fresh strategy.
Proof.
  apply (racing_init_fresh (Some [("board_ids", board8)])); [vm_compute; reflexivity|].
  exists 2%Z. vm_compute. reflexivity.
Qed.

(** Two rungs halve the field twice, and the best challenger is promoted. *)
Example racing_promotes_best :
  exists d, evaluate_tournament request_field4 duel 5 strategy = Some (Ok d)
    /\ sd_promoted_generation_id d = Some "v3"
    /\ mr_id <$> sd_matchups d
       = ["rung0_m0"; "rung0_m1"; "rung0_m2"; "rung0_m3"; "rung1_m0"; "rung1_m1"; "racing-final"].
Proof. eexists. split; [vm_compute; reflexivity|]. split; reflexivity. Qed.

Lemma racing_tournament_witness :
  exists s, evaluate_tournament request_field4 duel 5 strategy = Some (Ok (champion s))
    /\ length (rounds s) <= 4.
Proof.
  destruct (racing_tournament request_field4 duel strategy incumbent field4 5)
    as (s & Hs & _ & Hr & _).
  - apply racing_strategy_fresh.
  - reflexivity.
  - discriminate.
  - apply duel_answers.
  - vm_compute. lia.
  - exists s. exact (conj Hs Hr).
Defined.

Lemma shuffled_order_canonical_witness :
  _shuffled_order ["b2"; "b1"; "b2"] = _shuffled_order ["b1"; "b2"].
Proof. apply (shuffled_order_canonical ["b2"; "b1"; "b2"] ["b1"; "b2"]). set_solver. Defined.

Lemma board_slices_escalate_witness :
  exists size', board_size_at_rung (rc_knobs strategy) 1 = Ok size' /\ size' = Z.min 8 (2 * 2).
Proof.
  destruct (board_slices_escalate (rc_knobs strategy) 0 2) as (_ & (size' & H1 & H2 & _) & _).
  - vm_compute. discriminate.
  - vm_compute. discriminate.
  - vm_compute. reflexivity.
  - exists size'. exact (conj H1 H2).
Defined.

(** A rung of four at a noise floor: two are kept by rank. *)
Definition rung_state : Racing :=
  match next_matchups (rc_seed incumbent field4 (from_params [("board_ids", board8);
          ("noise_floor_delta_std", JFloat 0.01%float)])) with
  | Ok (ms, s) =>
      match result_map (duel 0) (take 3 ms) with
      | Ok rs => match record_results rs s with
                 | Ok s => {| rc_base := rc_base s; rc_knobs := rc_knobs s; rc_rung := rc_rung s;
                              rc_alive := rc_alive s; rc_pending := [];
                              rc_rung_scalars := dict_set (dict_set (rc_rung_scalars s) "v2" 0.8125%float) "v4" 2%float;
                              rc_champion_scalar := rc_champion_scalar s;
                              rc_eliminated_round := rc_eliminated_round s;
                              rc_rung_started := rc_rung_started s; rc_survivor := rc_survivor s |}
                 | Raise _ => blank_racing end
      | Raise _ => blank_racing
      end
  | Raise _ => blank_racing
  end.

Lemma apply_cut_sound_witness :
  exists s' cut, _apply_cut rung_state = Ok s' /\ rc_alive s' ++ cut = rung_ranking rung_state.
Proof.
  destruct (_apply_cut rung_state) as [s'|e] eqn:E; [|vm_compute in E; discriminate].
  destruct (apply_cut_sound rung_state s' E) as (cut & Hcut & _).
  - assert (Hall : Forall (fun c => is_nan (rung_scalar rung_state c) = false) (rc_alive rung_state))
      by (vm_compute; repeat constructor).
    intros c Hc. exact (proj1 (Forall_forall _ _) Hall c Hc).
  - exists s', cut. exact (conj eq_refl Hcut).
Defined.

(** Of the four, the third advances beside the two kept by rank, and the fourth is cut. *)
Example noise_floor_spares_one :
  match _apply_cut rung_state with
  | Ok s' => keep_by_rank (length (rc_alive rung_state)) (rk_eta (rc_knobs rung_state)) = 2
             /\ length (rc_alive s') = 3 /\ length (rc_alive rung_state) = 4
  | Raise _ => False
  end.
Proof. vm_compute. by split. Qed.

Lemma racing_full_board_skips_rungs_witness :
  exists c s', next_matchups (rc_seed incumbent field4 (from_params []))
               = Ok ([racing_final incumbent c (rc_seed incumbent field4 (from_params []))], s')
    /\ c ∈ field4.
Proof.
  destruct (racing_full_board_skips_rungs (from_params []) incumbent field4) as (c & s' & Hn & Hc & _).
  - apply (racing_init_fresh (Some [])); [vm_compute; reflexivity|].
    exists 1%Z. vm_compute. reflexivity.
  - discriminate.
  - vm_compute. reflexivity.
  - exists c, s'. exact (conj Hn Hc).
Defined.
End RacingWitness.
