(* ===== verification/EvidenceGate.v ===== *)
(** Confirming a promotion: the evidence verdict,
    [src/zicato/selection/evidence_gate.py].

    [NormalDist().inv_cdf] and the error function are parameters; the probability
    the inverse is read at is positive for every threshold below one. *)

From S2P Require Import Prelude PyFloat PyJson CoreTypes Gate Params Measurement Strategy Rating.
From S2P Require Import PlackettLuce.

Definition MIN_CREDIBLE_DUELS : nat := 3.
Definition CI_Z : float := 1.959963984540054%float.
Definition MIN_PROMOTE_PROBABILITY : float := 0.975%float.

(** The verdict literals. *)
Inductive EvidenceDecision := ev_promoted | ev_deferred | ev_rejected | ev_inconclusive.

#[export] Instance EvidenceDecision_eq_dec : EqDecision EvidenceDecision.
Proof. solve_decision. Defined.

Definition evidence_token (d : EvidenceDecision) : string :=
  match d with
  | ev_promoted => "promoted" | ev_deferred => "deferred"
  | ev_rejected => "rejected" | ev_inconclusive => "inconclusive"
  end.

Definition confirmation_token (c : ConfirmationStatus) : string :=
  match c with
  | DISABLED => "disabled" | SATISFIED => "satisfied" | FAILED => "failed"
  | INCOMPLETE => "incomplete"
  end.

Record RatingCI := {
  ci_generation_id : string;
  ci_theta : float;
  ci_se : float;
  ci_lo : float;
  ci_hi : float;
}.

Record StrengthDifference := {
  sdf_mean : float;
  sdf_se : float;
  sdf_ci_lo : float;
  sdf_ci_hi : float;
  sdf_confidence_level : float;
  sdf_comparison_count : Z;
}.

Record EvidenceAttempt := {
  at_matchup_id : string;
  at_left_id : string;
  at_right_id : string;
  at_eligibility : string;
  at_budget_spent : Z;
  at_delta_scalar : option float;
  at_reason : string;
  at_measurement_draw : option MeasurementDraw;
}.

Record EvidenceVerdict := {
  ev_decision : EvidenceDecision;
  ev_reason : string;
  ev_credible : bool;
  ev_champion : option RatingCI;
  ev_challenger : option RatingCI;
  ev_p_stronger : option float;
  ev_threshold : float;
  ev_ci_overlap : bool;
  ev_replicates_spent : Z;
  ev_n_duels : nat;
  ev_difference : option StrengthDifference;
  ev_confirmation_status : ConfirmationStatus;
  ev_champion_id : string;
  ev_challenger_id : string;
  ev_attempts : list EvidenceAttempt;
}.

Section Evidence.
Context `{PyFormat} `{Libm}.

(** ** The strength difference *)

Definition p_stronger (d : StrengthDifference) : float := prob_stronger (sdf_mean d) (sdf_se d) f0 f0 f0.

Definition clears (d : StrengthDifference) (threshold : float) : bool :=
  flt f0 (sdf_ci_lo d) && fle threshold (p_stronger d).

Definition strength_difference (rating : RatingFit) (child_id parent_id : string)
    (threshold : float) (comparison_count : Z) : result StrengthDifference :=
  ensure (1 <=? comparison_count)%Z orelse ValueError "comparison_count must be positive";
  try md <- difference rating child_id parent_id;
  let '(mean, se) := md in
  let tail := fdiv (fmin (fsub f1 threshold) (fsub f1 MIN_PROMOTE_PROBABILITY))
                (float_of_Z comparison_count) in
  let z := fneg (normal_inv_cdf tail) in
  Ok {| sdf_mean := mean; sdf_se := se; sdf_ci_lo := fsub mean (fmul z se);
        sdf_ci_hi := fadd mean (fmul z se);
        sdf_confidence_level := fsub f1 (fmul 2%float tail);
        sdf_comparison_count := comparison_count |}.

Definition _rating_ci (rating : RatingFit) (gid : string) : option RatingCI :=
  '(theta, se) ← dict_get (estimates rating) gid;
  let half := fmul CI_Z se in
  Some {| ci_generation_id := gid; ci_theta := theta; ci_se := se;
          ci_lo := fsub theta half; ci_hi := fadd theta half |}.

Definition _ci_overlap (a b : RatingCI) : bool :=
  fle (ci_lo a) (ci_hi b) && fle (ci_lo b) (ci_hi a).

(** [{a, b} == {c, d}] *)
Definition same_pair (a b c d : string) : bool :=
  bool_decide (a ∈ [c; d]) && bool_decide (b ∈ [c; d])
  && bool_decide (c ∈ [a; b]) && bool_decide (d ∈ [a; b]).

(** A resolved duel of exactly the pair. *)
Definition pair_duel (parent_id child_id : string) (r : MatchupResult) : bool :=
  same_pair (mr_left_id r) (mr_right_id r) parent_id child_id && execution_complete r
  && negb (feq (delta_scalar (mr_outcome r)) f0).

Definition _count_pair_duels (audit : list MatchupResult) (parent_id child_id : string) : nat :=
  count (pair_duel parent_id child_id) audit.

(** ** The verdict *)

Definition base_verdict (decision : EvidenceDecision) (reason : string) (threshold : float)
    (replicates_spent : Z) (n_pair : nat) (parent_id child_id : string) : EvidenceVerdict := {|
  ev_decision := decision; ev_reason := reason; ev_credible := false; ev_champion := None;
  ev_challenger := None; ev_p_stronger := None; ev_threshold := threshold;
  ev_ci_overlap := false; ev_replicates_spent := replicates_spent; ev_n_duels := n_pair;
  ev_difference := None; ev_confirmation_status := INCOMPLETE; ev_champion_id := parent_id;
  ev_challenger_id := child_id; ev_attempts := [] |}.

(** [replace(base, decision=..., reason=..., champion=..., challenger=...)] *)
Definition held (base : EvidenceVerdict) (decision : EvidenceDecision) (reason : string)
    (champ chal : option RatingCI) : EvidenceVerdict := {|
  ev_decision := decision; ev_reason := reason; ev_credible := ev_credible base;
  ev_champion := champ; ev_challenger := chal; ev_p_stronger := ev_p_stronger base;
  ev_threshold := ev_threshold base; ev_ci_overlap := ev_ci_overlap base;
  ev_replicates_spent := ev_replicates_spent base; ev_n_duels := ev_n_duels base;
  ev_difference := ev_difference base; ev_confirmation_status := ev_confirmation_status base;
  ev_champion_id := ev_champion_id base; ev_challenger_id := ev_challenger_id base;
  ev_attempts := ev_attempts base |}.

(** The reasons of the three outcomes of a credible fit. *)
Definition deferred_reason (p threshold : float) (d : StrengthDifference) (spent budget : Z)
    : string :=
  "deferred: crowning win not yet decisive — P(theta_child > theta_champion)="
  +:+ fmt_fixed 3 p +:+ " vs threshold " +:+ fmt_fixed 2 threshold
  +:+ "; strength difference " +:+ fmt_percent 3 (sdf_confidence_level d) +:+ " interval ["
  +:+ fmt_fixed 3 (sdf_ci_lo d) +:+ ", " +:+ fmt_fixed 3 (sdf_ci_hi d)
  +:+ "]; repeat the selected candidate against the champion ("
  +:+ pretty spent +:+ "/" +:+ pretty budget +:+ " spent)".

Definition inconclusive_reason (p : float) (budget : Z) : string :=
  "inconclusive: strength difference remains unconfirmed after exhausting the "
  +:+ pretty budget +:+ "-replicate budget — P(theta_child > theta_champion)="
  +:+ fmt_fixed 3 p +:+ "; recorded to the dead-letter queue, champion stands".

Definition evidence_verdict (gate_decision : EvidenceDecision) (gate_reason : string)
    (audit : list MatchupResult) (parent_id child_id : string) (threshold : float)
    (replicate_budget replicates_spent planned_candidates : Z) : result EvidenceVerdict :=
  let duels := audit_duels audit in
  let n_pair := _count_pair_duels audit parent_id child_id in
  let base := base_verdict gate_decision gate_reason threshold replicates_spent n_pair
                parent_id child_id in
  let hold := if (replicates_spent <? replicate_budget)%Z then ev_deferred else ev_inconclusive in
  if negb (bool_decide (gate_decision = ev_promoted)) then Ok base
  else if match duels with [] => true | _ :: _ => false end || (n_pair <? MIN_CREDIBLE_DUELS) then
    Ok (held base hold
          ("confirmation incomplete: " +:+ pretty n_pair +:+ " resolved pair duels; at least "
           +:+ pretty MIN_CREDIBLE_DUELS +:+ " required") None None)
  else
    let rating := default_fit duels in
    match _rating_ci rating parent_id, _rating_ci rating child_id with
    | Some champ_ci, Some chal_ci =>
        try d <- strength_difference rating child_id parent_id threshold
                   (planned_candidates * (replicate_budget + 1));
        let p := p_stronger d in
        let cleared := clears d threshold in
        let decision :=
          if cleared then ev_promoted
          else if (replicates_spent <? replicate_budget)%Z then ev_deferred else ev_inconclusive in
        let reason :=
          if cleared then gate_reason
          else if (replicates_spent <? replicate_budget)%Z
               then deferred_reason p threshold d replicates_spent replicate_budget
               else inconclusive_reason p replicate_budget in
        Ok {| ev_decision := decision; ev_reason := reason; ev_credible := true;
              ev_champion := Some champ_ci; ev_challenger := Some chal_ci;
              ev_p_stronger := Some p; ev_threshold := threshold;
              ev_ci_overlap := _ci_overlap champ_ci chal_ci;
              ev_replicates_spent := replicates_spent; ev_n_duels := n_pair;
              ev_difference := Some d;
              ev_confirmation_status := if cleared then SATISFIED else INCOMPLETE;
              ev_champion_id := parent_id; ev_challenger_id := child_id; ev_attempts := [] |}
    | champ_ci, chal_ci =>
        Ok (held base hold "confirmation incomplete: the fit could not place both contestants"
              champ_ci chal_ci)
    end.
End Evidence.

(** ** The dashboard block *)

Definition json_opt {A} (f : A -> Json) (x : option A) : Json :=
  match x with Some x => f x | None => JNull end.

Definition ci_json (c : RatingCI) : Json :=
  JObj [("theta", JFloat (ci_theta c)); ("se", JFloat (ci_se c)); ("ci_lo", JFloat (ci_lo c));
        ("ci_hi", JFloat (ci_hi c))].

Definition attempt_json (a : EvidenceAttempt) : Json :=
  JObj [("matchup_id", JStr (at_matchup_id a)); ("left_id", JStr (at_left_id a));
        ("right_id", JStr (at_right_id a)); ("eligibility", JStr (at_eligibility a));
        ("budget_spent", JInt (at_budget_spent a));
        ("delta_scalar", json_opt JFloat (at_delta_scalar a)); ("reason", JStr (at_reason a));
        ("measurement_draw", json_opt draw_to_json (at_measurement_draw a))].

Definition difference_json (d : StrengthDifference) : Json :=
  JObj [("mean", JFloat (sdf_mean d)); ("se", JFloat (sdf_se d)); ("ci_lo", JFloat (sdf_ci_lo d));
        ("ci_hi", JFloat (sdf_ci_hi d)); ("confidence_level", JFloat (sdf_confidence_level d));
        ("comparison_count", JInt (sdf_comparison_count d))].

Definition rating_block (v : EvidenceVerdict) : Json :=
  JObj [("present", JBool true);
        ("evidence_basis", JStr "independent_confirmation");
        ("confirmation_status", JStr (confirmation_token (ev_confirmation_status v)));
        ("reason", JStr (ev_reason v));
        ("champion_id", JStr (ev_champion_id v));
        ("challenger_id", JStr (ev_challenger_id v));
        ("attempts", JArr (attempt_json <$> ev_attempts v));
        ("credible", JBool (ev_credible v));
        ("champion", json_opt ci_json (ev_champion v));
        ("challenger", json_opt ci_json (ev_challenger v));
        ("p_stronger", json_opt JFloat (ev_p_stronger v));
        ("threshold", JFloat (ev_threshold v));
        ("decision", JStr (evidence_token (ev_decision v)));
        ("ci_overlap", JBool (ev_ci_overlap v));
        ("replicates_spent", JInt (ev_replicates_spent v));
        ("n_duels", JInt (Z.of_nat (ev_n_duels v)));
        ("difference", json_opt difference_json (ev_difference v))].

Definition disabled_rating_block : Json :=
  JObj [("present", JBool false); ("confirmation_status", JStr (confirmation_token DISABLED));
        ("reason", JStr "no promotion confidence threshold in the evaluation contract")].
