(* ===== verification/Confirmation.v ===== *)
(** Confirming the crown with fresh evidence: [confirm_promotion_with_evidence],
    [make_evidence_replicate_duel] and the whole of [evaluate_tournament], in
    [src/zicato/selection/driver.py].

    The replicate duel is an injected callable: [replicate k parent child] is its
    [k]-th call.  The progress and dead-letter callbacks only observe; the model
    returns what the dead-letter callback is given. *)

From S2P Require Import Prelude PyFloat PyJson CoreTypes Gate Params Strategy Rating PlackettLuce.
From S2P Require Import Driver EvidenceGate.

(** ** Requesting a confirmation draw *)

Definition confirmation_id (k : nat) (left_id right_id : string) : string :=
  "confirmation:r" +:+ pretty k +:+ ":" +:+ left_id +:+ ":" +:+ right_id.

Definition confirmation_draw (k : nat) : MeasurementDraw :=
  {| purpose := CONFIRMATION; draw := k; base_seed := None |}.

(** A matchup with the defaults of the dataclass. *)
Definition confirmation_matchup (k : nat) (left_id right_id : string) : Matchup := {|
  mu_id := confirmation_id k left_id right_id;
  mu_left := {| generation_id := left_id; role := role_champion; snapshot_root := None;
                experiment := None |};
  mu_right := {| generation_id := right_id; role := role_challenger; snapshot_root := None;
                 experiment := None |};
  mu_board_subset := None; mu_replicates := 1; mu_stage_index := 0; mu_bracket_slot := "";
  mu_budget_seconds := None |}.

(** [run m first cache]: one matchup from draw [first]. *)
Definition make_evidence_replicate_duel
    (run_reserved_matchup : Matchup -> MeasurementDraw -> bool -> result MatchupResult)
    (k : nat) (left_id right_id : string) : result MatchupResult :=
  run_reserved_matchup (confirmation_matchup k left_id right_id) (confirmation_draw k) false.

(** ** Admitting a draw *)

(** The mutable locals [retain] closes over. *)
Record Evidence := {
  observed_matchups : list MatchupResult;
  audit : list MatchupResult;
  attempts : list EvidenceAttempt;
  seen_matchup_ids : list string;
  seen_draws : list (string * MeasurementDraw);
}.

Definition no_evidence : Evidence := {|
  observed_matchups := []; audit := []; attempts := []; seen_matchup_ids := []; seen_draws := [] |}.

(** The set of (generation, draw) units a result occupies. *)
Definition draw_units (r : MatchupResult) : list (string * MeasurementDraw) :=
  match mr_measurement_draw r with
  | Some m => [(mr_left_id r, m); (mr_right_id r, m)]
  | None => []
  end.

Definition eligibility (parent_id child_id : string) (budget_spent : Z) (r : MatchupResult)
    (e : Evidence) : string :=
  let delta := delta_scalar (mr_outcome r) in
  if (budget_spent =? 0)%Z then "selection_only"
  else if bool_decide (mr_id r ∈ seen_matchup_ids e) then "duplicate"
  else if negb (same_pair (mr_left_id r) (mr_right_id r) parent_id child_id) then "unexpected_pair"
  else if negb (execution_complete r) then "incomplete"
  else if negb (isfinite delta) then "nonfinite"
  else if String.eqb (mr_left_id r) (mr_right_id r) then "self_comparison"
  else
    match mr_measurement_draw r with
    | None => "missing_provenance"
    | Some m =>
        if negb (bool_decide (purpose m = CONFIRMATION)) then "wrong_purpose"
        else if existsb (fun u => bool_decide (u ∈ seen_draws e)) (draw_units r)
        then "repeated_measurement"
        else if feq delta f0 then "tie"
        else "eligible"
    end.

Definition attempt_of (parent_id child_id : string) (budget_spent : Z) (r : MatchupResult)
    (e : Evidence) : EvidenceAttempt :=
  let delta := delta_scalar (mr_outcome r) in
  {| at_matchup_id := mr_id r; at_left_id := mr_left_id r; at_right_id := mr_right_id r;
     at_eligibility := eligibility parent_id child_id budget_spent r e;
     at_budget_spent := budget_spent;
     at_delta_scalar := if isfinite delta then Some delta else None;
     at_reason := reason (mr_outcome r); at_measurement_draw := mr_measurement_draw r |}.

Definition admitted (token : string) : bool := bool_decide (token ∈ ["eligible"; "tie"]).

Definition retain (parent_id child_id : string) (budget_spent : Z) (e : Evidence)
    (r : MatchupResult) : Evidence := {|
  observed_matchups := observed_matchups e ++ [r];
  audit := if admitted (eligibility parent_id child_id budget_spent r e)
           then audit e ++ [r] else audit e;
  attempts := attempts e ++ [attempt_of parent_id child_id budget_spent r e];
  seen_matchup_ids := mr_id r :: seen_matchup_ids e;
  seen_draws := draw_units r ++ seen_draws e |}.

(** ** The loop *)

Record EvidencePreGate := { pg_threshold : float; pg_replicate_budget : Z }.

Definition make_pre_gate (threshold : float) (replicate_budget : Z) : result EvidencePreGate :=
  try _ <- validate_measurement_count replicate_budget true;
  Ok {| pg_threshold := threshold; pg_replicate_budget := replicate_budget |}.

(** One entry of [ci_history]. *)
Record CiEntry := {
  h_p_stronger : option float;
  h_ci_overlap : bool;
  h_replicates_spent : Z;
  h_confirmation_status : ConfirmationStatus;
  h_n_duels : nat;
}.

Record EvidenceResolution := {
  er_verdict : EvidenceVerdict;
  er_ci_history : list CiEntry;
}.

(** The returned pair, and what [on_inconclusive] was called with. *)
Record Confirmed := {
  cf_decision : SelectionDecision;
  cf_evidence : option EvidenceResolution;
  cf_dead_letter : option EvidenceResolution;
}.

(** [type(exc).__name__] *)
Definition exn_name (e : exn) : string :=
  match e with
  | ValueError _ => "ValueError" | TypeError _ => "TypeError" | RecordError _ => "RecordError"
  | KeyError _ => "KeyError" | RuntimeError _ => "RuntimeError" | OverflowError => "OverflowError"
  | ZeroDivisionError => "ZeroDivisionError" | AssertionError => "AssertionError"
  | ConfigurationError _ _ _ => "ConfigurationError" | OtherException c => c
  end.

(** [replace(verdict, attempts=...)] *)
Definition with_attempts (a : list EvidenceAttempt) (v : EvidenceVerdict) : EvidenceVerdict := {|
  ev_decision := ev_decision v; ev_reason := ev_reason v; ev_credible := ev_credible v;
  ev_champion := ev_champion v; ev_challenger := ev_challenger v; ev_p_stronger := ev_p_stronger v;
  ev_threshold := ev_threshold v; ev_ci_overlap := ev_ci_overlap v;
  ev_replicates_spent := ev_replicates_spent v; ev_n_duels := ev_n_duels v;
  ev_difference := ev_difference v; ev_confirmation_status := ev_confirmation_status v;
  ev_champion_id := ev_champion_id v; ev_challenger_id := ev_challenger_id v; ev_attempts := a |}.

(** [replace(verdict, decision="inconclusive", reason=..., replicates_spent=...,
    attempts=...)] *)
Definition terminated (why : string) (spent : Z) (a : list EvidenceAttempt) (v : EvidenceVerdict)
    : EvidenceVerdict := {|
  ev_decision := ev_inconclusive; ev_reason := why; ev_credible := ev_credible v;
  ev_champion := ev_champion v; ev_challenger := ev_challenger v; ev_p_stronger := ev_p_stronger v;
  ev_threshold := ev_threshold v; ev_ci_overlap := ev_ci_overlap v; ev_replicates_spent := spent;
  ev_n_duels := ev_n_duels v; ev_difference := ev_difference v;
  ev_confirmation_status := ev_confirmation_status v; ev_champion_id := ev_champion_id v;
  ev_challenger_id := ev_challenger_id v; ev_attempts := a |}.

(** [_finalize]; [notify] is whether a dead-letter callback was given. *)
Definition _finalize (decision : SelectionDecision) (v : EvidenceVerdict)
    (observed : list MatchupResult) (history : list CiEntry) (promoted_id : string) (notify : bool)
    : Confirmed :=
  let resolution := {| er_verdict := v; er_ci_history := history |} in
  let settled promoted verdict := {|
    sd_promoted_generation_id := promoted; sd_decision := verdict; sd_reason := ev_reason v;
    sd_matchups := observed; sd_crowning_matchup_id := sd_crowning_matchup_id decision;
    sd_standings := sd_standings decision |} in
  if bool_decide (ev_confirmation_status v = SATISFIED) then
    {| cf_decision := settled (Some promoted_id) PROMOTED; cf_evidence := Some resolution;
       cf_dead_letter := None |}
  else
    {| cf_decision := settled None DEFERRED; cf_evidence := Some resolution;
       cf_dead_letter := if notify then Some resolution else None |}.

Section Confirmation.
Context `{PyFormat} `{Libm}.

Definition history_entry (v : EvidenceVerdict) (spent : Z) : CiEntry := {|
  h_p_stronger := ev_p_stronger v; h_ci_overlap := ev_ci_overlap v; h_replicates_spent := spent;
  h_confirmation_status := ev_confirmation_status v; h_n_duels := ev_n_duels v |}.

Definition error_attempt (parent_id child_id : string) (e : exn) : EvidenceAttempt := {|
  at_matchup_id := ""; at_left_id := parent_id; at_right_id := child_id; at_eligibility := "error";
  at_budget_spent := 1; at_delta_scalar := None; at_reason := exn_name e;
  at_measurement_draw := None |}.

(** [while True], with [spent] replicates already requested: [None] when the fuel
    runs out. *)
Fixpoint confirm_loop (fuel : nat) (decision : SelectionDecision) (parent_id child_id : string)
    (pre_gate : EvidencePreGate)
    (replicate_duel : option (nat -> string -> string -> result MatchupResult)) (notify : bool)
    (planned_candidates : Z) (spent : nat) (history : list CiEntry) (e : Evidence)
    : option (result Confirmed) :=
  match fuel with
  | 0 => None
  | S fuel =>
      match evidence_verdict ev_promoted (sd_reason decision) (audit e) parent_id child_id
              (pg_threshold pre_gate) (pg_replicate_budget pre_gate) (Z.of_nat spent)
              planned_candidates with
      | Raise exc => Some (Raise exc)
      | Ok verdict =>
          let verdict := with_attempts (attempts e) verdict in
          let history := history ++ [history_entry verdict (Z.of_nat spent)] in
          let finish v h := Some (Ok (_finalize decision v (observed_matchups e) h child_id notify)) in
          let n_duels := pretty (ev_n_duels verdict) +:+ " resolved pair duels" in
          if bool_decide (ev_confirmation_status verdict = SATISFIED) then finish verdict history
          else
            match replicate_duel with
            | None =>
                finish (terminated ("confirmation incomplete: runner unavailable; " +:+ n_duels)
                          (ev_replicates_spent verdict) (ev_attempts verdict) verdict) history
            | Some replicate =>
                if (pg_replicate_budget pre_gate <=? Z.of_nat spent)%Z then
                  finish (terminated ("confirmation incomplete: replicate budget exhausted; " +:+ n_duels)
                            (ev_replicates_spent verdict) (ev_attempts verdict) verdict) history
                else
                  match replicate spent parent_id child_id with
                  | Raise exc =>
                      finish
                        (terminated ("confirmation incomplete: runner failed (" +:+ exn_name exc +:+ ")")
                           (Z.of_nat (S spent))
                           (attempts e ++ [error_attempt parent_id child_id exc]) verdict)
                        (history ++ [history_entry verdict (Z.of_nat (S spent))])
                  | Ok extra =>
                      confirm_loop fuel decision parent_id child_id pre_gate replicate_duel notify
                        planned_candidates (S spent) history (retain parent_id child_id 1 e extra)
                  end
            end
      end
  end.

(** Enough passes for the replicate budget. *)
Definition confirm_fuel (pre_gate : EvidencePreGate) : nat :=
  S (Z.to_nat (pg_replicate_budget pre_gate)).

Definition confirm_promotion_with_evidence (decision : SelectionDecision) (champ : Contestant)
    (pre_gate : EvidencePreGate)
    (replicate_duel : option (nat -> string -> string -> result MatchupResult)) (notify : bool)
    (planned_candidates : Z) : option (result Confirmed) :=
  match sd_decision decision, sd_promoted_generation_id decision with
  | PROMOTED, Some promoted_id =>
      let parent_id := generation_id champ in
      let e := foldl (retain parent_id promoted_id 0) no_evidence (sd_matchups decision) in
      confirm_loop (confirm_fuel pre_gate) decision parent_id promoted_id pre_gate replicate_duel
        notify planned_candidates 0 [] e
  | _, _ =>
      Some (Ok {| cf_decision := decision; cf_evidence := None; cf_dead_letter := None |})
  end.

(** [evaluate_tournament] with its optional evidence pre-gate. *)
Definition evaluate_tournament_with_evidence {S} `{SelectionStrategy S}
    (request_field : Z -> result (Contestant * list Contestant))
    (run : nat -> Matchup -> result MatchupResult) (fuel : nat) (strategy : S)
    (pre_gate : option EvidencePreGate)
    (replicate_duel : option (nat -> string -> string -> result MatchupResult)) (notify : bool)
    : option (result Confirmed) :=
  let planned_candidates := field_size strategy in
  match request_field planned_candidates with
  | Raise e => Some (Raise e)
  | Ok (champ, challengers) =>
      match seed champ challengers strategy with
      | Raise e => Some (Raise e)
      | Ok s =>
          match drive run fuel 0 s with
          | None => None
          | Some (Raise e) => Some (Raise e)
          | Some (Ok s) =>
              let decision := champion s in
              match pre_gate with
              | None =>
                  Some (Ok {| cf_decision := decision; cf_evidence := None; cf_dead_letter := None |})
              | Some pre_gate =>
                  confirm_promotion_with_evidence decision champ pre_gate replicate_duel notify
                    planned_candidates
              end
          end
      end
  end.
End Confirmation.
