(* ===== verification/ConfirmationSpec.v ===== *)
(** Confirmation can only hold a promotion: it stays within its budget, counts no
    selection result and no draw twice, and keeps the crown only on credible
    evidence. *)

From S2P Require Import Prelude PyFloat PyJson CoreTypes Gate Params Strategy Rating RatingSpec.
From S2P Require Import PlackettLuce ChampionGate Driver Bracket EvidenceGate Confirmation.
From S2P Require Import SingleElim SingleElimSpec.

Section VerdictSpec.
Context `{PyFormat} `{Libm}.

Lemma strength_difference_ok rating ids child parent threshold n :
  rates rating ids -> child ∈ ids -> parent ∈ ids -> (1 <= n)%Z ->
  exists d, strength_difference rating child parent threshold n = Ok d.
Proof.
  intros (_ & _ & Hd) Hc Hp Hn. specialize (Hd child parent Hc Hp). unfold strength_difference.
  rewrite (proj2 (Z.leb_le 1 n)) by done.
  destruct (difference rating child parent) as [[m se]|]; [|done]. by eexists.
Qed.

Lemma rating_ci_rated rating ids g ci : rates rating ids -> _rating_ci rating g = Some ci -> g ∈ ids.
Proof.
  intros (Hk & _) Hci. unfold _rating_ci in Hci. destruct (dict_get (estimates rating) g) eqn:E; [|done].
  rewrite <-Hk. apply dict_mem_true. unfold dict_mem. by rewrite E.
Qed.

(** What a satisfied verdict rests on. *)
Definition evidenced (audit : list MatchupResult) (parent_id child_id : string)
    (threshold : float) (comparisons : Z) : Prop :=
  MIN_CREDIBLE_DUELS <= _count_pair_duels audit parent_id child_id
  /\ exists d, strength_difference (default_fit (audit_duels audit)) child_id parent_id threshold
                 comparisons = Ok d
       /\ flt f0 (sdf_ci_lo d) = true /\ fle threshold (p_stronger d) = true.

Lemma evidence_verdict_ok decision why audit parent child threshold budget spent planned :
  (0 <= budget)%Z -> (1 <= planned)%Z ->
  exists v, evidence_verdict decision why audit parent child threshold budget spent planned = Ok v
    /\ ev_replicates_spent v = spent
    /\ (decision <> ev_promoted -> ev_decision v = decision /\ ev_confirmation_status v = INCOMPLETE)
    /\ (decision = ev_promoted ->
        (ev_confirmation_status v = SATISFIED /\ ev_decision v = ev_promoted /\ ev_reason v = why
         /\ evidenced audit parent child threshold (planned * (budget + 1)))
        \/ (ev_confirmation_status v = INCOMPLETE
            /\ ev_decision v = if (spent <? budget)%Z then ev_deferred else ev_inconclusive)).
Proof.
  intros Hb Hpl. unfold evidence_verdict.
  destruct (decide (decision = ev_promoted)) as [->|Hne].
  2:{ rewrite bool_decide_eq_false_2 by done. cbn [negb]. eexists. split; [reflexivity|]. by split_and!. }
  rewrite bool_decide_eq_true_2 by done. cbn [negb].
  set (fit := default_fit (audit_duels audit)).
  assert (Hfit : rates fit (first_seen (endpoints (audit_duels audit)))) by apply bradley_terry_fit_rates.
  destruct (_ || _) eqn:Ecred.
  { eexists. split; [reflexivity|]. split_and!; [done|done|]. intros _. by right. }
  apply orb_false_iff in Ecred as [_ Hn%Nat.ltb_ge].
  destruct (_rating_ci fit parent) as [champ_ci|] eqn:Ep.
  2:{ eexists. split; [reflexivity|]. split_and!; [done|done|]. intros _. by right. }
  destruct (_rating_ci fit child) as [chal_ci|] eqn:Ec.
  2:{ eexists. split; [reflexivity|]. split_and!; [done|done|]. intros _. by right. }
  destruct (strength_difference_ok fit _ child parent threshold (planned * (budget + 1)) Hfit
              (rating_ci_rated _ _ _ _ Hfit Ec) (rating_ci_rated _ _ _ _ Hfit Ep)) as [d Hd]; [nia|].
  rewrite Hd. cbn [result_bind]. eexists. split; [reflexivity|]. cbn. split_and!; [done|done|]. intros _.
  destruct (clears d threshold) eqn:Ecl; [left|by right].
  apply andb_true_iff in Ecl as [? ?]. split_and!; try done. split; [done|]. by exists d.
Qed.
End VerdictSpec.

(** The evidence verdict never raises and can only hold a promotion.  A
    verdict that is not a promotion passes through.  A promotion is kept exactly
    when the confirmation is satisfied, which takes three resolved duels of the
    pair, a fitted strength difference whose adjusted lower bound is positive and
    the configured probability; otherwise it is deferred while budget remains and
    inconclusive once it is spent. *)
Theorem evidence_verdict_only_holds `{PyFormat} `{Libm} decision why audit parent child threshold
    budget spent planned :
  (0 <= budget)%Z -> (1 <= planned)%Z ->
  exists v, evidence_verdict decision why audit parent child threshold budget spent planned = Ok v
    /\ (decision <> ev_promoted -> ev_decision v = decision)
    /\ (ev_decision v = ev_promoted <-> decision = ev_promoted /\ ev_confirmation_status v = SATISFIED)
    /\ (ev_decision v = ev_promoted ->
        evidenced audit parent child threshold (planned * (budget + 1)))
    /\ (decision = ev_promoted -> ev_decision v <> ev_promoted ->
        ev_decision v = if (spent <? budget)%Z then ev_deferred else ev_inconclusive).
Proof.
  intros Hb Hpl. destruct (evidence_verdict_ok decision why audit parent child threshold budget spent planned)
    as (v & Hv & _ & Hpass & Hprom); [done..|]. exists v. split; [done|].
  destruct (decide (decision = ev_promoted)) as [->|Hne].
  - destruct (Hprom eq_refl) as [(Hs & Hd & _ & Hev)|(Hs & Hd)].
    + split_and!; [done|by rewrite Hs, Hd|done|done].
    + assert (ev_decision v <> ev_promoted) by (rewrite Hd; by case_match).
      rewrite Hs. split_and!; [done|naive_solver|done|done].
  - destruct (Hpass Hne) as [Hd Hs]. rewrite Hd, Hs. split_and!; [done|naive_solver|naive_solver|naive_solver].
Qed.

(** ** Admission *)

(** A result the fit may read. *)
Definition admissible (parent child : string) (r : MatchupResult) : Prop :=
  same_pair (mr_left_id r) (mr_right_id r) parent child = true /\ execution_complete r = true
  /\ isfinite (delta_scalar (mr_outcome r)) = true /\ mr_left_id r <> mr_right_id r
  /\ exists m, mr_measurement_draw r = Some m /\ purpose m = CONFIRMATION.

Definition disjoint_draws (a b : MatchupResult) : Prop :=
  forall u, u ∈ draw_units a -> u ∉ draw_units b.

(** The evidence gathered over the selection results [sel] and the extra draws. *)
Record evidence_ok (sel extras : list MatchupResult) (parent child : string) (e : Evidence) : Prop := {
  eo_observed : observed_matchups e = sel ++ extras;
  eo_ids : forall x, x ∈ seen_matchup_ids e <-> x ∈ (mr_id <$> observed_matchups e);
  eo_draws : forall u, u ∈ seen_draws e <-> exists r, r ∈ observed_matchups e /\ u ∈ draw_units r;
  eo_sublist : sublist (audit e) extras;
  eo_admissible : Forall (admissible parent child) (audit e);
  eo_selection : forall r s, r ∈ audit e -> s ∈ sel -> disjoint_draws r s;
  eo_once : ForallOrdPairs disjoint_draws (audit e);
}.

Lemma eligibility_admitted parent child spent r e :
  admitted (eligibility parent child spent r e) = true ->
  (spent <> 0)%Z /\ admissible parent child r /\ forall u, u ∈ draw_units r -> u ∉ seen_draws e.
Proof.
  unfold eligibility, admissible. intros Ha.
  destruct (Z.eqb_spec spent 0); [done|]. case_bool_decide; [done|].
  destruct (same_pair _ _ _ _); [|done]. destruct (execution_complete r); [|done].
  destruct (isfinite _); [|done]. destruct (String.eqb_spec (mr_left_id r) (mr_right_id r)); [done|].
  destruct (mr_measurement_draw r) as [m|] eqn:Em; [|done]. cbn [negb] in Ha.
  destruct (decide (purpose m = CONFIRMATION)) as [Hp|]; [|by rewrite bool_decide_eq_false_2 in Ha].
  rewrite bool_decide_eq_true_2 in Ha by done. cbn [negb] in Ha.
  destruct (existsb _ _) eqn:Ex; [done|]. split_and!; try done; [by exists m|].
  intros u Hu Hs. apply not_true_iff_false in Ex. apply Ex. apply existsb_exists. exists u.
  split; [by apply list_elem_of_In|]. by apply bool_decide_eq_true_2.
Qed.

Lemma retain_seen parent child spent e r :
  (forall x, x ∈ seen_matchup_ids e <-> x ∈ (mr_id <$> observed_matchups e)) ->
  (forall u, u ∈ seen_draws e <-> exists r, r ∈ observed_matchups e /\ u ∈ draw_units r) ->
  let e' := retain parent child spent e r in
  (forall x, x ∈ seen_matchup_ids e' <-> x ∈ (mr_id <$> observed_matchups e'))
  /\ (forall u, u ∈ seen_draws e' <-> exists r, r ∈ observed_matchups e' /\ u ∈ draw_units r).
Proof.
  intros Hi Hd. cbn. split.
  - intros x. rewrite elem_of_cons, Hi, fmap_app. cbn. set_solver.
  - intros u. rewrite elem_of_app, Hd. setoid_rewrite elem_of_app.
    setoid_rewrite list_elem_of_singleton. naive_solver.
Qed.

Lemma ForallOrdPairs_snoc {A} (R : A -> A -> Prop) l x :
  ForallOrdPairs R l -> Forall (fun y => R y x) l -> ForallOrdPairs R (l ++ [x]).
Proof.
  induction 1 as [|y l Hy _ IH]; cbn; [intros _; repeat constructor|].
  intros [Hyx Hl]%Forall_cons. constructor; [|auto]. apply Forall_app. by split; [|repeat constructor].
Qed.

Lemma retain_evidence_ok sel extras parent child e r :
  evidence_ok sel extras parent child e ->
  evidence_ok sel (extras ++ [r]) parent child (retain parent child 1 e r).
Proof.
  intros []. destruct (retain_seen parent child 1 e r) as [Hi Hd]; [done..|].
  split; [|exact Hi|exact Hd| | | |]; cbn [retain observed_matchups audit].
  - by rewrite eo_observed0, app_assoc.
  - destruct (admitted _); [by apply sublist_app|]. by apply sublist_inserts_r.
  - destruct (admitted _) eqn:Ea; [|done]. apply Forall_app. split; [done|].
    apply Forall_singleton. by apply eligibility_admitted in Ea as (_ & ? & _).
  - destruct (admitted _) eqn:Ea; [|done]. apply eligibility_admitted in Ea as (_ & _ & Hfresh).
    intros r' s [?| ->%list_elem_of_singleton]%elem_of_app Hs; [by apply eo_selection0|].
    intros u Hu Hus. apply (Hfresh u Hu). apply eo_draws0. exists s. split; [|done].
    rewrite eo_observed0. set_solver.
  - destruct (admitted _) eqn:Ea; [|done]. apply eligibility_admitted in Ea as (_ & _ & Hfresh).
    apply ForallOrdPairs_snoc; [done|]. apply Forall_forall. intros y Hy u Hu Hur.
    apply (Hfresh u Hur), eo_draws0. exists y. split; [|done]. rewrite eo_observed0. apply elem_of_app. right.
    by eapply elem_of_sublist.
Qed.

Lemma selection_evidence_ok sel parent child :
  evidence_ok sel [] parent child (foldl (retain parent child 0) no_evidence sel).
Proof.
  induction sel as [|r sel IH] using rev_ind.
  { split; cbn; first [done | set_solver | constructor]. }
  rewrite foldl_app. cbn [foldl]. destruct IH.
  destruct (retain_seen parent child 0 (foldl (retain parent child 0) no_evidence sel) r) as [Hi Hd]; [done..|].
  assert (Haud : audit (foldl (retain parent child 0) no_evidence sel) = []) by (by apply sublist_nil_r).
  split; [|exact Hi|exact Hd| | | |]; cbn [retain observed_matchups audit eligibility Z.eqb];
    change (admitted "selection_only") with false; cbv iota; rewrite ?Haud; try done; [|set_solver|constructor].
  by rewrite eo_observed0, !app_nil_r.
Qed.

(** ** The loop *)

Section LoopSpec.
Context `{PyFormat} `{Libm}.

(** How a confirmation ends: on a verdict over the evidence gathered within the
    budget, satisfied or inconclusive. *)
Record confirm_outcome (decision : SelectionDecision) (parent child : string)
    (pre_gate : EvidencePreGate) (notify : bool) (planned : Z) (c : Confirmed) : Prop := {
  co_ends : exists v history e extras,
    c = _finalize decision v (observed_matchups e) history child notify
    /\ evidence_ok (sd_matchups decision) extras parent child e
    /\ (Z.of_nat (length extras) <= pg_replicate_budget pre_gate)%Z
    /\ (0 <= ev_replicates_spent v <= pg_replicate_budget pre_gate)%Z
    /\ ((ev_confirmation_status v = SATISFIED
         /\ evidenced (audit e) parent child (pg_threshold pre_gate)
              (planned * (pg_replicate_budget pre_gate + 1)))
        \/ (ev_confirmation_status v = INCOMPLETE /\ ev_decision v = ev_inconclusive));
}.

Lemma confirm_loop_ok decision parent child pre_gate replicate notify planned fuel spent history e extras :
  (1 <= planned)%Z -> (Z.of_nat spent <= pg_replicate_budget pre_gate)%Z ->
  (pg_replicate_budget pre_gate - Z.of_nat spent < Z.of_nat fuel)%Z -> length extras = spent ->
  evidence_ok (sd_matchups decision) extras parent child e ->
  exists c, confirm_loop fuel decision parent child pre_gate replicate notify planned spent history e
            = Some (Ok c)
    /\ confirm_outcome decision parent child pre_gate notify planned c.
Proof.
  intros Hpl. revert spent history e extras. induction fuel as [|fuel IH];
    intros spent history e extras Hs Hf Hlen He; [lia|]. cbn [confirm_loop].
  destruct (evidence_verdict_ok ev_promoted (sd_reason decision) (audit e) parent child
    (pg_threshold pre_gate) (pg_replicate_budget pre_gate) (Z.of_nat spent) planned)
    as (v & Hv & Hsp & _ & Hprom); [lia|done|]. rewrite Hv.
  destruct (Hprom eq_refl) as [(Hst & _ & _ & Hev)|[Hst _]].
  { rewrite bool_decide_eq_true_2 by done. eexists. split; [reflexivity|]. split.
    eexists _, _, e, extras. split; [reflexivity|]. cbn. rewrite Hsp. split_and!; [done|lia..|by left]. }
  rewrite bool_decide_eq_false_2 by (cbn; by rewrite Hst).
  destruct replicate as [replicate|].
  2:{ eexists. split; [reflexivity|]. split. eexists _, _, e, extras. split; [reflexivity|]. cbn.
      rewrite Hsp. split_and!; [done|lia..|by right]. }
  destruct (Z.leb_spec (pg_replicate_budget pre_gate) (Z.of_nat spent)) as [Hge|Hlt].
  { eexists. split; [reflexivity|]. split. eexists _, _, e, extras. split; [reflexivity|]. cbn.
    rewrite Hsp. split_and!; [done|lia..|by right]. }
  destruct (replicate spent parent child) as [r|exc].
  - apply IH with (extras := extras ++ [r]); [lia|lia|rewrite length_app; cbn; lia|].
    by apply retain_evidence_ok.
  - eexists. split; [reflexivity|]. split. eexists _, _, e, extras. split; [reflexivity|].
    cbn [terminated ev_replicates_spent ev_confirmation_status ev_decision with_attempts].
    split_and!; [done|lia..|by right].
Qed.

Lemma confirm_promotion_ok decision champ pre_gate replicate notify planned child :
  (0 <= pg_replicate_budget pre_gate)%Z -> (1 <= planned)%Z ->
  sd_decision decision = PROMOTED -> sd_promoted_generation_id decision = Some child ->
  exists c, confirm_promotion_with_evidence decision champ pre_gate replicate notify planned = Some (Ok c)
    /\ confirm_outcome decision (generation_id champ) child pre_gate notify planned c.
Proof.
  intros Hb Hpl Hd Hc. unfold confirm_promotion_with_evidence. rewrite Hd, Hc.
  eapply confirm_loop_ok with (extras := []); [done|cbn; lia| |done|apply selection_evidence_ok].
  unfold confirm_fuel. lia.
Qed.

Lemma confirm_passes_through decision champ pre_gate replicate notify planned :
  sd_decision decision <> PROMOTED \/ sd_promoted_generation_id decision = None ->
  confirm_promotion_with_evidence decision champ pre_gate replicate notify planned
  = Some (Ok {| cf_decision := decision; cf_evidence := None; cf_dead_letter := None |}).
Proof.
  unfold confirm_promotion_with_evidence. intros [Hd|Hc].
  - by destruct (sd_decision decision).
  - rewrite Hc. by destruct (sd_decision decision).
Qed.
End LoopSpec.

(** C34.  Confirming a proposed promotion always terminates, within its replicate
    budget: it keeps every duel of the tournament and appends at most the budget's
    extra draws.  It either keeps exactly the proposed crown, satisfied, or holds
    it: nothing is promoted, the decision is deferred, the verdict is inconclusive
    and the dead-letter callback, when there is one, receives it.  Any other
    decision passes through untouched. *)
Theorem confirmation_terminates_in_budget `{PyFormat} `{Libm} decision champ pre_gate replicate notify
    planned :
  (0 <= pg_replicate_budget pre_gate)%Z -> (1 <= planned)%Z ->
  exists c, confirm_promotion_with_evidence decision champ pre_gate replicate notify planned = Some (Ok c)
    /\ match sd_decision decision, sd_promoted_generation_id decision with
       | PROMOTED, Some child =>
           exists res extras, cf_evidence c = Some res
           /\ (0 <= ev_replicates_spent (er_verdict res) <= pg_replicate_budget pre_gate)%Z
           /\ sd_matchups (cf_decision c) = sd_matchups decision ++ extras
           /\ (Z.of_nat (length extras) <= pg_replicate_budget pre_gate)%Z
           /\ ((ev_confirmation_status (er_verdict res) = SATISFIED
                /\ sd_decision (cf_decision c) = PROMOTED
                /\ sd_promoted_generation_id (cf_decision c) = Some child /\ cf_dead_letter c = None)
               \/ (ev_decision (er_verdict res) = ev_inconclusive
                   /\ sd_decision (cf_decision c) = DEFERRED
                   /\ sd_promoted_generation_id (cf_decision c) = None
                   /\ cf_dead_letter c = if notify then Some res else None))
       | _, _ => cf_decision c = decision /\ cf_evidence c = None
       end.
Proof.
  intros Hb Hpl. destruct (decide (sd_decision decision = PROMOTED)) as [Hd|Hd].
  2:{ rewrite confirm_passes_through by auto. eexists. split; [reflexivity|]. by destruct (sd_decision decision). }
  destruct (sd_promoted_generation_id decision) as [child|] eqn:Hc.
  2:{ rewrite confirm_passes_through by auto. eexists. split; [reflexivity|]. by destruct (sd_decision decision). }
  destruct (confirm_promotion_ok decision champ pre_gate replicate notify planned child)
    as (c & Hconf & [(v & h & e & extras & -> & He & Hl & Hs & Hend)]); [done..|].
  exists (_finalize decision v (observed_matchups e) h child notify). split; [done|]. rewrite Hd.
  exists {| er_verdict := v; er_ci_history := h |}, extras. unfold _finalize.
  destruct Hend as [[Hst _]|[Hst Hi]].
  - rewrite bool_decide_eq_true_2 by done. cbn.
    split_and!; [done|lia..|apply (eo_observed _ _ _ _ _ He)|done|by left].
  - rewrite bool_decide_eq_false_2 by congruence. cbn.
    split_and!; [done|lia..|apply (eo_observed _ _ _ _ _ He)|done|by right].
Qed.

(** C6.  A crown that survives confirmation rests on fresh evidence alone: complete,
    finite duels of exactly the crowned pair, drawn for confirmation among the extra
    draws, no two of which share a measurement of a contestant and none of which
    shares one with the tournament's own duels; three at least are resolved, and
    the strength difference fitted to them, and to nothing else, clears the
    threshold with a positive adjusted lower bound. *)
Theorem confirmed_crown_is_evidenced `{PyFormat} `{Libm} decision champ pre_gate replicate notify planned
    child c :
  (0 <= pg_replicate_budget pre_gate)%Z -> (1 <= planned)%Z ->
  sd_decision decision = PROMOTED -> sd_promoted_generation_id decision = Some child ->
  confirm_promotion_with_evidence decision champ pre_gate replicate notify planned = Some (Ok c) ->
  sd_decision (cf_decision c) = PROMOTED ->
  exists extras used, sd_matchups (cf_decision c) = sd_matchups decision ++ extras
    /\ sublist used extras /\ Forall (admissible (generation_id champ) child) used
    /\ ForallOrdPairs disjoint_draws used
    /\ (forall r s, r ∈ used -> s ∈ sd_matchups decision -> disjoint_draws r s)
    /\ evidenced used (generation_id champ) child (pg_threshold pre_gate)
         (planned * (pg_replicate_budget pre_gate + 1)).
Proof.
  intros Hb Hpl Hd Hc Hconf Hprom.
  destruct (confirm_promotion_ok decision champ pre_gate replicate notify planned child)
    as (c' & Hconf' & [(v & h & e & extras & -> & He & Hl & Hs & Hend)]); [done..|].
  rewrite Hconf in Hconf'. injection Hconf' as ->. exists extras, (audit e).
  destruct Hend as [[Hst Hev]|[Hst Hi]].
  - destruct He. unfold _finalize. rewrite bool_decide_eq_true_2 by done. by split_and!.
  - unfold _finalize in Hprom. rewrite bool_decide_eq_false_2 in Hprom by congruence. done.
Qed.

(** ** Fresh draws *)

Lemma confirmation_id_inj i j l r : confirmation_id i l r = confirmation_id j l r -> i = j.
Proof.
  unfold confirmation_id. intros H%(inj (String.append _)). apply str_app_inv_r in H. by apply (inj pretty) in H.
Qed.

(** A runner that honours a reserved draw: the result answers the matchup at the
    draw requested, whatever seed it recorded, and is complete and finite. *)
Definition reserved_answer (k : nat) (l r : string) (res : MatchupResult) : Prop :=
  mr_id res = confirmation_id k l r /\ mr_left_id res = l /\ mr_right_id res = r
  /\ execution_complete res = true /\ isfinite (delta_scalar (mr_outcome res)) = true
  /\ exists seed, mr_measurement_draw res = Some {| purpose := CONFIRMATION; draw := k; base_seed := seed |}.

Definition honours_draws (run : Matchup -> MeasurementDraw -> bool -> result MatchupResult) : Prop :=
  forall k l r, exists res,
    run (confirmation_matchup k l r) (confirmation_draw k) false = Ok res /\ reserved_answer k l r res.

(** Tournament duels draw for other purposes, under ids of their own. *)
Definition selection_only (l r : string) (sel : list MatchupResult) : Prop :=
  forall s, s ∈ sel -> (forall k, mr_id s <> confirmation_id k l r)
    /\ forall m, mr_measurement_draw s = Some m -> purpose m <> CONFIRMATION.

Definition draws_in_order (l r : string) (extras : list MatchupResult) : Prop :=
  forall k res, extras !! k = Some res -> reserved_answer k l r res.

Definition attempt_used (a : EvidenceAttempt) : Prop :=
  at_budget_spent a = 0%Z \/ admitted (at_eligibility a) = true.

Lemma same_pair_refl l r : same_pair l r l r = true.
Proof. unfold same_pair. rewrite !bool_decide_eq_true_2 by set_solver. done. Qed.

Lemma fresh_draw_admitted sel extras l r e res :
  l <> r -> selection_only l r sel -> draws_in_order l r extras ->
  evidence_ok sel extras l r e -> reserved_answer (length extras) l r res ->
  admitted (eligibility l r 1 res e) = true.
Proof.
  intros Hlr Hsel Hord [] (Hid & Hl & Hr & Hcomp & Hfin & seed & Hm). unfold eligibility. cbn [Z.eqb].
  rewrite bool_decide_eq_false_2.
  2:{ rewrite eo_ids0, eo_observed0, Hid. intros (s & Hs & Hin)%list_elem_of_fmap.
      apply elem_of_app in Hin as [Hin|Hin]; [by destruct (proj1 (Hsel s Hin) (length extras))|].
      apply list_elem_of_lookup_1 in Hin as [k Hk]. destruct (Hord k s Hk) as (Hs' & _).
      rewrite Hs' in Hs. apply confirmation_id_inj in Hs as <-.
      apply lookup_lt_Some in Hk. lia. }
  rewrite Hl, Hr, same_pair_refl, Hcomp, Hfin, Hm. cbn [negb].
  rewrite (proj2 (String.eqb_neq l r)) by done. rewrite bool_decide_eq_true_2 by done. cbn [negb].
  destruct (existsb _ _) eqn:Ex; [|by destruct (feq _ _)]. exfalso.
  apply existsb_exists in Ex as (u & Hu & Hseen%bool_decide_eq_true). apply list_elem_of_In in Hu.
  assert (Hu2 : u.2 = {| purpose := CONFIRMATION; draw := length extras; base_seed := seed |}).
  { unfold draw_units in Hu. rewrite Hm in Hu. set_solver. }
  apply eo_draws0 in Hseen as (s & Hs & Hus). rewrite eo_observed0 in Hs.
  assert (Hsm : mr_measurement_draw s = Some u.2).
  { unfold draw_units in Hus. destruct (mr_measurement_draw s); set_solver. }
  apply elem_of_app in Hs as [Hs|Hs].
  - destruct (proj2 (Hsel s Hs) _ Hsm). by rewrite Hu2.
  - apply list_elem_of_lookup_1 in Hs as [k Hk]. destruct (Hord k s Hk) as (_ & _ & _ & _ & _ & seed' & Hm').
    rewrite Hsm, Hu2 in Hm'. injection Hm' as Hlen _. apply lookup_lt_Some in Hk. lia.
Qed.

Lemma selection_attempts_used sel l r :
  Forall attempt_used (attempts (foldl (retain l r 0) no_evidence sel)).
Proof.
  induction sel as [|s sel IH] using rev_ind; [constructor|]. rewrite foldl_app. cbn.
  apply Forall_app. split; [done|]. apply Forall_singleton. by left.
Qed.

Lemma fresh_loop_used `{PyFormat} `{Libm} decision l r pre_gate run notify planned fuel spent history e extras c :
  l <> r -> honours_draws run -> selection_only l r (sd_matchups decision) -> draws_in_order l r extras ->
  length extras = spent -> evidence_ok (sd_matchups decision) extras l r e ->
  Forall attempt_used (attempts e) ->
  confirm_loop fuel decision l r pre_gate (Some (make_evidence_replicate_duel run)) notify planned spent
    history e = Some (Ok c) ->
  exists res, cf_evidence c = Some res /\ Forall attempt_used (ev_attempts (er_verdict res)).
Proof.
  intros Hlr Hrun Hsel. revert spent history e extras.
  induction fuel as [|fuel IH]; intros spent history e extras Hord Hlen He Ha; [done|]. cbn [confirm_loop].
  assert (Hfin : forall v h o, ev_attempts v = attempts e ->
    exists res, cf_evidence (_finalize decision v o h r notify) = Some res
                /\ Forall attempt_used (ev_attempts (er_verdict res))).
  { intros v h o Hv. exists {| er_verdict := v; er_ci_history := h |}. unfold _finalize.
    case_bool_decide; (split; [done|]); cbn; by rewrite Hv. }
  destruct (evidence_verdict _ _ _ _ _ _ _ _ _) as [v|]; [|done].
  case_bool_decide; [intros [= <-]; by apply Hfin|].
  destruct (Z.leb _ _); [intros [= <-]; by apply Hfin|].
  unfold make_evidence_replicate_duel at 1. destruct (Hrun spent l r) as (res & -> & Hres). subst spent.
  apply IH with (extras := extras ++ [res]).
  - intros k r' [Hk|[Hk Hr']]%lookup_app_Some; [by apply Hord|].
    apply list_lookup_singleton_Some in Hr' as [Hk' ->]. by replace k with (length extras) by lia.
  - rewrite length_app. cbn. lia.
  - by apply retain_evidence_ok.
  - cbn. apply Forall_app. split; [done|]. apply Forall_singleton. right. cbn.
    by eapply fresh_draw_admitted.
Qed.

(** No replicate is wasted on the bookkeeping: with the driver's own replicate
    factory over a runner that honours the draw it is handed, every extra draw has
    a new matchup id and a new measurement identity, so each one requested is
    admitted to the evidence (a tie included) and none is refused as a duplicate, a
    repeat or an unexpected pair. *)
Theorem fresh_draws_all_admitted `{PyFormat} `{Libm} decision champ pre_gate run notify planned child c :
  honours_draws run -> generation_id champ <> child ->
  selection_only (generation_id champ) child (sd_matchups decision) ->
  sd_decision decision = PROMOTED -> sd_promoted_generation_id decision = Some child ->
  confirm_promotion_with_evidence decision champ pre_gate (Some (make_evidence_replicate_duel run))
    notify planned = Some (Ok c) ->
  exists res, cf_evidence c = Some res
    /\ forall a, a ∈ ev_attempts (er_verdict res) -> at_budget_spent a <> 0%Z ->
         admitted (at_eligibility a) = true.
Proof.
  intros Hrun Hlr Hsel Hd Hc Hconf. unfold confirm_promotion_with_evidence in Hconf. rewrite Hd, Hc in Hconf.
  destruct (fresh_loop_used decision _ _ pre_gate run notify planned _ _ _ _ [] c Hlr Hrun Hsel
    ltac:(done) eq_refl (selection_evidence_ok _ _ _) (selection_attempts_used _ _ _) Hconf) as (res & Hres & Hall).
  exists res. split; [done|]. intros a Ha Hne. rewrite Forall_forall in Hall. by destruct (Hall a Ha).
Qed.

(** ** The whole evaluation *)

(** A confirmed crown is still the gate's. *)
Lemma confirm_keeps_gate `{PyFormat} `{Libm} decision champ chs pre_gate replicate notify planned c :
  crowned_by_gate champ chs decision -> (0 <= pg_replicate_budget pre_gate)%Z -> (1 <= planned)%Z ->
  confirm_promotion_with_evidence decision champ pre_gate replicate notify planned = Some (Ok c) ->
  crowned_by_gate champ chs (cf_decision c).
Proof.
  intros Hg Hb Hpl Hconf gid Hgid. unfold crowned_by_gate in Hg.
  destruct (decide (sd_decision decision = PROMOTED)) as [Hd|Hd].
  2:{ rewrite confirm_passes_through in Hconf by auto. injection Hconf as <-. by apply Hg. }
  destruct (sd_promoted_generation_id decision) as [child|] eqn:Hc.
  2:{ rewrite confirm_passes_through in Hconf by auto. injection Hconf as <-. cbn in Hgid. congruence. }
  destruct (confirm_promotion_ok decision champ pre_gate replicate notify planned child)
    as (c' & Hconf' & [(v & h & e & extras & -> & He & _)]); [done..|].
  rewrite Hconf in Hconf'. injection Hconf' as ->. unfold _finalize in Hgid |- *.
  case_bool_decide; [|done]. cbn in Hgid |- *. injection Hgid as <-.
  destruct (Hg child eq_refl) as (_ & Hf & r & Hin & Hr). split_and!; [done|done|]. exists r. split; [|done].
  rewrite (eo_observed _ _ _ _ _ He). set_solver.
Qed.

(** The whole evaluation of a tournament, of any structure and with or without
    the evidence pre-gate, terminates over duels that answer their matchups, and
    can only promote a challenger that the gate promoted in a recorded duel against
    the champion: the pre-gate never adds a promotion. *)
Theorem evaluate_with_evidence_crowned_by_gate {S} `{PyFormat} `{Libm} `{SelectionLaws S}
    request_field run (strategy : S) champ chs n pre_gate replicate notify :
  fresh strategy -> request_field (field_size strategy) = Ok (champ, chs) -> fields chs ->
  answering run -> (forall s, seed champ chs strategy = Ok s -> fuel s < n) ->
  (1 <= field_size strategy)%Z ->
  (forall g, pre_gate = Some g -> 0 <= pg_replicate_budget g)%Z ->
  exists c, evaluate_tournament_with_evidence request_field run n strategy pre_gate replicate notify
            = Some (Ok c)
    /\ crowned_by_gate champ chs (cf_decision c).
Proof.
  intros Hf Hreq Hfields Hrun Hn Hsize Hbud.
  destruct (evaluate_tournament_drive request_field run strategy champ chs n Hf Hreq Hfields Hrun Hn)
    as (s0 & s & Hseed & Hdrive & _ & Hinv & _).
  unfold evaluate_tournament_with_evidence. rewrite Hreq, Hseed, Hdrive.
  pose proof (crown_law champ chs s Hinv) as Hg. destruct pre_gate as [g|]; [|by eexists].
  specialize (Hbud g eq_refl).
  assert (exists c, confirm_promotion_with_evidence (champion s) champ g replicate notify (field_size strategy)
            = Some (Ok c)) as [c Hc].
  { destruct (decide (sd_decision (champion s) = PROMOTED)) as [Hd|Hd].
    2:{ rewrite confirm_passes_through by auto. by eexists. }
    destruct (sd_promoted_generation_id (champion s)) as [child|] eqn:Ep.
    2:{ rewrite confirm_passes_through by auto. by eexists. }
    destruct (confirm_promotion_ok (champion s) champ g replicate notify (field_size strategy) child)
      as (c & Hc & _); [done..|]. by exists c. }
  exists c. split; [done|]. by eapply confirm_keeps_gate.
Qed.

Module ConfirmationWitness.
#[local] Existing Instance plain_format.
#[local] Existing Instance plain_repr.
#[local] Existing Instance plain_libm.

(** A runner that honours the draw it is handed: the challenger wins. *)
Definition reserved_duel (m : Matchup) (d : MeasurementDraw) (_ : bool) : result MatchupResult :=
  try r <- duel 0 m;
  Ok {| mr_id := mr_id r; mr_left_id := mr_left_id r; mr_right_id := mr_right_id r;
        mr_left_agg := mr_left_agg r; mr_right_agg := mr_right_agg r; mr_outcome :=
          {| decision := PROMOTED; reason := ""; delta_scalar := fneg 0.25%float; delta_pass_rate := f0;
             attributable_regressions := []; explanation := None |};
        mr_stage_index := mr_stage_index r; mr_bracket_slot := mr_bracket_slot r;
        mr_measurement_draw := Some d |}.

Lemma reserved_duel_honours : honours_draws reserved_duel.
Proof.
  intros k l r. eexists. split; [reflexivity|].
  split_and!; [reflexivity|reflexivity|reflexivity|reflexivity|vm_compute; reflexivity|].
  exists None. reflexivity.
Qed.

(** The decision of the four-challenger bracket: "v3" is promoted. *)
Definition crown : SelectionDecision :=
  match evaluate_tournament request_field4 duel 5 SingleElimWitness.strategy with
  | Some (Ok d) => d
  | _ => {| sd_promoted_generation_id := None; sd_decision := REJECTED; sd_reason := "";
            sd_matchups := []; sd_crowning_matchup_id := ""; sd_standings := [] |}
  end.

Definition pre_gate (threshold : float) : EvidencePreGate :=
  {| pg_threshold := threshold; pg_replicate_budget := 8 |}.

Definition confirm (threshold : float) : option (result Confirmed) :=
  confirm_promotion_with_evidence crown incumbent (pre_gate threshold)
    (Some (make_evidence_replicate_duel reserved_duel)) true 2.

(** Three confirming wins are enough at a modest threshold. *)
Definition confirmed : Confirmed :=
  match confirm 0.6%float with
  | Some (Ok c) => c
  | _ => {| cf_decision := crown; cf_evidence := None; cf_dead_letter := None |}
  end.

Example confirmed_value :
  sd_decision (cf_decision confirmed) = PROMOTED
  /\ (fun res => ev_replicates_spent (er_verdict res)) <$> cf_evidence confirmed = Some 3%Z.
Proof. vm_compute. split; reflexivity. Qed.

Lemma evidence_verdict_only_holds_witness :
  exists v, evidence_verdict ev_promoted "won" [] "v0" "v3" 0.8%float 4 4 1 = Ok v
    /\ (ev_decision v = ev_promoted <-> ev_promoted = ev_promoted /\ ev_confirmation_status v = SATISFIED).
Proof.
  destruct (evidence_verdict_only_holds ev_promoted "won" [] "v0" "v3" 0.8%float 4 4 1)
    as (v & Hv & _ & Hiff & _); [discriminate|discriminate|].
  exists v. exact (conj Hv Hiff).
Defined.

Lemma confirmation_terminates_in_budget_witness :
  exists c, confirm 0.9%float = Some (Ok c).
Proof.
  destruct (confirmation_terminates_in_budget crown incumbent (pre_gate 0.9%float)
    (Some (make_evidence_replicate_duel reserved_duel)) true 2) as (c & Hc & _); [discriminate|discriminate|].
  exists c. exact Hc.
Defined.

Lemma confirmed_crown_is_evidenced_witness :
  exists used, evidenced used "v0" "v3" 0.6%float (2 * (8 + 1)).
Proof.
  destruct (confirmed_crown_is_evidenced crown incumbent (pre_gate 0.6%float)
    (Some (make_evidence_replicate_duel reserved_duel)) true 2 "v3" confirmed)
    as (_ & used & _ & _ & _ & _ & _ & Hev).
  - discriminate.
  - discriminate.
  - vm_compute. reflexivity.
  - vm_compute. reflexivity.
  - vm_compute. reflexivity.
  - vm_compute. reflexivity.
  - exists used. exact Hev.
Defined.

Lemma fresh_draws_all_admitted_witness :
  exists res, cf_evidence confirmed = Some res
    /\ forall a, a ∈ ev_attempts (er_verdict res) -> at_budget_spent a <> 0%Z ->
         admitted (at_eligibility a) = true.
Proof.
  apply (fresh_draws_all_admitted crown incumbent (pre_gate 0.6%float) reserved_duel true 2 "v3").
  - exact reserved_duel_honours.
  - discriminate.
  - assert (Hall : Forall (fun r => negb (str_startswith "confirmation" (mr_id r)) = true
                              /\ mr_measurement_draw r = None) (sd_matchups crown))
      by (vm_compute; repeat constructor).
    intros r Hr. destruct (proj1 (Forall_forall _ _) Hall r Hr) as [Hid Hm]. split.
    + intros k E. rewrite E in Hid. discriminate.
    + intros m E. congruence.
  - vm_compute. reflexivity.
  - vm_compute. reflexivity.
  - vm_compute. reflexivity.
Defined.

Lemma evaluate_with_evidence_crowned_by_gate_witness :
  exists c, evaluate_tournament_with_evidence request_field4 duel 5 SingleElimWitness.strategy
              (Some (pre_gate 0.6%float)) (Some (make_evidence_replicate_duel reserved_duel)) true
            = Some (Ok c)
    /\ crowned_by_gate incumbent field4 (cf_decision c).
Proof.
  apply (evaluate_with_evidence_crowned_by_gate request_field4 duel SingleElimWitness.strategy).
  - apply SingleElimWitness.single_elim_strategy_fresh.
  - reflexivity.
  - exact I.
  - apply duel_answers.
  - intros s [= <-]. vm_compute. lia.
  - vm_compute. discriminate.
  - intros g [= <-]. discriminate.
Defined.
End ConfirmationWitness.
