(* ===== verification/Registry.v ===== *)
(** From a structure token to a running strategy,
    [src/zicato/selection/registry.py]. *)

From S2P Require Import Prelude PyFloat PyJson CoreTypes Gate Params Strategy ChampionGate Gauntlet.
From S2P Require Import SingleElim DoubleElim Swiss Racing.

(** The concrete classes, and what the registry reads off each. *)
Inductive StrategyClass :=
  GauntletClass | RacingClass | SingleEliminationClass | DoubleEliminationClass | SwissClass.

Definition structure (c : StrategyClass) : string :=
  match c with
  | GauntletClass => "gauntlet" | RacingClass => "racing" | SingleEliminationClass => "single_elim"
  | DoubleEliminationClass => "double_elim" | SwissClass => "swiss"
  end.

Definition parameter_names (c : StrategyClass) : list string :=
  match c with
  | GauntletClass => base_parameter_names
  | RacingClass => racing_parameter_names
  | SingleEliminationClass | DoubleEliminationClass => gate_parameter_names ++ ["rating"; "resolver"]
  | SwissClass => gate_parameter_names ++ ["rating"; "resolver"; "rounds_n"]
  end.

Definition _default_replicates (c : StrategyClass) : Z :=
  match c with RacingClass => 1 | _ => 2 end.

Definition STRATEGY_REGISTRY : list (string * StrategyClass) :=
  [(structure GauntletClass, GauntletClass); (structure RacingClass, RacingClass)].

Definition EXPERIMENTAL_STRATEGY_REGISTRY : list (string * StrategyClass) :=
  [(structure SingleEliminationClass, SingleEliminationClass);
   (structure DoubleEliminationClass, DoubleEliminationClass); (structure SwissClass, SwissClass)].

Definition strategy_class_for (token : string) : option StrategyClass :=
  match dict_get STRATEGY_REGISTRY token with
  | Some c => Some c
  | None => dict_get EXPERIMENTAL_STRATEGY_REGISTRY token
  end.

Definition default_replicates_for (token : string) : Z :=
  match strategy_class_for token with Some c => _default_replicates c | None => 1 end.

(** The fields of [ExperimentalConfig] the registry reads. *)
Record ExperimentalConfig := {
  tournament_structures : bool;
  standing_rating : string;
  resolver : string;
}.

Definition default_experimental : ExperimentalConfig :=
  {| tournament_structures := false; standing_rating := "none"; resolver := "none" |}.

(** An instance of one of the classes. *)
Inductive AnyStrategy :=
  | AGauntlet (s : GauntletStrategy)
  | ARacing (s : Racing)
  | ASingleElim (s : SingleElim)
  | ADoubleElim (s : DoubleElim)
  | ASwiss (s : Swiss).

Section Registry.
Context `{PyFormat} `{PyRepr} `{Libm}.

(** [cls(params)] *)
Definition construct (c : StrategyClass) (params : Params) : result AnyStrategy :=
  match c with
  | GauntletClass => try s <- gauntlet_init (Some params); Ok (AGauntlet s)
  | RacingClass => try s <- racing_init (Some params); Ok (ARacing s)
  | SingleEliminationClass => try s <- single_elim_init (Some params); Ok (ASingleElim s)
  | DoubleEliminationClass => try s <- double_elim_init (Some params); Ok (ADoubleElim s)
  | SwissClass => try s <- swiss_init (Some params); Ok (ASwiss s)
  end.

(** [for key in ("rating", "resolver")] *)
Definition moved_params (params : Params) : result unit :=
  ensure negb (dict_mem params "rating")
    orelse ValueError "move tournament.params.rating to experimental.standing_rating";
  ensure negb (dict_mem params "resolver")
    orelse ValueError "move tournament.params.resolver to experimental.resolver";
  Ok tt.

Definition resolve_class (spec : TournamentStructure) (experimental : ExperimentalConfig)
    : result StrategyClass :=
  match dict_get STRATEGY_REGISTRY (ts_structure spec) with
  | Some c => Ok c
  | None =>
      match dict_get EXPERIMENTAL_STRATEGY_REGISTRY (ts_structure spec) with
      | Some c =>
          ensure tournament_structures experimental
            orelse ValueError (experimental_structure_refusal (ts_structure spec));
          Ok c
      | None =>
          Raise (ValueError ("unknown tournament structure " +:+ py_repr (JStr (ts_structure spec))
                             +:+ "; registered structures are: "
                             +:+ py_join ", " ((fun k => py_repr (JStr k))
                                               <$> sorted_strings (dict_keys STRATEGY_REGISTRY))))
      end
  end.

(** [params[key] = value], when there is a value. *)
Definition set_param (key : string) (value : option Json) (params : Params) : Params :=
  match value with Some v => dict_set params key v | None => params end.

(** The same, when the key is absent: an explicit parameter wins. *)
Definition default_param (key : string) (value : option Json) (params : Params) : Params :=
  if dict_mem params key then params else set_param key value params.

Definition accepts (c : StrategyClass) (key : string) : bool := bool_decide (key ∈ parameter_names c).

Definition knob (token : string) : option Json :=
  if String.eqb token "none" then None else Some (JStr token).

Definition injected_params (c : StrategyClass) (params : Params) (board_ids : option (list string))
    (replicates : option Z) (noise_floor_delta_std : option float)
    (experimental : ExperimentalConfig) : Params :=
  let params :=
    if accepts c "rating" then set_param "rating" (knob (standing_rating experimental)) params
    else params in
  let params :=
    if accepts c "resolver" then set_param "resolver" (knob (resolver experimental)) params
    else params in
  let params :=
    if accepts c "board_ids"
    then default_param "board_ids" ((fun ids => JArr (JStr <$> ids)) <$> board_ids) params
    else params in
  let params := default_param "replicates" (JInt <$> replicates) params in
  if accepts c "noise_floor_delta_std"
  then default_param "noise_floor_delta_std" (JFloat <$> noise_floor_delta_std) params
  else params.

Definition make_strategy (spec : TournamentStructure) (board_ids : option (list string))
    (replicates : option Z) (noise_floor_delta_std : option float)
    (experimental : option ExperimentalConfig) : result AnyStrategy :=
  let experimental := from_option id default_experimental experimental in
  try _ <- moved_params (ts_params spec);
  try c <- resolve_class spec experimental;
  construct c (injected_params c (ts_params spec) board_ids replicates noise_floor_delta_std experimental).

(** ** The instance dispatches on the class *)

#[export] Instance any_strategy : SelectionStrategy AnyStrategy := {|
  field_size a :=
    match a with
    | AGauntlet s => field_size s | ARacing s => field_size s | ASingleElim s => field_size s
    | ADoubleElim s => field_size s | ASwiss s => field_size s
    end;
  replicates a :=
    match a with
    | AGauntlet s => replicates s | ARacing s => replicates s | ASingleElim s => replicates s
    | ADoubleElim s => replicates s | ASwiss s => replicates s
    end;
  seed champ chs a :=
    match a with
    | AGauntlet s => try s <- seed champ chs s; Ok (AGauntlet s)
    | ARacing s => try s <- seed champ chs s; Ok (ARacing s)
    | ASingleElim s => try s <- seed champ chs s; Ok (ASingleElim s)
    | ADoubleElim s => try s <- seed champ chs s; Ok (ADoubleElim s)
    | ASwiss s => try s <- seed champ chs s; Ok (ASwiss s)
    end;
  next_matchups a :=
    match a with
    | AGauntlet s => try p <- next_matchups s; Ok (p.1, AGauntlet p.2)
    | ARacing s => try p <- next_matchups s; Ok (p.1, ARacing p.2)
    | ASingleElim s => try p <- next_matchups s; Ok (p.1, ASingleElim p.2)
    | ADoubleElim s => try p <- next_matchups s; Ok (p.1, ADoubleElim p.2)
    | ASwiss s => try p <- next_matchups s; Ok (p.1, ASwiss p.2)
    end;
  record_result r a :=
    match a with
    | AGauntlet s => try s <- record_result r s; Ok (AGauntlet s)
    | ARacing s => try s <- record_result r s; Ok (ARacing s)
    | ASingleElim s => try s <- record_result r s; Ok (ASingleElim s)
    | ADoubleElim s => try s <- record_result r s; Ok (ADoubleElim s)
    | ASwiss s => try s <- record_result r s; Ok (ASwiss s)
    end;
  resolved a :=
    match a with
    | AGauntlet s => resolved s | ARacing s => resolved s | ASingleElim s => resolved s
    | ADoubleElim s => resolved s | ASwiss s => resolved s
    end;
  champion a :=
    match a with
    | AGauntlet s => champion s | ARacing s => champion s | ASingleElim s => champion s
    | ADoubleElim s => champion s | ASwiss s => champion s
    end;
  rounds a :=
    match a with
    | AGauntlet s => rounds s | ARacing s => rounds s | ASingleElim s => rounds s
    | ADoubleElim s => rounds s | ASwiss s => rounds s
    end;
  _pending_round a :=
    match a with
    | AGauntlet s => _pending_round s | ARacing s => _pending_round s
    | ASingleElim s => _pending_round s | ADoubleElim s => _pending_round s
    | ASwiss s => _pending_round s
    end;
  _live_standings a :=
    match a with
    | AGauntlet s => _live_standings s | ARacing s => _live_standings s
    | ASingleElim s => _live_standings s | ADoubleElim s => _live_standings s
    | ASwiss s => _live_standings s
    end;
|}.
End Registry.
