(* ===== verification/RegistrySpec.v ===== *)
(** Whatever strategy the registry constructs, driving it terminates and only the
    gate crowns; the replicate count reaches the strategy unchanged. *)

From S2P Require Import Prelude PyFloat PyJson CoreTypes Gate Params Strategy.
From S2P Require Import ChampionGate Driver Gauntlet SingleElim SingleElimSpec DoubleElim.
From S2P Require Import Bracket DoubleElimSpec Swiss SwissSpec Racing RacingSpec EvidenceGate.
From S2P Require Import Confirmation ConfirmationSpec Registry.

Section RegistrySpec.
Context `{PyFormat} `{PyRepr} `{Libm}.

(** ** The laws of the sum *)

Definition any_fresh (a : AnyStrategy) : Prop :=
  match a with
  | AGauntlet s => fresh s | ARacing s => fresh s | ASingleElim s => fresh s
  | ADoubleElim s => fresh s | ASwiss s => fresh s
  end.

Definition any_inv (champ : Contestant) (chs : list Contestant) (a : AnyStrategy) : Prop :=
  match a with
  | AGauntlet s => inv champ chs s | ARacing s => inv champ chs s | ASingleElim s => inv champ chs s
  | ADoubleElim s => inv champ chs s | ASwiss s => inv champ chs s
  end.

Definition any_fuel (a : AnyStrategy) : nat :=
  match a with
  | AGauntlet s => fuel s | ARacing s => fuel s | ASingleElim s => fuel s
  | ADoubleElim s => fuel s | ASwiss s => fuel s
  end.

(** Recording a batch through a constructor. *)
Lemma record_results_embed {S T} `{SelectionStrategy S, SelectionStrategy T} (C : S -> T) rs s s' :
  (forall r s, record_result r (C s) = try s <- record_result r s; Ok (C s)) ->
  record_results rs s = Ok s' -> record_results rs (C s) = Ok (C s').
Proof.
  intros HC. revert s. induction rs as [|r rs IH]; intros s; cbn; [by intros [= ->]|].
  rewrite HC. destruct (record_result r s) as [s1|]; cbn; [apply IH|done].
Qed.

(** A law of one structure, through its constructor. *)
Ltac batch_through C :=
  intros Hinv Hres Hnext Hne Hans;
  apply result_bind_ok in Hnext as ([ms0 s0] & Hnext & Heq); injection Heq as <- <-;
  destruct (batch_law _ _ _ _ _ _ Hinv Hres Hnext Hne Hans) as (s'' & Hs'' & Hinv'' & Hlt);
  exists (C s''); split; [apply (record_results_embed C); [done|exact Hs'']|done].

#[export] Instance any_laws : SelectionLaws AnyStrategy.
Proof.
  refine {| fresh := any_fresh; fields chs := chs <> []; inv := any_inv; fuel := any_fuel |}.
  - intros champ chs [s|s|s|s|s] Hf Hne; cbn [any_fresh any_inv seed any_strategy] in *;
      (destruct (seed_law champ chs s Hf) as (s' & Hs' & Hinv); [done|]);
      rewrite Hs'; eexists; (split; [reflexivity|exact Hinv]).
  - intros champ chs [s|s|s|s|s] Hinv Hres; cbn [any_inv next_matchups resolved any_strategy] in *;
      destruct (schedule_law champ chs s Hinv Hres) as (ms & s' & Hn & Hnil);
      rewrite Hn; eexists _, _; (split; [reflexivity|exact Hnil]).
  - intros champ chs [s|s|s|s|s] ms s' rs; cbn [any_inv any_fuel next_matchups resolved any_strategy] in *.
    + batch_through AGauntlet.
    + batch_through ARacing.
    + batch_through ASingleElim.
    + batch_through ADoubleElim.
    + batch_through ASwiss.
  - intros champ chs [s|s|s|s|s] Hinv; exact (crown_law champ chs s Hinv).
Defined.
End RegistrySpec.

(** ** Construction *)

Section Made.
Context `{PyFormat} `{PyRepr} `{Libm}.

(** The rung-0 slice of a race does not overflow. *)
Definition slice_ok (a : AnyStrategy) : Prop :=
  match a with ARacing s => exists b, rung_base_size (rc_knobs s) = Ok b | _ => True end.

Lemma construct_fresh c params a : construct c params = Ok a -> slice_ok a -> fresh a.
Proof.
  destruct c; cbn; intros (s & Hs & [= <-])%result_bind_ok Hok.
  - unfold gauntlet_init in Hs. apply result_bind_ok in Hs as (pr & _ & [= <-]). done.
  - by eapply racing_init_fresh.
  - by eapply single_elim_init_fresh.
  - by eapply double_elim_init_fresh.
  - by eapply swiss_init_fresh.
Qed.

Lemma make_strategy_construct spec board_ids reps noise experimental a :
  make_strategy spec board_ids reps noise experimental = Ok a ->
  exists c, resolve_class spec (from_option id default_experimental experimental) = Ok c
    /\ construct c (injected_params c (ts_params spec) board_ids reps noise
                      (from_option id default_experimental experimental)) = Ok a.
Proof. intros (_ & _ & (c & Hc & Ha)%result_bind_ok)%result_bind_ok. by exists c. Qed.

(** The count a constructed strategy runs. *)
Lemma strategy_init_replicates name names default params ps reps :
  strategy_init name names default (Some params) = Ok (ps, reps) ->
  _param_int params "replicates" default = Ok reps.
Proof.
  unfold strategy_init. cbn [from_option id]. destruct (List.filter _ _); [|done].
  intros (n & Hn & Hrest)%result_bind_ok. apply result_bind_ok in Hrest as (? & _ & Hrest).
  by apply result_bind_ok in Hrest as (? & _ & [= _ <-]).
Qed.

Lemma gate_init_replicates name names default knobs params b :
  gate_init name names default knobs (Some params) = Ok b ->
  _param_int params "replicates" default = Ok (gs_replicates b).
Proof.
  unfold gate_init. intros ([ps reps] & Hinit & Hrest)%result_bind_ok.
  apply result_bind_ok in Hrest as (? & _ & [= <-]). by eapply strategy_init_replicates.
Qed.

Lemma construct_replicates c params a :
  construct c params = Ok a -> _param_int params "replicates" (_default_replicates c) = Ok (replicates a).
Proof.
  destruct c; cbn -[_param_int]; intros (s & Hs & [= <-])%result_bind_ok; cbn -[_param_int].
  - unfold gauntlet_init in Hs. apply result_bind_ok in Hs as ([ps reps] & Hinit & [= <-]).
    by eapply strategy_init_replicates.
  - apply result_bind_ok in Hs as (b & Hb & Hs). apply result_bind_ok in Hs as (k & _ & [= <-]).
    by eapply gate_init_replicates.
  - apply result_bind_ok in Hs as (b & Hb & [= <-]). by eapply gate_init_replicates.
  - apply result_bind_ok in Hs as (b & Hb & [= <-]). by eapply gate_init_replicates.
  - apply result_bind_ok in Hs as (b & Hb & Hs). apply result_bind_ok in Hs as (k & _ & [= <-]).
    by eapply gate_init_replicates.
Qed.

(** Every structure plans for a challenger at least. *)
Lemma gate_init_field_size name names default knobs params b :
  gate_init name names default knobs params = Ok b -> (1 <= gs_field_size b)%Z.
Proof.
  unfold gate_init. intros ([ps reps] & _ & (size & _ & [= <-])%result_bind_ok)%result_bind_ok.
  cbn [gs_field_size]. lia.
Qed.

Lemma construct_field_size c params a : construct c params = Ok a -> (1 <= field_size a)%Z.
Proof.
  destruct c; cbn -[gate_init]; intros (s & Hs & [= <-])%result_bind_ok; cbn -[gate_init]; [done|..];
    apply result_bind_ok in Hs as (b & Hb & Hs); apply gate_init_field_size in Hb;
    try (by injection Hs as <-); by apply result_bind_ok in Hs as (k & _ & [= <-]).
Qed.

Lemma dict_get_set_param key value params k :
  k <> key -> dict_get (set_param key value params) k = dict_get params k.
Proof. intros. unfold set_param. destruct value; [|done]. by rewrite dict_get_set_ne. Qed.

Lemma dict_get_default_param key value params k :
  k <> key -> dict_get (default_param key value params) k = dict_get params k.
Proof. intros. unfold default_param. destruct (dict_mem params key); [done|]. by apply dict_get_set_param. Qed.

Lemma injected_replicates c params board_ids reps noise experimental :
  dict_get (injected_params c params board_ids reps noise experimental) "replicates"
  = match dict_get params "replicates" with Some v => Some v | None => JInt <$> reps end.
Proof.
  unfold injected_params. set (p1 := if accepts c "rating" then _ else _).
  set (p2 := if accepts c "resolver" then _ else _). set (p3 := if accepts c "board_ids" then _ else _).
  assert (H3 : dict_get p3 "replicates" = dict_get params "replicates").
  { unfold p3, p2, p1. destruct (accepts c "board_ids"), (accepts c "resolver"), (accepts c "rating");
      rewrite ?dict_get_default_param, ?dict_get_set_param by done; reflexivity. }
  assert (H4 : dict_get (default_param "replicates" (JInt <$> reps) p3) "replicates"
    = match dict_get params "replicates" with Some v => Some v | None => JInt <$> reps end).
  { unfold default_param, dict_mem. rewrite H3. destruct (dict_get params "replicates") eqn:E; [by rewrite H3|].
    unfold set_param. destruct reps; cbn; [by rewrite dict_get_set_eq|by rewrite H3]. }
  destruct (accepts c "noise_floor_delta_std"); [|exact H4]. by rewrite dict_get_default_param.
Qed.

Lemma param_int_get params key default n :
  _param_int params key default = Ok n -> dict_get_or params key (JInt default) = JInt n.
Proof.
  unfold _param_int. intros (z & Hz & Hrest)%result_bind_ok. unfold decode_int in Hz.
  destruct (dict_get_or params key (JInt default)); try done. injection Hz as ->.
  by apply result_bind_ok in Hrest as (? & _ & [= <-]).
Qed.

Lemma resolve_class_for spec experimental c :
  resolve_class spec experimental = Ok c -> strategy_class_for (ts_structure spec) = Some c.
Proof.
  unfold resolve_class, strategy_class_for. destruct (dict_get STRATEGY_REGISTRY _); [by intros [= ->]|].
  destruct (dict_get EXPERIMENTAL_STRATEGY_REGISTRY _) as [c'|]; [|done].
  destruct (tournament_structures experimental); [|done]. by intros [= ->].
Qed.
End Made.

(** What the pre-gate, when there is one, makes of a decision. *)
Lemma pre_gate_returns `{PyFormat} `{Libm} d champ chs pre_gate replicate notify planned :
  crowned_by_gate champ chs d -> (1 <= planned)%Z ->
  (forall g, pre_gate = Some g -> 0 <= pg_replicate_budget g)%Z ->
  exists c,
    match pre_gate with
    | None => Some (Ok {| cf_decision := d; cf_evidence := None; cf_dead_letter := None |})
    | Some g => confirm_promotion_with_evidence d champ g replicate notify planned
    end = Some (Ok c)
    /\ crowned_by_gate champ chs (cf_decision c)
    /\ (pre_gate = None -> c = {| cf_decision := d; cf_evidence := None; cf_dead_letter := None |})
    /\ (forall gid, sd_promoted_generation_id (cf_decision c) = Some gid ->
          sd_promoted_generation_id d = Some gid).
Proof.
  intros Hg Hpl Hbud. destruct pre_gate as [g|]; [|eexists; split_and!; [reflexivity|done..]].
  specialize (Hbud g eq_refl).
  assert (exists c, confirm_promotion_with_evidence d champ g replicate notify planned = Some (Ok c)
    /\ forall gid, sd_promoted_generation_id (cf_decision c) = Some gid ->
          sd_promoted_generation_id d = Some gid) as (c & Hc & Hsame).
  { destruct (decide (sd_decision d = PROMOTED)) as [Hd|Hd].
    2:{ rewrite confirm_passes_through by auto. by eexists. }
    destruct (sd_promoted_generation_id d) as [child|] eqn:Ep.
    2:{ rewrite confirm_passes_through by auto. eexists. split; [done|]. cbn. by rewrite Ep. }
    destruct (confirm_promotion_ok d champ g replicate notify planned child)
      as (c & Hc & [(v & h & e & extras & -> & _)]); [done..|]. eexists. split; [done|].
    intros gid. unfold _finalize. by case_bool_decide. }
  exists c. split_and!; [done| |done|done]. by eapply confirm_keeps_gate.
Qed.

(** C30.  Whatever strategy the registry constructs for a spec, the evaluation of a
    tournament with it terminates, pre-gate and all.  Over a nonempty field and duels that
    answer their matchups there is a bound past which the evaluation returns one and the
    same outcome.  The decision of the drive alone crowns only a challenger the gate
    promoted.  Without a pre-gate that decision is the outcome, with no evidence.  With one,
    whatever its extra duels return or raise, the outcome promotes that same challenger or
    nobody, and still only one the gate promoted.  (For a race the rung-0 slice must not
    overflow; the replicate budget of a pre-gate is not negative, as its constructor
    checks.) *)
Theorem made_strategy_tournament `{PyFormat} `{PyRepr} `{Libm}
    spec board_ids reps noise experimental strategy request_field run champ chs
    pre_gate replicate_duel notify :
  make_strategy spec board_ids reps noise experimental = Ok strategy -> slice_ok strategy ->
  request_field (field_size strategy) = Ok (champ, chs) -> chs <> [] -> answering run ->
  (forall g, pre_gate = Some g -> 0 <= pg_replicate_budget g)%Z ->
  exists n0 d c, crowned_by_gate champ chs d /\ crowned_by_gate champ chs (cf_decision c)
    /\ (pre_gate = None ->
        c = {| cf_decision := d; cf_evidence := None; cf_dead_letter := None |})
    /\ (forall gid, sd_promoted_generation_id (cf_decision c) = Some gid ->
          sd_promoted_generation_id d = Some gid)
    /\ forall n, n0 <= n ->
         evaluate_tournament request_field run n strategy = Some (Ok d)
         /\ evaluate_tournament_with_evidence request_field run n strategy pre_gate replicate_duel notify
            = Some (Ok c).
Proof.
  intros Hmake Hok Hreq Hne Hrun Hbud. destruct (make_strategy_construct _ _ _ _ _ _ Hmake) as (c & _ & Hc).
  pose proof (construct_fresh c _ _ Hc Hok) as Hf. apply construct_field_size in Hc as Hsize.
  destruct (seed_law champ chs strategy Hf Hne) as (s0 & Hseed & _).
  destruct (@evaluate_tournament_drive AnyStrategy _ any_laws request_field run strategy champ chs
    (S (fuel s0)) Hf Hreq Hne Hrun) as (s1 & s & Hs1 & Hdrive & _ & Hinv & _).
  { intros s Hs. rewrite Hseed in Hs. injection Hs as <-. lia. }
  pose proof (crown_law champ chs s Hinv) as Hg.
  destruct (pre_gate_returns (champion s) champ chs pre_gate replicate_duel notify (field_size strategy))
    as (out & Hout & Hcrown & Hnone & Hsame); [done..|].
  exists (S (fuel s0)), (champion s), out. split_and!; [done..|].
  intros n Hn. pose proof (drive_more run _ n 0 s1 (Ok s) Hdrive Hn) as Hd.
  unfold evaluate_tournament, evaluate_tournament_with_evidence. rewrite Hreq. cbn [result_bind fst snd].
  rewrite Hs1, Hd. split; [done|]. by destruct pre_gate.
Qed.

(** A pinned contract count is never overridden: the strategy the registry
    constructs runs the contract's own [replicates] when it sets one, else the count
    it is handed, else its class' default, and in every case at least one. *)
Theorem make_strategy_replicates `{PyFormat} `{PyRepr} `{Libm}
    spec board_ids reps noise experimental strategy :
  make_strategy spec board_ids reps noise experimental = Ok strategy ->
  (1 <= replicates strategy)%Z
  /\ match dict_get (ts_params spec) "replicates" with
     | Some v => v = JInt (replicates strategy)
     | None => replicates strategy = from_option id (default_replicates_for (ts_structure spec)) reps
     end.
Proof.
  intros Hmake. destruct (make_strategy_construct _ _ _ _ _ _ Hmake) as (c & Hcls & Hc).
  apply construct_replicates in Hc. split; [by eapply param_int_replicates_pos|].
  apply param_int_get in Hc. unfold dict_get_or in Hc. rewrite injected_replicates in Hc.
  destruct (dict_get (ts_params spec) "replicates"); [done|].
  unfold default_replicates_for. rewrite (resolve_class_for _ _ _ Hcls). destruct reps; cbn in Hc |- *; congruence.
Qed.

Module RegistryWitness.
#[local] Existing Instance plain_format.
#[local] Existing Instance plain_repr.
#[local] Existing Instance plain_libm.

Definition spec : TournamentStructure := {| ts_structure := "racing"; ts_params := [("replicates", JInt 3)] |}.

Definition made : AnyStrategy :=
  match make_strategy spec (Some ["b1"; "b2"; "b3"; "b4"]) (Some 5%Z) None None with
  | Ok a => a
  | Raise _ => ARacing RacingWitness.blank_racing
  end.

Lemma made_strategy_tournament_witness :
  exists n0 d c, crowned_by_gate incumbent field4 d /\ crowned_by_gate incumbent field4 (cf_decision c)
    /\ forall n, n0 <= n ->
         evaluate_tournament request_field4 duel n made = Some (Ok d)
         /\ evaluate_tournament_with_evidence request_field4 duel n made
              (Some (ConfirmationWitness.pre_gate 0.6%float))
              (Some (make_evidence_replicate_duel ConfirmationWitness.reserved_duel)) true = Some (Ok c).
Proof.
  destruct (made_strategy_tournament spec (Some ["b1"; "b2"; "b3"; "b4"]) (Some 5%Z) None None made
    request_field4 duel incumbent field4 (Some (ConfirmationWitness.pre_gate 0.6%float))
    (Some (make_evidence_replicate_duel ConfirmationWitness.reserved_duel)) true)
    as (n0 & d & c & Hd & Hc & _ & _ & Hn).
  - vm_compute. reflexivity.
  - exists 1%Z. vm_compute. reflexivity.
  - reflexivity.
  - discriminate.
  - apply duel_answers.
  - intros g [= <-]. discriminate.
  - exists n0, d, c. exact (conj Hd (conj Hc Hn)).
Defined.

(** The pinned count wins over the one handed in. *)
Lemma make_strategy_replicates_witness : (1 <= replicates made)%Z /\ JInt 3 = JInt (replicates made).
Proof.
  apply (make_strategy_replicates spec (Some ["b1"; "b2"; "b3"; "b4"]) (Some 5%Z) None None made).
  vm_compute. reflexivity.
Defined.

(** An experimental structure needs its opt-in. *)
Example swiss_refused :
  make_strategy {| ts_structure := "swiss"; ts_params := [] |} None None None None
  = Raise (ValueError (experimental_structure_refusal "swiss")).
Proof. reflexivity. Qed.
End RegistryWitness.
