(* ===== verification/Replicates.v ===== *)
(** The replicate count an epoch runs, and its provenance,
    [src/zicato/selection/replicates.py]. *)

From S2P Require Import Prelude PyFloat PyJson CoreTypes Gate Params Strategy DetectableEffect Racing Registry RegistrySpec.

Definition SOURCE_CONTRACT : string := "contract scoring.json".
Definition SOURCE_NOISE_FLOOR : string := "derived from the noise floor".
Definition SOURCE_STRUCTURE_DEFAULT : string := "structure default".

Record ReplicateSetting := {
  rs_replicates : Z;
  rs_source : string;
  rs_delta_std : option float;
  rs_detectable_effect : option float;
  rs_promote_margin : option float;
  rs_note : option string;
}.

Definition under_powered (s : ReplicateSetting) : bool :=
  match rs_detectable_effect s, rs_promote_margin s with
  | Some effect, Some margin => flt margin effect
  | _, _ => false
  end.

Section Replicates.
Context `{PyFormat} `{PyRepr} `{PyFloatParse} `{Libm}.

(** [params.get("replicates") is None] *)
Definition pinned_replicates (params : Params) : result (option Z) :=
  match dict_get_or params "replicates" JNull with
  | JNull => Ok None
  | _ => try n <- _param_int params "replicates" 1; Ok (Some n)
  end.

(** [float(value)], [None] for the exceptions the caller catches; an integer beyond
    the floats raises an [OverflowError] it does not. *)
Definition float_of_json (v : Json) : result (option float) :=
  match v with
  | JBool b => Ok (Some (if b then f1 else f0))
  | JInt z => if isfinite (float_of_Z z) then Ok (Some (float_of_Z z)) else Raise OverflowError
  | JFloat x => Ok (Some x)
  | JStr s => Ok (float_of_str s)
  | JNull | JArr _ | JObj _ => Ok None
  end.

Definition usable_delta_std (floor : option Params) : result (option float) :=
  match floor with
  | None => Ok None
  | Some floor =>
      match dict_get floor "delta_std" with
      | None => Ok None
      | Some v =>
          try value <- float_of_json v;
          Ok (match value with
              | Some value => if flt f0 value then Some value else None
              | None => None
              end)
      end
  end.

(** [_effect] *)
Definition effect_at (delta_std : option float) (count : Z) : option float :=
  match delta_std with
  | Some sd => minimum_detectable_effect sd count MDE_ALPHA MDE_POWER
  | None => None
  end.

Definition setting (delta_std margin : option float) (count : Z) (source : string)
    (note : option string) : ReplicateSetting := {|
  rs_replicates := count; rs_source := source; rs_delta_std := delta_std;
  rs_detectable_effect := effect_at delta_std count; rs_promote_margin := margin; rs_note := note |}.

Definition resolve_replicates (spec : TournamentStructure) (floor : option Params)
    (promote_margin : option float) (cap : Z) : result ReplicateSetting :=
  let default := default_replicates_for (ts_structure spec) in
  try delta_std <- usable_delta_std floor;
  let margin := promote_margin in
  try pinned <- pinned_replicates (ts_params spec);
  match pinned with
  | Some pinned => Ok (setting delta_std margin pinned SOURCE_CONTRACT None)
  | None =>
      match delta_std, margin with
      | Some sd, Some m =>
          match replicates_for_margin sd m MDE_ALPHA MDE_POWER cap with
          | None =>
              Ok (setting delta_std margin default SOURCE_STRUCTURE_DEFAULT
                    (Some ("no replicate count up to " +:+ pretty cap
                           +:+ " resolves promote_margin " +:+ fmt_general m +:+ " at delta_std "
                           +:+ fmt_general sd +:+ "; raise the margin")))
          | Some derived =>
              if (derived <? default)%Z
              then
                Ok (setting delta_std margin default SOURCE_STRUCTURE_DEFAULT
                      (Some ("the floor resolves promote_margin " +:+ fmt_general m +:+ " at "
                             +:+ pretty derived +:+ " replicates; the " +:+ ts_structure spec
                             +:+ " default of " +:+ pretty default +:+ " is larger and applies")))
              else Ok (setting delta_std margin derived SOURCE_NOISE_FLOOR None)
          end
      | _, _ => Ok (setting delta_std margin default SOURCE_STRUCTURE_DEFAULT None)
      end
  end.
End Replicates.

(** * The replicate count comes from exactly one tier, is never below the structure's
    default, and reaches the strategy unchanged. *)

Lemma fle_not_flt x y : fle x y = true -> flt y x = false.
Proof.
  rewrite fle_spec. intros [H|H]%orb_true_iff; [by apply flt_asym|].
  apply feq_flt. by rewrite feq_sym.
Qed.

(** The three tiers.  A pinned count is run as pinned and attributed to the
    contract.  Otherwise the count is at least the structure's default: it is
    attributed to the noise floor exactly when the least count that resolves the
    margin is at least the default, and such a count is never under-powered; in
    every other case it is the default itself, with a note whenever a floor and a
    margin were there to size it. *)
Theorem resolve_replicates_tiers `{PyFormat} `{PyRepr} `{PyFloatParse} `{Libm} spec floor margin cap st :
  resolve_replicates spec floor margin cap = Ok st ->
  let default := default_replicates_for (ts_structure spec) in
  match pinned_replicates (ts_params spec) with
  | Ok (Some n) => rs_replicates st = n /\ rs_source st = SOURCE_CONTRACT
  | _ =>
      (default <= rs_replicates st)%Z
      /\ (rs_source st = SOURCE_NOISE_FLOOR ->
          under_powered st = false /\ (2 <= rs_replicates st <= cap)%Z
          /\ forall k, (2 <= k < rs_replicates st)%Z ->
               exists sd m, rs_delta_std st = Some sd /\ rs_promote_margin st = Some m
                 /\ resolves sd m MDE_ALPHA MDE_POWER k = false)
      /\ (rs_source st <> SOURCE_NOISE_FLOOR ->
          rs_source st = SOURCE_STRUCTURE_DEFAULT /\ rs_replicates st = default
          /\ (is_Some (rs_delta_std st) -> is_Some (rs_promote_margin st) -> is_Some (rs_note st)))
  end.
Proof.
  intros Hst default. unfold resolve_replicates in Hst. cbv zeta in Hst.
  apply result_bind_ok in Hst as (sd & _ & (pinned & Hpin & Hst)%result_bind_ok).
  rewrite Hpin. destruct pinned as [n|]; [by injection Hst as <-|].
  destruct sd as [sd|], margin as [m|];
    try (injection Hst as <-; split_and!; [cbn; lia|done|]; intros _; split_and!; [done|done|];
         by intros [? ?] [? ?]).
  destruct (replicates_for_margin sd m MDE_ALPHA MDE_POWER cap) as [d|] eqn:Ed.
  2:{ injection Hst as <-. split_and!; [cbn; lia|done|]. intros _. split_and!; [done|done|]. by eexists. }
  destruct (Z.ltb_spec d default) as [Hlt|Hge].
  { unfold default in Hlt. rewrite (proj2 (Z.ltb_lt _ _)) in Hst by done. injection Hst as <-.
    split_and!; [cbn; lia|done|]. intros _. split_and!; [done|done|]. by eexists. }
  unfold default in Hge. rewrite (proj2 (Z.ltb_ge _ _)) in Hst by done. injection Hst as <-.
  apply replicates_for_margin_spec in Ed as (_ & Hr & Hres & Hleast).
  split_and!; [done| |done]. intros _. split_and!; [|cbn; lia|cbn; lia|].
  - unfold under_powered. cbn. unfold resolves in Hres.
    destruct (minimum_detectable_effect sd d MDE_ALPHA MDE_POWER); [|done]. by apply fle_not_flt.
  - intros k Hk. exists sd, m. split_and!; [done|done|]. by apply Hleast.
Qed.

Lemma pinned_replicates_get `{PyFormat} `{PyRepr} params p :
  pinned_replicates params = Ok p ->
  match dict_get params "replicates" with
  | None | Some JNull => p = None
  | Some v => exists n, v = JInt n /\ p = Some n
  end.
Proof.
  unfold pinned_replicates. intros Hp.
  destruct (dict_get params "replicates") as [v|] eqn:E;
    unfold dict_get_or in Hp; rewrite E in Hp; cbn [from_option id] in Hp.
  2:{ by injection Hp as <-. }
  destruct v; try (by injection Hp as <-);
    apply result_bind_ok in Hp as (n & Hn & [= <-]); apply param_int_get in Hn;
    unfold dict_get_or in Hn; rewrite E in Hn; cbn in Hn; simplify_eq; by eexists.
Qed.

(** The count an epoch resolves is the count its strategy runs: handing the
    resolved count to the registry constructs a strategy whose duels use exactly
    it, whichever tier it came from. *)
Theorem resolved_count_is_run `{PyFormat} `{PyRepr} `{PyFloatParse} `{Libm}
    spec floor margin cap st board_ids noise experimental strategy :
  resolve_replicates spec floor margin cap = Ok st ->
  make_strategy spec board_ids (Some (rs_replicates st)) noise experimental = Ok strategy ->
  replicates strategy = rs_replicates st /\ (1 <= rs_replicates st)%Z.
Proof.
  intros Hres Hmake. destruct (make_strategy_construct _ _ _ _ _ _ Hmake) as (c & _ & Hc).
  apply construct_replicates in Hc. pose proof (param_int_replicates_pos _ _ _ Hc) as Hpos.
  apply param_int_get in Hc. unfold dict_get_or in Hc. rewrite injected_replicates in Hc.
  assert (replicates strategy = rs_replicates st) as Heq; [|rewrite <-Heq; done].
  unfold resolve_replicates in Hres. cbv zeta in Hres.
  apply result_bind_ok in Hres as (sd & _ & (pinned & Hpin & Hst)%result_bind_ok).
  apply pinned_replicates_get in Hpin.
  destruct (dict_get (ts_params spec) "replicates") as [v|]; cbn [from_option id option_fmap option_map fmap] in Hc;
    [|injection Hc as Hn; symmetry; exact Hn].
  assert (exists n, v = JInt n /\ pinned = Some n) as (n & -> & ->) by (destruct v; done).
  injection Hst as <-. injection Hc as Hn. symmetry. exact Hn.
Qed.

Module ReplicatesWitness.
#[local] Existing Instance plain_format.
#[local] Existing Instance plain_repr.
#[local] Existing Instance plain_libm.
#[local] Existing Instance no_float_text.

Definition spec : TournamentStructure := {| ts_structure := "racing"; ts_params := [] |}.
Definition floor : Params := [("delta_std", JFloat 0.01%float)].

Definition st : ReplicateSetting :=
  match resolve_replicates spec (Some floor) (Some 1.0e8%float) REPLICATE_SIZING_CAP with
  | Ok st => st
  | Raise _ => setting None None 0 "" None
  end.

(** The floor sizes the count at two, above racing's default of one. *)
Example sized_from_the_floor : rs_replicates st = 2%Z /\ rs_source st = SOURCE_NOISE_FLOOR.
Proof. vm_compute. split; reflexivity. Qed.

Lemma resolve_replicates_tiers_witness : under_powered st = false.
Proof.
  destruct (resolve_replicates_tiers spec (Some floor) (Some 1.0e8%float) REPLICATE_SIZING_CAP st)
    as (_ & Hfloor & _).
  - vm_compute. reflexivity.
  - apply Hfloor. vm_compute. reflexivity.
Defined.

Lemma resolved_count_is_run_witness :
  exists a, make_strategy spec None (Some (rs_replicates st)) None None = Ok a
    /\ replicates a = rs_replicates st.
Proof.
  destruct (make_strategy spec None (Some (rs_replicates st)) None None) as [a|e] eqn:E;
    [|vm_compute in E; discriminate].
  exists a. split; [reflexivity|].
  apply (resolved_count_is_run spec (Some floor) (Some 1.0e8%float) REPLICATE_SIZING_CAP st None None None a).
  - vm_compute. reflexivity.
  - exact E.
Defined.
End ReplicatesWitness.
