(* ===== verification/Control.v ===== *)
(** The operator's control files, [src/zicato/runtime/control.py] and
    [control_consumer.py]: the directory of pending commands, the audit log, and what
    the evolution loop does with a command at a safe point.
    [Runtime] is what the two directories hold.  An operation returns the successive
    states its writes leave, oldest first, with its result: a crash exposes one of
    them.  Reading the clock is [clock], indexed by the number of readings so far; the
    JSON parser is a parameter; deleting a file that is there succeeds. *)
From S2P Require Import Prelude PyText PyJson.

Definition CMD_PAUSE_EPOCH : string := "pause_epoch".
Definition CMD_SKIP_ROUND : string := "skip_round".
Definition CMD_PROMOTE_PREFIX : string := "promote".
Definition CMD_REJECT_PREFIX : string := "reject".
Definition CMD_RUBRIC_REPLACEMENT : string := "rubric_replacement.txt".
Definition CONSUMER_SOURCE : string := "orchestrator".

(** ** The directories *)

(** A path under [control/]: a file of the directory, or one of a bucket in it. *)
Inductive CommandPath :=
  | TopLevel (name : string)
  | Targeted (bucket arg : string).

#[export] Instance CommandPath_eq_dec : EqDecision CommandPath.
Proof. solve_decision. Defined.

(** An entry: a regular file with its text, or a directory, whose entries are regular
    files or something else ([None]). *)
Inductive Node :=
  | Leaf (body : string)
  | Bucket (entries : list (string * option string)).

(** [control] is [None] while the directory does not exist; [ticks] counts the readings
    of the clock. *)
Record Runtime := {
  control : option (list (string * Node));
  control_log : list (string * Json);
  ticks : nat;
}.

(** [Path()], no file at all, is [None]. *)
Record ControlCommand := {
  cc_name : string;
  cc_arg : string;
  cc_payload : string;
  cc_file_path : option CommandPath;
}.

Definition entries (st : Runtime) : list (string * Node) := from_option id [] (control st).

(** The text of the file at a path. *)
Definition read_command (st : Runtime) (p : CommandPath) : option string :=
  match p with
  | TopLevel name =>
      match dict_get (entries st) name with Some (Leaf body) => Some body | _ => None end
  | Targeted bucket arg =>
      match dict_get (entries st) bucket with
      | Some (Bucket subs) => dict_get subs arg ≫= id
      | _ => None
      end
  end.

(** ** Listing *)

Definition entry_lt {A} (x y : string * A) : bool := str_lt x.1 y.1.

Definition is_tmp (name : string) : bool := str_endswith ".tmp" name.
#[global] Arguments is_tmp name : simpl never.

Definition bucket_command (bucket : string) (sub : string * option string) : list ControlCommand :=
  match is_tmp sub.1, sub.2 with
  | false, Some _ =>
      [{| cc_name := bucket; cc_arg := sub.1; cc_payload := "";
          cc_file_path := Some (Targeted bucket sub.1) |}]
  | _, _ => []
  end.

Definition entry_commands (e : string * Node) : list ControlCommand :=
  if is_tmp e.1 then []
  else
    match e.2 with
    | Leaf body =>
        [{| cc_name := e.1; cc_arg := "";
            cc_payload := if String.eqb e.1 CMD_RUBRIC_REPLACEMENT then body else "";
            cc_file_path := Some (TopLevel e.1) |}]
    | Bucket subs => py_sorted entry_lt subs ≫= bucket_command e.1
    end.

Definition list_pending_commands (st : Runtime) : list ControlCommand :=
  py_sorted entry_lt (entries st) ≫= entry_commands.

Definition is_paused (st : Runtime) : bool := dict_mem (entries st) CMD_PAUSE_EPOCH.

(** ** Writing *)

Definition ensure_runtime_dirs (st : Runtime) : Runtime :=
  {| control := Some (entries st); control_log := control_log st; ticks := ticks st |}.

Definition with_entries (st : Runtime) (es : list (string * Node)) : Runtime :=
  {| control := Some es; control_log := control_log st; ticks := ticks st |}.

(** A file replaces a file; a directory in its place is an error of the file system. *)
Definition put_leaf (st : Runtime) (name body : string) : result Runtime :=
  match dict_get (entries st) name with
  | Some (Bucket _) => Raise (OtherException "OSError")
  | _ => Ok (with_entries st (dict_set (entries st) name (Leaf body)))
  end.

Definition put_targeted (st : Runtime) (bucket arg body : string) : result Runtime :=
  match dict_get (entries st) bucket with
  | Some (Leaf _) => Raise (OtherException "OSError")
  | Some (Bucket subs) =>
      match dict_get subs arg with
      | Some None => Raise (OtherException "OSError")
      | _ => Ok (with_entries st (dict_set (entries st) bucket (Bucket (dict_set subs arg (Some body)))))
      end
  | None => Ok (with_entries st (dict_set (entries st) bucket (Bucket [(arg, Some body)])))
  end.

Definition write_command `{PyRepr} (cmd : ControlCommand) (st : Runtime) : result Runtime :=
  let st := ensure_runtime_dirs st in
  if String.eqb (cc_name cmd) CMD_RUBRIC_REPLACEMENT
  then put_leaf st CMD_RUBRIC_REPLACEMENT (cc_payload cmd)
  else if String.eqb (cc_name cmd) CMD_PAUSE_EPOCH || String.eqb (cc_name cmd) CMD_SKIP_ROUND
  then put_leaf st (cc_name cmd) ""
  else if String.eqb (cc_arg cmd) "" then
    Raise (ValueError ("control command " +:+ py_repr (JStr (cc_name cmd))
             +:+ " requires a non-empty arg (the generation_id for promote/reject)"))
  else put_targeted st (cc_name cmd) (cc_arg cmd) (cc_payload cmd).

(** ** Consuming *)

(** An action: the states its writes leave, and its result. *)
Definition Act (A : Type) : Type := Runtime -> list Runtime * A.

Definition final_state (st : Runtime) (states : list Runtime) : Runtime := List.last states st.

Definition act_ret {A} (a : A) : Act A := fun _ => ([], a).

Definition act_bind {A B} (m : Act A) (k : A -> Act B) : Act B := fun st =>
  let '(states, a) := m st in
  let '(later, b) := k a (final_state st states) in
  (states ++ later, b).

Declare Scope act_scope.
Delimit Scope act_scope with act.
Notation "'act' x <- m ; k" := (act_bind m (fun x => k%act))
  (at level 60, x binder, m at level 60, k at level 60, right associativity) : act_scope.
Open Scope act_scope.

(** [s.replace(":", "-")], by character codes. *)
Fixpoint portable (s : string) : string :=
  match s with
  | "" => ""
  | String c s => String (if Ascii.eqb c (Ascii.ascii_of_nat 58) then Ascii.ascii_of_nat 45 else c) (portable s)
  end.

Definition _audit_log_name (consumed_at name arg : string) : string :=
  portable consumed_at +:+ "_" +:+ name
  +:+ (if String.eqb arg "" then "" else "_" +:+ arg) +:+ ".json".

(** The entry is unlinked; a bucket left empty is removed. *)
Definition unlink (es : list (string * Node)) (p : CommandPath) : list (string * Node) :=
  match p with
  | TopLevel name => dict_del es name
  | Targeted bucket arg =>
      match dict_get es bucket with
      | Some (Bucket subs) => dict_set es bucket (Bucket (dict_del subs arg))
      | _ => es
      end
  end.

Definition prune (es : list (string * Node)) (p : CommandPath) : list (string * Node) :=
  match p with
  | Targeted bucket _ =>
      match dict_get es bucket with Some (Bucket []) => dict_del es bucket | _ => es end
  | TopLevel _ => es
  end.

Section Consumer.
Context (clock : nat -> string) (control_root : string) (json_loads : string -> option Json).

Definition path_text (p : option CommandPath) : string :=
  match p with
  | None => "."
  | Some (TopLevel name) => control_root +:+ "/" +:+ name
  | Some (Targeted bucket arg) => control_root +:+ "/" +:+ bucket +:+ "/" +:+ arg
  end.

Definition audit_record (cmd : ControlCommand) (consumed_at source why : string) : Json :=
  JObj [("command", JStr (cc_name cmd)); ("arg", JStr (cc_arg cmd));
        ("payload", JStr (cc_payload cmd)); ("consumed_at", JStr consumed_at);
        ("source", JStr source); ("reason", JStr why);
        ("original_file_path", JStr (path_text (cc_file_path cmd)))].

(** The log is written before the source file is deleted. *)
Definition consume_command (cmd : ControlCommand) (source why : string) : Act string := fun st =>
  let st0 := ensure_runtime_dirs st in
  let consumed_at := clock (ticks st) in
  let log_name := _audit_log_name consumed_at (cc_name cmd) (cc_arg cmd) in
  let st1 := {| control := control st0;
                control_log := dict_set (control_log st0) log_name
                                 (audit_record cmd consumed_at source why);
                ticks := S (ticks st) |} in
  let removed :=
    match cc_file_path cmd with
    | Some p =>
        match read_command st1 p with
        | Some _ =>
            let es := unlink (entries st1) p in [with_entries st1 es; with_entries st1 (prune es p)]
        | None => []
        end
    | None => []
    end in
  (st0 :: st1 :: removed, log_name).

(** The operator's reason, in the file's JSON body or the body itself. *)
Definition reason_in (body : string) : string :=
  let raw := str_strip body in
  if String.eqb raw "" then ""
  else
    match json_loads raw with
    | None => raw
    | Some (JObj d) => match dict_get d "reason" with Some (JStr why) => why | _ => "" end
    | Some _ => ""
    end.

Definition _flag_reason (cmd : ControlCommand) (st : Runtime) : string :=
  from_option reason_in "" (cc_file_path cmd ≫= read_command st).

Definition reading {A} (f : Runtime -> A) : Act A := fun st => ([], f st).

(** ** Safe points *)

Record GateOverride := {
  go_decision : string;
  go_generation_id : string;
  go_reason : string;
}.

Record RubricReplacement := {
  rb_payload : string;
  rb_reason : string;
}.

Definition or_text (a b : string) : string := if String.eqb a "" then b else a.

Definition named (name : string) (cmd : ControlCommand) : bool := String.eqb (cc_name cmd) name.

Definition claim_skip_round : Act (option string) :=
  act pending <- reading list_pending_commands;
  match find_first (named CMD_SKIP_ROUND) pending with
  | None => act_ret None
  | Some skip_cmd =>
      act why <- reading (_flag_reason skip_cmd);
      act _ <- consume_command skip_cmd CONSUMER_SOURCE (or_text why "operator skip_round");
      act_ret (Some why)
  end.

(** The loop keeps the last command it sees of each kind. *)
Definition last_match (p : ControlCommand -> bool) (pending : list ControlCommand)
    : option ControlCommand :=
  foldl (fun found cmd => if p cmd then Some cmd else found) None pending.

Definition targets (name generation_id : string) (cmd : ControlCommand) : bool :=
  String.eqb (cc_arg cmd) generation_id && named name cmd.

Definition _claim_override_for (generation_id : string) (pending : list ControlCommand)
    : Act (option GateOverride) :=
  let promote_cmd := last_match (targets CMD_PROMOTE_PREFIX generation_id) pending in
  let reject_cmd := last_match (targets CMD_REJECT_PREFIX generation_id) pending in
  match union promote_cmd reject_cmd with
  | None => act_ret None
  | Some chosen =>
      let verdict := if named CMD_PROMOTE_PREFIX chosen then "promoted" else "rejected" in
      act flag <- reading (_flag_reason chosen);
      let why := or_text flag ("operator " +:+ verdict +:+ " override") in
      act _ <- consume_command chosen CONSUMER_SOURCE why;
      act _ <- match promote_cmd, reject_cmd with
               | Some _, Some reject_cmd =>
                   consume_command reject_cmd CONSUMER_SOURCE
                     "superseded by a promote override for the same generation"
               | _, _ => act_ret ""
               end;
      act_ret (Some {| go_decision := verdict; go_generation_id := generation_id;
                       go_reason := why |})
  end.

Fixpoint claim_each (generation_ids : list string) (pending : list ControlCommand)
    (claimed : list (string * GateOverride)) : Act (list (string * GateOverride)) :=
  match generation_ids with
  | [] => act_ret claimed
  | gid :: rest =>
      if dict_mem claimed gid then claim_each rest pending claimed
      else
        act override <- _claim_override_for gid pending;
        claim_each rest pending
          (match override with Some o => dict_set claimed gid o | None => claimed end)
  end.

Definition claim_field_gate_overrides (generation_ids : list string)
    : Act (list (string * GateOverride)) :=
  act pending <- reading list_pending_commands; claim_each generation_ids pending [].

Definition is_override (cmd : ControlCommand) : bool :=
  named CMD_PROMOTE_PREFIX cmd || named CMD_REJECT_PREFIX cmd.

Fixpoint drain_each (why : string) (pending : list ControlCommand) : Act (list string) :=
  match pending with
  | [] => act_ret []
  | cmd :: rest =>
      if is_override cmd then
        act _ <- consume_command cmd CONSUMER_SOURCE why;
        act drained <- drain_each why rest; act_ret (cc_arg cmd :: drained)
      else drain_each why rest
  end.

Definition drain_stale_gate_overrides (why : string) : Act (list string) :=
  act pending <- reading list_pending_commands; drain_each why pending.

Definition claim_rubric_replacement : Act (option RubricReplacement) :=
  act pending <- reading list_pending_commands;
  match find_first (named CMD_RUBRIC_REPLACEMENT) pending with
  | None => act_ret None
  | Some rubric_cmd =>
      act _ <- consume_command rubric_cmd CONSUMER_SOURCE
                 "rubric replacement — rolling the epoch (contract edit)";
      act_ret (Some {| rb_payload := cc_payload rubric_cmd;
                       rb_reason := "operator rubric replacement" |})
  end.

(** One poll: [operator] is what happens to the directories while the loop sleeps. *)
Fixpoint poll (operator : nat -> Runtime -> Runtime) (max_polls : option nat) (fuel polls : nat)
    (st : Runtime) : option (nat * Runtime) :=
  if is_paused st then
    match fuel with
    | O => None
    | S fuel =>
        let st := operator polls st in
        match max_polls with
        | Some cap => if cap <=? S polls then Some (S polls, st)
                      else poll operator max_polls fuel (S polls) st
        | None => poll operator max_polls fuel (S polls) st
        end
    end
  else Some (polls, st).

(** The states written, then the number of polls; [None] is a pause longer than the
    fuel. *)
Definition block_while_paused (operator : nat -> Runtime -> Runtime) (max_polls : option nat)
    (fuel : nat) (st : Runtime) : option (list Runtime * nat) :=
  if is_paused st then
    let pause_cmd := find_first (named CMD_PAUSE_EPOCH) (list_pending_commands st) in
    let why := from_option (fun cmd => _flag_reason cmd st) "" pause_cmd in
    '(polls, st) ← poll operator max_polls fuel 0 st;
    let cmd := default {| cc_name := CMD_PAUSE_EPOCH; cc_arg := ""; cc_payload := "";
                          cc_file_path := None |} pause_cmd in
    Some ((consume_command cmd CONSUMER_SOURCE
             ("pause held for " +:+ pretty polls +:+ " poll(s)"
              +:+ (if String.eqb why "" then "" else "; operator reason: " +:+ why)) st).1, polls)
  else Some ([], 0).
End Consumer.
