(* ===== verification/ControlSpec.v ===== *)
(** What claiming the operator's overrides promises: exactly the commands that target
    the field are taken, the promotion wins over the rejection, and no crash loses a
    command before the audit log has it. *)
From S2P Require Import Prelude PyText PyJson Control.

(** ** Listing *)

(** Every name is there once, as in any directory. *)
Definition wf_node (n : Node) : Prop :=
  match n with Leaf _ => True | Bucket subs => NoDup (dict_keys subs) end.

Definition wf (st : Runtime) : Prop :=
  NoDup (dict_keys (entries st)) /\ forall name n, dict_get (entries st) name = Some n -> wf_node n.

(** The command a file at a path stands for, unless its name hides it. *)
Definition command_at (p : CommandPath) (body : string) : ControlCommand :=
  match p with
  | TopLevel name =>
      {| cc_name := name; cc_arg := "";
         cc_payload := if String.eqb name CMD_RUBRIC_REPLACEMENT then body else "";
         cc_file_path := Some p |}
  | Targeted bucket arg =>
      {| cc_name := bucket; cc_arg := arg; cc_payload := ""; cc_file_path := Some p |}
  end.

Definition hidden (p : CommandPath) : bool :=
  match p with TopLevel name => is_tmp name | Targeted bucket arg => is_tmp bucket || is_tmp arg end.

Lemma pending_iff st cmd :
  wf st ->
  cmd ∈ list_pending_commands st
  <-> exists p body, cmd = command_at p body /\ hidden p = false /\ read_command st p = Some body.
Proof.
  intros [Hn Hs]. unfold list_pending_commands. rewrite list_elem_of_bind. split.
  - intros ([name n] & Hc & Hin%elem_of_py_sorted%dict_elem_get); [|done].
    unfold entry_commands in Hc. cbn in Hc. destruct (is_tmp name) eqn:Ht; [by apply elem_of_nil in Hc|].
    destruct n as [body|subs].
    + apply list_elem_of_singleton in Hc as ->. exists (TopLevel name), body. cbn.
      by rewrite Hin.
    + apply list_elem_of_bind in Hc as ([arg b] & Hc & Hb%elem_of_py_sorted%dict_elem_get);
        [|by apply (Hs name (Bucket subs))].
      unfold bucket_command in Hc. cbn in Hc. destruct (is_tmp arg) eqn:Ha; [by apply elem_of_nil in Hc|].
      destruct b as [body|]; [|by apply elem_of_nil in Hc]. apply list_elem_of_singleton in Hc as ->.
      exists (Targeted name arg), body. cbn. by rewrite Ht, Ha, Hin, Hb.
  - intros ([name|bucket arg] & body & -> & Hh & Hr); cbn in Hh, Hr.
    + destruct (dict_get (entries st) name) as [[b|]|] eqn:Hg; [|done|done]. injection Hr as ->.
      exists (name, Leaf body). split; [|by apply elem_of_py_sorted, dict_get_Some_elem].
      unfold entry_commands. cbn. rewrite Hh. by apply list_elem_of_singleton.
    + apply orb_false_iff in Hh as [Hb Ha].
      destruct (dict_get (entries st) bucket) as [[|subs]|] eqn:Hg; [done| |done].
      apply bind_Some in Hr as ([b|] & Hb' & [= ->]).
      exists (bucket, Bucket subs). split; [|by apply elem_of_py_sorted, dict_get_Some_elem].
      unfold entry_commands. cbn. rewrite Hb. apply list_elem_of_bind. exists (arg, Some body).
      split; [|by apply elem_of_py_sorted, dict_get_Some_elem].
      unfold bucket_command. cbn. rewrite Ha. by apply list_elem_of_singleton.
Qed.

(** ** Removing a file *)

Definition remove (st : Runtime) (p : CommandPath) : Runtime :=
  with_entries st (prune (unlink (entries st) p) p).

Lemma read_unlink st p body q :
  wf st -> read_command st p = Some body ->
  read_command (with_entries st (unlink (entries st) p)) q
  = (if decide (p = q) then None else read_command st q)
  /\ read_command (remove st p) q = if decide (p = q) then None else read_command st q.
Proof.
  intros [Hn Hs] Hp. unfold remove, with_entries, entries in *.
  destruct p as [name|bucket arg]; cbn [read_command unlink prune control from_option id] in *.
  - destruct (dict_get _ name) as [[b|]|] eqn:Hg; [|done|done].
    destruct q as [name'|b' a']; cbn; rewrite dict_get_del by done.
    + split; repeat case_decide; by simplify_eq.
    + destruct (decide (name = b')) as [->|]; [by rewrite Hg|]. by split; case_decide.
  - destruct (dict_get _ bucket) as [[|subs]|] eqn:Hg; [done| |done].
    pose proof (Hs _ _ Hg) as Hsubs. cbn in Hsubs. rewrite dict_get_set_eq.
    assert (forall a, a <> arg -> dict_del subs arg = [] -> dict_get subs a = None) as Hempty.
    { intros a Ha Hd. by rewrite <-(dict_get_del_ne subs arg a), Hd. }
    destruct q as [name'|b' a']; cbn; rewrite ?dict_get_set.
    + split; destruct (decide (bucket = name')) as [->|Hne]; [by rewrite Hg|done| |].
      * rewrite Hg. destruct (dict_del subs arg); [by rewrite dict_get_del_eq by auto with zicato|].
        by rewrite dict_get_set_eq.
      * destruct (dict_del subs arg); rewrite ?dict_get_del_ne, dict_get_set_ne by done; done.
    + destruct (decide (bucket = b')) as [->|Hne].
      * rewrite Hg, dict_get_del by done. split.
        { repeat case_decide; by simplify_eq. }
        destruct (dict_del subs arg) as [|e l] eqn:Hd.
        -- rewrite dict_get_del_eq by auto with zicato.
           case_decide; [done|]. rewrite Hempty; [done|congruence|done].
        -- rewrite dict_get_set_eq, <-Hd, dict_get_del by done. repeat case_decide; by simplify_eq.
      * split; [by case_decide; simplify_eq|]. case_decide; [by simplify_eq|].
        destruct (dict_del subs arg); rewrite ?dict_get_del_ne, dict_get_set_ne by done; done.
Qed.

Lemma wf_unlink st p :
  wf st -> wf (with_entries st (unlink (entries st) p)) /\ wf (remove st p).
Proof.
  intros Hw. assert (forall p, wf (with_entries st (unlink (entries st) p))) as Hu.
  { destruct Hw as [Hn Hs]. clear p. intros [name|bucket arg]; cbn [unlink].
    - split; cbn; [by auto with zicato|]. intros n' x. cbn.
      rewrite dict_get_del by done. case_decide; [done|]. apply Hs.
    - destruct (dict_get (entries st) bucket) as [[|subs]|] eqn:Hg; [done| |done].
      split; cbn; [by auto with zicato|]. intros n' x. cbn. rewrite dict_get_set.
      case_decide; [|apply Hs]. intros [= <-]. cbn. apply NoDup_dict_keys_del.
      exact (Hs _ _ Hg). }
  split; [apply Hu|]. unfold remove. destruct p as [name|bucket arg]; cbn [prune]; [apply Hu|].
  specialize (Hu (Targeted bucket arg)). destruct (dict_get (unlink _ _) bucket) as [[|[|]]|]; try done.
  destruct Hu as [Hn Hs]. split; cbn in *; [by auto with zicato|]. intros n' x. cbn.
  rewrite dict_get_del by done. case_decide; [done|]. apply Hs.
Qed.

(** ** Consuming *)

Lemma act_bind_eq {A B} (m : Act A) (k : A -> Act B) st :
  act_bind m k st
  = ((m st).1 ++ (k (m st).2 (final_state st (m st).1)).1, (k (m st).2 (final_state st (m st).1)).2).
Proof. unfold act_bind. destruct (m st) as [l a]. cbn. by destruct (k a _). Qed.

Lemma bind_reading {A B} (f : Runtime -> A) (k : A -> Act B) st :
  act_bind (reading f) k st = k (f st) st.
Proof. rewrite act_bind_eq. cbn. by destruct (k _ _). Qed.

Lemma last_cons_default {A} (z : A) l d d' : List.last (z :: l) d = List.last (z :: l) d'.
Proof. revert z. induction l as [|z' l IH]; intros z; [done|]. apply IH. Qed.

Lemma final_app st l l' : final_state st (l ++ l') = final_state (final_state st l) l'.
Proof.
  unfold final_state. revert st. induction l as [|x l IH]; intros st; [done|].
  rewrite <-app_comm_cons. destruct l as [|y l].
  - destruct l' as [|z l']; [done|]. apply (last_cons_default z l' st x).
  - change (List.last ((y :: l) ++ l') st = List.last l' (List.last (y :: l) st)). apply IH.
Qed.

Section Consumer.
Context (clock : nat -> string) (control_root : string) (json_loads : string -> option Json).
Abbreviation consume_command := (consume_command clock control_root).
Abbreviation _claim_override_for := (_claim_override_for clock control_root json_loads).
Abbreviation claim_each := (claim_each clock control_root json_loads).

(** Time stamps have one length, as in ISO format. *)
Context (stamp : nat) (Hstamp : forall i, String.length (clock i) = stamp).

(** The audit log has a record of the command. *)
Definition logged (st : Runtime) (name arg : string) : Prop :=
  exists at_ source why payload path, String.length at_ = stamp
    /\ dict_get (control_log st) (_audit_log_name at_ name arg)
       = Some (audit_record control_root
                 {| cc_name := name; cc_arg := arg; cc_payload := payload; cc_file_path := path |}
                 at_ source why).

Definition override_bucket (b : string) : Prop := b = CMD_PROMOTE_PREFIX \/ b = CMD_REJECT_PREFIX.

(** The path is that of an override for one of the generations. *)
Definition taken (gids : list string) (p : CommandPath) : Prop :=
  match p with
  | TopLevel _ => False
  | Targeted b g => override_bucket b /\ is_tmp g = false /\ g ∈ gids
  end.

(** What every state on the way satisfies: a file is untouched, or it was an override of
    the field and the log has it. *)
Definition accounted (gids : list string) (st0 st : Runtime) : Prop :=
  wf st /\ forall p, read_command st p = read_command st0 p
    \/ match p with
       | TopLevel _ => False
       | Targeted b g => taken gids p /\ read_command st p = None /\ logged st b g
       end.

Lemma portable_length s : String.length (portable s) = String.length s.
Proof. induction s; cbn; congruence. Qed.

Lemma str_app_inj_l a b c d :
  String.length a = String.length b -> a +:+ c = b +:+ d -> a = b /\ c = d.
Proof.
  revert b. induction a as [|x a IH]; intros [|y b]; cbn; try done.
  intros [= Hl] [= -> Hr]. by destruct (IH b Hl Hr) as [-> ->].
Qed.

Lemma audit_log_name_inj t t' b b' g g' :
  override_bucket b -> override_bucket b' -> String.length t = String.length t' ->
  _audit_log_name t b g = _audit_log_name t' b' g' -> b = b' /\ g = g'.
Proof.
  intros Hb Hb' Hl. unfold _audit_log_name. intros H.
  apply str_app_inj_l in H as [_ H]; [|by rewrite !portable_length].
  assert (b = b') as <- by (destruct Hb as [->| ->], Hb' as [->| ->]; by try discriminate H).
  split; [done|]. apply str_app_inj_l in H as [_ H]; [|done].
  apply str_app_inj_l in H as [_ H]; [|done]. apply str_app_inv_r in H.
  destruct (String.eqb_spec g ""), (String.eqb_spec g' ""); subst; try done.
  by apply str_app_inj_l in H as [_ H].
Qed.

Lemma logged_put st st' t b g b' g' src why payload path :
  override_bucket b -> override_bucket b' -> String.length t = stamp ->
  control_log st' = dict_set (control_log st) (_audit_log_name t b g)
    (audit_record control_root
       {| cc_name := b; cc_arg := g; cc_payload := payload; cc_file_path := path |} t src why) ->
  (b' = b /\ g' = g) \/ logged st b' g' -> logged st' b' g'.
Proof.
  intros Hb Hb' Ht Hlog H.
  destruct (decide (b' = b /\ g' = g)) as [[-> ->]|Hne].
  { exists t, src, why, payload, path. by rewrite Hlog, dict_get_set_eq. }
  destruct H as [?|(t' & s' & w' & pl & pa & Ht' & Hg)]; [done|].
  exists t', s', w', pl, pa. split; [done|]. rewrite Hlog, dict_get_set_ne; [done|].
  intros E. destruct (audit_log_name_inj t t' b b' g g'); [done|done|congruence|done|naive_solver].
Qed.

Lemma accounted_step gids st0 cur w b g :
  taken gids (Targeted b g) -> accounted gids st0 cur -> wf w ->
  (forall q, read_command w q = read_command cur q
    \/ q = Targeted b g /\ read_command w q = None /\ logged w b g) ->
  (forall b' g', override_bucket b' -> logged cur b' g' -> logged w b' g') ->
  accounted gids st0 w.
Proof.
  intros Ht [_ Hc] Hw Hr Hl. split; [done|]. intros q.
  destruct (Hr q) as [E|(-> & E & Hlog)]; [|by right].
  rewrite E. destruct (Hc q) as [?|Hq]; [by left|]. destruct q as [|b' g']; [done|]. right.
  destruct Hq as (Hq & ? & ?). split_and!; [done|done|]. apply Hl; [by apply Hq|done].
Qed.

Lemma wf_same st st' : entries st' = entries st -> wf st -> wf st'.
Proof. unfold wf. by intros ->. Qed.

Lemma read_same st st' p : entries st' = entries st -> read_command st' p = read_command st p.
Proof. unfold read_command. by intros ->. Qed.

Lemma consume_ok gids st0 cur b g body0 src why :
  taken gids (Targeted b g) -> accounted gids st0 cur ->
  let out := consume_command (command_at (Targeted b g) body0) src why cur in
  Forall (accounted gids st0) out.1
  /\ accounted gids st0 (final_state cur out.1)
  /\ forall q, read_command (final_state cur out.1) q
       = if decide (Targeted b g = q) then None else read_command cur q.
Proof.
  intros Ht Ha. pose proof (proj1 Ht) as Hb. unfold Control.consume_command. cbn [cc_file_path command_at].
  match goal with |- context [match read_command ?s ?p with _ => _ end] =>
    set (st1 := s); set (path := p) in * end.
  assert (forall q, read_command st1 q = read_command cur q) as Hr1 by (by intros; apply read_same).
  assert (wf st1) as Hw1 by (by apply (wf_same cur), Ha).
  assert (forall w, control_log w = control_log st1 -> forall b' g', override_bucket b' ->
            (b' = b /\ g' = g) \/ logged cur b' g' -> logged w b' g') as Hlog.
  { intros w Hw b' g' Hb'.
    exact (logged_put cur w (clock (ticks cur)) b g b' g' src why "" (Some (Targeted b g)) Hb Hb' (Hstamp _) Hw). }
  assert (forall w, control_log w = control_log st1 -> wf w ->
            (forall q, read_command w q = read_command cur q
               \/ q = Targeted b g /\ read_command w q = None) -> accounted gids st0 w) as Hacc.
  { intros w Hw Hwf Hr. apply (accounted_step gids st0 cur w b g); [done..| |].
    - intros q. destruct (Hr q) as [|[-> ?]]; [by left|right]. split_and!; [done..|].
      apply (Hlog w); [done..|by left].
    - intros b' g' Hb' H. apply (Hlog w); [done..|by right]. }
  assert (accounted gids st0 (ensure_runtime_dirs cur)) as H0.
  { apply (accounted_step gids st0 cur _ b g); [done..| | |by intros ? ? _].
    - by apply (wf_same cur), Ha.
    - intros q. left. by apply read_same. }
  assert (accounted gids st0 st1) as H1 by (apply Hacc; [done..|by left]).
  destruct (read_command st1 path) as [body|] eqn:Hp; unfold final_state; cbn [fst List.last].
  - destruct (wf_unlink st1 path Hw1) as [Hwu Hwr].
    assert (forall q, _) as Hread by exact (fun q => read_unlink st1 path body q Hw1 Hp).
    unfold remove in *. rewrite !Forall_cons. split_and!; [done|done| | |by apply Forall_nil_2| |].
    + apply Hacc; [done..|]. intros q. rewrite (proj1 (Hread q)). case_decide; auto.
    + apply Hacc; [done..|]. intros q. rewrite (proj2 (Hread q)). case_decide; auto.
    + apply Hacc; [done..|]. intros q. rewrite (proj2 (Hread q)). case_decide; auto.
    + intros q. rewrite (proj2 (Hread q)). by rewrite Hr1.
  - rewrite !Forall_cons. split_and!; [done|done|by apply Forall_nil_2|done|]. intros q.
    rewrite Hr1. case_decide; [|done]. subst q. by rewrite <-Hr1.
Qed.

(** ** Claiming *)

(** The body of the override file of a generation, [None] when none is pending. *)
Definition queued (st : Runtime) (bucket gid : string) : option string :=
  if is_tmp gid then None else read_command st (Targeted bucket gid).

(** What the pending files say of a generation: a promotion before a rejection. *)
Definition override_for (st : Runtime) (gid : string) : option GateOverride :=
  let forced verdict body :=
    Some {| go_decision := verdict; go_generation_id := gid;
            go_reason := or_text (reason_in json_loads body)
                           ("operator " +:+ verdict +:+ " override") |} in
  match queued st CMD_PROMOTE_PREFIX gid, queued st CMD_REJECT_PREFIX gid with
  | Some body, _ => forced "promoted" body
  | None, Some body => forced "rejected" body
  | None, None => None
  end.

Lemma last_match_spec p l :
  match last_match p l with
  | Some c => c ∈ l /\ p c = true
  | None => forall c, c ∈ l -> p c = false
  end.
Proof.
  unfold last_match. induction l as [|c l IH] using rev_ind; [set_solver|].
  rewrite foldl_app. cbn. destruct (p c) eqn:E; [set_solver|].
  destruct (foldl _ None l); [set_solver|]. intros c' [?| ->%list_elem_of_singleton]%elem_of_app; auto.
Qed.

Lemma pending_target st b gid :
  wf st -> override_bucket b -> gid <> "" ->
  last_match (targets b gid) (list_pending_commands st)
  = command_at (Targeted b gid) <$> queued st b gid.
Proof.
  intros Hw Hb Hg. pose proof (last_match_spec (targets b gid) (list_pending_commands st)) as Hl.
  assert (is_tmp b = false) as Hbt by (by destruct Hb as [->| ->]).
  destruct (last_match _ _) as [c|]; unfold queued.
  - destruct Hl as [(p & body & -> & Hh & Hr)%pending_iff Ht]; [|done].
    unfold targets, named in Ht. apply andb_true_iff in Ht as [Ha%String.eqb_eq Hn%String.eqb_eq].
    destruct p as [name|b' g']; cbn in *; [done|]. subst. rewrite Hbt in Hh. cbn in Hh.
    rewrite Hh. cbn in Hr |- *. by rewrite Hr.
  - destruct (is_tmp gid) eqn:Ht; [done|].
    destruct (read_command st (Targeted b gid)) as [body|] eqn:Hr; [|done]. exfalso.
    assert (command_at (Targeted b gid) body ∈ list_pending_commands st) as Hin.
    { apply pending_iff; [done|]. exists (Targeted b gid), body. cbn. by rewrite Hbt, Ht. }
    specialize (Hl _ Hin). unfold targets, named in Hl. cbn in Hl. by rewrite !String.eqb_refl in Hl.
Qed.

Definition claims (gids : list string) (cur fin : Runtime) : Prop :=
  forall q, (taken gids q -> read_command fin q = None)
    /\ (~ taken gids q -> read_command fin q = read_command cur q).

Lemma flag_at st p body0 body cmd :
  cmd = command_at p body0 -> read_command st p = Some body ->
  _flag_reason json_loads cmd st = reason_in json_loads body.
Proof. intros -> Hr. unfold _flag_reason. destruct p; cbn [command_at cc_file_path mbind option_bind]; by rewrite Hr. Qed.

Lemma claims_of gid cur fin :
  is_tmp gid = false ->
  (forall q, (forall b, override_bucket b -> Targeted b gid <> q) -> read_command fin q = read_command cur q) ->
  (forall b, override_bucket b -> read_command fin (Targeted b gid) = None) ->
  claims [gid] cur fin.
Proof.
  intros Ht Hsame Hnone [n|b g]; (split; [intros Hn|intros Hn]).
  - done.
  - by apply Hsame.
  - destruct Hn as (Hb & _ & ->%list_elem_of_singleton). by apply Hnone.
  - apply Hsame. intros b' Hb' [= -> ->]. apply Hn. split_and!; [done..|set_solver].
Qed.

Lemma claim_one gids st0 cur gid :
  gid <> "" -> gid ∈ gids -> wf st0 -> accounted gids st0 cur ->
  (forall b, override_bucket b -> read_command cur (Targeted b gid) = read_command st0 (Targeted b gid)) ->
  let out := _claim_override_for gid (list_pending_commands st0) cur in
  out.2 = override_for st0 gid /\ Forall (accounted gids st0) out.1
  /\ accounted gids st0 (final_state cur out.1) /\ claims [gid] cur (final_state cur out.1).
Proof.
  intros Hg Hin Hw Ha Hr. unfold Control._claim_override_for.
  rewrite !pending_target by (by try (left; done); try (right; done)).
  unfold override_for, queued. rewrite <-!Hr by (by try (left; done); try (right; done)).
  destruct (is_tmp gid) eqn:Ht.
  { cbn. split_and!; [done|by apply Forall_nil_2|done|]. intros [|b g]; cbn; [done|].
    split; [|done]. intros (_ & Hf & ->%list_elem_of_singleton). congruence. }
  pose proof (fun b (Hb : override_bucket b) => conj Hb (conj Ht Hin) : taken gids (Targeted b gid)) as Htk.
  destruct (read_command cur (Targeted CMD_PROMOTE_PREFIX gid)) as [pb|] eqn:Hp,
    (read_command cur (Targeted CMD_REJECT_PREFIX gid)) as [rb|] eqn:Hrj.
  all: cbn [fmap option_fmap option_map union option_union option_union_with union_with from_option];
    rewrite ?bind_reading, ?act_bind_eq; cbn [fst snd act_ret].
  4: { split_and!; [done|by apply Forall_nil_2|done|]. apply claims_of; [done|done|].
       intros b [->| ->]; assumption. }
  1-2: rewrite (flag_at cur (Targeted CMD_PROMOTE_PREFIX gid) pb pb _ eq_refl) by assumption.
  3: rewrite (flag_at cur (Targeted CMD_REJECT_PREFIX gid) rb rb _ eq_refl) by assumption.
  all: rewrite ?app_nil_r.
  - destruct (consume_ok gids st0 cur CMD_PROMOTE_PREFIX gid pb CONSUMER_SOURCE
                (or_text (reason_in json_loads pb) "operator promoted override"))
      as (Hf & Hc & Hread); [apply Htk; by left|done|].
    match goal with |- context [consume_command (command_at (Targeted CMD_REJECT_PREFIX gid) rb) ?s ?w ?c] =>
      destruct (consume_ok gids st0 c CMD_REJECT_PREFIX gid rb s w) as (Hf' & Hc' & Hread');
        [apply Htk; by right|exact Hc|] end.
    rewrite Forall_app, final_app. split_and!; [done|done|done|done|]. apply claims_of; [done| |].
    + intros q Hq. rewrite Hread', Hread. by rewrite !decide_False by (apply Hq; by (left + right)).
    + intros b Hb. rewrite Hread', Hread. destruct Hb as [->| ->]; repeat case_decide; done.
  - destruct (consume_ok gids st0 cur CMD_PROMOTE_PREFIX gid pb CONSUMER_SOURCE
                (or_text (reason_in json_loads pb) "operator promoted override"))
      as (Hf & Hc & Hread); [apply Htk; by left|done|].
    split_and!; [done|done|done|]. apply claims_of; [done| |].
    + intros q Hq. rewrite Hread. by rewrite decide_False by (apply Hq; by left).
    + intros b [->| ->]; rewrite Hread; case_decide; done.
  - destruct (consume_ok gids st0 cur CMD_REJECT_PREFIX gid rb CONSUMER_SOURCE
                (or_text (reason_in json_loads rb) "operator rejected override"))
      as (Hf & Hc & Hread); [apply Htk; by right|done|].
    split_and!; [done|done|done|]. apply claims_of; [done| |].
    + intros q Hq. rewrite Hread. by rewrite decide_False by (apply Hq; by right).
    + intros b [->| ->]; rewrite Hread; case_decide; done.
Qed.

#[local] Instance taken_dec gids p : Decision (taken gids p).
Proof. destruct p; unfold taken, override_bucket; apply _. Defined.

Lemma taken_cons gid done q : taken (gid :: done) q <-> taken [gid] q \/ taken done q.
Proof. destruct q; cbn; [tauto|]. rewrite elem_of_cons, list_elem_of_singleton. tauto. Qed.

Lemma claims_trans done gid st0 cur fin :
  claims done st0 cur -> claims [gid] cur fin -> claims (gid :: done) st0 fin.
Proof.
  intros H1 H2 q. rewrite taken_cons. destruct (H1 q) as [H1t H1f], (H2 q) as [H2t H2f].
  destruct (decide (taken [gid] q)) as [Ht|Ht]; [by split; [intros _; apply H2t|tauto]|].
  rewrite (H2f Ht). split; intros Hq; [apply H1t|apply H1f]; tauto.
Qed.

Lemma claim_each_ok gids st0 :
  wf st0 -> Forall (fun g => g <> "") gids ->
  forall rest done cur claimed,
  (forall g, g ∈ rest -> g ∈ gids) -> accounted gids st0 cur -> claims done st0 cur ->
  (forall g, dict_get claimed g = if decide (g ∈ done) then override_for st0 g else None) ->
  exists done', (forall g, g ∈ done' <-> g ∈ done \/ g ∈ rest) /\
  let out := claim_each rest (list_pending_commands st0) claimed cur in
  Forall (accounted gids st0) out.1 /\ wf (final_state cur out.1)
  /\ claims done' st0 (final_state cur out.1)
  /\ forall g, dict_get out.2 g = if decide (g ∈ done') then override_for st0 g else None.
Proof.
  intros Hw Hne rest. induction rest as [|gid rest IH]; intros done cur claimed Hrest Ha Hcl Hd.
  { exists done. split; [set_solver|]. cbn. split_and!; [by apply Forall_nil_2|apply Ha|done|done]. }
  cbn [Control.claim_each]. assert (gid ∈ gids) as Hin by (apply Hrest; set_solver).
  assert (gid <> "") as Hg by (by eapply Forall_forall in Hne).
  unfold dict_mem. destruct (dict_get claimed gid) as [o|] eqn:Hc.
  { destruct (IH done cur claimed) as (done' & Hd' & Hout); [set_solver|done..|].
    exists done'. split; [|done]. rewrite Hd in Hc. case_decide; [|done]. set_solver. }
  assert (forall b, override_bucket b ->
            read_command cur (Targeted b gid) = read_command st0 (Targeted b gid)) as Hr.
  { intros b Hb. destruct (Hcl (Targeted b gid)) as [Ht Hf].
    destruct (decide (taken done (Targeted b gid))) as [Htk|]; [|auto]. rewrite (Ht Htk).
    destruct Htk as (_ & Htmp & Hdone). rewrite Hd, decide_True in Hc by done.
    unfold override_for, queued in Hc. rewrite Htmp in Hc.
    destruct Hb as [->| ->]; repeat case_match; congruence. }
  destruct (claim_one gids st0 cur gid Hg Hin Hw Ha Hr) as (Ho & Hf & Ha' & Hc').
  rewrite act_bind_eq, Ho. cbn [fst snd].
  destruct (IH (gid :: done) (final_state cur (_claim_override_for gid (list_pending_commands st0) cur).1)
              (match override_for st0 gid with Some o => dict_set claimed gid o | None => claimed end))
    as (done' & Hd' & Hf' & Hw' & Hc'' & Hg'); [set_solver|done|by eapply claims_trans| |].
  { intros g. transitivity (if decide (g = gid) then override_for st0 gid else dict_get claimed g).
    - case_decide as E; [subst g|]; destruct (override_for st0 gid); rewrite ?dict_get_set_eq; try done.
      by rewrite dict_get_set_ne.
    - rewrite Hd. destruct (decide (g = gid)) as [->|]; [by rewrite decide_True by set_solver|].
      apply decide_ext. set_solver. }
  exists done'. split; [set_solver|]. rewrite Forall_app, final_app. done.
Qed.

Lemma taken_iff gids done p body :
  Forall (fun g => g <> "") gids -> hidden p = false ->
  (forall g, g ∈ done <-> g ∈ [] \/ g ∈ gids) ->
  taken done p
  <-> override_bucket (cc_name (command_at p body)) /\ cc_arg (command_at p body) ∈ gids.
Proof.
  intros Hne Hh Hd. rewrite Forall_forall in Hne. destruct p as [name|b g]; cbn.
  - split; [done|]. intros [_ Hin]. by destruct (Hne _ Hin).
  - apply orb_false_iff in Hh as [_ Hg]. rewrite Hd, elem_of_nil. tauto.
Qed.

(** C12.  The operator's word is taken once, whole, and on the record.  Claiming the
    overrides of a field leaves pending exactly the commands that target no generation
    of the field, whatever else is queued; the claimed map gives every generation of
    the field, and no other, the verdict of its pending files, where a promotion beats
    a rejection; and in every state a crash can expose, a command is still pending or
    the audit log has its record. *)
Theorem claim_field_exact gids st :
  wf st -> Forall (fun g => g <> "") gids ->
  let out := claim_field_gate_overrides clock control_root json_loads gids st in
  (forall cmd, cmd ∈ list_pending_commands (final_state st out.1)
     <-> cmd ∈ list_pending_commands st /\ ~ (override_bucket (cc_name cmd) /\ cc_arg cmd ∈ gids))
  /\ (forall g, dict_get out.2 g = if decide (g ∈ gids) then override_for st g else None)
  /\ Forall (fun w => forall cmd, cmd ∈ list_pending_commands st ->
                cmd ∈ list_pending_commands w \/ logged w (cc_name cmd) (cc_arg cmd)) out.1.
Proof.
  intros Hw Hne. unfold claim_field_gate_overrides. rewrite bind_reading.
  destruct (claim_each_ok gids st Hw Hne gids [] st []) as (done & Hd & Hf & Hwf & Hc & Hg).
  { done. } { by split; [done|left]. }
  { intros q. split; [|done]. destruct q; [done|]. by intros (_ & _ & []%elem_of_nil). } { done. }
  split_and!.
  - intros cmd. rewrite !pending_iff by done. split.
    + intros (p & body & -> & Hh & Hr). destruct (Hc p) as [Ht Hn].
      destruct (decide (taken done p)) as [Htk|Htk]; [by rewrite (Ht Htk) in Hr|].
      rewrite (Hn Htk) in Hr. split; [by exists p, body|]. intros [Hb Hin]. apply Htk.
      by apply (taken_iff gids done p body Hne Hh Hd).
    + intros [(p & body & -> & Hh & Hr) Hn]. exists p, body. split_and!; [done..|].
      destruct (Hc p) as [_ Hcn]. rewrite Hcn; [done|]. intros Htk. apply Hn.
      by apply (taken_iff gids done p body Hne Hh Hd).
  - intros g. rewrite Hg. apply decide_ext. set_solver.
  - eapply Forall_impl; [exact Hf|]. intros w [Hww Hacc] cmd (p & body & -> & Hh & Hr)%pending_iff; [|done].
    destruct (Hacc p) as [E|Htk]; [left|].
    + apply pending_iff; [done|]. exists p, body. by rewrite E.
    + destruct p as [|b g]; [done|]. right. apply Htk.
Qed.
End Consumer.

(** ** A concrete directory *)
Module ControlWitness.
Definition clock (i : nat) : string := "2026-05-01T10:00:00Z".
Definition loads (s : string) : option Json := None.

(** A pause, an override of each kind for [v3], a rejection of [v4], one of a generation
    that is not in the field, and a half-written file. *)
Definition directory : Runtime := {|
  control := Some [("skip_round", Leaf ""); ("rubric_replacement.txt", Leaf "be brief");
                   ("promote", Bucket [("v3", Some "better"); ("v4.tmp", Some "")]);
                   ("reject", Bucket [("v4", Some ""); ("v3", Some "worse"); ("v9", Some "")]);
                   ("pause_epoch", Leaf "lunch")];
  control_log := []; ticks := 0 |}.

Lemma wf_directory : wf directory.
Proof.
  split; [by apply (bool_decide_unpack _); vm_compute|]. intros name n Hn.
  apply dict_get_Some_elem in Hn. cbn in Hn.
  repeat (apply elem_of_cons in Hn as [[= -> ->]|Hn];
    [first [exact I|by apply (bool_decide_unpack _); vm_compute]|]).
  by apply elem_of_nil in Hn.
Qed.

Definition claimed := claim_field_gate_overrides clock "/w" loads ["v2"; "v3"; "v4"] directory.

Example claimed_verdicts :
  (fun kv : string * GateOverride => (kv.1, go_decision kv.2, go_reason kv.2)) <$> claimed.2
  = [("v3", "promoted", "better"); ("v4", "rejected", "operator rejected override")].
Proof. vm_compute. reflexivity. Qed.

Lemma claim_field_exact_witness :
  Forall (fun w => forall cmd, cmd ∈ list_pending_commands directory ->
    cmd ∈ list_pending_commands w \/ logged "/w" 20 w (cc_name cmd) (cc_arg cmd)) claimed.1.
Proof.
  apply (claim_field_exact clock "/w" loads 20); [reflexivity|exact wf_directory|].
  repeat constructor; discriminate.
Defined.

(** The listing is in one order of names: the targeted commands come between the
    top-level ones, not after them. *)
Example listing_interleaves :
  cc_name <$> list_pending_commands directory
  = ["pause_epoch"; "promote"; "reject"; "reject"; "reject"; "rubric_replacement.txt"; "skip_round"].
Proof. vm_compute. reflexivity. Qed.

(** A bounded wait that ends while the flag is still there deletes the flag. *)
Example bounded_wait_lifts_the_pause :
  (fun out => (is_paused directory, out.2, is_paused (final_state directory out.1)))
    <$> block_while_paused clock "/w" loads (fun _ st => st) (Some 3) 10 directory
  = Some (true, 3, false).
Proof. vm_compute. reflexivity. Qed.

Definition twice (k : string) : list (string * Json) :=
  let cmd := command_at (Targeted "promote" "v3") "" in
  control_log (final_state directory
    (act_bind (consume_command clock "/w" cmd "orchestrator" "first")
       (fun _ => consume_command clock "/w" cmd "orchestrator" k) directory).1).

(** Two commands of one name consumed in one second leave one audit record. *)
Example same_second_overwrites : length (twice "second") = 1.
Proof. vm_compute. reflexivity. Qed.
End ControlWitness.
