(* ===== verification/Containment.v ===== *)
(** Diff containment, [src/zicato/evolve/containment.py]: outside the registered mutable
    trees a child snapshot must hold the bytes of its parent.
    A snapshot is what walking it reads: its regular files, by their slash-separated
    paths, with their bytes; [None] is a root that is no directory.  The digest is the
    one the code takes, SHA-256, compared as its words. *)
From S2P Require Import Prelude PyText Sha256.

Definition Tree : Type := option (list (string * string)).

Record ContainmentViolation := {
  cv_path : string;
  cv_kind : string;
}.

Record ContainmentReport := {
  contained : bool;
  violations : list ContainmentViolation;
  skipped_reason : option string;
}.

Definition slash : Ascii.ascii := Ascii.ascii_of_nat 47.

(** The components of a path, empty ones included. *)
Fixpoint components (s : string) : list string :=
  match s with
  | "" => [""]
  | String c s =>
      if Ascii.eqb c slash then "" :: components s
      else match components s with
           | [] => [String c ""]
           | x :: l => String c x :: l
           end
  end.

(** [PurePosixPath(s).parts] without the root: empty and dot components vanish. *)
Definition path_parts (s : string) : list string :=
  List.filter (fun x => negb (String.eqb x "") && negb (String.eqb x ".")) (components s).

(** [Path(s).name] *)
Definition path_basename (s : string) : string := List.last (path_parts s) "".

Definition mutable_basenames (mutable_trees : list string) : list string :=
  remove_dups (List.filter (fun name => negb (String.eqb name "")) (path_basename <$> mutable_trees)).

(** An absolute path, which no walk yields, has the root as its first part. *)
Definition _is_in_bounds (rel : string) (basenames : list string) : bool :=
  match basenames with
  | [] => true
  | _ =>
      if str_startswith "/" rel then bool_decide ("/" ∈ basenames)
      else match path_parts rel with [] => false | p :: _ => bool_decide (p ∈ basenames) end
  end.

Definition _hash_tree (root : Tree) : option (list (string * list Z)) :=
  fmap (M := option) (fmap (fun f : string * string => (f.1, sha256 f.2))) root.

(** The verdict on one path, [None] when its two sides agree. *)
Definition diff_kind (in_parent in_child : option (list Z)) : option string :=
  match in_parent, in_child with
  | Some p, Some c => if decide (p = c) then None else Some "changed"
  | _, Some _ => Some "added"
  | _, None => Some "deleted"
  end.

Definition violation_at (parent_hashes child_hashes : list (string * list Z))
    (basenames : list string) (rel : string) : option ContainmentViolation :=
  if _is_in_bounds rel basenames then None
  else
    kind ← diff_kind (dict_get parent_hashes rel) (dict_get child_hashes rel);
    Some {| cv_path := rel; cv_kind := kind |}.

Definition skipped (why : string) : ContainmentReport :=
  {| contained := true; violations := []; skipped_reason := Some why |}.

(** The roots' names only enter the skip reasons. *)
Definition check_containment (parent_name child_name : string) (parent_root child_root : Tree)
    (mutable_trees : list string) : ContainmentReport :=
  match _hash_tree parent_root with
  | None => skipped ("parent snapshot unreadable: " +:+ parent_name)
  | Some parent_hashes =>
      match _hash_tree child_root with
      | None => skipped ("child snapshot unreadable: " +:+ child_name)
      | Some child_hashes =>
          let basenames := mutable_basenames mutable_trees in
          let found :=
            omap (violation_at parent_hashes child_hashes basenames)
              (sorted_strings (list_union (dict_keys parent_hashes) (dict_keys child_hashes))) in
          {| contained := match found with [] => true | _ => false end;
             violations := found; skipped_reason := None |}
      end
  end.

Definition containment_reason (report : ContainmentReport) : string :=
  let n := length (violations report) in
  let shown := (fun v => cv_kind v +:+ ": " +:+ cv_path v) <$> take 5 (violations report) in
  let more := n - length shown in
  "containment_violation: child mutated " +:+ pretty n +:+ " file(s) outside the registered mutable "
  +:+ "trees — " +:+ py_join "; " shown
  +:+ (if 0 <? more then " (+" +:+ pretty more +:+ " more)" else "").

(** ** Properties *)

Lemma elem_of_sorted_strings x l : x ∈ sorted_strings l <-> x ∈ l.
Proof. apply elem_of_py_sorted. Qed.

Lemma hash_tree_get root files rel :
  root = Some files -> exists h, _hash_tree root = Some h
    /\ (forall rel, rel ∈ dict_keys h <-> rel ∈ dict_keys files)
    /\ dict_get h rel = sha256 <$> dict_get files rel.
Proof.
  intros ->. eexists. split; [done|]. split.
  - intros r. unfold dict_keys. by rewrite <-list_fmap_compose.
  - induction files as [|[k v] files IH]; [done|]. cbn. by case_decide.
Qed.

Lemma diff_kind_None p c : (p <> None \/ c <> None) -> diff_kind p c = None <-> p = c.
Proof. destruct p, c; cbn; try (case_decide; naive_solver); naive_solver. Qed.

(** A readable pair of snapshots is contained exactly when every file outside the
    mutable trees has one digest on both sides, or is on neither. *)
Lemma check_containment_spec pn cn parent child trees :
  contained (check_containment pn cn (Some parent) (Some child) trees) = true
  <-> forall rel, _is_in_bounds rel (mutable_basenames trees) = false ->
        sha256 <$> dict_get parent rel = sha256 <$> dict_get child rel.
Proof.
  assert (forall l (f : string -> option ContainmentViolation),
            match omap f l with [] => true | _ => false end = true <-> forall x, x ∈ l -> f x = None) as Homap.
  { intros l f. induction l as [|x l IH]; cbn; [set_solver|]. destruct (f x) eqn:E.
    - split; [done|]. intros H. specialize (H x). rewrite E in H. discriminate H. set_solver.
    - rewrite IH. split; [|set_solver]. intros H y [->|]%elem_of_cons; auto. }
  unfold check_containment. cbn [_hash_tree fmap option_fmap option_map contained].
  rewrite Homap. unfold violation_at.
  set (hp := fmap _ parent). set (hc := fmap _ child).
  assert (forall rel, dict_get hp rel = sha256 <$> dict_get parent rel) as Hp.
  { intros rel. by destruct (hash_tree_get _ _ rel (eq_refl (Some parent))) as (h & [= <-] & _ & ?). }
  assert (forall rel, dict_get hc rel = sha256 <$> dict_get child rel) as Hc.
  { intros rel. by destruct (hash_tree_get _ _ rel (eq_refl (Some child))) as (h & [= <-] & _ & ?). }
  split.
  - intros H rel Hr. rewrite <-Hp, <-Hc.
    destruct (decide (rel ∈ list_union (dict_keys hp) (dict_keys hc))) as [Hin|Hout].
    + specialize (H rel). rewrite elem_of_sorted_strings, Hr in H. specialize (H Hin).
      apply diff_kind_None; [|by destruct (diff_kind _ _)].
      unfold list_union in Hin. rewrite elem_of_remove_dups, elem_of_app, <-!dict_mem_true in Hin.
      unfold dict_mem in Hin. destruct Hin; [left|right]; by case_match.
    + unfold list_union in Hout. rewrite elem_of_remove_dups, elem_of_app in Hout.
      by rewrite !(proj2 (dict_get_None _ _)) by tauto.
  - intros H rel Hin. destruct (_is_in_bounds _ _) eqn:Hr; [done|].
    specialize (H rel Hr). rewrite <-Hp, <-Hc in H. rewrite elem_of_sorted_strings in Hin.
    unfold list_union in Hin. rewrite elem_of_remove_dups, elem_of_app, <-!dict_mem_true in Hin.
    assert (dict_get hp rel <> None \/ dict_get hc rel <> None) as Hsome.
    { unfold dict_mem in Hin. destruct Hin; [left|right]; by case_match. }
    by rewrite (proj2 (diff_kind_None _ _ Hsome)).
Qed.
