(* ===== verification/Verdict.v ===== *)
(** The verdict of a round, [src/zicato/evolve/gate.py]: the crowning of the strategy,
    confirmed on the holdout, checked by the integrity blocks and overridden by the
    operator.  [resolve_field_verdict] works on the ladder's store, on the control
    directory and on the round log; the holdout duel, the snapshots, the clock and the
    JSON parser are handed in.  Warnings that are only logged are left out. *)
From S2P Require Import Prelude PyFloat PyText PyJson CoreTypes Gate Board Governance Strategy Control Containment.

(** ** Provenance *)

Record OverrideProvenance := {
  op_action : string;
  op_ts : string;
  op_reason : string;
  op_state : string;
}.

Definition _field_override_provenance (now : string) (o : GateOverride) : OverrideProvenance := {|
  op_action := if String.eqb (go_decision o) "promoted" then "promote" else "reject";
  op_ts := now; op_reason := go_reason o; op_state := "applied" |}.

Definition _resolve_round_champion_mode (champion_cached_units champion_fresh_units : Z)
    (fast_requested : bool) : string :=
  if negb fast_requested then "full"
  else if (0 <? champion_fresh_units)%Z then "fast-degraded"
  else if (0 <? champion_cached_units)%Z then "fast"
  else "full".

Fixpoint _first_aggregate_for (gid : string) (matchups : list MatchupResult) : option Aggregate :=
  match matchups with
  | [] => None
  | mr :: rest =>
      if String.eqb (mr_left_id mr) gid then Some (mr_left_agg mr)
      else if String.eqb (mr_right_id mr) gid then Some (mr_right_agg mr)
      else _first_aggregate_for gid rest
  end.

(** ** Holdout *)

Record CrowningHoldout := {
  ch_promoted_id : option string;
  ch_reason_override : option string;
  ch_decision_override : option TournamentDecision;
  ch_holdout_block : option HoldoutRecord;
  ch_holdout_child_scalar : option float;
  ch_challenger_id : option string;
  ch_challenger_train_scalar : option float;
  ch_crowning_delta_scalar : option float;
}.

Definition _released_holdout_confirmation (block : option HoldoutRecord) : option bool :=
  b ← block; if hr_consulted b && hr_released b then hr_confirmed b else None.

(** A generation is named by its id.  What [confirm_fn] is given of the crowning duel, and what it returns. *)
Definition ConfirmFn : Type :=
  string -> GateOutcome -> Aggregate -> Aggregate -> Store ->
  Op (GateOutcome * option HoldoutRecord * option float).

Definition unconfirmed (promoted_id challenger : option string) (train delta : option float)
    : CrowningHoldout := {|
  ch_promoted_id := promoted_id; ch_reason_override := None; ch_decision_override := None;
  ch_holdout_block := None; ch_holdout_child_scalar := None; ch_challenger_id := challenger;
  ch_challenger_train_scalar := train; ch_crowning_delta_scalar := delta |}.

(** The crowning duel, when the decision names one. *)
Definition crowning_result (d : SelectionDecision) : option MatchupResult :=
  if String.eqb (sd_crowning_matchup_id d) "" then None
  else find_first (fun m => String.eqb (mr_id m) (sd_crowning_matchup_id d)) (sd_matchups d).

(** The crowning duel seen from the champion's side: the challenger, the two
    aggregates, and the delta with the champion as parent. *)
Record Crowning := {
  cr_challenger_id : string;
  cr_champion_agg : Aggregate;
  cr_challenger_agg : Aggregate;
  cr_delta : float;
}.

Definition oriented (parent_id : string) (m : MatchupResult) : Crowning :=
  let raw_delta := delta_scalar (mr_outcome m) in
  if String.eqb (mr_left_id m) parent_id
  then {| cr_challenger_id := mr_right_id m; cr_champion_agg := mr_left_agg m;
          cr_challenger_agg := mr_right_agg m; cr_delta := raw_delta |}
  else {| cr_challenger_id := mr_left_id m; cr_champion_agg := mr_right_agg m;
          cr_challenger_agg := mr_left_agg m; cr_delta := fneg raw_delta |}.

Definition _confirm_crowning_on_holdout (d : SelectionDecision) (parent_id : string)
    (generation_for : string -> result string) (confirm_fn : ConfirmFn) (st : Store) : Op CrowningHoldout :=
  let promoted_id := sd_promoted_generation_id d in
  match crowning_result d, sd_decision d with
  | None, _ | _, REJECTED => ([], Ok (unconfirmed promoted_id None None None))
  | Some m, decision =>
      let c := oriented parent_id m in
      let train := from_option id f0 (scalar (cr_challenger_agg c)) in
      match promoted decision, promoted_id with
      | true, Some _ =>
          op_bind st
            (match generation_for (cr_challenger_id c) with
             | Ok challenger =>
                 confirm_fn challenger (mr_outcome m) (cr_champion_agg c) (cr_challenger_agg c) st
             | Raise e => ([], Raise e)
             end)
            (fun _ out =>
               let '(outcome, block, child_scalar) := out in
               let confirmed := promoted (Gate.decision outcome) in
               ([], Ok {|
                 ch_promoted_id := if confirmed then promoted_id else None;
                 ch_reason_override := if confirmed then None else Some (reason outcome);
                 ch_decision_override := if confirmed then None else Some (Gate.decision outcome);
                 ch_holdout_block := block; ch_holdout_child_scalar := child_scalar;
                 ch_challenger_id := Some (cr_challenger_id c);
                 ch_challenger_train_scalar := Some train;
                 ch_crowning_delta_scalar := Some (cr_delta c) |}))
      | _, _ =>
          ([], Ok (unconfirmed promoted_id (Some (cr_challenger_id c)) (Some train)
                     (Some (cr_delta c))))
      end
  end.

(** ** Overrides *)

Definition set_add (s : list string) (x : string) : list string :=
  if bool_decide (x ∈ s) then s else s ++ [x].
Definition set_discard (s : list string) (x : string) : list string :=
  List.filter (fun y => negb (String.eqb y x)) s.

Definition apply_override (promoted_ids : list string) (item : string * GateOverride) : list string :=
  if String.eqb (go_decision item.2) "promoted" then set_add promoted_ids item.1
  else set_discard promoted_ids item.1.

(** The tuples (scalar, id); the set is iterated in some order, which only matters to
    the minimum of keys that are no numbers. *)
Definition head_lt (matchups : list MatchupResult) (a b : string) : bool :=
  let scalar_of g := from_option id f0 (_first_aggregate_for g matchups ≫= scalar) in
  if feq (scalar_of a) (scalar_of b) then str_lt a b else flt (scalar_of a) (scalar_of b).

(** The head after the overrides changed the set. *)
Definition primary_head (matchups : list MatchupResult) (promoted_id : option string)
    (promoted_ids : list string) : option string :=
  match promoted_id with
  | Some p => if bool_decide (p ∈ promoted_ids) then Some p else py_min (head_lt matchups) promoted_ids
  | None => py_min (head_lt matchups) promoted_ids
  end.

Definition rejecting (item : string * GateOverride) : bool := String.eqb (go_decision item.2) "rejected".

Definition operator_reason (o : GateOverride) : string := "operator override: " +:+ go_reason o.

Definition override_reason (promoted_id : option string) (field_overrides : list (string * GateOverride))
    : option string :=
  match promoted_id with
  | Some p =>
      o ← dict_get field_overrides p;
      if String.eqb (go_decision o) "promoted" then Some (operator_reason o) else None
  | None => (fun item => operator_reason item.2) <$> find_first rejecting field_overrides
  end.

Definition with_crowning (d : SelectionDecision) (promoted_id : option string)
    (verdict : TournamentDecision) (why : string) : SelectionDecision := {|
  sd_promoted_generation_id := promoted_id; sd_decision := verdict; sd_reason := why;
  sd_matchups := sd_matchups d; sd_crowning_matchup_id := sd_crowning_matchup_id d;
  sd_standings := sd_standings d |}.

Record OverrideResult := {
  or_promoted_id : option string;
  or_promoted_ids : list string;
  or_provenance : list (string * OverrideProvenance);
  or_decision : SelectionDecision;
}.

Definition _apply_field_overrides (now : string) (d : SelectionDecision) (promoted_id : option string)
    (crowning_reason_override : option string)
    (crowning_decision_override : option TournamentDecision)
    (field_overrides : list (string * GateOverride)) : OverrideResult :=
  let promoted_ids := foldl apply_override (from_option (fun p => [p]) [] promoted_id) field_overrides in
  let head :=
    match field_overrides with
    | [] => promoted_id
    | _ => primary_head (sd_matchups d) promoted_id promoted_ids
    end in
  let override_decision_reason := override_reason head field_overrides in
  let why := from_option id (from_option id (sd_reason d) crowning_reason_override)
               override_decision_reason in
  let verdict :=
    match head, crowning_decision_override, override_decision_reason with
    | Some _, _, _ => PROMOTED
    | None, Some v, None => v
    | None, _, _ => REJECTED
    end in
  {| or_promoted_id := head; or_promoted_ids := promoted_ids;
     or_provenance := (fun item => (item.1, _field_override_provenance now item.2)) <$> field_overrides;
     or_decision :=
       if bool_decide (head = sd_promoted_generation_id d) && String.eqb why (sd_reason d) then d
       else with_crowning d head verdict why |}.

(** ** Integrity *)

Section Verdict.
Context `{PyFormat}.

Definition contradiction_reason (margin delta_scalar : float) : string :=
  let detail :=
    if flt f0 delta_scalar then
      "challenger regressed: loss rose by " +:+ fmt_general delta_scalar
      +:+ " (a promotion needs the loss to drop by at least " +:+ fmt_general margin +:+ ")"
    else
      "improvement was insufficient: loss fell by only " +:+ fmt_general (fneg delta_scalar)
      +:+ " (a promotion needs a drop of at least " +:+ fmt_general margin +:+ ")" in
  "gate_contradiction: recorded PROMOTE but " +:+ detail +:+ "; refused pre-persist".

Definition _integrity_block_reason (w : ScoringWeights) (parent child : string * Tree)
    (mutable_trees : list string) (delta_scalar : option float) : option string :=
  let report := check_containment parent.1 child.1 parent.2 child.2 mutable_trees in
  if block_on_containment_violation w && negb (contained report)
  then Some (containment_reason report)
  else
    match block_on_gate_contradiction w, delta_scalar with
    | true, Some delta =>
        let margin := promote_margin w in
        if fle delta (fneg margin) then None else Some (contradiction_reason margin delta)
    | _, _ => None
    end.

(** ** The verdict *)

(** The events of the round log; the name of the structure, which the record of the
    decision repeats from the contract, is left out. *)
Inductive RoundEvent :=
  | HoldoutReleased (confirmed : bool) (generation_id : option string)
  | DecisionRecorded (verdict : TournamentDecision) (why : string) (parent : string)
      (promoted_id : option string) (promoted_ids : list string) (operator_override : bool)
      (operator_override_reason : string) (overrides : list (string * OverrideProvenance)).

Record FieldVerdict := {
  fv_promoted_id : option string;
  fv_promoted_ids : list string;
  fv_override_provenance : list (string * OverrideProvenance);
  fv_effective_decision : SelectionDecision;
  fv_overrides : list (string * GateOverride);
  fv_reason_override : option string;
  fv_holdout_block : option HoldoutRecord;
  fv_holdout_child_scalar : option float;
  fv_crowning_challenger_id : option string;
  fv_crowning_challenger_train_scalar : option float;
}.

(** The applied field: every snapshot by its root, the champion's and, by generation,
    the challengers' in field order. *)
Record CandidateField := {
  cf_champion_id : string;
  cf_champion_snapshot : string * Tree;
  cf_by_id : list (string * (string * Tree));
  cf_challenger_ids : list string;
}.

Definition generation (candidates : CandidateField) (generation_id : string) : result string :=
  if String.eqb generation_id (cf_champion_id candidates) || dict_mem (cf_by_id candidates) generation_id
  then Ok generation_id else Raise (KeyError generation_id).

(** The crown after the integrity checks: the promoted id and the reason. *)
Definition integrity_checked (w : ScoringWeights) (mutable_trees : list string)
    (candidates : CandidateField) (crowning : CrowningHoldout)
    : result (option string * option string) :=
  match ch_promoted_id crowning with
  | None => Ok (None, ch_reason_override crowning)
  | Some p =>
      match dict_get (cf_by_id candidates) p with
      | None => Raise (KeyError p)
      | Some child =>
          match _integrity_block_reason w (cf_champion_snapshot candidates) child mutable_trees
                  (ch_crowning_delta_scalar crowning) with
          | Some why => Ok (None, Some why)
          | None => Ok (Some p, ch_reason_override crowning)
          end
      end
  end.

Definition released_event (crowning : CrowningHoldout) : list RoundEvent :=
  match _released_holdout_confirmation (ch_holdout_block crowning) with
  | Some bit => [HoldoutReleased bit (ch_challenger_id crowning)]
  | None => []
  end.

(** The reason of the first override of the head, of any override when there is none. *)
Definition logged_reason (promoted_id : option string) (overrides : list (string * GateOverride))
    : string :=
  match promoted_id with
  | Some p => from_option go_reason "" (dict_get overrides p)
  | None => match overrides with (_, o) :: _ => go_reason o | [] => "" end
  end.

Definition decision_event (parent_id : string) (r : OverrideResult)
    (overrides : list (string * GateOverride)) : RoundEvent :=
  DecisionRecorded (sd_decision (or_decision r)) (sd_reason (or_decision r)) parent_id
    (or_promoted_id r) (sorted_strings (or_promoted_ids r))
    (match or_provenance r with [] => false | _ => true end)
    (logged_reason (or_promoted_id r) overrides) (or_provenance r).

(** What a verdict leaves: the ladder's stores, the control directory's states and the
    events, oldest first, with the verdict or the exception. *)
Record VerdictRun := {
  vr_stores : list Store;
  vr_control : list Runtime;
  vr_events : list RoundEvent;
  vr_verdict : result FieldVerdict;
}.

(** [clock] stamps the audit log and [now] the provenance; [confirm_fn] is
    [confirm_crowning_holdout] on the epoch's board (see [holdout_confirm]). *)
Definition resolve_field_verdict (clock : nat -> string) (control_root now : string)
    (json_loads : string -> option Json) (w : ScoringWeights) (mutable_trees : list string)
    (parent_id : string) (candidates : CandidateField) (confirm_fn : ConfirmFn)
    (d : SelectionDecision) (st : Store) (rt : Runtime) : VerdictRun :=
  let '(stores, confirmed) := _confirm_crowning_on_holdout d parent_id (generation candidates) confirm_fn st in
  match confirmed with
  | Raise e => {| vr_stores := stores; vr_control := []; vr_events := []; vr_verdict := Raise e |}
  | Ok crowning =>
      let released := released_event crowning in
      match integrity_checked w mutable_trees candidates crowning with
      | Raise e =>
          {| vr_stores := stores; vr_control := []; vr_events := released; vr_verdict := Raise e |}
      | Ok (promoted_id, reason_override) =>
          let '(states, overrides) :=
            claim_field_gate_overrides clock control_root json_loads (cf_challenger_ids candidates) rt in
          let r := _apply_field_overrides now d promoted_id reason_override
                     (ch_decision_override crowning) overrides in
          {| vr_stores := stores; vr_control := states;
             vr_events := released ++ [decision_event parent_id r overrides];
             vr_verdict := Ok {|
               fv_promoted_id := or_promoted_id r; fv_promoted_ids := or_promoted_ids r;
               fv_override_provenance := or_provenance r; fv_effective_decision := or_decision r;
               fv_overrides := overrides; fv_reason_override := reason_override;
               fv_holdout_block := ch_holdout_block crowning;
               fv_holdout_child_scalar := ch_holdout_child_scalar crowning;
               fv_crowning_challenger_id := ch_challenger_id crowning;
               fv_crowning_challenger_train_scalar := ch_challenger_train_scalar crowning |} |}
      end
  end.

(** [confirm_crowning_holdout] on the holdout slice of the epoch's board;
    [run_holdout] runs a challenger's duel on it. *)
Definition holdout_confirm (epoch_dir epoch_id : string) (board : list BoardEntry)
    (w : ScoringWeights)
    (run_holdout : string -> list string -> result (Aggregate * Aggregate))
    (identities : string * string) : ConfirmFn :=
  fun challenger train_outcome champion_agg challenger_agg st =>
    let cfg := overfitting w in
    confirm_crowning_holdout epoch_dir epoch_id
      (split_board board cfg (rotation_seed cfg (Some epoch_id))).2 train_outcome champion_agg
      challenger_agg w (run_holdout challenger) identities st.
End Verdict.
