(* ===== verification/VerdictSpec.v ===== *)
(** What a round's verdict promises: every promotion is accounted for, by an operator's
    file or by the gate, the holdout and the integrity checks together, and what is
    recorded is one consistent crowning. *)
From S2P Require Import Prelude PyFloat PyText PyJson Sha256 CoreTypes Gate GateSpec Board Governance GovernanceSpec Strategy Control ControlSpec Containment Verdict.

(** ** Overrides *)

Lemma elem_of_set_add s x y : y ∈ set_add s x <-> y ∈ s \/ y = x.
Proof. unfold set_add. case_bool_decide; set_solver. Qed.

Lemma elem_of_set_discard s x y : y ∈ set_discard s x <-> y ∈ s /\ y <> x.
Proof.
  unfold set_discard. rewrite elem_of_filter_In.
  destruct (String.eqb_spec y x); naive_solver.
Qed.

(** A promoted generation was forced, or was in the set and never rejected. *)
Lemma elem_of_overridden ovs s g :
  g ∈ foldl apply_override s ovs ->
  (exists o, (g, o) ∈ ovs /\ go_decision o = "promoted")
  \/ (g ∈ s /\ forall o, (g, o) ∈ ovs -> go_decision o = "promoted").
Proof.
  induction ovs as [|[k o] ovs IH] using rev_ind; [set_solver|].
  rewrite foldl_app. cbn. unfold apply_override at 1. cbn.
  destruct (String.eqb_spec (go_decision o) "promoted") as [Ho|Ho].
  - intros [[(o' & ? & ?)|[? ?]]%IH| ->]%elem_of_set_add; [left; set_solver| |left; set_solver].
    right. split; [done|]. intros o' [?|[= -> ->]%list_elem_of_singleton]%elem_of_app; auto.
  - intros [[(o' & ? & ?)|[? ?]]%IH Hne]%elem_of_set_discard; [left; set_solver|].
    right. split; [done|]. intros o' [?|[= -> ->]%list_elem_of_singleton]%elem_of_app; auto; done.
Qed.

Lemma py_min_None {A} (lt : A -> A -> bool) l : py_min lt l = None <-> l = [].
Proof. by destruct l. Qed.

(** The head is in the set, and there is none only when the set is empty. *)
Lemma head_in_set now d p why v ovs :
  let r := _apply_field_overrides now d p why v ovs in
  match or_promoted_id r with
  | Some h => h ∈ or_promoted_ids r
  | None => or_promoted_ids r = []
  end.
Proof.
  cbn. destruct ovs as [|o ovs]; [by destruct p; [apply list_elem_of_singleton|]|].
  set (s := foldl apply_override _ _). unfold primary_head.
  assert (forall lt, match py_min lt s with Some h => h ∈ s | None => s = [] end) as Hmin.
  { intros lt. destruct (py_min lt s) eqn:E; [by eapply py_min_elem|by apply py_min_None in E]. }
  destruct p as [p|]; [|apply Hmin]. case_bool_decide; [done|apply Hmin].
Qed.

(** ** The crowning duel *)

(** The crowning id of a decision names one duel. *)
Definition crown_named (d : SelectionDecision) : Prop :=
  sd_crowning_matchup_id d <> ""
  /\ forall r r', r ∈ sd_matchups d -> r' ∈ sd_matchups d ->
       mr_id r = sd_crowning_matchup_id d -> mr_id r' = sd_crowning_matchup_id d -> r = r'.

(** The duel that crowned [gid] against the champion. *)
Definition crowning_duel (champ : Contestant) (d : SelectionDecision) (gid : string)
    (r : MatchupResult) : Prop :=
  r ∈ sd_matchups d /\ mr_left_id r = generation_id champ /\ mr_right_id r = gid
  /\ decision (mr_outcome r) = PROMOTED.

Lemma crowning_result_found champ chs d gid :
  crowned_by_gate champ chs d -> crown_named d -> sd_promoted_generation_id d = Some gid ->
  sd_decision d = PROMOTED /\ exists r, crowning_result d = Some r /\ crowning_duel champ d gid r.
Proof.
  intros Hg [Hid Huniq] (Hd & _ & r & Hin & Hr & Hl & Hright & Hout)%Hg. split; [done|].
  unfold crowning_result. destruct (String.eqb_spec (sd_crowning_matchup_id d) ""); [done|].
  destruct (find_first _ _) as [r'|] eqn:E.
  - apply find_first_Some in E as [Hin' Hr'%String.eqb_eq]. exists r'. split; [done|].
    by rewrite (Huniq r' r Hin' Hin Hr' Hr).
  - eapply find_first_None in E; [|exact Hin]. by rewrite Hr, String.eqb_refl in E.
Qed.

Lemma confirmed_crown champ chs d gen confirm_fn st c gid :
  crowned_by_gate champ chs d -> crown_named d ->
  (_confirm_crowning_on_holdout d (generation_id champ) gen confirm_fn st).2 = Ok c ->
  ch_promoted_id c = Some gid ->
  sd_promoted_generation_id d = Some gid
  /\ exists r challenger out block sc, crowning_duel champ d gid r /\ gen gid = Ok challenger
     /\ (confirm_fn challenger (mr_outcome r) (mr_left_agg r) (mr_right_agg r) st).2 = Ok (out, block, sc)
     /\ decision out = PROMOTED /\ ch_crowning_delta_scalar c = Some (delta_scalar (mr_outcome r)).
Proof.
  intros Hg Hn. unfold _confirm_crowning_on_holdout.
  destruct (sd_promoted_generation_id d) as [p|] eqn:Hp.
  - destruct (crowning_result_found champ chs d p Hg Hn Hp) as (-> & r & -> & Hr).
    pose proof Hr as (_ & Hl & Hright & _). unfold oriented. rewrite Hl, String.eqb_refl. cbn [promoted].
    intros (((out & block) & sc) & Hc & [= <-])%op_bind_ok. cbn.
    destruct (promoted (decision out)) eqn:Ho; [intros [= ->]|done]. split; [done|]. cbn in Hc.
    rewrite Hright in Hc. destruct (gen gid) as [ch|] eqn:Hgen; [|done].
    exists r, ch, out, block, sc. split_and!; [done..| |done]. by destruct (decision out).
  - destruct (crowning_result d) as [r|]; [|by intros [= <-]].
    destruct (sd_decision d); cbn; by intros [= <-].
Qed.

(** ** Overrides of the field *)

Section Claims.
Context (clock : nat -> string) (control_root : string) (json_loads : string -> option Json).
Context (stamp : nat) (Hstamp : forall i, String.length (clock i) = stamp).

Lemma claim_each_NoDup gids pending claimed st :
  NoDup (dict_keys claimed) ->
  NoDup (dict_keys (claim_each clock control_root json_loads gids pending claimed st).2).
Proof.
  revert claimed st. induction gids as [|g gids IH]; intros claimed st Hn; [done|]. cbn [claim_each].
  destruct (dict_mem claimed g); [by apply IH|]. rewrite act_bind_eq. cbn [snd]. apply IH.
  destruct (snd (_claim_override_for _ _ _ _ _ _)); [by auto with zicato|done].
Qed.

(** A claimed override is what the pending files of its generation say. *)
Lemma claimed_override gids rt g o :
  wf rt -> Forall (fun g => g <> "") gids ->
  (g, o) ∈ (claim_field_gate_overrides clock control_root json_loads gids rt).2 ->
  dict_get (claim_field_gate_overrides clock control_root json_loads gids rt).2 g = Some o
  /\ g ∈ gids /\ override_for json_loads rt g = Some o.
Proof.
  intros Hw Hne. unfold claim_field_gate_overrides. rewrite bind_reading.
  destruct (claim_each_ok clock control_root json_loads stamp Hstamp gids rt Hw Hne gids [] rt [])
    as (ds & Hd & _ & _ & _ & Hg); [done|by split; [done|left]| |done|].
  { intros q. split; [|done]. destruct q; [done|]. by intros (_ & _ & []%elem_of_nil). }
  intros Hin%dict_elem_get; [|apply claim_each_NoDup, NoDup_nil_2].
  split; [done|]. rewrite Hg in Hin. case_decide; [|done]. set_solver.
Qed.

(** A forced promotion has its file. *)
Lemma promotion_has_file rt g o :
  override_for json_loads rt g = Some o -> go_decision o = "promoted" ->
  exists body, read_command rt (Targeted CMD_PROMOTE_PREFIX g) = Some body.
Proof.
  unfold override_for, queued. destruct (is_tmp g); [done|].
  destruct (read_command rt (Targeted CMD_PROMOTE_PREFIX g)) as [body|]; [by exists body|].
  by destruct (read_command rt _); intros [= <-].
Qed.
End Claims.

(** ** The verdict *)

Section Verdict.
Context `{PyFormat} (clock : nat -> string) (control_root now : string) (json_loads : string -> option Json).
Context (w : ScoringWeights) (trees : list string) (candidates : CandidateField).

(** Outside the mutable trees two readable snapshots hold files of the same digests. *)
Definition confined (parent child : Tree) : Prop :=
  forall p c, parent = Some p -> child = Some c ->
  forall rel, _is_in_bounds rel (mutable_basenames trees) = false ->
    sha256 <$> dict_get p rel = sha256 <$> dict_get c rel.

Lemma confined_of parent child :
  contained (check_containment parent.1 child.1 parent.2 child.2 trees) = true ->
  confined parent.2 child.2.
Proof. intros Hk p c Hp Hc. rewrite Hp, Hc in Hk. exact (proj1 (check_containment_spec parent.1 child.1 p c trees) Hk). Qed.

(** What the opt-in checks require of a crown. *)
Definition integrity_holds (gid : string) (delta : float) : Prop :=
  exists child, dict_get (cf_by_id candidates) gid = Some child
    /\ (block_on_containment_violation w = true ->
        confined (cf_champion_snapshot candidates).2 child.2)
    /\ (block_on_gate_contradiction w = true -> fle delta (fneg (promote_margin w)) = true).

Lemma integrity_checked_ok crowning gid why delta :
  integrity_checked w trees candidates crowning = Ok (Some gid, why) ->
  ch_crowning_delta_scalar crowning = Some delta ->
  ch_promoted_id crowning = Some gid /\ integrity_holds gid delta.
Proof.
  unfold integrity_checked. destruct (ch_promoted_id crowning) as [p|]; [|done].
  destruct (dict_get _ p) as [child|] eqn:Hc; [|done]. intros Hi Hd. rewrite Hd in Hi.
  unfold _integrity_block_reason in Hi.
  destruct (block_on_containment_violation w && _) eqn:Hb; [done|].
  destruct (block_on_gate_contradiction w) eqn:Hg.
  - destruct (fle _ _) eqn:Hf; [|done]. injection Hi as -> _. split; [done|]. exists child.
    split_and!; [done| |done]. intros Hbc. rewrite Hbc in Hb. cbn [andb] in Hb. by apply confined_of, negb_false_iff.
  - injection Hi as -> _. split; [done|]. exists child. split_and!; [done| |by rewrite Hg].
    intros Hbc. rewrite Hbc in Hb. cbn [andb] in Hb. by apply confined_of, negb_false_iff.
Qed.

(** The slice of the board a crown is confirmed on. *)
Definition holdout_slice (board : list BoardEntry) (epoch_id : string) : list string :=
  (split_board board (overfitting w) (rotation_seed (overfitting w) (Some epoch_id))).2.

(** A crown of the gate, confirmed: the duel against the champion promoted, the holdout
    confirms it where there is one, within the ladder's bar when the ladder mediates,
    and the integrity checks hold. *)
Definition gate_promotion (champ : Contestant) (d : SelectionDecision) (board : list BoardEntry)
    (epoch_id : string) (run_holdout : string -> list string -> result (Aggregate * Aggregate))
    (gid : string) : Prop :=
  sd_promoted_generation_id d = Some gid
  /\ exists r, crowning_duel champ d gid r
     /\ integrity_holds gid (delta_scalar (mr_outcome r))
     /\ (holdout_slice board epoch_id <> [] ->
         (exists hp hc, run_holdout gid (holdout_slice board epoch_id) = Ok (hp, hc)
            /\ holdout_holds hp hc w = true)
         /\ (ladder_enabled (ladder (overfitting w)) = true -> exists tp tc,
               scalar (mr_left_agg r) = Some tp /\ scalar (mr_right_agg r) = Some tc
               /\ clears_bar (ladder (overfitting w)) w tp tc = true)).

(** C2.  Every promotion of a round is accounted for.  A generation the verdict promotes
    was either named by a promotion file an operator left in the control directory, or
    it is the challenger the gate promoted in the crowning duel against the champion,
    no operator rejected it, the holdout slice (where the board has one) ran, completed
    and confirmed the win, the training improvement cleared the ladder's bar, and the
    integrity checks the contract switches on hold for its snapshot and its delta. *)
Theorem verdict_accounted champ chs d epoch_dir epoch_id board run_holdout identities st rt stamp v :
  crowned_by_gate champ chs d -> crown_named d ->
  wf rt -> Forall (fun g => g <> "") (cf_challenger_ids candidates) ->
  (forall i, String.length (clock i) = stamp) ->
  vr_verdict (resolve_field_verdict clock control_root now json_loads w trees (generation_id champ)
                candidates (holdout_confirm epoch_dir epoch_id board w run_holdout identities) d st rt)
  = Ok v ->
  forall gid, gid ∈ fv_promoted_ids v ->
    (gid ∈ cf_challenger_ids candidates
     /\ exists body, read_command rt (Targeted CMD_PROMOTE_PREFIX gid) = Some body)
    \/ (dict_get (fv_overrides v) gid = None
        /\ gate_promotion champ d board epoch_id run_holdout gid).
Proof.
  intros Hg Hn Hw Hne Hstamp. unfold resolve_field_verdict.
  destruct (_confirm_crowning_on_holdout _ _ _ _ _) as [stores crowned] eqn:Hcrown.
  destruct crowned as [crowning|e]; [|done].
  destruct (integrity_checked _ _ _ _) as [[p why]|e] eqn:Hi; [|done].
  pose proof (fun g o => claimed_override clock control_root json_loads stamp Hstamp
                (cf_challenger_ids candidates) rt g o Hw Hne) as Hclaim.
  destruct (claim_field_gate_overrides _ _ _ _ _) as [states ovs]. cbn in Hclaim |- *.
  intros [= <-] gid. cbn. intros [(o & Ho & Hp)|[Hin Hall]]%elem_of_overridden.
  - left. destruct (Hclaim gid o Ho) as (_ & Hin & Hover). split; [done|].
    by apply (promotion_has_file json_loads rt gid o).
  - destruct p as [p|]; cbn in Hin; [|by apply elem_of_nil in Hin].
    apply list_elem_of_singleton in Hin as <-.
    destruct (dict_get ovs gid) as [o|] eqn:Hget.
    { left. apply dict_get_Some_elem in Hget. destruct (Hclaim gid o Hget) as (_ & Hin & Hover).
      split; [done|]. by apply (promotion_has_file json_loads rt gid o), Hall. }
    right. split; [done|]. apply (f_equal snd) in Hcrown. cbn in Hcrown.
    assert (ch_promoted_id crowning = Some gid) as Hp.
    { unfold integrity_checked in Hi. destruct (ch_promoted_id crowning); [|done].
      by destruct (dict_get _ _); [|done]; destruct (_integrity_block_reason _ _ _ _ _); simplify_eq. }
    destruct (confirmed_crown champ chs d _ _ _ crowning gid Hg Hn Hcrown Hp)
      as (Hd & r & ch & out & block & sc & Hr & Hch & Hconf & Hout & Hdelta).
    split; [done|]. exists r. split_and!; [done|by eapply integrity_checked_ok|].
    intros Hs. unfold generation in Hch. case_match; [|done]. injection Hch as <-.
    destruct (confirmed_promotion _ _ _ _ _ _ _ _ _ _ _ _ _ Hs Hconf Hout)
      as (_ & hp & hc & Hrun & Hh & Hbar). split; [by exists hp, hc|done].
Qed.

(** A decision promotes exactly when it names whom. *)
Definition coherent (d : SelectionDecision) : Prop :=
  sd_decision d = PROMOTED <-> sd_promoted_generation_id d <> None.

Lemma confirm_never_overrides_to_promoted d parent gen confirm_fn st c :
  (_confirm_crowning_on_holdout d parent gen confirm_fn st).2 = Ok c ->
  ch_decision_override c <> Some PROMOTED.
Proof.
  unfold _confirm_crowning_on_holdout.
  destruct (crowning_result d) as [m|]; [|by intros [= <-]].
  destruct (sd_decision d); cbn [promoted]; [|by intros [= <-]..].
  destruct (sd_promoted_generation_id d); [|by intros [= <-]].
  intros (((out & block) & sc) & _ & [= <-])%op_bind_ok. cbn.
  destruct (decision out); cbn; congruence.
Qed.

Lemma overridden_coherent d p why v ovs :
  coherent d -> v <> Some PROMOTED ->
  let r := _apply_field_overrides now d p why v ovs in
  coherent (or_decision r) /\ sd_promoted_generation_id (or_decision r) = or_promoted_id r
  /\ sd_matchups (or_decision r) = sd_matchups d.
Proof.
  intros Hd Hv. cbn. set (h := match ovs with [] => p | _ => _ end).
  destruct (bool_decide (h = _) && _) eqn:E.
  - apply andb_true_iff in E as [E%bool_decide_eq_true _]. by rewrite <-E.
  - split_and!; [|done|done]. unfold coherent. cbn. destruct h; [done|].
    split; [|done]. destruct v as [[]|]; destruct (override_reason _ _); congruence.
Qed.

Lemma verdict_coherent parent confirm_fn d st rt v :
  coherent d ->
  let run := resolve_field_verdict clock control_root now json_loads w trees parent candidates
               confirm_fn d st rt in
  vr_verdict run = Ok v ->
  coherent (fv_effective_decision v)
  /\ sd_promoted_generation_id (fv_effective_decision v) = fv_promoted_id v
  /\ match fv_promoted_id v with
     | Some h => h ∈ fv_promoted_ids v
     | None => fv_promoted_ids v = []
     end
  /\ sd_matchups (fv_effective_decision v) = sd_matchups d
  /\ exists why, List.last (vr_events run) (HoldoutReleased false None)
       = DecisionRecorded (sd_decision (fv_effective_decision v))
           (sd_reason (fv_effective_decision v)) parent (fv_promoted_id v)
           (sorted_strings (fv_promoted_ids v))
           (match fv_overrides v with [] => false | _ => true end) why
           (fv_override_provenance v).
Proof.
  intros Hd. unfold resolve_field_verdict.
  destruct (_confirm_crowning_on_holdout _ _ _ _ _) as [stores crowned] eqn:Hcrown.
  destruct crowned as [crowning|e]; [|done].
  destruct (integrity_checked _ _ _ _) as [[p why]|e]; [|done].
  destruct (claim_field_gate_overrides _ _ _ _ _) as [states ovs].
  cbn [vr_verdict vr_events]. intros [= <-].
  cbn [fv_effective_decision fv_promoted_id fv_promoted_ids fv_overrides fv_override_provenance].
  apply (f_equal snd), confirm_never_overrides_to_promoted in Hcrown.
  destruct (overridden_coherent d p why _ ovs Hd Hcrown) as (Hc & Hp & Hm).
  split_and!; [done|done|exact (head_in_set now d p why (ch_decision_override crowning) ovs)|done|].
  exists (logged_reason (or_promoted_id (_apply_field_overrides now d p why (ch_decision_override crowning) ovs)) ovs).
  rewrite last_snoc. unfold decision_event. f_equal. by destruct ovs.
Qed.

(** Whoever is promoted is a challenger of the field. *)
Lemma promoted_in_field parent confirm_fn d st rt stamp v :
  wf rt -> Forall (fun g => g <> "") (cf_challenger_ids candidates) ->
  (forall i, String.length (clock i) = stamp) ->
  (forall g child, dict_get (cf_by_id candidates) g = Some child -> g ∈ cf_challenger_ids candidates) ->
  vr_verdict (resolve_field_verdict clock control_root now json_loads w trees parent candidates
                confirm_fn d st rt) = Ok v ->
  forall gid, gid ∈ fv_promoted_ids v -> gid ∈ cf_challenger_ids candidates.
Proof.
  intros Hw Hne Hstamp Hfield. unfold resolve_field_verdict.
  destruct (_confirm_crowning_on_holdout _ _ _ _ _) as [stores [crowning|e]]; [|done].
  destruct (integrity_checked _ _ _ _) as [[p why]|e] eqn:Hi; [|done].
  pose proof (fun g o => claimed_override clock control_root json_loads stamp Hstamp
                (cf_challenger_ids candidates) rt g o Hw Hne) as Hclaim.
  destruct (claim_field_gate_overrides _ _ _ _ _) as [states ovs]. cbn in Hclaim |- *.
  intros [= <-] gid. cbn. intros [(o & Ho & _)|[Hin _]]%elem_of_overridden.
  - by apply (Hclaim gid o Ho).
  - destruct p as [p|]; cbn in Hin; [|by apply elem_of_nil in Hin].
    apply list_elem_of_singleton in Hin as <-. unfold integrity_checked in Hi.
    destruct (ch_promoted_id crowning) as [q|]; [|done]. destruct (dict_get _ q) as [child|] eqn:Hq; [|done].
    destruct (_integrity_block_reason _ _ _ _ _); [done|]. injection Hi as <- _. eauto.
Qed.

(** C28.  A round commits one consistent crowning.  Whatever the holdout, the integrity
    checks and the operator decide, the effective decision names the primary head and
    promotes exactly when there is one; the head is in the promoted set, and there is no
    head only when nobody is promoted; the duels of the strategy are untouched; and the
    last event of the round log records this verdict. *)
Theorem verdict_consistent parent confirm_fn d st rt v :
  coherent d ->
  let run := resolve_field_verdict clock control_root now json_loads w trees parent candidates
               confirm_fn d st rt in
  vr_verdict run = Ok v ->
  coherent (fv_effective_decision v)
  /\ sd_promoted_generation_id (fv_effective_decision v) = fv_promoted_id v
  /\ match fv_promoted_id v with
     | Some h => h ∈ fv_promoted_ids v
     | None => fv_promoted_ids v = []
     end
  /\ sd_matchups (fv_effective_decision v) = sd_matchups d
  /\ exists why, List.last (vr_events run) (HoldoutReleased false None)
       = DecisionRecorded (sd_decision (fv_effective_decision v))
           (sd_reason (fv_effective_decision v)) parent (fv_promoted_id v)
           (sorted_strings (fv_promoted_ids v))
           (match fv_overrides v with [] => false | _ => true end) why
           (fv_override_provenance v).
Proof. apply verdict_coherent. Qed.
End Verdict.

(** ** A concrete round *)
Module VerdictWitness.
#[local] Existing Instance plain_format.
Import GovernanceWitness(agg, id_a, id_b, weights).

Definition contestant (i : string) (r : Role) : Contestant :=
  {| generation_id := i; role := r; snapshot_root := None; experiment := None |}.
Definition champ : Contestant := contestant "v0" role_champion.
Definition chs : list Contestant := [contestant "v1" role_challenger; contestant "v2" role_challenger].

Definition gate (parent child : Aggregate) : GateOutcome :=
  match evaluate_gate parent child weights None None with
  | Ok o => o
  | Raise _ => GovernanceWitness.train_outcome
  end.

Definition duel (right : string) (loss : float) : MatchupResult := {|
  mr_id := "CROWN-" +:+ right; mr_left_id := "v0"; mr_right_id := right;
  mr_left_agg := agg 1%float; mr_right_agg := agg loss; mr_outcome := gate (agg 1%float) (agg loss);
  mr_stage_index := 0; mr_bracket_slot := ""; mr_measurement_draw := None |}.

Definition crowning : SelectionDecision := {|
  sd_promoted_generation_id := Some "v1"; sd_decision := PROMOTED; sd_reason := "crowned";
  sd_matchups := [duel "v2" 0.75%float; duel "v1" 0.5%float]; sd_crowning_matchup_id := "CROWN-v1";
  sd_standings := [] |}.

Definition tree (body : string) : string * Tree := ("snapshots", Some [("src/a.py", body); ("README", "r")]).

Definition candidates : CandidateField := {|
  cf_champion_id := "v0"; cf_champion_snapshot := tree "old";
  cf_by_id := [("v1", tree "new"); ("v2", tree "newer")]; cf_challenger_ids := ["v1"; "v2"] |}.

Definition board : list BoardEntry :=
  [BoardWitness.entry "e1" []; BoardWitness.entry "h1" ["holdout"]].

Definition run_holdout (challenger : string) (ids : list string) : result (Aggregate * Aggregate) :=
  Ok (agg 1%float, agg 0.5%float).

(** The operator promotes [v2] as well. *)
Definition directory : Runtime := {|
  control := Some [("promote", Bucket [("v2", Some "promising")])]; control_log := []; ticks := 0 |}.

Definition round (rt : Runtime) : VerdictRun :=
  resolve_field_verdict (fun _ => "2026-05-01T10:00:00Z") "/w" "now" (fun _ => None) weights ["src"]
    "v0" candidates (holdout_confirm "epoch" "epoch-1" board weights run_holdout (id_a, id_b))
    crowning empty_store rt.

Definition verdict (rt : Runtime) : FieldVerdict :=
  match vr_verdict (round rt) with
  | Ok v => v
  | Raise _ =>
      {| fv_promoted_id := None; fv_promoted_ids := []; fv_override_provenance := [];
         fv_effective_decision := crowning; fv_overrides := []; fv_reason_override := None;
         fv_holdout_block := None; fv_holdout_child_scalar := None;
         fv_crowning_challenger_id := None; fv_crowning_challenger_train_scalar := None |}
  end.

Example both_promoted : fv_promoted_ids (verdict directory) = ["v1"; "v2"].
Proof. vm_compute. reflexivity. Qed.

Lemma crowned : crowned_by_gate champ chs crowning.
Proof.
  intros gid [= <-]. split_and!; [done| |].
  - exists (contestant "v1" role_challenger). split; [left|done].
  - exists (duel "v1" 0.5%float). split_and!; [right; left|reflexivity..|vm_compute; reflexivity].
Qed.

Lemma named : crown_named crowning.
Proof.
  split; [done|]. cbn. intros r r' Hr Hr' E E'.
  repeat (apply elem_of_cons in Hr as [->|Hr]; [|try by apply elem_of_nil in Hr]);
    repeat (apply elem_of_cons in Hr' as [->|Hr']; [|try by apply elem_of_nil in Hr']); try done.
Qed.

Lemma wf_runtime : wf directory.
Proof.
  split; [apply NoDup_singleton|]. intros name n Hn.
  apply dict_get_Some_elem, list_elem_of_singleton in Hn as [= -> ->]. apply NoDup_singleton.
Qed.

Lemma verdict_accounted_witness :
  ("v1" ∈ cf_challenger_ids candidates
   /\ exists body, read_command directory (Targeted CMD_PROMOTE_PREFIX "v1") = Some body)
  \/ (dict_get (fv_overrides (verdict directory)) "v1" = None
      /\ gate_promotion weights ["src"] candidates champ crowning board "epoch-1" run_holdout "v1").
Proof.
  refine (verdict_accounted (fun _ => "2026-05-01T10:00:00Z") "/w" "now" (fun _ => None) weights ["src"]
            candidates champ chs crowning "epoch" "epoch-1" board run_holdout (id_a, id_b) empty_store
            directory 20 (verdict directory) crowned named wf_runtime _ (fun _ => eq_refl) _ "v1" _).
  - repeat constructor; discriminate.
  - vm_compute. reflexivity.
  - rewrite both_promoted. left.
Defined.

Lemma verdict_consistent_witness : coherent (fv_effective_decision (verdict directory)).
Proof.
  refine (proj1 (verdict_consistent (fun _ => "2026-05-01T10:00:00Z") "/w" "now" (fun _ => None) weights
                   ["src"] candidates "v0"
                   (holdout_confirm "epoch" "epoch-1" board weights run_holdout (id_a, id_b))
                   crowning empty_store directory (verdict directory) _ _)).
  - done.
  - vm_compute. reflexivity.
Defined.

(** At the margin the three tests of one improvement disagree: the gate promotes a loss
    of 0.12 brought down to 0.11 under the default margin 0.01, the ladder, which
    releases from the same margin, withholds, and the integrity check would refuse. *)
Example margin_boundary_disagrees :
  let parent := agg 0.12%float in let child := agg 0.11%float in
  let o := gate parent child in
  (decision o, clears_bar (ladder (overfitting weights)) weights 0.12%float 0.11%float,
   fle (delta_scalar o) (fneg (promote_margin weights)))
  = (PROMOTED, false, false).
Proof. vm_compute. reflexivity. Qed.
End VerdictWitness.
