(* ===== verification/Settlement.v ===== *)
(** The settlement of a round, [src/zicato/evolve/settlement.py], and its durable commit
    and recovery, [settlement_recovery.py]: the verdict becomes one outcome per challenger,
    the outcomes a receipt, and the receipt is written, committed and projected in steps a
    restart can finish.  The adapter's promotion hook, the refresh of the derived index,
    the clock and the fresh settlement id are handed in; the live envelope, the frontier
    row and the health epilogue, which follow the commit, are left out. *)
From S2P Require Import Prelude PyFloat PyText PyJson CoreTypes Gate Board Governance Params Records Configuration Journal Lineage Strategy FieldRecord Receipt Control Containment Verdict.

(** ** Outcomes *)

(** A challenger that was proposed and applied. *)
Record AppliedChallenger := {
  ac_generation_id : string;
  ac_experiment_id : string;
  ac_created_at : string;
}.

(** One duel's full result: the two aggregates, as JSON objects, and the gate's outcome. *)
Record RawResult := {
  rw_parent_generation_id : string;
  rw_child_generation_id : string;
  rw_parent_agg : list (string * Json);
  rw_child_agg : list (string * Json);
  rw_outcome : GateOutcome;
}.

Record FieldExecution := {
  fe_decision : SelectionDecision;
  fe_gate_evidence : option (list (string * Json));
  fe_raw_results : list (string * RawResult);
  fe_champion_eval_mode : string;
}.

Record CandidateSettlement := { cs_challenger : AppliedChallenger; cs_outcome : OutcomeRecord }.

Record RoundSettlement := {
  rs_decision : SelectionDecision;
  rs_primary : option string;
  rs_promoted_ids : list string;
  rs_candidates : list CandidateSettlement;
  rs_champion_scalar : float;
  rs_crowned_scalar : float;
}.

Definition ordered_promotions (primary : option string) (promoted_ids : list string) : list string :=
  match primary with
  | None => sorted_strings promoted_ids
  | Some p => p :: sorted_strings (List.filter (fun g => negb (String.eqb g p)) promoted_ids)
  end.

Definition match_outcome (mr : MatchupResult) (opponent : string) (won : bool) (delta : float)
    : MatchOutcome :=
  {| mo_match_id := mr_id mr; mo_opponent := opponent; mo_won := won; mo_delta_scalar := delta |}.

(** [matches_by_gen[side].append(...)] when the side is a challenger. *)
Definition note_side (gid : string) (o : MatchOutcome) (matches : list (string * list MatchOutcome))
    : list (string * list MatchOutcome) :=
  match dict_get matches gid with
  | Some l => dict_set matches gid (l ++ [o])
  | None => matches
  end.

Definition note_matchup (matches : list (string * list MatchOutcome)) (mr : MatchupResult)
    : list (string * list MatchOutcome) :=
  let delta := delta_scalar (mr_outcome mr) in
  let winner := lower_scalar_id mr in
  let matches := note_side (mr_left_id mr)
    (match_outcome mr (mr_right_id mr) (String.eqb winner (mr_left_id mr)) (fneg delta)) matches in
  note_side (mr_right_id mr)
    (match_outcome mr (mr_left_id mr) (String.eqb winner (mr_right_id mr)) delta) matches.

Definition _match_records (d : SelectionDecision) (generation_ids : list string)
    : list (string * list MatchOutcome) :=
  foldl note_matchup (foldl (fun m g => dict_set m g []) [] generation_ids) (sd_matchups d).

Record Generalization := { gl_train : float; gl_holdout : option float; gl_gap : option float }.

Definition _generalization_fields_from_scalars (train_scalar : float) (holdout_scalar : option float)
    : Generalization := {|
  gl_train := train_scalar; gl_holdout := holdout_scalar;
  gl_gap := (fun h => fsub h train_scalar) <$> holdout_scalar |}.

Definition confirmation_token (s : ConfirmationStatus) : string :=
  match s with
  | DISABLED => "disabled" | SATISFIED => "satisfied" | FAILED => "failed" | INCOMPLETE => "incomplete"
  end.

(** The holdout block of the ladder, as JSON. *)
Definition holdout_body (h : HoldoutRecord) : list (string * Json) :=
  [("confirmation_status", JStr (confirmation_token (hr_confirmation_status h)));
   ("reason", JStr (hr_reason h)); ("confirmed", jopt JBool (hr_confirmed h));
   ("train_scalar", jopt JFloat (hr_train_scalar h));
   ("holdout_scalar", jopt JFloat (hr_holdout_scalar h));
   ("holdout_consulted", JBool (hr_consulted h)); ("ladder_released", JBool (hr_released h));
   ("ladder_budget_total", JInt (hr_budget_total h));
   ("ladder_budget_before_query", jopt JInt (hr_budget_before_query h));
   ("ladder_budget_remaining", JInt (hr_budget_remaining h));
   ("ladder_query_reserved", JBool (hr_query_reserved h)); ("threshold", JFloat (hr_threshold h))].

(** The round as it was prepared, and the field that ran. *)
Record RoundSpec := {
  rd_epoch_id : string;
  rd_round_index : Z;
  rd_parent_id : string;
  rd_structure : string;
  rd_structure_params : list (string * Json);
}.

Record AppliedField := {
  af_challengers : list AppliedChallenger;
  af_competitors : list Competitor;
  af_field_status : list (list (string * Json));
  af_first_challenger_id : string;
}.

Definition field_ids (f : AppliedField) : list string := ac_generation_id <$> af_challengers f.

Section Outcomes.
Context `{PyConv} `{PyFloatParse}.

(** [float(aggregate.get(key, 0.0))] *)
Definition agg_float (agg : list (string * Json)) (key : string) : result float :=
  json_float (dict_get_or agg key (JFloat f0)).

(** Pass rate and drift loss of the crowning duel, challenger minus champion. *)
Definition _crowning_duel_deltas (raw : option RawResult) (parent_id : string)
    : result (float * float) :=
  match raw with
  | None => Ok (f0, f0)
  | Some r =>
      let champion_is_parent := String.eqb (rw_parent_generation_id r) parent_id in
      let pass_rate_delta := fmul (delta_pass_rate (rw_outcome r))
                               (if champion_is_parent then f1 else fneg f1) in
      try champion_drift <- agg_float (if champion_is_parent then rw_parent_agg r else rw_child_agg r)
                              "drift_loss_mean";
      try challenger_drift <- agg_float (if champion_is_parent then rw_child_agg r else rw_parent_agg r)
                                "drift_loss_mean";
      Ok (pass_rate_delta, fsub challenger_drift champion_drift)
  end.

Definition standing_scalar (gid : string) (matchups : list MatchupResult) : float :=
  from_option id f0 (_first_aggregate_for gid matchups ≫= scalar).

(** The decision about one challenger. *)
Definition candidate_decision (v : FieldVerdict) (gid : string) : TournamentDecision :=
  if bool_decide (gid ∈ fv_promoted_ids v) then PROMOTED
  else if bool_decide (fv_crowning_challenger_id v = Some gid)
          && bool_decide (sd_decision (fv_effective_decision v) = DEFERRED)
  then DEFERRED else REJECTED.

Definition candidate_rejection_reason (v : FieldVerdict) (d : SelectionDecision) (gid : string) : string :=
  let is_crowned := bool_decide (gid ∈ fv_promoted_ids v) in
  if is_crowned then ""
  else match dict_get (fv_overrides v) gid with
       | Some o => "operator override: " +:+ go_reason o
       | None =>
           if bool_decide (fv_crowning_challenger_id v = Some gid)
           then match fv_reason_override v with
                | Some why => if String.eqb why "" then sd_reason d else why
                | None => sd_reason d
                end
           else sd_reason d
       end.

(** [s.rank] of the standings, the last row of a generation winning. *)
Definition rank_by_id (d : SelectionDecision) : list (string * Z) :=
  foldl (fun m s => dict_set m (sg_generation_id s) (Z.of_nat (sg_rank s))) [] (sd_standings d).

Definition settle_candidate (now : string) (rd : RoundSpec) (x : FieldExecution) (v : FieldVerdict)
    (matches : list (string * list MatchOutcome)) (parent_scalar : float) (c : AppliedChallenger)
    : result CandidateSettlement :=
  let d := fe_decision x in
  let gid := ac_generation_id c in
  let is_crowning := bool_decide (fv_crowning_challenger_id v = Some gid) in
  let gen_scalar := standing_scalar gid (sd_matchups d) in
  let fields :=
    if is_crowning
    then _generalization_fields_from_scalars
           (from_option id gen_scalar (fv_crowning_challenger_train_scalar v))
           (fv_holdout_child_scalar v)
    else _generalization_fields_from_scalars gen_scalar None in
  try deltas <- if is_crowning
                then _crowning_duel_deltas (dict_get (fe_raw_results x) (sd_crowning_matchup_id d))
                       (rd_parent_id rd)
                else Ok (f0, f0);
  Ok {| cs_challenger := c; cs_outcome := {|
    ran_at := now; metric_movements := []; pass_rate_delta := deltas.1;
    drift_loss_delta := deltas.2; scalar_score_delta := fsub gen_scalar parent_scalar;
    tournament_decision := Some (candidate_decision v gid);
    rejection_reason := candidate_rejection_reason v d gid;
    operator_override := dict_mem (fv_overrides v) gid;
    operator_override_reason := from_option go_reason "" (dict_get (fv_overrides v) gid);
    outcome_structure := rd_structure rd; final_rank := dict_get (rank_by_id d) gid;
    eliminated_in_round := None; match_record := from_option id [] (dict_get matches gid);
    champion_eval_mode := fe_champion_eval_mode x;
    outcome_holdout := if is_crowning then holdout_body <$> fv_holdout_block v else None;
    train_loss := Some (gl_train fields); holdout_loss := gl_holdout fields;
    generalization_gap := gl_gap fields;
    outcome_evidence := if is_crowning then fe_gate_evidence x else None |} |}.

(** [crowned_scalar] is the scalar of the primary, if it is in the field. *)
Definition _build_field_settlement (now : string -> string) (rd : RoundSpec) (f : AppliedField)
    (x : FieldExecution) (v : FieldVerdict) : result RoundSettlement :=
  let d := fe_decision x in
  let matches := _match_records d (field_ids f) in
  let parent_scalar := standing_scalar (rd_parent_id rd) (sd_matchups d) in
  try candidates <- result_map
    (fun c => settle_candidate (now (ac_generation_id c)) rd x v matches parent_scalar c)
    (af_challengers f);
  Ok {| rs_decision := fv_effective_decision v; rs_primary := fv_promoted_id v;
        rs_promoted_ids := ordered_promotions (fv_promoted_id v) (fv_promoted_ids v);
        rs_candidates := candidates; rs_champion_scalar := parent_scalar;
        rs_crowned_scalar :=
          match fv_promoted_id v with
          | Some p => if bool_decide (p ∈ field_ids f) then standing_scalar p (sd_matchups d)
                      else parent_scalar
          | None => parent_scalar
          end |}.
End Outcomes.

(** [promoted_generation_id or None] *)
Definition or_none (o : option string) : option string :=
  match o with Some s => if String.eqb s "" then None else Some s | None => None end.

Definition _assert_crowning_agrees (s : RoundSettlement) (f : AppliedField) : result unit :=
  let refusal why := RuntimeError ("crowning invariant violated: " +:+ why) in
  ensure Bool.eqb (promoted (sd_decision (rs_decision s))) (bool_decide (is_Some (rs_primary s)))
    orelse refusal "settled bracket decision disagrees with the champion to be crowned";
  ensure bool_decide (or_none (sd_promoted_generation_id (rs_decision s)) = rs_primary s)
    orelse refusal "settled bracket names another primary champion";
  ensure match rs_primary s with Some p => bool_decide (p ∈ field_ids f) | None => true end
    orelse refusal "settled bracket promotes a generation that did not apply this round";
  Ok tt.

(** ** The receipt *)

Definition rule_status_token (s : RuleStatus) : string :=
  match s with
  | st_not_reached => "not_reached" | st_disabled => "disabled" | st_skipped => "skipped"
  | st_unknown => "unknown" | st_pass => "pass" | st_fail => "fail"
  end.

Definition rule_body (r : RuleRow) : Json :=
  JObj [("id", JStr (rule_id r)); ("label", JStr (rule_label r));
        ("status", JStr (rule_status_token (rule_status r))); ("fired", JBool (rule_fired r));
        ("detail", JStr (rule_detail r))].

Definition explanation_body (e : Explanation) : list (string * Json) :=
  [("decision", JStr (decision_token (ex_decision e))); ("reason", JStr (ex_reason e));
   ("deciding_rule", jopt JStr (deciding_rule e)); ("rules", JArr (rule_body <$> ex_rules e));
   ("margin", JFloat (ex_margin e)); ("champion_scalar", JFloat (champion_scalar e));
   ("challenger_scalar", JFloat (challenger_scalar e)); ("delta_scalar", JFloat (ex_delta_scalar e));
   ("delta_pass_rate", JFloat (ex_delta_pass_rate e));
   ("regressed_predicate", jopt JStr (regressed_predicate e));
   ("regressed_namespace", jopt JStr (regressed_namespace e))].

Definition gate_row (matchup_id : string) (r : RawResult) (e : Explanation) : list (string * Json) :=
  dict_update (explanation_body e)
    [("matchup_id", JStr matchup_id); ("champion", JStr (rw_parent_generation_id r));
     ("challenger", JStr (rw_child_generation_id r));
     ("decision", JStr (decision_token (decision (rw_outcome r))));
     ("reason", JStr (reason (rw_outcome r))); ("parent_aggregate", JObj (rw_parent_agg r));
     ("child_aggregate", JObj (rw_child_agg r))].

(** The confirmation of the crowning duel joins its rules. *)
Definition holdout_rule (h : HoldoutRecord) : Json :=
  let status := hr_confirmation_status h in
  JObj [("id", JStr "holdout"); ("label", JStr "Holdout confirmation");
        ("status", JStr (match status with
                         | SATISFIED => "pass" | FAILED => "fail" | INCOMPLETE => "unknown"
                         | DISABLED => "disabled"
                         end));
        ("fired", JBool (match status with FAILED | INCOMPLETE => true | _ => false end));
        ("detail", JStr (if String.eqb (hr_reason h) "" then confirmation_token status else hr_reason h))].

Definition with_holdout (h : HoldoutRecord) (gate : list (string * Json)) : list (string * Json) :=
  let gate := dict_set gate "holdout" (JObj (holdout_body h)) in
  let gate := dict_set gate "rules" (JArr (arr (get_none gate "rules") ++ [holdout_rule h])) in
  match hr_confirmation_status h with
  | FAILED | INCOMPLETE => dict_set gate "deciding_rule" (JStr "holdout")
  | _ => gate
  end.

Definition gate_results (x : FieldExecution) (block : option HoldoutRecord)
    : list (list (string * Json)) :=
  omap (fun item => (fun e =>
          let gate := gate_row item.1 item.2 e in
          match block with
          | Some h => if String.eqb item.1 (sd_crowning_matchup_id (fe_decision x))
                      then with_holdout h gate else gate
          | None => gate
          end) <$> explanation (rw_outcome item.2)) (fe_raw_results x).

(** [float(aggregate["scalar"])] of an aggregate that is there. *)
Definition recorded_scalar (gid : string) (d : SelectionDecision) : result (option Numeric) :=
  match _first_aggregate_for gid (sd_matchups d) with
  | None => Ok None
  | Some agg => match scalar agg with
                | Some s => Ok (Some (num_float s))
                | None => Raise (KeyError "scalar")
                end
  end.

Definition provenance_body (p : OverrideProvenance) : list (string * Json) :=
  [("action", JStr (op_action p)); ("ts", JStr (op_ts p)); ("reason", JStr (op_reason p));
   ("state", JStr (op_state p))].

Section Commit.
Context `{PyRepr}.

Definition candidate_record (rd : RoundSpec) (x : FieldExecution) (c : CandidateSettlement)
    : result SettlementCandidate :=
  let ch := cs_challenger c in
  try parent_scalar <- recorded_scalar (rd_parent_id rd) (fe_decision x);
  try child_scalar <- recorded_scalar (ac_generation_id ch) (fe_decision x);
  candidate_from_outcome (ac_experiment_id ch) (ac_generation_id ch) (ac_created_at ch)
    parent_scalar child_scalar (cs_outcome c).

Definition settled_field_record (now : string) (rd : RoundSpec) (f : AppliedField)
    (rounds : list RoundRecord) (v : FieldVerdict) (s : RoundSettlement)
    : result FieldTournamentRecord :=
  field_tournament_record (rd_epoch_id rd +:+ ":field:" +:+ af_first_challenger_id f)
    (rd_epoch_id rd) (rd_structure rd) (rd_structure_params rd) (af_competitors f)
    (_serialise_rounds rounds) (_serialise_standings (sd_standings (rs_decision s)))
    (af_field_status f) (crowning_fields (rs_decision s)) now "settled"
    ((fun p => (p.1, provenance_body p.2)) <$> fv_override_provenance v)
    (if 1 <? length (rs_promoted_ids s) then sorted_strings (fv_promoted_ids v) else []).

(** [rounds] are the strategy's; [hook_adapter] names the adapter when it has a hook. *)
Definition _field_settlement_receipt (now settlement_id : string) (hook_adapter : option string)
    (rd : RoundSpec) (f : AppliedField) (x : FieldExecution) (rounds : list RoundRecord)
    (v : FieldVerdict) (s : RoundSettlement) : result (list (string * Json)) :=
  try candidates <- result_map (candidate_record rd x) (rs_candidates s);
  try field_record <- settled_field_record now rd f rounds v s;
  try r <- new_settlement_receipt settlement_id (rd_epoch_id rd) (rd_round_index rd) (rs_primary s)
             candidates (Some (field_to_dict field_record))
             (match rs_primary s, hook_adapter with Some _, Some name => name | _, _ => "" end);
  Ok (dict_set (receipt_to_dict r) "gate_results"
        (JArr (JObj <$> gate_results x (fv_holdout_block v)))).

(** ** Commit and replay *)

(** The refresh of the derived index: the class of the exception it raised, if any. *)
Context (ingest : Workspace -> SettlementReceipt -> option string).

Definition with_state (state : string) (intent : list (string * Json)) : list (string * Json) :=
  dict_set intent "state" (JStr state).

Definition projection_result (error : option string) : list (string * Json) :=
  match error with
  | Some e => [("state", JStr "repair_required"); ("error_type", JStr e)]
  | None => [("state", JStr "succeeded"); ("error_type", JStr "")]
  end.

(** [receipt["index_projection"] = ...] after the refresh. *)
Definition _project_settlement_index (r : SettlementReceipt) (intent : list (string * Json))
    (ws : Workspace) : list (string * Json) :=
  dict_set intent "index_projection" (JObj (projection_result (ingest ws r))).

Definition projection_state (d : list (string * Json)) : Json :=
  get_none (obj (get_none d "index_projection")) "state".
Definition hook_state (d : list (string * Json)) : Json :=
  get_none (obj (get_none d "promotion_hook")) "state".
Definition says (v : Json) (token : string) : bool :=
  match v with JStr s => String.eqb s token | _ => false end.

(** [write_settlement_receipt(decode_settlement_receipt(receipt))] *)
Definition write_receipt_body (d : list (string * Json)) : Wop unit :=
  perform r <- wop_ret (decode_settlement_receipt None None (JObj d));
  write_settlement_receipt r.

Definition replay_field_settlement (intent : list (string * Json)) (expected_epoch_id : option string)
    (expected_round_index : option Z) : Wop unit :=
  perform out <- wop_read (validate_workspace_settlement expected_epoch_id expected_round_index (JObj intent));
  let settlement := out.1 in
  perform receipt <-
    if is_committed settlement then wop_ret (Ok intent)
    else
      perform _ <- mark_epoch_changed (sr_epoch_id settlement);
      perform _ <- write_receipt_body (with_state "committed" intent);
      wop_ret (Ok (with_state "committed" intent));
  if says (projection_state receipt) "pending" then
    perform receipt <- wop_read (fun ws => Ok (_project_settlement_index settlement receipt ws));
    write_receipt_body receipt
  else wop_ret (Ok tt).

Definition unfinished (d : list (string * Json)) : bool :=
  says (get_none d "state") "pending" || says (projection_state d) "pending".

Definition commit_field_settlement (intent : list (string * Json)) : Wop unit :=
  perform out <- wop_read (validate_workspace_settlement None None (JObj intent));
  let validated := out.1 in
  let epoch_id := sr_epoch_id validated in
  let round := sr_round_index validated in
  perform _ <- wop_ret (ensure says (get_none intent "state") "pending"
                          orelse RuntimeError "a new field settlement must start in pending state"; Ok tt);
  perform recorded <- wop_read (read_settlement_receipt epoch_id round);
  match recorded with
  | Some recorded =>
      let existing := receipt_to_dict recorded in
      perform _ <- wop_read (validate_workspace_settlement (Some epoch_id) (Some round) (JObj existing));
      perform known <- wop_ret (decode_settlement_receipt None None (JObj existing));
      perform _ <- wop_ret (ensure json_eq (JObj (immutable_facts known)) (JObj (immutable_facts validated))
                              orelse RuntimeError ("field settlement receipt "
                                +:+ field_settlement_intent_key epoch_id round
                                +:+ " conflicts with the recorded decision"); Ok tt);
      if unfinished existing then replay_field_settlement existing (Some epoch_id) (Some round)
      else wop_ret (Ok tt)
  | None =>
      perform _ <- write_settlement_receipt validated;
      replay_field_settlement intent (Some epoch_id) (Some round)
  end.

(** ** Recovery *)

(** One receipt of the scan: finish its replay, and give up an undelivered hook. *)
Definition recover_receipt (epoch_id : string) (stored : SettlementReceipt) : Wop bool :=
  let raw := receipt_to_dict stored in
  let round := sr_round_index stored in
  perform out <- wop_read (validate_workspace_settlement (Some epoch_id) (Some round) (JObj raw));
  let settlement := out.1 in
  perform finished <-
    if unfinished raw then
      perform _ <- replay_field_settlement raw (Some (sr_epoch_id settlement)) (Some (sr_round_index settlement));
      perform committed <- wop_read (read_settlement_receipt epoch_id (sr_round_index settlement));
      match committed with
      | Some c => wop_ret (Ok (receipt_to_dict c, true))
      | None => wop_ret (Raise (RuntimeError "replayed field settlement is missing"))
      end
    else wop_ret (Ok (raw, false));
  let '(raw, replayed) := finished in
  perform _ <-
    if says (hook_state raw) "pending" then
      write_receipt_body (dict_set raw "promotion_hook"
        (JObj (dict_set (obj (get_none raw "promotion_hook")) "state" (JStr "delivery_unknown"))))
    else wop_ret (Ok tt);
  wop_ret (Ok replayed).

(** The locations of a scan, each read when its turn comes. *)
Fixpoint recover_each (epoch_id : string) (locations : list (string * result Z)) (recovered : nat)
    : Wop nat :=
  match locations with
  | [] => wop_ret (Ok recovered)
  | loc :: locations =>
      perform round <- wop_ret loc.2;
      perform stored <- wop_read (read_settlement_receipt loc.1 round);
      match stored with
      | None => recover_each epoch_id locations recovered
      | Some stored =>
          perform replayed <- recover_receipt epoch_id stored;
          recover_each epoch_id locations (if replayed then S recovered else recovered)
      end
  end.

(** Under the writer's lock. *)
Definition recover_field_settlements (epoch_id : string) : Wop nat :=
  if String.eqb epoch_id "" then wop_ret (Ok 0)
  else
    perform locations <- wop_read (fun ws => Ok (_stored_receipt_locations (Some epoch_id) ws));
    recover_each epoch_id locations 0.

(** ** The promotion hook *)

Definition permitted_transition (current state : string) : bool :=
  (String.eqb current "pending"
   && (String.eqb state "not_applicable" || String.eqb state "delivery_unknown"))
  || (String.eqb current "delivery_unknown"
      && (String.eqb state "succeeded" || String.eqb state "failed")).

Definition record_promotion_hook_delivery (epoch_id : string) (round_index : Z)
    (settlement_id state adapter_name failure_type : string) : Wop unit :=
  perform recorded <- wop_read (read_settlement_receipt epoch_id round_index);
  match recorded with
  | None =>
      wop_ret (Raise (RuntimeError ("field settlement receipt "
        +:+ field_settlement_intent_key epoch_id round_index +:+ " is missing")))
  | Some recorded =>
      let raw := receipt_to_dict recorded in
      perform out <- wop_read (validate_workspace_settlement (Some epoch_id) (Some round_index) (JObj raw));
      if negb (says (get_none raw "state") "committed"
               && String.eqb (sr_settlement_id out.1) settlement_id)
      then wop_ret (Raise (RuntimeError
             "promotion-hook delivery does not match a committed settlement receipt"))
      else if negb (match hook_state raw with JStr s => permitted_transition s state | _ => false end)
      then wop_ret (Raise (RuntimeError "invalid promotion-hook delivery transition"))
      else
        write_receipt_body (dict_set raw "promotion_hook"
          (JObj [("state", JStr state); ("adapter_name", JStr adapter_name);
                 ("failure_type", JStr failure_type)]))
  end.

(** The call of [adapter.on_promote], seen from outside. *)
Definition announce (epoch_id gid : string) : Wop unit :=
  wop_write (fun ws => {|
    ws_lineage := ws_lineage ws; ws_experiments := ws_experiments ws; ws_patches := ws_patches ws;
    ws_tournaments := ws_tournaments ws; ws_rounds := ws_rounds ws;
    ws_revisions := ws_revisions ws; ws_hooks := ws_hooks ws ++ [(epoch_id, gid)] |}).

(** [type(exc).__name__] *)
Definition exn_class (e : exn) : string :=
  match e with
  | ValueError _ => "ValueError" | TypeError _ => "TypeError" | RecordError _ => "RecordError"
  | KeyError _ => "KeyError" | RuntimeError _ => "RuntimeError" | OverflowError => "OverflowError"
  | ZeroDivisionError => "ZeroDivisionError" | AssertionError => "AssertionError"
  | ConfigurationError _ _ _ => "ConfigurationError" | OtherException c => c
  end.

(** An operation whose exception is caught. *)
Definition wop_try {A} (m : Wop A) : Wop (result A) := fun ws =>
  let '(states, r) := m ws in (states, Ok r).

(** A failed hook: the adapter, the generation and the class of the exception. *)
Definition HookFailure : Type := string * string * string.

(** [outcome] is what the hook did: [None] when it completed, the class of the exception
    it raised, or [TimeoutError]. *)
Definition deliver_hook (adapter_name epoch_id gid settlement_id : string) (round_index : Z)
    (outcome : option string) : Wop (option HookFailure) :=
  perform intent <- wop_try (record_promotion_hook_delivery epoch_id round_index settlement_id
                               "delivery_unknown" adapter_name "");
  match intent with
  | Raise e => wop_ret (Ok (Some (adapter_name, gid, exn_class e)))
  | Ok _ =>
      perform _ <- announce epoch_id gid;
      let failure := (fun e => (adapter_name, gid, e)) <$> outcome in
      perform recorded <- wop_try (record_promotion_hook_delivery epoch_id round_index settlement_id
                            (match outcome with Some _ => "failed" | None => "succeeded" end)
                            adapter_name (from_option id "" outcome));
      match recorded, failure with
      | Raise e, None => wop_ret (Ok (Some (adapter_name, gid, exn_class e)))
      | _, _ => wop_ret (Ok failure)
      end
  end.

Definition _commit_field_settlement (now settlement_id : string) (hook_adapter outcome : option string)
    (rd : RoundSpec) (f : AppliedField) (x : FieldExecution) (rounds : list RoundRecord)
    (v : FieldVerdict) (s : RoundSettlement) : Wop (option HookFailure) :=
  perform _ <- wop_ret (_assert_crowning_agrees s f);
  perform receipt <- wop_ret (_field_settlement_receipt now settlement_id hook_adapter rd f x rounds v s);
  perform _ <- commit_field_settlement receipt;
  match rs_primary s, hook_adapter with
  | Some gid, Some adapter_name =>
      deliver_hook adapter_name (rd_epoch_id rd) gid settlement_id (rd_round_index rd) outcome
  | _, _ => wop_ret (Ok None)
  end.

(** ** Repairs *)

Definition needs_repair (r : SettlementReceipt) : bool :=
  is_committed r && String.eqb (ip_state (sr_index_projection r)) "repair_required".

(** The accepted update of a receipt whose projection was rebuilt. *)
Definition repaired_receipt (r : SettlementReceipt) : result SettlementReceipt :=
  let raw := receipt_to_dict r in
  decode_settlement_receipt None None
    (JObj (dict_set raw "index_projection"
       (JObj (dict_set (obj (get_none raw "index_projection")) "state" (JStr "repaired"))))).

Definition repair_update (ws : Workspace) (stored : result SettlementReceipt)
    : result (option SettlementReceipt) :=
  try stored <- stored;
  try _ <- validate_workspace_settlement (Some (sr_epoch_id stored)) (Some (sr_round_index stored))
             (JObj (receipt_to_dict stored)) ws;
  if needs_repair stored then try r <- repaired_receipt stored; Ok (Some r) else Ok None.

Definition acknowledge_repaired_settlement_indexes : Wop nat :=
  perform updates <- wop_read (fun ws =>
    try us <- result_map (repair_update ws) (iter_settlement_receipts None ws); Ok (omap id us));
  perform _ <- wop_each write_settlement_receipt updates;
  wop_ret (Ok (length updates)).
End Commit.

(** ** The summary of the round *)

Definition _round_summary (rd : RoundSpec) (f : AppliedField) (x : FieldExecution) (v : FieldVerdict)
    (s : RoundSettlement) : string * float * float :=
  match crowning_result (fe_decision x) with
  | None => (from_option id (af_first_challenger_id f) (or_none (fv_promoted_id v)),
             rs_champion_scalar s, rs_crowned_scalar s)
  | Some m =>
      let champ_is_left := String.eqb (mr_left_id m) (rd_parent_id rd) in
      (from_option id (if champ_is_left then mr_right_id m else mr_left_id m) (or_none (fv_promoted_id v)),
       (if champ_is_left then left_scalar m else right_scalar m),
       (if champ_is_left then right_scalar m else left_scalar m))
  end.

(** The part of the outcome the loop reads; the health summary is left out. *)
Record EvolveRoundOutcome := {
  eo_parent_generation_id : string;
  eo_proposed_generation_id : string;
  eo_tournament_decision : TournamentDecision;
  eo_rejection_reason : string;
  eo_parent_scalar : float;
  eo_child_scalar : float;
  eo_delta_scalar : float;
}.

Definition round_outcome (rd : RoundSpec) (f : AppliedField) (x : FieldExecution) (v : FieldVerdict)
    (s : RoundSettlement) : EvolveRoundOutcome :=
  let '(child_id, parent_scalar, child_scalar) := _round_summary rd f x v s in {|
  eo_parent_generation_id := rd_parent_id rd; eo_proposed_generation_id := child_id;
  eo_tournament_decision := sd_decision (fv_effective_decision v);
  eo_rejection_reason := match fv_promoted_id v with
                         | Some _ => ""
                         | None => sd_reason (fv_effective_decision v)
                         end;
  eo_parent_scalar := parent_scalar; eo_child_scalar := child_scalar;
  eo_delta_scalar := fsub child_scalar parent_scalar |}.

(** [settle_field_round]: build and commit, then the summary. *)
Definition settle_field_round `{PyRepr} `{PyConv} `{PyFloatParse}
    (ingest : Workspace -> SettlementReceipt -> option string) (now : string -> string)
    (settlement_id : string) (hook_adapter outcome : option string) (rd : RoundSpec)
    (f : AppliedField) (x : FieldExecution) (rounds : list RoundRecord) (v : FieldVerdict)
    : Wop (EvolveRoundOutcome * option HookFailure) :=
  perform s <- wop_ret (_build_field_settlement now rd f x v);
  perform failure <- _commit_field_settlement ingest (now "") settlement_id hook_adapter outcome rd f x
                       rounds v s;
  wop_ret (Ok (round_outcome rd f x v s, failure)).
