(* ===== verification/ReceiptScans.v ===== *)
(** Lemmas about the receipts of an epoch: the scan of its round directories, and the
    steps of a receipt's progress, which leave its facts alone. *)
From S2P Require Import Prelude PyFloat PyText PyJson CoreTypes Params Records Configuration Journal Lineage Strategy FieldRecord Receipt ReceiptSpec Settlement.

(** ** Scans *)

#[export] Instance round_namespace_swo : StrictWeakOrder round_namespace_lt (fun _ => True).
Proof.
  apply (lex_swo (fun a b => (round_namespace_key a =? round_namespace_key b)%Z)
           (fun a b => (round_namespace_key a <? round_namespace_key b)%Z) str_lt);
    [|apply _|intros x y _ _; apply Z_eqb_ltb].
  eapply swo_weaken, (swo_on round_namespace_key), Z_ltb_swo. done.
Qed.

Lemma namespace_key_pretty (n : Z) : (0 <= n)%Z -> round_namespace_key (pretty n) = n.
Proof.
  intros Hn. unfold round_namespace_key. destruct n as [|p|p]; [done| |done].
  change (pretty (Z.pos p)) with (pretty (N.pos p)).
  assert (str_span is_digit (pretty (N.pos p)) = (pretty (N.pos p), "")) as ->.
  { pose proof (str_span_app is_digit (pretty (N.pos p)) "") as H. rewrite str_app_nil_r in H.
    apply H; [apply pretty_N_digits|done]. }
  destruct (pretty_N_nonempty (N.pos p)) as (c & s & Hc & _). rewrite Hc, <-Hc.
  by rewrite int_digits_pretty.
Qed.

Lemma not_after_key (a b : string) :
  not_after round_namespace_lt a b -> (round_namespace_key a <= round_namespace_key b)%Z.
Proof.
  unfold not_after, round_namespace_lt. destruct (Z.eqb_spec (round_namespace_key b) (round_namespace_key a)); [lia|].
  intros H. apply Z.ltb_ge in H. lia.
Qed.

Section Scans.
Context `{PyRepr}.

Lemma namespace_round_pretty (n : Z) : (0 <= n)%Z -> namespace_round (pretty n) = Ok n.
Proof.
  intros Hn. pose proof (namespace_key_pretty n Hn) as Hk. unfold namespace_round.
  rewrite Hk, String.eqb_refl. destruct n as [|p|p]; [done| |done].
  change (pretty (Z.pos p)) with (pretty (N.pos p)).
  assert (str_span is_digit (pretty (N.pos p)) = (pretty (N.pos p), "")) as ->.
  { pose proof (str_span_app is_digit (pretty (N.pos p)) "") as Hs. rewrite str_app_nil_r in Hs.
    apply Hs; [apply pretty_N_digits|done]. }
  by destruct (pretty_N_nonempty (N.pos p)) as (c & s & -> & _).
Qed.

Lemma namespace_round_key t n : namespace_round t = Ok n -> round_namespace_key t = n /\ t = pretty n.
Proof.
  unfold namespace_round. destruct (str_span is_digit t) as [[|c s] [|]]; try done.
  destruct (String.eqb_spec (pretty (round_namespace_key t)) t); [|done]. intros [= <-]. done.
Qed.

(** The receipts of a list of round directories. *)
Definition receipts_in (epoch_id : string) (ws : Workspace) (tails : list string)
    : list (result SettlementReceipt) :=
  tails ≫= fun tail =>
    match namespace_round tail with
    | Raise e => [Raise e]
    | Ok round =>
        match read_settlement_receipt epoch_id round ws with
        | Ok None => [] | Ok (Some r) => [Ok r] | Raise e => [Raise e]
        end
    end.

Lemma locations_epoch epoch_id ws :
  epoch_name_ok epoch_id = true ->
  _stored_receipt_locations (Some epoch_id) ws
  = (fun tail => (epoch_id, namespace_round tail))
      <$> py_sorted round_namespace_lt (round_dirs ws epoch_id).*1.
Proof.
  unfold _stored_receipt_locations, scanned_epochs, is_directory_name, epoch_name_ok.
  rewrite !andb_true_iff. intros (((H1 & _) & _) & H2). apply negb_true_iff in H1. rewrite H1, H2. cbn.
  by rewrite app_nil_r.
Qed.

Lemma iter_epoch epoch_id ws :
  epoch_name_ok epoch_id = true ->
  iter_settlement_receipts (Some epoch_id) ws
  = receipts_in epoch_id ws (py_sorted round_namespace_lt (round_dirs ws epoch_id).*1).
Proof.
  intros He. unfold iter_settlement_receipts. rewrite locations_epoch by done.
  unfold receipts_in. by induction (py_sorted _ _) as [|t l IH]; cbn; [|rewrite IH].
Qed.

Lemma read_receipt_ok epoch_id n ws r :
  read_settlement_receipt epoch_id n ws = Ok (Some r) ->
  exists v, receipt_text ws epoch_id n = Some (Some v)
    /\ decode_settlement_receipt (Some epoch_id) (Some n) v = Ok r.
Proof.
  unfold read_settlement_receipt. destruct (receipt_text ws epoch_id n) as [[v|]|]; try done.
  destruct (decode_settlement_receipt _ _ v) as [r'|e] eqn:E; [|by destruct e].
  cbn. intros [= <-]. by exists v.
Qed.

Lemma read_receipt_text epoch_id n ws v r :
  receipt_text ws epoch_id n = Some (Some v) ->
  decode_settlement_receipt (Some epoch_id) (Some n) v = Ok r ->
  read_settlement_receipt epoch_id n ws = Ok (Some r).
Proof. intros Ht Hd. unfold read_settlement_receipt. by rewrite Ht, Hd. Qed.

(** Beyond a round the scan for its marker stops at the first receipt. *)
Lemma prior_marker_beyond epoch_id ws n m mk tails :
  Forall (fun t => (n <= round_namespace_key t)%Z) tails ->
  prior_marker n m (receipts_in epoch_id ws tails) = Ok mk -> mk = m.
Proof.
  induction 1 as [|t tails Ht _ IH]; [cbn; congruence|]. unfold receipts_in in *. cbn [mbind list_bind].
  destruct (namespace_round t) as [round|e] eqn:En; [|done].
  destruct (read_settlement_receipt epoch_id round ws) as [[r|]|e] eqn:Er; [|exact IH|done].
  apply namespace_round_key in En as [Hk _].
  apply read_receipt_ok in Er as (v & _ & Hd). apply decode_accepted in Hd as (d & _ & _ & _ & Hn).
  specialize (Hn _ eq_refl). cbn. destruct (Z.leb_spec n (sr_round_index r)); [congruence|lia].
Qed.

(** Storing a receipt for the round itself does not move its marker. *)
Lemma prior_marker_frame epoch_id ws ws' n r m mk tails :
  StronglySorted (not_after round_namespace_lt) tails -> (0 <= n)%Z ->
  (forall n', n' <> n -> read_settlement_receipt epoch_id n' ws' = read_settlement_receipt epoch_id n' ws) ->
  read_settlement_receipt epoch_id n ws = Ok None ->
  read_settlement_receipt epoch_id n ws' = Ok (Some r) -> sr_round_index r = n ->
  prior_marker n m (receipts_in epoch_id ws tails) = Ok mk ->
  prior_marker n m (receipts_in epoch_id ws' tails) = Ok mk.
Proof.
  intros Hs Hn Hsame Hws Hws' Hr. revert m. induction Hs as [|t tails Hs IH Ht]; intros m; [done|].
  unfold receipts_in in *. cbn [mbind list_bind].
  destruct (namespace_round t) as [round|e] eqn:En; [|done].
  destruct (decide (round = n)) as [->|Hne].
  - rewrite Hws, Hws'. intros Hmk. apply (prior_marker_beyond epoch_id ws) in Hmk as ->.
    + cbn. rewrite Hr. by rewrite Z.leb_refl.
    + apply namespace_round_key in En as [<- _]. eapply Forall_impl; [exact Ht|].
      intros t'. apply not_after_key.
  - rewrite Hsame by done. destruct (read_settlement_receipt epoch_id round ws) as [[p|]|e]; [|apply IH|done].
    cbn. destruct (n <=? sr_round_index p)%Z; [done|]. apply IH.
Qed.
End Scans.

Section Progress.
Context `{PyRepr}.

Lemma get_none_eq d key v : dict_get d key = Some v -> get_none d key = v.
Proof. unfold get_none, dict_get_or. by intros ->. Qed.

Lemma projection_state_accepted d r :
  Accepted d r -> projection_state d = JStr (ip_state (sr_index_projection r)).
Proof.
  intros Ha. destruct (decode_projection_ok _ _ (ac_projection _ _ Ha)) as (p & Hp & Hf & _).
  unfold projection_state. rewrite Hp. apply get_none_eq. by apply Forall_cons in Hf as [? _].
Qed.

Lemma hook_state_accepted d r : Accepted d r -> hook_state d = JStr (ph_state (sr_promotion_hook r)).
Proof.
  intros Ha. destruct (decode_hook_ok _ _ (ac_hook _ _ Ha)) as (p & Hp & Hf & _).
  unfold hook_state. rewrite Hp. apply get_none_eq. by apply Forall_cons in Hf as [? _].
Qed.

(** The decoder after one step of the replay. *)
Lemma decode_step d r key v hook projection state :
  decode_settlement_receipt None None (JObj d) = Ok r -> progress_key key = true ->
  get_none (dict_set d key v) "state" = JStr state -> state ∈ ["pending"; "committed"] ->
  decode_hook (get_none (dict_set d key v) "promotion_hook") = Ok hook ->
  decode_projection (get_none (dict_set d key v) "index_projection") = Ok projection ->
  json_finite v = true ->
  decode_settlement_receipt None None (JObj (dict_set d key v)) = Ok {|
    sr_epoch_id := sr_epoch_id r; sr_round_index := sr_round_index r;
    sr_settlement_id := sr_settlement_id r; sr_state := state; sr_primary_id := sr_primary_id r;
    sr_candidates := sr_candidates r; sr_promotion_hook := hook; sr_index_projection := projection;
    sr_json := dict_set d key v |}.
Proof.
  intros Hr Hk Hs Hin Hh Hp Hv. pose proof Hr as Hr'. apply decode_accepted in Hr' as (d' & [= <-] & Ha & _).
  apply (decode_progress d r); try done.
  - intros key' Hkey. rewrite dict_get_set. case_decide; [|done]. subst.
    apply bool_decide_eq_true in Hk. done.
  - apply json_finite_dict_set; [apply Ha|done].
Qed.

Lemma decode_committed d r :
  decode_settlement_receipt None None (JObj d) = Ok r ->
  decode_settlement_receipt None None (JObj (with_state "committed" d)) = Ok {|
    sr_epoch_id := sr_epoch_id r; sr_round_index := sr_round_index r;
    sr_settlement_id := sr_settlement_id r; sr_state := "committed"; sr_primary_id := sr_primary_id r;
    sr_candidates := sr_candidates r; sr_promotion_hook := sr_promotion_hook r;
    sr_index_projection := sr_index_projection r; sr_json := with_state "committed" d |}.
Proof.
  intros Hr. pose proof Hr as Hr'. apply decode_accepted in Hr' as (d' & [= <-] & Ha & _).
  apply decode_step; rewrite ?get_none_set; try done; [set_solver|apply Ha|apply Ha].
Qed.

Definition projected (err : option string) : IndexProjection :=
  match err with
  | Some x => {| ip_state := "repair_required"; ip_error_type := x |}
  | None => {| ip_state := "succeeded"; ip_error_type := "" |}
  end.

Lemma decode_projection_result err :
  err <> Some "" -> decode_projection (JObj (projection_result err)) = Ok (projected err).
Proof.
  destruct err as [x|]; [|done]. intros Hx. cbv beta iota delta [decode_projection projection_result].
  change (token_of _ _) with (Some "repair_required"). change (as_text _) with (Some x). cbn.
  destruct (String.eqb_spec x "") as [->|]; [congruence|done].
Qed.

Lemma decode_projected d r err :
  decode_settlement_receipt None None (JObj d) = Ok r -> err <> Some "" ->
  decode_settlement_receipt None None (JObj (dict_set d "index_projection" (JObj (projection_result err)))) = Ok {|
    sr_epoch_id := sr_epoch_id r; sr_round_index := sr_round_index r;
    sr_settlement_id := sr_settlement_id r; sr_state := sr_state r; sr_primary_id := sr_primary_id r;
    sr_candidates := sr_candidates r; sr_promotion_hook := sr_promotion_hook r;
    sr_index_projection := projected err;
    sr_json := dict_set d "index_projection" (JObj (projection_result err)) |}.
Proof.
  intros Hr Herr. pose proof Hr as Hr'. apply decode_accepted in Hr' as (d' & [= <-] & Ha & _).
  apply decode_step; rewrite ?get_none_set; try apply Ha; try done;
    [by apply decode_projection_result|by destruct err].
Qed.

(** A delivery that was never reported is given up. *)
Definition given_up (h : PromotionHook) : PromotionHook := {|
  ph_state := "delivery_unknown"; ph_adapter_name := ph_adapter_name h;
  ph_failure_type := ph_failure_type h |}.

Definition mark_unknown (d : list (string * Json)) : list (string * Json) :=
  dict_set d "promotion_hook"
    (JObj (dict_set (obj (get_none d "promotion_hook")) "state" (JStr "delivery_unknown"))).

Lemma decode_given_up d r :
  decode_settlement_receipt None None (JObj d) = Ok r -> ph_state (sr_promotion_hook r) = "pending" ->
  decode_settlement_receipt None None (JObj (mark_unknown d)) = Ok {|
    sr_epoch_id := sr_epoch_id r; sr_round_index := sr_round_index r;
    sr_settlement_id := sr_settlement_id r; sr_state := sr_state r; sr_primary_id := sr_primary_id r;
    sr_candidates := sr_candidates r; sr_promotion_hook := given_up (sr_promotion_hook r);
    sr_index_projection := sr_index_projection r; sr_json := mark_unknown d |}.
Proof.
  intros Hr Hp. pose proof Hr as Hr'. apply decode_accepted in Hr' as (d' & [= <-] & Ha & _).
  pose proof (ac_hook _ _ Ha) as Hh. pose proof (ac_finite _ _ Ha) as Hfin.
  destruct (decode_hook_ok _ _ Hh) as (p & Hj & Hf & _). rewrite Hj in Hh.
  unfold mark_unknown. rewrite Hj. cbn [obj].
  apply decode_step; rewrite ?get_none_set; try done; [apply Ha..| |apply Ha|].
  - rewrite decide_True by done. cbv beta iota delta [decode_hook] in Hh |- *.
    rewrite !get_none_set, decide_True by done. rewrite !decide_False by done. cbn [token_of as_text mbind option_bind].
    peel Hh. rewrite require_receipt_ok in *. apply token_of_ok in Ha0 as [Hs _].
    rewrite Ha1, Ha2. cbn [require_receipt result_bind]. cbv zeta in Hh.
    repeat (case_match; [done|]). injection Hh as Hh. rewrite <-Hh in Hp |- *. cbn in Hp. subst a.
    destruct (negb (negb (String.eqb a0 "")) || negb (String.eqb a1 "")) eqn:E; [done|].
    done.
  - apply json_finite_dict_set; [|done]. assert (In ("promotion_hook", JObj p) d) as Hin.
    { apply list_elem_of_In, dict_get_Some_elem. by apply get_none_some. }
    cbn in Hfin. rewrite forallb_forall in Hfin. exact (Hfin _ Hin).
Qed.
End Progress.
