(* ===== verification/ReplaySpec.v ===== *)
(** Reasoning about the replay of a receipt: the round's workspace while its commit, its
    recovery and its hook run, with a crash after any write. *)
From S2P Require Import Prelude PyFloat PyText PyJson CoreTypes Params Records Configuration Journal Lineage Strategy FieldRecord Receipt ReceiptSpec Settlement ReceiptScans.

(** ** The receipt of one round, in a workspace that otherwise stands still

    [ws0] is the workspace before the commit: the round [n] of the epoch [e] has its
    directory, without a receipt.  [r0] is the accepted receipt of the object [d0]. *)
Section Round.
Context `{PyRepr} (ws0 : Workspace) (e : string) (n : Z) (d0 : list (string * Json))
  (r0 : SettlementReceipt) (parent : string).

(** A receipt that differs from [r0] in the progress of its replay alone. *)
Record Advance (r : SettlementReceipt) : Prop := {
  av_decodes : decode_settlement_receipt None None (JObj (sr_json r)) = Ok r;
  av_epoch : sr_epoch_id r = e;
  av_round : sr_round_index r = n;
  av_id : sr_settlement_id r = sr_settlement_id r0;
  av_primary : sr_primary_id r = sr_primary_id r0;
  av_candidates : sr_candidates r = sr_candidates r0;
  av_get : forall key, progress_key key = false -> dict_get (sr_json r) key = dict_get d0 key;
  av_facts : List.filter (fun kv => negb (progress_key kv.1)) (sr_json r)
             = List.filter (fun kv => negb (progress_key kv.1)) d0;
}.

Record SameElsewhere (s : Workspace) : Prop := {
  se_lineage : ws_lineage s = ws_lineage ws0;
  se_experiments : ws_experiments s = ws_experiments ws0;
  se_patches : ws_patches s = ws_patches ws0;
  se_tournaments : ws_tournaments s = ws_tournaments ws0;
  se_text : forall e' n', (e', n') <> (e, n) -> receipt_text s e' n' = receipt_text ws0 e' n';
  se_dirs : (round_dirs s e).*1 = (round_dirs ws0 e).*1;
}.

Definition stored (s : Workspace) : option FileText := receipt_text s e n.

Definition holds (s : Workspace) (r : SettlementReceipt) : Prop :=
  SameElsewhere s /\ Advance r /\ stored s = Some (Some (JObj (sr_json r))).

Lemma advance_accepted r : Advance r -> Accepted (sr_json r) r.
Proof. intros Hr. by destruct (decode_accepted _ _ _ _ (av_decodes r Hr)) as (d & [= <-] & ? & _). Qed.

Lemma advance_to_dict r : Advance r -> receipt_to_dict r = sr_json r.
Proof. intros Hr. by apply accepted_to_dict, advance_accepted. Qed.

Lemma advance_decode r : Advance r -> decode_settlement_receipt (Some e) (Some n) (JObj (sr_json r)) = Ok r.
Proof.
  intros Hr. apply decode_expect; [apply Hr|..]; intros ? [= <-]; apply Hr.
Qed.

Lemma holds_read s r : holds s r -> read_settlement_receipt e n s = Ok (Some r).
Proof. intros (_ & Hr & Ht). eapply read_receipt_text; [exact Ht|by apply advance_decode]. Qed.

Lemma read_elsewhere s e' n' :
  SameElsewhere s -> (e', n') <> (e, n) ->
  read_settlement_receipt e' n' s = read_settlement_receipt e' n' ws0.
Proof. intros Hs Hne. unfold read_settlement_receipt. by rewrite (se_text s Hs). Qed.

Lemma stored_patch_elsewhere s gid pid :
  SameElsewhere s -> stored_patch s e gid pid = stored_patch ws0 e gid pid.
Proof. intros Hs. unfold stored_patch. by rewrite (se_patches s Hs). Qed.

(** An experiment of another round reads as before. *)
Lemma accepted_body_elsewhere s gid f o :
  SameElsewhere s -> ef_round_index f <> n ->
  _accepted_body e gid ws0 = Ok (Some (f, o)) -> _accepted_body e gid s = Ok (Some (f, o)).
Proof.
  intros Hs Hne. unfold _accepted_body. rewrite (se_experiments s Hs).
  destruct (dict_get _ (e, gid)) as [[[| | | | | |d]|]|]; try done.
  destruct (check_record_format _ _ _); [|done]. destruct (negb _); [|done].
  destruct (refused_as _ _) as [f'|]; [|done]. cbn [result_bind].
  unfold overlaid_outcome. destruct (decide (ef_round_index f' = n)) as [Heq|Hne'].
  - intros Ho. exfalso. peel Ho. simplify_eq.
  - by rewrite (se_text s Hs) by congruence.
Qed.

Lemma from_body_elsewhere s gid f o :
  SameElsewhere s -> _experiment_from_body s e gid f o = _experiment_from_body ws0 e gid f o.
Proof.
  intros Hs. unfold _experiment_from_body. f_equal. clear o.
  induction (ef_patch_ids f) as [|pid ids IH]; [done|]. cbn.
  by rewrite stored_patch_elsewhere, IH.
Qed.

Lemma read_experiment_body gid s ex :
  read_experiment e gid s = Ok ex ->
  exists f o, _accepted_body e gid s = Ok (Some (f, o))
    /\ _experiment_from_body s e gid f o = Ok ex /\ round_index ex = ef_round_index f
    /\ experiment_id ex = ef_id f.
Proof.
  unfold read_experiment. intros Hx. peel Hx. destruct a as [[f o]|]; [|done].
  exists f, o. unfold _experiment_from_body in Hx |- *. destruct (result_map _ _) eqn:E; [|done].
  cbn [result_bind] in *. destruct (_outcome_from_dict o) eqn:Eo; [|done]. cbn in *. by simplify_eq.
Qed.

Lemma read_experiment_elsewhere s gid ex :
  SameElsewhere s -> round_index ex <> n ->
  read_experiment e gid ws0 = Ok ex -> read_experiment e gid s = Ok ex.
Proof.
  intros Hs Hne Hx. destruct (read_experiment_body _ _ _ Hx) as (f & o & Hb & Hf & Hn & _).
  unfold read_experiment. rewrite (accepted_body_elsewhere s gid f o) by congruence.
  cbn [result_bind]. by rewrite from_body_elsewhere.
Qed.

(** What the commit relies on: the intent is a fresh, pending, valid receipt. *)
Record Fresh : Prop := {
  fr_decodes : decode_settlement_receipt None None (JObj d0) = Ok r0;
  fr_epoch : sr_epoch_id r0 = e;
  fr_round : sr_round_index r0 = n;
  fr_pending : is_pending r0 = true;
  fr_name : epoch_name_ok e = true;
  fr_valid : validate_accepted r0 ws0 = Ok parent;
  fr_dir : dict_get (round_dirs ws0 e) (pretty n) = Some None;
}.

Context (Hfresh : Fresh).

Lemma fr_absent : receipt_text ws0 e n = None.
Proof. unfold receipt_text. by rewrite (fr_dir Hfresh). Qed.

Lemma fresh_json : sr_json r0 = d0.
Proof. by destruct (decode_accepted _ _ _ _ (fr_decodes Hfresh)) as (d & [= <-] & [] & _). Qed.

Lemma fresh_advance : Advance r0.
Proof. destruct Hfresh. split; rewrite ?fresh_json; try done. Qed.

Lemma fresh_candidates :
  NoDup (sc_generation_id <$> sr_candidates r0)
  /\ Forall (fun c => exists o, candidate_outcome c = Ok o) (sr_candidates r0)
  /\ (forall c, c ∈ sr_candidates r0 -> get_none (candidate_to_dict c) "outcome" = sc_outcome_json c).
Proof.
  destruct (ac_candidates _ _ (advance_accepted r0 fresh_advance)) as (g & raws & _ & (Hraw & Hnd & Hf) & _ & <-).
  unfold ga_ids in Hnd. rewrite <-list_fmap_compose. split_and!; [done| |].
  - apply Forall_fmap. eapply Forall_impl; [exact Hf|]. intros c [Hc _]. by eexists.
  - intros c (co & -> & Hc)%list_elem_of_fmap. rewrite Forall_forall in Hf. by apply Hf.
Qed.

Lemma advance_committed r : Advance r -> is_pending r = false -> is_committed r = true.
Proof.
  intros Hr. pose proof (ac_state_in _ _ (advance_accepted r Hr)) as Hin. unfold is_pending, is_committed.
  apply elem_of_cons in Hin as [->|Hin]; [done|]. apply list_elem_of_singleton in Hin as ->. done.
Qed.

Lemma pending_not_committed r : is_pending r = true -> is_committed r = false.
Proof. unfold is_pending, is_committed. by intros ->%String.eqb_eq. Qed.

Lemma find_candidate c :
  c ∈ sr_candidates r0 ->
  find_first (fun c' => String.eqb (sc_generation_id c') (sc_generation_id c)) (sr_candidates r0) = Some c.
Proof.
  destruct fresh_candidates as (Hnd & _ & _). revert Hnd.
  induction (sr_candidates r0) as [|c' l IH]; [set_solver|]. cbn. intros [Hn Hnd]%NoDup_cons [->|Hc]%elem_of_cons.
  - by rewrite String.eqb_refl.
  - destruct (String.eqb_spec (sc_generation_id c') (sc_generation_id c)) as [Heq|]; [|auto].
    exfalso. apply Hn. rewrite Heq. by apply list_elem_of_fmap_2.
Qed.

(** What an experiment's outcome is, before and after the round commits. *)
Lemma own_overlay s r c f o :
  holds s r -> c ∈ sr_candidates r0 -> ef_round_index f = n -> ef_id f = sc_experiment_id c ->
  overlaid_outcome e (sc_generation_id c) f s o
  = Ok (if is_committed r then sc_outcome_json c else o).
Proof.
  intros Hh Hc Hn Hid. pose proof Hh as (Hs & Hr & Ht). unfold overlaid_outcome, stored in *.
  rewrite Hn, Ht, advance_decode by done. cbn [result_bind]. destruct (is_committed r); [|done].
  rewrite (av_candidates r Hr), find_candidate by done. rewrite Hid, String.eqb_refl.
  destruct fresh_candidates as (_ & _ & Hget). by rewrite (Hget c Hc).
Qed.

(** The experiment of a candidate still passes the check of its receipt. *)
Lemma own_experiment s r c ex p :
  holds s r -> c ∈ sr_candidates r0 -> read_experiment e (sc_generation_id c) ws0 = Ok ex ->
  check_experiment r0 (c, ex) = Ok p ->
  exists ex', read_experiment e (sc_generation_id c) s = Ok ex' /\ check_experiment r (c, ex') = Ok p
    /\ (is_committed r = true -> exists o, candidate_outcome c = Ok o /\ exp_outcome ex' = Some o).
Proof.
  intros Hh Hc Hx Hcheck. pose proof Hh as (Hs & Hr & _).
  destruct (read_experiment_body _ _ _ Hx) as (f & o & Hb & Hf & Hn & Hid).
  unfold check_experiment in Hcheck |- *.
  apply if_ok in Hcheck as [Hmatch (out & Hout & Hcheck)%result_bind_ok].
  apply if_ok in Hcheck as [Hsame Hparent]. rewrite Hout.
  rewrite (fr_epoch Hfresh), (fr_round Hfresh) in Hmatch. rewrite (av_epoch r Hr), (av_round r Hr).
  rewrite (fr_pending Hfresh) in Hsame.
  pose proof Hmatch as Hm. rewrite !andb_true_iff in Hm. destruct Hm as (((Hi & _) & _) & Hround).
  apply String.eqb_eq in Hi. apply Z.eqb_eq in Hround.
  assert (_accepted_body e (sc_generation_id c) s
          = Ok (Some (f, if is_committed r then sc_outcome_json c else o))) as Hb'.
  { unfold _accepted_body in Hb |- *. rewrite (se_experiments s Hs).
    destruct (dict_get _ (e, sc_generation_id c)) as [[[| | | | | |d]|]|]; try done.
    peel Hb. apply if_ok in Hb as [Hin Hb]. rewrite Ha, Hin. cbn [result_bind]. peel Hb. simplify_eq.
    rewrite Ha0. cbn [result_bind]. rewrite (own_overlay s r c f) by congruence. cbn [result_bind].
    unfold overlaid_outcome in Ha1.
    assert (ef_round_index f = n) as Heq by congruence. rewrite Heq, fr_absent in Ha1.
    by simplify_eq. }
  unfold read_experiment. rewrite Hb'. cbn [result_bind]. rewrite from_body_elsewhere by done.
  destruct (is_pending r) eqn:Hp.
  - rewrite (pending_not_committed r Hp). exists ex. split_and!; [done| |done]. rewrite Hmatch.
    cbn [result_bind]. cbn [andb] in Hsame |- *. by rewrite Hsame.
  - rewrite (advance_committed r Hr Hp). unfold _experiment_from_body in Hf |- *. peel Hf. simplify_eq.
    unfold candidate_outcome, outcome_from_dict in Hout. peel Hout. rewrite Ha, Ha1. cbn [result_bind].
    eexists. split_and!; [done| |].
    + cbn in Hmatch |- *. by rewrite Hmatch.
    + intros _. destruct a1 as [o1|]; [|done]. exists o1. split; [congruence|done].
Qed.

Lemma own_experiments s r cs exs parents :
  holds s r -> (forall c, c ∈ cs -> c ∈ sr_candidates r0) ->
  result_map (fun c => read_experiment e (sc_generation_id c) ws0) cs = Ok exs ->
  result_map (check_experiment r0) (zip cs exs) = Ok parents ->
  exists exs', result_map (fun c => read_experiment e (sc_generation_id c) s) cs = Ok exs'
    /\ length exs' = length exs /\ result_map (check_experiment r) (zip cs exs') = Ok parents.
Proof.
  intros Hh Hcs. revert exs parents Hcs.
  induction cs as [|c cs IH]; intros exs parents Hcs; cbn [result_map].
  { intros [= <-] [= <-]. by exists []. }
  intros (ex & Hex & (exs1 & Hexs & [= <-])%result_bind_ok)%result_bind_ok. cbn [zip zip_with result_map].
  intros (p & Hp & (ps & Hps & [= <-])%result_bind_ok)%result_bind_ok.
  destruct (own_experiment s r c ex p) as (ex' & Hex' & Hp' & _); [set_solver..|done|done|].
  destruct (IH exs1 ps) as (exs' & Hexs' & Hl & Hps'); [set_solver|done|done|].
  exists (ex' :: exs'). rewrite Hex'. cbn [result_bind]. rewrite Hexs'. cbn [result_bind zip zip_with result_map].
  rewrite Hp'. cbn [result_bind]. fold (zip cs exs'). rewrite Hps'. cbn. by rewrite Hl.
Qed.

Lemma advance_field r : Advance r -> receipt_field_record r = receipt_field_record r0.
Proof.
  intros Hr. unfold receipt_field_record, get_none, dict_get_or.
  rewrite advance_to_dict, (advance_to_dict r0) by (done || apply fresh_advance).
  by rewrite (av_get r Hr), fresh_json by done.
Qed.

(** A pending round changes no tournament record. *)
Lemma field_record_elsewhere s r e' gid :
  holds s r -> is_pending r = true ->
  read_field_tournament_record e' gid s = read_field_tournament_record e' gid ws0.
Proof.
  intros Hh Hp. pose proof Hh as (Hs & _ & _). unfold read_field_tournament_record.
  rewrite (se_tournaments s Hs), (se_experiments s Hs).
  destruct (dict_get _ (e', gid)) as [[v|]|]; [|done|done].
  destruct (decode_field_tournament_record v) as [t|]; [|done]. cbn [result_bind].
  destruct (dict_get _ (ft_epoch_id t, gid)) as [[[| | | | | |d]|]|]; try done.
  destruct (item d "round_index") as [[| | z| | | |]|]; try done. cbn [result_bind].
  destruct (decide ((ft_epoch_id t, z) = (e, n))) as [[= -> ->]|Hne].
  - rewrite (holds_read s r Hh). unfold read_settlement_receipt. rewrite fr_absent. cbn [result_bind receipt_refusal].
    by rewrite (pending_not_committed r Hp).
  - by rewrite read_elsewhere.
Qed.

Lemma iter_elsewhere s :
  SameElsewhere s ->
  iter_settlement_receipts (Some e) s
  = receipts_in e s (py_sorted round_namespace_lt (round_dirs ws0 e).*1).
Proof. intros Hs. by rewrite iter_epoch, (se_dirs s Hs) by apply Hfresh. Qed.

Lemma marker_kept s r mk :
  holds s r -> is_pending r = true -> current_marker r0 ws0 = Ok mk -> current_marker r s = Ok mk.
Proof.
  intros Hh Hp. pose proof Hh as (Hs & Hr & _). unfold current_marker.
  rewrite Hp, (fr_pending Hfresh), (av_primary r Hr).
  destruct (sr_primary_id r0); [|done].
  rewrite (fr_epoch Hfresh), (fr_round Hfresh), (av_epoch r Hr), (av_round r Hr).
  rewrite (iter_elsewhere s Hs), iter_epoch by apply Hfresh.
  assert (read_settlement_receipt e n ws0 = Ok None) as H0
    by (unfold read_settlement_receipt; by rewrite fr_absent).
  apply (prior_marker_frame e ws0 s n r).
  - apply (py_sorted_sorted round_namespace_lt (fun _ => True)). by apply Forall_true.
  - pose proof (ac_round_nonneg _ _ (advance_accepted r Hr)). rewrite (av_round r Hr) in *. done.
  - intros n' Hn'. apply read_elsewhere; congruence.
  - done.
  - by apply holds_read.
  - apply Hr.
Qed.

Lemma own_records r exs exs' lineage existing existing' marker marker' parents :
  Advance r -> length exs' = length exs ->
  result_map (check_experiment r0) (zip (sr_candidates r0) exs) = Ok parents ->
  result_map (check_experiment r) (zip (sr_candidates r) exs') = Ok parents ->
  (existing' = None \/ existing' = existing) ->
  (is_pending r = true -> marker' = marker) ->
  validate_settlement_records r0 exs lineage existing marker = Ok parent ->
  validate_settlement_records r exs' lineage existing' marker' = Ok parent.
Proof.
  intros Hr Hl Hp0 Hp He Hm. unfold validate_settlement_records.
  assert (validate_settlement_experiments r exs' = validate_settlement_experiments r0 exs) as ->.
  { unfold validate_settlement_experiments. by rewrite Hl, Hp, Hp0, (advance_field r Hr), (av_candidates r Hr). }
  rewrite (advance_field r Hr), (av_candidates r Hr), (av_epoch r Hr), (av_primary r Hr), (fr_epoch Hfresh).
  intros (p & Hexp & (u & Hfield & Hrest)%result_bind_ok)%result_bind_ok.
  rewrite Hexp. cbn [result_bind].
  assert (exists u, _validate_existing_field_record existing' (receipt_field_record r0) = Ok u) as (u' & ->).
  { destruct He as [->| ->]; [|by eexists]. exists tt. by destruct (receipt_field_record r0). }
  cbn [result_bind]. destruct (lineage_epoch lineage e) as [epoch|]; [|done].
  assert (forall c, check_lineage_row r p epoch c = check_lineage_row r0 p epoch c) as Hrow.
  { intros c. unfold check_lineage_row. by rewrite (av_round r Hr), (fr_round Hfresh). }
  assert (forall cs, result_map (check_lineage_row r p epoch) cs = result_map (check_lineage_row r0 p epoch) cs) as ->.
  { induction cs as [|c cs IH]; [done|]. cbn. by rewrite Hrow, IH. }
  apply result_bind_ok in Hrest as (us & -> & Hrest). cbn [result_bind].
  rewrite (fr_pending Hfresh) in Hrest. destruct (is_pending r).
  - by rewrite Hm.
  - destruct (sr_primary_id r0); [|done]. destruct marker; [|done]. by apply if_ok in Hrest as [_ ?].
Qed.

(** The receipt of the round stays valid, at every stage of its replay. *)
Lemma own_valid s r : holds s r -> validate_accepted r s = Ok parent.
Proof.
  intros Hh. pose proof Hh as (Hs & Hr & _). pose proof (fr_valid Hfresh) as Hv.
  unfold validate_accepted in Hv |- *. rewrite (fr_epoch Hfresh) in Hv. rewrite (av_epoch r Hr).
  unfold _load_raw in Hv |- *. rewrite (se_lineage s Hs).
  apply result_bind_ok in Hv as (exs & Hexs & Hv). apply result_bind_ok in Hv as (old & Hold & Hv).
  apply result_bind_ok in Hv as (mk & Hmk & Hv). apply result_bind_ok in Hv as (raw & Hraw & Hv).
  apply result_bind_ok in Hv as (lineage & Hlineage & Hv).
  assert (exists ps, result_map (check_experiment r0) (zip (sr_candidates r0) exs) = Ok ps) as (ps & Hps).
  { unfold validate_settlement_records, validate_settlement_experiments in Hv.
    apply result_bind_ok in Hv as (? & Hv & _). apply if_ok in Hv as [_ Hv].
    apply result_bind_ok in Hv as (ps & Hv & _). by exists ps. }
  rewrite (av_candidates r Hr).
  destruct (own_experiments s r (sr_candidates r0) exs ps) as (exs' & -> & Hl & Hps'); [done..|].
  cbn [result_bind].
  assert (exists old', existing_field_record r s = Ok old' /\ (old' = None \/ old' = old)) as (old' & -> & Ho).
  { unfold existing_field_record in Hold |- *. rewrite (fr_pending Hfresh) in Hold.
    destruct (is_pending r) eqn:Hp; [|by eauto].
    rewrite (advance_field r Hr). destruct (receipt_field_record r0); [|by eauto].
    rewrite (field_record_elsewhere s r) by done.
    unfold first_challenger_id in Hold |- *. rewrite (av_candidates r Hr), (av_epoch r Hr).
    rewrite (fr_epoch Hfresh) in Hold. rewrite Hold. eauto. }
  assert (exists mk', current_marker r s = Ok mk' /\ (is_pending r = true -> mk' = mk)) as (mk' & Hmk' & Hm).
  { destruct (is_pending r) eqn:Hp; [exists mk; by rewrite (marker_kept s r mk)|].
    exists None. unfold current_marker. by rewrite Hp. }
  cbn [result_bind]. rewrite Hmk'. cbn [result_bind]. rewrite Hraw. cbn [result_bind].
  rewrite Hlineage. cbn [result_bind]. eapply (own_records r exs exs'); try done.
  by rewrite (av_candidates r Hr).
Qed.

(** *** Steps *)

(** A progress the decoder accepts is an advance. *)
Lemma advance_any r key v r' :
  Advance r -> progress_key key = true ->
  decode_settlement_receipt None None (JObj (dict_set (sr_json r) key v)) = Ok r' -> Advance r'.
Proof.
  intros Hr Hk Hd. pose proof Hd as Hd'. apply decode_accepted in Hd as (d' & [= <-] & Ha & _).
  assert (forall key', progress_key key' = false ->
            dict_get (dict_set (sr_json r) key v) key' = dict_get (sr_json r) key') as Hget.
  { intros key' Hk'. rewrite dict_get_set. case_decide; [congruence|done]. }
  pose proof (decode_progress (sr_json r) r _ _ _ _ (av_decodes r Hr)
                (fun key' H' => Hget key' (bool_decide_eq_false_2 _ H')) (ac_state _ _ Ha) (ac_state_in _ _ Ha)
                (ac_hook _ _ Ha) (ac_projection _ _ Ha) (ac_finite _ _ Ha)) as Hd2.
  rewrite Hd' in Hd2. injection Hd2 as Hr'. pose proof (ac_json _ _ Ha) as Hj.
  split; rewrite ?Hj; try (rewrite Hr'; apply Hr).
  - done.
  - intros key' Hk'. rewrite Hget by done. by apply Hr.
  - rewrite facts_of_progress by done. apply Hr.
Qed.

Definition put (s : Workspace) (v : Json) : Workspace := {|
  ws_lineage := ws_lineage s; ws_experiments := ws_experiments s; ws_patches := ws_patches s;
  ws_tournaments := ws_tournaments s;
  ws_rounds := dict_set (ws_rounds s) e (dict_set (round_dirs s e) (pretty n) (Some (Some v)));
  ws_revisions := ws_revisions s; ws_hooks := ws_hooks s |}.

Lemma put_dirs s v e' :
  round_dirs (put s v) e'
  = if decide (e' = e) then dict_set (round_dirs s e) (pretty n) (Some (Some v)) else round_dirs s e'.
Proof.
  unfold round_dirs, put, dict_get_or. cbn [ws_rounds]. rewrite dict_get_set.
  destruct (decide (e = e')) as [->|]; [by rewrite decide_True|by rewrite decide_False by congruence].
Qed.

Lemma put_stored s v : stored (put s v) = Some (Some v).
Proof. unfold stored, receipt_text. by rewrite put_dirs, decide_True, dict_get_set_eq by done. Qed.

Lemma put_elsewhere s v : SameElsewhere s -> SameElsewhere (put s v).
Proof.
  intros Hs. split; cbn; try apply Hs.
  - intros e' n' Hne. rewrite <-(se_text s Hs) by done. unfold receipt_text. rewrite put_dirs.
    case_decide as He; [subst e'|done]. rewrite dict_get_set_ne; [done|].
    intros Hn. apply Hne. f_equal. symmetry. by apply (inj pretty).
  - rewrite put_dirs, decide_True by done. change (dict_keys (dict_set (round_dirs s e) (pretty n) (Some (Some v)))
      = dict_keys (round_dirs ws0 e)). rewrite dict_keys_set.
    assert (dict_keys (round_dirs s e) = dict_keys (round_dirs ws0 e)) as -> by apply Hs.
    rewrite decide_True; [done|]. apply list_elem_of_fmap. eexists. split; [|exact (dict_get_Some_elem _ _ _ (fr_dir Hfresh))].
    done.
Qed.

Lemma put_holds s r : SameElsewhere s -> Advance r -> holds (put s (JObj (sr_json r))) r.
Proof. intros Hs Hr. split_and!; [by apply put_elsewhere|done|apply put_stored]. Qed.

Lemma same_start : SameElsewhere ws0.
Proof. by split. Qed.

(** Storing an advance. *)
Lemma wpc_store r I (Q : result unit -> Workspace -> Prop) s :
  SameElsewhere s -> Advance r ->
  (forall s', holds s' r -> ws_hooks s' = ws_hooks s -> I s' /\ Q (Ok tt) s') ->
  wpc (write_settlement_receipt r) I Q s.
Proof.
  intros Hs Hr HQ. unfold write_settlement_receipt. eapply wpc_ret_ok.
  { rewrite advance_to_dict by done. by apply Hr. }
  rewrite advance_to_dict, (av_epoch r Hr), (av_round r Hr) by done.
  destruct (HQ (put s (JObj (sr_json r)))); [by apply put_holds|done|]. by apply wpc_write.
Qed.

Lemma wpc_store_body d r I (Q : result unit -> Workspace -> Prop) s :
  decode_settlement_receipt None None (JObj d) = Ok r -> SameElsewhere s -> Advance r ->
  (forall s', holds s' r -> ws_hooks s' = ws_hooks s -> I s' /\ Q (Ok tt) s') ->
  wpc (write_receipt_body d) I Q s.
Proof. intros Hd Hs Hr HQ. unfold write_receipt_body. eapply wpc_ret_ok; [exact Hd|]. by apply wpc_store. Qed.

(** *** Replay *)

(** The class of an exception has a name. *)
Context (ingest : Workspace -> SettlementReceipt -> option string)
  (Hingest : forall ws r, ingest ws r <> Some "").

(** The round holds a receipt with a given hook, and these promotions were announced. *)
Definition Keeps (h : PromotionHook) (hooks : list (string * string)) (s : Workspace) : Prop :=
  exists r, holds s r /\ sr_promotion_hook r = h /\ ws_hooks s = hooks.

(** Committed, with the index projected. *)
Definition Finished (h : PromotionHook) (hooks : list (string * string)) (s : Workspace) : Prop :=
  exists r, holds s r /\ sr_promotion_hook r = h /\ ws_hooks s = hooks
    /\ is_committed r = true /\ says (projection_state (sr_json r)) "pending" = false.

Lemma finished_keeps h hooks s : Finished h hooks s -> Keeps h hooks s.
Proof. intros (r & ? & ? & ? & _). by exists r. Qed.

Lemma holds_json s r : holds s r -> exists d, sr_json r = d /\ Accepted d r.
Proof. intros (_ & Hr & _). eexists. split; [done|]. by apply advance_accepted. Qed.

Lemma own_validate s r :
  holds s r -> validate_workspace_settlement (Some e) (Some n) (JObj (sr_json r)) s = Ok (r, parent).
Proof.
  intros Hh. unfold validate_workspace_settlement. pose proof Hh as (_ & Hr & _).
  rewrite advance_decode by done. cbn [result_bind]. by rewrite own_valid.
Qed.

(** The result of the refresh is on record: it ran for [settlement] once the round was
    committed, and the receipt says that it succeeded, or needs repair and why. *)
Definition Refreshed (settlement : SettlementReceipt) (s : Workspace) : Prop :=
  exists r s1 r1, read_settlement_receipt e n s = Ok (Some r)
    /\ SameElsewhere s1 /\ read_settlement_receipt e n s1 = Ok (Some r1) /\ is_committed r1 = true
    /\ sr_index_projection r = match ingest s1 settlement with
                               | None => {| ip_state := "succeeded"; ip_error_type := "" |}
                               | Some error => {| ip_state := "repair_required"; ip_error_type := error |}
                               end.

(** The refresh of the index, and its result on record. *)
Lemma project_ok s r settlement h hooks :
  holds s r -> is_committed r = true -> sr_promotion_hook r = h -> ws_hooks s = hooks ->
  wpc (if says (projection_state (sr_json r)) "pending" then
         perform d <- wop_read (fun ws => Ok (_project_settlement_index ingest settlement (sr_json r) ws));
         write_receipt_body d
       else wop_ret (Ok tt))
    (Keeps h hooks)
    (fun res s' => res = Ok tt /\ Finished h hooks s'
       /\ (says (projection_state (sr_json r)) "pending" = true -> Refreshed settlement s')) s.
Proof.
  intros Hh Hc Hhook Hhooks. pose proof Hh as (Hs & Hr & _).
  destruct (says _ _) eqn:Hp.
  - eapply wpc_read_ok; [done|].
    pose proof (decode_projected _ _ (ingest s settlement) (av_decodes r Hr) (Hingest _ _)) as Hd.
    eapply wpc_store_body; [exact Hd|done|by eapply advance_any, Hd|]. intros s' Hh' Hk.
    assert (Finished h hooks s') as HF.
    { eexists. split_and!; [exact Hh'|done|congruence|done|].
      destruct (holds_json _ _ Hh') as (d & <- & Ha). rewrite (projection_state_accepted _ _ Ha). cbn.
      by destruct (ingest s settlement). }
    split; [by apply finished_keeps|]. split; [done|]. split; [done|]. intros _.
    eexists _, s, r. split_and!; [by apply holds_read|done|by apply holds_read|done|].
    by destruct (ingest s settlement).
  - apply wpc_ret. split; [done|]. split; [by exists r|done].
Qed.

Lemma marked_holds s r : holds s r -> holds (marked e s) r.
Proof. intros (Hs & Hr & Ht). split_and!; [|done|exact Ht]. split; apply Hs. Qed.

Lemma replay_ok s r :
  holds s r ->
  wpc (replay_field_settlement ingest (sr_json r) (Some e) (Some n))
    (Keeps (sr_promotion_hook r) (ws_hooks s))
    (fun res s' => res = Ok tt /\ Finished (sr_promotion_hook r) (ws_hooks s) s'
       /\ (says (projection_state (sr_json r)) "pending" = true -> Refreshed r s')) s.
Proof.
  intros Hh. pose proof Hh as (Hs & Hr & _). unfold replay_field_settlement.
  eapply wpc_read_ok; [by apply own_validate|]. cbn [fst].
  destruct (is_committed r) eqn:Hc.
  { eapply wpc_ret_ok; [done|]. by apply project_ok. }
  rewrite (av_epoch r Hr). eapply wpc_bind_ok, wpc_bind_ok.
  apply wpc_mark; [apply Hfresh|..].
  { exists r. split_and!; [by apply marked_holds|done|done]. }
  split; [done|]. eapply wpc_bind_ok.
  pose proof (decode_committed _ _ (av_decodes r Hr)) as Hd.
  eapply wpc_store_body; [exact Hd|by apply (marked_holds s r)|by eapply advance_any, Hd|].
  intros s' Hh' Hk. cbn in Hk. split; [eexists; by split_and!|]. split; [done|].
  apply wpc_ret. split; [done|]. rewrite <-Hk.
  assert (projection_state (with_state "committed" (sr_json r)) = projection_state (sr_json r)) as <-.
  { unfold projection_state, with_state. by rewrite get_none_set, decide_False. }
  by apply (project_ok s' _ r _ _ Hh').
Qed.

(** The commit of a fresh intent. *)
Lemma commit_ok :
  wpc (commit_field_settlement ingest d0)
    (Keeps (sr_promotion_hook r0) (ws_hooks ws0))
    (fun res s' => res = Ok tt /\ Finished (sr_promotion_hook r0) (ws_hooks ws0) s'
       /\ (says (projection_state d0) "pending" = true -> Refreshed r0 s')) ws0.
Proof.
  unfold commit_field_settlement. eapply wpc_read_ok.
  { unfold validate_workspace_settlement. rewrite (fr_decodes Hfresh). cbn [result_bind].
    by rewrite (fr_valid Hfresh). }
  cbn [fst]. rewrite (fr_epoch Hfresh), (fr_round Hfresh). pose proof fresh_advance as Hr.
  pose proof (advance_accepted r0 Hr) as Ha. rewrite fresh_json in Ha. pose proof (fr_pending Hfresh) as Hp.
  eapply wpc_ret_ok; [by rewrite (ac_state _ _ Ha); cbn; unfold is_pending in Hp; rewrite Hp|].
  eapply wpc_read_ok; [unfold read_settlement_receipt; by rewrite fr_absent|].
  eapply wpc_bind_ok, wpc_store; [apply same_start|done|]. intros s Hh Hk. split; [by exists r0|].
  split; [done|]. rewrite <-fresh_json, <-Hk. by apply replay_ok.
Qed.

(** *** Recovery *)

(** The other rounds of the epoch were recovered before: their directories are round
    directories, and their receipts are valid, finished, and without a hook to announce. *)
Definition finished_receipt (r : SettlementReceipt) : bool :=
  negb (unfinished (receipt_to_dict r)) && negb (says (hook_state (receipt_to_dict r)) "pending").

Record Others : Prop := {
  ot_dirs : Forall (fun t => exists k, namespace_round t = Ok k) (round_dirs ws0 e).*1;
  ot_settled : forall n', n' <> n -> read_settlement_receipt e n' ws0 = Ok None
    \/ exists r p, read_settlement_receipt e n' ws0 = Ok (Some r)
         /\ validate_accepted r ws0 = Ok p /\ finished_receipt r = true;
}.

Context (Hothers : Others).

Lemma finished_committed d r : Accepted d r -> finished_receipt r = true ->
  is_committed r = true /\ is_pending r = false /\ unfinished d = false /\ says (hook_state d) "pending" = false.
Proof.
  intros Ha. unfold finished_receipt. rewrite (accepted_to_dict d r Ha).
  rewrite andb_true_iff, !negb_true_iff. intros [Hu Hh]. pose proof Hu as Hu'.
  unfold unfinished in Hu'. apply orb_false_iff in Hu' as [Hs _]. rewrite (ac_state _ _ Ha) in Hs. cbn in Hs.
  unfold is_committed, is_pending. rewrite Hs. split_and!; try done.
  pose proof (ac_state_in _ _ Ha) as Hin. apply elem_of_cons in Hin as [Heq|Hin]; [by rewrite Heq in Hs|].
  apply list_elem_of_singleton in Hin as ->. done.
Qed.

Lemma other_experiments s r cs exs ps :
  SameElsewhere s -> sr_round_index r <> n ->
  result_map (fun c => read_experiment e (sc_generation_id c) ws0) cs = Ok exs ->
  result_map (check_experiment r) (zip cs exs) = Ok ps ->
  result_map (fun c => read_experiment e (sc_generation_id c) s) cs = Ok exs.
Proof.
  intros Hs Hne. revert exs ps. induction cs as [|c cs IH]; intros exs ps; cbn [result_map]; [done|].
  intros (ex & Hex & (exs1 & Hexs & [= <-])%result_bind_ok)%result_bind_ok. cbn [zip zip_with result_map].
  intros (p & Hp & (ps' & Hps & [= <-])%result_bind_ok)%result_bind_ok.
  rewrite (read_experiment_elsewhere s _ ex Hs); [|clear -Hp Hne|done].
  - cbn [result_bind]. by rewrite (IH exs1 ps').
  - unfold check_experiment in Hp. apply if_ok in Hp as [Hp _]. rewrite !andb_true_iff in Hp.
    destruct Hp as [_ Hp%Z.eqb_eq]. congruence.
Qed.

(** A finished receipt of another round stays valid. *)
Lemma other_valid s r p d :
  SameElsewhere s -> Accepted d r -> sr_epoch_id r = e -> sr_round_index r <> n ->
  finished_receipt r = true -> validate_accepted r ws0 = Ok p -> validate_accepted r s = Ok p.
Proof.
  intros Hs Ha He Hne Hf Hv. destruct (finished_committed d r Ha Hf) as (_ & Hp & _).
  unfold validate_accepted in Hv |- *. rewrite He in Hv |- *.
  assert (forall ws, existing_field_record r ws = Ok None) as Hx
    by (intros; unfold existing_field_record; by rewrite Hp).
  assert (forall ws, current_marker r ws = Ok None) as Hm
    by (intros; unfold current_marker; by rewrite Hp).
  rewrite !Hx, !Hm in Hv |- *. unfold _load_raw in Hv |- *. rewrite (se_lineage s Hs).
  apply result_bind_ok in Hv as (exs & Hexs & Hv).
  assert (exists ps, result_map (check_experiment r) (zip (sr_candidates r) exs) = Ok ps) as (ps & Hps).
  { pose proof Hv as Hv'. cbn [result_bind] in Hv'.
    apply result_bind_ok in Hv' as (? & _ & (? & _ & Hv')%result_bind_ok).
    unfold validate_settlement_records, validate_settlement_experiments in Hv'.
    apply result_bind_ok in Hv' as (? & Hv' & _). apply if_ok in Hv' as [_ Hv'].
    apply result_bind_ok in Hv' as (ps & Hv' & _). by exists ps. }
  by rewrite (other_experiments s r (sr_candidates r) exs ps).
Qed.

Lemma wpc_recover_other s n' (I : Workspace -> Prop) (Q : result bool -> Workspace -> Prop) r :
  SameElsewhere s -> n' <> n -> read_settlement_receipt e n' s = Ok (Some r) -> Q (Ok false) s ->
  wpc (recover_receipt ingest e r) I Q s.
Proof.
  intros Hs Hne Hread HQ. rewrite read_elsewhere in Hread by (done || congruence).
  destruct (ot_settled Hothers n' Hne) as [Hn|(r' & p & Hr & Hv & Hf)]; [congruence|].
  assert (r' = r) as -> by congruence. apply read_receipt_ok in Hread as (v & _ & Hd).
  pose proof Hd as Ha. apply decode_accepted in Ha as (d & -> & Ha & He & Hn).
  specialize (He _ eq_refl). specialize (Hn _ eq_refl).
  destruct (finished_committed d r Ha Hf) as (_ & _ & Hu & Hh).
  unfold recover_receipt. rewrite (accepted_to_dict d r Ha), Hn.
  eapply wpc_read_ok.
  { unfold validate_workspace_settlement. rewrite Hd. cbn [result_bind].
    by rewrite (other_valid s r p d) by (done || congruence). }
  rewrite Hu. eapply wpc_ret_ok; [done|]. cbv beta iota. rewrite Hh. eapply wpc_ret_ok; [done|].
  by apply wpc_ret.
Qed.

(** What recovery may do to the hook of a receipt. *)
Definition moved (h h' : PromotionHook) : Prop := h' = h \/ (ph_state h = "pending" /\ h' = given_up h).

(** The round holds a receipt whose hook came from [h]. *)
Definition Recovering (h : PromotionHook) (hooks : list (string * string)) (s : Workspace) : Prop :=
  exists r, holds s r /\ moved h (sr_promotion_hook r) /\ ws_hooks s = hooks.

Definition settled (r : SettlementReceipt) : Prop :=
  is_committed r = true /\ ip_state (sr_index_projection r) <> "pending"
  /\ ph_state (sr_promotion_hook r) <> "pending".

Lemma keeps_recovering h hooks s : Keeps h hooks s -> Recovering h hooks s.
Proof. intros (r & Hh & Hk & Hhooks). exists r. split_and!; [done|by left|done]. Qed.

Lemma says_projection d r : Accepted d r ->
  says (projection_state d) "pending" = false -> ip_state (sr_index_projection r) <> "pending".
Proof. intros Ha. rewrite (projection_state_accepted d r Ha). cbn. apply String.eqb_neq. Qed.

(** The hook is given up once the round is committed and projected. *)
Lemma mark_unknown_ok s r (b : bool) h hooks :
  holds s r -> is_committed r = true -> says (projection_state (sr_json r)) "pending" = false ->
  sr_promotion_hook r = h -> ws_hooks s = hooks ->
  wpc (perform _ <- if says (hook_state (sr_json r)) "pending" then write_receipt_body (mark_unknown (sr_json r))
                    else wop_ret (Ok tt);
       wop_ret (Ok b)) (Recovering h hooks)
    (fun res s' => res = Ok b /\ exists r', holds s' r' /\ moved h (sr_promotion_hook r')
       /\ ws_hooks s' = hooks /\ settled r') s.
Proof.
  intros Hh Hc Hp Hhook Hhooks. pose proof Hh as (Hs & Hr & _). pose proof (advance_accepted r Hr) as Ha.
  rewrite (hook_state_accepted _ _ Ha). cbn [says]. destruct (String.eqb_spec (ph_state (sr_promotion_hook r)) "pending") as [Hpend|Hpend].
  - pose proof (decode_given_up _ _ (av_decodes r Hr) Hpend) as Hd.
    eapply wpc_bind_ok, wpc_store_body; [exact Hd|done|by eapply advance_any, Hd|].
    intros s' Hh' Hk. assert (moved h (given_up (sr_promotion_hook r))) as Hm by (right; split; congruence).
    split; [eexists; split_and!; [exact Hh'|done|congruence]|]. split; [done|].
    apply wpc_ret. split; [done|]. eexists. split_and!; [exact Hh'|done|congruence|].
    split_and!; [done|by apply (says_projection _ _ Ha)|done].
  - eapply wpc_ret_ok; [done|]. apply wpc_ret. split; [done|]. exists r.
    split_and!; [done|by left|done|]. split_and!; [done|by apply (says_projection _ _ Ha)|done].
Qed.

Lemma recover_own s r h hooks :
  holds s r -> sr_promotion_hook r = h -> ws_hooks s = hooks ->
  wpc (recover_receipt ingest e r) (Recovering h hooks)
    (fun res s' => (exists b, res = Ok b) /\ exists r', holds s' r' /\ moved h (sr_promotion_hook r')
       /\ ws_hooks s' = hooks /\ settled r') s.
Proof.
  intros Hh Hhook Hhooks. pose proof Hh as (Hs & Hr & _). unfold recover_receipt.
  rewrite advance_to_dict, (av_round r Hr) by done.
  eapply wpc_read_ok; [by apply own_validate|]. cbn [fst]. rewrite (av_epoch r Hr), (av_round r Hr).
  apply wpc_bind. destruct (unfinished (sr_json r)) eqn:Hu.
  - eapply wpc_bind_ok. eapply wpc_mono; [by apply replay_ok|subst; apply keeps_recovering|].
    intros res s' (-> & (r' & Hh' & Hk & Hks & Hc & Hp) & _). split; [done|].
    eapply wpc_read_ok; [by apply holds_read|]. apply wpc_ret. cbv beta iota.
    rewrite advance_to_dict by apply Hh'.
    eapply wpc_mono; [eapply (mark_unknown_ok s' r' true h hooks); congruence || done|done|].
    intros ? ? [-> ?]. eauto.
  - apply wpc_ret. cbv beta iota. unfold unfinished in Hu. apply orb_false_iff in Hu as [Hst Hp].
    eapply wpc_mono; [eapply (mark_unknown_ok s r false h hooks); try done|done|].
    { apply advance_committed; [done|]. rewrite (ac_state _ _ (advance_accepted r Hr)) in Hst. exact Hst. }
    intros ? ? [-> ?]. eauto.
Qed.

Lemma moved_trans h h' h'' : moved h h' -> moved h' h'' -> moved h h''.
Proof. unfold moved. intros [->|[? ->]] [->|[? ->]]; auto. Qed.

Lemma recover_scan tails k s r h hooks :
  Forall (fun t => exists m, namespace_round t = Ok m) tails ->
  holds s r -> moved h (sr_promotion_hook r) -> ws_hooks s = hooks ->
  wpc (recover_each ingest e ((fun t => (e, namespace_round t)) <$> tails) k) (Recovering h hooks)
    (fun res s' => (exists k', res = Ok k') /\ exists r', holds s' r' /\ moved h (sr_promotion_hook r')
       /\ ws_hooks s' = hooks /\ (pretty n ∈ tails \/ settled r -> settled r')) s.
Proof.
  intros Hns. revert k s r. induction Hns as [|t tails (m & Hm) _ IH]; intros k s r Hh Hmv Hks; cbn [fmap list_fmap recover_each].
  { apply wpc_ret. split; [eauto|]. exists r. split_and!; [done..|]. by intros [?%not_elem_of_nil|]. }
  pose proof Hh as (Hs & Hr & _). eapply wpc_ret_ok; [exact Hm|]. cbn [fst snd].
  destruct (namespace_round_key _ _ Hm) as [_ ->]. destruct (decide (m = n)) as [->|Hne].
  - eapply wpc_read_ok; [by apply holds_read|]. apply wpc_bind.
    eapply wpc_mono; [by apply (recover_own s r (sr_promotion_hook r) (ws_hooks s) Hh)|..].
    { intros s1 (r1 & H1 & H2 & H3). exists r1. split_and!; [done|by eapply moved_trans|congruence]. }
    intros res s1 ((b & ->) & r1 & H1 & H2 & H3 & H4).
    eapply wpc_mono; [apply (IH _ s1 r1 H1); [by eapply moved_trans|congruence]|done|].
    intros ? ? (? & r2 & ? & ? & ? & ?). split; [done|]. exists r2. split_and!; [done..|]. auto.
  - assert (m <> n -> pretty n ∈ pretty m :: tails -> pretty n ∈ tails) as Hin.
    { intros _ [Heq|?]%elem_of_cons; [|done]. by apply (inj pretty) in Heq. }
    destruct (read_settlement_receipt e m s) as [[r1|]|] eqn:E.
    + eapply wpc_read_ok; [exact E|]. eapply wpc_bind_ok, wpc_recover_other; [done|done|exact E|].
      split; [done|]. eapply wpc_mono; [by apply (IH _ s r Hh)|done|].
      intros ? ? (? & r2 & ? & ? & ? & Hst). split; [done|]. exists r2. split_and!; [done..|].
      intros [?|?]; auto.
    + eapply wpc_read_ok; [exact E|]. eapply wpc_mono; [by apply (IH _ s r Hh)|done|].
      intros ? ? (? & r2 & ? & ? & ? & Hst). split; [done|]. exists r2. split_and!; [done..|].
      intros [?|?]; auto.
    + rewrite read_elsewhere in E by (done || congruence).
      by destruct (ot_settled Hothers m Hne) as [?|(? & ? & ? & _)]; congruence.
Qed.

(** Without a receipt, recovery writes nothing. *)
Lemma recover_absent tails k s :
  Forall (fun t => exists m, namespace_round t = Ok m) tails ->
  SameElsewhere s -> stored s = None ->
  wpc (recover_each ingest e ((fun t => (e, namespace_round t)) <$> tails) k) (fun _ => False)
    (fun res s' => (exists k', res = Ok k') /\ s' = s) s.
Proof.
  intros Hns Hs Ht. revert k. induction Hns as [|t tails (m & Hm) _ IH]; intros k; cbn [fmap list_fmap recover_each].
  { apply wpc_ret. eauto. }
  eapply wpc_ret_ok; [exact Hm|]. cbn [fst snd]. destruct (decide (m = n)) as [->|Hne].
  - eapply wpc_read_ok; [unfold read_settlement_receipt, stored in *; by rewrite Ht|]. apply IH.
  - destruct (read_settlement_receipt e m s) as [[r1|]|] eqn:E.
    + eapply wpc_read_ok; [exact E|]. eapply wpc_bind_ok, wpc_recover_other; [done|done|exact E|].
      split; [done|]. apply IH.
    + eapply wpc_read_ok; [exact E|]. apply IH.
    + rewrite read_elsewhere in E by (done || congruence).
      by destruct (ot_settled Hothers m Hne) as [?|(? & ? & ? & _)]; congruence.
Qed.

Lemma recover_unfold s :
  SameElsewhere s ->
  exists tails, Forall (fun t => exists m, namespace_round t = Ok m) tails /\ pretty n ∈ tails
    /\ forall I Q, wpc (recover_each ingest e ((fun t => (e, namespace_round t)) <$> tails) 0) I Q s ->
       wpc (recover_field_settlements ingest e) I Q s.
Proof.
  intros Hs. exists (py_sorted round_namespace_lt (round_dirs ws0 e).*1). split_and!.
  - rewrite py_sorted_perm. apply Hothers.
  - rewrite elem_of_py_sorted. apply list_elem_of_fmap. eexists.
    split; [|exact (dict_get_Some_elem _ _ _ (fr_dir Hfresh))]. done.
  - intros I Q Hw. unfold recover_field_settlements. pose proof (fr_name Hfresh) as Hn.
    assert (String.eqb e "" = false) as ->.
    { unfold epoch_name_ok in Hn. by destruct (String.eqb e ""). }
    eapply wpc_read_ok; [done|]. by rewrite locations_epoch, (se_dirs s Hs).
Qed.

(** *** The recorded round *)

(** The round is on record: committed, its facts those of the intent, and every
    challenger's experiment read with the outcome the round gave it. *)
Definition Recorded (s : Workspace) : Prop :=
  exists r, read_settlement_receipt e n s = Ok (Some r)
    /\ is_committed r = true /\ ip_state (sr_index_projection r) <> "pending"
    /\ immutable_facts r = immutable_facts r0
    /\ forall c, c ∈ sr_candidates r0 ->
         exists ex o, read_experiment e (sc_generation_id c) s = Ok ex
           /\ candidate_outcome c = Ok o /\ exp_outcome ex = Some o.

Lemma candidates_checked c :
  c ∈ sr_candidates r0 ->
  exists ex p, read_experiment e (sc_generation_id c) ws0 = Ok ex /\ check_experiment r0 (c, ex) = Ok p.
Proof.
  pose proof (fr_valid Hfresh) as Hv. unfold validate_accepted in Hv. rewrite (fr_epoch Hfresh) in Hv.
  apply result_bind_ok in Hv as (exs & Hexs & Hv).
  apply result_bind_ok in Hv as (? & _ & (? & _ & (? & _ & (? & _ & Hv)%result_bind_ok)%result_bind_ok)%result_bind_ok).
  unfold validate_settlement_records, validate_settlement_experiments in Hv.
  apply result_bind_ok in Hv as (? & Hv & _). apply if_ok in Hv as [_ Hv].
  apply result_bind_ok in Hv as (ps & Hps & _). revert exs ps Hexs Hps.
  induction (sr_candidates r0) as [|c' cs IH]; [by intros ? ? ? ? ?%not_elem_of_nil|].
  cbn [result_map]. intros exs ps (ex & Hex & (exs1 & Hexs & [= <-])%result_bind_ok)%result_bind_ok.
  cbn [zip zip_with result_map].
  intros (p & Hp & (ps' & Hps & [= <-])%result_bind_ok)%result_bind_ok [->|Hc]%elem_of_cons; [by eauto|].
  by apply (IH exs1 ps').
Qed.

Lemma holds_recorded s r :
  holds s r -> is_committed r = true -> ip_state (sr_index_projection r) <> "pending" -> Recorded s.
Proof.
  intros Hh Hc Hp. pose proof Hh as (_ & Hr & _). exists r. split_and!; [by apply holds_read|done|done| |].
  - unfold immutable_facts. rewrite advance_to_dict, (advance_to_dict r0) by (done || apply fresh_advance).
    rewrite fresh_json. apply Hr.
  - intros c Hin. destruct (candidates_checked c Hin) as (ex & p & Hex & Hcheck).
    destruct (own_experiment s r c ex p) as (ex' & Hex' & _ & Ho); [done..|].
    destruct (Ho Hc) as (o & ? & ?). by exists ex', o.
Qed.

(** *** The hook *)

(** Nothing was announced, or one promotion whose receipt is past [pending]. *)
Definition Calm (s : Workspace) : Prop :=
  SameElsewhere s /\ stored s = None /\ ws_hooks s = ws_hooks ws0
  \/ exists r, holds s r /\ (ws_hooks s = ws_hooks ws0
        \/ (exists x, ws_hooks s = ws_hooks ws0 ++ [x]) /\ ph_state (sr_promotion_hook r) <> "pending").

Lemma recovering_calm h hooks s s' :
  (exists r, holds s r /\ sr_promotion_hook r = h) -> ws_hooks s = hooks ->
  (hooks = ws_hooks ws0 \/ (exists x, hooks = ws_hooks ws0 ++ [x]) /\ ph_state h <> "pending") ->
  Recovering h hooks s' -> Calm s'.
Proof.
  intros _ _ Hhooks (r & Hh & Hm & Hk). right. exists r. split; [done|]. rewrite Hk.
  destruct Hhooks as [?|[? Hp]]; [by left|right]. split; [done|].
  destruct Hm as [->|[? _]]; [done|congruence].
Qed.

Lemma wpc_try {A} (m : Wop A) I (Q : result (result A) -> Workspace -> Prop) s :
  wpc m I (fun r s => Q (Ok r) s) s -> wpc (wop_try m) I Q s.
Proof. unfold wpc, wop_try. by destruct (m s). Qed.

(** One transition of the hook: refused, or stored. *)
Lemma record_ok s r sid st adapter ft (I : Workspace -> Prop) (Q : result unit -> Workspace -> Prop) :
  holds s r -> (forall x, Q (Raise x) s) ->
  (forall r' s', holds s' r' -> ws_hooks s' = ws_hooks s ->
     permitted_transition (ph_state (sr_promotion_hook r)) st = true ->
     ph_state (sr_promotion_hook r') = st -> sr_state r' = sr_state r ->
     sr_index_projection r' = sr_index_projection r -> I s' /\ Q (Ok tt) s') ->
  wpc (record_promotion_hook_delivery e n sid st adapter ft) I Q s.
Proof.
  intros Hh Hx Hk. pose proof Hh as (Hs & Hr & _). unfold record_promotion_hook_delivery.
  eapply wpc_read_ok; [by apply holds_read|]. cbv beta iota zeta. rewrite advance_to_dict by done.
  eapply wpc_read_ok; [by apply own_validate|].
  destruct (negb (says _ _ && _)); [apply wpc_ret, Hx|].
  rewrite (hook_state_accepted _ _ (advance_accepted r Hr)).
  destruct (permitted_transition _ st) eqn:Hperm; [|apply wpc_ret, Hx]. cbn [negb].
  unfold write_receipt_body.
  destruct (decode_settlement_receipt None None (JObj (dict_set (sr_json r) _ _))) as [r'|x] eqn:Hd.
  2:{ apply wpc_bind, wpc_ret, Hx. }
  eapply wpc_ret_ok; [done|]. apply wpc_store; [done|by eapply advance_any, Hd|].
  intros s' Hh' Hhooks. apply decode_accepted in Hd as (d & [= <-] & Ha & _).
  apply (Hk r' s' Hh' Hhooks eq_refl); pose proof (advance_accepted r Hr) as H0.
  - pose proof (hook_state_accepted _ _ Ha) as Hst.
    unfold hook_state in Hst. rewrite get_none_set, decide_True in Hst by done. by injection Hst.
  - pose proof (ac_state _ _ Ha) as Hst. rewrite get_none_set, decide_False, (ac_state _ _ H0) in Hst by done.
    by injection Hst.
  - pose proof (ac_projection _ _ Ha) as Hp. rewrite get_none_set, decide_False, (ac_projection _ _ H0) in Hp by done.
    by injection Hp.
Qed.

Lemma announced_holds s r x :
  holds s r -> holds {| ws_lineage := ws_lineage s; ws_experiments := ws_experiments s;
    ws_patches := ws_patches s; ws_tournaments := ws_tournaments s; ws_rounds := ws_rounds s;
    ws_revisions := ws_revisions s; ws_hooks := ws_hooks s ++ [x] |} r.
Proof. intros (Hs & Hr & Ht). split_and!; [|done|exact Ht]. split; apply Hs. Qed.

Lemma deliver_calm s adapter gid sid outcome :
  Calm s -> wpc (deliver_hook adapter e gid sid n outcome) Calm (fun _ => Calm) s.
Proof.
  intros [(Hs & Ht & Hk)|(r & Hh & Hk)]; unfold deliver_hook.
  - eapply wpc_bind, wpc_try. unfold record_promotion_hook_delivery. apply wpc_bind, wpc_read.
    unfold read_settlement_receipt. unfold stored in Ht. rewrite Ht. cbn [receipt_refusal].
    apply wpc_ret. apply wpc_ret. left. done.
  - assert (Calm s) as Hcalm by (right; by exists r). apply wpc_bind, wpc_try.
    apply (record_ok s r); [done| |].
    { intros x. by apply wpc_ret. }
    intros r1 s1 Hh1 Hk1 Hperm Hst1 _ _.
    assert (ws_hooks s1 = ws_hooks ws0) as Hbase.
    { rewrite Hk1. destruct Hk as [?|[_ Hne]]; [done|]. unfold permitted_transition in Hperm.
      apply orb_true_iff in Hperm as [Hperm|Hperm]; apply andb_true_iff in Hperm as [Hcur Hperm]; [|done].
      by apply String.eqb_eq in Hcur. }
    split; [right; exists r1; auto|]. eapply wpc_bind_ok, wpc_write.
    { right. exists r1. split; [by apply announced_holds|]. right. cbn. rewrite Hbase, Hst1. eauto. }
    split; [done|]. cbv zeta. apply wpc_bind, wpc_try. eapply record_ok; [by apply announced_holds|..].
    + intros x. destruct outcome; cbn; apply wpc_ret; right; exists r1;
        (split; [by apply announced_holds|]); right; cbn; rewrite Hbase, Hst1; eauto.
    + intros r2 s2 Hh2 Hk2 _ Hst2 _ _. cbn in Hk2. assert (Calm s2) as Hc2.
      { right. exists r2. split; [done|]. right. rewrite Hk2, Hbase, Hst2. split; [eauto|]. by destruct outcome. }
      split; [done|]. by destruct outcome; apply wpc_ret.
Qed.

(** The round is committed and its index projected: the hook does not change that. *)
Definition Projected (s : Workspace) : Prop :=
  exists r, holds s r /\ is_committed r = true /\ ip_state (sr_index_projection r) <> "pending".

Lemma deliver_projected s adapter gid sid outcome :
  Projected s ->
  wpc (deliver_hook adapter e gid sid n outcome) Projected
    (fun res s' => (exists failure, res = Ok failure) /\ Projected s') s.
Proof.
  assert (forall r r', sr_state r' = sr_state r -> is_committed r = true -> is_committed r' = true) as Hsame.
  { intros r r' Heq. unfold is_committed. by rewrite Heq. }
  intros (r & Hh & Hc & Hp). unfold deliver_hook. apply wpc_bind, wpc_try. apply (record_ok s r); [done| |].
  { intros x. apply wpc_ret. split; [eauto|by exists r]. }
  intros r1 s1 Hh1 _ _ _ Hst Hip. assert (is_committed r1 = true) as Hc1 by eauto.
  split; [exists r1; split_and!; congruence || done|]. eapply wpc_bind_ok, wpc_write.
  { exists r1. split_and!; [by apply announced_holds|done|congruence]. }
  split; [done|]. cbv zeta. apply wpc_bind, wpc_try. eapply record_ok; [by apply announced_holds|..].
  - intros x. destruct outcome; cbn; apply wpc_ret; (split; [eauto|]); exists r1;
      (split_and!; [by apply announced_holds|done|congruence]).
  - intros r2 s2 Hh2 _ _ _ Hst2 Hip2. assert (Projected s2) as HP
      by (exists r2; split_and!; [done|eauto|congruence]).
    split; [done|]. by destruct outcome; apply wpc_ret; split; eauto.
Qed.

(** *** Histories *)

(** The states a history of the round passes through: the commit of the intent, then any
    number of recoveries and deliveries of the hook, each run to its end or stopped after
    one of its writes. *)
Inductive Reach : Workspace -> Prop :=
| reach_start : Reach ws0
| reach_commit s : s ∈ (commit_field_settlement ingest d0 ws0).1 -> Reach s
| reach_recover s s' : Reach s -> s' ∈ (recover_field_settlements ingest e s).1 -> Reach s'
| reach_deliver s s' adapter gid sid outcome :
    Reach s -> s' ∈ (deliver_hook adapter e gid sid n outcome s).1 -> Reach s'.

Lemma recover_calm s :
  Calm s ->
  wpc (recover_field_settlements ingest e) Calm
    (fun res s' => (exists k, res = Ok k) /\ (stored s = None /\ s' = s
       \/ exists r, holds s' r /\ settled r)) s.
Proof.
  intros [(Hs & Ht & Hk)|(r & Hh & Hk)].
  - destruct (recover_unfold s Hs) as (tails & Hns & _ & Hw). apply Hw.
    eapply wpc_mono; [by apply recover_absent|done|]. intros res s' [? ->]. auto.
  - pose proof Hh as (Hs & _ & _). destruct (recover_unfold s Hs) as (tails & Hns & Hin & Hw). apply Hw.
    eapply wpc_mono; [eapply (recover_scan tails 0 s r (sr_promotion_hook r) (ws_hooks s)); try done; by left|..].
    + intros s'. apply (recovering_calm _ _ s); [by exists r|done|exact Hk].
    + intros res s' (? & r' & ? & _ & _ & Hst). split; [done|]. right. exists r'. auto.
Qed.

Lemma reach_calm s : Reach s -> Calm s.
Proof.
  induction 1 as [|s Hs|s s' _ IH Hs|s s' adapter gid sid outcome _ IH Hs].
  - left. split_and!; [apply same_start|apply fr_absent|done].
  - destruct (wpc_states _ _ _ _ _ commit_ok Hs) as (r & Hh & _ & Hk). right. exists r. auto.
  - exact (wpc_states _ _ _ _ _ (recover_calm s IH) Hs).
  - exact (wpc_states _ _ _ _ _ (deliver_calm s adapter gid sid outcome IH) Hs).
Qed.

Lemma projected_recorded s : Projected s -> Recorded s.
Proof. intros (r & ? & ? & ?). by apply (holds_recorded s r). Qed.

Lemma commit_projected :
  wpc (commit_field_settlement ingest d0) (Keeps (sr_promotion_hook r0) (ws_hooks ws0))
    (fun res s => res = Ok tt /\ Projected s) ws0.
Proof.
  eapply wpc_mono; [apply commit_ok|done|]. intros res s (-> & (r & Hh & _ & _ & Hc & Hp) & _).
  split; [done|]. exists r. split_and!; [done|done|]. apply (says_projection (sr_json r)); [|done].
  apply advance_accepted, Hh.
Qed.

Lemma commit_recorded :
  (commit_field_settlement ingest d0 ws0).2 = Ok tt
  /\ Recorded (final_ws ws0 (commit_field_settlement ingest d0 ws0).1).
Proof.
  destruct commit_projected as [_ [Hr Hp]]. split; [done|]. by apply projected_recorded.
Qed.

Lemma commit_refreshed :
  ip_state (sr_index_projection r0) = "pending" ->
  Refreshed r0 (final_ws ws0 (commit_field_settlement ingest d0 ws0).1).
Proof.
  intros Hp. destruct commit_ok as [_ (_ & _ & Hr)]. apply Hr.
  pose proof (advance_accepted r0 fresh_advance) as Ha. rewrite fresh_json in Ha.
  rewrite (projection_state_accepted _ _ Ha). cbn. by rewrite Hp.
Qed.

Lemma commit_elsewhere s :
  s ∈ (commit_field_settlement ingest d0 ws0).1 -> SameElsewhere s /\ ws_hooks s = ws_hooks ws0.
Proof. intros Hs. by destruct (wpc_states _ _ _ _ _ commit_ok Hs) as (r & (? & _) & _ & ?). Qed.

Lemma reach_recovers s :
  Reach s ->
  exists k, (recover_field_settlements ingest e s).2 = Ok k
  /\ let s' := final_ws s (recover_field_settlements ingest e s).1 in
     (read_settlement_receipt e n s = Ok None /\ s' = s) \/ Recorded s'.
Proof.
  intros Hs. destruct (recover_calm s (reach_calm s Hs)) as [_ [[k Hk] Hend]]. exists k. split; [done|].
  cbv zeta. destruct Hend as [[Ht Heq]|(r & Hh & Hc & Hp & _)].
  - left. split; [|done]. unfold read_settlement_receipt, stored in *. by rewrite Ht.
  - right. by apply (holds_recorded _ r).
Qed.
End Round.
