(* ===== verification/SettlementSpec.v ===== *)
(** Theorems about the settlement of a round: the durable commit of its receipt, every
    crash of it and the recovery that follows; the promotion hook; and the agreement of
    what is recorded with the verdict. *)
From S2P Require Import Prelude PyFloat PyText PyJson CoreTypes Board Governance GovernanceSpec Params Records Configuration Journal Lineage Strategy FieldRecord Receipt ReceiptSpec JournalSpec Control ControlSpec Containment Verdict VerdictSpec Settlement ReceiptScans ReplaySpec.

(** ** From the verdict to the receipt *)

Section Built.
Context `{PyRepr} `{PyConv} `{PyFloatParse}.

(** The outcome of each challenger, in the order of the field. *)
Lemma built_candidates now rd f x v s :
  _build_field_settlement now rd f x v = Ok s ->
  (cs_challenger <$> rs_candidates s) = af_challengers f
  /\ rs_decision s = fv_effective_decision v /\ rs_primary s = fv_promoted_id v
  /\ forall c, c ∈ rs_candidates s ->
       metric_movements (cs_outcome c) = []
       /\ tournament_decision (cs_outcome c) = Some (candidate_decision v (ac_generation_id (cs_challenger c)))
       /\ rejection_reason (cs_outcome c)
          = candidate_rejection_reason v (fe_decision x) (ac_generation_id (cs_challenger c)).
Proof.
  unfold _build_field_settlement. cbv zeta. intros (cs & Hcs & [= <-])%result_bind_ok. cbn.
  apply result_map_ok in Hcs. split_and!; try done.
  - induction Hcs as [|c cs' l l' Hc _ IH]; [done|]. cbn. f_equal; [|done].
    unfold settle_candidate in Hc. cbv zeta in Hc. apply result_bind_ok in Hc as (? & _ & [= <-]). done.
  - induction Hcs as [|c cs' l l' Hc _ IH]; [by intros ? ?%not_elem_of_nil|]. intros c' [->|Hin]%elem_of_cons; [|auto].
    unfold settle_candidate in Hc. cbv zeta in Hc. apply result_bind_ok in Hc as (? & _ & [= <-]). done.
Qed.

(** A candidate of the receipt before it is written, and the settlement it encodes. *)
Definition encodes (c : SettlementCandidate) (cs : CandidateSettlement) : Prop :=
  sc_generation_id c = ac_generation_id (cs_challenger cs)
  /\ sc_outcome_json c = JObj (outcome_body (cs_outcome cs))
  /\ json_finite (JObj (outcome_body (cs_outcome cs))) = true.

Lemma candidate_records rd x cs records :
  result_map (candidate_record rd x) cs = Ok records ->
  Forall2 (fun c r => encodes r c /\ candidate_to_dict r = candidate_fields r) cs records.
Proof.
  intros Hm%result_map_ok. eapply Forall2_impl; [exact Hm|]. intros c r Hr. unfold candidate_record in Hr.
  apply result_bind_ok in Hr as (ps & _ & (ch & _ & Hr)%result_bind_ok).
  unfold candidate_from_outcome in Hr. apply result_bind_ok in Hr as (enc & Henc & [= <-]).
  apply detach_ok in Henc as [-> Hf]. by split.
Qed.

Lemma receipt_body_candidates sid e n primary records field hook r :
  new_settlement_receipt sid e n primary records field hook = Ok r ->
  get_none (receipt_to_dict r) "candidates" = JArr ((fun c => JObj (candidate_to_dict c)) <$> records).
Proof.
  unfold new_settlement_receipt. intros (d & [= <-] & Ha & _)%decode_accepted.
  by rewrite (accepted_to_dict _ _ Ha).
Qed.

Lemma same_bodies (cs : list (SettlementCandidate * OutcomeRecord)) records :
  (fun c => JObj (candidate_to_dict c.1)) <$> cs = (fun c => JObj (candidate_to_dict c)) <$> records ->
  Forall2 (fun c r => candidate_to_dict c.1 = candidate_to_dict r) cs records.
Proof.
  revert records. induction cs as [|c cs IH]; intros [|r records]; try done.
  cbn. intros [= Hc Hcs]. by constructor; auto.
Qed.

(** The receipt that was accepted carries the outcomes of the settlement, in its order. *)
Lemma receipt_outcomes now sid hook rd f x rounds v s d0 r0 :
  _field_settlement_receipt now sid hook rd f x rounds v s = Ok d0 ->
  decode_settlement_receipt None None (JObj d0) = Ok r0 ->
  (forall c, c ∈ rs_candidates s -> metric_movements (cs_outcome c) = []) ->
  Forall2 (fun c cs => sc_generation_id c = ac_generation_id (cs_challenger cs)
             /\ candidate_outcome c = Ok (cs_outcome cs)) (sr_candidates r0) (rs_candidates s).
Proof.
  unfold _field_settlement_receipt. intros Hd Hr0 Hmoves.
  apply result_bind_ok in Hd as (records & Hrecords & (field & _ & (r & Hr & [= <-])%result_bind_ok)%result_bind_ok).
  apply candidate_records in Hrecords. apply receipt_body_candidates in Hr.
  apply decode_accepted in Hr0 as (d & [= <-] & Ha & _).
  destruct (ac_candidates _ _ Ha) as (g & raws & Hraws & (Hg & _ & Hf) & _ & <-).
  rewrite get_none_set, decide_False, Hr in Hraws by done. injection Hraws as Hraws. rewrite <-Hg in Hraws.
  symmetry in Hraws. apply same_bodies in Hraws. clear Hg Hr Ha.
  revert records Hrecords Hraws Hmoves. generalize (rs_candidates s) as css.
  induction (ga_candidates g) as [|c cs IH]; intros css records Hrec Hb Hmoves.
  { inversion Hb; subst. inversion Hrec; subst. constructor. }
  inversion Hb; subst. inversion Hrec; subst.
  apply Forall_cons in Hf as [(Hout & _ & Hget & Hgid) Hf].
  match goal with E : encodes _ _ /\ _ |- _ => destruct E as [(Hi & Hj & Hfin) Hfields] end.
  constructor; [|eapply IH; eauto; set_solver]. cbn [fst].
  match goal with E : candidate_to_dict c.1 = _ |- _ => rewrite E, Hfields in Hget, Hgid end.
  match type of Hget with get_none (candidate_fields ?y) _ = _ =>
    change (sc_outcome_json y = sc_outcome_json c.1) in Hget;
    change (JStr (sc_generation_id y) = JStr (sc_generation_id c.1)) in Hgid end.
  split; [congruence|]. unfold candidate_outcome. rewrite <-Hget, Hj.
  apply outcome_inverse. unfold outcome_sound. rewrite Hfin, Hmoves; [done|set_solver].
Qed.
End Built.

(** ** Theorems *)

Section Crowning.
Context `{PyFormat} `{PyRepr} `{PyConv} `{PyFloatParse} (clock : nat -> string)
  (control_root now : string) (json_loads : string -> option Json).
Context (w : ScoringWeights) (trees : list string) (candidates : CandidateField).

(** C16.  The settlement of a verdict never trips its own invariant: whatever the holdout, the
    integrity checks and the operator decided, the decision that is settled promotes
    exactly when there is a primary champion, names that champion, and the champion is a
    challenger that was applied this round. *)
Theorem crowning_always_agrees parent confirm_fn d st rt stamp v at_time rd f x s :
  coherent d -> wf rt -> Forall (fun g => g <> "") (cf_challenger_ids candidates) ->
  (forall i, String.length (clock i) = stamp) ->
  (forall g child, dict_get (cf_by_id candidates) g = Some child -> g ∈ cf_challenger_ids candidates) ->
  field_ids f = cf_challenger_ids candidates ->
  vr_verdict (resolve_field_verdict clock control_root now json_loads w trees parent candidates
                confirm_fn d st rt) = Ok v ->
  _build_field_settlement at_time rd f x v = Ok s ->
  _assert_crowning_agrees s f = Ok tt.
Proof.
  intros Hd Hw Hne Hstamp Hfield Hids Hv (_ & Hsd & Hsp & _)%built_candidates.
  destruct (verdict_coherent clock control_root now json_loads w trees candidates parent confirm_fn d st rt v Hd Hv)
    as (Hc & Hp & Hhead & _).
  pose proof (promoted_in_field clock control_root now json_loads w trees candidates parent confirm_fn d st rt
                stamp v Hw Hne Hstamp Hfield Hv) as Hin.
  unfold _assert_crowning_agrees. rewrite Hsd, Hsp, Hp, Hids. unfold coherent in Hc. rewrite Hp in Hc.
  destruct (fv_promoted_id v) as [p|].
  - assert (p ∈ cf_challenger_ids candidates) as Hp' by auto.
    rewrite Forall_forall in Hne. specialize (Hne p Hp'). rewrite (proj2 Hc) by done.
    unfold or_none. destruct (String.eqb_spec p ""); [done|].
    cbn [promoted]. rewrite !bool_decide_true by done. done.
  - destruct (sd_decision (fv_effective_decision v)); try done. by destruct (proj1 Hc eq_refl).
Qed.
End Crowning.


Section Theorems.
Context `{PyRepr}.

(** C38.  The commit of a valid, fresh intent always ends with the round on record: the
    receipt is stored as committed, its facts are those of the intent, and every
    challenger's experiment reads back with the outcome the round gave it.  The refresh of
    the index, when it is pending, runs once the receipt is committed, and its result goes
    on record too: succeeded, or to be repaired with the class of the exception; either way
    the commit is good.  No state on the way touches anything but the round's own receipt:
    the experiments, patches, lineage and tournament records stay as they were, and no
    promotion is announced. *)
Theorem commit_records_round ingest ws0 e n d0 r0 parent :
  Fresh ws0 e n d0 r0 parent -> (forall ws r, ingest ws r <> Some "") ->
  let run := commit_field_settlement ingest d0 ws0 in
  run.2 = Ok tt
  /\ Recorded e n r0 (final_ws ws0 run.1)
  /\ (ip_state (sr_index_projection r0) = "pending" -> Refreshed ws0 e n ingest r0 (final_ws ws0 run.1))
  /\ forall s, s ∈ run.1 -> SameElsewhere ws0 e n s /\ ws_hooks s = ws_hooks ws0.
Proof.
  intros Hf Hi run. destruct (commit_recorded ws0 e n d0 r0 parent Hf ingest Hi) as [Hr Hrec].
  split_and!; [done|done| |].
  - by apply (commit_refreshed ws0 e n d0 r0 parent).
  - intros s. by apply (commit_elsewhere ws0 e n d0 r0 parent).
Qed.

(** C4.  From every state a history of the round reaches, crashes of the commit, of recoveries
    and of deliveries included, recovery completes; and then either the receipt was never
    written and the workspace stays as it is, or the whole round is on record with the
    facts of the intent. *)
Theorem recovery_all_or_nothing ingest ws0 e n d0 r0 parent s :
  Fresh ws0 e n d0 r0 parent -> Others ws0 e n -> (forall ws r, ingest ws r <> Some "") ->
  Reach ws0 e n d0 ingest s ->
  exists k, (recover_field_settlements ingest e s).2 = Ok k
  /\ let s' := final_ws s (recover_field_settlements ingest e s).1 in
     (read_settlement_receipt e n s = Ok None /\ s' = s) \/ Recorded e n r0 s'.
Proof. intros Hf Ho Hi Hr. by apply reach_recovers with (ws0 := ws0) (d0 := d0) (parent := parent). Qed.

(** C15.  Over any history of a round the adapter is told of at most one promotion. *)
Theorem promotion_announced_once ingest ws0 e n d0 r0 parent s :
  Fresh ws0 e n d0 r0 parent -> Others ws0 e n -> (forall ws r, ingest ws r <> Some "") ->
  Reach ws0 e n d0 ingest s ->
  ws_hooks s = ws_hooks ws0 \/ exists x, ws_hooks s = ws_hooks ws0 ++ [x].
Proof.
  intros Hf Ho Hi Hr.
  destruct (reach_calm ws0 e n d0 r0 parent Hf ingest Hi Ho s Hr) as [(_ & _ & ?)|(r & _ & [?|[? _]])]; auto.
Qed.

(** C3.  What the verdict decided is what the store says from then on.  Once the settlement of
    a round is committed and its hook delivered (or refused), every challenger of the field
    has an experiment that reads back with the outcome the settlement gave it: promoted
    exactly when the verdict promotes it, deferred or rejected otherwise, with the reason. *)
Theorem settlement_reads_back `{PyConv} `{PyFloatParse} ingest ws0 now sid hook outcome rd f x rounds v s d0 r0 parent :
  _build_field_settlement now rd f x v = Ok s -> _assert_crowning_agrees s f = Ok tt ->
  _field_settlement_receipt (now "") sid hook rd f x rounds v s = Ok d0 ->
  Fresh ws0 (rd_epoch_id rd) (rd_round_index rd) d0 r0 parent ->
  (forall ws r, ingest ws r <> Some "") ->
  let run := settle_field_round ingest now sid hook outcome rd f x rounds v ws0 in
  (exists failure, run.2 = Ok (round_outcome rd f x v s, failure))
  /\ forall c, c ∈ af_challengers f -> exists ex o,
       read_experiment (rd_epoch_id rd) (ac_generation_id c) (final_ws ws0 run.1) = Ok ex
       /\ exp_outcome ex = Some o
       /\ tournament_decision o = Some (candidate_decision v (ac_generation_id c))
       /\ rejection_reason o = candidate_rejection_reason v (fe_decision x) (ac_generation_id c).
Proof.
  intros Hs Hagree Hd Hf Hi run. pose proof (built_candidates _ _ _ _ _ _ Hs) as (Hch & _ & _ & Hout).
  pose proof (receipt_outcomes _ _ _ _ _ _ _ _ _ _ _ Hd (fr_decodes _ _ _ _ _ _ Hf)
                (fun c Hc => proj1 (Hout c Hc))) as Hrec.
  assert (wpc (settle_field_round ingest now sid hook outcome rd f x rounds v) (fun _ => True)
            (fun res s' => (exists failure, res = Ok (round_outcome rd f x v s, failure))
               /\ Projected ws0 (rd_epoch_id rd) (rd_round_index rd) d0 r0 s') ws0) as [_ [Hres HP]].
  { unfold settle_field_round. eapply wpc_ret_ok; [exact Hs|]. apply wpc_bind.
    unfold _commit_field_settlement. eapply wpc_ret_ok; [exact Hagree|]. eapply wpc_ret_ok; [exact Hd|].
    eapply wpc_bind_ok, wpc_mono; [eapply commit_projected; [exact Hf|exact Hi]|done|].
    intros res s' [-> HP]. split; [done|].
    destruct (rs_primary s) as [gid|]; [|by apply wpc_ret, wpc_ret; eauto].
    destruct hook as [adapter|]; [|by apply wpc_ret, wpc_ret; eauto].
    eapply wpc_mono; [by eapply deliver_projected|done|].
    intros res s1 [(failure & ->) HP1]. apply wpc_ret. eauto. }
  split; [done|]. intros c Hc. rewrite <-Hch in Hc. apply list_elem_of_fmap in Hc as (cs & -> & Hcs).
  apply (projected_recorded ws0 _ _ _ _ _ Hf) in HP as (r & _ & _ & _ & _ & Hread).
  apply list_elem_of_lookup in Hcs as Hlook. destruct Hlook as (i & Hi').
  destruct (Forall2_lookup_r _ _ _ _ _ Hrec Hi') as (sc & Hsc & Hgid & Ho).
  destruct (Hread sc) as (ex & o & Hex & Ho' & Hexo); [by eapply list_elem_of_lookup_2|].
  destruct (Hout cs Hcs) as (_ & Hdec & Hreason).
  exists ex, o. rewrite Hgid in Hex. assert (o = cs_outcome cs) as -> by congruence. done.
Qed.

(** C39.  A receipt the decoder accepts writes back exactly the object it was read from. *)
Theorem receipt_lossless e n v r :
  decode_settlement_receipt e n v = Ok r -> JObj (receipt_to_dict r) = v.
Proof. intros (d & -> & Ha & _)%decode_accepted. by rewrite (accepted_to_dict d r Ha). Qed.
End Theorems.

(** ** A concrete round

    The verdict of [VerdictWitness]: the gate crowns [v1], and an operator promotes [v2]
    as well. *)
Module SettlementWitness.
#[local] Existing Instance plain_format.
#[local] Existing Instance plain_repr.
#[local] Existing Instance plain_conv.
#[local] Existing Instance no_float_text.
Import VerdictWitness(verdict, directory, candidates, crowning).

Definition sid : string := "0123456789abcdef0123456789abcdef".

Definition experiment_of (gid : string) : Experiment := {|
  experiment_id := "exp-" +:+ gid; exp_epoch_id := "epoch-1"; exp_generation_id := gid;
  parent_generation_id := Some "v0"; proposed_at := "t1";
  hypothesis := {| core_idea := "idea"; modulating := ["prompt"]; why := "because";
                   expected_pass_rate_delta := "+1"; risks := ""; expected_metric_movements := [] |};
  patches := [{| patch_id := "p-" +:+ gid; mutation_id := "prompt"; patch_op := op_replace;
                 new_content := Some "text"; new_numeric := None; new_enum := None;
                 rationale := "try it" |}];
  exp_outcome := None; round_index := 1; recombined_from := [] |}.

Definition generation_of (gid : string) (birth : option Z) : Generation := {|
  gn_id := gid; gn_promoted := true; gn_created_at := "t1"; gn_round_index := birth |}.

Definition after {A} (m : Wop A) (ws : Workspace) : Workspace := final_ws ws (m ws).1.

(** The store when the round is settled: its directory, the ancestry and the experiments. *)
Definition store : Workspace :=
  let ws := {| ws_lineage := None; ws_experiments := []; ws_patches := []; ws_tournaments := [];
               ws_rounds := [("epoch-1", [("1", None)])]; ws_revisions := []; ws_hooks := [] |} in
  let ws := after (register_epoch "epoch-1" "first" "t0" "" None) ws in
  let ws := after (append_to_lineage "epoch-1" (generation_of "v0" None) None false "" None None) ws in
  let ws := after (append_to_lineage "epoch-1" (generation_of "v1" (Some 1%Z)) (Some "v0") true "" None None) ws in
  let ws := after (append_to_lineage "epoch-1" (generation_of "v2" (Some 1%Z)) (Some "v0") true "" None None) ws in
  let ws := after (write_experiment "epoch-1" "v1" (experiment_of "v1")) ws in
  after (write_experiment "epoch-1" "v2" (experiment_of "v2")) ws.

Definition rd : RoundSpec := {|
  rd_epoch_id := "epoch-1"; rd_round_index := 1; rd_parent_id := "v0"; rd_structure := "gauntlet";
  rd_structure_params := [] |}.

Definition applied (gid : string) : AppliedChallenger := {|
  ac_generation_id := gid; ac_experiment_id := "exp-" +:+ gid; ac_created_at := "t1" |}.

Definition field : AppliedField := {|
  af_challengers := [applied "v1"; applied "v2"];
  af_competitors := [{| cp_generation_id := "v0"; cp_seed := 0; cp_role := role_champion |};
                     {| cp_generation_id := "v1"; cp_seed := 1; cp_role := role_challenger |};
                     {| cp_generation_id := "v2"; cp_seed := 2; cp_role := role_challenger |}];
  af_field_status := []; af_first_challenger_id := "v1" |}.

Definition execution : FieldExecution := {|
  fe_decision := crowning; fe_gate_evidence := None; fe_raw_results := [];
  fe_champion_eval_mode := "full" |}.

Definition now (_ : string) : string := "t2".
Definition no_ingest (_ : Workspace) (_ : SettlementReceipt) : option string := Some "OSError".

Definition settlement : RoundSettlement :=
  match _build_field_settlement now rd field execution (verdict directory) with
  | Ok s => s
  | Raise _ => {| rs_decision := crowning; rs_primary := None; rs_promoted_ids := [];
                  rs_candidates := []; rs_champion_scalar := f0; rs_crowned_scalar := f0 |}
  end.

Definition intent : list (string * Json) :=
  match _field_settlement_receipt "t2" sid (Some "adapter") rd field execution [] (verdict directory)
          settlement with
  | Ok d => d
  | Raise _ => []
  end.

Definition receipt : SettlementReceipt :=
  match decode_settlement_receipt None None (JObj intent) with
  | Ok r => r
  | Raise _ => {| sr_epoch_id := ""; sr_round_index := 0; sr_settlement_id := ""; sr_state := "";
                  sr_primary_id := None; sr_candidates := []; 
                  sr_promotion_hook := {| ph_state := ""; ph_adapter_name := ""; ph_failure_type := "" |};
                  sr_index_projection := {| ip_state := ""; ip_error_type := "" |}; sr_json := [] |}
  end.

Lemma fresh : Fresh store "epoch-1" 1 intent receipt "v0".
Proof. split; vm_compute; reflexivity. Qed.

Lemma others : Others store "epoch-1" 1.
Proof.
  split.
  - assert ((round_dirs store "epoch-1").*1 = ["1"]) as -> by (vm_compute; reflexivity).
    repeat constructor. exists 1%Z. vm_compute. reflexivity.
  - intros n' Hn. left. unfold read_settlement_receipt, receipt_text.
    assert (round_dirs store "epoch-1" = [("1", None)]) as -> by (vm_compute; reflexivity).
    cbn [dict_get]. case_decide as Heq; [|done]. change "1" with (pretty 1%Z) in Heq.
    by apply (inj pretty) in Heq.
Qed.

Lemma crowning_always_agrees_witness :
  _assert_crowning_agrees settlement field = Ok tt.
Proof.
  refine (crowning_always_agrees (fun _ => "2026-05-01T10:00:00Z") "/w" "now" (fun _ => None)
            GovernanceWitness.weights ["src"] candidates "v0"
            (holdout_confirm "epoch" "epoch-1" VerdictWitness.board GovernanceWitness.weights
               VerdictWitness.run_holdout (GovernanceWitness.id_a, GovernanceWitness.id_b))
            crowning empty_store directory 20 (verdict directory) now rd field execution settlement
            _ VerdictWitness.wf_runtime _ (fun _ => eq_refl) _ eq_refl _ _).
  - done.
  - by repeat constructor.
  - intros g child Hg%dict_get_Some_elem. cbn in Hg. set_solver.
  - vm_compute. reflexivity.
  - vm_compute. reflexivity.
Defined.

Lemma settlement_reads_back_witness :
  let run := settle_field_round no_ingest now sid (Some "adapter") None rd field execution []
               (verdict directory) store in
  exists ex o, read_experiment "epoch-1" "v2" (final_ws store run.1) = Ok ex
    /\ exp_outcome ex = Some o /\ tournament_decision o = Some PROMOTED
    /\ rejection_reason o = "".
Proof.
  refine (proj2 (settlement_reads_back no_ingest store now sid (Some "adapter") None rd field execution []
            (verdict directory) settlement intent receipt "v0" _ _ _ fresh _) (applied "v2") _).
  - vm_compute. reflexivity.
  - vm_compute. reflexivity.
  - vm_compute. reflexivity.
  - done.
  - right. left.
Defined.

Lemma commit_records_round_witness :
  let run := commit_field_settlement no_ingest intent store in
  Recorded "epoch-1" 1 receipt (final_ws store run.1)
  /\ Refreshed store "epoch-1" 1 no_ingest receipt (final_ws store run.1)
  /\ forall s, s ∈ run.1 -> ws_experiments s = ws_experiments store.
Proof.
  destruct (commit_records_round no_ingest store "epoch-1" 1 intent receipt "v0" fresh
              (fun _ _ H => ltac:(discriminate H))) as (_ & Hr & Hi & Hs).
  split; [exact Hr|]. split; [apply Hi; vm_compute; reflexivity|].
  intros s Hin. exact (se_experiments _ _ _ _ (proj1 (Hs s Hin))).
Defined.

(** The process dies right after the receipt is written, before its commit. *)
Definition crashed : Workspace := hd store (commit_field_settlement no_ingest intent store).1.

Lemma crashed_reached : Reach store "epoch-1" 1 intent no_ingest crashed.
Proof.
  apply reach_commit. apply (list_elem_of_lookup_2 _ 0). unfold crashed.
  assert ((commit_field_settlement no_ingest intent store).1 !! 0
          = Some (hd store (commit_field_settlement no_ingest intent store).1)) as ->; [|done].
  vm_compute. reflexivity.
Qed.

Lemma recovery_all_or_nothing_witness :
  exists k, (recover_field_settlements no_ingest "epoch-1" crashed).2 = Ok k
  /\ let s' := final_ws crashed (recover_field_settlements no_ingest "epoch-1" crashed).1 in
     (read_settlement_receipt "epoch-1" 1 crashed = Ok None /\ s' = crashed)
     \/ Recorded "epoch-1" 1 receipt s'.
Proof.
  exact (recovery_all_or_nothing no_ingest store "epoch-1" 1 intent receipt "v0" crashed fresh others
           (fun _ _ H => ltac:(discriminate H)) crashed_reached).
Defined.

(** After the recovery the hook was given up: a delivery announces nothing. *)
Definition delivered : Workspace :=
  let ws := after (commit_field_settlement no_ingest intent) store in
  after (deliver_hook "adapter" "epoch-1" "v1" sid 1 None) ws.

Example delivered_once : ws_hooks delivered = [("epoch-1", "v1")].
Proof. vm_compute. reflexivity. Qed.

Lemma last_elem {A} (l : list A) (d : A) : l <> [] -> List.last l d ∈ l.
Proof.
  intros Hl. destruct (exists_last Hl) as (l' & x & ->). rewrite List.last_last. set_solver.
Qed.

Lemma delivered_reached : Reach store "epoch-1" 1 intent no_ingest delivered.
Proof.
  unfold delivered. eapply reach_deliver; [apply reach_commit|]; unfold after, final_ws; apply last_elem;
    vm_compute; discriminate.
Qed.

Lemma promotion_announced_once_witness :
  ws_hooks delivered = ws_hooks store \/ exists x, ws_hooks delivered = ws_hooks store ++ [x].
Proof.
  exact (promotion_announced_once no_ingest store "epoch-1" 1 intent receipt "v0" delivered fresh others
           (fun _ _ H => ltac:(discriminate H)) delivered_reached).
Defined.

Lemma receipt_lossless_witness : JObj (receipt_to_dict receipt) = JObj intent.
Proof.
  refine (receipt_lossless None None (JObj intent) receipt _). vm_compute. reflexivity.
Defined.
End SettlementWitness.
