(* ===== verification/RoundLog.v ===== *)
(** The round log, [src/zicato/epoch/round_log.py]: the typed events of a round, their
    append-only file, and the fold that summarises it.
    A file is its text ([None] when absent), and text is ASCII, which is what
    [json.dumps] writes.  The JSON codec and the clock are handed in.  An event's
    fields have the types the module declares; a payload with values of other types,
    which Python carries along unchecked, decodes to [Loose] and the fold of a log that
    has one is not modelled. *)
From S2P Require Import Prelude PyFloat PyText PyLines PyJson Records.

(** ** Events *)

Inductive RoundEvent :=
  | RoundOpened (contract_hash : string)
  | ProposalAttempted (errors : list string) (slot_index : option Z)
  | ProposalEpisodeSettled (kind code message : string)
  | CandidateSampled (i n : Z) (revise recombined : bool)
  | CandidateScreened (index : Z) (vetoed confirmed : bool)
      (screen_summary : list (string * Json)) (revise : bool)
  | CritiqueSelected (index : Z) (why : string) (slate : list (list (string * Json)))
      (rationale : string)
  | ExperimentMinted (experiment_id : string)
  | PatchesApplied (generation_id : string)
  | HarnessLoaded (generation_id entrypoint_file : string)
      (trees_verified trees_never_imported : list string)
  | ValidationFailed (findings : list string)
  | UnitCompleted (entry_id side : string)
  | GateEvaluated (rule_fired decision : string)
      (champion_scalar challenger_scalar margin_required : option float)
      (attributable_regressions : list string)
  | HoldoutReleased (confirmed : bool)
  | EvidenceReplicated (ci_state : list (string * Json))
  | DecisionRecorded (decision : string) (provenance : list (string * Json))
  | FrontierUpdated (admitted retired : list string) (size : Z)
  | RoundClosed.

(** [type(event).TYPE] *)
Definition event_type (e : RoundEvent) : string :=
  match e with
  | RoundOpened _ => "round_opened"
  | ProposalAttempted _ _ => "proposal_attempted"
  | ProposalEpisodeSettled _ _ _ => "proposal_episode_settled"
  | CandidateSampled _ _ _ _ => "candidate_sampled"
  | CandidateScreened _ _ _ _ _ => "candidate_screened"
  | CritiqueSelected _ _ _ _ => "critique_selected"
  | ExperimentMinted _ => "experiment_minted"
  | PatchesApplied _ => "patches_applied"
  | HarnessLoaded _ _ _ _ => "harness_loaded"
  | ValidationFailed _ => "validation_failed"
  | UnitCompleted _ _ => "unit_completed"
  | GateEvaluated _ _ _ _ _ _ => "gate_evaluated"
  | HoldoutReleased _ => "holdout_released"
  | EvidenceReplicated _ => "evidence_replicated"
  | DecisionRecorded _ _ => "decision_recorded"
  | FrontierUpdated _ _ _ => "frontier_updated"
  | RoundClosed => "round_closed"
  end.

(** [asdict(event)], as the file holds it: tuples are arrays. *)
Definition event_payload (e : RoundEvent) : list (string * Json) :=
  match e with
  | RoundOpened h => [("contract_hash", JStr h)]
  | ProposalAttempted errors slot => [("errors", jstrs errors); ("slot_index", jopt JInt slot)]
  | ProposalEpisodeSettled kind code message =>
      [("kind", JStr kind); ("code", JStr code); ("message", JStr message)]
  | CandidateSampled i n revise recombined =>
      [("i", JInt i); ("n", JInt n); ("revise", JBool revise); ("recombined", JBool recombined)]
  | CandidateScreened index vetoed confirmed summary revise =>
      [("index", JInt index); ("vetoed", JBool vetoed); ("confirmed", JBool confirmed);
       ("screen_summary", JObj summary); ("revise", JBool revise)]
  | CritiqueSelected index why slate rationale =>
      [("index", JInt index); ("reason", JStr why); ("slate", JArr (JObj <$> slate));
       ("rationale", JStr rationale)]
  | ExperimentMinted i => [("experiment_id", JStr i)]
  | PatchesApplied g => [("generation_id", JStr g)]
  | HarnessLoaded g f verified never =>
      [("generation_id", JStr g); ("entrypoint_file", JStr f); ("trees_verified", jstrs verified);
       ("trees_never_imported", jstrs never)]
  | ValidationFailed findings => [("findings", jstrs findings)]
  | UnitCompleted entry side => [("entry_id", JStr entry); ("side", JStr side)]
  | GateEvaluated rule decision champion challenger margin regressions =>
      [("rule_fired", JStr rule); ("decision", JStr decision);
       ("champion_scalar", jopt JFloat champion); ("challenger_scalar", jopt JFloat challenger);
       ("margin_required", jopt JFloat margin); ("attributable_regressions", jstrs regressions)]
  | HoldoutReleased confirmed => [("confirmed", JBool confirmed)]
  | EvidenceReplicated state => [("ci_state", JObj state)]
  | DecisionRecorded decision provenance =>
      [("decision", JStr decision); ("provenance", JObj provenance)]
  | FrontierUpdated admitted retired size =>
      [("admitted", jstrs admitted); ("retired", jstrs retired); ("size", JInt size)]
  | RoundClosed => []
  end.

(** ** Decoding *)

(** The value of a declared field: its default when absent, [None] at another type. *)
Section Fields.
Context (payload : list (string * Json)).

Definition field {A} (name : string) (read : Json -> option A) (default : A) : option A :=
  match dict_get payload name with Some v => read v | None => Some default end.

Definition as_str (v : Json) : option string := match v with JStr s => Some s | _ => None end.
Definition as_int (v : Json) : option Z := match v with JInt z => Some z | _ => None end.
Definition as_bool (v : Json) : option bool := match v with JBool b => Some b | _ => None end.
Definition as_obj (v : Json) : option (list (string * Json)) :=
  match v with JObj d => Some d | _ => None end.
Definition as_opt {A} (read : Json -> option A) (v : Json) : option (option A) :=
  match v with JNull => Some None | _ => Some <$> read v end.
Definition as_float (v : Json) : option float := match v with JFloat x => Some x | _ => None end.
Definition as_list {A} (read : Json -> option A) (v : Json) : option (list A) :=
  match v with JArr l => mapM read l | _ => None end.

Definition fstr (name : string) : option string := field name as_str "".
Definition fstrs (name : string) : option (list string) := field name (as_list as_str) [].
Definition fint (name : string) (default : Z) : option Z := field name as_int default.
Definition fbool (name : string) : option bool := field name as_bool false.
Definition fobj (name : string) : option (list (string * Json)) := field name as_obj [].
Definition ffloat (name : string) : option (option float) := field name (as_opt as_float) None.
End Fields.

Inductive Decoded :=
  | Known (e : RoundEvent)
  | Unknown
  | Loose.

(** The constructor of a type token on a payload; the outer [None] is an unknown type. *)
Definition decode_fields (token : string) (p : list (string * Json)) : option (option RoundEvent) :=
  if String.eqb token "round_opened" then Some (h ← fstr p "contract_hash"; Some (RoundOpened h))
  else if String.eqb token "proposal_attempted" then
    Some (errors ← fstrs p "errors"; slot ← field p "slot_index" (as_opt as_int) None;
          Some (ProposalAttempted errors slot))
  else if String.eqb token "proposal_episode_settled" then
    Some (kind ← field p "kind" as_str "failed"; code ← fstr p "code"; message ← fstr p "message";
          Some (ProposalEpisodeSettled kind code message))
  else if String.eqb token "candidate_sampled" then
    Some (i ← fint p "i" 0; n ← fint p "n" 1; revise ← fbool p "revise";
          recombined ← fbool p "recombined"; Some (CandidateSampled i n revise recombined))
  else if String.eqb token "candidate_screened" then
    Some (index ← fint p "index" 0; vetoed ← fbool p "vetoed"; confirmed ← fbool p "confirmed";
          summary ← fobj p "screen_summary"; revise ← fbool p "revise";
          Some (CandidateScreened index vetoed confirmed summary revise))
  else if String.eqb token "critique_selected" then
    Some (index ← fint p "index" 0; why ← fstr p "reason";
          slate ← field p "slate" (as_list as_obj) []; rationale ← fstr p "rationale";
          Some (CritiqueSelected index why slate rationale))
  else if String.eqb token "experiment_minted" then
    Some (i ← fstr p "experiment_id"; Some (ExperimentMinted i))
  else if String.eqb token "patches_applied" then
    Some (g ← fstr p "generation_id"; Some (PatchesApplied g))
  else if String.eqb token "harness_loaded" then
    Some (g ← fstr p "generation_id"; f ← fstr p "entrypoint_file";
          verified ← fstrs p "trees_verified"; never ← fstrs p "trees_never_imported";
          Some (HarnessLoaded g f verified never))
  else if String.eqb token "validation_failed" then
    Some (findings ← fstrs p "findings"; Some (ValidationFailed findings))
  else if String.eqb token "unit_completed" then
    Some (entry ← fstr p "entry_id"; side ← fstr p "side"; Some (UnitCompleted entry side))
  else if String.eqb token "gate_evaluated" then
    Some (rule ← fstr p "rule_fired"; decision ← fstr p "decision";
          champion ← ffloat p "champion_scalar"; challenger ← ffloat p "challenger_scalar";
          margin ← ffloat p "margin_required"; regressions ← fstrs p "attributable_regressions";
          Some (GateEvaluated rule decision champion challenger margin regressions))
  else if String.eqb token "holdout_released" then
    Some (confirmed ← fbool p "confirmed"; Some (HoldoutReleased confirmed))
  else if String.eqb token "evidence_replicated" then
    Some (state ← fobj p "ci_state"; Some (EvidenceReplicated state))
  else if String.eqb token "decision_recorded" then
    Some (decision ← fstr p "decision"; provenance ← fobj p "provenance";
          Some (DecisionRecorded decision provenance))
  else if String.eqb token "frontier_updated" then
    Some (admitted ← fstrs p "admitted"; retired ← fstrs p "retired"; size ← fint p "size" 0;
          Some (FrontierUpdated admitted retired size))
  else if String.eqb token "round_closed" then Some (Some RoundClosed)
  else None.

Definition _decode_event (token : string) (payload : list (string * Json)) : Decoded :=
  match decode_fields token payload with
  | None => Unknown
  | Some None => Loose
  | Some (Some e) => Known e
  end.

(** ** Scope *)

Record RoundEventScope := {
  scope_generation_id : string;
  scope_step : string;
  attributes : list (string * Json);
}.

Definition empty_scope : RoundEventScope :=
  {| scope_generation_id := ""; scope_step := ""; attributes := [] |}.

Definition scope_fields : list string := ["generation_id"; "step"; "attributes"].


(** [str(value or "")] of a coordinate: the payload's value, a null giving way to the
    attribute of that name. *)
Definition coordinate `{PyConv} (payload extras : list (string * Json)) (name : string) : string :=
  let value := match dict_get payload name with
               | Some JNull | None => default JNull (dict_get extras name)
               | Some v => v
               end in
  if truthy value then json_str value else "".

Definition from_payload `{PyConv} (raw : option Json) : RoundEventScope :=
  match raw with
  | Some (JObj payload) =>
      let known := match dict_get payload "attributes" with Some (JObj d) => d | _ => [] end in
      let extras :=
        dict_update known
          (List.filter (fun item => negb (bool_decide (item.1 ∈ scope_fields))) payload) in
      {| scope_generation_id := coordinate payload extras "generation_id";
         scope_step := coordinate payload extras "step";
         attributes := dict_del (dict_del extras "generation_id") "step" |}
  | _ => empty_scope
  end.

Definition scope_member (name value : string) : list (string * Json) :=
  if String.eqb value "" then [] else [(name, JStr value)].

Definition to_payload (s : RoundEventScope) : list (string * Json) :=
  scope_member "generation_id" (scope_generation_id s) ++ scope_member "step" (scope_step s)
  ++ match attributes s with [] => [] | d => [("attributes", JObj d)] end.

(** ** The file *)

(** [data[:data.rfind(b"\n") + 1]] *)
Fixpoint committed (s : string) : string :=
  match s with
  | "" => ""
  | String c s =>
      match committed s with
      | "" => if Ascii.eqb c newline then nl else ""
      | t => String c t
      end
  end.

Definition ends_in_newline (s : string) : bool := str_endswith nl s.

(** [_truncate_torn_tail] *)
Definition _truncate_torn_tail (file : option string) : option string :=
  match file with
  | None => None
  | Some s => if String.eqb s "" || ends_in_newline s then Some s else Some (committed s)
  end.

(** ** The log *)

Record RoundLogEnvelope := {
  env_seq : Z;
  env_ts : string;
  env_type : string;
  env_payload : list (string * Json);
  env_event : Decoded;
  env_scope : RoundEventScope;
}.

Section Log.
Context `{PyConv} `{PyFloatParse} (json_dumps : Json -> string) (json_loads : string -> option Json).

(** One line of the file: a record is an object. *)
Definition read_line (line : string) : result RoundLogEnvelope :=
  match json_loads line with
  | None => Raise (ValueError "round log line is corrupt (the append-only invariant was violated)")
  | Some (JObj record) =>
      let payload := match dict_get record "payload" with Some (JObj d) => d | _ => [] end in
      let token := json_str (from_option id (JStr "") (dict_get record "type")) in
      try seq <- json_int (from_option id (JInt 0) (dict_get record "seq"));
      Ok {| env_seq := seq; env_ts := json_str (from_option id (JStr "") (dict_get record "ts"));
            env_type := token; env_payload := payload; env_event := _decode_event token payload;
            env_scope := from_payload (dict_get record "scope") |}
  | Some _ => Raise (OtherException "AttributeError")
  end.

Definition nonblank (lines : list string) : list string :=
  List.filter (fun line => negb (String.eqb line "")) (str_strip <$> lines).

Definition read (file : option string) : result (list RoundLogEnvelope) :=
  match file with
  | None => Ok []
  | Some data => result_map read_line (nonblank (splitlines (committed data)))
  end.

Definition tail (file : option string) : result (option RoundLogEnvelope) :=
  try events <- read file; Ok (last events).

(** What [append] records: an instance, or a mapping or nothing. *)
Inductive ScopeArgument :=
  | Scope (s : RoundEventScope)
  | Coordinates (payload : option Json).

Definition scope_of (a : ScopeArgument) : RoundEventScope :=
  match a with Scope s => s | Coordinates p => from_payload p end.

Definition log_record (seq : Z) (ts : string) (e : RoundEvent) (s : RoundEventScope) : Json :=
  JObj [("seq", JInt seq); ("ts", JStr ts); ("type", JStr (event_type e));
        ("scope", JObj (to_payload s)); ("payload", JObj (event_payload e))].

(** [append_jsonl] of [src/zicato/storage/files.py]. *)
Definition append_jsonl (file : option string) (record : Json) : result string :=
  let old := from_option id "" file in
  if String.eqb old "" || ends_in_newline old then Ok (old +:+ json_dumps record +:+ nl)
  else Raise (ValueError "JSONL stream has an unterminated JSONL record").

(** The writer holds the next sequence number once it has validated the history. *)
Record Appended := {
  ap_next_seq : option Z;
  ap_file : option string;
  ap_result : result RoundLogEnvelope;
}.

(** The validation of the history: the sequence number and the repaired file. *)
Definition resume (next_seq : option Z) (file : option string) : result (Z * option string) :=
  match next_seq with
  | Some seq => Ok (seq, file)
  | None =>
      try t <- tail file;
      Ok (match t with None => 1%Z | Some t => (env_seq t + 1)%Z end, _truncate_torn_tail file)
  end.

Definition append (e : RoundEvent) (scope : ScopeArgument) (ts : string) (next_seq : option Z)
    (file : option string) : Appended :=
  match resume next_seq file with
  | Raise x => {| ap_next_seq := None; ap_file := file; ap_result := Raise x |}
  | Ok (seq, file) =>
      let s := scope_of scope in
      match append_jsonl file (log_record seq ts e s) with
      | Raise x => {| ap_next_seq := None; ap_file := file; ap_result := Raise x |}
      | Ok data =>
          {| ap_next_seq := Some (seq + 1)%Z; ap_file := Some data;
             ap_result := Ok {| env_seq := seq; env_ts := ts; env_type := event_type e;
                                env_payload := event_payload e; env_event := Known e;
                                env_scope := s |} |}
      end
  end.
End Log.

(** ** The fold *)

Record ProposerEpisodeOutcome := {
  outcome_kind : string;
  outcome_code : string;
  outcome_message : string;
}.

Record ProposalSession := {
  ps_attempts : nat;
  ps_errors : list string;
  ps_candidates_sampled : nat;
  ps_candidates_screened : nat;
  ps_screen_vetoes : nat;
  ps_recombined_sampled : nat;
  ps_critique_index : option Z;
  ps_critique_reason : string;
  ps_experiment_ids : list string;
  ps_episode_outcomes : list ProposerEpisodeOutcome;
}.

(** The lists of units, gates, holdout and frontier events hold the events' fields. *)
Record RoundRecord := {
  rr_opened : bool;
  rr_closed : bool;
  rr_contract_hash : string;
  rr_proposal : ProposalSession;
  rr_generation_ids : list string;
  rr_harness_entrypoint_files : list (string * string);
  rr_harness_never_imported_trees : list (string * list string);
  rr_validation_findings : list string;
  rr_units : list RoundEvent;
  rr_gates : list RoundEvent;
  rr_holdout : option RoundEvent;
  rr_evidence_trail : list (list (string * Json));
  rr_frontier_updates : list RoundEvent;
  rr_decision : string;
  rr_decision_provenance : list (string * Json);
  rr_last_seq : Z;
}.

Definition complete (r : RoundRecord) : bool := rr_opened r && rr_closed r.

Definition empty_record : RoundRecord := {|
  rr_opened := false; rr_closed := false; rr_contract_hash := "";
  rr_proposal := {| ps_attempts := 0; ps_errors := []; ps_candidates_sampled := 0;
                    ps_candidates_screened := 0; ps_screen_vetoes := 0; ps_recombined_sampled := 0;
                    ps_critique_index := None; ps_critique_reason := ""; ps_experiment_ids := [];
                    ps_episode_outcomes := [] |};
  rr_generation_ids := []; rr_harness_entrypoint_files := []; rr_harness_never_imported_trees := [];
  rr_validation_findings := []; rr_units := []; rr_gates := []; rr_holdout := None;
  rr_evidence_trail := []; rr_frontier_updates := []; rr_decision := "";
  rr_decision_provenance := []; rr_last_seq := 0 |}.

Definition bump (b : bool) (n : nat) : nat := if b then S n else n.

(** The branches on the proposal events. *)
Definition fold_proposal (e : RoundEvent) (p : ProposalSession) : ProposalSession :=
  let '(attempts, errors) :=
    match e with
    | ProposalAttempted errors _ => (S (ps_attempts p), ps_errors p ++ errors)
    | _ => (ps_attempts p, ps_errors p)
    end in
  let '(sampled, recombined) :=
    match e with
    | CandidateSampled _ _ _ r => (S (ps_candidates_sampled p), bump r (ps_recombined_sampled p))
    | _ => (ps_candidates_sampled p, ps_recombined_sampled p)
    end in
  let '(screened, vetoes) :=
    match e with
    | CandidateScreened _ vetoed _ _ _ =>
        (S (ps_candidates_screened p), bump vetoed (ps_screen_vetoes p))
    | _ => (ps_candidates_screened p, ps_screen_vetoes p)
    end in
  let '(index, why) :=
    match e with
    | CritiqueSelected index why _ _ => (Some index, why)
    | _ => (ps_critique_index p, ps_critique_reason p)
    end in
  {| ps_attempts := attempts; ps_errors := errors; ps_candidates_sampled := sampled;
     ps_candidates_screened := screened; ps_screen_vetoes := vetoes;
     ps_recombined_sampled := recombined; ps_critique_index := index; ps_critique_reason := why;
     ps_experiment_ids :=
       match e with
       | ExperimentMinted i => ps_experiment_ids p ++ [i]
       | _ => ps_experiment_ids p
       end;
     ps_episode_outcomes :=
       match e with
       | ProposalEpisodeSettled kind code message =>
           ps_episode_outcomes p
           ++ [{| outcome_kind := kind; outcome_code := code; outcome_message := message |}]
       | _ => ps_episode_outcomes p
       end |}.

(** One turn of the loop on a typed event, [seq] being the envelope's number. *)
Definition fold_event (seq : Z) (e : RoundEvent) (r : RoundRecord) : RoundRecord :=
  {| rr_opened := match e with RoundOpened _ => true | _ => rr_opened r end;
     rr_closed := match e with RoundClosed => true | _ => rr_closed r end;
     rr_contract_hash := match e with RoundOpened h => h | _ => rr_contract_hash r end;
     rr_proposal := fold_proposal e (rr_proposal r);
     rr_generation_ids :=
       match e with PatchesApplied g => rr_generation_ids r ++ [g] | _ => rr_generation_ids r end;
     rr_harness_entrypoint_files :=
       match e with
       | HarnessLoaded g f _ _ => dict_set (rr_harness_entrypoint_files r) g f
       | _ => rr_harness_entrypoint_files r
       end;
     rr_harness_never_imported_trees :=
       match e with
       | HarnessLoaded g _ _ [] => dict_del (rr_harness_never_imported_trees r) g
       | HarnessLoaded g _ _ never => dict_set (rr_harness_never_imported_trees r) g never
       | _ => rr_harness_never_imported_trees r
       end;
     rr_validation_findings :=
       match e with
       | ValidationFailed findings => rr_validation_findings r ++ findings
       | _ => rr_validation_findings r
       end;
     rr_units := match e with UnitCompleted _ _ => rr_units r ++ [e] | _ => rr_units r end;
     rr_gates := match e with GateEvaluated _ _ _ _ _ _ => rr_gates r ++ [e] | _ => rr_gates r end;
     rr_holdout := match e with HoldoutReleased _ => Some e | _ => rr_holdout r end;
     rr_evidence_trail :=
       match e with
       | EvidenceReplicated state => rr_evidence_trail r ++ [state]
       | _ => rr_evidence_trail r
       end;
     rr_frontier_updates :=
       match e with FrontierUpdated _ _ _ => rr_frontier_updates r ++ [e] | _ => rr_frontier_updates r end;
     rr_decision := match e with DecisionRecorded d _ => d | _ => rr_decision r end;
     rr_decision_provenance :=
       match e with DecisionRecorded _ p => p | _ => rr_decision_provenance r end;
     rr_last_seq := Z.max (rr_last_seq r) seq |}.

Definition with_last_seq (r : RoundRecord) (seq : Z) : RoundRecord :=
  {| rr_opened := rr_opened r; rr_closed := rr_closed r; rr_contract_hash := rr_contract_hash r;
     rr_proposal := rr_proposal r; rr_generation_ids := rr_generation_ids r;
     rr_harness_entrypoint_files := rr_harness_entrypoint_files r;
     rr_harness_never_imported_trees := rr_harness_never_imported_trees r;
     rr_validation_findings := rr_validation_findings r; rr_units := rr_units r;
     rr_gates := rr_gates r; rr_holdout := rr_holdout r; rr_evidence_trail := rr_evidence_trail r;
     rr_frontier_updates := rr_frontier_updates r; rr_decision := rr_decision r;
     rr_decision_provenance := rr_decision_provenance r; rr_last_seq := seq |}.

Definition fold_envelope (r : option RoundRecord) (env : RoundLogEnvelope) : option RoundRecord :=
  r ← r;
  match env_event env with
  | Known e => Some (fold_event (env_seq env) e r)
  | Unknown => Some (with_last_seq r (Z.max (rr_last_seq r) (env_seq env)))
  | Loose => None
  end.

Definition fold_round_record (events : list RoundLogEnvelope) : option RoundRecord :=
  foldl fold_envelope (Some empty_record) events.

(** The branch [isinstance(envelope.event, RoundOpened)]: of a loose payload the class is
    known from its type. *)
Definition is_open (env : RoundLogEnvelope) : bool := String.eqb (env_type env) "round_opened".

(** The events from the last one that opens the round, all of them when there is none. *)
Fixpoint last_attempt (events : list RoundLogEnvelope) : option (list RoundLogEnvelope) :=
  match events with
  | [] => None
  | env :: rest =>
      match last_attempt rest with
      | Some l => Some l
      | None => if is_open env then Some events else None
      end
  end.

Definition final_attempt_events (events : list RoundLogEnvelope) : list RoundLogEnvelope :=
  from_option id events (last_attempt events).
