(* ===== verification/RoundLogSpec.v ===== *)
(** What the round log promises: every committed event is read back, in order and
    numbered without a gap, whatever append a crash interrupts; and the fold is the
    summary of the log. *)
From S2P Require Import Prelude PyFloat PyText PyLines PyJson Records RoundLog.

(** ** Events and scopes survive the file *)

Lemma mapM_fmap_Some {A B} (f : A -> B) (g : B -> option A) l :
  (forall a, g (f a) = Some a) -> mapM g (f <$> l) = Some l.
Proof. intros Hg. induction l as [|a l IH]; [done|]. cbn. by rewrite Hg; cbn; rewrite IH. Qed.

Lemma as_list_strs l : as_list as_str (jstrs l) = Some l.
Proof. by apply mapM_fmap_Some. Qed.

Lemma as_list_objs l : as_list as_obj (JArr (JObj <$> l)) = Some l.
Proof. by apply mapM_fmap_Some. Qed.

Lemma as_opt_some {A} (f : A -> Json) (g : Json -> option A) o :
  (forall a, f a <> JNull /\ g (f a) = Some a) -> as_opt g (jopt f o) = Some o.
Proof.
  intros Hg. destruct o as [a|]; [|done]. destruct (Hg a) as [Hn Ha].
  cbn. unfold as_opt. revert Hn Ha. by destruct (f a); intros ? Ha; rewrite ?Ha.
Qed.

Lemma decode_known e : _decode_event (event_type e) (event_payload e) = Known e.
Proof.
  destruct e; lazy -[as_list as_opt as_str as_obj as_int as_float jstrs jopt fmap];
    rewrite ?as_list_strs, ?as_list_objs, ?as_opt_some by (by split); done.
Qed.

(** A scope as reading yields it: the coordinates are not among the attributes. *)
Definition canonical (s : RoundEventScope) : Prop :=
  ("generation_id" ∉ dict_keys (attributes s)) /\ ("step" ∉ dict_keys (attributes s)).

Lemma dict_del_absent {V} (d : list (string * V)) k : k ∉ dict_keys d -> dict_del d k = d.
Proof.
  unfold dict_keys. induction d as [|[k' v] d IH]; cbn; [done|]. intros Hk.
  rewrite decide_False by set_solver. rewrite IH; set_solver.
Qed.

Section Scope.
Context (s : RoundEventScope).

Lemma to_payload_extra :
  List.filter (fun item => negb (bool_decide (item.1 ∈ scope_fields))) (to_payload s) = [].
Proof.
  unfold to_payload, scope_member.
  by destruct (String.eqb _ _), (String.eqb _ _), (attributes s).
Qed.

Lemma to_payload_attributes :
  match dict_get (to_payload s) "attributes" with Some (JObj d) => d | _ => [] end = attributes s.
Proof.
  unfold to_payload, scope_member.
  by destruct (String.eqb _ _), (String.eqb _ _), (attributes s).
Qed.

Lemma to_payload_generation :
  dict_get (to_payload s) "generation_id"
  = if String.eqb (scope_generation_id s) "" then None else Some (JStr (scope_generation_id s)).
Proof.
  unfold to_payload, scope_member.
  by destruct (String.eqb _ _), (String.eqb _ _), (attributes s).
Qed.

Lemma to_payload_step :
  dict_get (to_payload s) "step"
  = if String.eqb (scope_step s) "" then None else Some (JStr (scope_step s)).
Proof.
  unfold to_payload, scope_member.
  by destruct (String.eqb _ _), (String.eqb _ _), (attributes s).
Qed.

Lemma coordinate_kept `{PyConv} payload extras name value :
  dict_get payload name = (if String.eqb value "" then None else Some (JStr value)) ->
  dict_get extras name = None -> coordinate payload extras name = value.
Proof.
  intros Hp He. unfold coordinate. rewrite Hp, He.
  destruct (String.eqb value "") eqn:E; cbn; [by apply String.eqb_eq in E|]. by rewrite E.
Qed.

Lemma scope_roundtrip `{PyConv} : canonical s -> from_payload (Some (JObj (to_payload s))) = s.
Proof.
  intros [Hg Hs]. unfold from_payload. rewrite to_payload_extra, to_payload_attributes. cbn.
  pose proof (proj2 (dict_get_None _ _) Hg). pose proof (proj2 (dict_get_None _ _) Hs).
  rewrite (coordinate_kept _ _ _ _ to_payload_generation) by done.
  rewrite (coordinate_kept _ _ _ _ to_payload_step) by done.
  rewrite !dict_del_absent; [by destruct s|done|]. by rewrite dict_del_absent.
Qed.
End Scope.

(** ** Lines and files *)

Lemma committed_app a r : committed (a +:+ nl +:+ r) = a +:+ nl +:+ committed r.
Proof.
  assert (committed (nl +:+ r) = nl +:+ committed r) as Hr.
  { change (nl +:+ r) with (String newline r). cbn [committed]. by destruct (committed r). }
  induction a as [|c a IH]; [done|]. rewrite !str_app_cons. cbn [committed]. rewrite IH.
  by destruct a.
Qed.

Lemma committed_unbroken s : unbroken s = true -> committed s = "".
Proof.
  unfold unbroken. induction s as [|c s IH]; cbn; [done|]. intros [Hc Hs]%andb_true_iff.
  rewrite IH by done. destruct (Ascii.eqb_spec c newline) as [->|]; [|done]. by vm_compute in Hc.
Qed.

Lemma committed_log lines torn :
  unbroken torn = true -> committed (log_text lines +:+ torn) = log_text lines.
Proof.
  intros Ht. induction lines as [|l lines IH]; [by apply committed_unbroken|].
  cbn [log_text]. by rewrite !str_app_assoc, committed_app, IH.
Qed.

Lemma truncate_committed s : _truncate_torn_tail (Some s) = Some (committed s).
Proof.
  cbn. destruct (String.eqb_spec s "") as [->|_]; [done|]. cbn.
  destruct (ends_in_newline s) eqn:E; [|done]. f_equal.
  apply str_endswith_app in E as [t ->]. pose proof (committed_app t "") as H.
  by rewrite str_app_nil_r in H.
Qed.

Lemma log_text_ends lines : String.eqb (log_text lines) "" || ends_in_newline (log_text lines) = true.
Proof.
  destruct lines as [|line lines _] using rev_ind; [done|].
  rewrite <- (str_app_nil_r (log_text (lines ++ [line]))), <- log_text_snoc, str_app_nil_r.
  rewrite <- str_app_assoc. apply orb_true_iff. right. apply str_endswith_suffix.
Qed.

(** ** Histories

    A state is the writer's number, the file, and (as a ghost) the envelopes whose records
    were written whole, each with whether its [append] returned.  A crash leaves any part of
    the record being written: short of its newline nothing of it counts; with its newline
    the record stands, and only the return is lost.  Either way the next writer knows
    nothing. *)
Record LogState := {
  log_next : option Z;
  log_file : option string;
  log_history : list (RoundLogEnvelope * bool);
}.

(** The envelopes on record, returned or not. *)
Definition log_envelopes (st : LogState) : list RoundLogEnvelope := (log_history st).*1.

(** An envelope as a reader gets it: its scope went through the file. *)
Definition as_read `{PyConv} (env : RoundLogEnvelope) : RoundLogEnvelope := {|
  env_seq := env_seq env; env_ts := env_ts env; env_type := env_type env;
  env_payload := env_payload env; env_event := env_event env;
  env_scope := from_payload (Some (JObj (to_payload (env_scope env)))) |}.

Lemma as_read_canonical `{PyConv} env : canonical (env_scope env) -> as_read env = env.
Proof. intros Hc. unfold as_read. rewrite scope_roundtrip by done. by destruct env. Qed.

Section History.
Context `{PyConv} `{PyFloatParse} (json_dumps : Json -> string) (json_loads : string -> option Json).

(** What [json] does with a record: one line of text, which parses to the record. *)
Record faithful (j : Json) : Prop := {
  faithful_loads : json_loads (json_dumps j) = Some j;
  faithful_line : unbroken (json_dumps j) = true;
  faithful_strip : str_strip (json_dumps j) = json_dumps j;
  faithful_text : json_dumps j <> "";
}.

Definition writable (st : LogState) (e : RoundEvent) (scope : ScopeArgument) (ts : string) : Prop :=
  forall seq file, resume json_loads (log_next st) (log_file st) = Ok (seq, file) ->
                   faithful (log_record seq ts e (scope_of scope)).

Definition appended (st : LogState) (e : RoundEvent) (scope : ScopeArgument) (ts : string) : Appended :=
  append json_dumps json_loads e scope ts (log_next st) (log_file st).

(** An append that runs to its return, or is cut off between the newline and the return. *)
Definition written_by (st : LogState) (e : RoundEvent) (scope : ScopeArgument) (ts : string)
    (returned : bool) : LogState :=
  let a := appended st e scope ts in
  {| log_next := if returned then ap_next_seq a else None;
     log_file := ap_file a;
     log_history := log_history st ++ match ap_result a with
                                      | Ok env => [(env, returned)] | Raise _ => [] end |}.

Inductive log_step : LogState -> LogState -> Prop :=
  | log_append st e scope ts :
      writable st e scope ts -> log_step st (written_by st e scope ts true)
  | log_unreturned st e scope ts :
      writable st e scope ts -> log_step st (written_by st e scope ts false)
  | log_torn st e scope ts seq file written lost :
      writable st e scope ts ->
      resume json_loads (log_next st) (log_file st) = Ok (seq, file) ->
      json_dumps (log_record seq ts e (scope_of scope)) = written +:+ lost ->
      log_step st {| log_next := None; log_file := Some (from_option id "" file +:+ written);
                     log_history := log_history st |}
  | log_restart st :
      log_step st {| log_next := None; log_file := log_file st; log_history := log_history st |}.

Definition empty_log : LogState := {| log_next := None; log_file := None; log_history := [] |}.

Definition line_reads (line : string) (env : RoundLogEnvelope) : Prop :=
  read_line json_loads line = Ok (as_read env) /\ unbroken line = true /\ str_strip line = line /\ line <> "".

Definition numbered (history : list RoundLogEnvelope) : Prop :=
  env_seq <$> history = Z.of_nat <$> seq 1 (length history).

Record log_inv (lines : list string) (st : LogState) : Prop := {
  inv_torn : exists torn, from_option id "" (log_file st) = log_text lines +:+ torn
                          /\ unbroken torn = true /\ (is_Some (log_next st) -> torn = "");
  inv_lines : Forall2 line_reads lines (log_envelopes st);
  inv_numbered : numbered (log_envelopes st);
  inv_next n : log_next st = Some n -> n = (Z.of_nat (length (log_envelopes st)) + 1)%Z;
}.

Lemma inv_committed lines st :
  log_inv lines st -> committed (from_option id "" (log_file st)) = log_text lines.
Proof. intros [(torn & -> & Ht & _) _ _ _]. by apply committed_log. Qed.

Lemma read_lines lines history :
  Forall2 line_reads lines history -> result_map (read_line json_loads) (nonblank lines) = Ok (as_read <$> history).
Proof.
  induction 1 as [|line env lines history (Hr & _ & Hs & Hne) _ IH]; [done|].
  unfold nonblank in *. cbn. rewrite Hs, (proj2 (String.eqb_neq _ _) Hne). cbn. by rewrite Hr; cbn; rewrite IH.
Qed.

Lemma read_inv lines st : log_inv lines st -> read json_loads (log_file st) = Ok (as_read <$> log_envelopes st).
Proof.
  intros Hinv. pose proof (inv_committed _ _ Hinv) as Hc. pose proof (inv_lines _ _ Hinv) as Hl.
  transitivity (read json_loads (Some (from_option id "" (log_file st)))); [by destruct (log_file st)|].
  cbn. rewrite Hc, splitlines_log; [by apply read_lines|].
  clear -Hl. induction Hl as [|???? (_ & ? & _)]; auto.
Qed.

Lemma numbered_last history env :
  numbered history -> last history = Some env -> env_seq env = Z.of_nat (length history).
Proof.
  unfold numbered. intros Hn Hl. rewrite last_lookup in Hl.
  assert ((env_seq <$> history) !! pred (length history) = Some (env_seq env)) as He
    by (by rewrite list_lookup_fmap, Hl).
  rewrite Hn, list_lookup_fmap in He. apply fmap_Some in He as (i & Hi & ->).
  apply lookup_seq in Hi. lia.
Qed.

Lemma resume_inv lines st :
  log_inv lines st ->
  exists file, resume json_loads (log_next st) (log_file st)
               = Ok ((Z.of_nat (length (log_envelopes st)) + 1)%Z, file)
               /\ from_option id "" file = log_text lines.
Proof.
  intros Hinv. destruct (log_next st) as [n|] eqn:En; cbn.
  - exists (log_file st). rewrite (inv_next _ _ Hinv n En). split; [done|].
    destruct Hinv as [(torn & -> & _ & Ht) _ _ _]. rewrite Ht by (by rewrite En). apply str_app_nil_r.
  - exists (_truncate_torn_tail (log_file st)). unfold tail. rewrite (read_inv _ _ Hinv). cbn. split.
    + do 2 f_equal. rewrite fmap_last. destruct (last (log_envelopes st)) as [t|] eqn:El; cbn.
      * by rewrite (numbered_last _ _ (inv_numbered _ _ Hinv) El).
      * by rewrite (proj1 (last_None _) El).
    + rewrite <- (inv_committed _ _ Hinv). destruct (log_file st) as [s|]; [|done].
      by rewrite truncate_committed.
Qed.

Definition envelope (seq : Z) (ts : string) (e : RoundEvent) (s : RoundEventScope) : RoundLogEnvelope :=
  {| env_seq := seq; env_ts := ts; env_type := event_type e; env_payload := event_payload e;
     env_event := Known e; env_scope := s |}.

Lemma line_reads_record seq ts e s :
  faithful (log_record seq ts e s) ->
  line_reads (json_dumps (log_record seq ts e s)) (envelope seq ts e s).
Proof.
  intros [Hl Hu Hs Ht]. split; [|done]. unfold read_line. rewrite Hl.
  change (Ok {| env_seq := seq; env_ts := ts; env_type := event_type e;
                env_payload := event_payload e;
                env_event := _decode_event (event_type e) (event_payload e);
                env_scope := from_payload (Some (JObj (to_payload s))) |}
          = Ok (as_read (envelope seq ts e s))).
  by rewrite decode_known.
Qed.

(** What an append does to a log in order. *)
Lemma appended_inv lines st e scope ts :
  log_inv lines st -> writable st e scope ts ->
  let seq := (Z.of_nat (length (log_envelopes st)) + 1)%Z in
  let line := json_dumps (log_record seq ts e (scope_of scope)) in
  let env := envelope seq ts e (scope_of scope) in
  appended st e scope ts
  = {| ap_next_seq := Some (seq + 1)%Z; ap_file := Some (log_text (lines ++ [line]));
       ap_result := Ok env |}
  /\ line_reads line env.
Proof.
  intros Hinv Hw seq line env. destruct (resume_inv _ _ Hinv) as (file & Hr & Hf).
  split; [|by apply line_reads_record, (Hw _ _ Hr)].
  unfold appended, append. rewrite Hr. unfold append_jsonl. rewrite Hf, log_text_ends. cbn.
  f_equal. f_equal. rewrite <- (str_app_nil_r (log_text (_ ++ _))), <- log_text_snoc.
  by rewrite str_app_nil_r.
Qed.

Lemma numbered_snoc history env :
  numbered history -> env_seq env = (Z.of_nat (length history) + 1)%Z -> numbered (history ++ [env]).
Proof.
  unfold numbered. intros Hn He. rewrite length_app, fmap_app, Hn, seq_app, fmap_app. cbn.
  rewrite He. repeat f_equal. lia.
Qed.

Lemma recorded_envelopes lines st e scope ts returned :
  log_inv lines st -> writable st e scope ts ->
  log_envelopes (written_by st e scope ts returned)
  = log_envelopes st ++ [envelope (Z.of_nat (length (log_envelopes st)) + 1) ts e (scope_of scope)].
Proof.
  intros Hinv Hw. destruct (appended_inv _ _ _ _ _ Hinv Hw) as [Ha _].
  unfold written_by, log_envelopes. rewrite Ha. cbn. by rewrite fmap_app.
Qed.

Lemma log_inv_recorded lines st e scope ts returned :
  log_inv lines st -> writable st e scope ts ->
  exists line, log_inv (lines ++ [line]) (written_by st e scope ts returned).
Proof.
  intros Hinv Hw. destruct (appended_inv _ _ _ _ _ Hinv Hw) as [Ha Hr]. eexists.
  pose proof (recorded_envelopes _ _ _ _ _ returned Hinv Hw) as He.
  split; rewrite ?He.
  - exists "". unfold written_by. rewrite Ha. by rewrite str_app_nil_r.
  - apply Forall2_app; [apply Hinv|]. by constructor.
  - apply numbered_snoc; [apply Hinv|done].
  - intros n Hn. unfold written_by in Hn. rewrite Ha in Hn. cbn in Hn. destruct returned; [|done].
    injection Hn as <-. rewrite length_app. cbn. lia.
Qed.

Lemma log_inv_step st st' lines :
  log_step st st' -> log_inv lines st -> exists lines', log_inv lines' st'.
Proof.
  intros Hs Hinv.
  destruct Hs as [st e scope ts Hw|st e scope ts Hw|st e scope ts seq file written lost Hw Hr Hd|st].
  - destruct (log_inv_recorded _ _ _ _ _ true Hinv Hw). eauto.
  - destruct (log_inv_recorded _ _ _ _ _ false Hinv Hw). eauto.
  - exists lines. destruct (resume_inv _ _ Hinv) as (file' & Hr' & Hf).
    pose proof Hr as Hr2. rewrite Hr' in Hr2. injection Hr2 as <- <-.
    split; [|apply Hinv|apply Hinv|done]. exists written. cbn. rewrite Hf. split; [done|].
    split; [|by intros [? ?]]. pose proof (faithful_line _ (Hw _ _ Hr)) as Hl.
    unfold unbroken in *. rewrite Hd, str_forallb_app in Hl. by apply andb_true_iff in Hl as [? _].
  - exists lines. destruct Hinv as [(torn & Hf & Ht & _) Hl Hn _].
    split; [|done|done|done]. exists torn. split; [done|]. split; [done|]. by intros [? ?].
Qed.

Lemma log_inv_reachable st : rtc log_step empty_log st -> exists lines, log_inv lines st.
Proof.
  revert st. apply rtc_ind_r.
  - exists []. split; cbn; [by exists ""|constructor|done|done].
  - intros st st' _ Hs [lines Hl]. by eapply log_inv_step.
Qed.

(** C27.  The round log replays.  Over any history of appends, some of them cut off by a crash
    anywhere in the write of their record, its newline included, and of restarts, a reader
    gets exactly the envelopes on record: in order, numbered from one without a gap, those
    of the appends that returned, and beside them only those of appends that were cut off
    between the newline and their return.  Each is read as it was made, but that its scope
    went through the file, which changes nothing unless an attribute of a scope is named as
    one of its coordinates.  And the next append succeeds, takes the next number and is
    read back after the others.  (Every record appended is assumed to survive the JSON
    text as one line.) *)
Theorem round_log_replays st :
  rtc log_step empty_log st ->
  read json_loads (log_file st) = Ok (as_read <$> log_envelopes st)
  /\ env_seq <$> log_envelopes st = Z.of_nat <$> seq 1 (length (log_envelopes st))
  /\ (forall env, canonical (env_scope env) -> as_read env = env)
  /\ forall e scope ts, writable st e scope ts ->
       let env := envelope (Z.of_nat (length (log_envelopes st)) + 1)%Z ts e (scope_of scope) in
       ap_result (appended st e scope ts) = Ok env
       /\ read json_loads (ap_file (appended st e scope ts)) = Ok (as_read <$> log_envelopes st ++ [env]).
Proof.
  intros [lines Hinv]%log_inv_reachable. split; [by eapply read_inv|]. split; [apply Hinv|].
  split; [apply as_read_canonical|]. intros e scope ts Hw env.
  destruct (appended_inv _ _ _ _ _ Hinv Hw) as [Ha _], (log_inv_recorded _ _ _ _ _ true Hinv Hw) as [line Hl].
  apply read_inv in Hl. rewrite (recorded_envelopes _ _ _ _ _ _ Hinv Hw) in Hl.
  unfold written_by in Hl. cbn [log_file] in Hl. split; [by rewrite Ha|done].
Qed.
End History.

(** ** The fold

    What a summary says of the events of a log, field by field. *)
Section Summary.
Context (events : list RoundEvent) (r : RoundRecord).

Definition opened_hash (e : RoundEvent) : option string :=
  match e with RoundOpened h => Some h | _ => None end.
Definition attempt_errors (e : RoundEvent) : option (list string) :=
  match e with ProposalAttempted errors _ => Some errors | _ => None end.
Definition episode_outcome (e : RoundEvent) : option ProposerEpisodeOutcome :=
  match e with
  | ProposalEpisodeSettled kind code message =>
      Some {| outcome_kind := kind; outcome_code := code; outcome_message := message |}
  | _ => None
  end.
Definition sampled_recombined (e : RoundEvent) : option bool :=
  match e with CandidateSampled _ _ _ recombined => Some recombined | _ => None end.
Definition screened_vetoed (e : RoundEvent) : option bool :=
  match e with CandidateScreened _ vetoed _ _ _ => Some vetoed | _ => None end.
Definition critique (e : RoundEvent) : option (Z * string) :=
  match e with CritiqueSelected index why _ _ => Some (index, why) | _ => None end.
Definition minted (e : RoundEvent) : option string :=
  match e with ExperimentMinted i => Some i | _ => None end.
Definition applied (e : RoundEvent) : option string :=
  match e with PatchesApplied g => Some g | _ => None end.
Definition harness (g : string) (e : RoundEvent) : option (string * list string) :=
  match e with
  | HarnessLoaded g' f _ never => if decide (g' = g) then Some (f, never) else None
  | _ => None
  end.
Definition failed_findings (e : RoundEvent) : option (list string) :=
  match e with ValidationFailed findings => Some findings | _ => None end.
Definition evidence (e : RoundEvent) : option (list (string * Json)) :=
  match e with EvidenceReplicated state => Some state | _ => None end.
Definition recorded (e : RoundEvent) : option (string * list (string * Json)) :=
  match e with DecisionRecorded decision provenance => Some (decision, provenance) | _ => None end.
Definition of_type (token : string) (e : RoundEvent) : option RoundEvent :=
  if String.eqb (event_type e) token then Some e else None.

(** Trails accumulate in order, and the last word wins where there is one. *)
Definition trail {A} (f : RoundEvent -> option A) : list A := omap f events.
Definition last_word {A} (f : RoundEvent -> option A) : option A := last (trail f).
Definition nonempty {A} (l : list A) : option (list A) :=
  match l with [] => None | _ => Some l end.

Record summarises : Prop := {
  sum_opened : rr_opened r = negb (Nat.eqb (length (trail (of_type "round_opened"))) 0);
  sum_closed : rr_closed r = negb (Nat.eqb (length (trail (of_type "round_closed"))) 0);
  sum_contract_hash : rr_contract_hash r = from_option id "" (last_word opened_hash);
  sum_attempts : ps_attempts (rr_proposal r) = length (trail attempt_errors);
  sum_errors : ps_errors (rr_proposal r) = concat (trail attempt_errors);
  sum_sampled : ps_candidates_sampled (rr_proposal r) = length (trail sampled_recombined);
  sum_recombined : ps_recombined_sampled (rr_proposal r) = count id (trail sampled_recombined);
  sum_screened : ps_candidates_screened (rr_proposal r) = length (trail screened_vetoed);
  sum_vetoes : ps_screen_vetoes (rr_proposal r) = count id (trail screened_vetoed);
  sum_critique_index : ps_critique_index (rr_proposal r) = fst <$> last_word critique;
  sum_critique_reason :
    ps_critique_reason (rr_proposal r) = from_option snd "" (last_word critique);
  sum_experiments : ps_experiment_ids (rr_proposal r) = trail minted;
  sum_episodes : ps_episode_outcomes (rr_proposal r) = trail episode_outcome;
  sum_generations : rr_generation_ids r = trail applied;
  sum_entrypoints g :
    dict_get (rr_harness_entrypoint_files r) g = fst <$> last_word (harness g);
  sum_never_imported g :
    dict_get (rr_harness_never_imported_trees r) g = last_word (harness g) ≫= nonempty ∘ snd;
  sum_findings : rr_validation_findings r = concat (trail failed_findings);
  sum_units : rr_units r = trail (of_type "unit_completed");
  sum_gates : rr_gates r = trail (of_type "gate_evaluated");
  sum_holdout : rr_holdout r = last_word (of_type "holdout_released");
  sum_evidence : rr_evidence_trail r = trail evidence;
  sum_frontier : rr_frontier_updates r = trail (of_type "frontier_updated");
  sum_decision : rr_decision r = from_option fst "" (last_word recorded);
  sum_provenance : rr_decision_provenance r = from_option snd [] (last_word recorded);
}.
End Summary.

Lemma trail_snoc {A} events e (f : RoundEvent -> option A) :
  trail (events ++ [e]) f = trail events f ++ from_option (fun x => [x]) [] (f e).
Proof. unfold trail. rewrite omap_app. cbn. by destruct (f e). Qed.

Lemma last_word_snoc {A} events e (f : RoundEvent -> option A) :
  last_word (events ++ [e]) f = match f e with Some x => Some x | None => last_word events f end.
Proof.
  unfold last_word. rewrite trail_snoc. destruct (f e); cbn; [apply last_snoc|by rewrite app_nil_r].
Qed.

Lemma count_snoc {A} (p : A -> bool) l x : count p (l ++ [x]) = bump (p x) (count p l).
Proof. unfold count. rewrite List.filter_app, length_app. cbn. destruct (p x); cbn; lia. Qed.

Lemma summarises_empty : summarises [] empty_record.
Proof. by split. Qed.

Lemma fold_event_summarises seq events e r :
  NoDup (dict_keys (rr_harness_never_imported_trees r)) ->
  summarises events r -> summarises (events ++ [e]) (fold_event seq e r).
Proof.
  intros Hnd [].
  destruct e; split; intros; cbn -[dict_get dict_set dict_del];
    rewrite ?trail_snoc, ?last_word_snoc; cbn -[dict_get dict_set dict_del];
    rewrite ?app_nil_r, ?length_app, ?concat_app, ?count_snoc, ?Nat.add_1_r;
    cbn -[dict_get dict_set dict_del]; rewrite ?app_nil_r; try congruence.
  - rewrite dict_get_set. case_decide; [done|auto].
  - destruct trees_never_imported; rewrite ?dict_get_set, ?dict_get_del by done;
      case_decide; cbn; auto.
Qed.

Lemma fold_event_NoDup seq e r :
  NoDup (dict_keys (rr_harness_never_imported_trees r)) ->
  NoDup (dict_keys (rr_harness_never_imported_trees (fold_event seq e r))).
Proof.
  intros. destruct e as [| | | | | | | |? ? ? []| | | | | | | |]; cbn -[dict_set dict_del];
    auto using NoDup_dict_keys_set, NoDup_dict_keys_del.
Qed.

Definition known_event (env : RoundLogEnvelope) : option RoundEvent :=
  match env_event env with Known e => Some e | _ => None end.

Lemma fold_summarises envs :
  Forall (fun env => env_event env <> Loose) envs ->
  exists r, fold_round_record envs = Some r /\ summarises (omap known_event envs) r
            /\ NoDup (dict_keys (rr_harness_never_imported_trees r))
            /\ rr_last_seq r = foldl Z.max 0%Z (env_seq <$> envs).
Proof.
  unfold fold_round_record. induction envs as [|env envs IH] using rev_ind; intros Hall.
  { exists empty_record. split; [done|]. split; [apply summarises_empty|]. split; [constructor|done]. }
  apply Forall_app in Hall as [Hall Henv]. destruct (IH Hall) as (r & Hr & Hs & Hnd & Hq).
  rewrite Forall_singleton in Henv.
  rewrite foldl_app, Hr, omap_app, fmap_app, foldl_app, <- Hq. cbn. unfold known_event.
  destruct (env_event env) as [e| |]; [| |done]; cbn.
  - exists (fold_event (env_seq env) e r). split; [done|].
    split; [by apply fold_event_summarises|]. split; [by apply fold_event_NoDup|done].
  - exists (with_last_seq r (Z.max (rr_last_seq r) (env_seq env))). rewrite app_nil_r.
    split; [done|]. split; [by destruct Hs; split|done].
Qed.

(** C35.  The fold is total on the logs a writer leaves, and is their summary: the typed events'
    trails in order, the last word where there is one, the harness maps by generation, the
    highest sequence number. *)
Theorem fold_is_summary envs :
  Forall (fun env => env_event env <> Loose) envs ->
  exists r, fold_round_record envs = Some r /\ summarises (omap known_event envs) r
            /\ rr_last_seq r = foldl Z.max 0%Z (env_seq <$> envs).
Proof. intros (r & ? & ? & _ & ?)%fold_summarises. eauto. Qed.

(** ** The last attempt *)

Lemma last_attempt_spec envs :
  match last_attempt envs with
  | Some l => exists before env after, envs = before ++ env :: after /\ l = env :: after
                /\ is_open env = true /\ existsb is_open after = false
  | None => existsb is_open envs = false
  end.
Proof.
  induction envs as [|env envs IH]; [done|]. cbn. destruct (last_attempt envs) as [l|].
  - destruct IH as (before & env' & after & -> & -> & Ho & Ha). by exists (env :: before), env', after.
  - destruct (is_open env) eqn:E; [|done]. by exists [], env, envs.
Qed.

(** An interrupted round that is run again reuses its log; the summary of its final
    attempt owes nothing to the attempts before, which a summary of the whole log would
    mix in.  A log that never opens is read whole. *)
Theorem final_attempt_alone before env after :
  is_open env = true -> existsb is_open after = false ->
  final_attempt_events (before ++ env :: after) = env :: after
  /\ (forall other, final_attempt_events (other ++ env :: after) = env :: after)
  /\ (forall envs, existsb is_open envs = false -> final_attempt_events envs = envs).
Proof.
  intros Ho Ha.
  assert (forall envs, existsb is_open envs = false -> last_attempt envs = None) as Hnone.
  { intros envs He. pose proof (last_attempt_spec envs) as Hs.
    destruct (last_attempt envs); [|done]. destruct Hs as (b & e & a & -> & _ & Hopen & _).
    rewrite existsb_app in He. cbn in He. by rewrite Hopen, orb_true_r in He. }
  assert (forall other, last_attempt (other ++ env :: after) = Some (env :: after)) as Hlast.
  { intros other. induction other as [|o other IH]; cbn; [by rewrite Hnone, Ho|by rewrite IH]. }
  unfold final_attempt_events. rewrite !Hlast. split; [done|]. split.
  - intros other. by rewrite Hlast.
  - intros envs He. by rewrite Hnone.
Qed.

Module RoundLogWitness.
#[local] Existing Instances plain_conv no_float_text.

Definition scope : ScopeArgument := Scope {| scope_generation_id := "g1"; scope_step := "run"; attributes := [] |}.
Definition opened : Json := log_record 1 "t1" (RoundOpened "h") empty_scope.
Definition unit_done : Json := log_record 2 "t2" (UnitCompleted "a" "challenger") (scope_of scope).
Definition closed : Json := log_record 3 "t3" RoundClosed empty_scope.

(** A codec for these three records. *)
Definition dumps (j : Json) : string :=
  match j with
  | JObj ((_, JInt 1%Z) :: _) => "one" | JObj ((_, JInt 2%Z) :: _) => "two" | _ => "three"
  end.
Definition loads (s : string) : option Json :=
  if String.eqb s "one" then Some opened else if String.eqb s "two" then Some unit_done
  else if String.eqb s "three" then Some closed else None.

Definition done_env : RoundLogEnvelope := envelope 2 "t2" (UnitCompleted "a" "challenger") (scope_of scope).

Definition st1 : LogState :=
  {| log_next := Some 2%Z; log_file := Some ("one" +:+ nl);
     log_history := [(envelope 1 "t1" (RoundOpened "h") empty_scope, true)] |}.
(** The second append dies in the middle of its line. *)
Definition st2 : LogState :=
  {| log_next := None; log_file := Some ("one" +:+ nl +:+ "tw"); log_history := log_history st1 |}.
(** The next one dies between its newline and its return. *)
Definition st3 : LogState :=
  {| log_next := None; log_file := Some ("one" +:+ nl +:+ "two" +:+ nl);
     log_history := log_history st1 ++ [(done_env, false)] |}.

Ltac writes := intros seq file [= <- <-]; by split.

Lemma reachable : rtc (log_step dumps loads) empty_log st3.
Proof.
  apply (rtc_l _ _ st1); [|apply (rtc_l _ _ st2); [|apply (rtc_l _ _ st3); [|apply rtc_refl]]].
  - apply (log_append dumps loads empty_log (RoundOpened "h") (Coordinates None) "t1"). writes.
  - apply (log_torn dumps loads st1 (UnitCompleted "a" "challenger") scope "t2" 2 (log_file st1) "tw" "o");
      [writes|done|done].
  - apply (log_unreturned dumps loads st2 (UnitCompleted "a" "challenger") scope "t2"). writes.
Defined.

Lemma round_log_replays_witness :
  read loads (log_file st3) = Ok (as_read <$> log_envelopes st3)
  /\ ap_result (appended dumps loads st3 RoundClosed (Coordinates None) "t3")
     = Ok (envelope 3 "t3" RoundClosed empty_scope).
Proof.
  destruct (round_log_replays dumps loads st3 reachable) as (Hr & _ & _ & Hn). split; [exact Hr|].
  apply (Hn RoundClosed (Coordinates None) "t3"). writes.
Defined.

Lemma fold_is_summary_witness :
  (rr_units <$> fold_round_record (log_envelopes st3)) = Some [UnitCompleted "a" "challenger"].
Proof.
  destruct (fold_is_summary (log_envelopes st3)) as (r & -> & Hs & _); [by repeat constructor|].
  cbn. f_equal. apply (sum_units _ _ Hs).
Defined.

End RoundLogWitness.
