(* ===== verification/EventLog.v ===== *)
(** The event log of a run, [src/zicato/telemetry/event_log.py] and [json_lines.py]: one
    casing rule, one envelope, and a tolerant reader of growing files.
    A file is its text ([None] when it cannot be read), and text is ASCII.  The JSON
    parser and the calendar are handed in. *)
From S2P Require Import Prelude PyFloat PyText PyLines PyJson Records.

(** ** Casing *)

Definition is_upper (c : Ascii.ascii) : bool :=
  let n := Ascii.nat_of_ascii c in (65 <=? n) && (n <=? 90).
Definition is_lower (c : Ascii.ascii) : bool :=
  let n := Ascii.nat_of_ascii c in (97 <=? n) && (n <=? 122).
Definition underscore : Ascii.ascii := Ascii.ascii_of_nat 95.

(** The loop of [to_snake]; [prev] is whether the last character was a lowercase letter
    or a digit. *)
Fixpoint snake_chars (prev : bool) (s : string) : string :=
  match s with
  | "" => ""
  | String c s =>
      if is_upper c then
        let rest := String (ascii_lower c) (snake_chars false s) in
        if prev then String underscore rest else rest
      else String c (snake_chars (is_lower c || is_digit c) s)
  end.

Definition to_snake (name : string) : string := snake_chars false name.

(** Keys that collapse keep the first one's place and the last one's value. *)
Fixpoint snake_deep (v : Json) : Json :=
  match v with
  | JObj d => JObj (dict_update [] ((fun item => (to_snake item.1, snake_deep item.2)) <$> d))
  | JArr l => JArr (snake_deep <$> l)
  | _ => v
  end.

Definition snake_obj (d : list (string * Json)) : list (string * Json) :=
  dict_update [] ((fun item => (to_snake item.1, snake_deep item.2)) <$> d).

(** ** The envelope *)

Definition ENVELOPE_KEYS : list string :=
  ["emitted_at"; "event_id"; "kind"; "payload"; "run_id"; "seq"; "sequence"; "session_id"].

Record EventRecord := {
  ev_case : string;
  ev_payload : list (string * Json);
  ev_run_id : string;
  ev_session_id : string;
  ev_event_id : string;
  ev_sequence : option Z;
  ev_emitted_at : option string;
  ev_raw : list (string * Json);
}.

Definition _string_field (event : list (string * Json)) (name : string) : string :=
  match dict_get event name with Some (JStr s) => s | _ => "" end.

Definition _sequence_of (event : list (string * Json)) : option Z :=
  let raw := match get_none event "sequence" with JNull => get_none event "seq" | v => v end in
  match raw with
  | JInt z => Some z
  | JStr s => py_int (str_strip s)
  | _ => None
  end.

(** [a / b] on integers, [b] positive. *)
Definition Z_truediv (a : Z) (b : positive) : float :=
  match a with
  | Z0 => f0
  | Zpos p => int_truediv p b
  | Zneg p => fneg (int_truediv p b)
  end.

(** [isinstance(v, int | float | str)]; a [bool] is an [int]. *)
Definition number_or_text (v : Json) : bool :=
  match v with JBool _ | JInt _ | JFloat _ | JStr _ => true | _ => false end.

(** The RFC 3339 text of a moment in UTC, [None] outside the calendar. *)
Class PyTime := { utc_isoformat : float -> option string }.
Definition no_calendar : PyTime := {| utc_isoformat _ := None |}.

Section Parse.
Context `{PyConv} `{PyFloatParse} `{PyTime}.

(** A number beyond the floats raises [OverflowError], which is not caught. *)
Definition timestamp (seconds nanos : Json) : result float :=
  try s <- json_int seconds;
  try n <- json_int nanos;
  let part := Z_truediv n 1000000000 in
  ensure isfinite part orelse OverflowError;
  ensure isfinite (float_of_Z s) orelse OverflowError;
  Ok (fadd (float_of_Z s) part).

Definition _emitted_at_of (event : list (string * Json)) : result (option string) :=
  match get_none event "emitted_at" with
  | JStr s => Ok (if String.eqb s "" then None else Some s)
  | JObj t =>
      let seconds := dict_get_or t "seconds" (JInt 0) in
      let nanos := dict_get_or t "nanos" (JInt 0) in
      if negb (number_or_text seconds) then Ok None
      else
        let nanos := if number_or_text nanos then nanos else JInt 0 in
        match timestamp seconds nanos with
        | Ok total => Ok (utc_isoformat total)
        | Raise (TypeError _) | Raise (ValueError _) => Ok None
        | Raise e => Raise e
        end
  | _ => Ok None
  end.

(** The first field outside the envelope that holds a message. *)
Fixpoint payload_field (event : list (string * Json)) : option (string * list (string * Json)) :=
  match event with
  | [] => None
  | (key, JObj d) :: event =>
      if bool_decide (key ∈ ENVELOPE_KEYS) then payload_field event else Some (key, d)
  | _ :: event => payload_field event
  end.

Definition _case_and_payload (event : list (string * Json)) : string * list (string * Json) :=
  match as_nonempty (get_none event "kind") with
  | Some kind =>
      (to_snake kind, match dict_get event "payload" with Some (JObj d) => d | _ => [] end)
  | None => from_option id ("", []) (payload_field event)
  end.

Definition parse_event (obj : list (string * Json)) : result EventRecord :=
  let event := snake_obj obj in
  let '(case, payload) := _case_and_payload event in
  try emitted <- _emitted_at_of event;
  Ok {| ev_case := case; ev_payload := payload; ev_run_id := _string_field event "run_id";
        ev_session_id := _string_field event "session_id";
        ev_event_id := _string_field event "event_id"; ev_sequence := _sequence_of event;
        ev_emitted_at := emitted; ev_raw := event |}.
End Parse.

(** ** Files *)

(** [read_json_lines]: a line that is no JSON object, or that [decode] refuses with
    [None], is counted and skipped; what [decode] raises is the caller's. *)
Section Lines.
Context {T : Type} (json_loads : string -> option Json)
  (decode : list (string * Json) -> result (option T)).

Record JsonLines := { jl_records : list T; jl_malformed : Z; jl_last_line_ok : bool }.

Definition no_lines : JsonLines := {| jl_records := []; jl_malformed := 0; jl_last_line_ok := true |}.

Definition line_step (acc : JsonLines) (line : string) : result JsonLines :=
  if String.eqb (str_strip line) "" then Ok acc
  else
    try record <- match json_loads line with Some (JObj d) => decode d | _ => Ok None end;
    Ok match record with
       | None => {| jl_records := jl_records acc; jl_malformed := jl_malformed acc + 1;
                    jl_last_line_ok := false |}
       | Some r => {| jl_records := jl_records acc ++ [r]; jl_malformed := jl_malformed acc;
                      jl_last_line_ok := true |}
       end.

Definition read_json_lines (file : option string) : result JsonLines :=
  match file with
  | None => Ok no_lines
  | Some text => result_foldl line_step no_lines (splitlines (universal text))
  end.
End Lines.
Arguments JsonLines : clear implicits.

Record EventLog := {
  el_records : list EventRecord;
  malformed_line_count : Z;
  last_line_ok : bool;
}.

(** [parse_event] never refuses an object. *)
Definition decode_line `{PyConv} `{PyFloatParse} `{PyTime} (d : list (string * Json))
    : result (option EventRecord) :=
  try r <- parse_event d; Ok (Some r).

Definition read_event_log `{PyConv} `{PyFloatParse} `{PyTime} (json_loads : string -> option Json)
    (file : option string) : result EventLog :=
  try lines <- read_json_lines json_loads decode_line file;
  Ok {| el_records := jl_records lines; malformed_line_count := jl_malformed lines;
        last_line_ok := jl_last_line_ok lines |}.

(** * The terminal frame of a run, [src/zicato/telemetry/terminal_event.py]: the log of a run
    that was killed is ended with a [run_aborted] line.
    A file is its text, [None] when it does not exist; the append succeeds. *)

Definition WALL_CLOCK_REASON : string := "wall_clock_budget_exceeded".

Definition _TERMINAL_CASES : list string := ["run_completed"; "run_aborted"; "conversation_ended"].

Definition terminal (r : EventRecord) : bool := bool_decide (ev_case r ∈ _TERMINAL_CASES).

(** ** The spy on a sink

    What it has seen of the envelopes that passed, which are dictionaries here; an
    envelope it cannot read changes nothing. *)
Record SequenceTrackingSink := { last_run_id : string; max_sequence : Z }.

Definition new_sink : SequenceTrackingSink := {| last_run_id := ""; max_sequence := -1 |}.

Section Frame.
Context `{PyConv} `{PyFloatParse} `{PyTime} (json_dumps : Json -> string)
  (json_loads : string -> option Json).

Definition tracked_sequence (event : list (string * Json)) : result Z :=
  match get_none event "sequence" with JNull => Ok (-1)%Z | v => json_int v end.

Definition emit (sink : SequenceTrackingSink) (event : list (string * Json)) : SequenceTrackingSink :=
  let run_id := json_str (get_or event "run_id" (get_or event "runId" (JStr ""))) in
  match tracked_sequence event with
  | Raise _ => sink
  | Ok seq => {| last_run_id := if String.eqb run_id "" then last_run_id sink else run_id;
                 max_sequence := Z.max (max_sequence sink) seq |}
  end.

(** ** The file *)

Definition _file_already_has_terminal (file : option string) : result bool :=
  match file with
  | None => Ok false
  | Some _ => try log <- read_event_log json_loads file; Ok (existsb terminal (el_records log))
  end.

Definition seen_step (acc : string * Z) (r : EventRecord) : string * Z :=
  (if String.eqb (ev_run_id r) "" then acc.1 else ev_run_id r,
   match ev_sequence r with
   | Some n => if (acc.2 <? n)%Z then n else acc.2
   | None => acc.2
   end).

Definition _highest_seen (file : option string) : result (string * Z) :=
  try log <- read_event_log json_loads file;
  Ok (foldl seen_step ("", (-1)%Z) (el_records log)).

(** Without goldfive's stubs, the envelope with its keys in order. *)
Definition aborted_envelope (run_id : string) (sequence : Z) (cause : string) : Json :=
  JObj [("run_aborted", JObj [("reason", JStr cause)]); ("run_id", JStr run_id);
        ("sequence", JInt sequence)].

(** [proto_line] is the line goldfive renders, when it is there. *)
Context (proto_line : option (string -> Z -> string -> string)).

Definition _proto_run_aborted_line (run_id : string) (sequence : Z) (cause : string) : string :=
  match proto_line with
  | Some render => render run_id sequence cause
  | None => json_dumps (aborted_envelope run_id sequence cause)
  end.

(** Whether a frame was appended, and the file. *)
Definition ensure_run_aborted_event (file : option string) (cause run_id : string)
    (sequence : option Z) : result (bool * option string) :=
  try present <- _file_already_has_terminal file;
  if present : bool then Ok (false, file)
  else match file with
       | None => Ok (false, None)
       | Some text =>
           try named <-
             match String.eqb run_id "", sequence with
             | false, Some n => Ok (run_id, n)
             | _, _ =>
                 try seen <- _highest_seen file;
                 Ok (if String.eqb run_id "" then seen.1 else run_id,
                     from_option id (if (0 <=? seen.2)%Z then (seen.2 + 1)%Z else 0%Z) sequence)
             end;
           Ok (true, Some (text +:+ _proto_run_aborted_line named.1 named.2 cause +:+ nl))
       end.
End Frame.
