(* ===== verification/Dialects.v ===== *)
(** The telemetry dialects, [src/zicato/telemetry/dialects.py]: the signals a run's raw
    telemetry reduces to, and the two producers that do not read drift instruments, the
    agent event log and the bare transcript. *)
From S2P Require Import Prelude PyFloat PyText PyLines PyJson CoreTypes Records Loss Scoring EventLog.

(** The turns of a transcript are texts, except that an event's summary is taken as
    written. *)
Record DialectSignals := {
  sg_metric_counts : list MetricCount;
  sg_plan_revisions : Z;
  sg_task_started : Z;
  sg_task_failed : Z;
  sg_llm_call_count : Z;
  sg_token_count : Z;
  sg_agent_text_chars : Z;
  sg_run_id : string;
  sg_adk_session_id : string;
  sg_agent_turns : list Json;
  sg_user_turns : list Json;
  sg_malformed_line_count : Z;
  sg_warnings : list string;
}.

(** Drift events per kind and severity. *)
Definition DriftBucket : Type := list ((string * string) * Z).

(** [tuple(MetricCount(...) for (k, s), n in sorted(bucket.items()))]; no two entries
    share a key. *)
Definition bucket_metrics (b : DriftBucket) : list MetricCount :=
  (fun row => {| mc_name := "drift:" +:+ row.1.1; mc_severity := row.1.2;
                 mc_count := float_of_Z row.2 |})
    <$> py_sorted (fun a b => item_lt a.1 b.1) b.

(** [len(s)] *)
Definition str_len (s : string) : Z := Z.of_nat (String.length s).

(** The first non-empty text among [keys]. *)
Fixpoint _first_str (obj : list (string * Json)) (keys : list string) : string :=
  match keys with
  | [] => ""
  | k :: keys =>
      match as_nonempty (get_none obj k) with Some s => s | None => _first_str obj keys end
  end.

(** ** Agent event logs *)

Definition _ERROR_STATUSES : list string := ["error"; "failure"; "failed"; "fail"].

Definition _event_type (obj : list (string * Json)) : string :=
  _first_str obj ["type"; "event_type"; "kind"].

Definition _tool_response_is_error (obj : list (string * Json)) : bool :=
  bool_decide (str_lower (_first_str obj ["status"]) ∈ _ERROR_STATUSES)
  || match get_none obj "is_error" with JBool b => b | _ => false end
  || truthy (get_none obj "error").

(** The first of [keys] that is there. *)
Fixpoint first_present (obj : list (string * Json)) (keys : list string) : Json :=
  match keys with
  | [] => JNull
  | k :: keys => match dict_get obj k with Some v => v | None => first_present obj keys end
  end.

Definition _message_text (obj : list (string * Json)) : string :=
  _first_str obj ["text"; "content"; "message"].

Definition _message_role (obj : list (string * Json)) : string :=
  let etype := _event_type obj in
  if String.eqb etype "agent_message" then "agent"
  else if String.eqb etype "user_message" then "user"
  else if negb (bool_decide (etype ∈ [""; "message"])) then ""
  else
    let role := str_lower (_first_str obj ["role"]) in
    if bool_decide (role ∈ ["assistant"; "agent"; "model"]) then "agent"
    else if bool_decide (role ∈ ["user"; "human"]) then "user"
    else "".

(** A number that is no [bool]. *)
Definition counted (v : Json) : bool := match v with JInt _ | JFloat _ => true | _ => false end.

Definition skipped_warning (dialect file_name : string) (malformed : Z) : list string :=
  if (malformed =? 0)%Z then []
  else [dialect +:+ " dialect: skipped " +:+ pretty malformed +:+ " malformed line(s) in "
        +:+ file_name].

(** The accumulators of the walk. *)
Record AdkWalk := {
  ak_task_started : Z;
  ak_task_failed : Z;
  ak_llm_call_count : Z;
  ak_token_count : Z;
  ak_agent_text_chars : Z;
  ak_error_events : Z;
  ak_transfer_events : Z;
  ak_loop_events : Z;
  ak_run_id : string;
  ak_session_id : string;
  ak_seen_tool_sigs : list string;
  ak_agent_turns : list string;
  ak_user_turns : list string;
}.

Definition empty_walk : AdkWalk := {|
  ak_task_started := 0; ak_task_failed := 0; ak_llm_call_count := 0; ak_token_count := 0;
  ak_agent_text_chars := 0; ak_error_events := 0; ak_transfer_events := 0; ak_loop_events := 0;
  ak_run_id := ""; ak_session_id := ""; ak_seen_tool_sigs := []; ak_agent_turns := [];
  ak_user_turns := [] |}.

(** [x += 1] when [b]. *)
Definition tally (b : bool) (n : Z) : Z := if b then (n + 1)%Z else n.

Section Dialects.
Context `{PyConv} `{PyFloatParse} `{PyTime} (json_dumps_sorted : Json -> string)
  (json_loads : string -> option Json).

Definition _tool_signature (obj : list (string * Json)) : string :=
  _first_str obj ["tool"; "name"; "tool_name"] +:+ String (Ascii.ascii_of_nat 0) ""
  +:+ json_dumps_sorted (first_present obj ["args"; "arguments"; "input"]).

(** The directional counts, or else the first of the totals. *)
Definition _usage_tokens (obj : list (string * Json)) : result Z :=
  let src := match get_none obj "usage" with JObj d => d | _ => obj end in
  let directional :=
    List.filter counted
      (get_none src <$> ["input_tokens"; "output_tokens"; "prompt_tokens"; "completion_tokens"]) in
  match directional with
  | [] =>
      match List.filter counted (get_none src <$> ["total_tokens"; "tokens"]) with
      | [] => Ok 0%Z
      | v :: _ => json_int v
      end
  | _ => result_foldl (fun total v => try n <- json_int v; Ok (total + n)%Z) 0%Z directional
  end.

(** One event of an agent's log. *)
Definition adk_step (w : AdkWalk) (obj : list (string * Json)) : result AdkWalk :=
  let etype := _event_type obj in
  let kind_is t := String.eqb etype t in
  let call := kind_is "tool_call" in
  let response := kind_is "tool_response" in
  let error := kind_is "error" || kind_is "exception" in
  let transfer := kind_is "agent_transfer" || kind_is "transfer" in
  let usage := kind_is "model_usage" in
  let role := if call || response || error || transfer || usage then "" else _message_role obj in
  let repeated := bool_decide (_tool_signature obj ∈ ak_seen_tool_sigs w) in
  let text := _message_text obj in
  try tokens <- if usage then _usage_tokens obj else Ok 0%Z;
  Ok {|
    ak_task_started := tally call (ak_task_started w);
    ak_task_failed := tally (response && _tool_response_is_error obj) (ak_task_failed w);
    ak_llm_call_count := tally usage (ak_llm_call_count w);
    ak_token_count := ak_token_count w + tokens;
    ak_agent_text_chars :=
      if String.eqb role "agent" then ak_agent_text_chars w + str_len text else ak_agent_text_chars w;
    ak_error_events := tally error (ak_error_events w);
    ak_transfer_events := tally transfer (ak_transfer_events w);
    ak_loop_events := tally (call && repeated) (ak_loop_events w);
    ak_run_id :=
      if String.eqb (ak_run_id w) "" then _first_str obj ["run_id"; "invocation_id"] else ak_run_id w;
    ak_session_id :=
      if String.eqb (ak_session_id w) "" then _first_str obj ["session_id"] else ak_session_id w;
    ak_seen_tool_sigs :=
      if call && negb repeated then ak_seen_tool_sigs w ++ [_tool_signature obj] else ak_seen_tool_sigs w;
    ak_agent_turns :=
      if String.eqb role "agent" then ak_agent_turns w ++ [text] else ak_agent_turns w;
    ak_user_turns :=
      if String.eqb role "user" then ak_user_turns w ++ [text] else ak_user_turns w;
  |}.

(** A bucket is there when it counted something. *)
Definition bucket_row (kind severity : string) (n : Z) : DriftBucket :=
  if (n =? 0)%Z then [] else [((kind, severity), n)].

Definition reduce_adk_events (file_name : string) (file : option string) : result DialectSignals :=
  try log <- read_event_log json_loads file;
  try w <- result_foldl adk_step empty_walk (ev_raw <$> el_records log);
  Ok {|
    sg_metric_counts := bucket_metrics
      (bucket_row "tool_error" "critical" (ak_error_events w)
       ++ bucket_row "looping_tool_call" "warning" (ak_loop_events w)
       ++ bucket_row "agent_transfer" "info" (ak_transfer_events w));
    sg_plan_revisions := 0; sg_task_started := ak_task_started w; sg_task_failed := ak_task_failed w;
    sg_llm_call_count := ak_llm_call_count w; sg_token_count := ak_token_count w;
    sg_agent_text_chars := ak_agent_text_chars w; sg_run_id := ak_run_id w;
    sg_adk_session_id := ak_session_id w; sg_agent_turns := JStr <$> ak_agent_turns w;
    sg_user_turns := JStr <$> ak_user_turns w; sg_malformed_line_count := malformed_line_count log;
    sg_warnings := skipped_warning "adk_events" file_name (malformed_line_count log) |}.

(** ** Transcripts *)

Definition _transcript_lines (objs : list (list (string * Json))) : list (string * string) :=
  List.filter (fun line => negb (String.eqb line.1 ""))
    ((fun obj => (_message_role obj, _message_text obj)) <$> objs).

Definition reduce_transcript (file_name : string) (file : option string) : result DialectSignals :=
  try log <- read_event_log json_loads file;
  let lines := _transcript_lines (ev_raw <$> el_records log) in
  let turns p := (List.filter (fun line => p (String.eqb line.1 "agent")) lines).*2 in
  let agent := turns (fun b => b) in
  Ok {|
    sg_metric_counts := []; sg_plan_revisions := 0; sg_task_started := 0; sg_task_failed := 0;
    sg_llm_call_count := 0; sg_token_count := 0;
    sg_agent_text_chars := foldl (fun n text => n + str_len text)%Z 0%Z agent;
    sg_run_id := ""; sg_adk_session_id := ""; sg_agent_turns := JStr <$> agent;
    sg_user_turns := JStr <$> turns negb; sg_malformed_line_count := malformed_line_count log;
    sg_warnings := skipped_warning "transcript" file_name (malformed_line_count log) |}.
End Dialects.

(** ** Capability warnings *)

(** [a != b] on [float | None]. *)
Definition opt_float_ne (a b : option float) : bool :=
  match a, b with
  | Some x, Some y => negb (feq x y)
  | None, None => false
  | _, _ => true
  end.

Definition warn_if (b : bool) (text : string) : list string := if b then [text] else [].

Definition dialect_capability_warnings (w : ScoringWeights) : list string :=
  let dialect := telemetry_dialect w in
  let moved ns := opt_float_ne (dict_get (namespace_weights w) ns)
                               (dict_get (namespace_weights default_weights) ns) in
  let inert knob why := knob +:+ " is inert under the '" +:+ dialect +:+ "' dialect: " +:+ why in
  let transcript := String.eqb dialect DIALECT_TRANSCRIPT in
  let foreign := transcript || String.eqb dialect DIALECT_ADK_EVENTS in
  if String.eqb dialect DIALECT_GOLDFIVE then []
  else
    warn_if (transcript && moved "drift:")
      (inert "namespace_weights['drift:']" "it produces no drift, so the channel is structurally 0.")
    ++ warn_if (transcript && negb (feq (plan_revision_weight w) (plan_revision_weight default_weights)))
      (inert "plan_revision_weight" "no plan-revision telemetry is produced.")
    ++ warn_if (transcript && negb (Nat.eqb (length (per_kind_weights w)) 0))
      (inert "per_kind_weights" "no drift kinds are produced.")
    ++ warn_if (transcript && negb (Nat.eqb (length (drift_kind_aggregation w)) 0))
      (inert "drift_kind_aggregation" "no drift kinds are produced.")
    ++ warn_if (transcript && negb (String.eqb (drift_reducer w) ""))
      (inert "drift_reducer" "the drift term is structurally 0 with no counts to reduce.")
    ++ warn_if (foreign && negb (Nat.eqb (length (per_judge_weights w)) 0))
      (inert "per_judge_weights" ("an event log / transcript carries no process-judge judgements, so "
                                  +:+ "no custom:<judge_name> drift is produced."))
    ++ warn_if (foreign && moved "judge:")
      (inert "namespace_weights['judge:']"
         "no process-judge judgements are produced, so the channel is structurally 0.").
