(* ===== verification/Reducer.v ===== *)
(** The reducer, [src/zicato/telemetry/reducer.py]: from the events of a run to its loss
    profile, by the dialect the contract pins.
    goldfive's own parser and the operator's drift plugin are handed in. *)
From S2P Require Import Prelude PyFloat PyText PyLines PyJson CoreTypes Records Board Loss Scoring EventLog Dialects.

(** ** The wire vocabulary ([src/zicato/core/drift_kinds.py]) *)

Definition normalize_wire_drift_kind (raw : string) : option string :=
  if String.eqb raw "" then None
  else match str_after_prefix "DRIFT_KIND_" raw with
       | Some rest =>
           let suffix := str_lower rest in
           if bool_decide (suffix ∈ [""; "unspecified"]) then None else Some suffix
       | None => Some (str_lower raw)
       end.

Definition SEVERITIES : list string := ["info"; "warning"; "critical"].

Definition normalize_wire_severity (raw : string) : option string :=
  if String.eqb raw "" then None
  else
    let s := match str_after_prefix "DRIFT_SEVERITY_" raw with
             | Some rest => str_lower rest
             | None => str_lower raw
             end in
    if bool_decide (s ∈ SEVERITIES) then Some s else None.

Definition _DRIFT_KIND_INT_TO_STR : list (Z * string) :=
  [(1, "tool_error"); (2, "agent_refusal"); (3, "new_work_discovered"); (4, "plan_divergence");
   (5, "user_steer"); (6, "user_cancel"); (7, "task_failed_recoverable"); (8, "task_failed_fatal");
   (9, "context_pressure"); (10, "blocked"); (11, "wrong_agent"); (12, "agent_transfer");
   (13, "model_refusal"); (14, "stopped_early"); (15, "too_many_steps"); (16, "goal_unreachable");
   (17, "task_timeout"); (18, "repeated_failure"); (19, "unexpected_output");
   (20, "schema_violation"); (21, "hallucination_suspected"); (22, "safety_concern");
   (23, "resource_exhausted"); (24, "ambiguous_intent"); (25, "custom"); (26, "looping_tool_call");
   (27, "looping_reasoning"); (29, "off_topic"); (30, "intent_divergence");
   (31, "uncertain_progress"); (32, "self_reported_stuck"); (33, "reasoning_cluster_tightening");
   (34, "confabulation_risk"); (35, "runaway_delegation"); (36, "refine_validation_failed");
   (37, "human_intervention_required"); (38, "goal_drift"); (39, "llm_call_timeout");
   (40, "justified_deviation"); (41, "capability_mismatch")]%Z.

Definition _DRIFT_SEVERITY_INT_TO_STR : list (Z * string) :=
  [(1, "info"); (2, "warning"); (3, "critical")]%Z.

(** ** Judges *)

Definition _CUSTOM_DRIFT_KIND : string := "custom".

Definition _judge_attributed_kind (judge_name : string) : string :=
  let name := str_strip judge_name in
  if String.eqb name "" then _CUSTOM_DRIFT_KIND else _CUSTOM_DRIFT_KIND +:+ ":" +:+ name.

Definition split_judge_attributed_kind (kind : string) : bool * string :=
  if String.eqb kind _CUSTOM_DRIFT_KIND then (true, "")
  else match str_after_prefix (_CUSTOM_DRIFT_KIND +:+ ":") kind with
       | Some name => (true, name)
       | None => (false, "")
       end.

Definition judge_step (w : ScoringWeights) (raw : list (string * float)) (mc : MetricCount)
    : list (string * float) :=
  match drift_kind (mc_name mc) with
  | None => raw
  | Some kind =>
      let '(is_custom, judge) := split_judge_attributed_kind kind in
      if is_custom then
        let sev := dict_get_or (severity_weights w) (mc_severity mc) f0 in
        dict_set raw judge (fadd (dict_get_or raw judge f0) (fmul sev (mc_count mc)))
      else raw
  end.

Definition judge_loss (w : ScoringWeights) (raw : list (string * float)) (judge : string) : JudgeLoss :=
  let r := dict_get_or raw judge f0 in
  let weight := dict_get_or (per_judge_weights w) judge (default_judge_weight w) in
  {| jl_judge_name := judge; raw_loss := r; jl_weight := weight; weighted_loss := fmul r weight |}.

Definition compute_per_judge_loss (mcs : list MetricCount) (w : ScoringWeights) : list JudgeLoss :=
  let raw := foldl (judge_step w) [] mcs in
  judge_loss w raw <$> sorted_strings (dict_keys raw).

(** ** Expectations *)

Definition _continuous_score (r : ExpectationResult) : float :=
  match er_score r with
  | None => if passed r then f1 else f0
  | Some value =>
      if negb (isfinite value) then f0
      else if flt value f0 then f0
      else if flt f1 value then f1
      else value
  end.

(** The finite metrics, [None] when none is left. *)
Definition cleaned_metrics (r : ExpectationResult) : option (list (string * float)) :=
  match er_metrics r with
  | None => None
  | Some d =>
      match List.filter (fun item => isfinite item.2) d with [] => None | kept => Some kept end
  end.

(** ** Multi-turn heuristics *)

Definition _MEMORY_FAILURE_MIN_SUBSTRING_LEN : nat := 40.
Definition _CONTEXT_LOSS_TRIGRAM_THRESHOLD : float := 0.7%float.

(** Runs of white space become one space; [gap] is whether the last character was one. *)
Fixpoint collapse (gap : bool) (s : string) : string :=
  match s with
  | "" => ""
  | String c s =>
      if ascii_is_space c then
        if gap then collapse true s else String (Ascii.ascii_of_nat 32) (collapse true s)
      else String c (collapse false s)
  end.

Definition _normalise_for_substring (text : string) : string :=
  str_lower (collapse false (str_strip text)).

(** Every substring of [n] characters, from left to right. *)
Fixpoint windows (n : nat) (s : string) : list string :=
  match s with
  | "" => []
  | String _ s' =>
      if n <=? String.length s then String.substring 0 n s :: windows n s' else []
  end.

Definition _has_shared_substring (a b : string) (min_len : nat) : bool :=
  if (String.length a <? min_len) || (String.length b <? min_len) then false
  else existsb (fun w => bool_decide (w ∈ windows min_len a)) (windows min_len b).

Definition Counter : Type := list (string * Z).

Definition counter (keys : list string) : Counter :=
  foldl (fun d k => dict_set d k (dict_get_or d k 0 + 1)%Z) [] keys.

Definition _trigrams (text : string) : Counter := counter (windows 3 (_normalise_for_substring text)).

(** Pairs of turns that share a long substring; [earlier] are the turns before. *)
Fixpoint memory_pairs (earlier rest : list string) : Z :=
  match rest with
  | [] => 0
  | t :: rest =>
      (Z.of_nat (count (fun e => _has_shared_substring e t _MEMORY_FAILURE_MIN_SUBSTRING_LEN) earlier)
       + memory_pairs (earlier ++ [t]) rest)%Z
  end.

(** A turn is a text; anything else has no [strip]. *)
Definition turn_text (v : Json) : result string :=
  match v with JStr s => Ok s | _ => Raise (OtherException "AttributeError") end.

Definition _memory_failure_count (agent_turns : list Json) : result Z :=
  try texts <- result_map turn_text agent_turns;
  Ok (memory_pairs [] (_normalise_for_substring <$> texts)).

Definition question (text : string) : bool := str_endswith "?" (str_strip text).

Section Cosine.
Context `{Libm}.

Definition norm (a : Counter) : result float :=
  try total <- fsum ((fun item => float_of_Z (item.2 * item.2)) <$> a);
  m_pow total 0.5%float.

Definition _cosine (a b : Counter) : result float :=
  match a, b with
  | [], _ | _, [] => Ok f0
  | _, _ =>
      let '(a, b) := if Nat.ltb (length b) (length a) then (b, a) else (a, b) in
      let dot := foldl (fun n item => n + item.2 * dict_get_or b item.1 0)%Z 0%Z a in
      if (dot =? 0)%Z then Ok f0
      else
        try norm_a <- norm a;
        try norm_b <- norm b;
        if feq norm_a f0 || feq norm_b f0 then Ok f0
        else
          let product := fmul norm_a norm_b in
          ensure negb (feq product f0) orelse ZeroDivisionError;
          Ok (fdiv (float_of_Z dot) product)
  end.

(** Whether one of the statements is close to the question. *)
Fixpoint repeats_statement (agent_g : Counter) (user_grams : list Counter) : result bool :=
  match user_grams with
  | [] => Ok false
  | [] :: user_grams => repeats_statement agent_g user_grams
  | user_g :: user_grams =>
      try c <- _cosine agent_g user_g;
      if fle _CONTEXT_LOSS_TRIGRAM_THRESHOLD c then Ok true else repeats_statement agent_g user_grams
  end.

Definition context_step (user_grams : list Counter) (count : Z) (turn : Json) : result Z :=
  try text <- turn_text turn;
  if negb (question text) then Ok count
  else match _trigrams text with
       | [] => Ok count
       | agent_g => try hit <- repeats_statement agent_g user_grams; Ok (tally hit count)
       end.

Definition _context_loss_count (agent_turns user_turns : list Json) : result Z :=
  try users <- result_map turn_text user_turns;
  let statements :=
    List.filter (fun u => negb (String.eqb (str_strip u) "") && negb (question u)) users in
  result_foldl (context_step (_trigrams <$> statements)) 0%Z agent_turns.
End Cosine.

(** ** The goldfive walk *)

Record GoldfiveWalk := {
  gf_bucket : DriftBucket;
  gf_plan_revisions : Z;
  gf_task_started : Z;
  gf_task_failed : Z;
  gf_llm_call_count : Z;
  gf_token_count : Z;
  gf_agent_text_chars : Z;
  gf_run_id : string;
  gf_session_id : string;
  gf_pending_judge_name : option string;
}.

Definition empty_goldfive : GoldfiveWalk := {|
  gf_bucket := []; gf_plan_revisions := 0; gf_task_started := 0; gf_task_failed := 0;
  gf_llm_call_count := 0; gf_token_count := 0; gf_agent_text_chars := 0; gf_run_id := "";
  gf_session_id := ""; gf_pending_judge_name := None |}.

(** [payload.get(key, "")] *)
Definition get_text (payload : list (string * Json)) (key : string) : Json :=
  dict_get_or payload key (JStr "").

Section Walk.
Context `{PyConv} `{PyFloatParse}.

(** An [int] is looked up, a [bool] with them; anything else is read as a text. *)
Definition wire_value (table : list (Z * string)) (normalize : string -> option string) (v : Json)
    : option string :=
  match v with
  | JInt z => dict_get table z
  | JBool b => dict_get table (if b then 1 else 0)%Z
  | _ => normalize (json_str v)
  end.

Definition _extract_drift_buckets (payload : list (string * Json)) : option string * option string :=
  (wire_value _DRIFT_KIND_INT_TO_STR normalize_wire_drift_kind (get_text payload "kind"),
   wire_value _DRIFT_SEVERITY_INT_TO_STR normalize_wire_severity (get_text payload "severity")).

Definition _judgement_judge_name (payload : list (string * Json)) : option string :=
  if String.eqb (json_str (get_or payload "verdict_kind" (JStr ""))) "drift"
  then Some (json_str (get_or payload "judge_name" (JStr "")))
  else None.

(** The row a drift event counts for, given the judge waiting for one. *)
Definition drift_row (pending : option string) (payload : list (string * Json))
    : option (string * string) :=
  match _extract_drift_buckets payload with
  | (Some kind, Some sev) =>
      Some (if String.eqb kind _CUSTOM_DRIFT_KIND
            then _judge_attributed_kind (from_option id "" pending) else kind, sev)
  | _ => None
  end.

Definition add_row (b : DriftBucket) (row : option (string * string)) : DriftBucket :=
  match row with Some k => dict_set b k (dict_get_or b k 0 + 1)%Z | None => b end.

(** [isinstance(v, int | float)] holds of a [bool]. *)
Definition token_value (v : Json) : result Z :=
  match v with JBool _ | JInt _ | JFloat _ => json_int v | _ => Ok 0%Z end.

Definition call_tokens (payload : list (string * Json)) : result Z :=
  result_foldl (fun total v => try n <- token_value v; Ok (total + n)%Z) 0%Z
    (get_none payload <$> ["input_tokens"; "output_tokens"; "tokens"; "total_tokens"]).

Definition text_chars (v : Json) : Z := match v with JStr s => str_len s | _ => 0%Z end.

(** One event; a later branch sees only what the earlier ones left. *)
Definition goldfive_step (w : GoldfiveWalk) (evt : EventRecord) : result GoldfiveWalk :=
  let payload := ev_payload evt in
  let kind_is t := String.eqb (ev_case evt) t in
  let drift := kind_is "drift_detected" in
  let call := kind_is "goldfive_llm_call_end" in
  let summary := kind_is "agent_invocation_completed" || kind_is "task_completed" in
  try tokens <- if call then call_tokens payload else Ok 0%Z;
  Ok {|
    gf_bucket :=
      if drift then add_row (gf_bucket w) (drift_row (gf_pending_judge_name w) payload) else gf_bucket w;
    gf_plan_revisions := tally (kind_is "plan_revised") (gf_plan_revisions w);
    gf_task_started := tally (kind_is "task_started") (gf_task_started w);
    gf_task_failed := tally (kind_is "task_failed") (gf_task_failed w);
    gf_llm_call_count := tally call (gf_llm_call_count w);
    gf_token_count := gf_token_count w + tokens;
    gf_agent_text_chars :=
      (gf_agent_text_chars w + if summary then text_chars (get_text payload "summary") else 0)%Z;
    gf_run_id := if String.eqb (gf_run_id w) "" then ev_run_id evt else gf_run_id w;
    gf_session_id := if String.eqb (gf_session_id w) "" then ev_session_id evt else gf_session_id w;
    gf_pending_judge_name :=
      if drift then None
      else if kind_is "judgement_emitted" then
        match _judgement_judge_name payload with Some j => Some j | None => gf_pending_judge_name w end
      else gf_pending_judge_name w;
  |}.

(** The text of an event's turn. *)
Definition agent_turn (evt : EventRecord) : option Json :=
  let field :=
    if String.eqb (ev_case evt) "agent_invocation_completed" || String.eqb (ev_case evt) "task_completed"
    then Some "summary"
    else if String.eqb (ev_case evt) "run_completed" then Some "outcome_summary" else None in
  name ← field; let s := get_text (ev_payload evt) name in if truthy s then Some s else None.

Definition user_turn (evt : EventRecord) : option Json :=
  if String.eqb (ev_case evt) "run_started" then
    let s := get_text (ev_payload evt) "goal_summary" in if truthy s then Some s else None
  else None.

Definition _agent_and_user_turns_from_events (events : list EventRecord) : list Json * list Json :=
  (omap agent_turn events, omap user_turn events).

Definition signals_of_events (events : list EventRecord) : result DialectSignals :=
  try w <- result_foldl goldfive_step empty_goldfive events;
  let '(agent, user) := _agent_and_user_turns_from_events events in
  Ok {|
    sg_metric_counts := bucket_metrics (gf_bucket w); sg_plan_revisions := gf_plan_revisions w;
    sg_task_started := gf_task_started w; sg_task_failed := gf_task_failed w;
    sg_llm_call_count := gf_llm_call_count w; sg_token_count := gf_token_count w;
    sg_agent_text_chars := gf_agent_text_chars w; sg_run_id := gf_run_id w;
    sg_adk_session_id := gf_session_id w; sg_agent_turns := agent; sg_user_turns := user;
    sg_malformed_line_count := 0; sg_warnings := [] |}.
End Walk.

(** goldfive's strict parser: [None] when the package is not there; it may refuse a file. *)
Class Goldfive := { replay_from_jsonl : option (string -> option (list (list (string * Json)))) }.
Definition no_goldfive : Goldfive := {| replay_from_jsonl := None |}.

(** ** The profile *)

Section Reduce.
Context `{PyConv} `{PyFloatParse} `{PyTime} `{Libm} `{PyFormat} `{Goldfive}
  (json_dumps_sorted : Json -> string) (json_loads : string -> option Json)
  (resolve : string -> option (DriftContext -> result Json)).

Definition _load_events (text : string) : result (list EventRecord) :=
  match from_option (fun replay => replay text) None replay_from_jsonl with
  | Some events => result_map parse_event events
  | None => try log <- read_event_log json_loads (Some text); Ok (el_records log)
  end.

Definition _goldfive_signals (file : option string) : result DialectSignals :=
  try events <- match file with Some text => _load_events text | None => Ok [] end;
  signals_of_events events.

Definition _resolve_dialect_producer (dialect file_name : string) (file : option string)
    : result DialectSignals :=
  if String.eqb dialect DIALECT_ADK_EVENTS then
    reduce_adk_events json_dumps_sorted json_loads file_name file
  else if String.eqb dialect DIALECT_TRANSCRIPT then reduce_transcript json_loads file_name file
  else _goldfive_signals file.

(** [max(0.0, min(1.0, failed / started))] *)
Definition task_ratio (started failed : Z) : float :=
  match started with
  | Zpos n => fmax f0 (fmin f1 (Z_truediv failed n))
  | _ => f0
  end.

Definition metric (name : string) (n : Z) : MetricCount :=
  {| mc_name := name; mc_severity := ""; mc_count := float_of_Z n |}.
Definition metric_if (name : string) (n : Z) : list MetricCount :=
  if (n =? 0)%Z then [] else [metric name n].

(** [int(sum(counts))] *)
Definition schema_failure_count (mcs : list MetricCount) : result Z :=
  let counts := List.filter (fun mc => String.eqb (mc_name mc) "drift:schema_violation") mcs in
  json_int (JFloat (py_sum (mc_count <$> counts))).

(** The tail of [reduce_loss], the same for every dialect. *)
Definition profile_of_signals (s : DialectSignals) (entry : BoardEntry) (generation_id epoch_id : string)
    (expectation : option ExpectationResult) (run_ms : Z) (over_budget : bool) (w : ScoringWeights)
    (final_output : option string) (run_not_completed : bool) : result LossProfile :=
  let mcs := sg_metric_counts s in
  try schema <- schema_failure_count mcs;
  let chars := match final_output with Some out => str_len out | None => sg_agent_text_chars s end in
  let incomplete := over_budget || run_not_completed in
  let ratio := if incomplete then f1 else task_ratio (sg_task_started s) (sg_task_failed s) in
  try heuristics <-
    match kind entry with
    | single_turn => Ok (None, None, None)
    | _ =>
        try memory <- _memory_failure_count (sg_agent_turns s);
        try context <- _context_loss_count (sg_agent_turns s) (sg_user_turns s);
        Ok (Some (Z.of_nat (length (sg_agent_turns s))), Some memory, Some context)
    end;
  let '(turns, memory, context) := heuristics in
  try builtin <- builtin_drift_loss mcs (sg_plan_revisions s) w;
  try resolved <- resolve_drift_loss resolve
    {| dc_metric_counts := mcs; dc_plan_revisions := sg_plan_revisions s;
       dc_task_failure_ratio := ratio; dc_runtime_ms := run_ms; dc_weights := w;
       builtin_loss := builtin |};
  Ok {|
    lp_run_id := if String.eqb (sg_run_id s) "" then generation_id +:+ ":" +:+ entry_id entry
                 else sg_run_id s;
    lp_entry_id := entry_id entry; lp_generation_id := generation_id; lp_epoch_id := epoch_id;
    plan_revisions := sg_plan_revisions s; task_failure_ratio := ratio; runtime_ms := run_ms;
    wall_clock_budget_exceeded := over_budget; expectation_result := expectation;
    drift_loss := resolved.1; pass_fail := passed <$> expectation; turns_completed := turns;
    memory_failure_count := memory; context_loss_count := context;
    metric_counts := mcs ++ metric "cost:llm_calls" (sg_llm_call_count s)
      :: metric_if "cost:tokens_spent" (sg_token_count s) ++ metric_if "output:chars" chars
      ++ metric_if "schema:failures" schema;
    tokens_spent := sg_token_count s; output_chars := chars; schema_failures := schema;
    adk_session_id := sg_adk_session_id s; lp_match_id := "";
    per_judge_loss := compute_per_judge_loss mcs w; judge_errors := []; cached := false;
    source_epoch := ""; source_run := ""; lp_score := _continuous_score <$> expectation;
    lp_metrics := expectation ≫= cleaned_metrics; scoring_provenance := Some resolved.2;
    abort_cause := None; not_completed := incomplete; not_completed_reason := None;
    started_at := None; ended_at := None; execution_started := None; lp_measurement := None;
    source_measurements := [] |}.

Definition reduce_loss (file_name : string) (file : option string) (entry : BoardEntry)
    (generation_id epoch_id : string) (expectation : option ExpectationResult) (run_ms : Z)
    (over_budget : bool) (w : ScoringWeights) (final_output : option string)
    (run_not_completed : bool) : result LossProfile :=
  try s <- _resolve_dialect_producer (telemetry_dialect w) file_name file;
  profile_of_signals s entry generation_id epoch_id expectation run_ms over_budget w final_output
    run_not_completed.

(** The drift term alone. *)
Definition compute_drift_loss (mcs : list MetricCount) (plan_revisions : Z) (w : ScoringWeights)
    (failure_ratio : float) (run_ms : Z) : result float :=
  try builtin <- builtin_drift_loss mcs plan_revisions w;
  try resolved <- resolve_drift_loss resolve
    {| dc_metric_counts := mcs; dc_plan_revisions := plan_revisions;
       dc_task_failure_ratio := failure_ratio; dc_runtime_ms := run_ms; dc_weights := w;
       builtin_loss := builtin |};
  Ok resolved.1.
End Reduce.
