(* ===== verification/LossCodec.v ===== *)
(** The loss record of a run, [loss_profile_to_dict] and [loss_profile_from_dict] of
    [src/zicato/telemetry/reducer.py]: every declared field is written and required, except
    those of provenance, which an older or synthesised record may omit. *)
From S2P Require Import Prelude PyFloat PyText PyJson CoreTypes Board Params Records Configuration Measurement Loss.

Definition expectation_members : list (string * ExpectationKind) :=
  [("expected_text", EXPECTED_TEXT); ("regex", REGEX); ("json_schema", JSON_SCHEMA);
   ("predicate", PREDICATE); ("rubric", RUBRIC)].

Definition expectation_token (k : ExpectationKind) : string :=
  match k with
  | EXPECTED_TEXT => "expected_text" | REGEX => "regex" | JSON_SCHEMA => "json_schema"
  | PREDICATE => "predicate" | RUBRIC => "rubric"
  end.

(** ** Writing *)

Definition floats_body (d : list (string * float)) : Json :=
  JObj ((fun item => (item.1, JFloat item.2)) <$> d).

Definition expectation_body (r : ExpectationResult) : Json :=
  JObj [("kind", JStr (expectation_token (er_kind r))); ("passed", JBool (passed r));
        ("detail", JStr (detail r)); ("score", jopt JFloat (er_score r));
        ("metrics", jopt floats_body (er_metrics r))].

Definition metric_body (mc : MetricCount) : Json :=
  JObj [("name", JStr (mc_name mc)); ("severity", JStr (mc_severity mc)); ("count", JFloat (mc_count mc))].

Definition judge_loss_body (jl : JudgeLoss) : Json :=
  JObj [("judge_name", JStr (jl_judge_name jl)); ("raw_loss", JFloat (raw_loss jl));
        ("weight", JFloat (jl_weight jl)); ("weighted_loss", JFloat (weighted_loss jl))].

Definition judge_error_body (e : JudgeError) : Json :=
  JObj [("judge_name", JStr (je_judge_name e)); ("invocations", JInt (invocations e));
        ("errors", JInt (errors e)); ("last_error_type", JStr (last_error_type e))].

(** The fields of [LossProfile] before its provenance. *)
Definition recorded_fields : list string :=
  ["run_id"; "entry_id"; "generation_id"; "epoch_id"; "plan_revisions"; "task_failure_ratio";
   "runtime_ms"; "wall_clock_budget_exceeded"; "expectation_result"; "drift_loss"; "pass_fail";
   "turns_completed"; "memory_failure_count"; "context_loss_count"; "metric_counts";
   "tokens_spent"; "output_chars"; "schema_failures"; "adk_session_id"; "match_id";
   "per_judge_loss"; "judge_errors"; "cached"; "source_epoch"; "source_run"; "score"; "metrics";
   "scoring_provenance"; "abort_cause"; "not_completed"; "not_completed_reason"; "started_at";
   "ended_at"].
Definition provenance_fields : list string := ["execution_started"; "measurement"; "source_measurements"].

Definition recorded_body (p : LossProfile) : list (string * Json) :=
  [("run_id", JStr (lp_run_id p)); ("entry_id", JStr (lp_entry_id p));
   ("generation_id", JStr (lp_generation_id p)); ("epoch_id", JStr (lp_epoch_id p));
   ("plan_revisions", JInt (plan_revisions p));
   ("task_failure_ratio", JFloat (task_failure_ratio p)); ("runtime_ms", JInt (runtime_ms p));
   ("wall_clock_budget_exceeded", JBool (wall_clock_budget_exceeded p));
   ("expectation_result", jopt expectation_body (expectation_result p));
   ("drift_loss", JFloat (drift_loss p)); ("pass_fail", jopt JBool (pass_fail p));
   ("turns_completed", jopt JInt (turns_completed p));
   ("memory_failure_count", jopt JInt (memory_failure_count p));
   ("context_loss_count", jopt JInt (context_loss_count p));
   ("metric_counts", JArr (metric_body <$> metric_counts p));
   ("tokens_spent", JInt (tokens_spent p)); ("output_chars", JInt (output_chars p));
   ("schema_failures", JInt (schema_failures p)); ("adk_session_id", JStr (adk_session_id p));
   ("match_id", JStr (lp_match_id p));
   ("per_judge_loss", JArr (judge_loss_body <$> per_judge_loss p));
   ("judge_errors", JArr (judge_error_body <$> judge_errors p)); ("cached", JBool (cached p));
   ("source_epoch", JStr (source_epoch p)); ("source_run", JStr (source_run p));
   ("score", jopt JFloat (lp_score p)); ("metrics", jopt floats_body (lp_metrics p));
   ("scoring_provenance", jopt JStr (scoring_provenance p)); ("abort_cause", jopt JStr (abort_cause p));
   ("not_completed", JBool (not_completed p));
   ("not_completed_reason", jopt JStr (not_completed_reason p));
   ("started_at", jopt JStr (started_at p)); ("ended_at", jopt JStr (ended_at p))].

Definition optional_draw (m : option MeasurementDraw) : Json := jopt draw_to_json m.

Definition provenance_body (p : LossProfile) : list (string * Json) :=
  match execution_started p with Some b => [("execution_started", JBool b)] | None => [] end
  ++ match lp_measurement p with Some m => [("measurement", draw_to_json m)] | None => [] end
  ++ match source_measurements p with
     | [] => []
     | l => [("source_measurements", JArr (optional_draw <$> l))]
     end.

Definition loss_profile_to_dict (p : LossProfile) : list (string * Json) :=
  recorded_body p ++ provenance_body p.

(** ** Reading *)

Definition decode_floats : Decoder (list (string * float)) := fun path raw =>
  match raw with
  | JObj d =>
      result_map (fun item => try x <- decode_float (path +:+ "." +:+ item.1) item.2; Ok (item.1, x)) d
  | _ => Raise (ConfigurationError path "type" "expected an object")
  end.

Definition decode_expectation : Decoder ExpectationResult := fun path raw =>
  try d <- declared_object ["kind"; "passed"; "detail"; "score"; "metrics"] path raw;
  try k <- required (decode_enum expectation_members) path d "kind";
  try ok <- required decode_bool path d "passed";
  try text <- defaulted decode_str "" path d "detail";
  try value <- defaulted (decode_optional decode_float) None path d "score";
  try parts <- defaulted (decode_optional decode_floats) None path d "metrics";
  Ok {| er_kind := k; passed := ok; detail := text; er_score := value; er_metrics := parts |}.

(** [Literal["info", "warning", "critical", ""]] *)
Definition severity_members : list (string * string) :=
  [("info", "info"); ("warning", "warning"); ("critical", "critical"); ("", "")].

Definition decode_metric : Decoder MetricCount := fun path raw =>
  try d <- declared_object ["name"; "severity"; "count"] path raw;
  try name <- required decode_str path d "name";
  try severity <- defaulted (decode_literal severity_members) "" path d "severity";
  try n <- defaulted decode_float f0 path d "count";
  Ok {| mc_name := name; mc_severity := severity; mc_count := n |}.

Definition decode_judge_loss : Decoder JudgeLoss := fun path raw =>
  try d <- declared_object ["judge_name"; "raw_loss"; "weight"; "weighted_loss"] path raw;
  try name <- required decode_str path d "judge_name";
  try raw_value <- required decode_float path d "raw_loss";
  try weight <- required decode_float path d "weight";
  try weighted <- required decode_float path d "weighted_loss";
  Ok {| jl_judge_name := name; raw_loss := raw_value; jl_weight := weight; weighted_loss := weighted |}.

Definition decode_judge_error : Decoder JudgeError := fun path raw =>
  try d <- declared_object ["judge_name"; "invocations"; "errors"; "last_error_type"] path raw;
  try name <- required decode_str path d "judge_name";
  try calls <- required decode_int path d "invocations";
  try failures <- required decode_int path d "errors";
  try last <- defaulted decode_str "" path d "last_error_type";
  Ok {| je_judge_name := name; invocations := calls; errors := failures; last_error_type := last |}.

Definition decode_opt_int : Decoder (option Z) := decode_optional decode_int.
Definition decode_opt_str : Decoder (option string) := decode_optional decode_str.

(** [authored_dataclass_from_json(LossProfile, values, path="loss")], where [values] lacks
    the measurements. *)
Definition decode_profile : Decoder LossProfile := fun path raw =>
  try d <- declared_object (recorded_fields ++ provenance_fields) path raw;
  try run <- required decode_str path d "run_id";
  try entry <- required decode_str path d "entry_id";
  try generation <- required decode_str path d "generation_id";
  try epoch <- required decode_str path d "epoch_id";
  try revisions <- required decode_int path d "plan_revisions";
  try ratio <- required decode_float path d "task_failure_ratio";
  try ms <- required decode_int path d "runtime_ms";
  try over <- required decode_bool path d "wall_clock_budget_exceeded";
  try expectation <- required (decode_optional decode_expectation) path d "expectation_result";
  try loss <- required decode_float path d "drift_loss";
  try verdict <- required (decode_optional decode_bool) path d "pass_fail";
  try turns <- defaulted decode_opt_int None path d "turns_completed";
  try memory <- defaulted decode_opt_int None path d "memory_failure_count";
  try context <- defaulted decode_opt_int None path d "context_loss_count";
  try metrics <- defaulted (decode_array decode_metric) [] path d "metric_counts";
  try tokens <- defaulted decode_int 0%Z path d "tokens_spent";
  try chars <- defaulted decode_int 0%Z path d "output_chars";
  try schema <- defaulted decode_int 0%Z path d "schema_failures";
  try session <- defaulted decode_str "" path d "adk_session_id";
  try game <- defaulted decode_str "" path d "match_id";
  try judges <- defaulted (decode_array decode_judge_loss) [] path d "per_judge_loss";
  try judge_failures <- defaulted (decode_array decode_judge_error) [] path d "judge_errors";
  try reused <- defaulted decode_bool false path d "cached";
  try from_epoch <- defaulted decode_str "" path d "source_epoch";
  try from_run <- defaulted decode_str "" path d "source_run";
  try score <- defaulted (decode_optional decode_float) None path d "score";
  try parts <- defaulted (decode_optional decode_floats) None path d "metrics";
  try provenance <- defaulted decode_opt_str None path d "scoring_provenance";
  try cause <- defaulted decode_opt_str None path d "abort_cause";
  try incomplete <- defaulted decode_bool false path d "not_completed";
  try incomplete_reason <- defaulted decode_opt_str None path d "not_completed_reason";
  try start <- defaulted decode_opt_str None path d "started_at";
  try stop <- defaulted decode_opt_str None path d "ended_at";
  try started <- defaulted (decode_optional decode_bool) None path d "execution_started";
  Ok {| lp_run_id := run; lp_entry_id := entry; lp_generation_id := generation; lp_epoch_id := epoch;
        plan_revisions := revisions; task_failure_ratio := ratio; runtime_ms := ms;
        wall_clock_budget_exceeded := over; expectation_result := expectation; drift_loss := loss;
        pass_fail := verdict; turns_completed := turns; memory_failure_count := memory;
        context_loss_count := context; metric_counts := metrics; tokens_spent := tokens;
        output_chars := chars; schema_failures := schema; adk_session_id := session;
        lp_match_id := game; per_judge_loss := judges; judge_errors := judge_failures;
        cached := reused; source_epoch := from_epoch; source_run := from_run; lp_score := score;
        lp_metrics := parts; scoring_provenance := provenance; abort_cause := cause;
        not_completed := incomplete; not_completed_reason := incomplete_reason;
        started_at := start; ended_at := stop; execution_started := started;
        lp_measurement := None; source_measurements := [] |}.

(** [replace(profile, measurement=..., source_measurements=...)] *)
Definition with_measurements (p : LossProfile) (m : option MeasurementDraw)
    (sources : list (option MeasurementDraw)) : LossProfile := {|
  lp_run_id := lp_run_id p; lp_entry_id := lp_entry_id p; lp_generation_id := lp_generation_id p;
  lp_epoch_id := lp_epoch_id p; plan_revisions := plan_revisions p;
  task_failure_ratio := task_failure_ratio p; runtime_ms := runtime_ms p;
  wall_clock_budget_exceeded := wall_clock_budget_exceeded p;
  expectation_result := expectation_result p; drift_loss := drift_loss p; pass_fail := pass_fail p;
  turns_completed := turns_completed p; memory_failure_count := memory_failure_count p;
  context_loss_count := context_loss_count p; metric_counts := metric_counts p;
  tokens_spent := tokens_spent p; output_chars := output_chars p;
  schema_failures := schema_failures p; adk_session_id := adk_session_id p;
  lp_match_id := lp_match_id p; per_judge_loss := per_judge_loss p; judge_errors := judge_errors p;
  cached := cached p; source_epoch := source_epoch p; source_run := source_run p;
  lp_score := lp_score p; lp_metrics := lp_metrics p; scoring_provenance := scoring_provenance p;
  abort_cause := abort_cause p; not_completed := not_completed p;
  not_completed_reason := not_completed_reason p; started_at := started_at p; ended_at := ended_at p;
  execution_started := execution_started p; lp_measurement := m; source_measurements := sources |}.

(** What iterating over a JSON value yields. *)
Definition json_items (v : Json) : result (list Json) :=
  match v with
  | JArr l => Ok l
  | JObj d => Ok (JStr <$> d.*1)
  | JStr s => Ok ((fun c => JStr (String c "")) <$> String.list_ascii_of_string s)
  | _ => Raise (TypeError "object is not iterable")
  end.

Definition loss_profile_from_dict `{PyRepr} (v : Json) : result LossProfile :=
  match v with
  | JObj d =>
      match List.filter (fun key => negb (dict_mem d key)) recorded_fields with
      | (_ :: _) as missing =>
          Raise (ValueError ("loss record is missing fields: "
                             +:+ py_join ", " (sorted_strings missing)))
      | [] =>
          let own key := negb (bool_decide (key ∈ provenance_fields))
                         || String.eqb key "execution_started" in
          try p <- decode_profile "loss" (JObj (List.filter (fun item => own item.1) d));
          try m <- match dict_get d "measurement" with
                   | Some v => try m <- draw_from_json v; Ok (Some m)
                   | None => Ok None
                   end;
          try items <- match dict_get d "source_measurements" with
                       | Some v => json_items v
                       | None => Ok []
                       end;
          try sources <- result_map (fun v => match v with
                                              | JNull => Ok None
                                              | _ => try m <- draw_from_json v; Ok (Some m)
                                              end) items;
          Ok (with_measurements p m sources)
      end
  | _ => Raise (ValueError "loss record must be an object")
  end.

(** * The loss record of a run reads back as it was written. *)

Lemma decode_kind_ok path k : decode_enum expectation_members path (JStr (expectation_token k)) = Ok k.
Proof. by destruct k. Qed.

Lemma decode_optional_bool path o : decode_optional decode_bool path (jopt JBool o) = Ok o.
Proof. by destruct o. Qed.

Lemma decode_opt_int_ok path o : decode_opt_int path (jopt JInt o) = Ok o.
Proof. by destruct o. Qed.

Lemma decode_opt_str_ok path o : decode_opt_str path (jopt JStr o) = Ok o.
Proof. by destruct o. Qed.

Lemma decode_floats_finite path d : json_finite (floats_body d) = true -> decode_floats path (floats_body d) = Ok d.
Proof.
  cbn. induction d as [|[k x] d IH]; [done|]. cbn. rewrite andb_true_iff. intros [-> Hd].
  cbn. by rewrite IH.
Qed.

Lemma decode_optional_floats path o :
  json_finite (jopt floats_body o) = true -> decode_optional decode_floats path (jopt floats_body o) = Ok o.
Proof.
  destruct o as [d|]; [|done]. intros H. cbn [decode_optional jopt from_option floats_body].
  by rewrite (decode_floats_finite path d).
Qed.

Lemma decode_severity_ok path s :
  s ∈ severity_members.*1 -> decode_literal severity_members path (JStr s) = Ok s.
Proof. intros H. repeat (apply elem_of_cons in H as [->|H]; [done|]). by apply not_elem_of_nil in H. Qed.

#[local] Hint Resolve decode_kind_ok decode_optional_bool decode_opt_int_ok decode_opt_str_ok
  decode_optional_floats decode_severity_ok : codec.

Section Parts.
Context (path : string).

Lemma expectation_inverse r :
  json_finite (expectation_body r) = true -> decode_expectation path (expectation_body r) = Ok r.
Proof.
  intros H. pose proof (json_finite_item _ "score" _ H eq_refl). pose proof (json_finite_item _ "metrics" _ H eq_refl).
  unfold decode_expectation, expectation_body. rewrite declared_object_ok by done. cbn [result_bind].
  fields. by destruct r.
Qed.

Lemma metric_inverse mc :
  json_finite (metric_body mc) = true -> mc_severity mc ∈ severity_members.*1 ->
  decode_metric path (metric_body mc) = Ok mc.
Proof.
  intros H Hs. finite_at H "count".
  unfold decode_metric, metric_body. rewrite declared_object_ok by done. cbn [result_bind].
  fields. by destruct mc.
Qed.

Lemma judge_loss_inverse jl :
  json_finite (judge_loss_body jl) = true -> decode_judge_loss path (judge_loss_body jl) = Ok jl.
Proof.
  intros H. finite_at H "raw_loss". finite_at H "weight". finite_at H "weighted_loss".
  unfold decode_judge_loss, judge_loss_body. rewrite declared_object_ok by done. cbn [result_bind].
  fields. by destruct jl.
Qed.

Lemma judge_error_inverse e : decode_judge_error path (judge_error_body e) = Ok e.
Proof.
  unfold decode_judge_error, judge_error_body. rewrite declared_object_ok by done. cbn [result_bind].
  fields. by destruct e.
Qed.
End Parts.

Lemma decode_optional_expectation path o :
  json_finite (jopt expectation_body o) = true ->
  decode_optional decode_expectation path (jopt expectation_body o) = Ok o.
Proof.
  destruct o as [r|]; [|done]. intros H. cbn [decode_optional jopt from_option].
  unfold decode_optional. unfold expectation_body at 1. by rewrite expectation_inverse.
Qed.

(** A profile of finite numbers whose metrics carry a scoring severity or none. *)
Definition loss_sound (p : LossProfile) : bool :=
  json_finite (JObj (loss_profile_to_dict p))
  && forallb (fun mc => bool_decide (mc_severity mc ∈ severity_members.*1)) (metric_counts p).

(** The fields the strict decoder sees. *)
Definition own_body (p : LossProfile) : list (string * Json) :=
  recorded_body p
  ++ match execution_started p with Some b => [("execution_started", JBool b)] | None => [] end.

Lemma decode_profile_inverse path p :
  json_finite (JObj (recorded_body p)) = true ->
  forallb (fun mc => bool_decide (mc_severity mc ∈ severity_members.*1)) (metric_counts p) = true ->
  decode_profile path (JObj (own_body p)) = Ok (with_measurements p None []).
Proof.
  intros H Hs.
  finite_at H "task_failure_ratio". finite_at H "drift_loss".
  pose proof (json_finite_item _ "expectation_result" _ H eq_refl) as H1.
  pose proof (json_finite_item _ "score" _ H eq_refl) as H2.
  pose proof (json_finite_item _ "metrics" _ H eq_refl) as H3.
  pose proof (json_finite_item _ "metric_counts" _ H eq_refl) as H4.
  pose proof (json_finite_item _ "per_judge_loss" _ H eq_refl) as H5.
  assert (forall q, decode_array decode_metric q (JArr (metric_body <$> metric_counts p)) = Ok (metric_counts p)).
  { intros q. apply decode_array_inverse. intros r mc Hmc. apply metric_inverse; [by eapply json_finite_elem|].
    rewrite forallb_forall in Hs. apply list_elem_of_In, Hs in Hmc. by apply bool_decide_eq_true in Hmc. }
  assert (forall q, decode_array decode_judge_loss q (JArr (judge_loss_body <$> per_judge_loss p)) = Ok (per_judge_loss p)).
  { intros q. apply decode_array_inverse. intros r jl Hjl. by eapply judge_loss_inverse, json_finite_elem. }
  assert (forall q, decode_array decode_judge_error q (JArr (judge_error_body <$> judge_errors p)) = Ok (judge_errors p)).
  { intros q. apply decode_array_inverse. intros r e _. apply judge_error_inverse. }
  assert (forall q, decode_optional decode_expectation q (jopt expectation_body (expectation_result p))
                    = Ok (expectation_result p)) by (intros; by apply decode_optional_expectation).
  unfold decode_profile, own_body. rewrite declared_object_ok.
  - cbn [result_bind]. destruct p, execution_started; cbn [app recorded_body]; fields; done.
  - rewrite fmap_app. apply list_subseteq_app_iff_l. split; [by apply list_subseteq_app_l|].
    destruct (execution_started p); [|apply list_subseteq_nil]. intros k Hk. set_solver.
Qed.

Lemma filter_keys_all {A} (p : string -> bool) (d : list (string * A)) :
  forallb p d.*1 = true -> List.filter (fun item => p item.1) d = d.
Proof.
  induction d as [|[k a] d IH]; [done|]. cbn. intros [-> Hd]%andb_true_iff. by rewrite IH.
Qed.

Lemma filter_keys_none {A} (p : string -> bool) (d : list (string * A)) :
  forallb (fun k => negb (p k)) d.*1 = true -> List.filter (fun item => p item.1) d = [].
Proof.
  induction d as [|[k a] d IH]; [done|]. cbn. intros [->%negb_true_iff Hd]%andb_true_iff. by rewrite IH.
Qed.

Lemma own_fields_kept p :
  List.filter (fun item => negb (bool_decide (item.1 ∈ provenance_fields))
                           || String.eqb item.1 "execution_started") (loss_profile_to_dict p) = own_body p.
Proof.
  set (own := fun k => negb (bool_decide (k ∈ provenance_fields)) || String.eqb k "execution_started").
  change (List.filter (fun item => own item.1) (loss_profile_to_dict p) = own_body p).
  unfold loss_profile_to_dict, own_body, provenance_body. rewrite !List.filter_app.
  rewrite (filter_keys_all own (recorded_body p)) by done. f_equal.
  rewrite filter_keys_all by by destruct (execution_started p).
  rewrite (filter_keys_none own (match lp_measurement p with Some m => _ | None => [] end)) by by destruct (lp_measurement p).
  rewrite filter_keys_none by by destruct (source_measurements p). apply app_nil_r.
Qed.

Lemma recorded_present p :
  List.filter (fun key => negb (dict_mem (loss_profile_to_dict p) key)) recorded_fields = [].
Proof. reflexivity. Qed.

Lemma provenance_measurement p :
  dict_get (loss_profile_to_dict p) "measurement" = draw_to_json <$> lp_measurement p.
Proof.
  unfold loss_profile_to_dict, provenance_body. unfold recorded_body.
  by destruct (execution_started p), (lp_measurement p), (source_measurements p).
Qed.

Lemma provenance_sources p :
  dict_get (loss_profile_to_dict p) "source_measurements"
  = match source_measurements p with [] => None | l => Some (JArr (optional_draw <$> l)) end.
Proof.
  unfold loss_profile_to_dict, provenance_body. unfold recorded_body.
  by destruct (execution_started p), (lp_measurement p), (source_measurements p).
Qed.

Section Roundtrip.
Context `{PyRepr}.

Lemma draw_inverse m : draw_from_json (draw_to_json m) = Ok m.
Proof.
  apply draw_from_json_iff. by exists (draw_members m).
Qed.

Lemma sources_inverse l :
  result_map (fun v => match v with
                       | JNull => Ok None
                       | _ => try m <- draw_from_json v; Ok (Some m)
                       end) (optional_draw <$> l) = Ok l.
Proof.
  induction l as [|o l IH]; [done|]. cbn [fmap list_fmap result_map]. rewrite IH.
  destruct o as [m|]; [|done]. cbn [optional_draw jopt from_option].
  pose proof (draw_inverse m) as Hm. unfold draw_to_json in *. by rewrite Hm.
Qed.

(** C25.  The loss record of a run is written and read without loss: a profile of finite numbers
    whose metrics carry a scoring severity decodes to itself, its provenance included,
    whichever parts of it are absent. *)
Theorem loss_record_roundtrip p :
  loss_sound p = true -> loss_profile_from_dict (JObj (loss_profile_to_dict p)) = Ok p.
Proof.
  unfold loss_sound. rewrite andb_true_iff. intros [Hf Hs].
  unfold loss_profile_from_dict. rewrite recorded_present. cbv zeta. rewrite own_fields_kept.
  rewrite decode_profile_inverse; [|apply forallb_forall; intros item Hi|done].
  - cbn [result_bind]. rewrite provenance_measurement, provenance_sources.
    assert (with_measurements (with_measurements p None []) (lp_measurement p) (source_measurements p) = p) as Hw
      by by destruct p.
    destruct (lp_measurement p) as [m|]; cbn [fmap option_fmap option_map];
      rewrite ?draw_inverse; cbn [result_bind];
      destruct (source_measurements p) as [|o l] eqn:E; cbn [json_items result_bind];
      rewrite ?sources_inverse; cbn [result_map result_bind]; by rewrite Hw.
  - change (forallb (fun item => json_finite item.2) (loss_profile_to_dict p) = true) in Hf.
    rewrite forallb_forall in Hf. apply (Hf item), in_or_app. by left.
Qed.
End Roundtrip.

Module LossCodecWitness.
#[local] Existing Instance plain_repr.

(** A confirmed draw with a judge, a scorer's decomposition and the draws it was folded from. *)
Definition draw1 : MeasurementDraw := {| purpose := CONFIRMATION; draw := 3; base_seed := Some 7%Z |}.
Definition profile : LossProfile := {|
  lp_run_id := "r"; lp_entry_id := "e"; lp_generation_id := "g"; lp_epoch_id := "ep";
  plan_revisions := 2; task_failure_ratio := 0.5%float; runtime_ms := 1200;
  wall_clock_budget_exceeded := false;
  expectation_result := Some {| er_kind := RUBRIC; passed := true; detail := "ok"; er_score := Some 0.75%float;
                                er_metrics := Some [("recall", 0.5%float)] |};
  drift_loss := 4%float; pass_fail := Some true; turns_completed := Some 2%Z;
  memory_failure_count := None; context_loss_count := Some 0%Z;
  metric_counts := [{| mc_name := "drift:off_topic"; mc_severity := "warning"; mc_count := 1%float |}];
  tokens_spent := 10; output_chars := 4; schema_failures := 0; adk_session_id := "s"; lp_match_id := "rung0";
  per_judge_loss := [{| jl_judge_name := "j"; raw_loss := 3%float; jl_weight := 2%float; weighted_loss := 6%float |}];
  judge_errors := [{| je_judge_name := "k"; invocations := 4; errors := 4; last_error_type := "TimeoutError" |}];
  cached := true; source_epoch := "e0"; source_run := "r0"; lp_score := Some 0.75%float; lp_metrics := None;
  scoring_provenance := Some "builtin"; abort_cause := None; not_completed := false;
  not_completed_reason := None; started_at := Some "t0"; ended_at := None; execution_started := Some true;
  lp_measurement := Some draw1; source_measurements := [Some draw1; None] |}.

Lemma loss_record_roundtrip_witness :
  loss_profile_from_dict (JObj (loss_profile_to_dict profile)) = Ok profile.
Proof. apply loss_record_roundtrip. vm_compute. reflexivity. Defined.
End LossCodecWitness.
