(* ===== verification/TelemetrySpec.v ===== *)
(** What the reader and the reducer of telemetry promise: a log reduces to the same profile
    whichever way its events are spelled and shaped and whatever else is on its lines;
    drift is counted and charged once; a killed run's log is ended. *)
From S2P Require Import Prelude PyFloat PyText PyLines PyJson CoreTypes Board Records Loss Scoring EventLog Dialects Reducer.

(** ** Spelling

    A field name of a message: words of lowercase letters and digits joined by single
    underscores, of which no inner word is a single letter. *)
Fixpoint proto_name (prev : bool) (s : string) : bool :=
  match s with
  | "" => true
  | String c s =>
      if Ascii.eqb c underscore then
        match s with String d s => prev && is_lower d && proto_name false s | "" => false end
      else (is_lower c || is_digit c) && proto_name true s
  end.

Definition ascii_upper (c : Ascii.ascii) : Ascii.ascii :=
  if is_lower c then Ascii.ascii_of_nat (Ascii.nat_of_ascii c - 32) else c.

(** The JSON name a message's field is written under. *)
Fixpoint camel (s : string) : string :=
  match s with
  | "" => ""
  | String c s' =>
      if Ascii.eqb c underscore then
        match s' with String d s => String (ascii_upper d) (camel s) | "" => String c "" end
      else String c (camel s')
  end.

Lemma upper_lower c :
  is_lower c = true -> is_upper (ascii_upper c) = true /\ ascii_lower (ascii_upper c) = c.
Proof. by destruct c as [[][][][][][][][]]. Qed.

Lemma lower_or_digit_not_upper c : is_lower c || is_digit c = true -> is_upper c = false.
Proof. by destruct c as [[][][][][][][][]]. Qed.

Lemma snake_camel prev s : proto_name prev s = true -> snake_chars prev (camel s) = s.
Proof.
  enough (forall n s prev, String.length s <= n -> proto_name prev s = true ->
    snake_chars prev (camel s) = s) by eauto.
  clear. induction n as [|n IH]; intros [|c s] prev Hn Hp; cbn in Hn; try done; [lia|].
  cbn [proto_name camel] in *. destruct (Ascii.eqb_spec c underscore) as [->|_].
  - destruct s as [|d s]; [done|]. apply andb_true_iff in Hp as [[-> Hd]%andb_true_iff Hp].
    apply upper_lower in Hd as [Hu Hl]. cbn [snake_chars]. rewrite Hu, Hl, IH; [done| |done]. cbn in Hn. lia.
  - apply andb_true_iff in Hp as [Hc Hp]. cbn [snake_chars]. rewrite (lower_or_digit_not_upper c Hc), Hc.
    rewrite IH; [done|lia|done].
Qed.

Lemma snake_snake prev s : proto_name prev s = true -> snake_chars prev s = s.
Proof.
  enough (forall n s prev flag, String.length s <= n -> proto_name prev s = true ->
    snake_chars flag s = s) by eauto.
  clear. induction n as [|n IH]; intros [|c s] prev flag Hn Hp; cbn in Hn; try done; [lia|].
  cbn [proto_name snake_chars] in *. destruct (Ascii.eqb_spec c underscore) as [->|_].
  - destruct s as [|d s]; [done|]. apply andb_true_iff in Hp as [[_ Hd]%andb_true_iff Hp]. cbn in Hn.
    change (is_upper underscore) with false. cbv iota.
    rewrite (IH (String d s) true); [done|cbn; lia|]. cbn [proto_name].
    destruct (Ascii.eqb_spec d underscore) as [->|_]; [done|]. rewrite Hd. cbn [orb andb].
    clear -Hp. destruct s as [|e s]; [done|]. cbn [proto_name] in *.
    by destruct (Ascii.eqb e underscore); [destruct s|].
  - apply andb_true_iff in Hp as [Hc Hp]. rewrite (lower_or_digit_not_upper c Hc).
    rewrite (IH s true); [done|lia|done].
Qed.

(** Messages whose field names, at every depth, are names of fields, each once. *)
Fixpoint message_names (v : Json) : bool :=
  match v with
  | JObj d => bool_decide (NoDup d.*1)
              && forallb (fun item => proto_name false item.1 && message_names item.2) d
  | JArr l => forallb message_names l
  | _ => true
  end.

Fixpoint camel_deep (v : Json) : Json :=
  match v with
  | JObj d => JObj ((fun item => (camel item.1, camel_deep item.2)) <$> d)
  | JArr l => JArr (camel_deep <$> l)
  | _ => v
  end.

Lemma dict_update_fresh {V} (acc d : list (string * V)) :
  NoDup (acc ++ d).*1 -> foldl (fun d item => dict_set d item.1 item.2) acc d = acc ++ d.
Proof.
  revert acc. induction d as [|[k v] d IH]; intros acc Hn; [by rewrite app_nil_r|].
  cbn [foldl]. cbn [fst snd]. rewrite dict_set_fresh.
  - rewrite IH; rewrite <- app_assoc; done.
  - rewrite fmap_app in Hn. apply NoDup_app in Hn as (_ & Hn & _).
    intros Hk. apply (Hn k Hk). cbn. set_solver.
Qed.

Lemma dict_update_nil (d : list (string * Json)) : NoDup d.*1 -> dict_update [] d = d.
Proof. intros H. by apply (dict_update_fresh []). Qed.

Lemma fmap_same {A} (f : A -> A) l : Forall (fun x => f x = x) l -> f <$> l = l.
Proof. induction 1 as [|x l Hx _ IH]; [done|]. by rewrite fmap_cons, Hx, IH. Qed.

(** A spelling: as the fields are named, or as JSON names them. *)
Definition spell (camel_case : bool) (v : Json) : Json := if camel_case then camel_deep v else v.

Lemma snake_spell c v : message_names v = true -> snake_deep (spell c v) = v.
Proof.
  induction v as [| | | | |l IH|d IH] using json_induction; intros Hm; try by destruct c.
  - assert (snake_deep <$> (spell c <$> l) = l) as Hl.
    { cbn in Hm. induction IH as [|v l Hv _ IHl]; [done|]. cbn in Hm.
      apply andb_true_iff in Hm as [Hmv Hml]. rewrite !fmap_cons. by rewrite Hv, IHl. }
    destruct c; cbn in *; f_equal; [exact Hl|]. rewrite list_fmap_id in Hl. exact Hl.
  - cbn in Hm. apply andb_true_iff in Hm as [Hn%bool_decide_eq_true Hm].
    assert (forall d', (fun item => (to_snake item.1, snake_deep item.2)) <$> d' = d ->
                       snake_deep (JObj d') = JObj d) as Hd.
    { intros d' Hd'. change (snake_deep (JObj d')) with (JObj (snake_obj d')). unfold snake_obj.
      by rewrite Hd', dict_update_nil. }
    assert (Forall (fun item => proto_name false item.1 = true /\ snake_deep (spell c item.2) = item.2) d) as Hall.
    { clear Hn Hd. induction IH as [|[k v] d Hv _ IHd]; [constructor|]. cbn in Hm, Hv.
      apply andb_true_iff in Hm as [[Hk Hmv]%andb_true_iff Hmd]. constructor; [cbn|]; auto. }
    destruct c; [change (spell true (JObj d)) with (JObj ((fun item => (camel item.1, camel_deep item.2)) <$> d))
                |change (spell false (JObj d)) with (JObj d)]; apply Hd; clear -Hall.
    + rewrite <- list_fmap_compose. apply fmap_same. eapply Forall_impl; [exact Hall|].
      intros [k v] [Hk Hv]. cbn [compose fst snd spell] in *. unfold compose, to_snake. cbn [fst snd].
      by rewrite snake_camel, Hv.
    + apply fmap_same. eapply Forall_impl; [exact Hall|]. intros [k v] [Hk Hv]. cbn [fst snd spell] in *.
      unfold to_snake. by rewrite (snake_snake _ _ Hk), Hv.
Qed.

(** ** Shape

    What an event says, whichever way a writer puts it on a line. *)
Record WireEvent := {
  we_run : string;
  we_session : string;
  we_id : string;
  we_seq : Z;
  we_case : string;
  we_payload : list (string * Json);
}.

(** A shape: the spelling of the names, whether the payload sits under its case's name or
    beside it, and what the line says of the time. *)
Record Shape := {
  sh_camel : bool;
  sh_payload_key : bool;
  sh_stamp : option Json;
}.

Definition spell_name (camel_case : bool) (s : string) : string := if camel_case then camel s else s.

(** The line's object before its names are spelled. *)
Definition fields_of (e : WireEvent) (sh : Shape) : list (string * Json) :=
  [("event_id", JStr (we_id e)); ("run_id", JStr (we_run e)); ("session_id", JStr (we_session e));
   ("sequence", JInt (we_seq e))]
  ++ match sh_stamp sh with Some v => [("emitted_at", v)] | None => [] end
  ++ if sh_payload_key sh then [(we_case e, JObj (we_payload e))]
     else [("kind", JStr (spell_name (sh_camel sh) (we_case e))); ("payload", JObj (we_payload e))].

Definition wire (e : WireEvent) (sh : Shape) : list (string * Json) :=
  match spell (sh_camel sh) (JObj (fields_of e sh)) with JObj d => d | _ => [] end.

Record wire_ok (e : WireEvent) : Prop := {
  wo_case : proto_name false (we_case e) = true;
  wo_nonempty : we_case e <> "";
  wo_envelope : we_case e ∉ ENVELOPE_KEYS;
  wo_payload : message_names (JObj (we_payload e)) = true;
}.

Section Shapes.
Context `{PyConv} `{PyFloatParse} `{PyTime}.

(** A time the reader can read, or one it reads as none.  What is left out is a number
    beyond the floats, whose [OverflowError] the reader lets escape. *)
Definition shape_ok (sh : Shape) : Prop :=
  match sh_stamp sh with
  | Some v => message_names v = true /\ is_ok (_emitted_at_of [("emitted_at", v)]) = true
  | None => True
  end.

Lemma names_of_fields e sh :
  wire_ok e -> shape_ok sh -> message_names (JObj (fields_of e sh)) = true.
Proof.
  intros [Hc Hne He Hp] Hs. unfold shape_ok in Hs. unfold fields_of.
  assert (forall k, k ∈ ENVELOPE_KEYS -> we_case e <> k) as Hk by (intros k Hin Heq; apply He; by rewrite Heq).
  change (bool_decide (NoDup (fields_of e sh).*1)
          && forallb (fun item => proto_name false item.1 && message_names item.2) (fields_of e sh) = true).
  apply andb_true_iff. split.
  - apply bool_decide_eq_true. unfold fields_of.
    assert (NoDup ["event_id"; "run_id"; "session_id"; "sequence"; "emitted_at"; we_case e]) as Hd.
    { rewrite !NoDup_cons, !not_elem_of_cons. repeat split; try done; try apply not_elem_of_nil; try apply NoDup_nil_2;
        intros Heq; by eapply Hk; [|symmetry; exact Heq || exact Heq]; set_solver. }
    destruct (sh_stamp sh), (sh_payload_key sh); cbn; [exact Hd| | |].
    + by refine (proj1 (bool_decide_eq_true _) _).
    + eapply sublist_NoDup; [exact Hd|]. repeat constructor.
    + by refine (proj1 (bool_decide_eq_true _) _).
  - unfold fields_of. rewrite !forallb_app. rewrite !andb_true_iff. repeat split.
    + by destruct (sh_stamp sh) as [v|]; [cbn; destruct Hs as [-> _]|].
    + destruct (sh_payload_key sh); cbn -[message_names]; [by rewrite Hc, Hp|by rewrite Hp].
Qed.

Lemma snake_wire e sh : wire_ok e -> shape_ok sh -> snake_obj (wire e sh) = fields_of e sh.
Proof.
  intros He Hs. pose proof (snake_spell (sh_camel sh) _ (names_of_fields e sh He Hs)) as Hn.
  unfold wire. destruct (sh_camel sh); injection Hn; done.
Qed.

(** The fields every reader looks at. *)
Lemma fields_lookup e sh key :
  key ∈ ["event_id"; "run_id"; "session_id"; "sequence"] ->
  dict_get (fields_of e sh) key
  = dict_get [("event_id", JStr (we_id e)); ("run_id", JStr (we_run e));
              ("session_id", JStr (we_session e)); ("sequence", JInt (we_seq e))] key.
Proof. intros Hk. repeat (apply elem_of_cons in Hk as [->|Hk]; [done|]). by apply not_elem_of_nil in Hk. Qed.

Lemma dict_get_single {V} (k k' : string) (v : V) : k <> k' -> dict_get [(k, v)] k' = None.
Proof. intros Hne. cbn [dict_get]. by rewrite decide_False. Qed.

Lemma fields_stamp e sh :
  wire_ok e -> dict_get (fields_of e sh) "emitted_at" = sh_stamp sh.
Proof.
  intros [_ _ He _]. assert (we_case e <> "emitted_at") as Hne by (intros Heq; apply He; rewrite Heq; set_solver).
  pose proof (dict_get_single _ _ (JObj (we_payload e)) Hne) as Hd.
  unfold fields_of. by destruct (sh_stamp sh), (sh_payload_key sh).
Qed.

Lemma fields_case e sh :
  wire_ok e -> _case_and_payload (fields_of e sh) = (we_case e, we_payload e).
Proof.
  intros [Hc Hne He _]. assert (we_case e <> "kind") as Hk by (intros Heq; apply He; rewrite Heq; set_solver).
  pose proof (dict_get_single _ _ (JObj (we_payload e)) Hk) as Hd.
  unfold _case_and_payload, fields_of, get_none, dict_get_or.
  destruct (sh_payload_key sh).
  - assert (payload_field [(we_case e, JObj (we_payload e))] = Some (we_case e, we_payload e)) as Hp.
    { unfold payload_field. by rewrite bool_decide_false. }
    assert (forall d, payload_field ([("event_id", JStr (we_id e)); ("run_id", JStr (we_run e));
        ("session_id", JStr (we_session e)); ("sequence", JInt (we_seq e))] ++ d) = payload_field d) as Hs by done.
    rewrite Hs. replace (dict_get _ "kind") with (@None Json) by by destruct (sh_stamp sh).
    cbn [from_option as_nonempty].
    transitivity (from_option id ("", []) (payload_field [(we_case e, JObj (we_payload e))])); [|by rewrite Hp].
    by destruct (sh_stamp sh) as [[]|].
  - assert (exists c s, spell_name (sh_camel sh) (we_case e) = String c s) as (c & s & Hs).
    { destruct (we_case e) as [|a t] eqn:E; [done|]. unfold spell_name. destruct (sh_camel sh); [|eauto].
      cbn. destruct (Ascii.eqb a underscore) eqn:Ea; [|eauto]. apply Ascii.eqb_eq in Ea as ->. by destruct t. }
    assert (to_snake (spell_name (sh_camel sh) (we_case e)) = we_case e) as Ht.
    { unfold to_snake, spell_name. destruct (sh_camel sh); [by apply snake_camel|by eapply snake_snake]. }
    rewrite Hs in *. transitivity (to_snake (String c s), we_payload e); [|by rewrite Ht].
    by destruct (sh_stamp sh).
Qed.

Lemma emitted_congr a b :
  dict_get a "emitted_at" = dict_get b "emitted_at" -> _emitted_at_of a = _emitted_at_of b.
Proof. unfold _emitted_at_of, get_none, dict_get_or. by intros ->. Qed.

(** Every shape of an event is parsed to what the event says. *)
Lemma wire_parses e sh :
  wire_ok e -> shape_ok sh ->
  exists emitted, parse_event (wire e sh)
    = Ok {| ev_case := we_case e; ev_payload := we_payload e; ev_run_id := we_run e;
            ev_session_id := we_session e; ev_event_id := we_id e; ev_sequence := Some (we_seq e);
            ev_emitted_at := emitted; ev_raw := fields_of e sh |}.
Proof.
  intros He Hs. unfold parse_event. rewrite snake_wire, fields_case by done.
  assert (exists emitted, _emitted_at_of (fields_of e sh) = Ok emitted) as [emitted Hem].
  { pose proof (fields_stamp e sh He) as Ht. unfold shape_ok in Hs.
    destruct (sh_stamp sh) as [v|]; [destruct Hs as [_ Hv]|].
    - rewrite (emitted_congr _ [("emitted_at", v)]) by exact Ht.
      destruct (_emitted_at_of [("emitted_at", v)]) as [o|]; [by exists o|done].
    - exists None. by rewrite (emitted_congr _ []) by exact Ht. }
  rewrite Hem. exists emitted. cbn [result_bind]. unfold _string_field, _sequence_of, get_none, dict_get_or.
  rewrite (fields_lookup e sh "run_id"), (fields_lookup e sh "session_id"), (fields_lookup e sh "event_id"),
    (fields_lookup e sh "sequence") by set_solver. done.
Qed.
End Shapes.

(** ** Logs *)

(** A record that says what the event does, as far as the reducer looks. *)
Definition says (r : EventRecord) (e : WireEvent) : Prop :=
  ev_case r = we_case e /\ ev_payload r = we_payload e /\ ev_run_id r = we_run e
  /\ ev_session_id r = we_session e.

Section Logs.
Context `{PyConv} `{PyFloatParse} `{PyTime} (json_loads : string -> option Json).

(** A line that holds no event: blank, torn, or no JSON object. *)
Definition noise (line : string) : Prop :=
  unbroken line = true
  /\ (str_strip line = "" \/ match json_loads line with Some (JObj _) => False | _ => True end).

(** Lines whose events, in order, are [es]. *)
Inductive log_lines : list string -> list WireEvent -> Prop :=
  | lines_nil : log_lines [] []
  | lines_event line e sh lines es :
      wire_ok e -> shape_ok sh -> unbroken line = true -> str_strip line <> "" ->
      json_loads line = Some (JObj (wire e sh)) -> log_lines lines es ->
      log_lines (line :: lines) (e :: es)
  | lines_noise line lines es : noise line -> log_lines lines es -> log_lines (line :: lines) es.

(** The last line may be torn. *)
Definition carries (text : string) (es : list WireEvent) : Prop :=
  exists lines torn, text = log_text lines +:+ torn /\ log_lines lines es /\ noise torn.

Lemma noise_step acc line :
  noise line -> exists acc', line_step json_loads decode_line acc line = Ok acc'
                            /\ jl_records acc' = jl_records acc.
Proof.
  intros [_ Hn]. unfold line_step. destruct (String.eqb_spec (str_strip line) "") as [_|Hs]; [by eexists|].
  destruct Hn as [|Hn]; [done|]. destruct (json_loads line) as [[]|]; try done; by eexists.
Qed.

Lemma event_step acc line e sh :
  wire_ok e -> shape_ok sh -> str_strip line <> "" -> json_loads line = Some (JObj (wire e sh)) ->
  exists acc' r, line_step json_loads decode_line acc line = Ok acc'
                 /\ jl_records acc' = jl_records acc ++ [r] /\ says r e.
Proof.
  intros He Hs Hb Hl. unfold line_step. rewrite (proj2 (String.eqb_neq _ _) Hb), Hl. unfold decode_line.
  destruct (wire_parses e sh He Hs) as [emitted ->]. by do 2 eexists.
Qed.

Lemma lines_read acc lines es :
  log_lines lines es ->
  exists acc' new, result_foldl (line_step json_loads decode_line) acc lines = Ok acc'
                   /\ jl_records acc' = jl_records acc ++ new /\ Forall2 says new es.
Proof.
  intros Hl. revert acc. induction Hl as [|line e sh lines es He Hs _ Hb Hp _ IH|line lines es Hn _ IH]; intros acc.
  - exists acc, []. by rewrite app_nil_r.
  - destruct (event_step acc line e sh He Hs Hb Hp) as (acc1 & r & Hr & Ha & Hsays).
    destruct (IH acc1) as (acc2 & new & Hf & Hn & Hnew). exists acc2, (r :: new). cbn [result_foldl].
    rewrite Hr. cbn [result_bind]. rewrite Hf, Hn, Ha, <- app_assoc. split; [done|]. split; [done|]. by constructor.
  - destruct (noise_step acc line Hn) as (acc1 & Hr & Ha). destruct (IH acc1) as (acc2 & new & Hf & Hr2 & Hnew).
    exists acc2, new. cbn [result_foldl]. rewrite Hr. cbn [result_bind]. by rewrite Hf, Hr2, Ha.
Qed.

Lemma log_lines_unbroken lines es : log_lines lines es -> Forall (fun l => unbroken l = true) lines.
Proof. induction 1 as [| |? ? ? [? _]]; constructor; auto. Qed.

(** Whatever the spelling, the shapes, the noise and the torn end, a log reads as its events. *)
Lemma carried_read text es :
  carries text es ->
  exists log, read_event_log json_loads (Some text) = Ok log /\ Forall2 says (el_records log) es.
Proof.
  intros (lines & torn & -> & Hl & Hn). unfold read_event_log, read_json_lines.
  pose proof (log_lines_unbroken _ _ Hl) as Hu. rewrite universal_unix by (apply unix_torn; [done|apply Hn]).
  rewrite splitlines_torn by (done || apply Hn).
  destruct (lines_read no_lines lines es Hl) as (acc & new & Hf & Hr & Hnew).
  rewrite result_foldl_app. rewrite Hf. cbn [result_bind].
  destruct (String.eqb torn ""); cbn [result_foldl result_bind].
  - eexists. split; [done|]. cbn. by rewrite Hr.
  - destruct (noise_step acc torn Hn) as (acc' & -> & Ha). cbn [result_bind]. eexists. split; [done|].
    cbn. by rewrite Ha, Hr.
Qed.
End Logs.

(** The walk looks at nothing else. *)
Lemma says_same rs rs' es : Forall2 says rs es -> Forall2 says rs' es ->
  Forall2 (fun r r' => ev_case r = ev_case r' /\ ev_payload r = ev_payload r' /\ ev_run_id r = ev_run_id r'
                       /\ ev_session_id r = ev_session_id r') rs rs'.
Proof.
  intros Hr. revert rs'. induction Hr as [|r e rs es (H1 & H2 & H3 & H4) _ IH]; intros rs' Hr'; inversion Hr'; subst; constructor.
  - unfold says in *. naive_solver congruence.
  - by apply IH.
Qed.

Lemma signals_same `{PyConv} `{PyFloatParse} rs rs' es :
  Forall2 says rs es -> Forall2 says rs' es -> signals_of_events rs = signals_of_events rs'.
Proof.
  intros Hr Hr'. pose proof (says_same _ _ _ Hr Hr') as Hs. unfold signals_of_events, _agent_and_user_turns_from_events.
  assert (omap agent_turn rs = omap agent_turn rs' /\ omap user_turn rs = omap user_turn rs') as [-> ->].
  { clear -Hs. induction Hs as [|r r' rs rs' (H1 & H2 & _) _ [IHa IHu]]; [done|]. cbn.
    rewrite IHa, IHu. unfold agent_turn, user_turn. by rewrite H1, H2. }
  assert (forall w, result_foldl goldfive_step w rs = result_foldl goldfive_step w rs') as ->; [|done].
  clear -Hs. induction Hs as [|r r' rs rs' (H1 & H2 & H3 & H4) _ IH]; intros w; [done|]. cbn [result_foldl].
  assert (goldfive_step w r = goldfive_step w r') as ->.
  { unfold goldfive_step. by rewrite H1, H2, H3, H4. }
  destruct (goldfive_step w r'); cbn; auto.
Qed.

(** What goldfive's own parser makes of a file, when it is installed and does not refuse
    the file: messages that say what the events say. *)
Definition replay_agrees `{PyConv} `{PyFloatParse} `{PyTime} `{Goldfive}
    (text : string) (es : list WireEvent) : Prop :=
  match replay_from_jsonl with
  | Some replay =>
      match replay text with
      | Some messages => exists rs, result_map parse_event messages = Ok rs /\ Forall2 says rs es
      | None => True
      end
  | None => True
  end.

Lemma loaded_says `{PyConv} `{PyFloatParse} `{PyTime} `{Goldfive} loads text es :
  carries loads text es -> replay_agrees text es ->
  exists rs, _load_events loads text = Ok rs /\ Forall2 says rs es.
Proof.
  intros Hc Hg. unfold _load_events, replay_agrees in *.
  destruct (carried_read loads text es Hc) as (log & Hl & Hs).
  destruct replay_from_jsonl as [replay|]; cbn [from_option]; [destruct (replay text); [done|]|];
    rewrite Hl; by eexists.
Qed.

(** C21.  A log reduces to the same profile whichever way it was written.  Under the
    goldfive dialect, take two files that carry the same events in the same order, each
    event in either spelling and either shape and with any time but one whose number
    overflows (the reader lets that error escape), among blank lines and lines that are no
    JSON objects, and with or without a torn end.  They give the same result, exceptions
    included.  Each file may be read directly, as when goldfive is not installed or its
    parser refuses the file, or through that parser, of which nothing is assumed but that
    the messages it gives say what the events say; the two files need not be read the same
    way. *)
Theorem reduction_blind_to_wire `{PyConv} `{PyFloatParse} `{PyTime} `{Libm} `{PyFormat} `{Goldfive}
    dumps loads resolve (es : list WireEvent) (name name' text text' : string) entry gid epoch expectation
    ms over w out incomplete :
  telemetry_dialect w = DIALECT_GOLDFIVE ->
  carries loads text es -> carries loads text' es -> replay_agrees text es -> replay_agrees text' es ->
  reduce_loss dumps loads resolve name (Some text) entry gid epoch expectation ms over w out incomplete
  = reduce_loss dumps loads resolve name' (Some text') entry gid epoch expectation ms over w out incomplete.
Proof.
  intros Hd Hc Hc' Hg Hg'. unfold reduce_loss, _resolve_dialect_producer, _goldfive_signals. rewrite Hd.
  destruct (loaded_says loads text es Hc Hg) as (rs & Hl & Hs),
    (loaded_says loads text' es Hc' Hg') as (rs' & Hl' & Hs').
  change (String.eqb DIALECT_GOLDFIVE DIALECT_ADK_EVENTS) with false.
  change (String.eqb DIALECT_GOLDFIVE DIALECT_TRANSCRIPT) with false. cbv iota.
  rewrite Hl, Hl'. cbn [result_bind]. by rewrite (signals_same _ _ _ Hs Hs').
Qed.

(** ** Drift accounting *)

#[local] Instance item_lt_swo : StrictWeakOrder item_lt (fun _ => True).
Proof.
  split; unfold item_lt.
  - intros x _. rewrite String.eqb_refl. apply str_lt_irrefl.
  - intros x y _ _. rewrite (String.eqb_sym y.1 x.1). destruct (String.eqb x.1 y.1); by apply (swo_asym str_lt).
  - intros [x1 x2] [y1 y2] [z1 z2] _ _ _. cbn [fst snd].
    destruct (String.eqb_spec x1 y1) as [->|Hxy], (String.eqb_spec y1 z1) as [->|Hyz].
    + by apply (swo_neg_trans str_lt).
    + done.
    + by rewrite (proj2 (String.eqb_neq _ _) Hxy).
    + intros H1 H2. pose proof (swo_neg_trans str_lt _ _ _ I I I H1 H2) as H3.
      destruct (String.eqb_spec x1 z1) as [->|_]; [|done]. destruct Hxy. by apply str_lt_total.
Qed.

Lemma item_lt_total x y : item_lt x y = false -> item_lt y x = false -> x = y.
Proof.
  unfold item_lt. rewrite (String.eqb_sym y.1 x.1). destruct (String.eqb_spec x.1 y.1) as [He|Hne]; intros H1 H2.
  - destruct x, y; cbn in *; f_equal; [done|by apply str_lt_total].
  - by destruct Hne; apply str_lt_total.
Qed.

Lemma py_sorted_fmap {A B} (lt : B -> B -> bool) (f : A -> B) l :
  py_sorted lt (f <$> l) = f <$> py_sorted (fun a b => lt (f a) (f b)) l.
Proof.
  assert (forall x l, sort_insert lt (f x) (f <$> l) = f <$> sort_insert (fun a b => lt (f a) (f b)) x l) as Hi.
  { intros x l'. induction l' as [|y l' IH]; [done|]. cbn. destruct (lt (f y) (f x)); [|done]. cbn. by f_equal. }
  induction l as [|x l IH]; [done|]. cbn [fmap list_fmap]. unfold py_sorted in *. cbn [foldr].
  change (list_fmap _ _ f l) with (f <$> l). by rewrite IH, Hi.
Qed.

Section Drift.
Context `{PyConv} `{PyFloatParse}.

Definition is_drift (e : EventRecord) : bool := String.eqb (ev_case e) "drift_detected".

(** What an event does to the judge that waits for its drift event: a drift event takes it,
    whatever the drift is, and a drift-flavoured judgement names the next one. *)
Definition naming (e : EventRecord) : option (option string) :=
  if is_drift e then Some None
  else if String.eqb (ev_case e) "judgement_emitted" then Some <$> _judgement_judge_name (ev_payload e)
  else None.

(** The judge of the last judgement since the last drift event. *)
Definition waiting (before : list EventRecord) : option string :=
  from_option id None (last (omap naming before)).

(** The row of the event at position [i]. *)
Definition row_at (events : list EventRecord) (i : nat) : option (string * string) :=
  e ← events !! i;
  if is_drift e then drift_row (waiting (take i events)) (ev_payload e) else None.

Definition drift_rows (events : list EventRecord) : list (string * string) :=
  omap (row_at events) (seq 0 (length events)).

Definition occurrences (rows : list (string * string)) (row : string * string) : Z :=
  Z.of_nat (count (fun r => bool_decide (r = row)) rows).

Definition row_metric (rows : list (string * string)) (row : string * string) : MetricCount :=
  {| mc_name := "drift:" +:+ row.1; mc_severity := row.2; mc_count := float_of_Z (occurrences rows row) |}.

Lemma waiting_snoc events e :
  waiting (events ++ [e]) = match naming e with Some j => j | None => waiting events end.
Proof.
  unfold waiting. rewrite omap_app. cbn [omap list_omap]. destruct (naming e) as [j|].
  - by rewrite last_snoc.
  - by rewrite app_nil_r.
Qed.

Lemma drift_rows_snoc events e :
  drift_rows (events ++ [e])
  = drift_rows events ++ (if is_drift e
                          then match drift_row (waiting events) (ev_payload e) with Some r => [r] | None => [] end
                          else []).
Proof.
  unfold drift_rows. rewrite length_app, seq_app, omap_app. f_equal.
  - assert (forall l, Forall (fun i => i < length events) l ->
              omap (row_at (events ++ [e])) l = omap (row_at events) l) as Hl.
    { induction 1 as [|i l Hi _ IH]; [done|]. cbn [omap list_omap]. rewrite IH.
      replace (row_at (events ++ [e]) i) with (row_at events i); [done|].
      unfold row_at. rewrite lookup_app_l by done. by rewrite take_app_le by lia. }
    apply Hl, Forall_forall. intros i Hi. apply elem_of_seq in Hi. lia.
  - cbn [length seq omap list_omap]. unfold row_at. rewrite Nat.add_0_l, list_lookup_middle by done. cbn [mbind option_bind].
    rewrite take_app_length. by destruct (is_drift e), (drift_row (waiting events) (ev_payload e)).
Qed.

Lemma occurrences_snoc rows r row :
  occurrences (rows ++ [r]) row = (occurrences rows row + if bool_decide (r = row) then 1 else 0)%Z.
Proof.
  unfold occurrences, count. rewrite List.filter_app, length_app. cbn. case_bool_decide; cbn; lia.
Qed.

(** The bucket of a walk counts the rows of what it has walked. *)
Definition tallies (rows : list (string * string)) (b : DriftBucket) : Prop :=
  NoDup (dict_keys b) /\ (forall row, row ∈ dict_keys b <-> row ∈ rows)
  /\ forall row n, dict_get b row = Some n -> n = occurrences rows row.

Lemma tallies_add rows b r : tallies rows b -> tallies (rows ++ [r]) (add_row b (Some r)).
Proof.
  intros (Hn & Hk & Hc). cbn [add_row]. split; [by apply NoDup_dict_keys_set|]. split.
  - intros row. rewrite elem_of_app, list_elem_of_singleton, dict_keys_set, <- Hk. case_decide as Hin; [|set_solver].
    split; [by left|]. by intros [?| ->].
  - intros row n. rewrite dict_get_set, occurrences_snoc. case_decide as Heq.
    + subst row. rewrite bool_decide_true by done. intros [= <-]. unfold dict_get_or.
      destruct (dict_get b r) as [k|] eqn:E; cbn.
      * by rewrite (Hc _ _ E).
      * apply dict_get_None in E. rewrite Hk in E. unfold occurrences, count.
        replace (List.filter _ rows) with (@nil (string * string)); [done|]. symmetry.
        clear -E. induction rows as [|x rows IH]; [done|]. cbn. rewrite bool_decide_false by set_solver.
        apply IH. set_solver.
    + rewrite bool_decide_false by done. rewrite Z.add_0_r. by apply Hc.
Qed.

Lemma walk_tallies events w :
  result_foldl goldfive_step empty_goldfive events = Ok w ->
  tallies (drift_rows events) (gf_bucket w) /\ gf_pending_judge_name w = waiting events.
Proof.
  revert w. induction events as [|e events IH] using rev_ind; intros w.
  - intros [= <-]. split; [|done]. split; [apply NoDup_nil_2|]. split; [|done].
    intros row. cbn. by rewrite !elem_of_nil.
  - rewrite result_foldl_app. intros (w0 & Hw0 & Hs)%result_bind_ok. apply IH in Hw0 as [Ht Hp].
    cbn [result_foldl] in Hs. apply result_bind_ok in Hs as (w1 & Hs & [= ->]).
    unfold goldfive_step in Hs. apply result_bind_ok in Hs as (tokens & _ & [= <-]). cbn [gf_bucket gf_pending_judge_name].
    rewrite drift_rows_snoc, waiting_snoc, Hp. unfold naming.
    change (String.eqb (ev_case e) "drift_detected") with (is_drift e).
    destruct (is_drift e); cbv iota.
    + split; [|done]. destruct (drift_row (waiting events) (ev_payload e)) as [r|]; [by apply tallies_add|]. by rewrite app_nil_r.
    + rewrite app_nil_r. split; [done|]. destruct (String.eqb (ev_case e) "judgement_emitted"); [|done].
      by destruct (_judgement_judge_name (ev_payload e)).
Qed.

Lemma bucket_metrics_tallies rows b :
  tallies rows b -> bucket_metrics b = row_metric rows <$> py_sorted item_lt (remove_dups rows).
Proof.
  intros (Hn & Hk & Hc). unfold bucket_metrics.
  set (entry := fun row => (row, occurrences rows row)).
  assert (b = entry <$> dict_keys b) as Hb.
  { assert (forall item, item ∈ b -> item = entry item.1) as Hi.
    { intros [row n] Hin. unfold entry. cbn. f_equal. apply Hc, dict_elem_get; done. }
    clear -Hi. unfold dict_keys. induction b as [|item b IH]; [done|]. rewrite !fmap_cons.
    rewrite <- Hi by set_solver. f_equal. apply IH. set_solver. }
  rewrite Hb, (py_sorted_fmap (fun a b => item_lt a.1 b.1) entry), <- list_fmap_compose.
  change (py_sorted _ (dict_keys b)) with (py_sorted item_lt (dict_keys b)).
  rewrite (py_sorted_perm_eq item_lt (fun _ => True) (dict_keys b) (remove_dups rows)); [done|apply item_lt_total| |].
  - by apply Forall_true.
  - apply NoDup_Permutation; [done|apply NoDup_remove_dups|]. intros row. by rewrite Hk, elem_of_remove_dups.
Qed.
End Drift.

Definition judge_authored (mc : MetricCount) : bool :=
  match drift_kind (mc_name mc) with Some k => (split_judge_attributed_kind k).1 | None => false end.

Lemma split_authored k : (split_judge_attributed_kind k).1 = is_judge_attributed_kind k.
Proof.
  unfold split_judge_attributed_kind, is_judge_attributed_kind, str_startswith, _CUSTOM_DRIFT_KIND.
  destruct (String.eqb k "custom"); [done|]. change ("custom" +:+ ":") with "custom:".
  by destruct (str_after_prefix "custom:" k).
Qed.

Lemma omap_filter_irrelevant {A B} (f : A -> option B) (p : A -> bool) l :
  (forall x, p x = false -> f x = None) -> omap f l = omap f (List.filter p l).
Proof.
  intros Hf. induction l as [|x l IH]; [done|]. change (x :: l) with ([x] ++ l).
  rewrite List.filter_app, !omap_app, IH. f_equal. cbn. destruct (p x) eqn:E; [done|]. cbn. by rewrite Hf.
Qed.

Lemma drift_counts_unjudged mcs :
  drift_counts mcs = drift_counts (List.filter (fun mc => negb (judge_authored mc)) mcs).
Proof.
  apply omap_filter_irrelevant. intros mc. unfold judge_authored.
  destruct (drift_kind (mc_name mc)) as [k|]; [|done]. rewrite split_authored.
  by destruct (is_judge_attributed_kind k).
Qed.

Lemma judges_authored w mcs :
  compute_per_judge_loss mcs w = compute_per_judge_loss (List.filter judge_authored mcs) w.
Proof.
  unfold compute_per_judge_loss.
  assert (forall raw, foldl (judge_step w) raw mcs = foldl (judge_step w) raw (List.filter judge_authored mcs)) as ->;
    [|done].
  induction mcs as [|mc mcs IH]; intros raw; [done|]. cbn [foldl List.filter].
  unfold judge_authored at 1. destruct (drift_kind (mc_name mc)) as [k|] eqn:E.
  - destruct (split_judge_attributed_kind k) as [[] j] eqn:Es; cbn [fst foldl]; [apply IH|].
    rewrite IH. unfold judge_step at 2. by rewrite E, Es.
  - rewrite IH. unfold judge_step at 2. by rewrite E.
Qed.

(** C22.  Drift is counted and charged once.  Under the goldfive dialect the drift metrics are
    the sorted histogram of the drift events that name a known severity, each custom one
    under the judge of the last drift-flavoured judgement no earlier drift event took; and
    the drift channel and the judge channel charge complementary parts of them. *)
Theorem drift_charged_once `{PyConv} `{PyFloatParse} events s w :
  signals_of_events events = Ok s ->
  sg_metric_counts s
  = row_metric (drift_rows events) <$> py_sorted item_lt (remove_dups (drift_rows events))
  /\ (forall n, builtin_drift_loss (sg_metric_counts s) n w
      = builtin_drift_loss (List.filter (fun mc => negb (judge_authored mc)) (sg_metric_counts s)) n w)
  /\ compute_per_judge_loss (sg_metric_counts s) w
     = compute_per_judge_loss (List.filter judge_authored (sg_metric_counts s)) w.
Proof.
  unfold signals_of_events. intros (walk & Hw & Hs)%result_bind_ok. injection Hs as <-. cbn [sg_metric_counts].
  apply walk_tallies in Hw as [Ht _]. split; [by apply bucket_metrics_tallies|].
  split; [|apply judges_authored]. intros n. unfold builtin_drift_loss. by rewrite <- drift_counts_unjudged.
Qed.

(** ** The terminal frame *)

Section Terminal.
Context `{PyConv} `{PyFloatParse} `{PyTime} (json_dumps : Json -> string)
  (json_loads : string -> option Json) (proto_line : option (string -> Z -> string -> string))
  (cause : string).












End Terminal.

(** ** The profile *)

Lemma task_ratio_bounds started failed :
  fle f0 (task_ratio started failed) = true /\ fle (task_ratio started failed) f1 = true.
Proof.
  destruct started as [|n|n]; try by split. unfold task_ratio, fmin, fmax.
  destruct (flt (Z_truediv failed n) f1) eqn:E; [|by split].
  destruct (flt f0 (Z_truediv failed n)) eqn:E0; [|by split].
  rewrite !fle_spec, E, E0. by split.
Qed.

Lemma fle_of_not_flt x y : is_nan x = false -> is_nan y = false -> flt y x = false -> fle x y = true.
Proof.
  intros Hx Hy Hn. rewrite fle_spec. destruct (flt_total x y Hx Hy) as [->|[->|Hlt]]; [done|apply orb_true_r|congruence].
Qed.

Lemma continuous_score_bounds r : fle f0 (_continuous_score r) = true /\ fle (_continuous_score r) f1 = true.
Proof.
  unfold _continuous_score. destruct (er_score r) as [x|]; [|by destruct (passed r)].
  destruct (isfinite x) eqn:Ef; [|by split]. cbn [negb].
  destruct (flt x f0) eqn:E0; [by split|]. destruct (flt f1 x) eqn:E1; [by split|].
  apply isfinite_not_nan in Ef. split; by apply fle_of_not_flt.
Qed.

(** C24.  What scoring reads off a run is bounded whatever the telemetry said: the failure ratio
    and the score lie between 0 and 1, the scorer's parts are finite, and a run that went
    over its budget or did not complete is recorded so, with every task failed. *)
Theorem profile_bounds `{PyConv} `{PyFloatParse} `{PyTime} `{Libm} `{PyFormat} `{Goldfive}
    dumps loads resolve name file entry gid epoch expectation ms over w out incomplete p :
  reduce_loss dumps loads resolve name file entry gid epoch expectation ms over w out incomplete = Ok p ->
  fle f0 (task_failure_ratio p) = true /\ fle (task_failure_ratio p) f1 = true
  /\ not_completed p = over || incomplete
  /\ (not_completed p = true -> task_failure_ratio p = f1)
  /\ (forall x, lp_score p = Some x -> fle f0 x = true /\ fle x f1 = true)
  /\ (forall d k x, lp_metrics p = Some d -> (k, x) ∈ d -> isfinite x = true)
  /\ (lp_score p = None <-> pass_fail p = None).
Proof.
  unfold reduce_loss, profile_of_signals. intros (s & _ & Hp)%result_bind_ok.
  apply result_bind_ok in Hp as (schema & _ & Hp). apply result_bind_ok in Hp as ([[turns memory] context] & _ & Hp).
  apply result_bind_ok in Hp as (builtin & _ & Hp). apply result_bind_ok in Hp as (resolved & _ & [= <-]).
  cbn [task_failure_ratio not_completed lp_score lp_metrics pass_fail].
  pose proof (task_ratio_bounds (sg_task_started s) (sg_task_failed s)) as [Ha Hb].
  split; [by destruct (over || incomplete)|]. split; [by destruct (over || incomplete)|].
  split; [done|]. split; [by intros ->|]. split; [|split].
  - intros x Hx. destruct expectation as [r|]; [|done]. injection Hx as <-. apply continuous_score_bounds.
  - intros d k x Hd Hin. destruct expectation as [r|]; [|done]. cbn [mbind option_bind] in Hd.
    unfold cleaned_metrics in Hd. destruct (er_metrics r) as [items|]; [|done].
    assert (d = List.filter (fun item => isfinite item.2) items) as -> by (destruct (List.filter _ _); congruence).
    by apply elem_of_filter_In in Hin as [_ Hf].
  - by destruct expectation.
Qed.

(** ** Repeated turns *)

(** [s] has a substring of [n] characters in common with [t]. *)
Definition repeats (n : nat) (s t : string) : Prop :=
  exists u p q p' q', String.length u = n /\ s = p +:+ u +:+ q /\ t = p' +:+ u +:+ q'.

Lemma substring_prefix n s : n <= String.length s -> exists q, s = String.substring 0 n s +:+ q.
Proof.
  revert s. induction n as [|n IH]; intros s Hn; [exists s; by destruct s|].
  destruct s as [|c s]; cbn in Hn; [lia|]. destruct (IH s ltac:(lia)) as [q Hq].
  exists q. cbn [String.substring]. rewrite str_app_cons. by rewrite <- Hq.
Qed.

Lemma substring_app u q : String.substring 0 (String.length u) (u +:+ q) = u.
Proof. induction u as [|c u IH]; [by destruct q|]. cbn [String.length]. rewrite str_app_cons. cbn. by rewrite IH. Qed.

Lemma windows_spec n s u :
  0 < n -> u ∈ windows n s <-> String.length u = n /\ exists p q, s = p +:+ u +:+ q.
Proof.
  intros Hn. induction s as [|c s IH].
  - cbn. split; [by rewrite elem_of_nil|]. intros (Hl & p & q & He). apply (f_equal String.length) in He.
    rewrite !str_app_length in He. cbn in He. lia.
  - cbn [windows]. destruct (Nat.leb_spec n (String.length (String c s))) as [Hle|Hlt].
    + rewrite elem_of_cons, IH. split.
      * intros [->|(Hl & p & q & ->)].
        -- destruct (substring_prefix n (String c s) Hle) as [q Hq].
           split; [|exists "", q; by rewrite str_app_nil].
           apply (f_equal String.length) in Hq as Hlen. rewrite str_app_length in Hlen.
           clear -Hle. revert Hle. generalize (String c s) as t. induction n as [|m IHm]; intros t Ht; [by destruct t|].
           destruct t as [|d t]; cbn in *; [lia|]. f_equal. apply IHm. lia.
        -- split; [done|]. by exists (String c p), q.
      * intros (Hl & [|d p] & q & He).
        -- left. rewrite str_app_nil in He. rewrite He, <- Hl. by rewrite substring_app.
        -- right. split; [done|]. rewrite str_app_cons in He. injection He as -> ->. by exists p, q.
    + rewrite elem_of_nil. split; [done|]. intros (Hl & p & q & He). apply (f_equal String.length) in He.
      rewrite !str_app_length in He. lia.
Qed.

Lemma shared_substring_iff a b n : 0 < n -> _has_shared_substring a b n = true <-> repeats n a b.
Proof.
  intros Hn. unfold _has_shared_substring. split.
  - destruct (_ || _); [done|]. intros (u & Hu & Hw)%existsb_exists.
    apply list_elem_of_In, windows_spec in Hu as (Hl & p' & q' & ->); [|done].
    apply bool_decide_eq_true, windows_spec in Hw as (_ & p & q & ->); [|done]. by exists u, p, q, p', q'.
  - intros (u & p & q & p' & q' & Hl & -> & ->).
    assert (forall p q, (String.length (p +:+ u +:+ q) <? n) = false) as Hlen.
    { intros. apply Nat.ltb_ge. rewrite !str_app_length. lia. }
    rewrite !Hlen. cbn [orb]. apply existsb_exists. exists u. split.
    + apply list_elem_of_In, windows_spec; [done|]. split; [done|]. by exists p', q'.
    + apply bool_decide_eq_true, windows_spec; [done|]. split; [done|]. by exists p, q.
Qed.

(** The pairs of positions whose turns share, the later one from [length earlier] on. *)
Lemma memory_pairs_spec earlier rest :
  exists pairs, NoDup pairs
    /\ (forall i j, (i, j) ∈ pairs <->
        i < j /\ length earlier <= j /\ exists a b, (earlier ++ rest) !! i = Some a /\ (earlier ++ rest) !! j = Some b
          /\ repeats _MEMORY_FAILURE_MIN_SUBSTRING_LEN a b)
    /\ memory_pairs earlier rest = Z.of_nat (length pairs).
Proof.
  revert earlier. induction rest as [|t rest IH]; intros earlier.
  - exists []. split; [apply NoDup_nil_2|]. split; [|done]. intros i j. rewrite elem_of_nil. split; [done|].
    intros (_ & Hj & a & b & _ & Hb & _). rewrite app_nil_r in Hb. apply lookup_lt_Some in Hb. lia.
  - destruct (IH (earlier ++ [t])) as (later & Hnd & Hl & Hc). rewrite length_app in Hl. cbn in Hl.
    setoid_rewrite <- app_assoc in Hl. cbn [app] in Hl.
    set (hit := fun i => match earlier !! i with
                         | Some e => _has_shared_substring e t _MEMORY_FAILURE_MIN_SUBSTRING_LEN | None => false end).
    set (now := (fun i => (i, length earlier)) <$> List.filter hit (seq 0 (length earlier))).
    exists (now ++ later). split; [|split].
    + apply NoDup_app. split_and!; [| |done].
      * apply NoDup_fmap_2; [by intros ? ? [=]|]. apply NoDup_ListNoDup, List.NoDup_filter, seq_NoDup.
      * intros [i j] (i' & [= -> ->] & _)%list_elem_of_fmap Hin. apply Hl in Hin. lia.
    + intros i j. rewrite elem_of_app, Hl. unfold now. rewrite list_elem_of_fmap. setoid_rewrite elem_of_filter_In.
      setoid_rewrite elem_of_seq. split.
      * intros [(i' & [= -> ->] & Hi & Hh)|(Hij & Hj & Hab)]; [|split; [done|]; split; [lia|done]].
        split; [lia|]. split; [lia|]. unfold hit in Hh. destruct (earlier !! i') as [e|] eqn:He; [|done].
        exists e, t. rewrite lookup_app_l by lia. split; [done|]. rewrite list_lookup_middle by done.
        split; [done|]. by apply shared_substring_iff in Hh; [|unfold _MEMORY_FAILURE_MIN_SUBSTRING_LEN; lia].
      * intros (Hij & Hj & a & b & Ha & Hb & Hr). destruct (decide (j = length earlier)) as [->|Hne].
        -- left. exists i. split; [done|]. split; [lia|]. unfold hit. rewrite lookup_app_l in Ha by lia.
           rewrite list_lookup_middle in Hb by done. injection Hb as <-. rewrite Ha.
           apply shared_substring_iff; [unfold _MEMORY_FAILURE_MIN_SUBSTRING_LEN; lia|done].
        -- right. split; [done|]. split; [lia|]. by exists a, b.
    + cbn [memory_pairs]. rewrite Hc, length_app, Nat2Z.inj_add. f_equal. f_equal. unfold now. rewrite length_fmap.
      unfold count. clear. subst hit.
      assert (forall k, length (List.filter (fun e => _has_shared_substring e t _MEMORY_FAILURE_MIN_SUBSTRING_LEN) (take k earlier))
              = length (List.filter (fun i => match earlier !! i with
                  | Some e => _has_shared_substring e t _MEMORY_FAILURE_MIN_SUBSTRING_LEN | None => false end)
                  (seq 0 (min k (length earlier))))) as Hk.
      { induction k as [|k IHk]; [done|]. destruct (earlier !! k) as [e|] eqn:He.
        - rewrite (take_S_r _ _ e He). pose proof (lookup_lt_Some _ _ _ He) as Hlt.
          rewrite !Nat.min_l in * by lia. rewrite seq_S, !List.filter_app, !length_app, IHk. cbn [List.filter].
          rewrite Nat.add_0_l, He. by destruct (_has_shared_substring _ _ _).
        - apply lookup_ge_None in He. rewrite take_ge in * by lia. by rewrite !Nat.min_r in * by lia. }
      specialize (Hk (length earlier)). rewrite firstn_all, Nat.min_id in Hk. exact Hk.
Qed.

(** Memory failures are repetitions: the count is the number of pairs of turns, the earlier
    one first, whose normalised bodies have a common substring of 40 characters. *)
Theorem memory_failures_are_repetitions turns :
  exists pairs, NoDup pairs
    /\ (forall i j, (i, j) ∈ pairs <->
        i < j /\ exists a b, turns !! i = Some a /\ turns !! j = Some b
          /\ repeats 40 (_normalise_for_substring a) (_normalise_for_substring b))
    /\ _memory_failure_count (JStr <$> turns) = Ok (Z.of_nat (length pairs)).
Proof.
  destruct (memory_pairs_spec [] (_normalise_for_substring <$> turns)) as (pairs & Hn & Hp & Hc).
  exists pairs. split; [done|]. split.
  - intros i j. rewrite Hp. cbn [app length]. setoid_rewrite list_lookup_fmap. split.
    + intros (Hij & _ & a & b & (a' & Ha & ->)%fmap_Some & (b' & Hb & ->)%fmap_Some & Hr). eauto 8.
    + intros (Hij & a & b & Ha & Hb & Hr). split; [done|]. split; [lia|].
      exists (_normalise_for_substring a), (_normalise_for_substring b). by rewrite Ha, Hb.
  - unfold _memory_failure_count. assert (result_map turn_text (JStr <$> turns) = Ok turns) as ->.
    { clear. induction turns as [|t turns IH]; [done|]. cbn [fmap list_fmap result_map turn_text result_bind].
      change (list_fmap _ _ JStr turns) with (JStr <$> turns). by rewrite IH. }
    cbn [result_bind]. by rewrite Hc.
Qed.

Module TelemetryWitness.
#[local] Existing Instance plain_conv.
#[local] Existing Instance no_float_text.
#[local] Existing Instance no_calendar.
#[local] Existing Instance plain_libm.
#[local] Existing Instance plain_format.

(** A drift event, written once by goldfive's own serialiser and once by hand. *)
Definition drift_event : WireEvent := {|
  we_run := "r1"; we_session := "s1"; we_id := "e1"; we_seq := 4; we_case := "drift_detected";
  we_payload := [("kind", JStr "off_topic"); ("severity", JStr "DRIFT_SEVERITY_WARNING")] |}.
Definition by_proto : Shape := {| sh_camel := true; sh_payload_key := true; sh_stamp := Some (JInt 17) |}.
Definition by_hand : Shape := {| sh_camel := false; sh_payload_key := false; sh_stamp := None |}.

Definition loads (line : string) : option Json :=
  if String.eqb line "proto" then Some (JObj (wire drift_event by_proto))
  else if String.eqb line "hand" then Some (JObj (wire drift_event by_hand)) else None.

(** Goldfive's parser takes the first of the two logs below and refuses the other. *)
#[local] Instance goldfive : Goldfive := {|
  replay_from_jsonl := Some (fun text =>
    if String.eqb text ("proto" +:+ nl +:+ nl +:+ "torn") then Some [wire drift_event by_proto] else None) |}.

Definition no_resolve (_ : string) : option (DriftContext -> result Json) := None.
Definition entry : BoardEntry := {|
  entry_id := "b1"; kind := single_turn; wall_clock_budget_seconds := 60; weight := 1%float;
  tags := []; context := []; expectation := None; judges := []; input := Some "hello";
  turns := None; user_persona := None; max_turns := None; adversarial_agent_spec := None;
  required_drift_kinds := None |}.

Abbreviation reduced text :=
  (reduce_loss (fun _ => "") loads no_resolve "events.jsonl" (Some text) entry "g" "ep" None 900 false
     default_weights None false).

Lemma drift_event_ok : wire_ok drift_event.
Proof. split; [reflexivity|discriminate|by apply (bool_decide_eq_true_1 _)|reflexivity]. Qed.

Lemma reduction_blind_to_wire_witness :
  reduced ("proto" +:+ nl +:+ nl +:+ "torn") = reduced ("hand" +:+ nl).
Proof.
  apply (reduction_blind_to_wire _ _ _ [drift_event]); [reflexivity| | | |exact I].
  - exists ["proto"; ""], "torn". split; [reflexivity|]. split; [|by split; [|right]].
    eapply (lines_event _ _ drift_event by_proto); try done; [apply drift_event_ok|].
    apply lines_noise; [by split; [|left]|constructor].
  - exists ["hand"], "". split; [reflexivity|]. split; [|by split; [|left]].
    eapply (lines_event _ _ drift_event by_hand); try done; [apply drift_event_ok|constructor].
  - destruct (wire_parses drift_event by_proto drift_event_ok) as [emitted He]; [by split|].
    eexists [_]. cbn [result_map]. rewrite He. split; [reflexivity|]. by repeat constructor.
Defined.

Lemma reduced_ok : is_ok (reduced ("hand" +:+ nl)) = true.
Proof. vm_compute. reflexivity. Qed.

Lemma profile_bounds_witness :
  exists p, reduced ("hand" +:+ nl) = Ok p
    /\ fle f0 (task_failure_ratio p) = true /\ not_completed p = false.
Proof.
  pose proof reduced_ok as Hok. destruct (reduced ("hand" +:+ nl)) as [p|] eqn:E; [clear Hok|discriminate Hok].
  exists p. split; [reflexivity|].
  pose proof (profile_bounds _ _ _ _ _ _ _ _ _ _ _ _ _ _ p E) as (H1 & _ & H2 & _).
  split; [exact H1|exact H2].
Defined.
(** Two judge-raised drifts and a built-in one; the second judge drift finds no judgement left. *)
Definition judged (name : string) : EventRecord := {|
  ev_case := "judgement_emitted";
  ev_payload := [("verdict_kind", JStr "drift"); ("judge_name", JStr name)];
  ev_run_id := "r1"; ev_session_id := "s1"; ev_event_id := ""; ev_sequence := None; ev_emitted_at := None;
  ev_raw := [] |}.
Definition drifted (kind : string) : EventRecord := {|
  ev_case := "drift_detected"; ev_payload := [("kind", JStr kind); ("severity", JStr "warning")];
  ev_run_id := "r1"; ev_session_id := "s1"; ev_event_id := ""; ev_sequence := None; ev_emitted_at := None;
  ev_raw := [] |}.
Definition events : list EventRecord := [judged "tone"; drifted "custom"; drifted "off_topic"; drifted "custom"].

Lemma signals_ok : is_ok (signals_of_events events) = true.
Proof. vm_compute. reflexivity. Qed.

Lemma drift_charged_once_witness :
  exists s, signals_of_events events = Ok s
    /\ sg_metric_counts s
       = row_metric (drift_rows events) <$> py_sorted item_lt (remove_dups (drift_rows events)).
Proof.
  pose proof signals_ok as Hok. destruct (signals_of_events events) as [s|] eqn:E; [clear Hok|discriminate Hok].
  exists s. split; [reflexivity|]. exact (proj1 (drift_charged_once events s default_weights E)).
Defined.

(** A log whose writer died on its second line, and goldfive's rendering of the frame. *)
Definition rendered (run_id : string) (n : Z) (cause : string) : string :=
  "aborted " +:+ run_id +:+ " " +:+ pretty n +:+ " " +:+ cause.
Definition killed_loads (line : string) : option Json :=
  if String.eqb line "aborted r1 5 killed" then
    Some (JObj [("runAborted", JObj [("reason", JStr "killed")]); ("runId", JStr "r1"); ("sequence", JStr "5")])
  else loads line.



(** Torn in the middle of a line, the log has no frame that reads. *)
Example torn_log_stays_open :
  match ensure_run_aborted_event (fun _ => "") killed_loads (Some rendered) (Some "{") "killed" "r1" (Some 5%Z) with
  | Ok (reported, file) =>
      reported = true /\ _file_already_has_terminal killed_loads file = Ok false
  | Raise _ => False
  end.
Proof. vm_compute. by split. Qed.

End TelemetryWitness.
