(* ===== verification/Kernel.v ===== *)
(** The operating system as the runtime uses it: file descriptors, advisory locks,
    processes and atomic records; programs of system calls; and a logic of what a program
    may do with the descriptor it holds, sound in any company. *)
From S2P Require Import Prelude PyFloat PyText PyJson Records.

#[local] Open Scope Z_scope.

(** ** System calls

    [Flock] is [flock(LOCK_EX | LOCK_NB)] and answers [false] for [BlockingIOError];
    [Kill0] is [kill(pid, 0)]; [ReadStat] is the text of a process's stat, [None] when
    the process is gone; [CreateTime] is what psutil knows. *)
Inductive KillAnswer := Delivered | NoSuchProcess | NotPermitted | OtherErrno.

Inductive Sys : Type -> Type :=
  | MakeDirs (dir : string) : Sys unit
  | OpenFile (path : string) : Sys Z
  | Flock (fd : Z) : Sys bool
  | Unlock (fd : Z) : Sys unit
  | Close (fd : Z) : Sys unit
  | ReadJson (key : string) : Sys (option Json)
  | WriteJson (key : string) (v : Json) : Sys unit
  | DeleteKey (key : string) : Sys unit
  | Getpid : Sys Z
  | Kill0 (pid : Z) : Sys KillAnswer
  | ReadStat (pid : Z) : Sys (option string)
  | CreateTime (pid : Z) : Sys (option float)
  | NowIso : Sys string
  | Uuid : Sys string.

(** A program: done, with a value or an exception, or a call and what follows it. *)
Inductive Prog (A : Type) : Type :=
  | Done (r : result A)
  | Do {R : Type} (s : Sys R) (k : result R -> Prog A).
Arguments Done {A} r.
Arguments Do {A R} s k.

Definition ret {A} (a : A) : Prog A := Done (Ok a).
Definition raise {A} (e : exn) : Prog A := Done (Raise e).
Definition sys {R} (s : Sys R) : Prog R := Do s Done.

(** What follows a program, whichever way it ends. *)
Fixpoint prog_then {A B} (p : Prog A) (f : result A -> Prog B) : Prog B :=
  match p with
  | Done r => f r
  | Do s k => Do s (fun r => prog_then (k r) f)
  end.

Definition prog_bind {A B} (p : Prog A) (f : A -> Prog B) : Prog B :=
  prog_then p (fun r => match r with Ok a => f a | Raise e => raise e end).

(** [try: p except BaseException: cleanup; raise] *)
Definition on_failure {A} (p : Prog A) (cleanup : Prog unit) : Prog A :=
  prog_then p (fun r => match r with Ok a => ret a | Raise e => prog_bind cleanup (fun _ => raise e) end).

(** [try: p finally: cleanup] *)
Definition finally {A} (p : Prog A) (cleanup : Prog unit) : Prog A :=
  prog_then p (fun r => prog_bind cleanup (fun _ => Done r)).

(** [try: p except OSError: value] *)
Definition or_else {A} (p : Prog A) (value : A) : Prog A :=
  prog_then p (fun r =>
    match r with
    | Raise (OtherException "OSError") => ret value
    | _ => Done r
    end).

Declare Scope os_scope.
Delimit Scope os_scope with os.
Notation "'os' x <- p ; k" := (prog_bind p (fun x => k))
  (at level 10, x pattern, p at level 100, k at level 200) : os_scope.
Open Scope os_scope.

(** ** The state

    A descriptor of a process refers to an open description; a lock belongs to a
    description, and ends with the last descriptor that refers to it. *)
Record Kernel := {
  k_fds : gmap (Z * Z) nat;
  k_paths : gmap nat string;
  k_flocks : gmap string nat;
  k_next : nat;
  k_procs : gmap Z string;
  k_files : gmap string Json;
}.

Definition referenced (fds : gmap (Z * Z) nat) (d : nat) : Prop := d ∈ (map_to_list fds).*2.
#[export] Instance referenced_dec fds d : Decision (referenced fds d).
Proof. unfold referenced. apply _. Defined.

Definition with_fds (k : Kernel) (fds : gmap (Z * Z) nat) : Kernel := {|
  k_fds := fds; k_paths := k_paths k;
  k_flocks := filter (fun item => referenced fds item.2) (k_flocks k);
  k_next := k_next k; k_procs := k_procs k; k_files := k_files k |}.

Definition with_flocks (k : Kernel) (flocks : gmap string nat) : Kernel := {|
  k_fds := k_fds k; k_paths := k_paths k; k_flocks := flocks; k_next := k_next k;
  k_procs := k_procs k; k_files := k_files k |}.

Definition with_files (k : Kernel) (files : gmap string Json) : Kernel := {|
  k_fds := k_fds k; k_paths := k_paths k; k_flocks := k_flocks k; k_next := k_next k;
  k_procs := k_procs k; k_files := files |}.

Definition with_procs (k : Kernel) (procs : gmap Z string) : Kernel := {|
  k_fds := k_fds k; k_paths := k_paths k; k_flocks := k_flocks k; k_next := k_next k;
  k_procs := procs; k_files := k_files k |}.

Definition open_file (k : Kernel) (pid fd : Z) (path : string) : Kernel := {|
  k_fds := <[(pid, fd) := k_next k]> (k_fds k); k_paths := <[k_next k := path]> (k_paths k);
  k_flocks := k_flocks k; k_next := S (k_next k); k_procs := k_procs k; k_files := k_files k |}.

(** [flock]: the description's own lock is no obstacle. *)
Definition flock (k : Kernel) (pid fd : Z) : option (bool * Kernel) :=
  match k_fds k !! (pid, fd) with
  | None => None
  | Some d =>
      match k_paths k !! d with
      | None => None
      | Some path =>
          Some match k_flocks k !! path with
               | Some d' => (bool_decide (d' = d), k)
               | None => (true, with_flocks k (<[path := d]> (k_flocks k)))
               end
      end
  end.

Definition unlock (k : Kernel) (pid fd : Z) : Kernel :=
  match k_fds k !! (pid, fd) with
  | None => k
  | Some d => with_flocks k (filter (fun item => item.2 <> d) (k_flocks k))
  end.

Definition close_fd (k : Kernel) (pid fd : Z) : Kernel := with_fds k (delete (pid, fd) (k_fds k)).

(** The end of a process closes its descriptors, however it comes. *)
Definition kill (k : Kernel) (pid : Z) : Kernel :=
  with_procs (with_fds k (filter (fun item => item.1.1 <> pid) (k_fds k))) (delete pid (k_procs k)).

(** A child inherits the descriptors. *)
Definition fork (k : Kernel) (pid child : Z) (stat : string) : Kernel :=
  with_procs
    {| k_fds := k_fds k ∪ list_to_map ((fun item => ((child, item.1.2), item.2))
                                         <$> map_to_list (filter (fun item => item.1.1 = pid) (k_fds k)));
       k_paths := k_paths k; k_flocks := k_flocks k; k_next := k_next k; k_procs := k_procs k;
       k_files := k_files k |}
    (<[child := stat]> (k_procs k)).

(** ** What a call does *)
Definition answers (pid : Z) (k : Kernel) {R} (s : Sys R) : R -> Kernel -> Prop :=
  match s in Sys R return R -> Kernel -> Prop with
  | MakeDirs _ => fun _ k' => k' = k
  | OpenFile path => fun fd k' => 0 <= fd /\ k_fds k !! (pid, fd) = None /\ k' = open_file k pid fd path
  | Flock fd => fun got k' => flock k pid fd = Some (got, k')
  | Unlock fd => fun _ k' => k' = unlock k pid fd
  | Close fd => fun _ k' => k' = close_fd k pid fd
  | ReadJson key => fun v k' => k' = k /\ v = k_files k !! key
  | WriteJson key v => fun _ k' => k' = with_files k (<[key := v]> (k_files k))
  | DeleteKey key => fun _ k' => k' = with_files k (delete key (k_files k))
  | Getpid => fun p k' => k' = k /\ p = pid
  | Kill0 p => fun a k' => k' = k /\ (a = NoSuchProcess <-> k_procs k !! p = None)
  | ReadStat p => fun text k' => k' = k /\ text = k_procs k !! p
  | CreateTime _ => fun _ k' => k' = k
  | NowIso => fun _ k' => k' = k
  | Uuid => fun u k' => k' = k /\ u <> ""
  end.

Definition OSError : exn := OtherException "OSError".

(** A call that fails changes nothing, except that a record may be written or deleted and
    the failure come after. *)
Definition fails (pid : Z) (k : Kernel) {R} (s : Sys R) : Kernel -> Prop :=
  match s with
  | WriteJson key v => fun k' => k' = k \/ k' = with_files k (<[key := v]> (k_files k))
  | DeleteKey key => fun k' => k' = k \/ k' = with_files k (delete key (k_files k))
  | Close fd => fun k' => k' = close_fd k pid fd
  | Getpid | NowIso | Uuid | Kill0 _ | CreateTime _ => fun _ => False
  | _ => fun k' => k' = k
  end.

Definition sys_step (pid : Z) (k : Kernel) {R} (s : Sys R) (r : result R) (k' : Kernel) : Prop :=
  match r with
  | Ok a => answers pid k s a k'
  | Raise e => e = OSError /\ fails pid k s k'
  end.

Definition prog_step (pid : Z) (k : Kernel) {A} (p p' : Prog A) (k' : Kernel) : Prop :=
  match p with
  | Done _ => False
  | Do s c => exists r, sys_step pid k s r k' /\ p' = c r
  end.

(** * Leases

    What a program holds: a descriptor of its process, the description and the path it
    refers to, and how far it has got with it. *)
Inductive Stage := Copied | Opened | Locked | Recorded (v : Json).

Record Lease := {
  l_fd : Z;
  l_description : nat;
  l_path : string;
  l_stage : Stage;
}.

Definition staged (l : Lease) (s : Stage) : Lease := {|
  l_fd := l_fd l; l_description := l_description l; l_path := l_path l; l_stage := s |}.

Definition locked (s : Stage) : Prop := match s with Locked | Recorded _ => True | _ => False end.
Definition own (s : Stage) : Prop := s <> Copied.

Section Logic.
(** The record [key root] of a workspace is written only under the lock on [guard root],
    and holds only records that are [fine]. *)
Context (guard key : string -> string) (fine : Json -> Prop)
  `{!Inj (=) (=) guard} `{!Inj (=) (=) key}.

(** What a program may be told: of its own record it reads what it wrote. *)
Definition may_read (g : option Lease) (k : string) (a : option Json) : Prop :=
  (forall root, k = key root -> forall v, a = Some v -> fine v)
  /\ (forall root l v, k = key root -> g = Some l -> l_path l = guard root -> l_stage l = Recorded v -> a = Some v).

Definition may_write (g : option Lease) (k : string) : Prop :=
  exists root l, k = key root /\ g = Some l /\ l_path l = guard root /\ locked (l_stage l).

Definition restage (g : option Lease) (s : Stage) : option Lease := (fun l => staged l s) <$> g.

Definition sys_safe (pid : Z) (g : option Lease) {R} (s : Sys R)
    : (result R -> option Lease -> Prop) -> Prop :=
  match s in Sys R return (result R -> option Lease -> Prop) -> Prop with
  | OpenFile path => fun K =>
      g = None /\ K (Raise OSError) None
      /\ forall fd d, 0 <= fd -> K (Ok fd) (Some {| l_fd := fd; l_description := d; l_path := path; l_stage := Opened |})
  | Flock fd => fun K =>
      exists l, g = Some l /\ l_fd l = fd /\ l_stage l = Opened
        /\ K (Raise OSError) g /\ K (Ok false) g /\ K (Ok true) (Some (staged l Locked))
  | Unlock fd => fun K =>
      exists l, g = Some l /\ l_fd l = fd /\ own (l_stage l)
        /\ K (Raise OSError) g /\ K (Ok tt) (Some (staged l Opened))
  | Close fd => fun K => (exists l, g = Some l /\ l_fd l = fd) /\ forall r, K r None
  | ReadJson k => fun K => K (Raise OSError) g /\ forall a, may_read g k a -> K (Ok a) g
  | WriteJson k v => fun K =>
      may_write g k /\ fine v /\ K (Raise OSError) (restage g Locked) /\ K (Ok tt) (restage g (Recorded v))
  | DeleteKey k => fun K => may_write g k /\ forall r, K r (restage g Locked)
  | Getpid => fun K => K (Ok pid) g
  | Uuid => fun K => forall u, u <> "" -> K (Ok u) g
  | _ => fun K => K (Raise OSError) g /\ forall a, K (Ok a) g
  end.

Fixpoint safe (pid : Z) {A} (g : option Lease) (p : Prog A) (Q : result A -> option Lease -> Prop) : Prop :=
  match p with
  | Done r => Q r g
  | Do s k => sys_safe pid g s (fun r g' => safe pid g' (k r) Q)
  end.

(** ** What holds of the kernel *)
Record kernel_ok (k : Kernel) : Prop := {
  ko_fds : forall x d, k_fds k !! x = Some d -> is_Some (k_paths k !! d);
  ko_next : forall d path, k_paths k !! d = Some path -> (d < k_next k)%nat;
  ko_flocks : forall path d, k_flocks k !! path = Some d -> k_paths k !! d = Some path /\ referenced (k_fds k) d;
  ko_procs : forall x d, k_fds k !! x = Some d -> is_Some (k_procs k !! x.1);
  ko_files : forall root v, k_files k !! key root = Some v -> fine v;
}.

Record lease_ok (k : Kernel) (pid : Z) (l : Lease) : Prop := {
  lo_fd : k_fds k !! (pid, l_fd l) = Some (l_description l);
  lo_path : k_paths k !! l_description l = Some (l_path l);
  lo_lock : locked (l_stage l) -> k_flocks k !! l_path l = Some (l_description l);
  lo_record : forall v root, l_stage l = Recorded v -> l_path l = guard root -> k_files k !! key root = Some v;
}.

Definition held (k : Kernel) (pid : Z) (g : option Lease) : Prop :=
  match g with Some l => lease_ok k pid l | None => True end.

#[export] Instance own_dec s : Decision (own s).
Proof. destruct s; [right; by intros Hn|left; done..]. Defined.

(** Two holders: different descriptors, and different descriptions unless one is a copy. *)
Definition apart (x y : Z * option Lease) : Prop :=
  match x.2, y.2 with
  | Some l, Some m =>
      (x.1, l_fd l) <> (y.1, l_fd m)
      /\ (own (l_stage l) -> own (l_stage m) -> l_description l <> l_description m)
  | _, _ => True
  end.

Lemma apart_sym x y : apart x y -> apart y x.
Proof. unfold apart. destruct x.2, y.2; naive_solver. Qed.

Lemma locked_own s : locked s -> own s.
Proof. by destruct s. Qed.

Lemma referenced_spec fds d : referenced fds d <-> exists x, fds !! x = Some d.
Proof.
  unfold referenced. rewrite list_elem_of_fmap. split.
  - intros ([x d'] & -> & Hx%elem_of_map_to_list). by exists x.
  - intros [x Hx]. exists (x, d). split; [done|]. by apply elem_of_map_to_list.
Qed.

(** What a new state keeps for a holder: its descriptor, its lock and its record. *)
Lemma lease_kept k k' pid l :
  lease_ok k pid l ->
  k_fds k' !! (pid, l_fd l) = k_fds k !! (pid, l_fd l) ->
  k_paths k' !! l_description l = k_paths k !! l_description l ->
  (locked (l_stage l) -> k_flocks k' !! l_path l = k_flocks k !! l_path l) ->
  (locked (l_stage l) -> forall root, l_path l = guard root -> k_files k' !! key root = k_files k !! key root) ->
  lease_ok k' pid l.
Proof.
  intros [Hf Hp Hl Hr] Ef Ep El Er. split; [by rewrite Ef|by rewrite Ep|..].
  - intros Hs. rewrite El by done. by apply Hl.
  - intros v root Hs Hroot. rewrite Er; [by apply Hr|by rewrite Hs|done].
Qed.

Lemma flocks_with_fds k fds path d :
  k_flocks k !! path = Some d -> referenced fds d -> k_flocks (with_fds k fds) !! path = Some d.
Proof. intros Hl Hd. cbn. by apply map_lookup_filter_Some. Qed.

(** Taking away descriptors that are not a holder's takes nothing from it. *)
Lemma lease_with_fds k fds pid l :
  lease_ok k pid l -> fds !! (pid, l_fd l) = Some (l_description l) -> lease_ok (with_fds k fds) pid l.
Proof.
  intros Hl Hf. pose proof Hl as [Hfd _ Hlock _]. apply (lease_kept k); [done|cbn; congruence|done|..|done].
  intros Hs. rewrite (Hlock Hs). apply flocks_with_fds; [by apply Hlock|]. apply referenced_spec. eauto.
Qed.

Lemma kernel_with_fds k fds :
  kernel_ok k -> (forall x d, fds !! x = Some d -> k_fds k !! x = Some d) -> kernel_ok (with_fds k fds).
Proof.
  intros [Hf Hn Hl Hp Hr] Hsub. split; cbn; [naive_solver..| | |done].
  - intros path d [H1 H2]%map_lookup_filter_Some. split; [by apply Hl|done].
  - naive_solver.
Qed.

Lemma close_ok k pid fd : kernel_ok k -> kernel_ok (close_fd k pid fd).
Proof. intros Hk. apply kernel_with_fds; [done|]. by intros x d [_ H]%lookup_delete_Some. Qed.

Lemma close_frame k pid fd pid2 l :
  lease_ok k pid2 l -> (pid, fd) <> (pid2, l_fd l) -> lease_ok (close_fd k pid fd) pid2 l.
Proof.
  intros Hl Hne. apply lease_with_fds; [done|]. rewrite lookup_delete_ne by done. apply Hl.
Qed.

(** Only the holder of the lock writes the record. *)
Lemma files_frame k files pid g k0 pid2 l :
  may_write g k0 -> held k pid g -> lease_ok k pid2 l -> apart (pid, g) (pid2, Some l) ->
  (forall k1, k1 <> k0 -> files !! k1 = k_files k !! k1) -> lease_ok (with_files k files) pid2 l.
Proof.
  intros (root & m & -> & -> & Hm & Hlk) Hg Hl [_ Ha] Hfiles. cbn in Hg, Ha.
  apply (lease_kept k); [done..|]. intros Hs root' Hroot. cbn. apply Hfiles. intros He%(inj key). subst root'.
  destruct Hl as [_ _ Hl _], Hg as [_ _ Hg _]. specialize (Hl Hs). specialize (Hg Hlk).
  rewrite Hm, <- Hroot in Hg. apply (Ha (locked_own _ Hlk) (locked_own _ Hs)). congruence.
Qed.

Lemma kernel_with_files k files :
  kernel_ok k -> (forall root v, files !! key root = Some v -> fine v) -> kernel_ok (with_files k files).
Proof. by intros [Hf Hn Hl Hp Hr] Hsub. Qed.

Lemma held_read k pid g key0 :
  kernel_ok k -> held k pid g -> may_read g key0 (k_files k !! key0).
Proof.
  intros Hk Hg. split.
  - intros root -> v Hv. by apply (ko_files _ Hk root).
  - intros root l v -> -> Hl Hs. by apply Hg.
Qed.

(** ** A step, and what everybody keeps

    A holder that goes on to another description goes on to a new one. *)
Record keeps (k k' : Kernel) (pid : Z) (g g' : option Lease) : Prop := {
  kp_kernel : kernel_ok k';
  kp_held : held k' pid g';
  kp_procs : k_procs k' = k_procs k;
  kp_frame : forall pid2 l, lease_ok k pid2 l -> apart (pid, g) (pid2, Some l) ->
    lease_ok k' pid2 l /\ apart (pid, g') (pid2, Some l);
  kp_fresh : forall l', g' = Some l' ->
    (exists l, g = Some l /\ l_description l' = l_description l /\ (own (l_stage l') -> own (l_stage l)))
    \/ k_paths k !! l_description l' = None;
}.

Lemma keeps_same k pid g : kernel_ok k -> held k pid g -> keeps k k pid g g.
Proof. intros Hk Hg. split; [done..|]. intros l' ->. eauto. Qed.

Lemma apart_staged pid l s y : own (l_stage l) -> apart (pid, Some l) y -> apart (pid, Some (staged l s)) y.
Proof. unfold apart. cbn. destruct y.2; naive_solver. Qed.

Lemma keeps_open k pid fd path :
  kernel_ok k -> is_Some (k_procs k !! pid) -> k_fds k !! (pid, fd) = None ->
  keeps k (open_file k pid fd path) pid None
    (Some {| l_fd := fd; l_description := k_next k; l_path := path; l_stage := Opened |}).
Proof.
  intros [Hf Hn Hl Hp Hr] Hlive Hfree. split; [split|split|done| |]; cbn.
  - intros x d [[_ <-]|[_ Hx]]%lookup_insert_Some; [by rewrite lookup_insert_eq|].
    destruct (Hf x d Hx) as [p Hpd]. pose proof (Hn d p Hpd). rewrite lookup_insert_ne by lia. by exists p.
  - intros d p [[<- _]|[_ H]]%lookup_insert_Some; [lia|]. specialize (Hn d p H). lia.
  - intros p d Hpd. destruct (Hl p d Hpd) as [H1 [x Hx]%referenced_spec]. pose proof (Hn d p H1).
    rewrite lookup_insert_ne by lia. split; [done|]. apply referenced_spec. exists x.
    rewrite lookup_insert_ne; [done|]. intros <-. congruence.
  - intros x d [[<- _]|[_ Hx]]%lookup_insert_Some; [done|by apply (Hp x d)].
  - done.
  - by rewrite lookup_insert_eq.
  - by rewrite lookup_insert_eq.
  - done.
  - done.
  - intros pid2 l Hl2 _. pose proof Hl2 as [H1 H2 _ _]. pose proof (Hn _ _ H2).
    assert ((pid, fd) <> (pid2, l_fd l)) as Hne by (intros He; rewrite He in Hfree; congruence).
    split; [|by split; [done|intros _ _; cbn; lia]].
    apply (lease_kept k); cbn; [done|by rewrite lookup_insert_ne|rewrite lookup_insert_ne by lia; done|done|done].
  - intros l' [= <-]. right. cbn. destruct (k_paths k !! k_next k) eqn:E; [|done]. specialize (Hn _ _ E). lia.
Qed.

Lemma keeps_flock k pid l got k' :
  kernel_ok k -> lease_ok k pid l -> l_stage l = Opened -> flock k pid (l_fd l) = Some (got, k') ->
  keeps k k' pid (Some l) (Some (if got then staged l Locked else l)).
Proof.
  intros Hk Hl Ho. unfold flock. pose proof Hl as [-> -> _ _].
  destruct (k_flocks k !! l_path l) as [d|] eqn:E; intros [= <- <-].
  - case_bool_decide as Hd; [subst d|by apply keeps_same]. split; [done|..|done| |].
    + split; [apply Hl|apply Hl|done|done].
    + intros pid2 l2 Hl2 Ha. split; [done|]. apply apart_staged; [by rewrite Ho|done].
    + intros l' [= <-]. left. exists l. by rewrite Ho.
  - split; [|split; cbn|done| |].
    + destruct Hk as [Hf Hn Hlk Hp Hr]. split; cbn; [done..| |done|done].
      intros p d [[<- <-]|[_ H]]%lookup_insert_Some; [|by apply Hlk].
      split; [apply Hl|]. apply referenced_spec. exists (pid, l_fd l). apply Hl.
    + apply Hl.
    + apply Hl.
    + by rewrite lookup_insert_eq.
    + done.
    + intros pid2 l2 Hl2 Ha. split; [|apply apart_staged; [by rewrite Ho|done]].
      apply (lease_kept k); [done..| |done]. intros Hs. cbn. apply lookup_insert_ne. intros He.
      pose proof (lo_lock _ _ _ Hl2 Hs). congruence.
    + intros l' [= <-]. left. exists l. by rewrite Ho.
Qed.

Lemma keeps_unlock k pid l :
  kernel_ok k -> lease_ok k pid l -> own (l_stage l) ->
  keeps k (unlock k pid (l_fd l)) pid (Some l) (Some (staged l Opened)).
Proof.
  intros Hk Hl Ho. unfold unlock. rewrite (lo_fd _ _ _ Hl). split; [|split; cbn; [apply Hl|apply Hl|done|done]|done| |].
  - destruct Hk as [Hf Hn Hlk Hp Hr]. split; cbn; [done..| |done|done].
    intros p d [H _]%map_lookup_filter_Some. by apply Hlk.
  - intros pid2 l2 Hl2 Ha. split; [|by apply apart_staged]. apply (lease_kept k); [done..| |done].
    intros Hs. cbn. rewrite (lo_lock _ _ _ Hl2 Hs). apply map_lookup_filter_Some. split; [by apply (lo_lock _ _ _ Hl2)|].
    cbn. apply not_eq_sym, Ha; [done|by apply locked_own].
  - intros l' [= <-]. left. by exists l.
Qed.

Lemma keeps_close k pid l :
  kernel_ok k -> keeps k (close_fd k pid (l_fd l)) pid (Some l) None.
Proof.
  intros Hk. split; [by apply close_ok|done|done| |done].
  intros pid2 l2 Hl2 [Ha _]. split; [|done]. by apply close_frame.
Qed.

(** A record written or deleted by the holder of its lock. *)
Lemma keeps_files k pid g key0 files s :
  kernel_ok k -> held k pid g -> may_write g key0 -> own s ->
  (forall k1, k1 <> key0 -> files !! k1 = k_files k !! k1) ->
  (forall v, files !! key0 = Some v -> fine v) ->
  (forall v, s = Recorded v -> files !! key0 = Some v) ->
  keeps k (with_files k files) pid g (restage g s).
Proof.
  intros Hk Hg Hw Hs Hother Hfine Hrec. pose proof Hw as (root & l & -> & -> & Hp & Hlk). split.
  - apply kernel_with_files; [done|]. intros r v. destruct (decide (r = root)) as [->|Hne]; [by apply Hfine|].
    rewrite Hother by (intros He%(inj key); done). apply (ko_files _ Hk).
  - cbn in Hg |- *. split; cbn; [apply Hg|apply Hg|by intros _; apply Hg|].
    intros v r Hv Hr. rewrite Hp in Hr. apply (inj guard) in Hr as <-. by apply Hrec.
  - done.
  - intros pid2 l2 Hl2 Ha. split; [by eapply files_frame|]. apply apart_staged; [by apply locked_own|done].
  - intros l' [= <-]. left. exists l. split_and!; [done..|]. intros _. by apply locked_own.
Qed.

Lemma write_keeps k pid g key0 v :
  kernel_ok k -> held k pid g -> may_write g key0 -> fine v -> forall s, own s -> (forall w, s = Recorded w -> w = v) ->
  keeps k (with_files k (<[key0 := v]> (k_files k))) pid g (restage g s).
Proof.
  intros Hk Hg Hw Hv s Hs Hr. apply (keeps_files _ _ _ key0); try done.
  - intros k1 Hne. by rewrite lookup_insert_ne.
  - rewrite lookup_insert_eq. by intros w [= <-].
  - intros w ->. by rewrite lookup_insert_eq, (Hr w).
Qed.

Lemma delete_keeps k pid g key0 :
  kernel_ok k -> held k pid g -> may_write g key0 ->
  keeps k (with_files k (delete key0 (k_files k))) pid g (restage g Locked).
Proof.
  intros Hk Hg Hw. apply (keeps_files _ _ _ key0); try done.
  - intros k1 Hne. by rewrite lookup_delete_ne.
  - by rewrite lookup_delete_eq.
Qed.

Lemma failed_keeps k pid g key0 :
  kernel_ok k -> held k pid g -> may_write g key0 -> keeps k k pid g (restage g Locked).
Proof.
  intros Hk Hg Hw. pose proof (keeps_files k pid g key0 (k_files k) Locked Hk Hg Hw) as Hkeep.
  replace (with_files k (k_files k)) with k in Hkeep by by destruct k. apply Hkeep; try done.
  destruct Hw as (root & l & -> & _). apply (ko_files _ Hk).
Qed.

Lemma sys_step_keeps pid k g {R} (s : Sys R) r k' K :
  kernel_ok k -> is_Some (k_procs k !! pid) -> held k pid g -> sys_safe pid g s K -> sys_step pid k s r k' ->
  exists g', K r g' /\ keeps k k' pid g g'.
Proof.
  intros Hk Hlive Hg Hs Hr. pose proof (keeps_same k pid g Hk Hg) as Hsame. unfold sys_step in Hr.
  destruct s; cbn in Hs, Hr.
  - destruct Hs as [He Ho]. destruct r as [a|e]; [|destruct Hr as [-> Hr]]; subst k'; eauto.
  - destruct Hs as (-> & He & Ho). destruct r as [fd|e].
    + destruct Hr as (Hfd & Hfree & ->). eexists. split; [by apply Ho|]. by apply keeps_open.
    + destruct Hr as [-> ->]. eauto.
  - destruct Hs as (l & -> & <- & Hst & He & Hno & Hyes). destruct r as [got|e].
    + eexists. split; [|by eapply keeps_flock]. by destruct got.
    + destruct Hr as [-> ->]. eauto.
  - destruct Hs as (l & -> & <- & Hst & He & Hyes). destruct r as [[]|e].
    + rewrite Hr. eexists. split; [exact Hyes|]. by apply keeps_unlock.
    + destruct Hr as [-> ->]. eauto.
  - destruct Hs as ((l & -> & <-) & HK). exists None. split; [apply HK|].
    assert (k' = close_fd k pid (l_fd l)) as -> by (destruct r; naive_solver). by apply keeps_close.
  - destruct Hs as [He Ha]. destruct r as [a|e]; [destruct Hr as [-> ->]|destruct Hr as [-> ->]]; [|eauto].
    exists g. split; [|done]. apply Ha. by eapply held_read.
  - destruct Hs as (Hw & Hv & He & Ho). destruct r as [[]|e].
    + rewrite Hr. exists (restage g (Recorded v)). split; [done|]. apply write_keeps; [done..|congruence].
    + destruct Hr as [-> [-> | ->]]; exists (restage g Locked); (split; [done|]); [by eapply failed_keeps|by apply write_keeps].
  - destruct Hs as [Hw HK]. exists (restage g Locked). split; [apply HK|].
    destruct r as [[]|e]; [rewrite Hr; by apply delete_keeps|].
    destruct Hr as [_ [-> | ->]]; [by eapply failed_keeps|by apply delete_keeps].
  - destruct r as [p|e]; [|by destruct Hr]. destruct Hr as [-> ->]. eauto.
  - destruct Hs as [He Ha]. destruct r as [a|e]; [|by destruct Hr]. destruct Hr as [-> _]. eauto.
  - destruct Hs as [He Ha]. destruct r as [a|e]; [destruct Hr as [-> ->]|destruct Hr as [-> ->]]; eauto.
  - destruct Hs as [He Ha]. destruct r as [a|e]; [|by destruct Hr]. rewrite Hr. eauto.
  - destruct Hs as [He Ha]. destruct r as [a|e]; [|by destruct Hr]. rewrite Hr. eauto.
  - destruct r as [a|e]; [|by destruct Hr]. destruct Hr as [-> Hu]. eauto.
Qed.

(** A program that is safe stays so, whatever the system answers. *)
Lemma prog_step_keeps pid k g {A} (p p' : Prog A) k' Q :
  kernel_ok k -> is_Some (k_procs k !! pid) -> held k pid g -> safe pid g p Q -> prog_step pid k p p' k' ->
  exists g', safe pid g' p' Q /\ keeps k k' pid g g'.
Proof.
  intros Hk Hlive Hg Hs Hp. destruct p as [r|R s c]; [done|]. destruct Hp as (r & Hr & ->).
  destruct (sys_step_keeps pid k g s r k' _ Hk Hlive Hg Hs Hr) as (g' & HK & Hkeep). by exists g'.
Qed.

(** ** Rules *)

Lemma sys_safe_mono pid g {R} (s : Sys R) (K K' : result R -> option Lease -> Prop) :
  (forall r g', K r g' -> K' r g') -> sys_safe pid g s K -> sys_safe pid g s K'.
Proof. intros HK. destruct s; cbn; naive_solver. Qed.

Lemma safe_mono pid {A} (p : Prog A) g (Q Q' : result A -> option Lease -> Prop) :
  (forall r g', Q r g' -> Q' r g') -> safe pid g p Q -> safe pid g p Q'.
Proof.
  intros HQ. revert g. induction p as [r|R s k IH]; intros g; cbn; [apply HQ|].
  apply sys_safe_mono. intros r g'. apply IH.
Qed.

Lemma safe_then pid {A B} (p : Prog A) (f : result A -> Prog B) g Q :
  safe pid g p (fun r g' => safe pid g' (f r) Q) -> safe pid g (prog_then p f) Q.
Proof.
  revert g. induction p as [r|R s k IH]; intros g; cbn; [done|].
  apply sys_safe_mono. intros r g'. apply IH.
Qed.

Lemma safe_bind pid {A B} (p : Prog A) (f : A -> Prog B) g Q :
  safe pid g p (fun r g' => match r with Ok a => safe pid g' (f a) Q | Raise e => Q (Raise e) g' end) ->
  safe pid g (prog_bind p f) Q.
Proof. intros H. apply safe_then. eapply safe_mono; [|exact H]. by intros [a|e] g'. Qed.

(** A program that touches no file, in effect: it may be asked anything and keeps what is held. *)
Fixpoint harmless {A} (p : Prog A) : Prop :=
  match p with
  | Done r => match r with Ok _ => True | Raise e => e = OSError end
  | Do s k =>
      match s with
      | MakeDirs _ | Getpid | Kill0 _ | ReadStat _ | CreateTime _ | NowIso | Uuid => True
      | _ => False
      end /\ forall r, match r with Ok _ => True | Raise e => e = OSError end -> harmless (k r)
  end.

Lemma safe_harmless pid {A} (p : Prog A) g (Q : result A -> option Lease -> Prop) :
  harmless p -> (forall a, Q (Ok a) g) -> Q (Raise OSError) g -> safe pid g p Q.
Proof.
  intros Hp Ha He. induction p as [r|R s k IH]; cbn in *; [destruct r; naive_solver|].
  destruct Hp as [Hs Hk]. assert (forall a, safe pid g (k (Ok a)) Q) as H1 by auto.
  assert (safe pid g (k (Raise OSError)) Q) as H2 by auto. by destruct s; cbn; auto.
Qed.
End Logic.
