(* ===== verification/Lock.v ===== *)
(** The workspace lock (src/zicato/runtime/lock.py) and the host-wide worker permits
    (src/zicato/runtime/spawn_permit.py), as programs of system calls. *)
From S2P Require Import Prelude PyFloat PyText PyJson Records Kernel.

#[local] Open Scope Z_scope.

(** ** Places *)

Definition lock_path (workspace_root : string) : string := workspace_root +:+ "/runtime/lock.json".
Definition lock_guard_path (workspace_root : string) : string := workspace_root +:+ "/runtime/lock.guard".
Definition ensure_runtime_dirs (workspace_root : string) : Prog unit :=
  os _ <- sys (MakeDirs (workspace_root +:+ "/runtime"));
  os _ <- sys (MakeDirs (workspace_root +:+ "/runtime/active_runs"));
  os _ <- sys (MakeDirs (workspace_root +:+ "/runtime/control"));
  sys (MakeDirs (workspace_root +:+ "/runtime/control_log")).

(** ** The lock record

    The lease is the guard's descriptor, negative once closed; the owner's identifier is
    kept as it was read.  A path is its text. *)
Record WorkspaceLock := {
  lk_pid : Z;
  instance_id : string;
  acquired_at : string;
  workspace_root : string;
  start_time : option float;
  owner_id : Json;
  lk_lease : option Z;
}.

Definition to_dict (l : WorkspaceLock) : list (string * Json) :=
  [("pid", JInt (lk_pid l)); ("instance_id", JStr (instance_id l)); ("acquired_at", JStr (acquired_at l));
   ("workspace_root", JStr (workspace_root l)); ("start_time", jopt JFloat (start_time l))]
  ++ match owner_id l with JNull => [] | o => [("owner_id", o)] end.

Definition WorkspaceLockHeld : exn := OtherException "WorkspaceLockHeld".

(** Field [pos] of the words of a text. *)
Fixpoint fields (s : string) : string * list string :=
  match s with
  | "" => ("", [])
  | String c s =>
      let '(w, ws) := fields s in
      if ascii_is_space c then ("", if String.eqb w "" then ws else w :: ws) else (String c w, ws)
  end.

Definition split_words (s : string) : list string :=
  let '(w, ws) := fields s in if String.eqb w "" then ws else w :: ws.

Fixpoint after_last (c : Ascii.ascii) (s : string) : option string :=
  match s with
  | "" => None
  | String d s => match after_last c s with
                  | Some rest => Some rest
                  | None => if Ascii.eqb c d then Some s else None
                  end
  end.

Definition close_paren : Ascii.ascii := Ascii.ascii_of_nat 41.

Section Lock.
Context `{PyConv} `{PyFloatParse} (resolve : string -> string).

Definition subscript (d : list (string * Json)) (key : string) : result Json :=
  match dict_get d key with Some v => Ok v | None => Raise (KeyError key) end.

Definition path_of (v : Json) : result string :=
  match v with JStr s => Ok s | _ => Raise (TypeError "argument should be a str or an os.PathLike object") end.

Definition from_dict (v : Json) : result WorkspaceLock :=
  match v with
  | JObj d =>
      try pid <- result_bind (subscript d "pid") json_int;
      try instance <- subscript d "instance_id";
      try acquired <- subscript d "acquired_at";
      try root <- result_bind (subscript d "workspace_root") path_of;
      try start <- match dict_get d "start_time" with
                   | None | Some JNull => Ok None
                   | Some v => try x <- json_float v; Ok (Some x)
                   end;
      Ok {| lk_pid := pid; instance_id := json_str instance; acquired_at := json_str acquired;
            workspace_root := root; start_time := start; owner_id := dict_get_or d "owner_id" JNull;
            lk_lease := None |}
  | _ => Raise (OtherException "AttributeError")
  end.

(** ** Processes *)

Definition is_pid_alive (pid : Z) : Prog bool :=
  if pid <=? 0 then ret false
  else os answer <- sys (Kill0 pid);
       ret match answer with NoSuchProcess => false | Delivered | NotPermitted | OtherErrno => true end.

(** Field 22 of the stat, counted from the end of the parenthesised command. *)
Definition stat_start_time (raw : string) : option float :=
  match after_last close_paren raw with
  | Some rest => match split_words rest !! 19%nat with Some word => float_of_str word | None => None end
  | None => None
  end.

Definition pid_start_time (pid : Z) : Prog (option float) :=
  if pid <=? 0 then ret None
  else os raw <- or_else (sys (ReadStat pid)) (Some "");
       match raw with
       | None => ret None
       | Some raw =>
           match stat_start_time raw with
           | Some x => ret (Some x)
           | None => sys (CreateTime pid)
           end
       end.

Definition is_same_process (pid : Z) (expected_start_time : option float) : Prog bool :=
  os alive <- is_pid_alive pid;
  if negb alive then ret false
  else match expected_start_time with
       | None => ret true
       | Some expected =>
           os current <- pid_start_time pid;
           ret match current with None => true | Some x => feq x expected end
       end.

(** ** The lock *)

Definition recorded_lease (prior : WorkspaceLock) : bool :=
  match owner_id prior with JStr s => negb (String.eqb s "") | _ => false end.

Definition refused (prior : WorkspaceLock) (steal_stale : bool) : Prog unit :=
  os blocked <- if recorded_lease prior then ret false else is_same_process (lk_pid prior) (start_time prior);
  if blocked : bool then raise WorkspaceLockHeld
  else if negb steal_stale then raise WorkspaceLockHeld
  else ret tt.

Definition publish (root instance : string) (fd : Z) : Prog WorkspaceLock :=
  os pid <- sys Getpid;
  os now <- sys NowIso;
  os here <- sys Getpid;
  os start <- pid_start_time here;
  os owner <- sys Uuid;
  let lock := {| lk_pid := pid; instance_id := instance; acquired_at := now; workspace_root := root;
                 start_time := start; owner_id := JStr owner; lk_lease := Some fd |} in
  os _ <- sys (WriteJson (lock_path root) (JObj (to_dict lock)));
  ret lock.

Definition take (root instance : string) (steal_stale : bool) (fd : Z) : Prog WorkspaceLock :=
  os got <- sys (Flock fd);
  if negb got then raise WorkspaceLockHeld
  else
    os existing <- sys (ReadJson (lock_path root));
    os _ <- match existing with
            | None => ret tt
            | Some body => os prior <- Done (from_dict body); refused prior steal_stale
            end;
    publish root instance fd.

Definition acquire_workspace_lock (workspace_root instance : string) (steal_stale : bool) : Prog WorkspaceLock :=
  let root := resolve workspace_root in
  os _ <- ensure_runtime_dirs root;
  os fd <- sys (OpenFile (lock_guard_path root));
  on_failure (take root instance steal_stale fd) (sys (Close fd)).

(** [_owned_lease]: the handle of this process, its lease open. *)
Definition owned_lease (pid : Z) (l : WorkspaceLock) : bool :=
  match lk_lease l with Some fd => (0 <=? fd) && (lk_pid l =? pid) | None => false end.

Definition record_is (existing : option Json) (l : WorkspaceLock) : bool :=
  match existing with Some v => json_eq v (JObj (to_dict l)) | None => false end.

Definition validate_workspace_lock (writer : WorkspaceLock) (root : string) : Prog unit :=
  os pid <- sys Getpid;
  if negb (owned_lease pid writer && String.eqb (workspace_root writer) (resolve root) && truthy (owner_id writer))
  then raise WorkspaceLockHeld
  else
    os existing <- sys (ReadJson (lock_path (workspace_root writer)));
    if negb (record_is existing writer) then raise WorkspaceLockHeld else ret tt.

Definition lease_open (l : WorkspaceLock) : bool :=
  match lk_lease l with Some fd => 0 <=? fd | None => false end.

Definition closed (l : WorkspaceLock) : WorkspaceLock := {|
  lk_pid := lk_pid l; instance_id := instance_id l; acquired_at := acquired_at l;
  workspace_root := workspace_root l; start_time := start_time l; owner_id := owner_id l;
  lk_lease := (fun _ => -1) <$> lk_lease l |}.

(** [_WriterLease.close] *)
Definition close_lease (l : WorkspaceLock) : Prog unit :=
  match lk_lease l with Some fd => if 0 <=? fd then sys (Close fd) else ret tt | None => ret tt end.

Definition release_workspace_lock (l : WorkspaceLock) : Prog unit :=
  if negb (lease_open l) then ret tt
  else
    finally
      (os pid <- sys Getpid;
       if lk_pid l =? pid then
         os existing <- sys (ReadJson (lock_path (workspace_root l)));
         if record_is existing l then sys (DeleteKey (lock_path (workspace_root l))) else ret tt
       else ret tt)
      (close_lease l).

(** [__enter__]: a handle that does not validate is released, whatever the release meets. *)
Definition enter (l : WorkspaceLock) : Prog unit :=
  prog_then (validate_workspace_lock l (workspace_root l)) (fun r =>
    match r with Ok _ => ret tt | Raise e => prog_then (release_workspace_lock l) (fun _ => raise e) end).

(** [None] also for a record that cannot be read, not for one that cannot be decoded. *)
Definition read_workspace_lock (root : string) : Prog (option WorkspaceLock) :=
  os existing <- or_else (sys (ReadJson (lock_path root))) None;
  match existing with
  | None => ret None
  | Some body =>
      os prior <- Done (from_dict body);
      os same <- is_same_process (lk_pid prior) (start_time prior);
      ret (if same : bool then Some prior else None)
  end.
End Lock.

(** ** Worker permits *)

Definition MIN_AUTO_PERMITS : Z := 4.
Definition default_host_worker_permits (usable_cpus : Z) : Z := Z.max MIN_AUTO_PERMITS (2 * usable_cpus).
Definition effective_permit_count (usable_cpus : Z) (limit : option Z) : Z :=
  match limit with None => default_host_worker_permits usable_cpus | Some n => Z.max 0 n end.

Definition permit_dir (configured xdg : option string) (tempdir : string) (uid : Z) : result string :=
  match configured with
  | Some path => ensure str_startswith "/" path orelse
                   ValueError "runtime.worker_permit_dir must be absolute so every orchestrator uses the same host-wide permit pool";
                 Ok path
  | None =>
      Ok match xdg with
         | Some x => if String.eqb x "" then tempdir +:+ "/zicato-worker-permits-" +:+ pretty uid
                     else x +:+ "/zicato/worker-permits"
         | None => tempdir +:+ "/zicato-worker-permits-" +:+ pretty uid
         end
  end.

(** A held permit has a descriptor and a slot. *)
Record WorkerPermit := { wp_fd : option Z; wp_slot : Z }.
Definition OPEN_PERMIT : WorkerPermit := {| wp_fd := None; wp_slot := -1 |}.

Definition release (permit : WorkerPermit) : Prog unit :=
  match wp_fd permit with
  | None => ret tt
  | Some fd =>
      os _ <- or_else (sys (Unlock fd)) tt;
      or_else (sys (Close fd)) tt
  end.

Definition zero_char : Ascii.ascii := Ascii.ascii_of_nat 48.
Fixpoint zeros (n : nat) (s : string) : string := match n with O => s | S n => String zero_char (zeros n s) end.
(** [f"{slot:03d}"] *)
Definition three_digits (slot : N) : string := let s := pretty slot in zeros (3 - String.length s) s.
Definition slot_path (dir : string) (slot : Z) : string :=
  dir +:+ "/slot-" +:+ three_digits (Z.to_N slot) +:+ ".lock".

Definition _try_slot (path : string) : Prog (option Z) :=
  os fd <- sys (OpenFile path);
  prog_then (sys (Flock fd)) (fun r =>
    match r with
    | Ok true => ret (Some fd)
    | Ok false => os _ <- sys (Close fd); ret None
    | Raise e => os _ <- sys (Close fd); raise e
    end).

Fixpoint sweep (dir : string) (slots : list Z) : Prog (option WorkerPermit) :=
  match slots with
  | [] => ret None
  | slot :: slots =>
      os fd <- _try_slot (slot_path dir slot);
      match fd with
      | Some fd => ret (Some {| wp_fd := Some fd; wp_slot := slot |})
      | None => sweep dir slots
      end
  end.

Definition _acquire_once (dir : string) (count start : Z) : Prog (option WorkerPermit) :=
  sweep dir ((fun offset => (start + Z.of_nat offset) mod count) <$> seq 0 (Z.to_nat count)).

(** A turn of the loop of [acquire_worker_permit], the [first] after the directory is
    made: [None] sends it to sleep and round again.  Any failure of the mechanism admits. *)
Definition permit_turn (first : bool) (dir : string) (count : Z) : Prog (option WorkerPermit) :=
  if count <=? 0 then ret (Some OPEN_PERMIT)
  else
    or_else
      (os _ <- if first then sys (MakeDirs dir) else ret tt;
       os pid <- sys Getpid;
       _acquire_once dir count (pid mod count))
      (Some OPEN_PERMIT).

(** * Mutual exclusion.  Processes start, fork and die; invocations acquire, check and
    release the lock of a workspace or queue for a worker permit, one system call at a
    time and in any order.  Whatever happens a workspace has one writer, a pool admits no
    more than its slots, and nothing a dead process left keeps the next one out. *)

#[local] Open Scope Z_scope.

(** ** Injective places *)

Lemma str_app_cancel s t u : s +:+ u = t +:+ u -> s = t.
Proof.
  intros He. assert (String.length s = String.length t) as Hl.
  { apply (f_equal String.length) in He. rewrite !str_app_length in He. lia. }
  revert t Hl He. induction s as [|c s IH]; intros [|d t] Hl He; try done.
  cbn in He. injection He as -> He. f_equal. apply IH; [|done]. by injection Hl.
Qed.

#[export] Instance lock_path_inj : Inj (=) (=) lock_path.
Proof. intros s t. apply str_app_cancel. Qed.
#[export] Instance lock_guard_path_inj : Inj (=) (=) lock_guard_path.
Proof. intros s t. apply str_app_cancel. Qed.

Lemma int_digits_zeros n s : int_digits false 0 s <> None -> int_digits false 0 (zeros n s) = int_digits false 0 s.
Proof.
  intros Hs. induction n as [|n IH]; [done|]. cbn [zeros].
  transitivity (int_digits true 0 (zeros n s)); [done|].
  destruct (zeros n s) as [|c t] eqn:E; [cbn in IH; congruence|].
  rewrite <- IH in Hs |- *. cbn in Hs |- *. destruct (is_digit c); [done|]. by rewrite andb_false_r in Hs.
Qed.

Lemma three_digits_inj m n : three_digits m = three_digits n -> m = n.
Proof.
  unfold three_digits. intros He%(f_equal (int_digits false 0)).
  rewrite !int_digits_zeros, !int_digits_pretty in He by (by rewrite int_digits_pretty). congruence.
Qed.

Lemma slot_path_inj dir m n : 0 <= m -> 0 <= n -> slot_path dir m = slot_path dir n -> m = n.
Proof.
  intros Hm Hn He. unfold slot_path in He. apply (inj (String.append dir)) in He.
  apply (inj (String.append "/slot-")), str_app_cancel, three_digits_inj in He. lia.
Qed.

Section Locks.
Context `{PyConv} `{PyFloatParse} (resolve : string -> string).

(** ** The programs *)

(** A record that a lease holder wrote. *)
Definition leased (v : Json) : Prop := exists l, from_dict v = Ok l /\ recorded_lease l = true.

Abbreviation safe_lock := (safe lock_guard_path lock_path leased).
Abbreviation lease_of := (lease_ok lock_guard_path lock_path).

Definition lock_lease (root : string) (fd : Z) (d : nat) (s : Stage) : Lease := {|
  l_fd := fd; l_description := d; l_path := lock_guard_path root; l_stage := s |}.

(** The handle of a writer: the lease is locked and its record is the one on disk. *)
Definition holds (pid : Z) (root : string) (l : WorkspaceLock) (g : option Lease) : Prop :=
  lk_pid l = pid /\ workspace_root l = root /\ (exists u, owner_id l = JStr u /\ u <> "")
  /\ exists fd d, 0 <= fd /\ lk_lease l = Some fd
     /\ g = Some (lock_lease root fd d (Recorded (JObj (to_dict l)))).

Lemma dict_leased l u : owner_id l = JStr u -> u <> "" -> leased (JObj (to_dict l)).
Proof.
  intros Ho Hu. unfold leased, from_dict, to_dict. rewrite Ho. cbn.
  destruct (start_time l) as [x|]; cbn; eexists; (split; [reflexivity|]);
    (transitivity (negb (String.eqb u "")); [done|by destruct (String.eqb_spec u "")]).
Qed.

Lemma harmless_bind {A B} (p : Prog A) (f : A -> Prog B) :
  harmless p -> (forall a, harmless (f a)) -> harmless (prog_bind p f).
Proof.
  intros Hp Hf. unfold prog_bind. induction p as [[a|e]|R s k IH]; cbn in *; [apply Hf|done|].
  destruct Hp as [Hs Hk]. split; [done|]. intros r Hr. by apply IH, Hk.
Qed.

Lemma harmless_or {A} (p : Prog A) v : harmless p -> harmless (or_else p v).
Proof.
  intros Hp. unfold or_else. induction p as [[a|e]|R s k IH]; cbn in *; [done|by subst e|].
  destruct Hp as [Hs Hk]. split; [done|]. intros r Hr. by apply IH, Hk.
Qed.

Lemma harmless_sys {R} (s : Sys R) :
  match s with MakeDirs _ | Getpid | Kill0 _ | ReadStat _ | CreateTime _ | NowIso | Uuid => True | _ => False end ->
  harmless (sys s).
Proof. intros Hs. split; [done|]. by intros [a|e]. Qed.

Lemma harmless_ret {A} (a : A) : harmless (ret a).
Proof. done. Qed.
#[local] Hint Resolve harmless_bind harmless_or harmless_ret : core.
#[local] Hint Extern 1 (harmless (sys _)) => by apply harmless_sys : core.

Lemma dirs_harmless root : harmless (ensure_runtime_dirs root).
Proof. unfold ensure_runtime_dirs. eauto 10. Qed.

Lemma alive_harmless pid : harmless (is_pid_alive pid).
Proof. unfold is_pid_alive. case_match; [done|]. apply harmless_bind; [auto|]. by intros []. Qed.

Lemma start_harmless pid : harmless (pid_start_time pid).
Proof.
  unfold pid_start_time. case_match; [done|]. apply harmless_bind; [auto|].
  intros [raw|]; [|done]. destruct (stat_start_time raw); auto.
Qed.

Lemma same_harmless pid expected : harmless (is_same_process pid expected).
Proof.
  unfold is_same_process. apply harmless_bind; [apply alive_harmless|]. intros [|]; [|done]. cbn.
  destruct expected as [x|]; [|done]. apply harmless_bind; [apply start_harmless|]. by intros [].
Qed.
#[local] Hint Resolve dirs_harmless start_harmless same_harmless : core.

Ltac run := cbn [safe sys_safe sys prog_bind prog_then ret raise].

(** A program that keeps what is held through a harmless part. *)
Lemma safe_harmless_bind pid {A B} (p : Prog A) (f : A -> Prog B) g Q :
  harmless p -> (forall a, safe_lock pid g (f a) Q) -> Q (Raise OSError) g -> safe_lock pid g (prog_bind p f) Q.
Proof. intros Hp Hf He. apply safe_bind. by apply safe_harmless. Qed.

(** What [take] ends with: a writer's handle, or a lease that is still to be closed. *)
Definition taken (pid : Z) (root : string) (fd : Z) (r : result WorkspaceLock) (g : option Lease) : Prop :=
  match r with
  | Ok l => holds pid root l g
  | Raise _ => exists d s, own s /\ g = Some (lock_lease root fd d s)
  end.

Lemma refused_safe pid prior steal g Q :
  Q (Ok tt) g -> (forall e, Q (Raise e) g) -> safe_lock pid g (refused prior steal) Q.
Proof.
  intros Hok He. unfold refused. destruct (recorded_lease prior).
  - cbn. destruct steal; cbn; auto.
  - apply safe_harmless_bind; [auto| |auto]. intros [|]; cbn; [auto|]. destruct steal; cbn; auto.
Qed.

Lemma publish_safe pid root instance fd d :
  0 <= fd ->
  safe_lock pid (Some (lock_lease root fd d Locked)) (publish root instance fd) (taken pid root fd).
Proof.
  intros Hfd. assert (forall e, taken pid root fd (Raise e) (Some (lock_lease root fd d Locked))) as Hfail.
  { intros e. exists d, Locked. done. }
  unfold publish. run. split; [apply Hfail|]. intros now.
  apply safe_harmless_bind; [auto| |done]. intros start. run. intros u Hu.
  split; [exists root, (lock_lease root fd d Locked); done|]. split; [by eapply dict_leased|].
  split; [apply Hfail|]. repeat split; [by exists u|]. exists fd, d. done.
Qed.

Lemma take_safe pid root instance steal fd d :
  0 <= fd ->
  safe_lock pid (Some (lock_lease root fd d Opened)) (take root instance steal fd) (taken pid root fd).
Proof.
  intros Hfd. unfold take. run. exists (lock_lease root fd d Opened).
  split; [done|]. split; [done|]. split; [done|]. split; [by exists d, Opened|]. split; [by exists d, Opened|].
  cbn [negb]. split; [by exists d, Locked|]. intros [body|] _; run; [|by apply publish_safe].
  apply safe_bind. destruct (from_dict body) as [prior|e]; run; [|by exists d, Locked].
  apply refused_safe; [by apply publish_safe|by exists d, Locked].
Qed.

Lemma acquire_safe pid root instance steal :
  safe_lock pid None (acquire_workspace_lock resolve root instance steal)
    (fun r g => match r with Ok l => holds pid (resolve root) l g | Raise _ => g = None end).
Proof.
  unfold acquire_workspace_lock. apply safe_harmless_bind; [auto| |done]. intros _.
  run. split; [done|]. split; [done|]. intros fd d Hfd. unfold on_failure.
  apply safe_then. eapply safe_mono; [|by apply take_safe].
  intros [l|e] g Ht; [exact Ht|]. destruct Ht as (d' & s & Hs & ->). run.
  split; [eexists; done|]. by intros [|].
Qed.

Lemma holds_owned pid root l g : holds pid root l g -> owned_lease pid l = true.
Proof.
  intros (Hp & _ & _ & fd & d & Hfd & Hl & _). unfold owned_lease. rewrite Hl, Hp, Z.eqb_refl.
  by rewrite (proj2 (Z.leb_le 0 fd)).
Qed.

Lemma holds_open pid root l g : holds pid root l g -> lease_open l = true.
Proof. intros (_ & _ & _ & fd & d & Hfd & Hl & _). unfold lease_open. rewrite Hl. by apply Z.leb_le. Qed.

Lemma record_self l u :
  owner_id l = JStr u -> json_finite (JObj (to_dict l)) = true -> record_is (Some (JObj (to_dict l))) l = true.
Proof.
  intros Ho Hf. apply json_eq_refl; [done|]. unfold to_dict. rewrite Ho. cbn -[jopt].
  split; [by apply (bool_decide_unpack _)|]. by destruct (start_time l).
Qed.

(** What a validation may say: nothing of what is held changes, it passes only for the
    writer, and for the writer it fails only when the record cannot be read. *)
Definition validated (pid : Z) (root : string) (l : WorkspaceLock) (r : result unit) : Prop :=
  (r = Ok tt -> owned_lease pid l = true /\ resolve root = workspace_root l)
  /\ (owned_lease pid l = true -> resolve root = workspace_root l -> json_finite (JObj (to_dict l)) = true ->
      r = Ok tt \/ r = Raise OSError).

Lemma refused_validated pid root l :
  owned_lease pid l && String.eqb (workspace_root l) (resolve root) = false ->
  validated pid root l (Raise WorkspaceLockHeld).
Proof.
  intros Hn. split; [done|]. intros Ho Hr. rewrite Ho, <- Hr, String.eqb_refl in Hn. done.
Qed.

Lemma validate_safe pid root l g :
  (owned_lease pid l = true -> exists root, holds pid root l g) ->
  safe_lock pid g (validate_workspace_lock resolve l root) (fun r g' => g' = g /\ validated pid root l r).
Proof.
  intros Hown. unfold validate_workspace_lock. run.
  destruct (owned_lease pid l && String.eqb (workspace_root l) (resolve root)) eqn:E; cbn [andb negb];
    [|run; split; [done|]; by apply refused_validated].
  apply andb_true_iff in E as [E Hroot%String.eqb_eq]. destruct (Hown E) as (root' & _ & Hr & (u & Ho & Hu) & fd & d & _ & _ & ->).
  rewrite Ho. cbn [truthy]. rewrite (proj2 (String.eqb_neq _ _) Hu). cbn [negb]. run.
  split; [split; [done|]; split; [done|by right]|]. intros a [_ Ha].
  assert (a = Some (JObj (to_dict l))) as ->.
  { eapply Ha; [done|done|cbn; by rewrite Hr|done]. }
  destruct (record_is _ l) eqn:Er; run; (split; [done|]).
  - split; [done|by left].
  - split; [done|]. intros _ _ Hf. by rewrite (record_self l u Ho Hf) in Er.
Qed.

Lemma close_lease_safe pid l fd d path s :
  lk_lease l = Some fd -> 0 <= fd ->
  safe_lock pid (Some {| l_fd := fd; l_description := d; l_path := path; l_stage := s |}) (close_lease l)
    (fun _ g => g = None).
Proof. intros Hl Hfd. unfold close_lease. rewrite Hl, (proj2 (Z.leb_le 0 fd) Hfd). run. split; [eexists; done|done]. Qed.

Lemma release_safe pid root l g :
  holds pid root l g \/ (lease_open l = false /\ g = None) ->
  safe_lock pid g (release_workspace_lock l) (fun _ g' => g' = None).
Proof.
  unfold release_workspace_lock. intros [Hh|[-> ->]]; [|done]. rewrite (holds_open _ _ _ _ Hh). cbn [negb].
  destruct Hh as (Hp & Hr & _ & fd & d & Hfd & Hl & ->). unfold finally. apply safe_then.
  assert (forall r s, safe_lock pid (Some (lock_lease root fd d s))
            (prog_bind (close_lease l) (fun _ => Done (A := unit) r)) (fun _ g' => g' = None)) as Hclose.
  { intros r s. apply safe_bind. eapply safe_mono; [|by apply close_lease_safe]. by intros [[]|e] g' ->. }
  run. rewrite Hp, Z.eqb_refl, Hr. run. split; [apply Hclose|]. intros a _. destruct (record_is a l); run; [|apply Hclose].
  split; [exists root; eexists; done|]. intros r. apply Hclose.
Qed.

(** ** Permits *)

(** A permit just taken: the lock of its slot. *)
Definition has_slot (dir : string) (count : Z) (permit : WorkerPermit) (g : option Lease) : Prop :=
  match wp_fd permit with
  | Some fd => 0 <= wp_slot permit < count
      /\ exists d, g = Some {| l_fd := fd; l_description := d; l_path := slot_path dir (wp_slot permit); l_stage := Locked |}
  | None => g = None
  end.

Definition turned (dir : string) (count : Z) (r : result (option WorkerPermit)) (g : option Lease) : Prop :=
  match r with Ok (Some permit) => has_slot dir count permit g | _ => g = None end.

Lemma sweep_safe pid dir count slots :
  Forall (fun slot => 0 <= slot < count) slots -> safe_lock pid None (sweep dir slots) (turned dir count).
Proof.
  induction 1 as [|slot slots Hslot _ IH]; [done|]. cbn [sweep]. apply safe_bind. unfold _try_slot. run.
  split; [done|]. split; [done|]. intros fd d Hfd. eexists. split; [done|]. split; [done|]. split; [done|].
  split; [|split]; run.
  - split; [eexists; done|]. by intros [|].
  - split; [eexists; done|]. intros [|]; run; [exact IH|done].
  - split; [done|]. by exists d.
Qed.

Lemma turn_safe pid first dir count : safe_lock pid None (permit_turn first dir count) (turned dir count).
Proof.
  unfold permit_turn. destruct (Z.leb_spec count 0) as [Hc|Hc]; [done|]. unfold or_else. apply safe_then.
  apply (safe_mono _ _ _ _ _ _ (turned dir count)).
  { intros [a|e] g Hg; [exact Hg|]. cbn in Hg. subst g. repeat case_match; done. }
  apply safe_bind. apply safe_harmless; [by destruct first; auto| |done]. intros _. run.
  apply sweep_safe. apply Forall_fmap, Forall_forall. intros n _. cbn. apply Z.mod_pos_bound. lia.
Qed.

End Locks.
