(* ===== verification/Host.v ===== *)
(** A host: processes that start, fork and die, and in them invocations that acquire,
    check and release workspace locks or queue for worker permits, one system call at a
    time in any order. *)
From S2P Require Import Prelude PyFloat PyText PyJson Records Kernel Lock.

#[local] Open Scope Z_scope.

(** What an invocation is doing.  [Inherited] is a handle in a forked child before the
    hook that closes its lease has run; no hook touches a permit, so [Lent] is the child's
    copy of one, which [Undoing] releases. *)
Inductive Job :=
  | Acquiring (p : Prog WorkspaceLock)
  | Holding (l : WorkspaceLock)
  | Validating (l : WorkspaceLock) (root : string) (p : Prog unit)
  | Releasing (p : Prog unit)
  | Inherited (l : WorkspaceLock)
  | Queueing (first : bool) (dir : string) (count : Z)
  | Turning (dir : string) (count : Z) (p : Prog (option WorkerPermit))
  | Permitted (dir : string) (count : Z) (permit : WorkerPermit)
  | Returning (p : Prog unit)
  | Lent (permit : WorkerPermit)
  | Undoing (p : Prog unit)
  | Ended.

Record Client := { c_pid : Z; c_job : Job }.

(** [strays] counts (as a ghost) the calls that unlock a slot through a child's copy of its
    permit: the description is shared, so they unlock it for the parent. *)
Record World := { kernel : Kernel; clients : list Client; strays : nat }.

Definition job_strays (job : Job) : nat :=
  match job with
  | Undoing (Do s _) => match s with Unlock _ => 1 | _ => 0 end
  | _ => 0
  end.

Section Host.
Context `{PyConv} `{PyFloatParse} (resolve : string -> string).

(** A step of an invocation of process [pid]. *)
Inductive job_step (pid : Z) (k : Kernel) : Job -> Job -> Kernel -> Prop :=
  | js_acquire p p' k' : prog_step pid k p p' k' -> job_step pid k (Acquiring p) (Acquiring p') k'
  | js_acquired l : job_step pid k (Acquiring (Done (Ok l))) (Holding l) k
  | js_refused e : job_step pid k (Acquiring (Done (Raise e))) Ended k
  | js_check l root :
      job_step pid k (Holding l) (Validating l root (validate_workspace_lock resolve l root)) k
  | js_validate l root p p' k' :
      prog_step pid k p p' k' -> job_step pid k (Validating l root p) (Validating l root p') k'
  | js_validated l root r : job_step pid k (Validating l root (Done r)) (Holding l) k
  | js_let_go l : job_step pid k (Holding l) (Releasing (release_workspace_lock l)) k
  | js_release p p' k' : prog_step pid k p p' k' -> job_step pid k (Releasing p) (Releasing p') k'
  | js_released r : job_step pid k (Releasing (Done r)) Ended k
  | js_hook l fd r k' :
      lk_lease l = Some fd -> 0 <= fd -> sys_step pid k (Close fd) r k' ->
      job_step pid k (Inherited l) (Holding (closed l)) k'
  | js_no_hook l : lease_open l = false -> job_step pid k (Inherited l) (Holding l) k
  | js_turn first dir count :
      job_step pid k (Queueing first dir count) (Turning dir count (permit_turn first dir count)) k
  | js_turning dir count p p' k' :
      prog_step pid k p p' k' -> job_step pid k (Turning dir count p) (Turning dir count p') k'
  | js_again dir count : job_step pid k (Turning dir count (Done (Ok None))) (Queueing false dir count) k
  | js_permitted dir count permit :
      job_step pid k (Turning dir count (Done (Ok (Some permit)))) (Permitted dir count permit) k
  | js_failed dir count e : job_step pid k (Turning dir count (Done (Raise e))) Ended k
  | js_return dir count permit : job_step pid k (Permitted dir count permit) (Returning (release permit)) k
  | js_returning p p' k' : prog_step pid k p p' k' -> job_step pid k (Returning p) (Returning p') k'
  | js_returned r : job_step pid k (Returning (Done r)) Ended k
  | js_undo permit : job_step pid k (Lent permit) (Undoing (release permit)) k
  | js_undoing p p' k' : prog_step pid k p p' k' -> job_step pid k (Undoing p) (Undoing p') k'
  | js_undone r : job_step pid k (Undoing (Done r)) Ended k.

Definition end_client (pid : Z) (c : Client) : Client :=
  {| c_pid := c_pid c; c_job := if c_pid c =? pid then Ended else c_job c |}.

(** What a child has of its parent's invocations: the handles, in objects it copied. *)
Definition fork_client (pid child : Z) (c : Client) : Client := {|
  c_pid := child;
  c_job := if c_pid c =? pid then
             match c_job c with
             | Holding l | Validating l _ _ | Inherited l => Inherited l
             | Permitted _ _ permit | Lent permit => Lent permit
             | _ => Ended
             end
           else Ended |}.

Inductive step : World -> World -> Prop :=
  | w_start k cs n pid stat :
      0 < pid -> k_procs k !! pid = None ->
      step {| kernel := k; clients := cs; strays := n |}
           {| kernel := with_procs k (<[pid := stat]> (k_procs k)); clients := cs; strays := n |}
  | w_end k cs n pid :
      step {| kernel := k; clients := cs; strays := n |}
           {| kernel := kill k pid; clients := end_client pid <$> cs; strays := n |}
  | w_fork k cs n pid child stat :
      is_Some (k_procs k !! pid) -> 0 < child -> k_procs k !! child = None ->
      step {| kernel := k; clients := cs; strays := n |}
           {| kernel := fork k pid child stat; clients := cs ++ (fork_client pid child <$> cs); strays := n |}
  | w_acquire k cs n pid root instance steal :
      is_Some (k_procs k !! pid) ->
      step {| kernel := k; clients := cs; strays := n |}
           {| kernel := k;
              clients := cs ++ [{| c_pid := pid; c_job := Acquiring (acquire_workspace_lock resolve root instance steal) |}];
              strays := n |}
  | w_permit k cs n pid dir usable_cpus limit :
      is_Some (k_procs k !! pid) ->
      step {| kernel := k; clients := cs; strays := n |}
           {| kernel := k;
              clients := cs ++ [{| c_pid := pid; c_job := Queueing true dir (effective_permit_count usable_cpus limit) |}];
              strays := n |}
  | w_job k cs n i pid job job' k' :
      cs !! i = Some {| c_pid := pid; c_job := job |} -> is_Some (k_procs k !! pid) ->
      job_step pid k job job' k' ->
      step {| kernel := k; clients := cs; strays := n |}
           {| kernel := k'; clients := <[i := {| c_pid := pid; c_job := job' |}]> cs;
              strays := (n + job_strays job)%nat |}.

(** A host just booted: no descriptor is open, and any lock record on disk was left by a
    writer that had a lease. *)
Definition booted (w : World) : Prop :=
  clients w = [] /\ k_fds (kernel w) = ∅ /\ k_paths (kernel w) = ∅ /\ k_flocks (kernel w) = ∅
  /\ forall root v, k_files (kernel w) !! lock_path root = Some v -> leased v.

Definition reachable (w : World) : Prop := exists w0, booted w0 /\ rtc step w0 w.

(** An invocation that writes: its handle passes [_owned_lease]. *)
Definition writes (c : Client) (l : WorkspaceLock) : Prop :=
  (c_job c = Holding l \/ exists root p, c_job c = Validating l root p) /\ owned_lease (c_pid c) l = true.
End Host.

(** * What holds on a host whatever is interleaved and whoever dies: a workspace has one
    writer and its record is that writer's, a pool of permits never admits more than its
    slots, and once nobody has the guard open the next acquisition succeeds. *)

#[local] Open Scope Z_scope.

Section Interleavings.
Context `{PyConv} `{PyFloatParse} (resolve : string -> string).

Abbreviation safe_lock := (safe lock_guard_path lock_path leased).
Abbreviation held_lock := (held lock_guard_path lock_path).
Abbreviation ok_kernel := (kernel_ok lock_path leased).
Abbreviation keeps_lock := (keeps lock_guard_path lock_path leased).
Abbreviation step := (Host.step resolve).

(** ** What an invocation holds *)

Definition handle_ok (pid : Z) (l : WorkspaceLock) (g : option Lease) : Prop :=
  (exists root, holds pid root l g) \/ (lease_open l = false /\ g = None).

(** A program that only asks and reads. *)
Fixpoint reads {A} (p : Prog A) : Prop :=
  match p with
  | Done _ => True
  | Do s k => match s with Getpid | ReadJson _ => True | _ => False end /\ forall r, reads (k r)
  end.

Lemma validate_reads l root : reads (validate_workspace_lock resolve l root).
Proof.
  split; [done|]. intros [pid|e]; [|done]. cbn. destruct (negb _); [done|]. split; [done|]. intros [a|e]; [|done].
  cbn. by destruct (negb _).
Qed.

Lemma reading_step {A} pid k g (p p' : Prog A) k' Q :
  ok_kernel k -> held_lock k pid g -> reads p -> safe_lock pid g p Q -> prog_step pid k p p' k' ->
  k' = k /\ reads p' /\ safe_lock pid g p' Q.
Proof.
  intros Hk Hg Hr Hs Hp. destruct p as [r|R s c]; [done|]. destruct Hp as (r & Hstep & ->), Hr as [Hs0 Hc].
  destruct s; try done; cbn in Hs.
  - destruct Hs as [He Ha]. destruct r as [a|e]; destruct Hstep as [-> ->]; split; auto. split; [done|].
    apply Ha. by eapply held_read.
  - destruct r as [a|e]; [|by destruct Hstep]. destruct Hstep as [-> ->]. auto.
Qed.

(** A slot whose lock a child's copy may have undone. *)
Definition keeps_slot (dir : string) (count : Z) (permit : WorkerPermit) (g : option Lease) : Prop :=
  match wp_fd permit with
  | Some fd => 0 <= wp_slot permit < count
      /\ exists d s, (s = Locked \/ s = Opened)
         /\ g = Some {| l_fd := fd; l_description := d; l_path := slot_path dir (wp_slot permit); l_stage := s |}
  | None => g = None
  end.

(** A release on its way: before the unlock, before the close, or done. *)
Definition releasing (p : Prog unit) (g : option Lease) : Prop :=
  match g with
  | Some x => (exists permit, wp_fd permit = Some (l_fd x) /\ p = release permit)
              \/ p = or_else (sys (Close (l_fd x))) tt
  | None => exists r, p = Done r
  end.

Definition copied (g : option Lease) : Prop := match g with Some x => l_stage x = Copied | None => True end.

Definition job_ok (pid : Z) (job : Job) (g : option Lease) : Prop :=
  match job with
  | Acquiring p => safe_lock pid g p (fun r g =>
      match r with Ok l => exists root, holds pid root l g | Raise _ => g = None end)
  | Holding l => handle_ok pid l g
  | Validating l root p =>
      handle_ok pid l g /\ reads p /\ safe_lock pid g p (fun r _ => validated resolve pid root l r)
  | Releasing p => safe_lock pid g p (fun _ g => g = None)
  | Inherited l =>
      (lease_open l = false /\ g = None)
      \/ exists x, g = Some x /\ lk_lease l = Some (l_fd x) /\ 0 <= l_fd x /\ l_stage x = Copied
  | Turning dir count p => safe_lock pid g p (turned dir count)
  | Permitted dir count permit => keeps_slot dir count permit g
  | Returning p => releasing p g /\ forall x, g = Some x -> own (l_stage x)
  | Lent permit => wp_fd permit = l_fd <$> g /\ copied g
  | Undoing p => releasing p g /\ copied g
  | Queueing _ _ _ | Ended => g = None
  end.

Lemma handle_owned pid l g : handle_ok pid l g -> owned_lease pid l = true -> exists root, holds pid root l g.
Proof.
  intros [Hh|[Ho _]]; [done|]. unfold owned_lease, lease_open in *. destruct (lk_lease l); [|done].
  rewrite Ho. done.
Qed.

Lemma closed_not_open l : lease_open (closed l) = false.
Proof. unfold lease_open, closed. cbn. by destruct (lk_lease l). Qed.

(** The jobs that may lose a lock to a child, and those that may take it. *)
Definition permits (job : Job) : bool := match job with Permitted _ _ _ | Returning _ => true | _ => false end.
Definition lends (job : Job) : bool := match job with Lent _ | Undoing _ => true | _ => false end.

Definition flows (job job' : Job) : Prop :=
  (permits job = true -> permits job' = true \/ job' = Ended) /\ (lends job' = true -> lends job = true).

Lemma job_flow pid k job job' k' : job_step resolve pid k job job' k' -> flows job job'.
Proof. by destruct 1; split; cbn; auto. Qed.

(** A permit whose slot is no longer locked. *)
Definition lost (job : Job) (g : option Lease) : bool :=
  match job, g with
  | Permitted _ _ _, Some l => match l_stage l with Opened => true | _ => false end
  | _, _ => false
  end.

Lemma has_slot_kept dir count permit g :
  has_slot dir count permit g ->
  keeps_slot dir count permit g /\ lost (Permitted dir count permit) g = false.
Proof.
  unfold has_slot, keeps_slot. destruct (wp_fd permit); [|by intros ->]. intros (Hs & d & ->).
  split; [|done]. split; [done|]. exists d, Locked. auto.
Qed.

Lemma release_releasing permit g : wp_fd permit = l_fd <$> g -> releasing (release permit) g.
Proof.
  intros Hp. destruct g as [x|]; cbn in *; [left; by exists permit|]. unfold release. rewrite Hp. by eexists.
Qed.

Lemma releasing_step pid k p p' k' g :
  ok_kernel k -> held_lock k pid g -> releasing p g -> prog_step pid k p p' k' ->
  match p with Do (Unlock _) _ => forall x, g = Some x -> own (l_stage x) | _ => True end ->
  exists g', releasing p' g' /\ keeps_lock k k' pid g g'
             /\ forall x', g' = Some x' -> exists x, g = Some x /\ l_fd x' = l_fd x
               /\ (l_stage x' = l_stage x \/ l_stage x' = Opened /\ own (l_stage x)).
Proof.
  intros Hk Hg Hr Hp Ho. destruct g as [x|]; cbn in Hr; [|by destruct Hr as [r ->]].
  pose proof (keeps_same lock_guard_path lock_path leased k pid (Some x) Hk Hg) as Hsame.
  destruct Hr as [(permit & Hfd & ->)| ->].
  - unfold release in *. rewrite Hfd in *. destruct Hp as (r & Hr & ->). cbn in Ho.
    assert (exists g', keeps_lock k k' pid (Some x) (Some g') /\ l_fd g' = l_fd x
              /\ (l_stage g' = l_stage x \/ l_stage g' = Opened /\ own (l_stage x))) as (x' & Hkeep & Hfd' & Hst).
    { destruct r as [[]|e]; cbn in Hr; [subst k'|destruct Hr as [_ ->]]; eexists; (split; [|split; [|]]);
        [apply keeps_unlock; auto|done|right; split; [done|by apply Ho]|exact Hsame|done|by left]. }
    exists (Some x'). split_and!; [|done|intros ? [= <-]; by exists x]. right. rewrite Hfd'.
    destruct r as [[]|e]; [done|]. destruct Hr as [-> _]. done.
  - destruct Hp as (r & Hr & ->). exists None. split_and!; [|..|done].
    + destruct r as [[]|e]; [by eexists|]. destruct Hr as [-> _]. by eexists.
    + assert (k' = close_fd k pid (l_fd x)) as -> by (destruct r; cbn in Hr; naive_solver). by apply keeps_close.
Qed.

Lemma job_step_keeps pid k job job' k' g :
  ok_kernel k -> is_Some (k_procs k !! pid) -> held_lock k pid g -> job_ok pid job g ->
  job_step resolve pid k job job' k' -> job_strays job = O ->
  exists g', (job_ok pid job' g' /\ lost job' g' = false) /\ keeps_lock k k' pid g g'.
Proof.
  intros Hk Hlive Hg Hj Hs Hstray. pose proof (keeps_same lock_guard_path lock_path leased k pid g Hk Hg) as Hsame.
  assert (forall A (f : Prog A -> Job) p p' k' Q, prog_step pid k p p' k' -> safe_lock pid g p Q ->
            (forall q g, safe_lock pid g q Q -> job_ok pid (f q) g /\ lost (f q) g = false) ->
            exists g', (job_ok pid (f p') g' /\ lost (f p') g' = false) /\ keeps_lock k k' pid g g') as Hrun.
  { intros A f p p' k1 Q Hp Hq Hf.
    destruct (prog_step_keeps lock_guard_path lock_path leased pid k g p p' k1 Q) as (g' & Hq' & Hkeep); [done..|].
    exists g'. auto. }
  destruct Hs as [p p' k' Hp|l|e|l root|l root p p' k' Hp|l root r|l|p p' k' Hp|r|l fd r k' Hl Hfd Hr|l Hl
                 |first dir count|dir count p p' k' Hp|dir count|dir count permit|dir count e|dir count permit
                 |p p' k' Hp|r|permit|p p' k' Hp|r]; cbn [job_ok] in Hj.
  - by eapply Hrun.
  - exists g. split; [split; [by left|done]|done].
  - exists g. split; [by split|done].
  - exists g. split; [split; [split; [done|split; [apply validate_reads|]]|done]|done].
    eapply safe_mono; [|apply validate_safe, handle_owned, Hj]. by intros r g' [_ Hv].
  - destruct Hj as (Hh & Hrd & Hj). destruct (reading_step _ _ _ _ _ _ _ Hk Hg Hrd Hj Hp) as (-> & Hrd' & Hj').
    by exists g.
  - exists g. split; [split; [apply Hj|done]|done].
  - exists g. split; [split; [|done]|done]. cbn [job_ok]. destruct Hj as [[root Hh]|Hn]; [eapply release_safe; by left|].
    apply (release_safe _ ""). by right.
  - by eapply Hrun.
  - exists g. split; [by split|done].
  - destruct Hj as [[Ho _]|(x & -> & Hx & _)]; [unfold lease_open in Ho; rewrite Hl in Ho; lia|].
    rewrite Hl in Hx. injection Hx as ->. exists None. split; [split; [right; split; [apply closed_not_open|done]|done]|].
    assert (k' = close_fd k pid (l_fd x)) as -> by (destruct r; cbn in Hr; naive_solver). by apply keeps_close.
  - exists g. split; [split; [|done]|done]. destruct Hj as [Hj|(x & -> & Hx & Hfd & _)]; [by right|].
    unfold lease_open in Hl. rewrite Hx in Hl. lia.
  - exists g. split; [split; [|done]|done]. cbn [job_ok] in *. subst g. apply turn_safe.
  - by eapply Hrun.
  - exists g. split; [by split|done].
  - exists g. split; [|done]. by apply has_slot_kept.
  - exists g. split; [by split|done].
  - exists g. split; [split; [|done]|done]. cbn [job_ok] in *. unfold keeps_slot in Hj.
    destruct (wp_fd permit) as [fd|] eqn:E.
    + destruct Hj as (_ & d & s & Hs & ->). split; [by apply release_releasing|]. intros x [= <-]. by destruct Hs as [-> | ->].
    + subst g. split; [by apply release_releasing|done].
  - destruct Hj as [Hj Ho]. destruct (releasing_step _ _ _ _ _ _ Hk Hg Hj Hp) as (g' & Hj' & Hkeep & Hst).
    { destruct p as [|R [] c]; auto. }
    exists g'. split; [split; [split; [done|]|done]|done]. intros x' Hx'.
    destruct (Hst x' Hx') as (x & Hx & _ & [Hs|[Hs _]]); rewrite Hs; [by apply Ho|done].
  - destruct Hj as [Hj _]. exists g. split; [split; [|done]|done]. destruct g as [x|]; [|done].
    destruct Hj as [(permit & Hfd & Hr)|Hr]; [unfold release in Hr; by rewrite Hfd in Hr|done].
  - destruct Hj as [Hj Hc]. exists g. split; [split; [split; [by apply release_releasing|done]|done]|done].
  - destruct Hj as [Hj Hc]. destruct (releasing_step _ _ _ _ _ _ Hk Hg Hj Hp) as (g' & Hj' & Hkeep & Hst).
    { destruct p as [|R [] c]; done. }
    exists g'. split; [split; [split; [done|]|done]|done]. destruct g' as [x'|]; [|done].
    destruct (Hst x' eq_refl) as (x & -> & _ & [Hs|[_ Hs]]); cbn in *; [congruence|by destruct Hs].
  - destruct Hj as [Hj _]. exists g. split; [split; [|done]|done]. destruct g as [x|]; [|done].
    destruct Hj as [(permit & Hfd & Hr)|Hr]; [unfold release in Hr; by rewrite Hfd in Hr|done].
Qed.

(** ** The invariant

    Each invocation with what it holds; no two hold the same, and what a child has a copy
    of is a permit's. *)
Record invariant (k : Kernel) (hs : list (Client * option Lease)) : Prop := {
  iv_kernel : ok_kernel k;
  iv_job : forall i c g, hs !! i = Some (c, g) -> job_ok (c_pid c) (c_job c) g /\ held_lock k (c_pid c) g;
  iv_apart : forall i j c c' g g', i <> j -> hs !! i = Some (c, g) -> hs !! j = Some (c', g') ->
    apart (c_pid c, g) (c_pid c', g');
  iv_lent : forall i j c c' l m, hs !! i = Some (c, Some l) -> own (l_stage l) ->
    hs !! j = Some (c', Some m) -> lends (c_job c') = true -> l_description l = l_description m ->
    permits (c_job c) = true;
}.

(** The permits whose slot is no longer locked. *)
Definition all_lost (hs : list (Client * option Lease)) : nat :=
  length (List.filter (fun h : Client * option Lease => lost (c_job h.1) h.2) hs).

(** What is held by all is kept when everybody's part of the kernel is. *)
Lemma invariant_same k k' hs :
  invariant k hs -> ok_kernel k' ->
  (forall i c l, hs !! i = Some (c, Some l) -> lease_ok lock_guard_path lock_path k (c_pid c) l ->
     lease_ok lock_guard_path lock_path k' (c_pid c) l) ->
  invariant k' hs.
Proof.
  intros [Hk Hj Ha Hn] Hk' Hl. split; [done| |done..]. intros i c [l|] Hi; destruct (Hj _ _ _ Hi); [|done].
  split; [done|]. by eapply Hl.
Qed.

Lemma invariant_add k hs c :
  invariant k hs -> job_ok (c_pid c) (c_job c) None -> invariant k (hs ++ [(c, None)]).
Proof.
  intros [Hk Hj Ha Hn] Hc. split; [done|..].
  - intros i c' g [Hi|[_ Hi]]%lookup_app_Some; [by eapply Hj|].
    apply list_lookup_singleton_Some in Hi as [_ [= <- <-]]. done.
  - intros i j c1 c2 g1 g2 Hne [Hi|[Hi0 Hi]]%lookup_app_Some [Hj'|[Hj0 Hj']]%lookup_app_Some; [by eapply Ha|..];
      try (apply list_lookup_singleton_Some in Hi as [_ [= <- <-]]);
      try (apply list_lookup_singleton_Some in Hj' as [_ [= <- <-]]); unfold apart; cbn; by repeat case_match.
  - intros i j c1 c2 l m [Hi|[_ Hi]]%lookup_app_Some Ho [Hj'|[_ Hj']]%lookup_app_Some; [by eapply Hn|..];
      try (by apply list_lookup_singleton_Some in Hi as [_ [= _ ?]]);
      by apply list_lookup_singleton_Some in Hj' as [_ [= _ ?]].
Qed.

Lemma all_lost_app hs hs' : all_lost (hs ++ hs') = (all_lost hs + all_lost hs')%nat.
Proof. unfold all_lost. by rewrite List.filter_app, length_app. Qed.

Lemma all_lost_cons h hs : all_lost (h :: hs) = ((if lost (c_job h.1) h.2 then 1 else 0) + all_lost hs)%nat.
Proof. unfold all_lost. cbn. by destruct (lost _ _). Qed.

Lemma all_lost_insert hs i c g :
  (all_lost (<[i := (c, g)]> hs) <= all_lost hs + if lost (c_job c) g then 1 else 0)%nat.
Proof.
  destruct (hs !! i) as [h|] eqn:Hi.
  - rewrite insert_take_drop by by eapply lookup_lt_Some. rewrite <- (take_drop_middle _ _ _ Hi) at 3.
    rewrite !all_lost_app, !all_lost_cons. cbn [fst snd]. lia.
  - rewrite list_insert_ge by by apply lookup_ge_None. lia.
Qed.

(** A lease that is kept, or is given up for a new description or for none, lends and
    borrows no more than before. *)
Lemma lent_step k hs i c g job' g' :
  invariant k hs -> hs !! i = Some (c, g) -> flows (c_job c) job' ->
  job_ok (c_pid c) job' g' ->
  (forall l', g' = Some l' ->
     (exists l, g = Some l /\ l_description l' = l_description l /\ (own (l_stage l') -> own (l_stage l)))
     \/ k_paths k !! l_description l' = None) ->
  let hs' := <[i := ({| c_pid := c_pid c; c_job := job' |}, g')]> hs in
  forall a b ca cb l m, hs' !! a = Some (ca, Some l) -> own (l_stage l) ->
    hs' !! b = Some (cb, Some m) -> lends (c_job cb) = true -> l_description l = l_description m ->
    permits (c_job ca) = true.
Proof.
  intros Hinv Hi Hs Hok Hfresh hs' a b ca cb l m Ha Ho Hb Hl Hd. subst hs'.
  destruct Hs as [Hp Hlend].
  assert (forall j x n, hs !! j = Some (x, Some n) -> k_paths k !! l_description n <> None) as Hpath.
  { intros j x n Hj. destruct (iv_job _ _ Hinv _ _ _ Hj) as [_ Hn]. rewrite (lo_path _ _ _ _ _ Hn). done. }
  destruct (decide (i = a)) as [<-|Hna], (decide (i = b)) as [<-|Hnb].
  - rewrite list_lookup_insert_eq in Ha, Hb by by eapply lookup_lt_Some. injection Ha as <- ->. injection Hb as <- <-.
    exfalso. cbn in Hl. destruct job' as [| | | | | | | | |permit|p|]; try done; destruct Hok as [_ Hc]; by apply Ho in Hc.
  - rewrite list_lookup_insert_eq in Ha by by eapply lookup_lt_Some. rewrite list_lookup_insert_ne in Hb by done.
    injection Ha as <- ->. cbn. destruct (Hfresh l eq_refl) as [(l0 & -> & Hd0 & Ho0)|Hnew].
    + assert (permits (c_job c) = true) as Hpc.
      { eapply (iv_lent _ _ Hinv i b); [done|by apply Ho0|done|done|congruence]. }
      destruct (Hp Hpc) as [|He]; [done|]. by subst job'.
    + exfalso. eapply Hpath; [exact Hb|]. by rewrite <- Hd.
  - rewrite list_lookup_insert_ne in Ha by done. rewrite list_lookup_insert_eq in Hb by by eapply lookup_lt_Some.
    injection Hb as <- ->. cbn in Hl. destruct (Hfresh m eq_refl) as [(m0 & -> & Hd0 & _)|Hnew].
    + eapply (iv_lent _ _ Hinv a i); [done|done|done|by apply Hlend|congruence].
    + exfalso. eapply Hpath; [exact Ha|]. by rewrite Hd.
  - rewrite list_lookup_insert_ne in Ha, Hb by done. by eapply (iv_lent _ _ Hinv a b).
Qed.

Lemma invariant_insert k k' hs i c g job' g' :
  invariant k hs -> hs !! i = Some (c, g) -> flows (c_job c) job' ->
  job_ok (c_pid c) job' g' -> keeps_lock k k' (c_pid c) g g' ->
  invariant k' (<[i := ({| c_pid := c_pid c; c_job := job' |}, g')]> hs).
Proof.
  intros Hinv Hi Hs Hjob' [Hk' Hg' _ Hframe Hfresh]. pose proof Hinv as [Hk Hj Ha _].
  assert (forall j c' m, i <> j -> hs !! j = Some (c', Some m) ->
    lease_ok lock_guard_path lock_path k' (c_pid c') m /\ apart (c_pid c, g') (c_pid c', Some m)) as Hothers.
  { intros j c' m Hne Hj'. apply Hframe; [apply (Hj _ _ _ Hj')|by eapply Ha]. }
  split; [done|..|by eapply lent_step].
  - intros j c' m. destruct (decide (i = j)) as [<-|Hne].
    + rewrite list_lookup_insert_eq by by eapply lookup_lt_Some. by intros [= <- <-].
    + rewrite list_lookup_insert_ne by done. intros Hj'. split; [by apply (Hj _ _ _ Hj')|].
      destruct m as [m|]; [by apply (Hothers j)|done].
  - assert (forall j c' m, i <> j -> hs !! j = Some (c', m) -> apart (c_pid c, g') (c_pid c', m)) as Hone.
    { intros j c' [m|] Hne Hj'; [by eapply Hothers|]. unfold apart. cbn. by case_match. }
    intros j1 j2 c1 c2 g1 g2 Hne. destruct (decide (i = j1)) as [<-|H1], (decide (i = j2)) as [<-|H2]; [done|..].
    + rewrite list_lookup_insert_eq by (by eapply lookup_lt_Some). rewrite list_lookup_insert_ne by done.
      intros [= <- <-] Hj2. by eapply Hone.
    + rewrite list_lookup_insert_eq by (by eapply lookup_lt_Some). rewrite list_lookup_insert_ne by done.
      intros Hj1 [= <- <-]. apply apart_sym. by eapply Hone.
    + rewrite !list_lookup_insert_ne by done. by apply Ha.
Qed.

(** ** Processes *)

Lemma procs_kernel k procs :
  ok_kernel k -> (forall pid, is_Some (k_procs k !! pid) -> is_Some (procs !! pid)) -> ok_kernel (with_procs k procs).
Proof. intros [Hf Hn Hl Hp Hr] Hlive. split; cbn; [done..| |done]. intros x d Hx. by eapply Hlive, Hp. Qed.

Lemma lease_with_procs k procs pid l :
  lease_ok lock_guard_path lock_path k pid l -> lease_ok lock_guard_path lock_path (with_procs k procs) pid l.
Proof. by intros [Hf Hp Hl Hr]. Qed.

Definition end_holder (pid : Z) (h : Client * option Lease) : Client * option Lease :=
  (end_client pid h.1, if c_pid h.1 =? pid then None else h.2).

Lemma end_pid pid c : c_pid (end_client pid c) = c_pid c.
Proof. done. Qed.

Lemma kill_ok k pid : ok_kernel k -> ok_kernel (kill k pid).
Proof.
  intros Hk. unfold kill. set (fds := filter _ (k_fds k)).
  assert (forall x d, fds !! x = Some d -> k_fds k !! x = Some d /\ x.1 <> pid) as Hsub
    by (intros x d Hx; by apply map_lookup_filter_Some in Hx).
  assert (ok_kernel (with_fds k fds)) as [Hf Hn Hl Hp Hr] by (apply kernel_with_fds; [done|naive_solver]).
  split; cbn; [done..| |done]. intros x d Hx. rewrite lookup_delete_ne by (intros ->; by eapply Hsub). by apply (Hp x d).
Qed.

Lemma invariant_kill k hs pid : invariant k hs -> invariant (kill k pid) (end_holder pid <$> hs).
Proof.
  intros [Hk Hj Ha Hn]. split; [by apply kill_ok|..].
  - intros i c g. rewrite list_lookup_fmap. intros ([c0 g0] & Hi & [= -> ->])%fmap_Some. cbn.
    destruct (Hj _ _ _ Hi) as [Hjob Hg]. destruct (Z.eqb_spec (c_pid c0) pid) as [He|Hne]; [done|]. split; [done|].
    destruct g0 as [l|]; [|done]. apply lease_with_procs, lease_with_fds; [done|].
    apply map_lookup_filter_Some. split; [apply Hg|done].
  - intros i j c c' g g' Hne. rewrite !list_lookup_fmap. intros ([c0 g0] & Hi & [= -> ->])%fmap_Some.
    intros ([c1 g1] & Hi1 & [= -> ->])%fmap_Some. cbn. specialize (Ha i j _ _ _ _ Hne Hi Hi1).
    unfold apart in *. cbn in *. repeat case_match; simplify_eq/=; done.
  - intros i j c c' l m. rewrite !list_lookup_fmap. intros ([c0 g0] & Hi & [= -> Hl])%fmap_Some Ho.
    intros ([c1 g1] & Hi1 & [= -> Hm])%fmap_Some. cbn in *.
    destruct (c_pid c0 =? pid); [done|]. destruct (c_pid c1 =? pid); [done|]. subst g0 g1. by eapply Hn.
Qed.

Lemma all_lost_kill hs pid : (all_lost (end_holder pid <$> hs) <= all_lost hs)%nat.
Proof.
  induction hs as [|h hs IH]; [done|]. rewrite fmap_cons, !all_lost_cons. unfold end_holder at 1 2, end_client. cbn [fst snd].
  destruct (c_pid h.1 =? pid); cbn; [lia|]. destruct (lost _ _); lia.
Qed.

(** A forked child's copy of what its parent's handles hold. *)
Definition fork_holder (pid child : Z) (h : Client * option Lease) : Client * option Lease :=
  (fork_client pid child h.1,
   if c_pid h.1 =? pid then
     match c_job h.1 with
     | Holding _ | Validating _ _ _ | Inherited _ | Permitted _ _ _ | Lent _ => (fun l => staged l Copied) <$> h.2
     | _ => None
     end
   else None).

Lemma fork_fds k pid child stat x d :
  (forall fd, k_fds k !! (child, fd) = None) ->
  k_fds (fork k pid child stat) !! x = Some d
  <-> k_fds k !! x = Some d \/ (x.1 = child /\ k_fds k !! (pid, x.2) = Some d).
Proof.
  intros Hfree. unfold fork. cbn. set (L := (fun item : Z * Z * nat => ((child, item.1.2), item.2)) <$> _).
  assert (forall y e, (y, e) ∈ L <-> y.1 = child /\ k_fds k !! (pid, y.2) = Some e) as HL.
  { intros [y1 y2] e. unfold L. rewrite list_elem_of_fmap. split.
    - intros ([[p f] e'] & [= -> -> ->] & [Hx Hp]%elem_of_map_to_list%map_lookup_filter_Some). cbn in *. by subst p.
    - intros [Hy Hx]. cbn in Hy, Hx. subst y1. exists ((pid, y2), e). split; [done|]. by apply elem_of_map_to_list, map_lookup_filter_Some. }
  assert (NoDup L.*1) as Hnd.
  { unfold L. rewrite <- list_fmap_compose. apply NoDup_fmap_2_strong; [|apply NoDup_map_to_list].
    intros [[p1 f1] e1] [[p2 f2] e2] [H1 Hp1]%elem_of_map_to_list%map_lookup_filter_Some
      [H2 Hp2]%elem_of_map_to_list%map_lookup_filter_Some [= Hf]. cbn in *. subst. congruence. }
  assert (list_to_map (M := gmap (Z * Z) nat) L !! x = Some d <-> x.1 = child /\ k_fds k !! (pid, x.2) = Some d) as Hmap.
  { rewrite <- elem_of_list_to_map by done. apply HL. }
  rewrite lookup_union_Some; [by rewrite Hmap|]. apply map_disjoint_spec. intros y e1 e2 H1 H2.
  apply elem_of_list_to_map in H2; [|done]. apply HL in H2 as [Hc _]. destruct y as [y1 y2]. cbn in Hc. subst y1.
  by rewrite Hfree in H1.
Qed.

Lemma child_free k child : ok_kernel k -> k_procs k !! child = None -> forall fd, k_fds k !! (child, fd) = None.
Proof.
  intros Hk Hc fd. destruct (k_fds k !! (child, fd)) as [d|] eqn:E; [|done].
  destruct (ko_procs _ _ _ Hk _ _ E) as [s Hs]. cbn in Hs. congruence.
Qed.

Lemma fork_ok k pid child stat :
  ok_kernel k -> k_procs k !! child = None -> ok_kernel (fork k pid child stat).
Proof.
  intros Hk Hc. pose proof (child_free k child Hk Hc) as Hfree. pose proof Hk as [Hf Hn Hl Hp Hr].
  pose proof (fun x d => fork_fds k pid child stat x d Hfree) as Hfds. split; [|done|..|done].
  - intros x d [Hx|[_ Hx]]%Hfds; by eapply Hf.
  - intros path d Hpath. cbn in Hpath. destruct (Hl _ _ Hpath) as [H1 [x Hx]%referenced_spec]. split; [done|].
    apply referenced_spec. exists x. apply Hfds. by left.
  - intros x d [Hx|[<- _]]%Hfds; cbn; [|by rewrite lookup_insert_eq].
    destruct (Hp _ _ Hx) as [s Hs]. rewrite lookup_insert_ne by congruence. by exists s.
Qed.

(** What a fork gives the child: copies of descriptors, and nothing locked. *)
Lemma fork_copy k pid child stat c g x :
  ok_kernel k -> k_procs k !! child = None -> held_lock k (c_pid c) g -> job_ok (c_pid c) (c_job c) g ->
  fork_holder pid child (c, g) = x ->
  job_ok (c_pid x.1) (c_job x.1) x.2 /\ held_lock (fork k pid child stat) (c_pid x.1) x.2.
Proof.
  intros Hk Hc Hg Hj <-. split; cbn.
  - destruct (c_pid c =? pid); [|done].
    assert (forall l, handle_ok (c_pid c) l g -> job_ok child (Inherited l) ((fun l => staged l Copied) <$> g)) as Hh.
    { intros l [(root & _ & _ & _ & fd & d & Hfd & Hl & ->)|[Ho ->]]; [right|by left].
      eexists. split; [done|]. split; [exact Hl|]. by split. }
    destruct (c_job c) as [p|l|l root p|p|l|first dir count|dir count p|dir count permit|p|permit|p|]; cbn in Hj; try done;
      [by apply Hh|apply Hh, Hj|..].
    + destruct Hj as [[Ho ->]|(y & -> & Hy & Hfd & Hst)]; [by left|]. right.
      eexists. split; [done|]. by split.
    + cbn. unfold keeps_slot in Hj. destruct (wp_fd permit); [|by subst g]. by destruct Hj as (_ & d & s & _ & ->).
    + destruct Hj as [Hj _]. cbn. rewrite Hj. by destruct g.
  - destruct (Z.eqb_spec (c_pid c) pid) as [<-|Hne]; [|done].
    destruct g as [l|]; [|by destruct (c_job c)].
    assert (lease_ok lock_guard_path lock_path (fork k (c_pid c) child stat) child (staged l Copied)) as Hcopy.
    { split; [|apply Hg|done..]. apply fork_fds; [by apply child_free|]. right. split; [done|apply Hg]. }
    by destruct (c_job c).
Qed.

Lemma fork_kept k pid child stat p l :
  ok_kernel k -> k_procs k !! child = None -> lease_ok lock_guard_path lock_path k p l ->
  lease_ok lock_guard_path lock_path (fork k pid child stat) p l.
Proof.
  intros Hk Hc [Hf Hp Hl Hr]. split; [|done..]. apply fork_fds; [by apply child_free|by left].
Qed.

(** The copies of a permit are of a permit. *)
Lemma fork_lent k hs pid child i j c c' l m :
  invariant k hs ->
  (hs ++ (fork_holder pid child <$> hs)) !! i = Some (c, Some l) -> own (l_stage l) ->
  (hs ++ (fork_holder pid child <$> hs)) !! j = Some (c', Some m) -> lends (c_job c') = true ->
  l_description l = l_description m -> permits (c_job c) = true.
Proof.
  intros Hinv [Hi|[_ Hi]]%lookup_app_Some Ho Hj Hl Hd.
  2:{ exfalso. rewrite list_lookup_fmap in Hi. apply fmap_Some in Hi as ([c0 g0] & _ & [= _ Hg]).
      destruct (c_pid c0 =? pid); [|done]. destruct g0 as [l0|]; destruct (c_job c0); try done; injection Hg as ->; by destruct Ho. }
  apply lookup_app_Some in Hj as [Hj|[_ Hj]]; [by eapply (iv_lent _ _ Hinv i j)|].
  rewrite list_lookup_fmap in Hj. apply fmap_Some in Hj as ([c0 g0] & Hj & [= -> Hg]). cbn in Hl.
  destruct (c_pid c0 =? pid); [|done]. destruct g0 as [m0|]; [|by destruct (c_job c0)].
  destruct (c_job c0) as [| | | | | | |dir count permit| |permit| |] eqn:Ejob; try done; injection Hg as ->; cbn in Hd.
  - destruct (decide (i = (j - length hs)%nat)) as [->|Hne].
    + rewrite Hi in Hj. injection Hj as -> ->. by rewrite Ejob.
    + exfalso. destruct (iv_apart _ _ Hinv _ _ _ _ _ _ Hne Hi Hj) as [_ Ha]. apply Ha; [done| |done].
      destruct (iv_job _ _ Hinv _ _ _ Hj) as [Hjob _]. rewrite Ejob in Hjob. cbn in Hjob. unfold keeps_slot in Hjob.
      destruct (wp_fd permit); [|done]. destruct Hjob as (_ & d & s & Hs & [= ->]). by destruct Hs as [-> | ->].
  - eapply (iv_lent _ _ Hinv i); [done|done|exact Hj|by rewrite Ejob|done].
Qed.

Lemma invariant_fork k hs pid child stat :
  invariant k hs -> k_procs k !! child = None ->
  invariant (fork k pid child stat) (hs ++ (fork_holder pid child <$> hs)).
Proof.
  intros Hinv Hc. pose proof Hinv as [Hk Hj Ha Hn].
  assert (forall h, c_pid (fork_holder pid child h).1 = child) as Hpid by done.
  assert (forall i h l, hs !! i = Some h -> (fork_holder pid child h).2 = Some l ->
    exists m, h.2 = Some m /\ c_pid h.1 = pid /\ l = staged m Copied) as Hcopy.
  { intros i [c g] l Hi. unfold fork_holder. cbn. destruct (Z.eqb_spec (c_pid c) pid); [|done].
    destruct g as [m|]; [|by destruct (c_job c)]. destruct (c_job c); naive_solver. }
  split; [by apply fork_ok|..].
  - intros i c g [Hi|[_ Hi]]%lookup_app_Some.
    + destruct (Hj _ _ _ Hi) as [Hjob Hg]. split; [done|]. destruct g as [l|]; [|done]. by apply fork_kept.
    + rewrite list_lookup_fmap in Hi. apply fmap_Some in Hi as ([c0 g0] & Hi & Heq).
      destruct (Hj _ _ _ Hi) as [Hjob Hg]. by apply (fork_copy k pid child stat c0 g0 (c, g)).
  - assert (forall i c g h, hs !! i = Some (c, g) -> (exists j, hs !! j = Some h) ->
      apart (c_pid c, g) (child, (fork_holder pid child h).2)) as Hmix.
    { intros i c g h Hi [j Hh]. unfold apart. cbn [fst snd]. destruct g as [l|]; [|done].
      destruct (fork_holder pid child h).2 as [m|] eqn:Em; [|done].
      destruct (Hcopy _ _ _ Hh Em) as (m0 & _ & _ & ->). split; [|by intros _ Hnoo].
      intros [= Hcp _]. destruct (Hj _ _ _ Hi) as [_ Hg]. cbn in Hg.
      pose proof (child_free k child Hk Hc (l_fd l)) as Hfree. rewrite <- Hcp, (lo_fd _ _ _ _ _ Hg) in Hfree. done. }
    intros i j c c' g g' Hne [Hi|[Hi0 Hi]]%lookup_app_Some [Hi'|[Hj0 Hi']]%lookup_app_Some.
    + by eapply Ha.
    + rewrite list_lookup_fmap in Hi'. apply fmap_Some in Hi' as (h & Hh & Heq).
      assert (c' = (fork_holder pid child h).1 /\ g' = (fork_holder pid child h).2) as [-> ->] by by rewrite <- Heq.
      rewrite Hpid. eapply Hmix; eauto.
    + rewrite list_lookup_fmap in Hi. apply fmap_Some in Hi as (h & Hh & Heq).
      assert (c = (fork_holder pid child h).1 /\ g = (fork_holder pid child h).2) as [-> ->] by by rewrite <- Heq.
      rewrite Hpid. apply apart_sym. eapply Hmix; eauto.
    + rewrite list_lookup_fmap in Hi, Hi'. apply fmap_Some in Hi as (h & Hh & Heq), Hi' as (h' & Hh' & Heq').
      unfold apart. cbn [fst snd]. destruct g as [l|], g' as [l'|]; try done.
      assert (Hl := Hcopy _ h l Hh ltac:(by rewrite <- Heq)). assert (Hl' := Hcopy _ h' l' Hh' ltac:(by rewrite <- Heq')).
      destruct h as [h1 h2], h' as [h1' h2'], Hl as (m & Hm & Hp & ->), Hl' as (m' & Hm' & Hp' & ->).
      cbn in Hp, Hp', Hm, Hm'. subst h2 h2'.
      split; [|by intros Hno]. intros [= _ Hfd].
      assert ((i - length hs)%nat <> (j - length hs)%nat) as Hij by lia.
      destruct (Ha _ _ _ _ _ _ Hij Hh Hh') as [Hfds _]. apply Hfds. cbn. by rewrite Hp, Hp', Hfd.
  - intros i j c c' l m. by apply (fork_lent k hs pid child i j).
Qed.

Lemma all_lost_fork hs hs' pid child : all_lost (hs ++ (fork_holder pid child <$> hs')) = all_lost hs.
Proof.
  rewrite all_lost_app. enough (all_lost (fork_holder pid child <$> hs') = 0%nat) by lia.
  induction hs' as [|h hs' IH]; [done|]. rewrite fmap_cons, all_lost_cons, IH. unfold fork_holder, fork_client. cbn.
  destruct (c_pid h.1 =? pid); [|done]. by destruct (c_job h.1).
Qed.

Lemma fork_clients pid child hs : (fork_holder pid child <$> hs).*1 = fork_client pid child <$> hs.*1.
Proof. by rewrite <- !list_fmap_compose. Qed.

(** ** Stray releases

    A child that unlocks the description [d] of its copy takes the lock from the one
    invocation that holds [d], whose job is a permit's, and from nobody else. *)
Definition freed (d : nat) (k : Kernel) : Kernel :=
  with_flocks k (filter (fun item => item.2 <> d) (k_flocks k)).

Lemma freed_ok d k : ok_kernel k -> ok_kernel (freed d k).
Proof. intros [Hf Hn Hl Hp Hr]. split; cbn; [done..| |done|done]. intros p e [H' _]%map_lookup_filter_Some. by apply Hl. Qed.

Lemma freed_kept d k pid l :
  lease_ok lock_guard_path lock_path k pid l -> (locked (l_stage l) -> l_description l <> d) ->
  lease_ok lock_guard_path lock_path (freed d k) pid l.
Proof.
  intros Hl Hd. apply (lease_kept lock_guard_path lock_path k); [done..| |done].
  intros Hs. cbn. rewrite (lo_lock _ _ _ _ _ Hl Hs). apply map_lookup_filter_Some.
  split; [by apply (lo_lock _ _ _ _ _ Hl)|by apply Hd].
Qed.

Lemma freed_job pid job l :
  job_ok pid job (Some l) -> permits job = true -> own (l_stage l) -> job_ok pid job (Some (staged l Opened)).
Proof.
  destruct job as [| | | | | | |dir count permit|p| | |]; try done; cbn; intros Hj _ Ho.
  - unfold keeps_slot in *. destruct (wp_fd permit); [|done]. destruct Hj as (Hs & d & s & _ & [= ->]).
    split; [done|]. exists d, Opened. auto.
  - split; [apply Hj|]. by intros x [= <-].
Qed.

Lemma invariant_freed k hs d i c l :
  invariant k hs -> hs !! i = Some (c, Some l) -> own (l_stage l) -> l_description l = d ->
  permits (c_job c) = true -> invariant (freed d k) (<[i := (c, Some (staged l Opened))]> hs).
Proof.
  intros [Hk Hj Ha Hn] Hi Ho <- Hp. pose proof (lookup_lt_Some _ _ _ Hi) as Hlt. destruct (Hj _ _ _ Hi) as [Hjob Hg].
  assert (forall j c' g', (<[i := (c, Some (staged l Opened))]> hs) !! j = Some (c', g') ->
    exists g0, hs !! j = Some (c', g0)
      /\ (g' = g0 /\ i <> j \/ i = j /\ g0 = Some l /\ g' = Some (staged l Opened))) as Hold.
  { intros j c' g'. destruct (decide (i = j)) as [<-|Hne].
    - rewrite list_lookup_insert_eq by done. intros [= <- <-]. eauto 6.
    - rewrite list_lookup_insert_ne by done. eauto 6. }
  split; [by apply freed_ok|..].
  - intros j c' g' (g0 & Hj' & [[-> Hne]|(<- & -> & ->)])%Hold.
    + destruct (Hj _ _ _ Hj') as [Hjob' Hg']. split; [done|]. destruct g0 as [m|]; [|done]. apply freed_kept; [done|].
      intros Hlk. apply not_eq_sym. destruct (Ha _ _ _ _ _ _ Hne Hi Hj') as [_ Hd]. by apply Hd, locked_own.
    + rewrite Hi in Hj'. injection Hj' as <-. split; [by apply freed_job|].
      apply freed_kept; [|done]. split; [apply Hg|apply Hg|done|done].
  - intros j1 j2 c1 c2 g1 g2 Hne (h1 & H1 & Hc1)%Hold (h2 & H2 & Hc2)%Hold. specialize (Ha _ _ _ _ _ _ Hne H1 H2).
    unfold apart in *. cbn in *.
    destruct Hc1 as [[-> _]|(_ & -> & ->)], Hc2 as [[-> _]|(_ & -> & ->)]; repeat case_match; simplify_eq/=; naive_solver.
  - intros j1 j2 c1 c2 l1 l2 (h1 & H1 & Hc1)%Hold Ho1 (h2 & H2 & Hc2)%Hold Hl Hd.
    destruct Hc1 as [[<- _]|(<- & -> & [= ->])]; [|by rewrite Hi in H1; injection H1 as <-].
    destruct Hc2 as [[<- _]|(<- & -> & [= ->])]; [by eapply (Hn j1 j2)|by eapply (Hn j1 i)].
Qed.

(** Whoever holds [d], if anybody does. *)
Lemma invariant_stray k hs d :
  invariant k hs ->
  (forall i c l, hs !! i = Some (c, Some l) -> own (l_stage l) -> l_description l = d -> permits (c_job c) = true) ->
  exists hs', invariant (freed d k) hs' /\ hs'.*1 = hs.*1 /\ (all_lost hs' <= S (all_lost hs))%nat
    /\ forall j c m, hs !! j = Some (c, Some m) -> l_stage m = Copied -> hs' !! j = Some (c, Some m).
Proof.
  intros Hinv Hp.
  set (P := fun h : Client * option Lease =>
              match h.2 with Some l => own (l_stage l) /\ l_description l = d | None => False end).
  assert (forall h, Decision (P h)) as Hdec by (intros [c [l|]]; apply _).
  destruct (list_find P hs) as [[i [c g]]|] eqn:E.
  - apply list_find_Some in E as (Hi & HP & _). destruct g as [l|]; [|done]. destruct HP as [Ho Hd]. cbn in Ho, Hd.
    exists (<[i := (c, Some (staged l Opened))]> hs). split_and!.
    + apply invariant_freed; [done..|]. by eapply Hp.
    + rewrite list_fmap_insert. cbn. apply list_insert_id. by rewrite list_lookup_fmap, Hi.
    + pose proof (all_lost_insert hs i c (Some (staged l Opened))). destruct (lost _ _); lia.
    + intros j c' m Hj Hm. destruct (decide (i = j)) as [<-|Hne]; [|by rewrite list_lookup_insert_ne].
      rewrite Hi in Hj. injection Hj as <- <-. by destruct Ho.
  - apply list_find_None in E. rewrite Forall_lookup in E. exists hs. split_and!; [|done|lia|done].
    eapply invariant_same; [done|apply freed_ok, Hinv|]. intros i c l Hi Hl. apply freed_kept; [done|].
    intros Hlk Hd. apply (E _ _ Hi). split; [by apply locked_own|done].
Qed.

(** The call itself. *)
Lemma stray_step k hs i c g job' k' :
  invariant k hs -> hs !! i = Some (c, g) ->
  job_step resolve (c_pid c) k (c_job c) job' k' -> job_strays (c_job c) <> O ->
  exists hs', invariant k' hs' /\ hs'.*1 = <[i := {| c_pid := c_pid c; c_job := job' |}]> hs.*1
    /\ (all_lost hs' <= S (all_lost hs))%nat.
Proof.
  intros Hinv Hi Hs Hstray. pose proof (job_flow _ _ _ _ _ Hs) as Hflow.
  destruct (iv_job _ _ Hinv _ _ _ Hi) as [Hjob Hg].
  assert (exists p p', c_job c = Undoing p /\ job' = Undoing p' /\ prog_step (c_pid c) k p p' k') as (p & p' & Hp & -> & Hstep).
  { destruct (c_job c) as [| | | | | | | | | |p|]; try done. inversion Hs; subst; [by eauto|done]. }
  rewrite Hp in Hjob, Hstray. destruct Hjob as [Hr Hc]. destruct g as [x|]; [|by destruct Hr as [r ->]].
  destruct Hr as [(permit & Hfd & ->)| ->]; [|done].
  unfold release in *. rewrite Hfd in *. destruct Hstep as (r & Hr & ->). cbn in Hc.
  set (c' := {| c_pid := c_pid c; c_job := _ |}).
  assert (forall k hs, invariant k hs -> hs !! i = Some (c, Some x) -> invariant k (<[i := (c', Some x)]> hs)) as Hset.
  { intros k0 hs0 Hinv0 Hi0. apply (invariant_insert k0 k0 hs0 i c (Some x)); [done|done|exact Hflow| |].
    - split; [|done]. right. destruct r as [[]|e]; [done|]. by destruct Hr as [-> _].
    - apply keeps_same; [apply Hinv0|]. by apply (iv_job _ _ Hinv0 i). }
  assert (forall hs0, (all_lost (<[i := (c', Some x)]> hs0) <= all_lost hs0)%nat) as Hlost.
  { intros hs0. pose proof (all_lost_insert hs0 i c' (Some x)) as Hle. cbn in Hle. lia. }
  destruct r as [[]|e]; cbn in Hr.
  - assert (k' = freed (l_description x) k) as ->.
    { rewrite Hr. unfold unlock. by rewrite (lo_fd _ _ _ _ _ Hg). }
    destruct (invariant_stray k hs (l_description x) Hinv) as (hs' & Hinv' & Hcs & Hle & Hkeep).
    { intros j cj l Hj Ho Hd. eapply (iv_lent _ _ Hinv j i); [done|done|exact Hi|by rewrite Hp|done]. }
    exists (<[i := (c', Some x)]> hs'). split_and!; [by apply Hset, Hkeep|by rewrite list_fmap_insert, Hcs|].
    specialize (Hlost hs'). lia.
  - destruct Hr as [_ ->]. exists (<[i := (c', Some x)]> hs).
    split_and!; [by apply Hset|by rewrite list_fmap_insert|]. specialize (Hlost hs). lia.
Qed.

(** Any call. *)
Lemma invariant_step k hs i c g job' k' :
  invariant k hs -> hs !! i = Some (c, g) -> is_Some (k_procs k !! c_pid c) ->
  job_step resolve (c_pid c) k (c_job c) job' k' ->
  exists hs', invariant k' hs' /\ hs'.*1 = <[i := {| c_pid := c_pid c; c_job := job' |}]> hs.*1
    /\ (all_lost hs' <= all_lost hs + job_strays (c_job c))%nat.
Proof.
  intros Hinv Hi Hlive Hs. destruct (decide (job_strays (c_job c) = 0)%nat) as [Hn|Hn].
  - destruct (iv_job _ _ Hinv _ _ _ Hi) as [Hjob Hg].
    destruct (job_step_keeps _ _ _ _ _ _ (iv_kernel _ _ Hinv) Hlive Hg Hjob Hs Hn) as (g' & [Hjob' Hl] & Hkeep).
    exists (<[i := ({| c_pid := c_pid c; c_job := job' |}, g')]> hs). split_and!.
    + eapply invariant_insert; [done|done|by eapply job_flow|done|done].
    + by rewrite list_fmap_insert.
    + pose proof (all_lost_insert hs i {| c_pid := c_pid c; c_job := job' |} g') as Hle. cbn in Hle. rewrite Hl in Hle. lia.
  - destruct (stray_step k hs i c g job' k' Hinv Hi Hs Hn) as (hs' & ? & ? & ?).
    exists hs'. split_and!; [done..|lia].
Qed.

(** Every world that can be reached has an owner for everything. *)
Lemma reachable_holders w :
  reachable resolve w ->
  exists hs, invariant (kernel w) hs /\ clients w = hs.*1 /\ (all_lost hs <= strays w)%nat.
Proof.
  intros (w0 & (Hcs & Hf & Hp & Hl & Hr) & Hsteps).
  assert (exists hs, invariant (kernel w0) hs /\ clients w0 = hs.*1 /\ (all_lost hs <= strays w0)%nat) as Hinv.
  { exists []. split; [|split; [done|cbn; lia]]. split; [|done..].
    split; rewrite ?Hf, ?Hp, ?Hl; try (intros *; by rewrite lookup_empty); [done..|]. apply Hr. }
  clear Hcs Hf Hp Hl Hr. induction Hsteps as [|w0 w1 w2 Hs _ IH]; [done|]. apply IH. clear IH.
  destruct Hinv as (hs & Hinv & Hcs & Hle).
  destruct Hs as [k cs n pid stat Hpos Hnone|k cs n pid|k cs n pid child stat Hlive Hpos Hnone
                 |k cs n pid root instance steal Hlive|k cs n pid dir cpus limit Hlive
                 |k cs n i pid job job' k' Hi Hlive Hs]; cbn in *; subst cs.
  - exists hs. split; [|done]. eapply invariant_same; [done|..].
    + apply procs_kernel; [apply Hinv|]. intros p [s Hs]. rewrite lookup_insert_ne by congruence. by exists s.
    + intros i c l _ Hl. by apply lease_with_procs.
  - exists (end_holder pid <$> hs). split; [by apply invariant_kill|]. split; [by rewrite <- !list_fmap_compose|].
    pose proof (all_lost_kill hs pid). lia.
  - exists (hs ++ (fork_holder pid child <$> hs)). split; [by apply invariant_fork|].
    by rewrite fmap_app, fork_clients, all_lost_fork.
  - eexists (hs ++ [(_, None)]). rewrite fmap_app, all_lost_app. split; [|split; [done|cbn; lia]].
    apply invariant_add; [done|]. cbn [c_pid c_job job_ok].
    eapply safe_mono; [|apply acquire_safe]. intros [l|e] g Hg; [by eexists|done].
  - eexists (hs ++ [(_, None)]). rewrite fmap_app, all_lost_app. split; [|split; [done|cbn; lia]].
    by apply invariant_add.
  - rewrite list_lookup_fmap in Hi. apply fmap_Some in Hi as ([c g] & Hi & Hc). cbn in Hc. subst c.
    destruct (invariant_step k hs i _ g job' k' Hinv Hi Hlive Hs) as (hs' & Hinv' & Hcs' & Hle').
    exists hs'. split_and!; [done|done|]. cbn in Hle'. lia.
Qed.

Lemma reachable_invariant w :
  reachable resolve w -> exists hs, invariant (kernel w) hs /\ clients w = hs.*1.
Proof. intros (hs & ? & ? & _)%reachable_holders. by exists hs. Qed.

(** A writer's handle is backed by its lease. *)
Lemma writer_holds i c l k hs g :
  invariant k hs -> hs !! i = Some (c, g) -> writes c l ->
  exists root, holds (c_pid c) root l g /\ held_lock k (c_pid c) g.
Proof.
  intros Hinv Hi [Hjob Ho]. destruct (iv_job _ _ Hinv _ _ _ Hi) as [Hj Hg].
  assert (handle_ok (c_pid c) l g) as Hh.
  { destruct Hjob as [Hjob|(r & p & Hjob)]; rewrite Hjob in Hj; apply Hj. }
  destruct (handle_owned _ _ _ Hh Ho) as [root Hr]. by exists root.
Qed.

Lemma client_holder w (hs : list (Client * option Lease)) i c : clients w = hs.*1 -> clients w !! i = Some c -> exists g, hs !! i = Some (c, g).
Proof. intros ->. rewrite list_lookup_fmap. intros ([c' g] & Hi & ->)%fmap_Some. by exists g. Qed.

(** C18.  A workspace has one writer.  On a host where processes start, fork and die at any
    moment and invocations interleave call by call, an invocation whose handle passes the
    ownership check is the only one of its workspace, in its own process and in all
    others; the record on disk is its own; and a validation passes for nobody else, and
    for it unless the record cannot be read. *)
Theorem single_writer w i c l :
  reachable resolve w -> clients w !! i = Some c -> writes c l ->
  k_files (kernel w) !! lock_path (workspace_root l) = Some (JObj (to_dict l))
  /\ (forall j c' l', clients w !! j = Some c' -> writes c' l' -> workspace_root l' = workspace_root l -> j = i)
  /\ (forall root r, c_job c = Validating l root (Done r) -> resolve root = workspace_root l ->
        json_finite (JObj (to_dict l)) = true -> r = Ok tt \/ r = Raise OSError)
  /\ (forall j c' l' root, clients w !! j = Some c' -> c_job c' = Validating l' root (Done (Ok tt)) ->
        resolve root = workspace_root l -> j = i).
Proof.
  intros Hw Hc Hwrites. destruct (reachable_invariant w Hw) as (hs & Hinv & Hcs).
  destruct (client_holder _ _ _ _ Hcs Hc) as [g Hi].
  destruct (writer_holds _ _ _ _ _ _ Hinv Hi Hwrites) as (root & (Hp & Hr & Hu & fd & d & Hfd & Hl & ->) & Hg).
  subst root. cbn in Hg.
  assert (forall j c' l', clients w !! j = Some c' -> writes c' l' -> workspace_root l' = workspace_root l -> j = i) as Hone.
  { intros j c' l' Hc' Hwrites' Hroot. destruct (decide (j = i)) as [|Hne]; [done|]. exfalso.
    destruct (client_holder _ _ _ _ Hcs Hc') as [g' Hj].
    destruct (writer_holds _ _ _ _ _ _ Hinv Hj Hwrites') as (root & (_ & Hr' & _ & fd' & d' & _ & _ & ->) & Hg').
    subst root. cbn in Hg'. rewrite Hroot in Hg', Hj.
    destruct (iv_apart _ _ Hinv _ _ _ _ _ _ Hne Hj Hi) as [_ Hd]. apply Hd; [done..|].
    pose proof (lo_lock _ _ _ _ _ Hg I) as H1. pose proof (lo_lock _ _ _ _ _ Hg' I) as H2. cbn in *. congruence. }
  split; [by apply (lo_record _ _ _ _ _ Hg)|]. split; [exact Hone|]. split.
  - intros root r Hjob Hroot Hfin. destruct (iv_job _ _ Hinv _ _ _ Hi) as [Hj _]. rewrite Hjob in Hj.
    destruct Hj as (_ & _ & _ & Hv). apply Hv; [apply Hwrites|done..].
  - intros j c' l' root Hc' Hjob Hroot. destruct (client_holder _ _ _ _ Hcs Hc') as [g' Hj].
    destruct (iv_job _ _ Hinv _ _ _ Hj) as [Hj' _]. rewrite Hjob in Hj'. destruct Hj' as (_ & _ & Hv & _).
    destruct (Hv eq_refl) as [Ho Hroot']. apply (Hone j c' l'); [done| |congruence].
    split; [right; by eexists _, _|done].
Qed.

(** An invocation that was admitted to a slot of [dir], under a count of [limit] at most. *)
Definition admitted_to (dir : string) (limit : nat) (c : Client) : Prop :=
  exists count permit, c_job c = Permitted dir count permit /\ wp_fd permit <> None /\ count <= Z.of_nat limit.

(** Those whose slot is locked hold different slots. *)
Lemma locked_bounded k hs (ids : list nat) dir (limit : nat) :
  invariant k hs -> NoDup ids ->
  (forall i, i ∈ ids -> exists c g, hs !! i = Some (c, g) /\ admitted_to dir limit c /\ lost (c_job c) g = false) ->
  (length ids <= limit)%nat.
Proof.
  intros Hinv Hnd Hids.
  set (slot_of := fun i => match (fun h => c_job h.1) <$> hs !! i with Some (Permitted _ _ permit) => wp_slot permit | _ => 0 end).
  assert (forall i, i ∈ ids -> exists c fd d, 0 <= slot_of i < Z.of_nat limit /\ hs !! i = Some (c,
      Some {| l_fd := fd; l_description := d; l_path := slot_path dir (slot_of i); l_stage := Locked |})) as Hslots.
  { intros i Hi. destruct (Hids i Hi) as (c & g & Hg & (count & permit & Hjob & Hfd & Hcount) & Hl).
    destruct (iv_job _ _ Hinv _ _ _ Hg) as [Hj _].
    unfold slot_of. rewrite Hg. cbn [fmap option_fmap option_map fst]. rewrite Hjob in Hj, Hl |- *. cbn in Hj. unfold keeps_slot in Hj.
    destruct (wp_fd permit) as [fd|]; [|done]. destruct Hj as (Hslot & d & s & [-> | ->] & ->); [|done].
    exists c, fd, d. split; [lia|done]. }
  rewrite <- (length_fmap slot_of), <- (Nat2Z.id limit), <- (length_seqZ 0 (Z.of_nat limit)).
  apply submseteq_length, NoDup_submseteq.
  - apply NoDup_fmap_2_strong; [|done]. intros i j Hi Hj Heq. destruct (decide (i = j)) as [|Hne]; [done|]. exfalso.
    destruct (Hslots i Hi) as (c & fd & d & _ & Hh), (Hslots j Hj) as (c' & fd' & d' & _ & Hh').
    rewrite <- Heq in Hh'. destruct (iv_apart _ _ Hinv _ _ _ _ _ _ Hne Hh Hh') as [_ Hd]. apply Hd; [done..|].
    destruct (iv_job _ _ Hinv _ _ _ Hh) as [_ Hg], (iv_job _ _ Hinv _ _ _ Hh') as [_ Hg'].
    pose proof (lo_lock _ _ _ _ _ Hg I) as H1. pose proof (lo_lock _ _ _ _ _ Hg' I) as H2. cbn in *. congruence.
  - intros s (i & -> & Hi)%list_elem_of_fmap. destruct (Hslots i Hi) as (_ & _ & _ & Hs & _).
    apply elem_of_seqZ. lia.
Qed.

(** The others are among the lost. *)
Lemma lost_bounded (ids : list nat) hs :
  NoDup ids -> (forall i, i ∈ ids -> exists c g, hs !! i = Some (c, g) /\ lost (c_job c) g = true) ->
  (length ids <= all_lost hs)%nat.
Proof.
  intros Hnd. revert hs. induction Hnd as [|i ids Hi _ IH]; intros hs Hids; [cbn; lia|].
  destruct (Hids i) as (c & g & Hg & Hl); [by left|]. cbn.
  assert (all_lost hs = S (all_lost (<[i := (c, None)]> hs))) as ->.
  { rewrite insert_take_drop by by eapply lookup_lt_Some. rewrite <- (take_drop_middle _ _ _ Hg) at 1.
    rewrite !all_lost_app, !all_lost_cons. cbn [fst snd]. rewrite Hl. destruct (c_job c); cbn; lia. }
  apply le_n_S, IH. intros j Hj. assert (i <> j) by congruence. rewrite list_lookup_insert_ne by done.
  apply Hids. by right.
Qed.

(** C20.  A pool of permits keeps its bound, but for what forked children undo.  Whatever is
    interleaved and whoever forks or dies, the invocations admitted to the slots of one
    directory, of whatever process and whatever limit they were given, are no more than
    the largest of those limits and one for each unlock through a child's copy of a
    permit.  (A copy shares the open description of its parent's, and no fork hook drops
    it, so a child that releases it frees the parent's slot; where no child does, the
    limit is the bound.) *)
Theorem permits_bounded w (ids : list nat) dir (limit : nat) :
  reachable resolve w -> NoDup ids ->
  (forall i, i ∈ ids -> exists c, clients w !! i = Some c /\ admitted_to dir limit c) ->
  (length ids <= limit + strays w)%nat.
Proof.
  intros Hw Hnd Hids. destruct (reachable_holders w Hw) as (hs & Hinv & Hcs & Hle).
  set (gone := fun i => match hs !! i with Some (c, g) => lost (c_job c) g | None => false end).
  pose proof (List.filter_length gone ids) as Hlen.
  assert (forall f : nat -> bool, NoDup (List.filter f ids)) as Hnd'.
  { intros f. apply NoDup_ListNoDup, List.NoDup_filter. by apply NoDup_ListNoDup. }
  assert (forall i f, i ∈ List.filter f ids -> f i = true /\ exists c g, hs !! i = Some (c, g) /\ admitted_to dir limit c) as Hin.
  { intros i f [Hi Hf]%list_elem_of_In%List.filter_In. split; [done|]. apply list_elem_of_In in Hi.
    destruct (Hids i Hi) as (c & Hc & Ha). destruct (client_holder _ _ _ _ Hcs Hc) as [g Hg]. eauto. }
  assert (length (List.filter gone ids) <= all_lost hs)%nat.
  { apply lost_bounded; [done|]. intros i (Hf & c & g & Hg & _)%Hin. exists c, g. split; [done|].
    unfold gone in Hf. by rewrite Hg in Hf. }
  assert (length (List.filter (fun i => negb (gone i)) ids) <= limit)%nat.
  { eapply locked_bounded; [exact Hinv|done|]. intros i (Hf & c & g & Hg & Ha)%Hin. exists c, g. split_and!; [done..|].
    unfold gone in Hf. rewrite Hg in Hf. by destruct (lost _ _). }
  lia.
Qed.

(** ** Availability *)

(** Run alone and without a failing call, [p] ends as [Q] says, whatever else the system
    leaves open. *)
Fixpoint solo (pid : Z) (k : Kernel) {A} (p : Prog A) (Q : result A -> Kernel -> Prop) : Prop :=
  match p with
  | Done r => Q r k
  | Do s c =>
      (exists a k', answers pid k s a k') /\ forall a k', answers pid k s a k' -> solo pid k' (c (Ok a)) Q
  end.

Lemma solo_then {A B} pid (p : Prog A) (f : result A -> Prog B) k Q :
  solo pid k p (fun r k' => solo pid k' (f r) Q) -> solo pid k (prog_then p f) Q.
Proof.
  revert k. induction p as [r|R s c IH]; intros k; cbn; [done|]. intros [He Ha]. split; [done|].
  intros a k' Hs. by apply IH, Ha.
Qed.

Lemma solo_bind {A B} pid (p : Prog A) (f : A -> Prog B) k Q :
  solo pid k p (fun r k' => solo pid k' (match r with Ok a => f a | Raise e => raise e end) Q) ->
  solo pid k (prog_bind p f) Q.
Proof. apply solo_then. Qed.

Lemma solo_dirs pid k root Q : Q (Ok tt) k -> solo pid k (ensure_runtime_dirs root) Q.
Proof. intros HQ. repeat (split; [by exists tt, k|]; intros [] ? ->). exact HQ. Qed.

Lemma solo_start pid k p (Q : result (option float) -> Kernel -> Prop) :
  (forall x, Q (Ok x) k) -> solo pid k (pid_start_time p) Q.
Proof.
  intros HQ. unfold pid_start_time. destruct (p <=? 0); [apply HQ|]. unfold or_else.
  split; [by eexists _, _|]. intros raw k' [-> _]. destruct raw as [raw|]; [|apply HQ]. cbn.
  destruct (stat_start_time raw) as [x|]; [apply HQ|]. split; [by exists None, k|]. intros a k' ->. apply HQ.
Qed.

Lemma free_fd k pid : exists fd, 0 <= fd /\ k_fds k !! (pid, fd) = None.
Proof.
  set (X := list_to_set ((fun item => Z.to_nat item.1.2) <$> map_to_list (k_fds k)) : gset nat).
  exists (Z.of_nat (fresh X)). split; [lia|]. destruct (k_fds k !! _) as [d|] eqn:E; [|done].
  destruct (is_fresh X). apply elem_of_list_to_set, list_elem_of_fmap. exists ((pid, Z.of_nat (fresh X)), d).
  split; [cbn; lia|]. by apply elem_of_map_to_list.
Qed.

Lemma solo_publish pid k root instance fd (Q : result WorkspaceLock -> Kernel -> Prop) :
  (forall l, lk_pid l = pid -> lk_lease l = Some fd -> workspace_root l = root ->
     Q (Ok l) (with_files k (<[lock_path root := JObj (to_dict l)]> (k_files k)))) ->
  solo pid k (publish root instance fd) Q.
Proof.
  intros HQ. unfold publish. split; [by exists pid, k|]. intros p k' [-> ->]. split; [by exists "", k|].
  intros now k' ->. split; [by exists pid, k|]. intros p k' [-> ->]. apply solo_bind, solo_start. intros start.
  split; [by exists "u", k|]. intros owner k' [-> _]. split; [by eexists tt, _|]. intros [] k' ->. by apply HQ.
Qed.

(** C19.  What a dead process leaves keeps nobody out.  When no process has the guard of a
    workspace open any more, however those that had it ended and whatever record they
    left, an acquisition that may take over a stale record, run alone, succeeds: its
    handle passes the ownership check and the record is its own. *)
Theorem stale_lock_taken_over w pid root instance :
  reachable resolve w ->
  (forall x d, k_fds (kernel w) !! x = Some d -> k_paths (kernel w) !! d <> Some (lock_guard_path (resolve root))) ->
  solo pid (kernel w) (acquire_workspace_lock resolve root instance true) (fun r k' =>
    exists l, r = Ok l /\ owned_lease pid l = true /\ workspace_root l = resolve root
      /\ k_files k' !! lock_path (resolve root) = Some (JObj (to_dict l))).
Proof.
  intros Hw Hnone. destruct (reachable_invariant w Hw) as (hs & [Hk _ _] & _).
  set (k := kernel w) in *. unfold acquire_workspace_lock. apply solo_bind, solo_dirs.
  split. { destruct (free_fd k pid) as (fd & Hfd & Hfree). by eexists fd, _. }
  intros fd k1 (Hfd & Hfree & ->). cbn [prog_then]. unfold on_failure. apply solo_then. unfold take.
  assert (flock (open_file k pid fd (lock_guard_path (resolve root))) pid fd
          = Some (true, with_flocks (open_file k pid fd (lock_guard_path (resolve root)))
                          (<[lock_guard_path (resolve root) := k_next k]> (k_flocks k)))) as Hflock.
  { unfold flock. cbn. rewrite lookup_insert_eq, lookup_insert_eq.
    destruct (k_flocks k !! _) as [d|] eqn:E; [|done].
    destruct (ko_flocks _ _ _ Hk _ _ E) as [Hp [x Hx]%referenced_spec]. by destruct (Hnone x d Hx). }
  split; [by eexists _, _|]. intros got k2 Hgot.
  assert (answers pid (open_file k pid fd (lock_guard_path (resolve root))) (Flock fd) got k2) as Hgot' by exact Hgot.
  cbn in Hgot'. rewrite Hflock in Hgot'. injection Hgot' as <- <-. cbn [negb prog_then].
  split; [by eexists _, _|]. intros existing k3 [-> ->]. cbn [prog_then].
  apply solo_bind.
  assert (forall Q : result unit -> Kernel -> Prop, forall k', Q (Ok tt) k' ->
    solo pid k' (match k_files k !! lock_path (resolve root) with
                 | None => ret tt
                 | Some body => prog_bind (Done (from_dict body)) (fun prior => refused prior true)
                 end) Q) as Hrefused.
  { intros Q k' HQ. destruct (k_files k !! _) as [body|] eqn:E; [|exact HQ].
    destruct (ko_files _ _ _ Hk _ _ E) as (prior & -> & Hrec). cbn. unfold refused. rewrite Hrec. exact HQ. }
  apply Hrefused. apply solo_publish. intros l Hp Hl Hr. exists l. split; [done|]. split; [|split; [done|]].
  - unfold owned_lease. rewrite Hl, Hp, Z.eqb_refl. by rewrite (proj2 (Z.leb_le 0 fd) Hfd).
  - cbn. by rewrite lookup_insert_eq.
Qed.
End Interleavings.

(** ** A host of two processes *)
Module HostWitness.
#[local] Existing Instance plain_conv.
#[local] Existing Instance no_float_text.

(** One answer of the system. *)
Definition exec (pid : Z) (k : Kernel) {R} (s : Sys R) : option (R * Kernel) :=
  match s in Sys R return option (R * Kernel) with
  | MakeDirs _ => Some (tt, k)
  | OpenFile path =>
      let fd := Z.of_nat (k_next k) in
      match k_fds k !! (pid, fd) with None => Some (fd, open_file k pid fd path) | Some _ => None end
  | Flock fd => flock k pid fd
  | Unlock fd => Some (tt, unlock k pid fd)
  | Close fd => Some (tt, close_fd k pid fd)
  | ReadJson key => Some (k_files k !! key, k)
  | WriteJson key v => Some (tt, with_files k (<[key := v]> (k_files k)))
  | DeleteKey key => Some (tt, with_files k (delete key (k_files k)))
  | Getpid => Some (pid, k)
  | Kill0 p => Some (match k_procs k !! p with Some _ => Delivered | None => NoSuchProcess end, k)
  | ReadStat p => Some (k_procs k !! p, k)
  | CreateTime _ => Some (None, k)
  | NowIso => Some ("2026-01-01T00:00:00Z", k)
  | Uuid => Some ("owner", k)
  end.

Lemma exec_answers pid k {R} (s : Sys R) a k' : exec pid k s = Some (a, k') -> answers pid k s a k'.
Proof.
  destruct s; cbn; try (by intros [= <- <-]).
  - destruct (k_fds k !! _) eqn:E; [done|]. intros [= <- <-]. split; [lia|done].
  - done.
  - intros [= <- <-]. split; [done|]. by destruct (k_procs k !! pid0).
Qed.

Lemma exec_procs pid k {R} (s : Sys R) a k' : exec pid k s = Some (a, k') -> k_procs k' = k_procs k.
Proof.
  destruct s; cbn; try (by intros [= <- <-]).
  - destruct (k_fds k !! _); [done|]. by intros [= <- <-].
  - unfold flock. repeat case_match; try done; by intros [= <- <-].
  - intros [= <- <-]. unfold unlock. by case_match.
Qed.

Fixpoint run (n : nat) (pid : Z) (k : Kernel) {A} (p : Prog A) : Prog A * Kernel :=
  match n, p with
  | S n, Do s c =>
      match exec pid k s with Some (a, k') => run n pid k' (c (Ok a)) | None => (p, k) end
  | _, _ => (p, k)
  end.

Section Run.
Context (resolve : string -> string).

Lemma one_step k cs n i pid job job' k' cs' n' :
  cs !! i = Some {| c_pid := pid; c_job := job |} -> is_Some (k_procs k !! pid) ->
  job_step resolve pid k job job' k' -> cs' = <[i := {| c_pid := pid; c_job := job' |}]> cs ->
  n' = (n + job_strays job)%nat ->
  step resolve {| kernel := k; clients := cs; strays := n |} {| kernel := k'; clients := cs'; strays := n' |}.
Proof. intros Hi Hlive Hs -> ->. by eapply w_job. Qed.

(** An invocation that runs alone for a while. *)
Lemma run_steps {A} (job : Prog A -> Job) fuel pid k cs n i p :
  (forall k p p' k', prog_step pid k p p' k' -> job_step resolve pid k (job p) (job p') k') ->
  (forall p, job_strays (job p) = 0%nat) ->
  cs !! i = Some {| c_pid := pid; c_job := job p |} -> is_Some (k_procs k !! pid) ->
  rtc (step resolve) {| kernel := k; clients := cs; strays := n |}
    {| kernel := (run fuel pid k p).2;
       clients := <[i := {| c_pid := pid; c_job := job (run fuel pid k p).1 |}]> cs; strays := n |}.
Proof.
  intros Hjob Hz. revert k cs p. induction fuel as [|fuel IH]; intros k cs p Hi Hlive.
  { cbn. by rewrite list_insert_id. }
  destruct p as [r|R s c]; cbn; [by rewrite list_insert_id|].
  destruct (exec pid k s) as [[a k']|] eqn:E; [|cbn; by rewrite list_insert_id].
  eapply rtc_l.
  - eapply (one_step k cs n i pid _ (job (c (Ok a))) k' _ n Hi Hlive); [|done|rewrite Hz; lia].
    apply Hjob. exists (Ok a). split; [by apply exec_answers|done].
  - pose proof (IH k' (<[i := {| c_pid := pid; c_job := job (c (Ok a)) |}]> cs) (c (Ok a))) as Hrun.
    rewrite list_insert_insert_eq in Hrun. apply Hrun.
    + apply list_lookup_insert_eq. by eapply lookup_lt_Some.
    + by rewrite (exec_procs _ _ _ _ _ E).
Qed.
End Run.

Definition empty_kernel : Kernel := {|
  k_fds := ∅; k_paths := ∅; k_flocks := ∅; k_next := 3; k_procs := {[7 := "7 (zicato) S"; 8 := "8 (zicato) S"]};
  k_files := ∅ |}.
Definition boot : World := {| kernel := empty_kernel; clients := []; strays := 0 |}.
Definition same (path : string) : string := path.

Definition acquiring (pid : Z) : Client :=
  {| c_pid := pid; c_job := Acquiring (acquire_workspace_lock same "/w" "evolve" true) |}.
Definition after (k : Kernel) (pid : Z) : Prog WorkspaceLock * Kernel :=
  run 20 pid k (acquire_workspace_lock same "/w" "evolve" true).

Lemma boot_booted : booted boot.
Proof. repeat split. intros root v Hv. cbn in Hv. by rewrite lookup_empty in Hv. Qed.

(** Process 7 acquires the workspace and holds it. *)
Definition writer : WorkspaceLock := {|
  lk_pid := 7; instance_id := "evolve"; acquired_at := "2026-01-01T00:00:00Z"; workspace_root := "/w";
  start_time := None; owner_id := JStr "owner"; lk_lease := Some 3 |}.
Definition holding : World :=
  {| kernel := (after empty_kernel 7).2; clients := [{| c_pid := 7; c_job := Holding writer |}]; strays := 0 |}.

Lemma holding_reachable : reachable same holding.
Proof.
  exists boot. split; [apply boot_booted|].
  eapply rtc_l; [apply (w_acquire _ empty_kernel [] 0 7 "/w" "evolve" true); by eexists|].
  etransitivity; [apply (run_steps same Acquiring 20 7 empty_kernel [acquiring 7] 0 0); [|done|done|by eexists]|].
  - intros. by constructor.
  - assert ((after empty_kernel 7).1 = Done (Ok writer)) as Hrun by (vm_compute; reflexivity).
    apply rtc_once, (one_step same _ _ 0 0 7 (Acquiring (after empty_kernel 7).1) (Holding writer));
      [done|by vm_compute; eexists| |done|done].
    rewrite Hrun. constructor.
Qed.

Lemma single_writer_witness :
  k_files (kernel holding) !! "/w/runtime/lock.json" = Some (JObj (to_dict writer)).
Proof.
  apply (single_writer same holding 0 {| c_pid := 7; c_job := Holding writer |} writer);
    [exact holding_reachable|reflexivity|split; [left; reflexivity|reflexivity]].
Defined.

(** It dies; what it left keeps process 8 out of nothing. *)
Definition dead : World := {| kernel := kill (kernel holding) 7; clients := end_client 7 <$> clients holding; strays := 0 |}.

Lemma dead_reachable : reachable same dead.
Proof.
  destruct holding_reachable as (w & Hw & Hs). exists w. split; [done|].
  eapply rtc_r; [exact Hs|]. apply w_end.
Qed.

Lemma stale_lock_taken_over_witness :
  k_files (kernel dead) !! "/w/runtime/lock.json" = Some (JObj (to_dict writer))
  /\ solo 8 (kernel dead) (acquire_workspace_lock same "/w" "evolve" true) (fun r k' =>
       exists l, r = Ok l /\ owned_lease 8 l = true /\ workspace_root l = "/w"
         /\ k_files k' !! "/w/runtime/lock.json" = Some (JObj (to_dict l))).
Proof.
  split; [vm_compute; reflexivity|].
  apply (stale_lock_taken_over same dead 8 "/w" "evolve"); [exact dead_reachable|].
  assert (k_fds (kernel dead) = ∅) as Hfds by (vm_compute; reflexivity).
  intros x d. rewrite Hfds, lookup_empty. discriminate.
Defined.

(** A pool of one slot, with an invocation that holds it. *)
Definition permit : WorkerPermit := {| wp_fd := Some 3; wp_slot := 0 |}.
Definition turn (pid : Z) (k : Kernel) : Prog (option WorkerPermit) * Kernel :=
  run 20 pid k (permit_turn true "/permits" 1).
Definition admitted (pid : Z) (permit : WorkerPermit) : Client := {| c_pid := pid; c_job := Permitted "/permits" 1 permit |}.

(** An invocation that queues and is admitted at once. *)
Lemma admission k cs n pid permit' :
  is_Some (k_procs k !! pid) -> is_Some (k_procs (turn pid k).2 !! pid) ->
  (turn pid k).1 = Done (Ok (Some permit')) ->
  rtc (step same) {| kernel := k; clients := cs; strays := n |}
    {| kernel := (turn pid k).2; clients := cs ++ [admitted pid permit']; strays := n |}.
Proof.
  intros Hlive Hlive' Hrun.
  assert (forall c, (cs ++ [c]) !! length cs = Some c) as Hlast by (intros c; by rewrite list_lookup_middle).
  assert (forall c c', <[length cs := c']> (cs ++ [c]) = cs ++ [c']) as Hset.
  { intros c c'. rewrite insert_app_r_alt by lia. by rewrite Nat.sub_diag. }
  eapply rtc_l; [apply (w_permit _ k cs n pid "/permits" 1 (Some 1)); done|].
  eapply rtc_l.
  { eapply (one_step same _ _ _ (length cs) pid (Queueing true "/permits" 1)); [by apply Hlast|done|apply js_turn|done|].
    cbn. by rewrite Nat.add_0_r. }
  rewrite Hset. etransitivity.
  { apply (run_steps same (Turning "/permits" 1) 20 pid k _ n (length cs)); [intros; by constructor|done|by apply Hlast|done]. }
  rewrite Hset. apply rtc_once. eapply (one_step same _ _ _ (length cs) pid); [by apply Hlast|done| |by rewrite Hset|].
  - change (run 20 pid k (permit_turn true "/permits" 1)) with (turn pid k). rewrite Hrun. apply js_permitted.
  - cbn. by rewrite Nat.add_0_r.
Qed.

Definition one_admitted : World :=
  {| kernel := (turn 7 empty_kernel).2; clients := [admitted 7 permit]; strays := 0 |}.

Lemma admitted_reachable : reachable same one_admitted.
Proof.
  exists boot. split; [apply boot_booted|].
  apply (admission empty_kernel [] 0 7 permit); [by eexists|by vm_compute; eexists|vm_compute; reflexivity].
Qed.

Lemma permits_bounded_witness : (length [0%nat] <= 1 + 0)%nat.
Proof.
  apply (permits_bounded same one_admitted [0%nat] "/permits" 1);
    [exact admitted_reachable|by apply (bool_decide_unpack _); vm_compute|].
  intros i ->%list_elem_of_singleton. eexists. split; [reflexivity|]. exists 1, permit. split; [reflexivity|].
  split; [discriminate|]. lia.
Defined.

(** Process 7 forks; its child 9 releases its copy of the permit, and process 8 is admitted
    to the one slot beside process 7. *)
Definition forked : Kernel := fork (kernel one_admitted) 7 9 "9 (zicato) S".
Definition child (job : Job) : list Client := [admitted 7 permit; {| c_pid := 9; c_job := job |}].
Definition undone : Kernel := unlock forked 9 3.
Definition permit8 : WorkerPermit :=
  match (turn 8 undone).1 with Done (Ok (Some p)) => p | _ => OPEN_PERMIT end.
Definition two_admitted : World :=
  {| kernel := (turn 8 undone).2;
     clients := child (Undoing (or_else (sys (Close 3)) tt)) ++ [admitted 8 permit8]; strays := 1 |}.

Example copied_permit_frees_slot :
  reachable same two_admitted
  /\ clients two_admitted !! 0%nat = Some (admitted 7 permit)
  /\ clients two_admitted !! 2%nat = Some (admitted 8 permit8)
  /\ wp_slot permit = wp_slot permit8 /\ wp_fd permit8 <> None /\ strays two_admitted = 1%nat.
Proof.
  split; [|by vm_compute]. destruct admitted_reachable as (w & Hw & Hs). exists w. split; [done|].
  etransitivity; [exact Hs|].
  eapply rtc_l; [apply (w_fork _ _ _ _ 7 9 "9 (zicato) S"); [by vm_compute; eexists|done|vm_compute; reflexivity]|].
  assert (is_Some (k_procs forked !! 9)) as Hlive by (vm_compute; by eexists).
  eapply rtc_l.
  { eapply (one_step same forked (child (Lent permit)) 0 1 9); [done|exact Hlive|apply js_undo|done|done]. }
  eapply rtc_l.
  { eapply (one_step same forked (child (Undoing (release permit))) 0 1 9 _ _ undone); [done|exact Hlive| |done|done].
    apply js_undoing. exists (Ok tt). split; [by vm_compute|done]. }
  apply (admission undone _ 1 8 permit8); [by vm_compute; eexists|by vm_compute; eexists|vm_compute; reflexivity].
Qed.
End HostWitness.
