(* ===== verification/Elo.v ===== *)
(** The descriptive ratings of the index (src/zicato/index/elo.py): observations read off
    the rows of the tournaments, each kept once, and the grouped fit over them. *)
From S2P Require Import Prelude PyFloat PyText PyJson Records Rating PlackettLuce RatingSpec.

Definition DEFAULT_RATING : float := 1500%float.
Definition ELO_SCALE : float := 400%float.

Record EloGame := {
  eg_epoch_id : string;
  eg_tournament_id : string;
  eg_match_id : string;
  winner : string;
  loser : string;
  margin : float;
  eg_ran_at : string;
}.

Record RungEvent := {
  re_epoch_id : string;
  re_tournament_id : string;
  rung_id : string;
  survivors : list string;
  cut : list string;
  re_ran_at : string;
}.

Record EloRating := {
  el_generation_id : string;
  el_epoch_id : string;
  rating : float;
  se : float;
  games : Z;
}.

Record LineageNode := {
  ln_epoch_id : string;
  ln_generation_id : string;
  ln_parent : option string;
  ln_created_at : string;
}.

(** The unordered sides: the smaller id first. *)
Definition sides (a b : string) : string * string := if str_lt b a then (b, a) else (a, b).
Definition game_key (g : EloGame) : string * string * (string * string) :=
  (eg_tournament_id g, eg_match_id g, sides (winner g) (loser g)).
Definition rung_key (r : RungEvent) : string * string := (re_tournament_id r, rung_id r).

(** The first of each key. *)
Fixpoint dedup {A K} `{EqDecision K} (key : A -> K) (seen : list K) (l : list A) : list A :=
  match l with
  | [] => []
  | x :: l => if decide (key x ∈ seen) then dedup key seen l else x :: dedup key (key x :: seen) l
  end.

Definition _dedup_games : list EloGame -> list EloGame := dedup game_key [].
Definition _dedup_rungs : list RungEvent -> list RungEvent := dedup rung_key [].

(** ** The fold *)

Record EloFold := {
  observations : list RankGroup;
  game_count : list (string * Z);
  epoch_of : list (string * string);
}.

Definition incr (counts : list (string * Z)) (gid : string) : list (string * Z) :=
  dict_set counts gid (dict_get_or counts gid 0 + 1)%Z.

(** An observation of some generations: counted for each, their epoch noted if unknown. *)
Definition note (f : EloFold) (obs : RankGroup) (counted : bool) (epoch_id : string) : EloFold := {|
  observations := observations f ++ [obs];
  game_count := if counted then foldl incr (game_count f) (obs.1 ++ obs.2) else game_count f;
  epoch_of := if counted then foldl (fun d gid => dict_setdefault d gid epoch_id) (epoch_of f) (obs.1 ++ obs.2)
              else epoch_of f |}.

Definition game_step (f : EloFold) (g : EloGame) : EloFold :=
  if String.eqb (winner g) "" || String.eqb (loser g) "" || String.eqb (winner g) (loser g) then f
  else note f ([winner g], [loser g]) true (eg_epoch_id g).

Definition named (s : string) : bool := negb (String.eqb s "").
Definition overlap (a b : list string) : bool := existsb (fun x => bool_decide (x ∈ b)) a.
Definition uninformative (obs : RankGroup) : bool :=
  (length obs.1 =? 0) || (length obs.2 =? 0) || overlap obs.1 obs.2.
Definition rung_group (r : RungEvent) : RankGroup :=
  (List.filter named (survivors r), List.filter named (cut r)).

Definition rung_step (f : EloFold) (r : RungEvent) : EloFold :=
  let obs := rung_group r in
  if uninformative obs then f
  else note f obs (length obs.1 <=? PL_MAX_SURVIVORS) (re_epoch_id r).

Section Elo.
Context `{Libm} `{PyFormat}.

Definition ELO_PER_THETA : float := fdiv ELO_SCALE (m_log 10%float).

Definition rated (f : EloFold) (estimate : string * (float * float)) : string * EloRating :=
  let '(gid, (theta, err)) := estimate in
  (gid, {| el_generation_id := gid; el_epoch_id := dict_get_or (epoch_of f) gid "";
           rating := fadd DEFAULT_RATING (fmul theta ELO_PER_THETA); se := fmul err ELO_PER_THETA;
           games := dict_get_or (game_count f) gid 0%Z |}).

Definition elo_fold (games : list EloGame) (lineage : list (string * LineageNode)) (rungs : list RungEvent) : EloFold :=
  foldl rung_step
    (foldl game_step {| observations := []; game_count := [];
                        epoch_of := (fun item => (item.1, ln_epoch_id item.2)) <$> lineage |}
       (_dedup_games games))
    (_dedup_rungs rungs).

Definition compute_elo (games : list EloGame) (lineage : list (string * LineageNode)) (rungs : list RungEvent)
    : result (list (string * EloRating)) :=
  let f := elo_fold games lineage rungs in
  match observations f with
  | [] => Ok []
  | obs =>
      try fitted <- fit_plackett_luce obs BT_PRIOR BT_TOL BT_MAX_ITER PL_MAX_SURVIVORS;
      Ok (rated f <$> estimates fitted)
  end.
End Elo.

(** ** The rows *)
Section Rows.
Context `{PyConv} `{PyFloatParse} (json_loads : string -> option Json).
Abbreviation Row := (list (string * Json)).

Definition _safe_json (raw : Json) : Json :=
  match raw with JStr s => from_option id JNull (json_loads s) | _ => raw end.

Definition text_field (row : Row) (key : string) : string := json_str (get_or row key (JStr "")).

(** [float(value)] of a [bool], an [int] or a [float] only. *)
Definition _abs_float (value : Json) : result float :=
  match value with
  | JInt _ | JFloat _ => try x <- json_float value; Ok (if isfinite x then fabs x else f0)
  | _ => Ok f0
  end.

Fixpoint characters (s : string) : list Json :=
  match s with "" => [] | String c s => JStr (String c "") :: characters s end.

(** [for x in value] *)
Definition iterate (value : Json) : result (list Json) :=
  match value with
  | JArr l => Ok l
  | JStr s => Ok (characters s)
  | JObj d => Ok (JStr <$> d.*1)
  | _ => Raise (TypeError "object is not iterable")
  end.

Definition objects (l : list Json) : list Row := omap (fun v => match v with JObj d => Some d | _ => None end) l.

Definition get_value (row : Row) (key : string) : Json := dict_get_or row key JNull.

Definition row_game (row : Row) (match_id winner loser : string) (margin : float) : EloGame := {|
  eg_epoch_id := text_field row "epoch_id"; eg_tournament_id := text_field row "tournament_id";
  eg_match_id := match_id; winner := winner; loser := loser; margin := margin;
  eg_ran_at := text_field row "ran_at" |}.

(** One entry of a challenger's audit. *)
Definition audit_game (row : Row) (child : string) (item : Row) : result (list EloGame) :=
  let opponent := text_field item "opponent" in
  if String.eqb opponent "" then Ok []
  else
    try margin <- _abs_float (get_value item "delta_scalar");
    let '(w, l) := if truthy (get_value item "won") then (child, opponent) else (opponent, child) in
    Ok [row_game row (text_field item "match_id") w l margin].

Definition delta_negative (delta : Json) : result bool :=
  match delta with
  | JBool _ | JInt _ | JFloat _ => try x <- json_float delta; Ok (flt x f0)
  | _ => Ok false
  end.

Definition crowning_sides (row : Row) (parent child : string) : result (string * string) :=
  let decision := text_field row "decision" in
  if String.eqb decision "promoted" then Ok (child, parent)
  else if String.eqb decision "rejected" || String.eqb decision "deferred" then Ok (parent, child)
  else try better <- delta_negative (get_value row "delta_scalar");
       Ok (if better : bool then (child, parent) else (parent, child)).

Definition _games_from_crowning_row (row : Row) : result (list EloGame) :=
  let parent := text_field row "parent_generation_id" in
  let child := text_field row "child_generation_id" in
  if String.eqb parent "" || String.eqb child "" then Ok []
  else
    match _safe_json (get_value row "rounds_json") with
    | JArr (item :: items) => try found <- result_map (audit_game row child) (objects (item :: items)); Ok (concat found)
    | _ =>
        try margin <- _abs_float (get_value row "delta_scalar");
        try won <- crowning_sides row parent child;
        Ok [row_game row "" won.1 won.2 margin]
    end.

Definition names (v : Json) : result (list string) :=
  try items <- iterate v; Ok (json_str <$> List.filter truthy items).

(** One match of a bracket. *)
Definition match_game (row m : Row) : result (list EloGame) :=
  let w := text_field m "winner" in
  if truthy (get_value m "bye") || truthy (get_value m "pending") || String.eqb w "" then Ok []
  else
    try competitors <- names (get_or m "competitors" (JArr []));
    if negb (length competitors =? 2) then Ok []
    else
      let loser := from_option id "" (List.find (fun c => negb (String.eqb c w)) competitors) in
      if String.eqb loser "" || String.eqb loser w then Ok []
      else try margin <- _abs_float (get_value m "delta_scalar");
           Ok [row_game row (text_field m "match_id") w loser margin].

Definition matches_of (rnd : Row) : result (list Row) :=
  try items <- iterate (get_or rnd "matches" (JArr [])); Ok (objects items).

Definition _games_from_field_row (row : Row) : result (list EloGame) :=
  if negb (String.eqb (text_field row "parent_generation_id") "" && String.eqb (text_field row "child_generation_id") "")
  then Ok []
  else match _safe_json (get_value row "rounds_json") with
       | JArr rounds =>
           try found <- result_map (fun rnd => try ms <- matches_of rnd; result_map (match_game row) ms) (objects rounds);
           Ok (concat (concat found))
       | _ => Ok []
       end.

(** A rung match; [n] rungs were read before it. *)
Definition match_rung (row : Row) (n : nat) (m : Row) : option RungEvent :=
  match get_value m "survivors", get_value m "cut" with
  | JArr surv_raw, JArr cut_raw =>
      let survivors := first_seen (json_str <$> List.filter truthy surv_raw) in
      let cut := first_seen (json_str <$> List.filter truthy cut_raw) in
      if (length survivors =? 0) || (length cut =? 0) then None
      else Some {| re_epoch_id := text_field row "epoch_id"; re_tournament_id := text_field row "tournament_id";
                   rung_id := json_str (get_or m "match_id" (JStr ("rung@" +:+ pretty (Z.of_nat n))));
                   survivors := survivors; cut := cut; re_ran_at := text_field row "ran_at" |}
  | _, _ => None
  end.

Definition add_rung (row : Row) (rungs : list RungEvent) (m : Row) : list RungEvent :=
  match match_rung row (length rungs) m with Some r => rungs ++ [r] | None => rungs end.

Definition _rungs_from_row (row : Row) : result (list RungEvent) :=
  match _safe_json (get_value row "rounds_json") with
  | JArr rounds => try ms <- result_map matches_of (objects rounds); Ok (foldl (add_rung row) [] (concat ms))
  | _ => Ok []
  end.

Definition games_from_tournament_rows (rows : list Row) : result (list EloGame) :=
  try found <- result_map (fun row =>
    try crowning <- _games_from_crowning_row row;
    try field <- _games_from_field_row row;
    Ok (crowning ++ field)) rows;
  Ok (concat found).

Definition rungs_from_tournament_rows (rows : list Row) : result (list RungEvent) :=
  try found <- result_map _rungs_from_row rows; Ok (concat found).
End Rows.

(** * The rating does not depend on the order of the ledger *)

(** ** Keeping the first of each key *)
Section Dedup.
Context {A K : Type} `{EqDecision K} (key : A -> K).

Lemma dedup_keys seen l :
  NoDup (key <$> dedup key seen l)
  /\ forall k, k ∈ (key <$> dedup key seen l) <-> k ∉ seen /\ k ∈ (key <$> l).
Proof.
  revert seen. induction l as [|x l IH]; intros seen; cbn; [split; [constructor|set_solver]|].
  case_decide as Hx.
  - destruct (IH seen) as [H1 H2]. split; [done|]. intros k. rewrite H2. set_solver.
  - destruct (IH (key x :: seen)) as [H1 H2]. cbn. split.
    + apply NoDup_cons. split; [|done]. change (list_fmap _ _ key ?m) with (key <$> m). rewrite H2. set_solver.
    + intros k. change (list_fmap _ _ key ?m) with (key <$> m). rewrite !elem_of_cons, H2.
      destruct (decide (k = key x)) as [->|]; set_solver.
Qed.

Lemma dedup_sub seen l x : x ∈ dedup key seen l -> x ∈ l.
Proof.
  revert seen. induction l as [|y l IH]; intros seen; cbn; [done|]. case_decide; [set_solver|].
  rewrite !elem_of_cons. naive_solver.
Qed.

(** When the copies of one key agree on [val], which are kept does not matter. *)
Lemma dedup_perm {B} (val : A -> B) l l' :
  (forall x y, x ∈ l -> y ∈ l -> key x = key y -> val x = val y) -> l ≡ₚ l' ->
  val <$> dedup key [] l ≡ₚ val <$> dedup key [] l'.
Proof.
  intros Hv Hp. set (look := fun k => val <$> List.find (fun x => bool_decide (key x = k)) l).
  assert (forall x, x ∈ l -> look (key x) = Some (val x)) as Hlook.
  { intros x Hx. unfold look. destruct (List.find _ l) as [y|] eqn:E.
    - apply List.find_some in E as [Hy%list_elem_of_In He%bool_decide_eq_true]. cbn. f_equal. by apply Hv.
    - apply list_elem_of_In, (List.find_none _ _ E) in Hx. by rewrite bool_decide_true in Hx. }
  assert (forall m : list A, (forall x, x ∈ m -> x ∈ l) -> omap look (key <$> m) = val <$> m) as Homap.
  { intros m Hm. induction m as [|x m IH]; [done|]. cbn. rewrite Hlook by set_solver. f_equal. apply IH. set_solver. }
  rewrite <- (Homap (dedup key [] l)) by (intros x; apply dedup_sub).
  rewrite <- (Homap (dedup key [] l')) by (intros x Hx%dedup_sub; by rewrite Hp).
  apply omap_Permutation, NoDup_Permutation; [apply dedup_keys..|]. intros k.
  rewrite (proj2 (dedup_keys [] l)), (proj2 (dedup_keys [] l')). by rewrite Hp.
Qed.
End Dedup.

(** ** What the fold makes *)

Definition game_obs (g : EloGame) : option RankGroup :=
  if String.eqb (winner g) "" || String.eqb (loser g) "" || String.eqb (winner g) (loser g) then None
  else Some ([winner g], [loser g]).
Definition rung_obs (r : RungEvent) : option RankGroup :=
  if uninformative (rung_group r) then None else Some (rung_group r).

(** Whom an observation is counted for. *)
Definition participants (o : RankGroup) : list string :=
  if length o.1 <=? PL_MAX_SURVIVORS then o.1 ++ o.2 else [].

Definition all_obs (games : list EloGame) (rungs : list RungEvent) : list RankGroup :=
  omap game_obs (_dedup_games games) ++ omap rung_obs (_dedup_rungs rungs).

Definition note_obs (f : EloFold) (o : option RankGroup) (epoch_id : string) : EloFold :=
  match o with Some o => note f o (length o.1 <=? PL_MAX_SURVIVORS) epoch_id | None => f end.

Lemma game_step_note f g : game_step f g = note_obs f (game_obs g) (eg_epoch_id g).
Proof. unfold game_step, game_obs. by destruct (_ || _). Qed.

Lemma rung_step_note f r : rung_step f r = note_obs f (rung_obs r) (re_epoch_id r).
Proof. unfold rung_step, rung_obs. by destruct (uninformative _). Qed.

Lemma setdefault_known (d : list (string * string)) l e gid v :
  dict_get d gid = Some v -> dict_get (foldl (fun d g => dict_setdefault d g e) d l) gid = Some v.
Proof.
  revert d. induction l as [|x l IH]; intros d Hd; [done|]. cbn [foldl]. apply IH. unfold dict_setdefault.
  destruct (dict_mem d x) eqn:E; [done|]. rewrite dict_get_set. case_decide as Hx; [|done]. subst gid.
  unfold dict_mem in E. by rewrite Hd in E.
Qed.

(** One pass, whatever its items are. *)
Lemma fold_notes {A} (step : EloFold -> A -> EloFold) (obs : A -> option RankGroup) (ep : A -> string) l f :
  (forall f x, step f x = note_obs f (obs x) (ep x)) ->
  observations (foldl step f l) = observations f ++ omap obs l
  /\ game_count (foldl step f l) = foldl incr (game_count f) (omap obs l ≫= participants)
  /\ forall gid v, dict_get (epoch_of f) gid = Some v -> dict_get (epoch_of (foldl step f l)) gid = Some v.
Proof.
  intros Hs. revert f. induction l as [|x l IH]; intros f; cbn [foldl]; [by rewrite app_nil_r|].
  change (omap obs (x :: l)) with (match obs x with Some o => o :: omap obs l | None => omap obs l end).
  destruct (IH (step f x)) as (H1 & H2 & H3). rewrite H1, H2, Hs. clear H1 H2.
  destruct (obs x) as [o|] eqn:E; cbn [note_obs].
  - cbn [note observations game_count]. rewrite <- app_assoc. split; [done|]. split.
    + change ((o :: omap obs l) ≫= participants) with (participants o ++ (omap obs l ≫= participants)).
      rewrite (foldl_app _ (participants o)). f_equal. unfold participants. by destruct (length o.1 <=? PL_MAX_SURVIVORS).
    + intros gid v Hv. rewrite Hs, E in H3. apply H3. cbn -[PL_MAX_SURVIVORS].
      destruct (length o.1 <=? PL_MAX_SURVIVORS); [|done]. by apply setdefault_known.
  - split; [done|]. split; [done|]. intros gid v Hv. rewrite Hs, E in H3. by apply H3.
Qed.

Lemma elo_fold_spec games lineage rungs :
  observations (elo_fold games lineage rungs) = all_obs games rungs
  /\ game_count (elo_fold games lineage rungs) = foldl incr [] (all_obs games rungs ≫= participants)
  /\ forall gid n, dict_get lineage gid = Some n ->
       dict_get_or (epoch_of (elo_fold games lineage rungs)) gid "" = ln_epoch_id n.
Proof.
  unfold elo_fold. set (f0 := {| observations := []; game_count := []; epoch_of := _ |}).
  destruct (fold_notes game_step game_obs eg_epoch_id (_dedup_games games) f0 game_step_note) as (H1 & H2 & H3).
  destruct (fold_notes rung_step rung_obs re_epoch_id (_dedup_rungs rungs) (foldl game_step f0 (_dedup_games games))
              rung_step_note) as (H4 & H5 & H6).
  rewrite H4, H5, H1, H2. split; [done|]. split; [by unfold all_obs; rewrite bind_app, foldl_app|].
  intros gid n Hn. unfold dict_get_or. rewrite (H6 gid (ln_epoch_id n)); [done|]. apply H3. cbn.
  clear -Hn. induction lineage as [|[k m] lineage IH]; [done|]. cbn in *. case_decide; [congruence|auto].
Qed.

Definition occurrences (gid : string) (l : list string) : Z :=
  Z.of_nat (length (List.filter (String.eqb gid) l)).

Lemma incr_counts l d gid :
  dict_get_or (foldl incr d l) gid 0%Z = (dict_get_or d gid 0 + occurrences gid l)%Z.
Proof.
  revert d. induction l as [|x l IH]; intros d; cbn [foldl]; [unfold occurrences; cbn; lia|].
  assert (dict_get_or (incr d x) gid 0 = dict_get_or d gid 0 + if String.eqb gid x then 1 else 0)%Z as Hincr.
  { unfold incr, dict_get_or at 1. rewrite dict_get_set. destruct (String.eqb_spec gid x) as [->|Hne].
    - by rewrite decide_True.
    - rewrite decide_False by congruence. unfold dict_get_or. lia. }
  rewrite IH, Hincr. unfold occurrences. cbn [List.filter]. destruct (String.eqb gid x); cbn [length]; lia.
Qed.

(** ** The order *)

(** The blocks of an observation in a fixed order. *)
Definition canon (o : RankGroup) : RankGroup := (sorted_strings o.1, sorted_strings o.2).

(** Copies of one match name the same winner; copies of one rung the same blocks. *)
Definition games_agree (games : list EloGame) : Prop :=
  forall g h, g ∈ games -> h ∈ games -> game_key g = game_key h -> winner g = winner h.
Definition rungs_agree (rungs : list RungEvent) : Prop :=
  forall r t, r ∈ rungs -> t ∈ rungs -> rung_key r = rung_key t -> survivors r ≡ₚ survivors t /\ cut r ≡ₚ cut t.

Lemma sides_other a b c : sides a b = sides a c -> b = c.
Proof.
  unfold sides. destruct (str_lt b a), (str_lt c a); congruence.
Qed.

Lemma game_obs_agree games g h :
  games_agree games -> g ∈ games -> h ∈ games -> game_key g = game_key h -> game_obs g = game_obs h.
Proof.
  intros Ha Hg Hh Hk. pose proof (Ha g h Hg Hh Hk) as Hw. unfold game_key in Hk. rewrite Hw in Hk.
  injection Hk as _ _ Hs. apply sides_other in Hs. unfold game_obs. by rewrite Hw, Hs.
Qed.

Lemma canon_same x y : same_group x y -> canon x = canon y.
Proof. intros [H1 H2]. unfold canon. by rewrite (sorted_strings_perm _ _ H1), (sorted_strings_perm _ _ H2). Qed.

Lemma same_canon x : same_group x (canon x).
Proof. split; cbn; symmetry; apply py_sorted_perm. Qed.

Lemma uninformative_same x y : same_group x y -> uninformative x = uninformative y.
Proof.
  intros [H1 H2]. unfold uninformative, overlap. rewrite (Permutation_length H1), (Permutation_length H2). f_equal.
  apply eq_bool_prop_intro. rewrite !Is_true_true, !existsb_exists. setoid_rewrite <- list_elem_of_In.
  setoid_rewrite bool_decide_eq_true. by setoid_rewrite H1; setoid_rewrite H2.
Qed.

Lemma rung_obs_agree rungs r t :
  rungs_agree rungs -> r ∈ rungs -> t ∈ rungs -> rung_key r = rung_key t ->
  canon <$> rung_obs r = canon <$> rung_obs t.
Proof.
  intros Ha Hr Ht Hk. destruct (Ha r t Hr Ht Hk) as [H1 H2].
  assert (same_group (rung_group r) (rung_group t)) as Hs by (split; by apply filter_perm).
  unfold rung_obs. rewrite (uninformative_same _ _ Hs). destruct (uninformative _); [done|].
  cbn. f_equal. by apply canon_same.
Qed.

Lemma omap_fmap_id {A B} (f : A -> option B) (l : list A) : omap f l = omap id (f <$> l).
Proof. induction l as [|x l IH]; cbn; [done|]. destruct (f x); cbn; by rewrite <- IH. Qed.

Lemma fmap_omap {A B C} (g : B -> C) (f : A -> option B) (l : list A) : g <$> omap f l = omap (fun x => g <$> f x) l.
Proof. induction l as [|x l IH]; cbn; [done|]. destruct (f x); cbn; by rewrite <- IH. Qed.

Lemma all_obs_perm games games' rungs rungs' :
  games ≡ₚ games' -> rungs ≡ₚ rungs' -> games_agree games -> rungs_agree rungs ->
  canon <$> all_obs games rungs ≡ₚ canon <$> all_obs games' rungs'.
Proof.
  intros Hg Hr Hga Hra. unfold all_obs. rewrite !fmap_app. apply Permutation_app.
  - apply fmap_Permutation. rewrite (omap_fmap_id game_obs), (omap_fmap_id game_obs (_dedup_games games')).
    apply omap_Permutation, dedup_perm; [|done]. intros g h. by apply game_obs_agree.
  - rewrite !fmap_omap. rewrite (omap_fmap_id _ (_dedup_rungs rungs)), (omap_fmap_id _ (_dedup_rungs rungs')).
    apply omap_Permutation, dedup_perm; [|done]. intros r t. by apply rung_obs_agree.
Qed.

Lemma participants_canon o : participants o ≡ₚ participants (canon o).
Proof.
  destruct (same_canon o) as [H1 H2]. unfold participants. rewrite (Permutation_length H1).
  destruct (_ <=? _); [|done]. by rewrite H1, H2 at 1.
Qed.

Lemma counted_perm l l' : canon <$> l ≡ₚ canon <$> l' ->
  l ≫= participants ≡ₚ l' ≫= participants.
Proof.
  intros Hc. assert (forall m, m ≫= participants ≡ₚ (canon <$> m) ≫= participants) as Hm.
  { induction m as [|o m IH]; [done|]. cbn. by rewrite <- IH, <- participants_canon. }
  by rewrite (Hm l), (Hm l'), Hc.
Qed.

Section Order.
Context `{Libm} `{PyFormat}.

(** The epoch of a generation the lineage does not list is the first an observation names. *)
Definition forget_unlisted (lineage : list (string * LineageNode)) (item : string * EloRating) : string * EloRating :=
  if dict_mem lineage item.1 then item
  else (item.1, {| el_generation_id := el_generation_id item.2; el_epoch_id := ""; rating := rating item.2;
                   se := se item.2; games := games item.2 |}).

Definition listed (lineage : list (string * LineageNode)) (r : result (list (string * EloRating)))
    : result (list (string * EloRating)) :=
  try out <- r; Ok (forget_unlisted lineage <$> out).

Lemma fit_canon obs obs' prior tol n m :
  canon <$> obs ≡ₚ canon <$> obs' -> fit_plackett_luce obs prior tol n m = fit_plackett_luce obs' prior tol n m.
Proof.
  intros Hc. assert (forall l, Forall2 same_group l (canon <$> l)) as Hs.
  { induction l as [|o l IH]; constructor; [apply same_canon|done]. }
  rewrite (fit_plackett_luce_order obs obs (canon <$> obs)) by done.
  rewrite (fit_plackett_luce_order obs' obs' (canon <$> obs')) by done.
  apply (fit_plackett_luce_order _ (canon <$> obs')); [done|]. apply Forall_Forall2_diag, Forall_true. by split.
Qed.

Lemma rated_listed games games' lineage rungs rungs' e :
  canon <$> all_obs games rungs ≡ₚ canon <$> all_obs games' rungs' ->
  forget_unlisted lineage (rated (elo_fold games lineage rungs) e)
  = forget_unlisted lineage (rated (elo_fold games' lineage rungs') e).
Proof.
  intros Hc. destruct (elo_fold_spec games lineage rungs) as (_ & Hn & He), (elo_fold_spec games' lineage rungs') as (_ & Hn' & He').
  destruct e as [gid [theta err]]. unfold rated, forget_unlisted. cbn [fst snd].
  assert (dict_get_or (game_count (elo_fold games lineage rungs)) gid 0
          = dict_get_or (game_count (elo_fold games' lineage rungs')) gid 0)%Z as Hcount.
  { rewrite Hn, Hn', !incr_counts. unfold occurrences. f_equal. f_equal.
    by apply Permutation_length, filter_perm, counted_perm. }
  rewrite Hcount. destruct (dict_mem lineage gid) eqn:E; cbn; [|done].
  unfold dict_mem in E. destruct (dict_get lineage gid) as [n|] eqn:El; [|done].
  by rewrite (He _ _ El), (He' _ _ El).
Qed.

(** C37.  The ratings of the index depend on the ledger alone: whatever the order of the games
    and of the rungs, and whichever copy of an observation comes first, every generation
    gets the same rating, the same error and the same number of observations, provided
    the copies of one match name one winner and the copies of one rung the same blocks.
    The epoch is the lineage's for a generation it lists. *)
Theorem elo_order_independent games games' rungs rungs' lineage :
  games ≡ₚ games' -> rungs ≡ₚ rungs' -> games_agree games -> rungs_agree rungs ->
  listed lineage (compute_elo games lineage rungs) = listed lineage (compute_elo games' lineage rungs').
Proof.
  intros Hg Hr Hga Hra. pose proof (all_obs_perm _ _ _ _ Hg Hr Hga Hra) as Hc. unfold compute_elo, listed.
  destruct (elo_fold_spec games lineage rungs) as (Ho & _), (elo_fold_spec games' lineage rungs') as (Ho' & _).
  rewrite Ho, Ho'. pose proof (Permutation_length Hc) as Hl. rewrite !length_fmap in Hl.
  destruct (all_obs games rungs) as [|o obs] eqn:E1, (all_obs games' rungs') as [|o' obs'] eqn:E2; try done.
  rewrite (fit_canon _ _ _ _ _ _ Hc). destruct (fit_plackett_luce (o' :: obs') _ _ _ _) as [fitted|e]; [|done].
  cbn [result_bind]. f_equal. rewrite <- !list_fmap_compose. apply list_fmap_ext. intros i e _. unfold compose.
  apply rated_listed. by rewrite E1, E2.
Qed.
End Order.

Module EloWitness.
#[local] Existing Instance plain_format.

(** A library whose exponential is positive, as the fit needs it. *)
Definition positive_libm : Libm := {|
  m_exp x := if flt x f0 then fdiv f1 (fsub f1 x) else fadd f1 x; m_log x := fsub x f1; m_erf x := x;
  m_lgamma x := x; normal_inv_cdf x := x; m_log1p x := x; m_pow x y := Ok (fmul x y) |}.
#[local] Existing Instance positive_libm.

Definition game (match_id w l epoch : string) : EloGame := {|
  eg_epoch_id := epoch; eg_tournament_id := "t"; eg_match_id := match_id; winner := w; loser := l;
  margin := f0; eg_ran_at := "" |}.
Definition rung : RungEvent := {|
  re_epoch_id := "e"; re_tournament_id := "t"; rung_id := "rung0"; survivors := ["a"; "b"]; cut := ["c"; "d"];
  re_ran_at := "" |}.
Definition ledger : list EloGame := [game "m1" "a" "b" "e"; game "m2" "c" "d" "e"; game "m1" "a" "b" ""].

Lemma elo_order_independent_witness :
  listed [] (compute_elo ledger [] [rung]) = listed [] (compute_elo (rev ledger) [] [rung]).
Proof.
  apply elo_order_independent.
  - apply Permutation_rev.
  - reflexivity.
  - intros g h Hg Hh. unfold ledger in *. rewrite !elem_of_cons, elem_of_nil in Hg, Hh.
    intros Hk. destruct Hg as [->|[->|[->|[]]]], Hh as [->|[->|[->|[]]]]; done.
  - intros r t ->%list_elem_of_singleton ->%list_elem_of_singleton _. split; reflexivity.
Defined.

(** Copies that do not agree: the first one read decides who won. *)
Example first_copy_decides :
  all_obs [game "m1" "a" "b" "e"; game "m1" "b" "a" "e"] [] = [(["a"], ["b"])]
  /\ all_obs [game "m1" "b" "a" "e"; game "m1" "a" "b" "e"] [] = [(["b"], ["a"])].
Proof. split; reflexivity. Qed.

Definition counts (r : result (list (string * EloRating))) : list (string * Z) :=
  match r with Ok out => (fun item => (item.1, games item.2)) <$> out | Raise _ => [] end.

(** A game counts for its two sides, a rung for each of its participants. *)
Example observations_counted :
  counts (compute_elo [game "m1" "a" "b" "e"] [] [rung]) = [("a", 2); ("b", 2); ("c", 1); ("d", 1)]%Z.
Proof. vm_compute. reflexivity. Qed.
End EloWitness.
