(* ===== verification/Recombine.v ===== *)
(** The pair of rejected challengers a recombination slot merges
    (src/zicato/epoch/recombine.py) and the overlap of a field's ideas
    (src/zicato/selection/diversity.py).  The pair chosen is the best one under a total
    order of the pairs that may be merged, so the pool may come in any order. *)
From S2P Require Import Prelude PyFloat PyJson CoreTypes.

Definition DEFAULT_ELO : float := 1500%float.

Record ParentCandidate := {
  pc_id : string;
  pc_decision : string;
  pc_parent : option string;
  is_placebo : bool;
  is_recombined : bool;
  patch_mutation_ids : gset string;
  improved_entry_ids : gset string;
  regressed_entry_ids : gset string;
  elo : option float;
  pc_patches : list Patch;
  pc_core_idea : string;
  pc_movements : list ExpectedMetricMovement;
}.

(** Predicates 1 to 6. *)
Definition eligible_parent (champion_id : string) (manifest_ids : gset string) (c : ParentCandidate) : bool :=
  if negb (String.eqb (pc_decision c) "rejected") then false
  else if negb (bool_decide (pc_parent c = Some champion_id)) then false
  else if is_placebo c then false
  else if is_recombined c then false
  else if bool_decide (patch_mutation_ids c = ∅) then false
  else bool_decide (patch_mutation_ids c ⊆ manifest_ids).

Definition eligible_parents (candidates : list ParentCandidate) (champion_id : string) (manifest_ids : gset string)
    : list ParentCandidate :=
  List.filter (eligible_parent champion_id manifest_ids) candidates.

Definition _complementary (a b : ParentCandidate) : bool :=
  let ia := improved_entry_ids a in
  let ib := improved_entry_ids b in
  if bool_decide (ia = ∅) || bool_decide (ib = ∅) then false
  else negb (bool_decide (ia ⊆ ib)) && negb (bool_decide (ib ⊆ ia)).

(** [combinations(l, 2)] *)
Fixpoint combinations2 {A} (l : list A) : list (A * A) :=
  match l with [] => [] | x :: l => ((fun y => (x, y)) <$> l) ++ combinations2 l end.

Abbreviation Pair := (ParentCandidate * ParentCandidate)%type.

(** The pair with the smaller id first. *)
Definition ascending (p : Pair) : Pair := if negb (str_lt (pc_id p.2) (pc_id p.1)) then p else (p.2, p.1).

Definition patch_overlap (p : Pair) : nat := size (patch_mutation_ids p.1 ∩ patch_mutation_ids p.2).

(** Predicates 5, 7 and 8. *)
Definition mergeable (tried_pairs : gset (gset string)) (merge_mode : string) (p : Pair) : bool :=
  if bool_decide ({[pc_id p.1; pc_id p.2]} ∈ tried_pairs) then false
  else if negb (patch_overlap p =? 0) && negb (String.eqb merge_mode "llm") then false
  else _complementary p.1 p.2.

Definition elo_or_default (c : ParentCandidate) : float := from_option id DEFAULT_ELO (elo c).

(** The ranking key, compared as a tuple. *)
Record Key := {
  neg_coverage : Z;
  overlap : nat;
  cross_regression : nat;
  neg_elo : float;
  first_id : string;
  second_id : string;
}.

Definition key_of (p : Pair) : Key := {|
  neg_coverage := - Z.of_nat (size (improved_entry_ids p.1 ∪ improved_entry_ids p.2));
  overlap := patch_overlap p;
  cross_regression := size (regressed_entry_ids p.1 ∪ regressed_entry_ids p.2);
  neg_elo := fneg (fadd (elo_or_default p.1) (elo_or_default p.2));
  first_id := pc_id p.1; second_id := pc_id p.2 |}.

Definition key_lt (x y : Key) : bool :=
  if (neg_coverage x =? neg_coverage y)%Z then
    if overlap x =? overlap y then
      if cross_regression x =? cross_regression y then
        if feq (neg_elo x) (neg_elo y) then
          if String.eqb (first_id x) (first_id y) then str_lt (second_id x) (second_id y)
          else str_lt (first_id x) (first_id y)
        else flt (neg_elo x) (neg_elo y)
      else cross_regression x <? cross_regression y
    else overlap x <? overlap y
  else (neg_coverage x <? neg_coverage y)%Z.

Definition pair_lt (p q : Pair) : bool := key_lt (key_of p) (key_of q).

(** The loop keeps the first of the least pairs. *)
Definition rank_pairs (eligible : list ParentCandidate) (tried_pairs : gset (gset string)) (merge_mode : string)
    : option Pair :=
  py_min pair_lt (List.filter (mergeable tried_pairs merge_mode) (ascending <$> combinations2 eligible)).

(** ** Field diversity *)

Definition jaccard (a b : gset string) : float :=
  if bool_decide (a ∪ b = ∅) then f0
  else fdiv (float_of_Z (Z.of_nat (size (a ∩ b)))) (float_of_Z (Z.of_nat (size (a ∪ b)))).

Record FieldDiversity := {
  field_size : nat;
  distinct_ideas : nat;
  mean_overlap : float;
  max_overlap : float;
  max_overlap_pair : option (string * string);
  fd_tolerance : option float;
  soft_rejected_count : Z;
}.

(** The largest overlap so far and its pair. *)
Definition overlap_step (best : float * option (string * string)) (p : (string * gset string) * (string * gset string))
    : float * option (string * string) :=
  let score := jaccard p.1.2 p.2.2 in
  if flt best.1 score then (score, Some (p.1.1, p.2.1)) else best.

(** [round6] is [round(x, 6)]. *)
Definition compute_field_diversity (round6 : float -> float) (mutation_sets : list (string * gset string))
    (tolerance : option float) (soft_rejected : Z) : FieldDiversity :=
  let pairs := combinations2 mutation_sets in
  let best := foldl overlap_step (f0, None) pairs in
  let scores := (fun p => jaccard p.1.2 p.2.2) <$> pairs in
  let mean := match scores with
              | [] => f0
              | _ => fdiv (py_sum scores) (float_of_Z (Z.of_nat (length scores)))
              end in
  {| field_size := length mutation_sets;
     distinct_ideas := length (remove_dups (List.filter (fun ids => negb (bool_decide (ids = ∅))) mutation_sets.*2));
     mean_overlap := round6 mean; max_overlap := round6 best.1; max_overlap_pair := best.2;
     fd_tolerance := tolerance; soft_rejected_count := soft_rejected |}.

(** * What the selection promises *)

(** Two candidates that may be merged, as the design states it. *)
Record may_merge (champion_id : string) (manifest_ids : gset string) (tried : gset (gset string)) (mode : string)
    (a b : ParentCandidate) : Prop := {
  mm_rejected : pc_decision a = "rejected" /\ pc_decision b = "rejected";
  mm_reign : pc_parent a = Some champion_id /\ pc_parent b = Some champion_id;
  mm_real : is_placebo a = false /\ is_placebo b = false /\ is_recombined a = false /\ is_recombined b = false;
  mm_patches : patch_mutation_ids a ≠ ∅ /\ patch_mutation_ids b ≠ ∅
    /\ patch_mutation_ids a ⊆ manifest_ids /\ patch_mutation_ids b ⊆ manifest_ids;
  mm_untried : {[pc_id a; pc_id b]} ∉ tried;
  mm_disjoint : mode <> "llm" -> patch_mutation_ids a ## patch_mutation_ids b;
  mm_complementary : ~ improved_entry_ids a ⊆ improved_entry_ids b /\ ~ improved_entry_ids b ⊆ improved_entry_ids a;
}.

Lemma eligible_spec champion manifest c :
  eligible_parent champion manifest c = true <->
  pc_decision c = "rejected" /\ pc_parent c = Some champion /\ is_placebo c = false /\ is_recombined c = false
  /\ patch_mutation_ids c ≠ ∅ /\ patch_mutation_ids c ⊆ manifest.
Proof.
  unfold eligible_parent. destruct (String.eqb_spec (pc_decision c) "rejected"); cbn; [|naive_solver].
  repeat case_bool_decide; cbn; destruct (is_placebo c), (is_recombined c); naive_solver.
Qed.

Lemma complementary_spec a b :
  _complementary a b = true <->
  ~ improved_entry_ids a ⊆ improved_entry_ids b /\ ~ improved_entry_ids b ⊆ improved_entry_ids a.
Proof.
  unfold _complementary. case_bool_decide as Ha; cbn; [split; [done|rewrite Ha; set_solver]|].
  case_bool_decide as Hb; cbn; [split; [done|rewrite Hb; set_solver]|].
  by repeat case_bool_decide; cbn; naive_solver.
Qed.

Lemma overlap_disjoint p : patch_overlap p = 0 <-> patch_mutation_ids p.1 ## patch_mutation_ids p.2.
Proof. unfold patch_overlap. by rewrite size_empty_iff, disjoint_intersection. Qed.

Lemma mergeable_spec tried mode p :
  mergeable tried mode p = true <->
  ({[pc_id p.1; pc_id p.2]} ∉ tried) /\ (mode <> "llm" -> patch_mutation_ids p.1 ## patch_mutation_ids p.2)
  /\ ~ improved_entry_ids p.1 ⊆ improved_entry_ids p.2 /\ ~ improved_entry_ids p.2 ⊆ improved_entry_ids p.1.
Proof.
  unfold mergeable. case_bool_decide; [naive_solver|]. rewrite <- overlap_disjoint.
  destruct (Nat.eqb_spec (patch_overlap p) 0), (String.eqb_spec mode "llm"); cbn; rewrite ?complementary_spec;
    naive_solver.
Qed.

(** ** The order of the pairs *)

#[export] Instance key_lt_swo : StrictWeakOrder key_lt (fun k => is_nan (neg_elo k) = false).
Proof.
  pose (T := fun _ : Key => True).
  assert (HZ : StrictWeakOrder (fun x y => (neg_coverage x <? neg_coverage y)%Z) T)
    by exact (swo_on neg_coverage Z.ltb (fun _ => True) Z_ltb_swo).
  assert (Hnat : forall f : Key -> nat, StrictWeakOrder (fun x y => f x <? f y) T)
    by (intros f; exact (swo_on f Nat.ltb (fun _ => True) nat_ltb_swo)).
  assert (Hs : forall f : Key -> string, StrictWeakOrder (fun x y => str_lt (f x) (f y)) T)
    by (intros f; exact (swo_on f str_lt (fun _ => True) str_lt_swo)).
  assert (Hw : forall lt P, StrictWeakOrder lt T -> StrictWeakOrder lt P)
    by (intros lt P; apply swo_weaken; done).
  unfold key_lt.
  apply lex_swo; [by apply Hw| |intros; apply Z_eqb_ltb].
  apply lex_swo; [by apply (Hw _ _ (Hnat overlap))| |intros; apply nat_eqb_ltb].
  apply lex_swo; [by apply (Hw _ _ (Hnat cross_regression))| |intros; apply nat_eqb_ltb].
  apply lex_swo; [exact (swo_on neg_elo flt _ flt_swo)| |intros x y; apply feq_flt_total].
  apply lex_swo; [by apply (Hw _ _ (Hs first_id))|by apply (Hw _ _ (Hs second_id))|intros; apply str_eqb_lt].
Qed.

#[export] Instance pair_lt_swo : StrictWeakOrder pair_lt (fun p => is_nan (neg_elo (key_of p)) = false).
Proof. exact (swo_on key_of key_lt _ key_lt_swo). Qed.

Lemma key_lt_ids x y :
  is_nan (neg_elo x) = false -> is_nan (neg_elo y) = false ->
  key_lt x y = false -> key_lt y x = false -> first_id x = first_id y /\ second_id x = second_id y.
Proof.
  intros Hx Hy. unfold key_lt.
  rewrite (Z.eqb_sym (neg_coverage y)), (Nat.eqb_sym (overlap y)), (Nat.eqb_sym (cross_regression y)),
    (feq_sym (neg_elo y)), (String.eqb_sym (first_id y)).
  destruct (Z.eqb_spec (neg_coverage x) (neg_coverage y)); [|rewrite !Z.ltb_ge; lia].
  destruct (Nat.eqb_spec (overlap x) (overlap y)); [|rewrite !Nat.ltb_ge; lia].
  destruct (Nat.eqb_spec (cross_regression x) (cross_regression y)); [|rewrite !Nat.ltb_ge; lia].
  rewrite (feq_flt_total _ _ Hx Hy). destruct (flt _ _), (flt _ _); try done. cbn.
  destruct (String.eqb_spec (first_id x) (first_id y)) as [|Hne]; intros H1 H2.
  - by split; [|apply str_lt_total].
  - by destruct Hne; apply str_lt_total.
Qed.

(** Ratings are finite numbers. *)
Definition rated (c : ParentCandidate) : Prop := forall x, elo c = Some x -> isfinite x = true.

Lemma pair_rated p : rated p.1 -> rated p.2 -> is_nan (neg_elo (key_of p)) = false.
Proof.
  intros H1 H2. cbn. rewrite is_nan_fneg. unfold elo_or_default.
  assert (Hd : forall c, rated c -> isfinite (from_option id DEFAULT_ELO (elo c)) = true).
  { intros c Hc. destruct (elo c) eqn:E; [by apply Hc|by vm_compute]. }
  by apply is_nan_fadd; apply Hd.
Qed.

(** ** The pairs of a pool *)

Lemma elem_of_combinations2 {A} (l : list A) x y :
  (x, y) ∈ combinations2 l -> x ∈ l /\ y ∈ l.
Proof. induction l as [|z l IH]; cbn; [set_solver|]. rewrite elem_of_app, list_elem_of_fmap. set_solver. Qed.

Lemma combinations2_complete {A} (l : list A) x y :
  x ∈ l -> y ∈ l -> x <> y -> (x, y) ∈ combinations2 l \/ (y, x) ∈ combinations2 l.
Proof.
  induction l as [|z l IH]; cbn; [set_solver|]. rewrite !elem_of_cons, !elem_of_app, !list_elem_of_fmap.
  intros [->|Hx] [->|Hy] Hne; naive_solver.
Qed.

Lemma combinations2_ids l a b :
  NoDup (pc_id <$> l) -> (a, b) ∈ combinations2 l -> pc_id a <> pc_id b.
Proof.
  induction l as [|z l IH]; cbn; [set_solver|]. rewrite elem_of_app, list_elem_of_fmap, NoDup_cons.
  intros [Hz Hnd] [(y & [= -> ->] & Hy)|H]; [|by apply IH]. intros Heq. apply Hz. rewrite Heq.
  by apply list_elem_of_fmap_2.
Qed.

Lemma same_id l a b : NoDup (pc_id <$> l) -> a ∈ l -> b ∈ l -> pc_id a = pc_id b -> a = b.
Proof.
  intros Hnd Ha Hb Heq. apply list_elem_of_lookup in Ha as [i Hi]. apply list_elem_of_lookup in Hb as [j Hj].
  assert (i = j) as ->; [|congruence].
  eapply (NoDup_lookup _ _ _ _ Hnd); rewrite list_lookup_fmap; [by rewrite Hi|]. by rewrite Hj; cbn; rewrite Heq.
Qed.

Lemma elem_of_pairs l p :
  NoDup (pc_id <$> l) ->
  p ∈ ascending <$> combinations2 l <-> p.1 ∈ l /\ p.2 ∈ l /\ str_lt (pc_id p.1) (pc_id p.2) = true.
Proof.
  intros Hnd. rewrite list_elem_of_fmap. unfold ascending. split.
  - intros ([a b] & -> & Hin). pose proof (elem_of_combinations2 _ _ _ Hin) as [Ha Hb].
    pose proof (combinations2_ids _ _ _ Hnd Hin) as Hne. cbn.
    destruct (str_lt (pc_id b) (pc_id a)) eqn:E; cbn; split_and!; try done.
    apply not_false_iff_true. intros E'. by apply Hne, str_lt_total.
  - destruct p as [a b]. cbn. intros (Ha & Hb & Hlt).
    assert (str_lt (pc_id b) (pc_id a) = false) as Hba by (by apply (@swo_asym _ _ _ str_lt_swo)).
    destruct (combinations2_complete l a b Ha Hb) as [H|H].
    + intros ->. by rewrite Hlt in Hba.
    + exists (a, b). cbn. by rewrite Hba.
    + exists (b, a). cbn. by rewrite Hlt.
Qed.

(** The least of a list under an order that is total on it. *)
Lemma py_min_ext {A} (lt : A -> A -> bool) P `{StrictWeakOrder A lt P} l l' :
  (forall x, x ∈ l <-> x ∈ l') -> Forall P l ->
  (forall x y, x ∈ l -> y ∈ l -> lt x y = false -> lt y x = false -> x = y) ->
  py_min lt l = py_min lt l'.
Proof.
  intros Hext Hl Htot. assert (Hl' : Forall P l') by (rewrite Forall_forall in *; naive_solver).
  destruct l as [|x l], l' as [|x' l']; [done|set_solver..|]. unfold py_min. f_equal.
  apply Forall_cons in Hl as [Hx Hl], Hl' as [Hx' Hl'].
  pose proof (py_min_from_elem lt x l) as Hm. pose proof (py_min_from_elem lt x' l') as Hm'.
  apply Htot; [done|by apply Hext| |].
  - apply (py_min_from_le lt P); [done..|]. by apply Hext.
  - apply (py_min_from_le lt P); [done..|]. by apply Hext.
Qed.

Section Pool.
Context (champion_id : string) (manifest_ids : gset string) (tried : gset (gset string)) (mode : string).

Definition select (pool : list ParentCandidate) : option Pair :=
  rank_pairs (eligible_parents pool champion_id manifest_ids) tried mode.

Definition survivors (pool : list ParentCandidate) : list Pair :=
  List.filter (mergeable tried mode) (ascending <$> combinations2 (eligible_parents pool champion_id manifest_ids)).

Lemma eligible_ids pool : NoDup (pc_id <$> pool) -> NoDup (pc_id <$> eligible_parents pool champion_id manifest_ids).
Proof.
  intros Hnd. induction pool as [|c pool IH]; cbn; [done|]. apply NoDup_cons in Hnd as [Hc Hnd].
  destruct (eligible_parent _ _ c); [|by apply IH]. cbn. apply NoDup_cons. split; [|by apply IH].
  contradict Hc. apply list_elem_of_fmap in Hc as (d & Hd & Hin). rewrite Hd. apply list_elem_of_fmap_2.
  apply list_elem_of_In, filter_In in Hin as [Hin _]. by apply list_elem_of_In.
Qed.

Lemma elem_of_survivors pool p :
  NoDup (pc_id <$> pool) ->
  p ∈ survivors pool <->
  p.1 ∈ pool /\ p.2 ∈ pool /\ str_lt (pc_id p.1) (pc_id p.2) = true
  /\ may_merge champion_id manifest_ids tried mode p.1 p.2.
Proof.
  intros Hnd. unfold survivors. rewrite list_elem_of_In, filter_In, <- list_elem_of_In.
  rewrite elem_of_pairs, mergeable_spec by by apply eligible_ids.
  unfold eligible_parents. rewrite !list_elem_of_In, !filter_In, !eligible_spec. split.
  - intros (((? & ?) & (? & ?) & ?) & ?). destruct_and!. split_and!; [done..|]. by constructor.
  - intros (? & ? & ? & []). destruct_and!. split_and!; done.
Qed.

Lemma survivors_rated pool :
  NoDup (pc_id <$> pool) -> Forall rated pool ->
  Forall (fun p => is_nan (neg_elo (key_of p)) = false) (survivors pool).
Proof.
  rewrite !Forall_forall. intros Hnd Hr p Hp. apply elem_of_survivors in Hp as (? & ? & _); [|done].
  by apply pair_rated; apply Hr.
Qed.

Lemma survivors_total pool p q :
  NoDup (pc_id <$> pool) -> Forall rated pool -> p ∈ survivors pool -> q ∈ survivors pool ->
  pair_lt p q = false -> pair_lt q p = false -> p = q.
Proof.
  intros Hnd Hr Hp Hq H1 H2. pose proof (survivors_rated pool Hnd Hr) as Hf. rewrite Forall_forall in Hf.
  destruct (key_lt_ids _ _ (Hf _ Hp) (Hf _ Hq) H1 H2) as [E1 E2]; cbn in E1, E2.
  apply elem_of_survivors in Hp as (? & ? & _), Hq as (? & ? & _); [|done..].
  destruct p as [p1 p2], q as [q1 q2]; cbn in *. by f_equal; eapply same_id.
Qed.

(** C26.  The selection is the best pair that may merge, whatever the order of
    the pool; there is none only if no pair may merge. *)
Theorem recombination_selects_best pool :
  NoDup (pc_id <$> pool) -> Forall rated pool ->
  (forall pool', pool ≡ₚ pool' -> select pool' = select pool)
  /\ match select pool with
     | None => forall a b, a ∈ pool -> b ∈ pool -> str_lt (pc_id a) (pc_id b) = true ->
                 ~ may_merge champion_id manifest_ids tried mode a b
     | Some (a, b) =>
         a ∈ pool /\ b ∈ pool /\ str_lt (pc_id a) (pc_id b) = true
         /\ may_merge champion_id manifest_ids tried mode a b
         /\ forall x y, x ∈ pool -> y ∈ pool -> str_lt (pc_id x) (pc_id y) = true ->
              may_merge champion_id manifest_ids tried mode x y ->
              (x, y) = (a, b) \/ key_lt (key_of (a, b)) (key_of (x, y)) = true
     end.
Proof.
  intros Hnd Hr. pose proof (survivors_rated pool Hnd Hr) as Hf.
  pose proof (fun p q => survivors_total pool p q Hnd Hr) as Htot. split.
  { intros pool' Hp. symmetry. change (py_min pair_lt (survivors pool) = py_min pair_lt (survivors pool')).
    refine (py_min_ext pair_lt _ _ _ _ Hf Htot). intros p. rewrite !elem_of_survivors by by rewrite <- ?Hp. by rewrite Hp. }
  unfold select, rank_pairs. fold (survivors pool).
  destruct (py_min pair_lt (survivors pool)) as [[a b]|] eqn:E.
  - pose proof (py_min_elem _ _ _ E) as Hin.
    pose proof Hin as (? & ? & ? & ?)%elem_of_survivors; [|done]. split_and!; [done..|].
    intros x y Hx Hy Hlt Hm. assert (Hxy : (x, y) ∈ survivors pool) by by apply elem_of_survivors.
    destruct (key_lt (key_of (a, b)) (key_of (x, y))) eqn:Hk; [by right|left].
    apply Htot; [done..| |done]. destruct (survivors pool) as [|p l]; [done|]. injection E as <-.
    apply Forall_cons in Hf as [Hf1 Hf2]. by apply (py_min_from_le pair_lt _ p l (x, y) Hf1 Hf2).
  - intros a b Ha Hb Hlt Hm. assert (Hab : (a, b) ∈ survivors pool) by by apply elem_of_survivors.
    by destruct (survivors pool); [apply elem_of_nil in Hab|].
Qed.
End Pool.

(** Two complementary parents, a third that overlaps one of them, a parent of
    another champion and the least of the pool in any order. *)
Definition candidate (id parent : string) (patches improved : list string) : ParentCandidate := {|
  pc_id := id; pc_decision := "rejected"; pc_parent := Some parent; is_placebo := false; is_recombined := false;
  patch_mutation_ids := list_to_set patches; improved_entry_ids := list_to_set improved;
  regressed_entry_ids := ∅; elo := None; pc_patches := []; pc_core_idea := ""; pc_movements := [] |}.

Definition example_pool : list ParentCandidate :=
  [candidate "v9" "v3" ["m1"] ["e1"; "e2"]; candidate "v7" "v3" ["m2"] ["e3"];
   candidate "v8" "v3" ["m2"; "m4"] ["e2"; "e3"; "e4"]; candidate "v6" "v2" ["m5"] ["e9"]].

Lemma recombination_selects_best_witness :
  (select "v3" (list_to_set ["m1"; "m2"; "m4"; "m5"]) ∅ "mechanical" (reverse example_pool)
   = select "v3" (list_to_set ["m1"; "m2"; "m4"; "m5"]) ∅ "mechanical" example_pool)
  /\ (fun p : Pair => (pc_id p.1, pc_id p.2)) <$>
       select "v3" (list_to_set ["m1"; "m2"; "m4"; "m5"]) ∅ "mechanical" example_pool = Some ("v8", "v9").
Proof.
  split; [|by vm_compute].
  apply (recombination_selects_best "v3" (list_to_set ["m1"; "m2"; "m4"; "m5"]) ∅ "mechanical" example_pool).
  - apply (bool_decide_eq_true_1 _). by vm_compute.
  - repeat constructor; by intros ? [=].
  - by rewrite reverse_Permutation.
Defined.
