(* ===== verification/Resume.v ===== *)
(** The restart of an interrupted run, src/zicato/runtime/resume.py: settlement receipts
    are replayed, source no record accounts for and fields without a receipt are
    discarded, and the latest generation is resumed in place or discarded. *)
From Stdlib Require Import Ascii.
From S2P Require Import Prelude PyFloat PyText PyJson CoreTypes Params Records Journal Lineage Measurement Strategy Registry Receipt Settlement.

#[local] Open Scope Z_scope.

(** ** Names *)

(** The runs of digits and of other characters of a name, marked. *)
Fixpoint name_runs (name : string) : list (bool * string) :=
  match name with
  | "" => []
  | String c name =>
      match name_runs name with
      | (numeric, run) :: runs =>
          if Bool.eqb (is_digit c) numeric then (numeric, String c run) :: runs
          else (is_digit c, String c "") :: (numeric, run) :: runs
      | [] => [(is_digit c, String c "")]
      end
  end.

Inductive NameKey := TextKey (text : string) | NumberKey (number : N).

Definition natural_key (name : string) : list NameKey :=
  (fun run : bool * string => if run.1 then NumberKey (from_option id 0%N (int_digits false 0 run.2)) else TextKey run.2)
  <$> name_runs name.

Definition name_key_lt (a b : NameKey) : bool :=
  match a, b with
  | TextKey s, TextKey t => str_lt s t
  | NumberKey n, NumberKey m => (n <? m)%N
  | TextKey _, NumberKey _ => true
  | NumberKey _, TextKey _ => false
  end.

(** Python compares tuples at the first place where they differ. *)
Fixpoint tuple_lt {A} (lt : A -> A -> bool) (a b : list A) : bool :=
  match a, b with
  | _, [] => false
  | [], _ :: _ => true
  | x :: a, y :: b => if lt x y then true else if lt y x then false else tuple_lt lt a b
  end.

Definition natural_lt (a b : string) : bool := tuple_lt name_key_lt (natural_key a) (natural_key b).

Definition generation_round_number (generation_id : string) : option Z :=
  match generation_id with
  | String "v"%char suffix =>
      if negb (String.eqb suffix "") && str_forallb is_digit suffix
      then Z.of_N <$> int_digits false 0 suffix else None
  | _ => None
  end.

Definition _BASELINE_GENERATION_ID : string := "v0".

(** ** The workspace on disk

    What a restart reads and removes, around the records of [Journal]: the source of the
    generations, kept by a store of type [T], their record directories and runs, the
    files of the derived index and the live state of the process. *)

Section Site.
Context {T : Type}.

Record Site := {
  st_ws : Workspace;
  st_sources : T;
  st_dirs : list (string * string);
  st_runs : list ((string * string * string) * list SeedDir);
  st_index : list string;
  st_tournament_log : bool;
  st_heartbeat : bool;
  st_active_runs : list string;
}.

Definition set_ws (s : Site) (w : Workspace) : Site := {|
  st_ws := w; st_sources := st_sources s; st_dirs := st_dirs s; st_runs := st_runs s; st_index := st_index s;
  st_tournament_log := st_tournament_log s; st_heartbeat := st_heartbeat s; st_active_runs := st_active_runs s |}.

Definition set_sources (s : Site) (t : T) : Site := {|
  st_ws := st_ws s; st_sources := t; st_dirs := st_dirs s; st_runs := st_runs s; st_index := st_index s;
  st_tournament_log := st_tournament_log s; st_heartbeat := st_heartbeat s; st_active_runs := st_active_runs s |}.

Definition set_records (s : Site) (w : Workspace) (dirs : list (string * string))
    (runs : list ((string * string * string) * list SeedDir)) : Site := {|
  st_ws := w; st_sources := st_sources s; st_dirs := dirs; st_runs := runs; st_index := st_index s;
  st_tournament_log := st_tournament_log s; st_heartbeat := st_heartbeat s; st_active_runs := st_active_runs s |}.

Definition set_index (s : Site) (files : list string) : Site := {|
  st_ws := st_ws s; st_sources := st_sources s; st_dirs := st_dirs s; st_runs := st_runs s; st_index := files;
  st_tournament_log := st_tournament_log s; st_heartbeat := st_heartbeat s; st_active_runs := st_active_runs s |}.

Definition set_runtime (s : Site) (log heartbeat : bool) (runs : list string) : Site := {|
  st_ws := st_ws s; st_sources := st_sources s; st_dirs := st_dirs s; st_runs := st_runs s; st_index := st_index s;
  st_tournament_log := log; st_heartbeat := heartbeat; st_active_runs := runs |}.

(** An operation on the records, or on the sources, of the site. *)
Definition on_ws {A} (m : Wop A) : Op Site A := fun s =>
  let '(states, r) := m (st_ws s) in (set_ws s <$> states, r).

Definition on_sources {A} (m : Op T A) : Op Site A := fun s =>
  let '(states, r) := m (st_sources s) in (set_sources s <$> states, r).

(** ** The store of the sources, [GenerationStore] of src/zicato/epoch/genstore.py *)

Class GenerationStore := {
  has_generation : T -> string -> string -> bool;
  list_generations : T -> string -> list string;
  snapshot_exists : T -> string -> string -> bool;
  prune_generations : string -> list string -> Op T unit;
}.

(** Pruning leaves the sources of other generations and never brings one back. *)
Class GenerationStoreLaws `{GenerationStore} : Prop := {
  prune_other epoch_id ids t t' epoch' gid :
    t' ∈ (prune_generations epoch_id ids t).1 -> epoch' <> epoch_id \/ gid ∉ ids ->
    has_generation t' epoch' gid = has_generation t epoch' gid
    /\ snapshot_exists t' epoch' gid = snapshot_exists t epoch' gid;
  prune_shrinks epoch_id ids t t' epoch' gid :
    t' ∈ (prune_generations epoch_id ids t).1 ->
    (has_generation t' epoch' gid = true -> has_generation t epoch' gid = true)
    /\ (snapshot_exists t' epoch' gid = true -> snapshot_exists t epoch' gid = true);
}.

Definition drop_key {K V} `{EqDecision K} (k : K) (d : list (K * V)) : list (K * V) :=
  List.filter (fun item => negb (bool_decide (item.1 = k))) d.

(** ** The records of a generation *)

(** An id that names one directory. *)
Definition namespace_ok (name : string) : bool :=
  negb (String.eqb name "") && negb (String.eqb name ".") && negb (String.eqb name "..")
  && str_forallb (fun c => negb (Ascii.eqb c "/"%char) && negb (Ascii.eqb c "\"%char)) name.

Definition has_dir (s : Site) (epoch_id gid : string) : bool := bool_decide ((epoch_id, gid) ∈ st_dirs s).

Definition generation_ids (epoch_id : string) (s : Site) : list string :=
  if namespace_ok epoch_id then
    py_sorted natural_lt (sorted_strings
      (List.filter (fun dir => String.eqb dir.1 epoch_id) (st_dirs s)).*2)
  else [].

Definition run_entry_ids (epoch_id gid : string) (s : Site) : list string :=
  if namespace_ok epoch_id && namespace_ok gid then
    py_sorted natural_lt (sorted_strings ((fun run => run.1.2) <$>
      List.filter (fun run => bool_decide (run.1.1 = (epoch_id, gid))) (st_runs s)))
  else [].

Definition _latest_generation_id (epoch_id : string) (s : Site) : option string :=
  List.last (Some <$> List.filter (fun gid => bool_decide (is_Some (generation_round_number gid)))
                        (generation_ids epoch_id s)) None.

(** A part of a record directory. *)
Inductive Part := ExperimentPart | PatchPart (patch_id : string) | RunPart (entry_id : string).

Definition parts (epoch_id gid : string) (s : Site) : list Part :=
  (if dict_mem (ws_experiments (st_ws s)) (epoch_id, gid) then [ExperimentPart] else [])
  ++ ((fun item : (string * string * string) * FileText => PatchPart item.1.2) <$>
        List.filter (fun item => bool_decide (item.1.1 = (epoch_id, gid))) (ws_patches (st_ws s)))
  ++ ((fun item : (string * string * string) * list SeedDir => RunPart item.1.2) <$>
        List.filter (fun item => bool_decide (item.1.1 = (epoch_id, gid))) (st_runs s)).

Definition without_experiment (key : string * string) (w : Workspace) : Workspace := {|
  ws_lineage := ws_lineage w; ws_experiments := drop_key key (ws_experiments w); ws_patches := ws_patches w;
  ws_tournaments := ws_tournaments w; ws_rounds := ws_rounds w; ws_revisions := ws_revisions w; ws_hooks := ws_hooks w |}.

Definition without_patch (key : string * string * string) (w : Workspace) : Workspace := {|
  ws_lineage := ws_lineage w; ws_experiments := ws_experiments w; ws_patches := drop_key key (ws_patches w);
  ws_tournaments := ws_tournaments w; ws_rounds := ws_rounds w; ws_revisions := ws_revisions w; ws_hooks := ws_hooks w |}.

Definition without_tournament (key : string * string) (w : Workspace) : Workspace := {|
  ws_lineage := ws_lineage w; ws_experiments := ws_experiments w; ws_patches := ws_patches w;
  ws_tournaments := drop_key key (ws_tournaments w); ws_rounds := ws_rounds w;
  ws_revisions := ws_revisions w; ws_hooks := ws_hooks w |}.

Definition set_round_dirs (epoch_id : string) (dirs : list (string * option FileText)) (w : Workspace) : Workspace := {|
  ws_lineage := ws_lineage w; ws_experiments := ws_experiments w; ws_patches := ws_patches w;
  ws_tournaments := ws_tournaments w; ws_rounds := dict_set (ws_rounds w) epoch_id dirs;
  ws_revisions := ws_revisions w; ws_hooks := ws_hooks w |}.

Definition remove_part (epoch_id gid : string) (p : Part) (s : Site) : Site :=
  match p with
  | ExperimentPart => set_ws s (without_experiment (epoch_id, gid) (st_ws s))
  | PatchPart pid => set_ws s (without_patch (epoch_id, gid, pid) (st_ws s))
  | RunPart entry => set_records s (st_ws s) (st_dirs s) (drop_key (epoch_id, gid, entry) (st_runs s))
  end.

Definition remove_dir (epoch_id gid : string) (s : Site) : Site :=
  set_records s (st_ws s)
    (List.filter (fun dir => negb (bool_decide (dir = (epoch_id, gid)))) (st_dirs s)) (st_runs s).

(** [shutil.rmtree] of a record directory: its parts in the order of [scandir], one at a
    time, then the directory. *)
Context (scandir : list Part -> list Part).

Definition rmtree_generation (epoch_id gid : string) : Op Site unit :=
  perform found <- wop_read (fun s => Ok (scandir (parts epoch_id gid s)));
  perform _ <- wop_each (fun p => wop_write (remove_part epoch_id gid p)) found;
  wop_write (remove_dir epoch_id gid).

(** The directory of a round: its receipt, if any, then the directory. *)
Definition rmtree_round (epoch_id : string) (round_index : Z) : Op Site unit :=
  perform found <- wop_read (fun s => Ok (receipt_text (st_ws s) epoch_id round_index));
  perform _ <- match found with
               | None => wop_ret (Ok tt)
               | Some _ => wop_write (fun s => set_ws s (set_round_dirs epoch_id
                             (dict_set (round_dirs (st_ws s) epoch_id) (pretty round_index) None) (st_ws s)))
               end;
  wop_write (fun s => set_ws s (set_round_dirs epoch_id
    (drop_key (pretty round_index) (round_dirs (st_ws s) epoch_id)) (st_ws s))).
End Site.

Arguments Site : clear implicits.
Arguments GenerationStore : clear implicits.

Section Restart.
Context `{PyRepr} `{PyFormat} `{Libm} {T : Type} `{!GenerationStore T} (scandir : list Part -> list Part).

(** ** Cleanup *)

(** One record directory, after its source is verified to be gone. *)
Definition prune_record (epoch_id gid : string) : Op (Site T) unit :=
  perform _ <- wop_read (fun s =>
    ensure negb (has_generation (st_sources s) epoch_id gid || snapshot_exists (st_sources s) epoch_id gid)
      orelse RuntimeError ("generation source cleanup failed for " +:+ epoch_id +:+ "/" +:+ gid); Ok tt);
  perform present <- wop_read (fun s => Ok (has_dir s epoch_id gid));
  perform _ <- (if present then rmtree_generation scandir epoch_id gid else wop_ret (Ok tt));
  wop_read (fun s =>
    ensure negb (has_dir s epoch_id gid)
      orelse RuntimeError ("generation record cleanup failed for " +:+ epoch_id +:+ "/" +:+ gid); Ok tt).

(** The store, then the record directories. *)
Definition _prune_generation_records (epoch_id : string) (ids : list string) : Op (Site T) unit :=
  perform _ <- on_sources (prune_generations epoch_id ids);
  wop_each (prune_record epoch_id) ids.

Definition index_files : list string := ["index.db"; "index.db-wal"; "index.db-shm"].

Definition _invalidate_index_before_field_discard : Op (Site T) unit :=
  perform _ <- wop_each (fun file => wop_write (fun s =>
    set_index s (List.filter (fun f => negb (String.eqb f file)) (st_index s)))) index_files;
  wop_read (fun s =>
    match List.filter (fun f => bool_decide (f ∈ st_index s)) index_files with
    | [] => Ok tt
    | remaining => Raise (RuntimeError ("could not invalidate derived index: " +:+ py_join ", " remaining))
    end).

(** The tournament record and the directory of a discarded round. *)
Definition discard_round (epoch_id : string) (round_index : Z) (first_id : string) : Op (Site T) unit :=
  perform _ <- wop_write (fun s => set_ws s (without_tournament (epoch_id, first_id) (st_ws s)));
  perform present <- wop_read (fun s => Ok (dict_mem (round_dirs (st_ws s) epoch_id) (pretty round_index)));
  perform _ <- (if present then rmtree_round epoch_id round_index else wop_ret (Ok tt));
  wop_read (fun s =>
    ensure negb (dict_mem (round_dirs (st_ws s) epoch_id) (pretty round_index))
      orelse RuntimeError ("round record cleanup failed for " +:+ epoch_id +:+ "/round " +:+ pretty round_index);
    Ok tt).

Definition discard_field (epoch_id : string) (field : option Z * list string) : Op (Site T) unit :=
  perform _ <- _prune_generation_records epoch_id field.2;
  match field.1, field.2 with
  | Some round_index, first_id :: _ => discard_round epoch_id round_index first_id
  | Some _, [] => wop_ret (Raise (OtherException "IndexError"))
  | None, _ => wop_ret (Ok tt)
  end.

Definition _discard_candidates (epoch_id : string) (fields : list (option Z * list string))
    (lineaged_ids : list string) : Op (Site T) unit :=
  perform _ <- _invalidate_index_before_field_discard;
  perform _ <- wop_each (discard_field epoch_id) fields;
  perform removed <- on_ws (discard_pending_generations epoch_id lineaged_ids);
  wop_ret (ensure bool_decide ((list_to_set removed : gset string) = list_to_set lineaged_ids)
             orelse RuntimeError "candidate cleanup could not remove every pending lineage node"; Ok tt).

(** ** The pending lineage *)

Definition _lineage_generation_rows (epoch_id : string) (ws : Workspace) : result (list LineageGeneration) :=
  try lineage <- load_lineage ws;
  Ok (match lineage_epoch lineage epoch_id with Some epoch => le_generations epoch | None => [] end).

(** The coordinates of a field: its round and the parent its candidates were made from. *)
Definition field_key (row : LineageGeneration) : option (Z * string) :=
  match lg_round_index row, lg_parent_id row with
  | Some round_index, Some parent_id =>
      if (round_index <? 0) || String.eqb parent_id "" then None else Some (round_index, parent_id)
  | _, _ => None
  end.

(** The groups so far, with their ids in the order of the rows, and the promoted keys. *)
Definition group_row (acc : list ((Z * string) * list string) * list (Z * string)) (row : LineageGeneration)
    : result (list ((Z * string) * list string) * list (Z * string)) :=
  let '(groups, promoted_groups) := acc in
  match lg_promoted row with
  | Some false => Ok acc
  | promoted =>
      match field_key row with
      | None => match promoted with
                | None => Raise (RuntimeError "pending lineage contains an invalid field identity")
                | Some _ => Ok acc
                end
      | Some key => match promoted with
                    | None => Ok (dict_set groups key (dict_get_or groups key [] ++ [lg_id row]), promoted_groups)
                    | Some _ => Ok (groups, key :: promoted_groups)
                    end
      end
  end.

Definition sibling_lt (a b : string) : bool :=
  let number gid := from_option id (2 ^ 31 - 1) (generation_round_number gid) in
  if number a =? number b then str_lt a b else number a <? number b.

Definition grouped_rows (rows : list LineageGeneration) : result (list ((Z * string) * list string)) :=
  try out <- result_foldl group_row ([], []) rows;
  ensure negb (existsb (fun key => dict_mem out.1 key) out.2)
    orelse RuntimeError "unrecorded field has both promoted and pending generations";
  Ok ((fun item => (item.1, py_sorted sibling_lt item.2)) <$> out.1).

Definition _pending_lineage_groups (epoch_id : string) (ws : Workspace) : result (list ((Z * string) * list string)) :=
  try rows <- _lineage_generation_rows epoch_id ws;
  grouped_rows rows.

(** ** Source no record accounts for *)

Definition unrecorded_source (epoch_id : string) (s : Site T) : result (list string) :=
  try rows <- _lineage_generation_rows epoch_id (st_ws s);
  let canonical := generation_ids epoch_id s ++ (lg_id <$> rows) in
  Ok (List.filter (fun gid => negb (String.eqb gid _BASELINE_GENERATION_ID) && negb (bool_decide (gid ∈ canonical)))
        (list_generations (st_sources s) epoch_id)).

Definition _discard_unrecorded_source (epoch_id : string) : Op (Site T) (list string) :=
  perform unrecorded <- wop_read (unrecorded_source epoch_id);
  match unrecorded with
  | [] => wop_ret (Ok [])
  | _ => perform _ <- _prune_generation_records epoch_id unrecorded; wop_ret (Ok unrecorded)
  end.

(** ** Fields without a receipt *)

(** [frozen] is the structure of the epoch's contract and its experimental block; [None]
    when the epoch has no contract. *)
Definition _configured_field_size (frozen : option (TournamentStructure * option ExperimentalConfig)) : result Z :=
  match frozen with
  | None => Ok 1
  | Some (structure, experimental) =>
      try strategy <- make_strategy structure None None None experimental;
      Ok (field_size strategy)
  end.

Definition cleanup_started (epoch_id : string) (pending : list string) (s : Site T) : bool :=
  existsb (fun gid => negb (has_generation (st_sources s) epoch_id gid) || negb (has_dir s epoch_id gid)) pending.

(** [backend.read_json(...) is not None] *)
Definition receipt_present (epoch_id : string) (round_index : Z) (ws : Workspace) : result bool :=
  match receipt_text ws epoch_id round_index with
  | None | Some (Some JNull) => Ok false
  | Some None => Raise (ValueError "not a JSON document")
  | Some (Some _) => Ok true
  end.

Definition unrecorded_field (size : Z) (epoch_id : string) (s : Site T) (group : (Z * string) * list string)
    : result bool :=
  let '((round_index, _), pending) := group in
  if (size <=? 1) && (Nat.eqb (length pending) 1) && negb (cleanup_started epoch_id pending s) then Ok false
  else try present <- receipt_present epoch_id round_index (st_ws s); Ok (negb present).

Fixpoint result_filter {A} (f : A -> result bool) (l : list A) : result (list A) :=
  match l with
  | [] => Ok []
  | x :: l => try keep <- f x; try kept <- result_filter f l; Ok (if keep then x :: kept else kept)
  end.

Definition field_lt (a b : Z * list string) : bool :=
  if a.1 =? b.1 then tuple_lt str_lt a.2 b.2 else a.1 <? b.1.

Definition _unrecorded_fields_without_receipts (frozen : option (TournamentStructure * option ExperimentalConfig))
    (epoch_id : string) (s : Site T) : result (list (Z * list string)) :=
  try size <- _configured_field_size frozen;
  try groups <- _pending_lineage_groups epoch_id (st_ws s);
  try fields <- result_filter (unrecorded_field size epoch_id s) groups;
  Ok (py_sorted field_lt ((fun group => (group.1.1, group.2)) <$> fields)).

Definition _discard_unrecorded_fields (frozen : option (TournamentStructure * option ExperimentalConfig))
    (epoch_id : string) : Op (Site T) (list string) :=
  perform fields <- wop_read (_unrecorded_fields_without_receipts frozen epoch_id);
  match fields with
  | [] => wop_ret (Ok [])
  | _ =>
      let discarded := fields ≫= snd in
      perform _ <- _discard_candidates epoch_id ((fun f => (Some f.1, f.2)) <$> fields) discarded;
      wop_ret (Ok discarded)
  end.

(** ** One interrupted generation *)

Definition interrupted_round (epoch_id gid : string) (round_index : option Z) (ws : Workspace)
    : result (option Z * bool) :=
  try groups <- _pending_lineage_groups epoch_id ws;
  match List.filter (fun group => bool_decide (gid ∈ group.2)) groups with
  | [] => Ok (round_index, false)
  | [((recorded_round, _), siblings)] =>
      ensure Nat.eqb (length siblings) 1
        orelse RuntimeError "single-generation cleanup received an unresolved field";
      ensure match round_index with Some n => n =? recorded_round | None => true end
        orelse RuntimeError ("generation " +:+ py_repr (JStr gid) +:+ " has conflicting round coordinates");
      Ok (Some recorded_round, true)
  | _ => Raise (RuntimeError ("lineage contains duplicate generation id " +:+ py_repr (JStr gid)))
  end.

Definition discard_interrupted_generation (epoch_id gid : string) (round_index : option Z) : Op (Site T) unit :=
  perform found <- wop_read (fun s => interrupted_round epoch_id gid round_index (st_ws s));
  _discard_candidates epoch_id [(found.1, [gid])] (if found.2 then [gid] else []).

(** ** The plan *)

Inductive Classification :=
  | clean | resume_tournament | discard_partial_proposal | discard_unapplied | discard_no_progress
  | discard_garbled | discard_unrecorded_field.

Record ResumePlan := {
  resume_generation_id : option string;
  resume_experiment : option Experiment;
  discarded_generation_id : option string;
  classification : Classification;
}.

Definition resumes_in_place (p : ResumePlan) : bool :=
  match resume_generation_id p, resume_experiment p with Some _, Some _ => true | _, _ => false end.

Definition clean_plan : ResumePlan := {|
  resume_generation_id := None; resume_experiment := None; discarded_generation_id := None; classification := clean |}.

Definition discarded_plan (gid : string) (c : Classification) : ResumePlan := {|
  resume_generation_id := None; resume_experiment := None; discarded_generation_id := Some gid; classification := c |}.

(** The live state goes file by file. *)
Definition clear_runtime_state : Op (Site T) unit :=
  perform _ <- wop_write (fun s => set_runtime s false (st_heartbeat s) (st_active_runs s));
  perform _ <- wop_write (fun s => set_runtime s (st_tournament_log s) false (st_active_runs s));
  perform runs <- wop_read (fun s => Ok (st_active_runs s));
  wop_each (fun run => wop_write (fun s =>
    set_runtime s (st_tournament_log s) (st_heartbeat s)
      (List.filter (fun other => negb (String.eqb other run)) (st_active_runs s)))) runs.

Definition _has_any_loss (epoch_id gid : string) (s : Site T) : bool :=
  existsb (fun entry =>
    match iter_measurement_artifacts entry (dict_get_or (st_runs s) (epoch_id, gid, entry) []) "loss" with
    | [] => false
    | _ => true
    end) (run_entry_ids epoch_id gid s).

Definition _experiment_file_present (epoch_id gid : string) (s : Site T) : bool :=
  dict_mem (ws_experiments (st_ws s)) (epoch_id, gid).

Definition _matches_single_pending_lineage (epoch_id gid : string) (e : Experiment) (s : Site T) : result bool :=
  match parent_generation_id e with
  | Some parent_id =>
      if negb (String.eqb (exp_epoch_id e) epoch_id) || negb (String.eqb (exp_generation_id e) gid)
         || String.eqb parent_id "" || (round_index e <? 0)
      then Ok false
      else
        try groups <- _pending_lineage_groups epoch_id (st_ws s);
        Ok (bool_decide (dict_get groups (round_index e, parent_id) = Some [gid]))
  | None => Ok false
  end.

(** [except (FileNotFoundError, KeyError, RecordError, ValueError, OSError)] *)
Definition unreadable (e : exn) : bool :=
  match e with
  | ValueError _ | KeyError _ | RecordError _ | ConfigurationError _ _ _ => true
  | OtherException c => bool_decide (c ∈ ["FileNotFoundError"; "OSError"])
  | _ => false
  end.

(** The latest generation is resumed, discarded, or was settled. *)
Definition classify (epoch_id latest : string) : Op (Site T) ResumePlan :=
  let discard round_index c :=
    perform _ <- discard_interrupted_generation epoch_id latest round_index;
    wop_ret (Ok (discarded_plan latest c)) in
  perform read <- wop_read (fun s => Ok (read_experiment epoch_id latest (st_ws s)));
  match read with
  | Raise e =>
      if unreadable e then
        perform present <- wop_read (fun s => Ok (_experiment_file_present epoch_id latest s));
        discard None (if present then discard_garbled else discard_partial_proposal)
      else wop_ret (Raise e)
  | Ok experiment =>
      if bool_decide (is_Some (exp_outcome experiment)) then wop_ret (Ok clean_plan)
      else
        perform snapshot_present <- wop_read (fun s => Ok (has_generation (st_sources s) epoch_id latest));
        if negb snapshot_present then discard (Some (round_index experiment)) discard_unapplied
        else
          perform any_loss <- wop_read (fun s => Ok (_has_any_loss epoch_id latest s));
          if negb any_loss then discard (Some (round_index experiment)) discard_no_progress
          else
            perform matches <- wop_read (_matches_single_pending_lineage epoch_id latest experiment);
            if negb matches then discard None discard_garbled
            else wop_ret (Ok {| resume_generation_id := Some latest; resume_experiment := Some experiment;
                                discarded_generation_id := None; classification := resume_tournament |})
  end.

(** What follows the replay of the receipts. *)
Definition reconcile (frozen : option (TournamentStructure * option ExperimentalConfig)) (epoch_id : string)
    : Op (Site T) ResumePlan :=
  perform _ <- _discard_unrecorded_source epoch_id;
  perform discarded_field <- _discard_unrecorded_fields frozen epoch_id;
  perform _ <- clear_runtime_state;
  match discarded_field with
  | first_id :: _ => wop_ret (Ok (discarded_plan first_id discard_unrecorded_field))
  | [] =>
      perform latest <- wop_read (fun s => Ok (_latest_generation_id epoch_id s));
      match latest with
      | None => wop_ret (Ok clean_plan)
      | Some latest =>
          if String.eqb latest _BASELINE_GENERATION_ID then wop_ret (Ok clean_plan)
          else classify epoch_id latest
      end
  end.

(** Under the writer's lock; [ingest] is the refresh of the derived index. *)
Definition prepare_resume (ingest : Workspace -> SettlementReceipt -> option string)
    (frozen : option (TournamentStructure * option ExperimentalConfig)) (epoch_id : string) : Op (Site T) ResumePlan :=
  perform _ <- on_ws (recover_field_settlements ingest epoch_id);
  reconcile frozen epoch_id.
End Restart.
