(* ===== verification/ResumeSpec.v ===== *)
(** A restart is safe.  Whatever it discards and wherever a further crash cuts it off, the
    files of a settled generation stay as they were; a discard that was cut off is taken
    up again by the next restart or has left nothing behind; and what is resumed in place
    is the experiment on disk with the snapshot and the measurements it left. *)
From Stdlib Require Import Ascii.
From S2P Require Import Prelude PyFloat PyText PyJson CoreTypes Params Records Journal Lineage Measurement Strategy Registry Receipt ReceiptSpec Settlement ReceiptScans Resume.

#[local] Open Scope Z_scope.

(** ** Relations every step respects *)

(** Every state an operation passes through is related to the one it started from. *)
Definition keeps {S A} (R : S -> S -> Prop) (m : Op S A) : Prop := forall s, wpc m (R s) (fun _ => R s) s.

Section Keeps.
Context {S : Type} (R : S -> S -> Prop) `{!PreOrder R}.

Lemma keeps_ret {A} (r : result A) : keeps R (wop_ret r).
Proof. intros s. by apply wpc_ret. Qed.

Lemma keeps_read {A} (f : S -> result A) : keeps R (wop_read f).
Proof. intros s. by apply wpc_read. Qed.

Lemma keeps_write f : (forall s, R s (f s)) -> keeps R (wop_write f).
Proof. intros Hf s. by apply wpc_write. Qed.

Lemma keeps_from {A} (m : Op S A) s t : R s t -> keeps R m -> wpc m (R s) (fun _ => R s) t.
Proof.
  intros Hst Hm. eapply wpc_mono; [apply Hm| |]; [intros u ?|intros ? u ?]; by transitivity t.
Qed.

Lemma keeps_bind {A B} (m : Op S A) (k : A -> Op S B) :
  keeps R m -> (forall a, keeps R (k a)) -> keeps R (wop_bind m k).
Proof.
  intros Hm Hk s. apply wpc_bind. eapply wpc_mono; [apply Hm|done|].
  intros [a|e] t Ht; [|done]. by apply keeps_from.
Qed.

Lemma keeps_each {A} (f : A -> Op S unit) l : (forall x, x ∈ l -> keeps R (f x)) -> keeps R (wop_each f l).
Proof.
  induction l as [|x l IH]; intros Hf; cbn; [apply keeps_ret|].
  apply keeps_bind; [by apply Hf, list_elem_of_here|]. intros _. apply IH. intros y Hy.
  by apply Hf, list_elem_of_further.
Qed.

Lemma keeps_states {A} (m : Op S A) s t : keeps R m -> t ∈ (m s).1 -> R s t.
Proof. intros Hm. by apply (wpc_states _ _ _ _ _ (Hm s)). Qed.

Lemma keeps_final {A} (m : Op S A) s : keeps R m -> R s (final_ws s (m s).1).
Proof. intros Hm. apply (Hm s). Qed.
End Keeps.

(** Down to the writes. *)
Ltac keep_steps :=
  repeat match goal with
         | |- keeps _ (wop_ret _) => apply keeps_ret; apply _
         | |- keeps _ (wop_read _) => apply keeps_read; apply _
         | |- keeps _ (wop_each _ _) => apply keeps_each; [apply _|intros ? ?]
         | |- keeps _ (wop_bind _ _) => apply keeps_bind; [apply _| |intros ?]
         | |- keeps _ (match ?x with _ => _ end) => destruct x
         end.

Lemma Forall_last {S} (P : S -> Prop) l d : Forall P l -> P d -> P (List.last l d).
Proof. intros Hl. revert d. induction Hl as [|x l Hx Hl IH]; intros d Hd; [done|]. destruct l; [done|]. by apply IH. Qed.

(** An operation on one component of the site. *)
Lemma keeps_on_ws {T A} (R : Site T -> Site T -> Prop) (m : Wop A) :
  (forall s w, w ∈ (m (st_ws s)).1 -> R s (set_ws s w)) -> (forall s, R s s) -> keeps R (on_ws m).
Proof.
  intros Hm Hr s. unfold wpc, on_ws. destruct (m (st_ws s)) as [l r] eqn:E. cbn.
  assert (Hl : Forall (R s) (set_ws s <$> l)).
  { apply Forall_fmap, Forall_forall. intros w Hw. apply Hm. by rewrite E. }
  split; [done|]. by apply Forall_last.
Qed.

Lemma keeps_on_sources {T A} (R : Site T -> Site T -> Prop) (m : Op T A) :
  (forall s t, t ∈ (m (st_sources s)).1 -> R s (set_sources s t)) -> (forall s, R s s) -> keeps R (on_sources m).
Proof.
  intros Hm Hr s. unfold wpc, on_sources. destruct (m (st_sources s)) as [l r] eqn:E. cbn.
  assert (Hl : Forall (R s) (set_sources s <$> l)).
  { apply Forall_fmap, Forall_forall. intros w Hw. apply Hm. by rewrite E. }
  split; [done|]. by apply Forall_last.
Qed.

(** Every state of a program, and its last one, is a state of a first part of it or one
    of the rest run where the first part ended. *)
Lemma bind_states {S A B} (m : Op S A) (k : A -> Op S B) s t :
  t ∈ (wop_bind m k s).1 ->
  t ∈ (m s).1 \/ exists a, (m s).2 = Ok a /\ t ∈ (k a (final_ws s (m s).1)).1.
Proof.
  unfold wop_bind. destruct (m s) as [l [a|e]]; cbn [fst snd]; [|by left].
  destruct (k a _) as [l' r'] eqn:E; cbn [fst snd]. rewrite elem_of_app. intros [?|?]; [by left|right].
  exists a. split; [done|]. cbn [fst snd]. by rewrite E.
Qed.

Lemma bind_ok {S A B} (m : Op S A) (k : A -> Op S B) s b :
  (wop_bind m k s).2 = Ok b ->
  exists a, (m s).2 = Ok a /\ (k a (final_ws s (m s).1)).2 = Ok b
    /\ final_ws s (wop_bind m k s).1 = final_ws (final_ws s (m s).1) (k a (final_ws s (m s).1)).1.
Proof.
  unfold wop_bind. destruct (m s) as [l [a|e]]; cbn [fst snd]; [|done].
  destruct (k a _) as [l' r'] eqn:E; cbn [fst snd]. intros ->. exists a. cbn [fst snd]. rewrite E. cbn [fst snd]. by rewrite final_ws_app.
Qed.

(** ** The directory store *)

#[export] Instance directory_store : GenerationStore (list (string * string)) := {|
  has_generation t epoch_id gid := bool_decide ((epoch_id, gid) ∈ t);
  list_generations t epoch_id :=
    if namespace_ok epoch_id
    then sorted_strings (List.filter (fun item => String.eqb item.1 epoch_id) t).*2 else [];
  snapshot_exists t epoch_id gid := bool_decide ((epoch_id, gid) ∈ t);
  prune_generations epoch_id ids :=
    wop_each (fun gid => wop_write
      (List.filter (fun item => negb (bool_decide (item = (epoch_id, gid)))))) ids;
|}.

#[export] Instance directory_store_laws : GenerationStoreLaws (T := list (string * string)).
Proof.
  split.
  - intros epoch_id ids t t' epoch' gid Hin Hne.
    pose (R := fun a b : list (string * string) => (epoch', gid) ∈ b <-> (epoch', gid) ∈ a).
    assert (HR : PreOrder R) by (split; unfold R; [done|intros a b c ? ?; tauto]).
    assert (R t t') as Hr.
    { refine (keeps_states R _ _ _ _ Hin). apply (keeps_each R). intros x Hx. apply (keeps_write R).
      intros a. unfold R. rewrite !list_elem_of_In, filter_In, negb_true_iff, bool_decide_eq_false. naive_solver. }
    unfold R in Hr. cbn. by rewrite (bool_decide_ext _ _ Hr).
  - intros epoch_id ids t t' epoch' gid Hin. cbn. rewrite !bool_decide_eq_true.
    assert (Hs : (epoch', gid) ∈ t' -> (epoch', gid) ∈ t); [|done].
    pose (R := fun a b : list (string * string) => (epoch', gid) ∈ b -> (epoch', gid) ∈ a).
    assert (HR : PreOrder R) by (split; unfold R; [by intros ?|intros a b c ? ?; tauto]).
    refine (keeps_states R _ _ _ _ Hin). apply (keeps_each R). intros x Hx. apply (keeps_write R).
    intros a. unfold R. rewrite !list_elem_of_In, filter_In. naive_solver.
Qed.

Lemma drop_key_ne {K V} `{EqDecision K} (k k' : K) (d : list (K * V)) :
  k <> k' -> dict_get (drop_key k d) k' = dict_get d k'.
Proof.
  intros Hne. unfold drop_key. induction d as [|[k2 v] d IH]; cbn; [done|].
  case_bool_decide as Hk; cbn in *; [subst|]; by repeat case_decide.
Qed.

Lemma dict_get_drop {K V} `{EqDecision K} (k : K) (d : list (K * V)) : dict_get (drop_key k d) k = None.
Proof.
  unfold drop_key. induction d as [|[k2 v] d IH]; cbn; [done|].
  case_bool_decide as Hk; cbn in *; [done|]. by rewrite decide_False.
Qed.

Lemma elem_of_dict_set {K V} `{EqDecision K} (d : list (K * V)) k v x :
  x ∈ dict_set d k v -> x = (k, v) \/ x ∈ d.
Proof.
  induction d as [|[k' v'] d IH]; cbn; [set_solver|]. case_decide; [subst; set_solver|].
  intros [->|Hx]%elem_of_cons; [set_solver|]. destruct (IH Hx); set_solver.
Qed.

Lemma dict_get_or_elem {K V} `{EqDecision K} (d : list (K * V)) k v0 :
  dict_get_or d k v0 = v0 \/ (k, dict_get_or d k v0) ∈ d.
Proof.
  unfold dict_get_or. induction d as [|[k' v'] d IH]; cbn; [by left|].
  case_decide; [subst; right; set_solver|]. destruct IH; [by left|right; set_solver].
Qed.

Lemma keeps_and {S A} (R R' : S -> S -> Prop) (m : Op S A) :
  keeps R m -> keeps R' m -> keeps (fun s t => R s t /\ R' s t) m.
Proof. intros Hm Hm' s. destruct (Hm s) as [? ?], (Hm' s) as [? ?]. split; [by apply Forall_and|done]. Qed.

Lemma result_filter_elem {A} (f : A -> result bool) l l' x :
  result_filter f l = Ok l' -> x ∈ l' <-> x ∈ l /\ f x = Ok true.
Proof.
  revert l'. induction l as [|y l IH]; intros l'; cbn; [intros [= <-]; set_solver|].
  intros Hf. apply result_bind_ok in Hf as (b & Hb & Hf). apply result_bind_ok in Hf as (kept & Hk & [= <-]).
  specialize (IH _ Hk). destruct b; rewrite ?elem_of_cons, IH; [naive_solver|].
  split; [naive_solver|]. intros [[->|] ?]; [congruence|done].
Qed.

(** What each step of a loop establishes and the later ones keep holds of all at its end. *)
Lemma each_establishes {S A} (R : S -> S -> Prop) (f : A -> Op S unit) (P : A -> S -> Prop) l s :
  PreOrder R -> (forall x, keeps R (f x)) -> (forall x u v, R u v -> P x u -> P x v) ->
  (forall x u, (f x u).2 = Ok tt -> P x (final_ws u (f x u).1)) ->
  (wop_each f l s).2 = Ok tt -> Forall (fun x => P x (final_ws s (wop_each f l s).1)) l.
Proof.
  intros HR Hf HP Hx. revert s. induction l as [|x l IH]; intros s; cbn [wop_each]; [by constructor|].
  intros Hok. pose proof Hok as ([] & Hfx & Hrest & ->)%bind_ok. constructor; [|by apply IH].
  eapply HP; [|by apply Hx]. refine (keeps_final R (wop_each f l) _ (keeps_each R f l _)). by intros.
Qed.

Lemma last_elem_of {A} (l : list A) d x : List.last l d = x -> x <> d -> x ∈ l.
Proof.
  induction l as [|y l IH]; cbn; [by intros ->|]. destruct l as [|z l]; [intros -> _; apply list_elem_of_here|].
  intros. by apply list_elem_of_further, IH.
Qed.

Lemma filter_strongly_sorted {A} (R : A -> A -> Prop) p l :
  StronglySorted R l -> StronglySorted R (List.filter p l).
Proof.
  induction 1 as [|x l Hs IH Hx]; cbn; [constructor|]. destruct (p x); [|done]. constructor; [done|].
  rewrite Forall_forall in *. intros y. rewrite list_elem_of_In, filter_In, <- list_elem_of_In. intros [? _]. by apply Hx.
Qed.

Lemma drop_key_keys {K V} `{EqDecision K} (k : K) (d : list (K * V)) :
  (drop_key k d).*1 = List.filter (fun x => negb (bool_decide (x = k))) d.*1.
Proof. unfold drop_key. induction d as [|[k' v] d IH]; cbn; [done|]. by case_bool_decide; cbn; rewrite IH. Qed.

Lemma bind_filter {A B} (p : A -> bool) (f : A -> list B) l :
  (forall x, p x = false -> f x = []) -> List.filter p l ≫= f = l ≫= f.
Proof. intros Hf. induction l as [|x l IH]; cbn; [done|]. destruct (p x) eqn:E; cbn; rewrite IH; [done|]. by rewrite (Hf x E). Qed.

(** ** The files of a generation *)

Section Site.
Context `{PyRepr} `{PyFormat} `{Libm} {T : Type} `{!GenerationStore T} `{!GenerationStoreLaws}
  (scandir : list Part -> list Part).

Record same_generation (e g : string) (s t : Site T) : Prop := {
  sg_experiment : dict_get (ws_experiments (st_ws t)) (e, g) = dict_get (ws_experiments (st_ws s)) (e, g);
  sg_patches pid : dict_get (ws_patches (st_ws t)) (e, g, pid) = dict_get (ws_patches (st_ws s)) (e, g, pid);
  sg_dir : has_dir t e g = has_dir s e g;
  sg_runs entry : dict_get (st_runs t) (e, g, entry) = dict_get (st_runs s) (e, g, entry);
  sg_source : has_generation (st_sources t) e g = has_generation (st_sources s) e g;
  sg_snapshot : snapshot_exists (st_sources t) e g = snapshot_exists (st_sources s) e g;
}.

#[local] Instance same_generation_preorder e g : PreOrder (same_generation e g).
Proof.
  split; [by intros s; split|]. intros s t u [] []. split; intros; etrans; eauto.
Qed.

(** The removal of the parts of another generation. *)
Lemma rmtree_spares e g e' g' : (e', g') <> (e, g) -> keeps (same_generation e' g') (rmtree_generation scandir e g).
Proof.
  intros Hne. unfold rmtree_generation. keep_steps; apply keeps_write; intros s.
  - match goal with p : Part |- _ => destruct p end; split; cbn; intros; rewrite ?drop_key_ne by congruence; done.
  - split; cbn; intros; try done. unfold has_dir. apply bool_decide_ext. cbn.
    rewrite !list_elem_of_In, filter_In, negb_true_iff, bool_decide_eq_false. naive_solver.
Qed.

Lemma prune_spares e ids e' g' :
  e' <> e \/ g' ∉ ids -> keeps (same_generation e' g') (_prune_generation_records scandir e ids).
Proof.
  intros Hne. unfold _prune_generation_records, prune_record. keep_steps.
  - apply keeps_on_sources; [|done]. intros s t Ht.
    split; cbn; intros; try done; by eapply prune_other in Ht as [??].
  - apply rmtree_spares. intros [= -> ->]. naive_solver.
Qed.

(** What a discard does besides. *)
Lemma rmtree_round_spares e n e' g' : keeps (same_generation e' g') (rmtree_round (T := T) e n).
Proof. unfold rmtree_round. keep_steps; by apply keeps_write. Qed.

(** A rewrite of the lineage touches the lineage and the signals of the index alone. *)
Record same_files (w w' : Workspace) : Prop := {
  sf_experiments : ws_experiments w' = ws_experiments w;
  sf_patches : ws_patches w' = ws_patches w;
  sf_tournaments : ws_tournaments w' = ws_tournaments w;
  sf_rounds : ws_rounds w' = ws_rounds w;
}.

#[local] Instance same_files_preorder : PreOrder same_files.
Proof. split; [by intros w; split|]. intros a b c [] []. split; congruence. Qed.

Lemma save_raw_files raw : keeps same_files (_save_raw raw).
Proof.
  unfold _save_raw, write_lineage, _replace_lineage, put_lineage. keep_steps; try by apply keeps_write.
  intros w. unfold mark_epoch_changed. destruct (epoch_name_ok _); [by apply wpc_write|by apply wpc_ret].
Qed.

Lemma discard_pending_files e ids : keeps same_files (discard_pending_generations e ids).
Proof. unfold discard_pending_generations. keep_steps; apply save_raw_files. Qed.

Lemma same_files_generation e g (s : Site T) w : same_files (st_ws s) w -> same_generation e g s (set_ws s w).
Proof. intros []. split; cbn; intros; by f_equal. Qed.

Lemma discard_field_spares e field e' g' :
  e' <> e \/ g' ∉ field.2 -> keeps (same_generation e' g') (discard_field scandir e field).
Proof.
  intros Hne. unfold discard_field, discard_round. keep_steps;
    first [apply prune_spares, Hne|apply rmtree_round_spares|by apply keeps_write].
Qed.

Lemma invalidate_spares e g : keeps (same_generation e g) (_invalidate_index_before_field_discard (T := T)).
Proof. unfold _invalidate_index_before_field_discard. keep_steps; by apply keeps_write. Qed.

Lemma candidates_spare e fields ids e' g' :
  e' <> e \/ g' ∉ (fields ≫= snd) -> keeps (same_generation e' g') (_discard_candidates scandir e fields ids).
Proof.
  intros Hne. unfold _discard_candidates. keep_steps; [apply invalidate_spares|apply discard_field_spares|].
  - destruct Hne as [?|Hne]; [by left|right]. contradict Hne. apply list_elem_of_bind. eauto.
  - apply keeps_on_ws; [|done]. intros s w Hw. apply same_files_generation.
    exact (keeps_states _ _ _ _ (discard_pending_files e ids) Hw).
Qed.

Lemma clear_runtime_spares e g : keeps (same_generation e g) (clear_runtime_state (T := T)).
Proof. unfold clear_runtime_state. keep_steps; by apply keeps_write. Qed.

(** ** The registers *)

(** What the lineage says depends on the file of the lineage and on the receipts. *)
Record same_registers (w w' : Workspace) : Prop := {
  sr_lineage : ws_lineage w' = ws_lineage w;
  sr_rounds : ws_rounds w' = ws_rounds w;
}.

Definition registers_kept (s t : Site T) : Prop := same_registers (st_ws s) (st_ws t).

#[local] Instance registers_kept_preorder : PreOrder registers_kept.
Proof. split; [by intros s; split|]. intros a b c [] []. split; congruence. Qed.

(** The lineage and the receipts read the same. *)
Record quiet (w w' : Workspace) : Prop := {
  qu_lineage : ws_lineage w' = ws_lineage w;
  qu_text e n : receipt_text w' e n = receipt_text w e n;
  qu_receipts e : iter_settlement_receipts e w' = iter_settlement_receipts e w;
}.

#[local] Instance quiet_preorder : PreOrder quiet.
Proof. split; [by intros w; split|]. intros a b c [] []. split; intros; etrans; eauto. Qed.

Lemma quiet_registers w w' : same_registers w w' -> quiet w w'.
Proof.
  intros [Hl Hr]. split; [done|..]; intros; unfold iter_settlement_receipts, _stored_receipt_locations, scanned_epochs,
    read_settlement_receipt, receipt_text, round_dirs; by rewrite Hr.
Qed.

Lemma rows_quiet w w' e : quiet w w' -> _lineage_generation_rows e w' = _lineage_generation_rows e w.
Proof.
  intros [Hl _ Hr]. unfold _lineage_generation_rows, load_lineage, _load_raw. rewrite Hl.
  destruct (ws_lineage w) as [raw|]; [|done].
  destruct (match raw with None => _ | Some v => _ end) as [d|x]; cbn; [|done].
  assert (Hm : result_map (overlay_epoch w') (raw_epochs d) = result_map (overlay_epoch w) (raw_epochs d)).
  { induction (raw_epochs d) as [|x l IH]; cbn; [done|]. rewrite IH. unfold overlay_epoch at 1 3. by rewrite Hr. }
  by rewrite Hm.
Qed.

Lemma groups_quiet w w' e : quiet w w' -> _pending_lineage_groups e w' = _pending_lineage_groups e w.
Proof. intros Hq. unfold _pending_lineage_groups. by rewrite (rows_quiet w w' e Hq). Qed.

Lemma receipt_text_same w w' e n : same_registers w w' -> receipt_text w' e n = receipt_text w e n.
Proof. intros [_ Hr]. unfold receipt_text, round_dirs. by rewrite Hr. Qed.

Lemma read_experiment_same e g (s t : Site T) :
  same_generation e g s t -> registers_kept s t ->
  read_experiment e g (st_ws t) = read_experiment e g (st_ws s).
Proof.
  intros [He Hp _ _ _ _] Hk.
  assert (Hb : _accepted_body e g (st_ws t) = _accepted_body e g (st_ws s)).
  { unfold _accepted_body, overlaid_outcome. rewrite He.
    destruct (dict_get (ws_experiments (st_ws s)) (e, g)) as [[[| | | | | |d]|]|]; try done.
    destruct (check_record_format _ _ _); [|done]. cbn [result_bind]. destruct (negb _); [|done].
    destruct (refused_as _ _) as [f|]; [|done]. cbn [result_bind]. by rewrite (receipt_text_same _ _ _ _ Hk). }
  unfold read_experiment. rewrite Hb. clear Hb. destruct (_accepted_body e g (st_ws s)) as [[[f o]|]|]; [|done..]. cbn.
  unfold _experiment_from_body.
  assert (Hs : result_map (stored_patch (st_ws t) e g) (ef_patch_ids f)
             = result_map (stored_patch (st_ws s) e g) (ef_patch_ids f)); [|by rewrite Hs].
  induction (ef_patch_ids f) as [|pid l IH]; cbn; [done|]. rewrite IH. unfold stored_patch. by rewrite Hp.
Qed.

Lemma prune_registers e ids : keeps registers_kept (_prune_generation_records scandir e ids).
Proof.
  unfold _prune_generation_records, prune_record, rmtree_generation. keep_steps; try apply keeps_write; try done.
  - by apply keeps_on_sources.
  - match goal with p : Part |- _ => by destruct p end.
Qed.

Lemma clear_runtime_registers : keeps registers_kept (clear_runtime_state (T := T)).
Proof. unfold clear_runtime_state. keep_steps; by apply keeps_write. Qed.

(** ** The rows of an epoch *)

Lemma decode_generations_ids e ids rows gs :
  decode_generations e ids rows = Ok gs -> NoDup (lg_id <$> gs) /\ forall g, g ∈ lg_id <$> gs -> g ∉ ids.
Proof.
  revert ids gs. induction rows as [|v rows IH]; intros ids gs Hd.
  { injection Hd as <-. split; [constructor|set_solver]. }
  cbn in Hd. apply result_bind_ok in Hd as (g & Hg & Hd). apply result_bind_ok in Hd as (gs' & Hgs & [= <-]).
  destruct (IH _ _ Hgs) as [Hnd Hni].
  assert (lg_id g ∉ ids).
  { unfold decode_generation in Hg. destruct v as [| | | | | |row]; try done.
    apply result_bind_ok in Hg as (gid & _ & Hg). apply if_ok in Hg as [Hn Hg]. peel Hg. injection Hg as <-.
    by case_bool_decide. }
  split; cbn.
  - constructor; [|done]. intros Hin. specialize (Hni _ Hin). set_solver.
  - intros x [->|Hx]%elem_of_cons; [done|]. specialize (Hni _ Hx). set_solver.
Qed.

Lemma decode_epochs_ids ids entries es :
  decode_epochs ids entries = Ok es -> Forall (fun ep => NoDup (lg_id <$> le_generations ep)) es.
Proof.
  revert ids es. induction entries as [|v entries IH]; intros ids es Hd; [injection Hd as <-; constructor|].
  cbn in Hd. apply result_bind_ok in Hd as (ep & Hep & Hd). apply result_bind_ok in Hd as (es' & Hes & [= <-]).
  constructor; [|by eapply IH]. unfold decode_epoch in Hep. destruct v as [| | | | | |d]; try done.
  destruct (get_none d "generations"); try done.
  apply result_bind_ok in Hep as (eid & _ & Hep). apply if_ok in Hep as [_ Hep]. peel Hep. injection Hep as <-.
  by eapply decode_generations_ids.
Qed.

Lemma rows_unique e w rows : _lineage_generation_rows e w = Ok rows -> NoDup (lg_id <$> rows).
Proof.
  unfold _lineage_generation_rows. intros Hr. apply result_bind_ok in Hr as (l & Hl & Hr).
  destruct (lineage_epoch l e) as [ep|] eqn:Ee; injection Hr as <-; [|constructor].
  apply find_first_Some in Ee as [Hin _]. unfold load_lineage in Hl.
  destruct (ws_lineage w); [|injection Hl as <-; set_solver].
  peel Hl. unfold decode_lineage in Hl. destruct (get_none _ "epochs"); try done. peel Hl. simplify_eq/=.
  match goal with H : decode_epochs _ _ = Ok _ |- _ => apply decode_epochs_ids in H as Hf end.
  rewrite Forall_forall in Hf. by apply Hf.
Qed.

(** ** Pending groups *)

Definition pending_in (rows : list LineageGeneration) (key : Z * string) (g : string) : Prop :=
  exists row, row ∈ rows /\ lg_id row = g /\ lg_promoted row = None /\ field_key row = Some key.

Lemma group_rows_pending rows acc out key ids g :
  result_foldl group_row acc rows = Ok out -> (key, ids) ∈ out.1 -> g ∈ ids ->
  pending_in rows key g \/ exists ids', (key, ids') ∈ acc.1 /\ g ∈ ids'.
Proof.
  revert acc. induction rows as [|row rows IH]; intros [groups promoted]; cbn -[group_row].
  { intros [= <-] ? ?. right. eauto. }
  intros Hf Hin Hg. apply result_bind_ok in Hf as (acc & Ha & Hf).
  destruct (IH _ Hf Hin Hg) as [(r & Hr & Hp)|(ids' & Hin' & Hg')].
  { left. exists r. split; [by apply list_elem_of_further|done]. }
  clear IH Hf. unfold group_row in Ha. destruct (lg_promoted row) as [[]|] eqn:Ep; destruct (field_key row) as [key'|] eqn:Ek;
    try done; injection Ha as <-; try by (right; eauto).
  apply elem_of_dict_set in Hin' as [Heq|Hin']; [injection Heq as -> ->|right; eauto].
  apply elem_of_app in Hg' as [Hg'|Hg'%list_elem_of_singleton]; [|subst g].
  - right. destruct (dict_get_or_elem groups key' []) as [E|E]; [rewrite E in Hg'; set_solver|]. eauto.
  - left. exists row. split; [apply list_elem_of_here|done].
Qed.

Lemma groups_pending e w groups key ids g :
  _pending_lineage_groups e w = Ok groups -> (key, ids) ∈ groups -> g ∈ ids ->
  exists rows, _lineage_generation_rows e w = Ok rows /\ pending_in rows key g.
Proof.
  unfold _pending_lineage_groups, grouped_rows. intros Hgr Hin Hg.
  apply result_bind_ok in Hgr as (rows & Hrows & Hgr). apply result_bind_ok in Hgr as (out & Hout & Hgr).
  apply if_ok in Hgr as [_ [= <-]]. apply list_elem_of_fmap in Hin as ([key' ids'] & Heq & Hin); injection Heq as -> ->.
  rewrite elem_of_py_sorted in Hg. exists rows. split; [done|].
  destruct (group_rows_pending _ _ _ _ _ _ Hout Hin Hg) as [?|(? & ? & _)]; [done|]. cbn in *. set_solver.
Qed.

(** A generation whose round is over: its row is resolved and its experiment reads with
    an outcome. *)
Record settled (e g : string) (w : Workspace) : Prop := {
  se_row : exists rows row, _lineage_generation_rows e w = Ok rows /\ row ∈ rows
             /\ lg_id row = g /\ lg_promoted row <> None;
  se_read : exists ex, read_experiment e g w = Ok ex /\ is_Some (exp_outcome ex);
}.

Lemma settled_not_pending e g w groups key ids :
  settled e g w -> _pending_lineage_groups e w = Ok groups -> (key, ids) ∈ groups -> g ∉ ids.
Proof.
  intros [(rows & row & Hrows & Hrow & Hid & Hres) _] Hgr Hin Hg.
  destruct (groups_pending _ _ _ _ _ _ Hgr Hin Hg) as (rows' & Hrows' & row' & Hrow' & Hid' & Hpend & _).
  assert (rows' = rows) as -> by congruence. pose proof (rows_unique _ _ _ Hrows) as Hnd.
  assert (row' = row) as ->; [|done].
  apply list_elem_of_lookup in Hrow as [i Hi]. apply list_elem_of_lookup in Hrow' as [k Hk].
  assert (i = k) as ->; [|congruence].
  eapply (NoDup_lookup _ _ _ _ Hnd); rewrite list_lookup_fmap; [by rewrite Hi; cbn; rewrite Hid|].
  by rewrite Hk; cbn; rewrite Hid'.
Qed.

Lemma settled_same e g (s t : Site T) :
  same_generation e g s t -> registers_kept s t -> settled e g (st_ws s) -> settled e g (st_ws t).
Proof.
  intros Hg Hr [Hrow Hread]. split.
  - by rewrite (rows_quiet _ _ e (quiet_registers _ _ Hr)).
  - by rewrite (read_experiment_same e g s t Hg Hr).
Qed.

(** ** Settled generations are spared *)

Definition view_kept (e g : string) (s t : Site T) : Prop := same_generation e g s t /\ registers_kept s t.

#[local] Instance view_kept_preorder e g : PreOrder (view_kept e g).
Proof. split; [by intros ?; split|]. intros a b c [] []. split; by etrans. Qed.

Lemma settled_view e g s t : view_kept e g s t -> settled e g (st_ws s) -> settled e g (st_ws t).
Proof. intros []. by apply settled_same. Qed.

Lemma prune_view e ids g : g ∉ ids -> keeps (view_kept e g) (_prune_generation_records scandir e ids).
Proof. intros. apply keeps_and; [apply prune_spares; by right|apply prune_registers]. Qed.

Lemma clear_runtime_view e g : keeps (view_kept e g) (clear_runtime_state (T := T)).
Proof. apply keeps_and; [apply clear_runtime_spares|apply clear_runtime_registers]. Qed.

Lemma fields_elem frozen e (s : Site T) fields n ids :
  _unrecorded_fields_without_receipts frozen e s = Ok fields ->
  (n, ids) ∈ fields <-> exists size groups parent, _configured_field_size frozen = Ok size
    /\ _pending_lineage_groups e (st_ws s) = Ok groups /\ ((n, parent), ids) ∈ groups
    /\ unrecorded_field size e s ((n, parent), ids) = Ok true.
Proof.
  unfold _unrecorded_fields_without_receipts. intros Hf. apply result_bind_ok in Hf as (size & Hs & Hf).
  apply result_bind_ok in Hf as (groups & Hg & Hf). apply result_bind_ok in Hf as (kept & Hk & [= <-]).
  rewrite elem_of_py_sorted, list_elem_of_fmap. split.
  - intros ([[n' parent] ids'] & [= -> ->] & Hin). apply (result_filter_elem _ _ _ _ Hk) in Hin as [? ?].
    by exists size, groups, parent.
  - intros (size' & groups' & parent & ? & ? & Hin & Hu).
    assert (size' = size) as -> by congruence. assert (groups' = groups) as -> by congruence. exists ((n, parent), ids). split; [done|].
    by apply (result_filter_elem _ _ _ _ Hk).
Qed.

Lemma settled_not_in_fields frozen e g (s : Site T) fields :
  settled e g (st_ws s) -> _unrecorded_fields_without_receipts frozen e s = Ok fields -> g ∉ (fields ≫= snd).
Proof.
  intros Hs Hf Hin. apply list_elem_of_bind in Hin as ([n ids] & Hg & Hin).
  apply (fields_elem _ _ _ _ _ _ Hf) in Hin as (size & groups & parent & _ & Hgr & Hin & _).
  by eapply settled_not_pending in Hin.
Qed.

Lemma classify_spares e g latest (s : Site T) :
  settled e g (st_ws s) -> wpc (classify scandir e latest) (same_generation e g s) (fun _ _ => True) s.
Proof.
  intros Hs. destruct (decide (latest = g)) as [->|Hne].
  - destruct (se_read _ _ _ Hs) as (ex & Hex & Ho). unfold classify.
    eapply wpc_read_ok; [done|]. rewrite Hex. rewrite bool_decide_eq_true_2 by done. by apply wpc_ret.
  - eapply wpc_mono; [|done|done]. unfold classify, discard_interrupted_generation. cbv zeta.
    assert (H' : forall fields ids, g ∉ (fields ≫= snd) -> keeps (same_generation e g) (_discard_candidates scandir e fields ids)).
    { intros. apply candidates_spare. by right. }
    match goal with |- wpc ?m _ _ _ => assert (Hk : keeps (same_generation e g) m); [|apply Hk] end.
    keep_steps; apply H'; cbn; set_solver.
Qed.

Lemma source_spares e g (s : Site T) :
  settled e g (st_ws s) ->
  wpc (_discard_unrecorded_source scandir e) (view_kept e g s) (fun _ => view_kept e g s) s.
Proof.
  intros Hs. unfold _discard_unrecorded_source. apply wpc_bind, wpc_read.
  destruct (unrecorded_source e s) as [ids|x] eqn:Eu; [|done].
  assert (g ∉ ids) as Hg.
  { destruct (se_row _ _ _ Hs) as (rows & row & Hrows & Hrow & <- & _). unfold unrecorded_source in Eu.
    rewrite Hrows in Eu. injection Eu as <-. rewrite list_elem_of_In, filter_In, andb_true_iff, !negb_true_iff,
      !bool_decide_eq_false, elem_of_app. intros (_ & _ & Hn). apply Hn. right. by apply list_elem_of_fmap_2. }
  destruct ids as [|x ids]; [by apply wpc_ret|].
  assert (Hk : keeps (view_kept e g) (_prune_generation_records scandir e (x :: ids))) by by apply prune_view.
  apply wpc_bind. eapply wpc_mono; [apply Hk|done|]. intros [[]|y] t Ht; [by apply wpc_ret|done].
Qed.

Lemma groups_nonempty e w groups key ids :
  _pending_lineage_groups e w = Ok groups -> (key, ids) ∈ groups -> ids <> [].
Proof.
  unfold _pending_lineage_groups, grouped_rows. intros Hgr Hin.
  apply result_bind_ok in Hgr as (rows & _ & Hgr). apply result_bind_ok in Hgr as (out & Hout & Hgr).
  apply if_ok in Hgr as [_ [= <-]]. apply list_elem_of_fmap in Hin as ([key' ids'] & Heq & Hin). injection Heq as -> ->.
  intros Hnil%py_sorted_nil. cbn in Hnil. subst ids'.
  assert (Hinv : forall rows acc, result_foldl group_row acc rows = Ok out -> (forall k l, (k, l) ∈ acc.1 -> l <> []) ->
            forall k l, (k, l) ∈ out.1 -> l <> []); [|by eapply (Hinv rows _ Hout); [set_solver|exact Hin|]].
  clear. induction rows as [|row rows IH]; intros [groups promoted]; cbn -[group_row]; [by intros [= <-]|].
  intros Hf Hacc. apply result_bind_ok in Hf as (acc & Ha & Hf). apply (IH _ Hf). intros k l Hk.
  unfold group_row in Ha. destruct (lg_promoted row) as [[]|]; destruct (field_key row); try done; injection Ha as <-;
    try by eapply Hacc.
  apply elem_of_dict_set in Hk as [Heq|Hk]; [injection Heq as -> ->; by intros [_ ?]%app_nil|by eapply Hacc].
Qed.

(** An empty list of discarded generations means that nothing was discarded. *)
Lemma fields_spare frozen e g (s : Site T) :
  settled e g (st_ws s) ->
  wpc (_discard_unrecorded_fields scandir frozen e) (same_generation e g s)
    (fun r t => same_generation e g s t /\ (r = Ok [] -> t = s)) s.
Proof.
  intros Hs. unfold _discard_unrecorded_fields. apply wpc_bind, wpc_read.
  destruct (_unrecorded_fields_without_receipts frozen e s) as [fields|x] eqn:Ef; [|done].
  destruct fields as [|[n ids] fields]; [by apply wpc_ret|].
  pose proof (settled_not_in_fields _ _ _ _ _ Hs Ef) as Hg.
  assert (ids <> []) as Hids.
  { assert (Hin : (n, ids) ∈ (n, ids) :: fields) by apply list_elem_of_here.
    apply (fields_elem _ _ _ _ _ _ Ef) in Hin as (size & groups & parent & _ & Hgr & Hin & _).
    by eapply groups_nonempty. }
  apply wpc_bind. eapply wpc_mono; [apply candidates_spare|done|].
  - right. rewrite list_elem_of_bind. intros ([m l] & Hl & Hin). apply list_elem_of_fmap in Hin as (f & [= -> ->] & Hf).
    apply Hg, list_elem_of_bind. by exists f.
  - intros [[]|x] t Ht; [|done]. apply wpc_ret. split; [done|]. cbn. by destruct ids.
Qed.

Lemma reconcile_spares frozen e g (s : Site T) :
  settled e g (st_ws s) -> wpc (reconcile scandir frozen e) (same_generation e g s) (fun _ _ => True) s.
Proof.
  intros Hs. unfold reconcile. apply wpc_bind. eapply wpc_mono; [by apply source_spares|by intros t []|].
  intros [ids|x] t Ht; [|done]. pose proof (settled_view _ _ _ _ Ht Hs) as Hst. destruct Ht as [Ht _].
  assert (Hmono : forall A (m : Op (Site T) A) Q u, same_generation e g s u ->
            wpc m (same_generation e g u) Q u -> wpc m (same_generation e g s) Q u).
  { intros A m Q u Hu Hm. eapply wpc_mono; [exact Hm|intros v ?; by etrans|done]. }
  apply wpc_bind, (Hmono _ _ _ t Ht). eapply wpc_mono; [by apply fields_spare|done|].
  intros [discarded|x] u [Hu Hsame]; [|done].
  apply wpc_bind, (Hmono _ _ _ u); [by etrans|]. eapply wpc_mono; [apply clear_runtime_view|by intros v []|].
  intros [[]|x] v Hv; [|done]. destruct discarded as [|first_id rest]; [|by apply wpc_ret].
  rewrite (Hsame eq_refl) in *. pose proof (settled_view _ _ _ _ Hv Hst) as Hsv. destruct Hv as [Hv _].
  apply wpc_bind, wpc_read. destruct (_latest_generation_id e v) as [latest|]; [|by apply wpc_ret].
  destruct (String.eqb _ _); [by apply wpc_ret|]. apply Hmono; [by etrans|by apply classify_spares].
Qed.

(** The replay of the receipts writes receipts and signals the index. *)
Record replay_frame (w w' : Workspace) : Prop := {
  rf_lineage : ws_lineage w' = ws_lineage w;
  rf_experiments : ws_experiments w' = ws_experiments w;
  rf_patches : ws_patches w' = ws_patches w;
}.

#[local] Instance replay_frame_preorder : PreOrder replay_frame.
Proof. split; [by intros w; split|]. intros a b c [] []. split; congruence. Qed.

Lemma mark_frame e : keeps replay_frame (mark_epoch_changed e).
Proof. intros w. unfold mark_epoch_changed. destruct (epoch_name_ok _); [by apply wpc_write|by apply wpc_ret]. Qed.

Lemma write_body_frame d : keeps replay_frame (write_receipt_body d).
Proof. unfold write_receipt_body, write_settlement_receipt, put_receipt. keep_steps; by apply keeps_write. Qed.

Lemma recover_frame ingest e : keeps replay_frame (recover_field_settlements ingest e).
Proof.
  assert (Hr : forall st, keeps replay_frame (recover_receipt ingest e st)).
  { intros st. unfold recover_receipt, replay_field_settlement. cbv zeta.
    keep_steps; first [apply mark_frame|apply write_body_frame|idtac]. }
  unfold recover_field_settlements. keep_steps. generalize 0%nat as k.
  induction a as [|loc l IH]; intros k; cbn [recover_each]; keep_steps; apply Hr || apply IH.
Qed.

Lemma replay_frame_generation e g (s : Site T) w : replay_frame (st_ws s) w -> same_generation e g s (set_ws s w).
Proof. intros []. split; cbn; intros; by f_equal. Qed.

Definition recovered ingest e (s : Site T) : Workspace :=
  final_ws (st_ws s) (recover_field_settlements ingest e (st_ws s)).1.

Lemma final_on_ws {A} (m : Wop A) (s : Site T) : final_ws s (on_ws m s).1 = set_ws s (final_ws (st_ws s) (m (st_ws s)).1).
Proof.
  unfold on_ws. destruct (m (st_ws s)) as [l r]. cbn [fst].
  assert (Hg : forall w, final_ws (set_ws s w) (set_ws s <$> l) = set_ws s (final_ws w l)).
  { induction l as [|w' l IH]; intros w; [done|]. rewrite fmap_cons, !final_ws_cons. apply IH. }
  rewrite <- Hg. by destruct s.
Qed.

(** C7.  A restart, cut off anywhere, leaves the files of a settled generation alone: its
    experiment, its patches, its record directory, its measurements and its source. *)
Theorem settled_survives_restart ingest frozen e g s t :
  settled e g (recovered ingest e s) -> t ∈ (prepare_resume scandir ingest frozen e s).1 -> same_generation e g s t.
Proof.
  intros Hs Ht. assert (Hk : keeps (same_generation e g) (on_ws (T := T) (recover_field_settlements ingest e))).
  { apply keeps_on_ws; [|done]. intros u w Hw. apply replay_frame_generation.
    exact (keeps_states _ _ _ _ (recover_frame ingest e) Hw). }
  apply bind_states in Ht as [Ht|(n & _ & Ht)]; [by eapply keeps_states|].
  etrans; [exact (keeps_final _ _ s Hk)|]. refine (wpc_states _ _ _ _ _ (reconcile_spares frozen e g _ _) Ht).
  by rewrite final_on_ws.
Qed.

(** ** A discard shrinks what is there *)

(** The source and the record directory of a generation are gone. *)
Definition gone (e g : string) (s : Site T) : Prop :=
  has_generation (st_sources s) e g = false /\ snapshot_exists (st_sources s) e g = false /\ has_dir s e g = false.

Definition shrunk (s t : Site T) : Prop := forall e g,
  (has_generation (st_sources t) e g = true -> has_generation (st_sources s) e g = true)
  /\ (snapshot_exists (st_sources t) e g = true -> snapshot_exists (st_sources s) e g = true)
  /\ (has_dir t e g = true -> has_dir s e g = true).

#[local] Instance shrunk_preorder : PreOrder shrunk.
Proof.
  split; [by intros s e g|]. intros a b c Hab Hbc e g. destruct (Hab e g) as (? & ? & ?), (Hbc e g) as (? & ? & ?). auto.
Qed.

Lemma gone_shrunk e g s t : shrunk s t -> gone e g s -> gone e g t.
Proof. intros Hst (? & ? & ?). destruct (Hst e g) as (Hh & Hn & Hd). unfold gone. rewrite <- !not_true_iff_false in *. tauto. Qed.

Lemma shrunk_same (s t : Site T) : st_sources t = st_sources s -> st_dirs t = st_dirs s -> shrunk s t.
Proof. intros Hs Hd e g. unfold has_dir. by rewrite Hs, Hd. Qed.

Lemma rmtree_shrunk e g : keeps shrunk (rmtree_generation scandir e g).
Proof.
  unfold rmtree_generation. keep_steps; apply keeps_write; intros s.
  - apply shrunk_same; by match goal with p : Part |- _ => destruct p end.
  - intros e' g'. split_and!; [done..|]. unfold has_dir. rewrite !bool_decide_eq_true. cbn.
    rewrite !list_elem_of_In, filter_In. tauto.
Qed.

Lemma prune_record_shrunk e g : keeps shrunk (prune_record scandir e g).
Proof. unfold prune_record. keep_steps. apply rmtree_shrunk. Qed.

Lemma prune_shrunk e ids : keeps shrunk (_prune_generation_records scandir e ids).
Proof.
  unfold _prune_generation_records. keep_steps; [|apply prune_record_shrunk].
  apply keeps_on_sources; [|by intros s e' g]. intros s t Ht e' g. cbn. by destruct (prune_shrinks _ _ _ _ e' g Ht).
Qed.

(** A read leaves the state. *)
Lemma read_ok {S A B} (f : S -> result A) (k : A -> Op S B) s b :
  (wop_bind (wop_read f) k s).2 = Ok b -> exists a, f s = Ok a /\ (k a s).2 = Ok b
    /\ final_ws s (wop_bind (wop_read f) k s).1 = final_ws s (k a s).1.
Proof. intros (a & ? & ? & ?)%bind_ok. by exists a. Qed.

Lemma prune_record_gone e g s :
  (prune_record scandir e g s).2 = Ok tt -> gone e g (final_ws s (prune_record scandir e g s).1).
Proof.
  unfold prune_record. intros ([] & Hsrc & Hok & ->)%read_ok. apply if_ok in Hsrc as [Hsrc _].
  apply negb_true_iff, orb_false_iff in Hsrc as [Hh Hn].
  apply read_ok in Hok as (present & _ & Hok & ->). apply bind_ok in Hok as ([] & _ & Hok & ->).
  cbn [wop_read fst snd final_ws List.last] in *. apply if_ok in Hok as [Hd%negb_true_iff _].
  assert (Hk : keeps shrunk (if present then rmtree_generation scandir e g else wop_ret (Ok tt))).
  { destruct present; [apply rmtree_shrunk|apply keeps_ret; apply _]. }
  destruct (keeps_final _ _ s Hk e g) as (Hh' & Hn' & _). unfold gone.
  rewrite <- !not_true_iff_false in *. tauto.
Qed.

Lemma prune_gone e ids s :
  (_prune_generation_records scandir e ids s).2 = Ok tt ->
  Forall (fun g => gone e g (final_ws s (_prune_generation_records scandir e ids s).1)) ids.
Proof.
  unfold _prune_generation_records. intros (a & _ & Hrest & ->)%bind_ok.
  refine (each_establishes shrunk (prune_record scandir e) (gone e) ids _ _ _ _ _ Hrest);
    [apply prune_record_shrunk|intros g u v; apply gone_shrunk|apply prune_record_gone].
Qed.


(** ** A discard reads as before until it rewrites the lineage *)

Lemma filter_sorted (p : string -> bool) l :
  py_sorted round_namespace_lt (List.filter p l) = List.filter p (py_sorted round_namespace_lt l).
Proof.
  apply (sorted_perm_unique round_namespace_lt).
  - intros a b. unfold round_namespace_lt. rewrite (Z.eqb_sym (round_namespace_key b)).
    destruct (Z.eqb_spec (round_namespace_key a) (round_namespace_key b)); [apply str_lt_total|].
    rewrite !Z.ltb_ge. lia.
  - apply (py_sorted_sorted _ (fun _ => True)). by apply Forall_true.
  - apply filter_strongly_sorted. apply (py_sorted_sorted _ (fun _ => True)). by apply Forall_true.
  - rewrite py_sorted_perm. apply filter_perm. by rewrite py_sorted_perm.
Qed.

Lemma iter_scanned scope w :
  iter_settlement_receipts scope w
  = scanned_epochs scope w ≫= fun e => receipts_in e w (py_sorted round_namespace_lt (round_dirs w e).*1).
Proof.
  unfold iter_settlement_receipts, _stored_receipt_locations.
  induction (scanned_epochs scope w) as [|x l IH]; [done|]. rewrite !bind_cons, bind_app, IH. f_equal. clear IH.
  unfold receipts_in. by induction (py_sorted _ _) as [|y m IHm]; cbn; [|rewrite IHm].
Qed.

(** The directory of a round without a receipt holds nothing the lineage reads. *)
Lemma drop_round_quiet e n w :
  0 <= n -> receipt_text w e n = None -> dict_mem (round_dirs w e) (pretty n) = true ->
  quiet w (set_round_dirs e (drop_key (pretty n) (round_dirs w e)) w).
Proof.
  intros Hn Ht Hm. set (w' := set_round_dirs _ _ w).
  assert (Hkeys : (ws_rounds w').*1 = (ws_rounds w).*1).
  { subst w'. cbn. change ((dict_set (ws_rounds w) e (drop_key (pretty n) (round_dirs w e))).*1)
      with (dict_keys (dict_set (ws_rounds w) e (drop_key (pretty n) (round_dirs w e)))).
    rewrite dict_keys_set. case_decide as Hk; [done|]. apply dict_get_None in Hk.
    unfold round_dirs, dict_get_or in Hm. by rewrite Hk in Hm. }
  assert (Hdirs : forall e', round_dirs w' e' = if decide (e = e') then drop_key (pretty n) (round_dirs w e) else round_dirs w e').
  { intros e'. unfold round_dirs, dict_get_or, w'. cbn. rewrite dict_get_set. by case_decide. }
  assert (Htext : forall e' n', receipt_text w' e' n' = receipt_text w e' n').
  { intros e' n'. unfold receipt_text. rewrite Hdirs. case_decide as He; [subst e'|done].
    destruct (decide (pretty n = pretty n')) as [Heq|Hne]; [|by rewrite drop_key_ne].
    rewrite <- Heq, dict_get_drop. unfold receipt_text in Ht. by rewrite Ht. }
  split; [done|exact Htext|]. intros scope. rewrite !iter_scanned.
  assert (scanned_epochs scope w' = scanned_epochs scope w) as -> by (unfold scanned_epochs; by rewrite Hkeys).
  assert (Hin : forall e', receipts_in e' w' (py_sorted round_namespace_lt (round_dirs w' e').*1)
                         = receipts_in e' w (py_sorted round_namespace_lt (round_dirs w e').*1)).
  { intros e'. assert (Hr : forall l, receipts_in e' w' l = receipts_in e' w l).
    { intros l. unfold receipts_in, read_settlement_receipt. induction l as [|x l IH]; [done|].
      rewrite !bind_cons, IH. destruct (namespace_round x); [by rewrite Htext|done]. }
    rewrite Hr, Hdirs. case_decide as He; [subst e'|done].
    rewrite drop_key_keys, filter_sorted. apply bind_filter.
    intros x Hx. apply negb_false_iff, bool_decide_eq_true in Hx as ->.
    rewrite namespace_round_pretty by done. unfold read_settlement_receipt. by rewrite Ht. }
  induction (scanned_epochs scope w) as [|x l IH]; [done|]. by rewrite !bind_cons, Hin, IH.
Qed.

(** Until it rewrites the lineage a discard is calm: the lineage reads the same and
    nothing appears. *)
Definition calm (s t : Site T) : Prop := quiet (st_ws s) (st_ws t) /\ shrunk s t.

#[local] Instance calm_preorder : PreOrder calm.
Proof. split; [by intros ?; split|]. intros a b c [] []. split; by etrans. Qed.

Lemma calm_ws s w : quiet (st_ws s) w -> calm s (set_ws s w).
Proof. intros Hq. split; [done|by apply shrunk_same]. Qed.

Lemma prune_calm e ids : keeps calm (_prune_generation_records scandir e ids).
Proof.
  apply keeps_and; [|apply prune_shrunk]. intros s.
  eapply wpc_mono; [apply prune_registers|intros t; apply quiet_registers|intros ? t; apply quiet_registers].
Qed.

Lemma invalidate_calm : keeps calm (_invalidate_index_before_field_discard (T := T)).
Proof.
  unfold _invalidate_index_before_field_discard. keep_steps.
  apply keeps_write. intros s. by split; [|apply shrunk_same].
Qed.

Lemma discard_round_calm e n first_id s :
  0 <= n -> receipt_text (st_ws s) e n = None ->
  wpc (discard_round (T := T) e n first_id) (calm s) (fun _ => calm s) s.
Proof.
  intros Hn Ht. unfold discard_round. apply wpc_bind.
  assert (Hc : calm s (set_ws s (without_tournament (e, first_id) (st_ws s)))).
  { apply calm_ws, quiet_registers. by split. }
  apply wpc_write; [done|]. set (u := set_ws s _) in *. apply wpc_bind, wpc_read, wpc_bind.
  assert (Hread : forall v, calm s v -> wpc (wop_read (fun s0 : Site T =>
    ensure negb (dict_mem (round_dirs (st_ws s0) e) (pretty n))
      orelse RuntimeError ("round record cleanup failed for " +:+ e +:+ "/round " +:+ pretty n); Ok tt)) (calm s) (fun _ => calm s) v).
  { intros v Hv. by apply wpc_read. }
  destruct (dict_mem (round_dirs (st_ws u) e) (pretty n)) eqn:Hm; [|by apply wpc_ret, Hread].
  assert (Htu : receipt_text (st_ws u) e n = None) by by rewrite (qu_text _ _ (proj1 Hc)).
  unfold rmtree_round. apply wpc_bind, wpc_read. rewrite Htu. apply wpc_bind, wpc_ret.
  assert (Hv : calm s (set_ws u (set_round_dirs e (drop_key (pretty n) (round_dirs (st_ws u) e)) (st_ws u)))).
  { etrans; [exact Hc|]. by apply calm_ws, drop_round_quiet. }
  apply wpc_write; [done|by apply Hread].
Qed.

(** The fields whose rounds have no receipt. *)
Definition unreceipted (e : string) (fields : list (option Z * list string)) (s : Site T) : Prop :=
  forall n ids, (Some n, ids) ∈ fields -> 0 <= n /\ receipt_text (st_ws s) e n = None.

Lemma unreceipted_calm e fields s t : calm s t -> unreceipted e fields s -> unreceipted e fields t.
Proof. intros [Hq _] Hu n ids Hin. destruct (Hu n ids Hin). by rewrite (qu_text _ _ Hq). Qed.

Lemma discard_field_calm e field s :
  unreceipted e [field] s -> wpc (discard_field scandir e field) (calm s) (fun _ => calm s) s.
Proof.
  destruct field as [n ids]. intros Hu. unfold discard_field. cbn [fst snd]. apply wpc_bind.
  eapply wpc_mono; [apply prune_calm|done|]. intros [[]|x] t Ht; [|done].
  destruct n as [n|]; [|by apply wpc_ret]. destruct ids as [|first_id ids]; [by apply wpc_ret|].
  destruct (unreceipted_calm _ _ _ _ Ht Hu n (first_id :: ids)) as [Hn Hr]; [apply list_elem_of_here|].
  eapply wpc_mono; [by apply discard_round_calm|intros ? ?; by etrans|intros ? ? ?; by etrans].
Qed.

Lemma discard_fields_calm e fields s :
  unreceipted e fields s -> wpc (wop_each (discard_field scandir e) fields) (calm s) (fun _ => calm s) s.
Proof.
  revert s. induction fields as [|f fields IH]; intros s Hu; [by apply wpc_ret|]. cbn. apply wpc_bind.
  eapply wpc_mono; [apply discard_field_calm|done|].
  { intros n ids <-%list_elem_of_singleton. apply (Hu n ids), list_elem_of_here. }
  intros [[]|x] t Ht; [|done]. eapply wpc_mono; [apply IH|intros ? ?; by etrans|intros ? ? ?; by etrans].
  intros n ids Hin. eapply (unreceipted_calm _ _ _ _ Ht Hu n ids). by apply list_elem_of_further.
Qed.

Lemma discard_field_shrunk e field : keeps shrunk (discard_field scandir e field).
Proof.
  unfold discard_field, discard_round, rmtree_round. keep_steps; try apply prune_shrunk;
    by apply keeps_write; intros u; apply shrunk_same.
Qed.

Lemma discard_field_gone e field s :
  (discard_field scandir e field s).2 = Ok tt ->
  Forall (fun g => gone e g (final_ws s (discard_field scandir e field s).1)) field.2.
Proof.
  unfold discard_field. intros ([] & Hp & _ & ->)%bind_ok. eapply Forall_impl; [by apply prune_gone|].
  intros g Hg. refine (gone_shrunk _ _ _ _ _ Hg).
  match goal with |- shrunk _ (final_ws _ (?m _).1) => refine (keeps_final shrunk m _ _) end.
  unfold discard_round, rmtree_round. keep_steps; by apply keeps_write; intros u; apply shrunk_same.
Qed.

(** The lineage is the marker of a discard: it is rewritten when nothing is left. *)
Lemma candidates_states e fields ids s t :
  unreceipted e fields s -> t ∈ (_discard_candidates scandir e fields ids s).1 ->
  calm s t \/ Forall (fun f => Forall (fun g => gone e g t) f.2) fields.
Proof.
  intros Hu Ht. unfold _discard_candidates in Ht.
  apply bind_states in Ht as [Ht|([] & _ & Ht)]; [left; exact (keeps_states _ _ _ _ invalidate_calm Ht)|].
  set (u := final_ws s _) in Ht. assert (Hsu : calm s u) by exact (keeps_final _ _ _ invalidate_calm).
  apply bind_states in Ht as [Ht|([] & Hok & Ht)].
  { left. etrans; [exact Hsu|]. refine (wpc_states _ _ _ _ _ (discard_fields_calm e fields u _) Ht).
    by eapply unreceipted_calm. }
  right. assert (Hg : Forall (fun f => Forall (fun g => gone e g (final_ws u (wop_each (discard_field scandir e) fields u).1)) f.2) fields).
  { refine (each_establishes shrunk (discard_field scandir e) (fun f v => Forall (fun g => gone e g v) f.2) fields u _ _ _ _ Hok).
    - apply discard_field_shrunk.
    - intros f v v' Hv Hf. eapply Forall_impl; [exact Hf|]. intros g. by apply gone_shrunk.
    - apply discard_field_gone. }
  apply bind_states in Ht as [Ht|(a & _ & Ht)]; [|by cbn in Ht; set_solver].
  unfold on_ws in Ht. destruct (discard_pending_generations _ _ _) as [l r]. cbn in Ht.
  apply list_elem_of_fmap in Ht as (w & -> & _). exact Hg.
Qed.

(** ** A discard that was cut off is taken up again *)

Lemma group_rows_keys rows acc out :
  result_foldl group_row acc rows = Ok out -> NoDup (dict_keys acc.1) -> NoDup (dict_keys out.1).
Proof.
  revert acc. induction rows as [|row rows IH]; intros [groups promoted]; cbn -[group_row]; [by intros [= <-]|].
  intros Hf Hnd. apply result_bind_ok in Hf as (acc & Ha & Hf). apply (IH _ Hf). unfold group_row in Ha.
  destruct (lg_promoted row) as [[]|]; destruct (field_key row); try done; injection Ha as <-; try done.
  by apply NoDup_dict_keys_set.
Qed.

Lemma groups_same_id e w groups k1 l1 k2 l2 g :
  _pending_lineage_groups e w = Ok groups -> (k1, l1) ∈ groups -> (k2, l2) ∈ groups -> g ∈ l1 -> g ∈ l2 ->
  k1 = k2 /\ l1 = l2.
Proof.
  intros Hgr H1' H2' Hg1 Hg2.
  destruct (groups_pending _ _ _ _ _ _ Hgr H1' Hg1) as (rows & Hrows & r1 & Hr1 & Hid1 & _ & Hk1).
  destruct (groups_pending _ _ _ _ _ _ Hgr H2' Hg2) as (rows' & Hrows' & r2 & Hr2 & Hid2 & _ & Hk2).
  assert (rows' = rows) as -> by congruence. pose proof (rows_unique _ _ _ Hrows) as Hnd.
  assert (r2 = r1) as ->.
  { apply list_elem_of_lookup in Hr1 as [i Hi]. apply list_elem_of_lookup in Hr2 as [k Hk].
    assert (i = k) as ->; [|congruence].
    eapply (NoDup_lookup _ _ _ _ Hnd); rewrite list_lookup_fmap; [by rewrite Hi; cbn; rewrite Hid1|].
    by rewrite Hk; cbn; rewrite Hid2. }
  assert (k2 = k1) as -> by congruence. split; [done|].
  unfold _pending_lineage_groups, grouped_rows in Hgr.
  apply result_bind_ok in Hgr as (rows' & _ & Hgr). apply result_bind_ok in Hgr as (out & Hout & Hgr).
  apply if_ok in Hgr as [_ Hgr]. injection Hgr as <-. apply group_rows_keys in Hout; [|constructor].
  apply list_elem_of_fmap in H1' as ([a b] & Heq & Hab), H2' as ([c d] & Heq' & Hcd). simplify_eq/=.
  apply (dict_elem_get _ _ _ Hout) in Hab, Hcd. cbn. congruence.
Qed.

Lemma groups_round e w groups n p l :
  _pending_lineage_groups e w = Ok groups -> ((n, p), l) ∈ groups -> 0 <= n.
Proof.
  intros Hgr Hin. pose proof (groups_nonempty _ _ _ _ _ Hgr Hin) as Hne. destruct l as [|g l]; [done|].
  destruct (groups_pending _ _ _ _ _ _ Hgr Hin (list_elem_of_here _ _)) as (rows & _ & row & _ & _ & _ & Hk).
  unfold field_key in Hk. destruct (lg_round_index row) as [m|], (lg_parent_id row) as [q|]; try done.
  destruct (Z.ltb_spec m 0); [done|]. destruct (String.eqb q ""); [done|]. cbn in Hk. by simplify_eq.
Qed.

Lemma receipt_present_quiet e n w w' : quiet w w' -> receipt_present e n w' = receipt_present e n w.
Proof. intros Hq. unfold receipt_present. by rewrite (qu_text _ _ Hq). Qed.

(** A group whose generations are as they were is a field as before. *)
Lemma unrecorded_untouched size e s t n p l :
  quiet (st_ws s) (st_ws t) ->
  (forall g, g ∈ l -> has_generation (st_sources t) e g = has_generation (st_sources s) e g /\ has_dir t e g = has_dir s e g) ->
  unrecorded_field size e t ((n, p), l) = unrecorded_field size e s ((n, p), l).
Proof.
  intros Hq Hl. unfold unrecorded_field. rewrite (receipt_present_quiet _ _ _ _ Hq).
  assert (cleanup_started e l t = cleanup_started e l s) as ->; [|done].
  unfold cleanup_started. induction l as [|g l IH]; [done|]. cbn. rewrite IH by (intros; apply Hl; by apply list_elem_of_further).
  by destruct (Hl g (list_elem_of_here _ _)) as [-> ->].
Qed.

(** A field stays one while its cleanup goes on. *)
Lemma unrecorded_shrunk size e s t n p l :
  calm s t -> unrecorded_field size e s ((n, p), l) = Ok true -> unrecorded_field size e t ((n, p), l) = Ok true.
Proof.
  intros [Hq Hsh] Hu. unfold unrecorded_field in *. rewrite (receipt_present_quiet _ _ _ _ Hq).
  assert (Hc : cleanup_started e l s = true -> cleanup_started e l t = true).
  { unfold cleanup_started. rewrite !existsb_exists. intros (g & Hg & Hs). exists g. split; [done|].
    destruct (Hsh e g) as (Ha & _ & Hb). rewrite orb_true_iff, !negb_true_iff, <- !not_true_iff_false in *. tauto. }
  destruct (size <=? 1), (Nat.eqb (length l) 1); cbn in *; try done.
  destruct (cleanup_started e l s) eqn:Es; [by rewrite Hc|done].
Qed.

Lemma result_filter_ext {A} (f g : A -> result bool) l :
  (forall x, x ∈ l -> f x = g x) -> result_filter f l = result_filter g l.
Proof.
  induction l as [|x l IH]; intros Hfg; [done|]. cbn. rewrite Hfg by apply list_elem_of_here.
  rewrite IH by (intros; apply Hfg; by apply list_elem_of_further). done.
Qed.

Lemma result_filter_each {A} (f : A -> result bool) l l' x :
  result_filter f l = Ok l' -> x ∈ l -> exists b, f x = Ok b.
Proof.
  revert l'. induction l as [|y l IH]; intros l' Hf Hx; [by apply elem_of_nil in Hx|]. cbn in Hf.
  apply result_bind_ok in Hf as (b & Hb & Hf). apply result_bind_ok in Hf as (kept & Hk & _).
  apply elem_of_cons in Hx as [->|Hx]; [by exists b|by eapply IH].
Qed.

Lemma result_filter_total {A} (f : A -> result bool) l :
  (forall x, x ∈ l -> exists b, f x = Ok b) -> exists l', result_filter f l = Ok l'.
Proof.
  induction l as [|x l IH]; intros Hf; [by exists []|]. cbn. destruct (Hf x (list_elem_of_here _ _)) as [b ->].
  destruct IH as [l' ->]; [intros; apply Hf; by apply list_elem_of_further|]. cbn. eauto.
Qed.

(** The fields at a calm state, when the groups that were none are untouched. *)
Lemma fields_calm frozen e s t fields :
  calm s t -> _unrecorded_fields_without_receipts frozen e s = Ok fields ->
  (forall g, g ∉ (fields ≫= snd) ->
     has_generation (st_sources t) e g = has_generation (st_sources s) e g /\ has_dir t e g = has_dir s e g) ->
  _unrecorded_fields_without_receipts frozen e t = Ok fields.
Proof.
  intros Hc Hf Hother. rewrite <- Hf. pose proof Hf as Hf'. unfold _unrecorded_fields_without_receipts in Hf' |- *.
  apply result_bind_ok in Hf' as (size & Hs & Hf'). rewrite Hs. cbn [result_bind].
  rewrite (groups_quiet _ _ e (proj1 Hc)). apply result_bind_ok in Hf' as (groups & Hg & Hf'). rewrite Hg. cbn [result_bind].
  apply result_bind_ok in Hf' as (kept & Hk & _).
  assert (Hext : result_filter (unrecorded_field size e t) groups = result_filter (unrecorded_field size e s) groups); [|by rewrite Hext].
  apply result_filter_ext. intros [[n p] l] Hin.
  assert (Hd : unrecorded_field size e s (n, p, l) = Ok true \/ unrecorded_field size e s (n, p, l) <> Ok true)
    by (destruct (unrecorded_field size e s (n, p, l)) as [[]|]; [by left|by right..]).
  destruct Hd as [Hu|Hu]; [by rewrite Hu; eapply unrecorded_shrunk|].
  apply unrecorded_untouched; [apply Hc|]. intros g Hgl. apply Hother. intros Hin'.
  apply list_elem_of_bind in Hin' as ([n' l'] & Hg' & Hin').
  apply (fields_elem _ _ _ _ _ _ Hf) in Hin' as (size' & groups' & p' & Hs' & Hgr' & Hin' & Hu').
  assert (size' = size) as -> by congruence. assert (groups' = groups) as -> by congruence.
  destruct (groups_same_id _ _ _ _ _ _ _ _ Hg Hin Hin' Hgl Hg') as [Hkey ->]. congruence.
Qed.

Lemma receipt_none e n w :
  receipt_present e n w = Ok false -> receipt_text w e n <> Some (Some JNull) -> receipt_text w e n = None.
Proof. unfold receipt_present. by destruct (receipt_text w e n) as [[[]|]|]. Qed.

Lemma interrupted_found e g birth w groups n p found :
  _pending_lineage_groups e w = Ok groups -> ((n, p), [g]) ∈ groups ->
  interrupted_round e g birth w = Ok found -> found = (Some n, true).
Proof.
  unfold interrupted_round. intros Hgr Hin Hf. rewrite Hgr in Hf. cbn [result_bind] in Hf.
  assert (Hm : ((n, p), [g]) ∈ List.filter (fun group : (Z * string) * list string => bool_decide (g ∈ group.2)) groups).
  { rewrite list_elem_of_In, filter_In, <- list_elem_of_In. split; [done|]. apply bool_decide_eq_true_2. cbn. set_solver. }
  destruct (List.filter _ groups) as [|[[r q] sib] [|? ?]]; [set_solver| |done].
  apply list_elem_of_singleton in Hm. injection Hm as <- <- <-.
  apply if_ok in Hf as [_ Hf]. apply if_ok in Hf as [_ Hf]. by injection Hf.
Qed.

(** A single candidate whose cleanup has started is a field, as its round has no receipt. *)
Lemma single_field frozen e s t n p g groups fields :
  calm s t -> _unrecorded_fields_without_receipts frozen e s = Ok fields ->
  _pending_lineage_groups e (st_ws s) = Ok groups -> ((n, p), [g]) ∈ groups ->
  receipt_text (st_ws s) e n = None -> cleanup_started e [g] t = true ->
  (forall g', g' <> g ->
     has_generation (st_sources t) e g' = has_generation (st_sources s) e g' /\ has_dir t e g' = has_dir s e g') ->
  exists fields', _unrecorded_fields_without_receipts frozen e t = Ok fields' /\ (n, [g]) ∈ fields'.
Proof.
  intros Hc Hf Hgr Hin Hr Hst Hother.
  assert (Hu : forall size, unrecorded_field size e t ((n, p), [g]) = Ok true).
  { intros size. unfold unrecorded_field. rewrite Hst, andb_false_r. unfold receipt_present.
    by rewrite (qu_text _ _ (proj1 Hc)), Hr. }
  assert (Hex : exists fields', _unrecorded_fields_without_receipts frozen e t = Ok fields').
  { unfold _unrecorded_fields_without_receipts in Hf |- *. rewrite (groups_quiet _ _ e (proj1 Hc)), Hgr.
    apply result_bind_ok in Hf as (size & -> & Hf). rewrite Hgr in Hf. cbn [result_bind] in *.
    apply result_bind_ok in Hf as (kept & Hk & _).
    destruct (result_filter_total (unrecorded_field size e t) groups) as [l ->]; [|by eexists].
    intros [[n' p'] l] Hin'. destruct (decide (g ∈ l)) as [Hg|Hg].
    - destruct (groups_same_id _ _ _ _ _ _ _ g Hgr Hin Hin' ltac:(set_solver) Hg) as [Hkey <-].
      injection Hkey as <- <-. eauto.
    - rewrite (unrecorded_untouched size e s t n' p' l (proj1 Hc)); [by eapply result_filter_each|].
      intros g' Hg'. apply Hother. congruence. }
  destruct Hex as [fields' Hf']. exists fields'. split; [done|]. apply (fields_elem _ _ _ _ _ _ Hf').
  unfold _unrecorded_fields_without_receipts in Hf. apply result_bind_ok in Hf as (size & Hs & _).
  exists size, groups, p. by rewrite (groups_quiet _ _ e (proj1 Hc)).
Qed.

(** C8.  A discard that is cut off is taken up again.  Of a field without a receipt, every
    state the discard passes through either reads as the same field, which the next
    restart discards, or holds nothing of it any more; of a single generation that was
    pending, the state holds it whole, reads as a field that is discarded, or holds
    nothing of it. *)
Theorem interrupted_discard_resumes frozen e s fields :
  (forall n, receipt_text (st_ws s) e n <> Some (Some JNull)) ->
  _unrecorded_fields_without_receipts frozen e s = Ok fields ->
  (forall t, t ∈ (_discard_unrecorded_fields scandir frozen e s).1 ->
     _unrecorded_fields_without_receipts frozen e t = Ok fields
     \/ Forall (fun field => Forall (fun g => gone e g t) field.2) fields)
  /\ (forall g n p groups birth t,
     _pending_lineage_groups e (st_ws s) = Ok groups -> ((n, p), [g]) ∈ groups ->
     receipt_text (st_ws s) e n = None ->
     t ∈ (discard_interrupted_generation scandir e g birth s).1 ->
     (has_generation (st_sources t) e g = has_generation (st_sources s) e g /\ has_dir t e g = has_dir s e g)
     \/ (exists fields', _unrecorded_fields_without_receipts frozen e t = Ok fields' /\ (n, [g]) ∈ fields')
     \/ gone e g t).
Proof.
  intros Hnull Hf. split.
  - intros t. unfold _discard_unrecorded_fields. intros [Ht|(? & Hr & Ht)]%bind_states; [by apply elem_of_nil in Ht|].
    cbn [wop_read fst snd final_ws List.last] in Hr, Ht. rewrite Hf in Hr. injection Hr as <-.
    assert (Hu : unreceipted e ((fun f => (Some f.1, f.2)) <$> fields) s).
    { intros n ids Hin. apply list_elem_of_fmap in Hin as ([n' ids'] & Heq & Hin). injection Heq as -> ->.
      apply (fields_elem _ _ _ _ _ _ Hf) in Hin as (size & groups & p & _ & Hg & Hin & Hun).
      split; [by eapply groups_round|]. unfold unrecorded_field in Hun. case_match; [done|].
      apply result_bind_ok in Hun as (b & Hb & Hun). destruct b; [done|]. by apply receipt_none. }
    destruct fields as [|f fields]; [by apply elem_of_nil in Ht|]. set (all := f :: fields) in *.
    apply bind_states in Ht as [Ht|(? & _ & Ht)]; [|by apply elem_of_nil in Ht].
    destruct (candidates_states _ _ _ _ _ Hu Ht) as [Hc|Hg]; [left|right].
    2: { apply Forall_forall. intros x Hx. rewrite Forall_forall in Hg.
         apply (Hg (Some x.1, x.2)), list_elem_of_fmap. by exists x. }
    apply (fields_calm frozen e s t all Hc Hf). intros g Hg.
    assert (Hsame : same_generation e g s t); [|by destruct Hsame].
    refine (keeps_states _ _ _ _ (candidates_spare e _ _ e g _) Ht). right.
    contradict Hg. apply list_elem_of_bind in Hg as (x & Hx & Hin).
    apply list_elem_of_fmap in Hin as (y & -> & Hy). apply list_elem_of_bind. by exists y.
  - intros g n p groups birth t Hgr Hin Hr Ht. unfold discard_interrupted_generation in Ht.
    apply bind_states in Ht as [Ht|(found & Hfound & Ht)]; [by apply elem_of_nil in Ht|].
    cbn [wop_read fst snd final_ws List.last] in Hfound, Ht.
    pose proof (interrupted_found _ _ _ _ _ _ _ _ Hgr Hin Hfound) as ->. cbn [fst snd] in Ht.
    assert (Hu : unreceipted e [(Some n, [g])] s).
    { intros m ids Hm%list_elem_of_singleton. injection Hm as -> ->. split; [by eapply groups_round|done]. }
    destruct (candidates_states _ _ _ _ _ Hu Ht) as [Hc|Hg]; [|right; right; exact (Forall_inv (Forall_inv Hg))].
    destruct (cleanup_started e [g] t) eqn:Est.
    + right; left. apply (single_field frozen e s t n p g groups fields); try done. intros g' Hne.
      assert (Hsame : same_generation e g' s t); [|by destruct Hsame].
      refine (keeps_states _ _ _ _ (candidates_spare e _ _ e g' _) Ht). right. cbn. set_solver.
    + left. unfold cleanup_started in Est. cbn in Est. rewrite orb_false_r, orb_false_iff, !negb_false_iff in Est.
      destruct Est as [Hh Hd], (proj2 Hc e g) as (Ha & _ & Hb). by rewrite Hh, Hd, Ha, Hb.
Qed.

(** ** Resuming in place *)

Lemma elem_of_generation_ids e g (s : Site T) :
  g ∈ generation_ids e s <-> namespace_ok e = true /\ has_dir s e g = true.
Proof.
  unfold generation_ids, has_dir. destruct (namespace_ok e); [|split; [by intros ?%elem_of_nil|by intros []]].
  rewrite elem_of_py_sorted. unfold sorted_strings. rewrite elem_of_py_sorted, list_elem_of_fmap, bool_decide_eq_true.
  split.
  - intros ([a b] & -> & Hin). rewrite list_elem_of_In, filter_In, <- list_elem_of_In in Hin.
    destruct Hin as [Hin Heq%String.eqb_eq]. cbn in *. by subst a.
  - intros [_ Hin]. exists (e, g). split; [done|]. rewrite list_elem_of_In, filter_In, <- list_elem_of_In.
    split; [done|apply String.eqb_refl].
Qed.

Lemma latest_elem e (s : Site T) g : _latest_generation_id e s = Some g -> g ∈ generation_ids e s.
Proof.
  unfold _latest_generation_id. intros Hl.
  assert (Hin : Some g ∈ Some <$> List.filter (fun gid => bool_decide (is_Some (generation_round_number gid))) (generation_ids e s)).
  { by apply (last_elem_of _ None). }
  apply list_elem_of_fmap in Hin as (g' & [= <-] & Hin). rewrite list_elem_of_In, filter_In, <- list_elem_of_In in Hin.
  by destruct Hin.
Qed.

(** A recorded generation is none of the unrecorded source. *)
Lemma source_view e g (s t : Site T) ids :
  (_discard_unrecorded_source scandir e s).2 = Ok ids -> t = final_ws s (_discard_unrecorded_source scandir e s).1 ->
  shrunk s t /\ (g ∈ generation_ids e s -> same_generation e g s t).
Proof.
  intros Hok ->. unfold _discard_unrecorded_source in *. apply read_ok in Hok as (found & Hu & Hok & ->).
  destruct found as [|x found]; [done|]. apply bind_ok in Hok as ([] & _ & _ & ->).
  cbn [wop_ret fst snd final_ws List.last] in *. split; [exact (keeps_final _ _ _ (prune_shrunk e (x :: found)))|].
  intros Hg. refine (keeps_final _ _ _ (prune_spares e (x :: found) e g _)). right.
  unfold unrecorded_source in Hu. apply result_bind_ok in Hu as (rows & _ & Hu). injection Hu as <-.
  rewrite list_elem_of_In, filter_In, andb_true_iff, !negb_true_iff, !bool_decide_eq_false, elem_of_app. tauto.
Qed.

Lemma fields_none frozen e (s : Site T) :
  (_discard_unrecorded_fields scandir frozen e s).2 = Ok [] ->
  final_ws s (_discard_unrecorded_fields scandir frozen e s).1 = s.
Proof.
  unfold _discard_unrecorded_fields. intros (fields & Hf & Hok & ->)%read_ok.
  destruct fields as [|[n ids] fields]; [done|]. apply bind_ok in Hok as ([] & _ & Hok & _).
  cbn in Hok. injection Hok as Hnil. apply app_nil in Hnil as [-> _].
  assert (Hin : (n, @nil string) ∈ (n, []) :: fields) by apply list_elem_of_here.
  apply (fields_elem _ _ _ _ _ _ Hf) in Hin as (size & groups & parent & _ & Hgr & Hin & _).
  by eapply groups_nonempty in Hin.
Qed.

(** What makes a generation fit to be resumed. *)
Record resumable (e g : string) (ex : Experiment) (t : Site T) : Prop := {
  ru_latest : _latest_generation_id e t = Some g;
  ru_read : read_experiment e g (st_ws t) = Ok ex;
  ru_open : exp_outcome ex = None;
  ru_names : exp_epoch_id ex = e /\ exp_generation_id ex = g;
  ru_source : has_generation (st_sources t) e g = true;
  ru_measured : _has_any_loss e g t = true;
  ru_pending : exists p groups, parent_generation_id ex = Some p /\ 0 <= round_index ex
                 /\ _pending_lineage_groups e (st_ws t) = Ok groups
                 /\ dict_get groups (round_index ex, p) = Some [g];
}.

Lemma classify_resumes e latest (s : Site T) plan g ex :
  _latest_generation_id e s = Some latest ->
  (classify scandir e latest s).2 = Ok plan ->
  resume_generation_id plan = Some g -> resume_experiment plan = Some ex ->
  final_ws s (classify scandir e latest s).1 = s /\ resumable e g ex s.
Proof.
  intros Hlatest Hok Hg Hx. revert Hok. unfold classify. cbv zeta.
  assert (Hdiscard : forall birth c, (wop_bind (discard_interrupted_generation scandir e latest birth)
            (fun _ => wop_ret (Ok (discarded_plan latest c))) s).2 <> Ok plan).
  { intros birth c (u & _ & Hp & _)%bind_ok. injection Hp as <-. done. }
  intros (read & Hr & Hok & ->)%read_ok. injection Hr as <-.
  destruct (read_experiment e latest (st_ws s)) as [ex'|x] eqn:Hread.
  2: { destruct (unreadable x); [|done]. apply read_ok in Hok as (present & _ & Hok & _). by apply Hdiscard in Hok. }
  case_bool_decide as Ho; [injection Hok as <-; done|].
  apply read_ok in Hok as (present & Hp & Hok & ->). injection Hp as <-.
  destruct (has_generation _ _ _) eqn:Hh; cbn [negb] in *; [|by apply Hdiscard in Hok].
  apply read_ok in Hok as (any & Ha & Hok & ->). injection Ha as <-.
  destruct (_has_any_loss e latest s) eqn:Hl; cbn [negb] in *; [|by apply Hdiscard in Hok].
  apply read_ok in Hok as (matches & Hm & Hok & ->).
  destruct matches; cbn [negb] in *; [|by apply Hdiscard in Hok].
  injection Hok as <-. cbn in Hg, Hx. injection Hg as <-. injection Hx as <-. split; [done|].
  unfold _matches_single_pending_lineage in Hm. destruct (parent_generation_id ex') as [p|] eqn:Hpar; [|done].
  destruct (String.eqb_spec (exp_epoch_id ex') e) as [He|]; [|done].
  destruct (String.eqb_spec (exp_generation_id ex') latest) as [Hgen|]; [|done].
  destruct (String.eqb p ""); [done|]. destruct (Z.ltb_spec (round_index ex') 0); [done|]. cbn in Hm.
  apply result_bind_ok in Hm as (groups & Hgr & Hm). injection Hm as Hm%bool_decide_eq_true.
  constructor; try done; [by apply eq_None_not_Some|by exists p, groups].
Qed.

(** C9.  What a restart resumes in place is the latest candidate, with the experiment that is
    on disk and still open, its source, a measurement and the one pending node of its
    round and parent; its files are the ones the interrupted run left. *)
Theorem resume_in_place_sound ingest frozen e s plan g ex :
  (prepare_resume scandir ingest frozen e s).2 = Ok plan ->
  resume_generation_id plan = Some g -> resume_experiment plan = Some ex ->
  let t := final_ws s (prepare_resume scandir ingest frozen e s).1 in
  resumable e g ex t /\ same_generation e g s t.
Proof.
  intros Hok Hg Hx t. subst t. unfold prepare_resume in *. apply bind_ok in Hok as (n & _ & Hok & ->).
  set (s1 := final_ws s _) in *.
  assert (Hs1 : same_generation e g s s1).
  { unfold s1. rewrite final_on_ws. apply replay_frame_generation. apply (keeps_final replay_frame), recover_frame. }
  unfold reconcile in *. apply bind_ok in Hok as (ids & Hsrc & Hok & ->). set (s2 := final_ws s1 _) in *.
  destruct (source_view e g s1 s2 ids Hsrc eq_refl) as [Hshrunk Hsame].
  apply bind_ok in Hok as (discarded & Hf & Hok & ->). apply bind_ok in Hok as ([] & _ & Hok & ->).
  destruct discarded as [|first_id rest]; [|injection Hok as <-; done].
  rewrite (fields_none _ _ _ Hf) in *. set (s3 := final_ws s2 _) in *.
  assert (Hs3 : same_generation e g s2 s3) by exact (keeps_final _ _ _ (clear_runtime_spares e g)).
  apply read_ok in Hok as (latest & Hl & Hok & ->). injection Hl as Hl.
  destruct latest as [latest|]; [|injection Hok as <-; done].
  destruct (String.eqb latest _); [injection Hok as <-; done|].
  destruct (classify_resumes e latest s3 plan g ex Hl Hok Hg Hx) as [-> Hru]. split; [done|].
  etrans; [exact Hs1|]. etrans; [apply Hsame|exact Hs3].
  pose proof (latest_elem _ _ _ (ru_latest _ _ _ _ Hru)) as [Hns Hdir]%elem_of_generation_ids.
  apply elem_of_generation_ids. split; [done|]. rewrite (sg_dir _ _ _ _ Hs3) in Hdir. by apply (Hshrunk e g).
Qed.
End Site.

(** ** A site on disk *)

Module ResumeWitness.
#[local] Existing Instance plain_format.
#[local] Existing Instance plain_repr.
#[local] Existing Instance plain_libm.

(** Decided on a concrete workspace. *)
Definition settled_b (e g : string) (w : Workspace) : bool :=
  match _lineage_generation_rows e w, read_experiment e g w with
  | Ok rows, Ok ex => existsb (fun row => String.eqb (lg_id row) g && bool_decide (is_Some (lg_promoted row))) rows
                      && bool_decide (is_Some (exp_outcome ex))
  | _, _ => false
  end.

Lemma settled_decided e g w : settled_b e g w = true -> settled e g w.
Proof.
  unfold settled_b. destruct (_lineage_generation_rows e w) as [rows|] eqn:Er; [|done].
  destruct (read_experiment e g w) as [ex|] eqn:Ex; [|done]. intros [Hr Ho%bool_decide_eq_true]%andb_true_iff.
  apply existsb_exists in Hr as (row & Hin & [Hid%String.eqb_eq Hp%bool_decide_eq_true]%andb_true_iff).
  split; [|by exists ex]. exists rows, row. split_and!; [done|by apply list_elem_of_In|done|].
  by destruct Hp as [? ->].
Qed.

Definition scandir (l : list Part) : list Part := l.

Definition row (gid : string) (promoted : bool) (birth : option Z) : Generation := {|
  gn_id := gid; gn_promoted := promoted; gn_created_at := "t1"; gn_round_index := birth |}.

Definition experiment_of (gid parent : string) (birth : Z) (o : option OutcomeRecord) : Experiment := {|
  experiment_id := "exp-" +:+ gid; exp_epoch_id := "epoch-1"; exp_generation_id := gid;
  parent_generation_id := Some parent; proposed_at := "t1";
  hypothesis := {| core_idea := "idea"; modulating := ["prompt"]; why := "because";
                   expected_pass_rate_delta := "+1"; risks := ""; expected_metric_movements := [] |};
  patches := [{| patch_id := "p-" +:+ gid; mutation_id := "prompt"; patch_op := op_replace;
                 new_content := Some "text"; new_numeric := None; new_enum := None; rationale := "try it" |}];
  exp_outcome := o; round_index := birth; recombined_from := [] |}.

Definition crowned : OutcomeRecord := {|
  ran_at := "t2"; pass_rate_delta := 0.25%float; drift_loss_delta := 0%float;
  scalar_score_delta := (-0.5)%float; tournament_decision := Some PROMOTED; rejection_reason := "";
  metric_movements := []; outcome_structure := "gauntlet"; final_rank := Some 1; eliminated_in_round := None;
  match_record := []; champion_eval_mode := "full"; outcome_holdout := None; train_loss := Some 0.5%float;
  holdout_loss := None; generalization_gap := None; operator_override := false;
  operator_override_reason := ""; outcome_evidence := None |}.

Definition after {A} (m : Wop A) (ws : Workspace) : Workspace := final_ws ws (m ws).1.

(** A seed and a champion. *)
Definition ancestry : Workspace :=
  let ws := {| ws_lineage := None; ws_experiments := []; ws_patches := []; ws_tournaments := [];
               ws_rounds := [("epoch-1", [("2", None)])]; ws_revisions := []; ws_hooks := [] |} in
  let ws := after (register_epoch "epoch-1" "first" "t0" "" None) ws in
  let ws := after (append_to_lineage "epoch-1" (row "v0" true None) None false "" None None) ws in
  let ws := after (append_to_lineage "epoch-1" (row "v1" true (Some 1)) (Some "v0") false "" None None) ws in
  after (write_experiment "epoch-1" "v1" (experiment_of "v1" "v0" 1 (Some crowned))) ws.

Definition candidate (gid : string) (ws : Workspace) : Workspace :=
  let ws := after (append_to_lineage "epoch-1" (row gid false (Some 2)) (Some "v1") true "" None None) ws in
  after (write_experiment "epoch-1" gid (experiment_of gid "v1" 2 None)) ws.

Definition losses : list SeedDir :=
  [{| dir_name := "seed-7"; dir_real := true; dir_entries := [("loss.tournament.r0.json", true)] |}].

Definition site (ws : Workspace) (ids : list string) (orphans : list string) : Site (list (string * string)) := {|
  st_ws := ws; st_sources := (fun g => ("epoch-1", g)) <$> (ids ++ orphans); st_dirs := (fun g => ("epoch-1", g)) <$> ids;
  st_runs := [(("epoch-1", "v1", "t1"), losses); (("epoch-1", "v2", "t1"), losses)]; st_index := ["index.db"];
  st_tournament_log := true; st_heartbeat := true; st_active_runs := ["run-1"] |}.

(** A run killed while it measured [v2], beside the source of a candidate that no record
    names. *)
Definition killed : Site (list (string * string)) := site (candidate "v2" ancestry) ["v0"; "v1"; "v2"] ["v3"].

(** A run killed before the receipt of a field of two. *)
Definition killed_field : Site (list (string * string)) :=
  site (candidate "v3" (candidate "v2" ancestry)) ["v0"; "v1"; "v2"; "v3"] [].

Definition no_ingest (_ : Workspace) (_ : SettlementReceipt) : option string := None.
Definition restart := prepare_resume scandir no_ingest None "epoch-1".

Lemma settled_survives_restart_witness :
  length (restart killed_field).1 = 19%nat
  /\ forall t, t ∈ (restart killed_field).1 -> same_generation "epoch-1" "v1" killed_field t.
Proof.
  split; [by vm_compute|]. unfold restart. intros t Ht.
  apply (settled_survives_restart scandir no_ingest None "epoch-1" "v1" killed_field t); [|exact Ht].
  apply settled_decided. by vm_compute.
Defined.

Definition plan : ResumePlan := {|
  resume_generation_id := Some "v2"; resume_experiment := Some (experiment_of "v2" "v1" 2 None);
  discarded_generation_id := None; classification := resume_tournament |}.

Lemma resume_in_place_sound_witness :
  (restart killed).2 = Ok plan
  /\ resumable "epoch-1" "v2" (experiment_of "v2" "v1" 2 None) (final_ws killed (restart killed).1)
  /\ list_generations (st_sources (final_ws killed (restart killed).1)) "epoch-1" = ["v0"; "v1"; "v2"].
Proof.
  assert (Hplan : (restart killed).2 = Ok plan) by by vm_compute. split; [exact Hplan|].
  split; [|by vm_compute]. revert Hplan. unfold restart. intros Hplan.
  exact (proj1 (resume_in_place_sound scandir no_ingest None "epoch-1" killed plan "v2"
    (experiment_of "v2" "v1" 2 None) Hplan eq_refl eq_refl)).
Defined.

Lemma no_null_receipt n : receipt_text (st_ws killed_field) "epoch-1" n <> Some (Some JNull).
Proof.
  assert (round_dirs (st_ws killed_field) "epoch-1" = [("2", None)]) as Hd by by vm_compute.
  unfold receipt_text. rewrite Hd. cbn. by case_decide.
Qed.

Lemma interrupted_discard_resumes_witness :
  _unrecorded_fields_without_receipts None "epoch-1" killed_field = Ok [(2, ["v2"; "v3"])]
  /\ forall t, t ∈ (_discard_unrecorded_fields scandir None "epoch-1" killed_field).1 ->
       _unrecorded_fields_without_receipts None "epoch-1" t = Ok [(2, ["v2"; "v3"])]
       \/ Forall (fun field => Forall (fun g => gone "epoch-1" g t) field.2) [(2, ["v2"; "v3"])].
Proof.
  assert (Hf : _unrecorded_fields_without_receipts None "epoch-1" killed_field = Ok [(2, ["v2"; "v3"])]) by by vm_compute.
  split; [exact Hf|].
  exact (proj1 (interrupted_discard_resumes scandir None "epoch-1" killed_field _ no_null_receipt Hf)).
Defined.

(** The champion of a settled round whose experiment has become unreadable is discarded,
    and the lineage goes on naming it. *)
Definition garbled_champion : Site (list (string * string)) :=
  site {| ws_lineage := ws_lineage ancestry; ws_experiments := [(("epoch-1", "v1"), None)];
          ws_patches := ws_patches ancestry; ws_tournaments := []; ws_rounds := []; ws_revisions := []; ws_hooks := [] |}
    ["v0"; "v1"] [].

Example garbled_champion_discarded :
  let t := final_ws garbled_champion (restart garbled_champion).1 in
  (restart garbled_champion).2 = Ok (discarded_plan "v1" discard_garbled)
  /\ has_dir t "epoch-1" "v1" = false
  /\ match _lineage_generation_rows "epoch-1" (st_ws t) with
     | Ok rows => (fun r => (lg_id r, lg_promoted r)) <$> rows = [("v0", Some true); ("v1", Some true)]
     | Raise _ => False
     end.
Proof. by vm_compute. Qed.
End ResumeWitness.
